(* ===== verification/_CoqProject ===== *)
-Q . S2P
Prelude.v
Monad.v
Types.v
ThdLists.v
VT.v
Sched.v
Sem.v
Mtx.v
Mem.v
Threads.v
Evt.v
Mbox.v
IOQ.v
Sys.v
Inv.v
InvPrim.v
InvSched.v
Rules.v
Total.v
Scenario.v
Wake.v
SemOK.v
MtxOK.v
TickOK.v
TickRun.v
EvtOK.v
MsgOK.v
Ring.v
MboxOK.v
IOQOK.v
HeapOK.v
HeapRep.v
SchedThm.v
SyncThm.v
DataThm.v
MemThm.v
EvTimer.v
SysThm.v
Stream.v
StreamOK.v
StreamThm.v
RdLine.v
RdLineOK.v
RdHist.v
RdThm.v
Shell.v
ShellOK.v
NgShell.v
NgShellOK.v
ShellThm.v
USBTypes.v
USBLld.v
USB.v
USBOK.v
USBThm.v
SerialUSB.v
SerialUSBOK.v
SerialUSBThm.v
OtgQueue.v
OtgQueueOK.v
OtgFifo.v
OtgThm.v
Pal.v
PalThm.v
MMCSD.v
Serial.v
SerialThm.v
Sdc.v
SdcThm.v
Crc7.v
Dma.v
Spi.v
SpiOK.v
SpiThm.v
MmcSpi.v
MmcCard.v
MmcOK.v
MmcConn.v
MmcBus.v
MmcThm.v
