(* ===== verification/Prelude.v ===== *)
(** * ChibiOS/RT on the STM32F4: kernel, drivers and console

    The repository is the ChibiOS/RT 2.6 real time kernel for ARM Cortex-M,
    its hardware abstraction layer, and an application that serves a console
    over USB.  This library models the kernel, the USB device driver with the
    serial drivers, the drivers of I/O ports, SPI buses and memory cards, and the
    console utilities, and proves them correct.  Each file opens with what it holds; this is the map.

    ** The program and the files that model it

    - Machine integers, lists, functions as maps, tactics: [Prelude].
      [Monad]: kernel functions as resumable state transformers, their proof
      rules and the pointwise equality of outcomes.
    - Structures, configuration, debug checks and the kernel state
      ([os/kernel/include/*.h], [chdebug.c], [app/chconf.h]): [Types].
    - Thread queues ([chinline.h], [chlists.h]): [ThdLists], on doubly linked
      nodes (module [Ptr], as in the source) and on lists (module [Lst], as the
      rest of the kernel model uses them), with the refinement between both.
    - Virtual timers ([chvt.c]): [VT].  Scheduler ([chschd.c]): [Sched].
      Semaphores ([chsem.c], [chbsem.h]): [Sem].  Mutexes and condition variables
      ([chmtx.c], [chcond.c]): [Mtx].  Core allocator, pools and heap
      ([chmemcore.c], [chmempools.c], [chheap.c]): [Mem].  Threads, dynamic
      threads and registry ([chthreads.c], [chdynamic.c], [chregistry.c]):
      [Threads].  Events and messages ([chevents.c], [chmsg.c]): [Evt].  Mailboxes
      ([chmboxes.c]): [Mbox].  I/O queues ([chqueues.c]): [IOQ].  System tick,
      interrupt epilogue and start ([chsys.c], [chcore_v7m.c]): [Sys].
    - USB driver ([hal/src/usb.c], [usb.h]): [USBTypes], [USB]; the OTG low level
      driver ([STM32/OTGv1/usb_lld.c]): [USBLld] for the endpoints, [OtgQueue] and
      [OtgFifo] for the FIFOs, the interrupts and the pump thread; serial over USB
      ([hal/src/serial_usb.c]): [SerialUSB].  Serial driver ([hal/src/serial.c]):
      [Serial].  Memory cards: registers ([hal/src/mmcsd.c]) in [MMCSD], the SD card
      driver ([hal/src/sdc.c]) in [Sdc].
    - I/O ports ([hal/src/pal.c], [STM32/GPIOv2/pal_lld.c]): [Pal].
    - DMA streams ([STM32F4xx/stm32_dma.c]): [Dma].  SPI driver ([hal/src/spi.c],
      [STM32/SPIv1/spi_lld.c]): [Spi], on [Dma] and the kernel.  Memory cards over
      SPI ([hal/src/mmc_spi.c]): [MmcSpi] and [Crc7], on the interface
      [MmcSpi.SpiPort], which [MmcBus] implements with [Spi].
    - Streams, memory streams and [chprintf()] ([various/chprintf.c],
      [memstreams.c]): [Stream].  Line editor ([rdline.c]): [RdLine].  The two shells
      ([shell.c], [ngshell.c]): [Shell], [NgShell].  Event timers ([evtimer.c]):
      [EvTimer].

    The functions keep the names they have in C.  A part of a function that is a
    definition of its own (a loop body, the code under a lock) has a name of
    this library, and the function calls it.

    ** How the code is modelled

    - Integers are [Z] values with the truncation of their width written out
      ([u8], [u16], [u32], [s32]).
    - The kernel state is the record [kstate]: threads, queues, timers,
      semaphores and the rest as functions from identifiers, the heap as words of
      memory by address.  A pointer is the identifier of the object, 0 or [None]
      when null.
    - A function is an [M S A]: from a state to [Done], to [Stuck] (a failed
      debug check, a bad access, a loop that does not end), or to
      [Suspend], with the rest of the function as a continuation.  A function
      suspends where the lock is released ([AtUnlock]) and where another thread
      is switched in ([AtSwitch]).  [osafe] asks for a guarantee of the state left
      at each suspension and gives a rely on the state found when the
      thread runs again; between suspensions nothing else runs.  [settle] runs
      through the [AtUnlock] suspensions with no interrupt served there.  [Total]
      has [ototal], the same as [osafe] where the function must also return.
    - Callbacks of the application are classes of parameters ([App],
      [USBTypes.UsbApp]), and so are the effects of the OTG peripheral on its own
      registers ([USBLld.OtgHw], [OtgFifo.OtgIrqHw]) and the low level drivers of
      serial ports and SD cards ([Serial.SerialLld], [Sdc.SdcLld]).  For SPI they are
      the pads and registers ([Spi.SpiEnv]) and the run of the DMA streams with
      the device ([SpiOK.SpiHw], with the law [SpiOK.hw_law]), for I/O ports the set and
      reset register ([Pal.GpioHw], with [Pal.bsrr_law]).  What a theorem needs of
      them is a hypothesis, and its witness has an instance.
    - A stream is a type with an instance of [Stream.BaseSequentialStream].  The
      terminal of the line editor is a specification ([RdLineOK.term]): a row of
      characters, a cursor and the control sequences the editor sends.

    ** Invariants and theorems

    - [Inv.KInv] is the invariant of the kernel: every thread is on the queue its
      state says, queues and the ready list are sorted by priority, counters of
      semaphores agree with their queues, owners with owned mutexes, armed timers
      with waiting threads, and so on.  [InvPrim], [InvSched], [Rules] and [Wake]
      hold the lemmas that keep it, [Scenario] the decision procedure that
      builds concrete states for the witnesses.
    - [SchedThm]: the linked queues refine lists, the most urgent thread runs,
      timers expire when asked although the list holds differences.
    - [SyncThm], with [SemOK], [MtxOK], [EvtOK], [MsgOK]: semaphores, mutexes with
      priority inheritance along chains of owners, condition variables, events
      and messages.  The passing of a mutex from its owner to a waiter is shown on
      the states of both ends, without a rely.
    - [DataThm], with [Ring], [MboxOK], [IOQOK]: mailboxes and I/O queues refine
      bounded sequences; blocking transfers are safe under any interference that
      keeps the invariant.
    - [MemThm], with [HeapOK], [HeapRep]: the heap in memory refines an address
      ordered list of free blocks, first fit and with merging.
    - [SysThm], with [TickOK] and [TickRun]: the tick takes one from every timer,
      runs the callbacks that are due, which may arm timers and broadcast events
      as [EvTimer.tmrcb] does, and wakes the threads that are due.
    - [USBThm], with [USBOK]: the control endpoint keeps its invariant under every
      request; descriptors are sent whole.  [OtgThm], with [OtgQueueOK]: packets go
      through the FIFOs whole and in order, from and to buffers and the circular
      buffers of queues, and stay within them.  [SerialUSBThm], with [SerialUSBOK]:
      transactions always fit in the queues.  [SerialThm]: bytes from and to a port
      go through the queues in order, and the flags of the channel say what
      happened.  [MMCSD]: the capacity is that of the fields of the register.
      [SdcThm]: a card is connected, and blocks are erased, by the commands of the
      protocol in their order or the operation fails, and it leaves the driver in
      the state it documents.
    - [PalThm]: modes and outputs of a group of pads are set, and no others.
    - [Dma]: streams are allocated once, and clocks and interrupts follow.
      [SpiThm], with [SpiOK]: a transfer returns with the answers of the device in
      the buffer whatever the other threads do, and its interrupt wakes the
      thread.  [Crc7]: the table computes the remainder by the polynomial of the
      standard.  [MmcThm]: a memory card over SPI is connected and its blocks are
      read and written.  [MmcCard] is the specification of the card, an automaton
      on bytes that refuses a command with a wrong checksum; [MmcOK.SpiPortOK] is the contract between the card driver and the
      SPI driver, from which [MmcOK] and [MmcConn] prove the functions of the
      former, and which [MmcBus] proves of the latter.
    - [StreamThm], with [StreamOK]: [chprintf()] prints what the format means.
      [RdThm], with [RdLineOK] and [RdHist]: buffer, cursor and terminal show the
      line of an abstract editor whatever is typed, and the history recalls it.
      [ShellThm], with [ShellOK] and [NgShellOK]: the shells run the words of the
      line.
    - Theorems on concrete inputs show where the code does not do what it means
      to ([RdThm.rdline_history_overflow] and the like).

    ** Bounds

    A loop of the source is structural, or has a bound that is proved to be
    enough where the theorem says that the function returns: the heap scans do
    at most 2^29 rounds ([iter_until 29]), as headers are eight bytes apart in
    32-bit addresses; [chEvtDispatch()] 32, one per event; priority inheritance
    the length of the registry and one, as owners on a chain are distinct; the
    tick the number of timers; a conversion of [chprintf()] 32 digits and the
    loop on the format its length and two; the line editor the characters left
    to read and one, as each round takes one; a transfer between a FIFO and a
    queue the bytes to go, as each round moves one or more.  The loops in which a function
    blocks take their number of rounds as an argument, and reaching it is the
    outcome [Rounds], which is not an error for [osafe] and is one for [ototal].  A
    memory card is busy for at most that number of polls ([MmcConn.timely]).

    ** Not modelled

    Exception frames, register saves and stacks (assembly level); the trace
    buffer and the floating point output (switched off); the start and stop of
    the OTG peripheral and the waits on it, and the other drivers of the
    hardware abstraction layer, in the main memory mapped registers; copies in
    memory by DMA, which no driver uses; the ARMv6-M port,
    which is not built; lwIP, FatFS and TinyJS, which are third party code; the
    application's start-up, boards and tests. *)
From Stdlib Require Export String ZArith Lia.
From stdpp Require Export base tactics list sets functions.
From stdpp Require Import options.

(** ** Scope and notations of the development *)

Declare Scope chibi_scope.
Delimit Scope chibi_scope with chibi.
Open Scope Z_scope.

(** ** Machine integers

    The port ([os/ports/GCC/ARMCMx/chtypes.h]) fixes every kernel integer to
    8 or 32 bits.  A value is kept as a [Z] in range; the operations that can
    leave the range are followed by the corresponding truncation. *)

Definition u8 (x : Z) : Z := x `mod` 2^8.
Definition u16 (x : Z) : Z := x `mod` 2^16.
Definition u32 (x : Z) : Z := x `mod` 2^32.
Definition s32 (x : Z) : Z := (x + 2^31) `mod` 2^32 - 2^31.

Definition is_u8 (x : Z) : Prop := 0 <= x < 2^8.
Definition is_u32 (x : Z) : Prop := 0 <= x < 2^32.
Definition is_s32 (x : Z) : Prop := -2^31 <= x < 2^31.

Lemma u8_small x : is_u8 x -> u8 x = x.
Proof. intros H. apply Z.mod_small. exact H. Qed.

Lemma u32_small x : is_u32 x -> u32 x = x.
Proof. intros H. apply Z.mod_small. exact H. Qed.

Lemma s32_small x : is_s32 x -> s32 x = x.
Proof. unfold s32, is_s32. intros H. rewrite Z.mod_small; lia. Qed.

Lemma testbit_above v w j : 0 <= v < 2^w -> 0 <= w <= j -> Z.testbit v j = false.
Proof.
  intros Hv Hw. destruct (Z.eq_dec v 0) as [->|]; [apply Z.testbit_0_l|].
  apply Z.bits_above_log2; [lia|]. assert (Z.log2 v < w) by (apply Z.log2_lt_pow2; lia). lia.
Qed.

Lemma u32_range x : is_u32 (u32 x).
Proof. unfold is_u32, u32. apply Z.mod_pos_bound. lia. Qed.

Lemma u8_range x : is_u8 (u8 x).
Proof. unfold is_u8, u8. apply Z.mod_pos_bound. lia. Qed.

Lemma s32_range x : is_s32 (s32 x).
Proof.
  unfold is_s32, s32.
  pose proof (Z.mod_pos_bound (x + 2^31) (2^32) ltac:(lia)). lia.
Qed.

Create HintDb chibi.
Create Rewrite HintDb chibi.
#[export] Hint Resolve u8_range u32_range s32_range : chibi.
#[export] Hint Rewrite u8_small u32_small s32_small using
  (unfold is_u8, is_u32, is_s32 in *; lia) : chibi.

(** ** Function updates

    The stores of the model are total functions; stdpp's [<[i:=x]> f] is the
    update. *)

Lemma fn_insert_eq {A : Type} `{EqDecision A} {T} (f : A -> T) a b :
  <[a:=b]> f a = b.
Proof. apply fn_lookup_insert. Qed.

Lemma fn_insert_ne {A : Type} `{EqDecision A} {T} (f : A -> T) a b c :
  a <> c -> <[a:=b]> f c = f c.
Proof. apply fn_lookup_insert_ne. Qed.

Lemma fn_insert_dec {A : Type} `{EqDecision A} {T} (f : A -> T) a b c :
  <[a:=b]> f c = if decide (a = c) then b else f c.
Proof. unfold insert, fn_insert. by repeat case_decide. Qed.

(** [fn_simpl] resolves the lookups of updated stores whose keys are known to
    be equal or different. *)
Ltac fn_simpl :=
  repeat first
    [ rewrite !fn_insert_eq
    | rewrite !fn_insert_eq in *
    | rewrite fn_insert_ne by (done || congruence)
    | match goal with
      | H : context [ <[?a:=_]> _ ?c ] |- _ =>
          rewrite fn_insert_ne in H by (done || congruence)
      end ].

(** ** Lists *)

(** The elements of a list with one value removed: what unlinking a node
    leaves. *)
Definition lremove {A} `{EqDecision A} (x : A) (l : list A) : list A :=
  filter (fun y => y <> x) l.

Section Lremove.
Context {A : Type} `{EqDecision A}.
Implicit Types (x y : A) (l : list A).

Lemma elem_of_lremove x y l : y ∈ lremove x l <-> y <> x /\ y ∈ l.
Proof. unfold lremove. by rewrite list_elem_of_filter. Qed.

Lemma lremove_app x l1 l2 : lremove x (l1 ++ l2) = lremove x l1 ++ lremove x l2.
Proof. unfold lremove. apply list.filter_app. Qed.

Lemma lremove_notin x l : x ∉ l -> lremove x l = l.
Proof.
  unfold lremove. induction l as [|y l IH]; [done|].
  intros [Hy Hl]%not_elem_of_cons. rewrite filter_cons_True by congruence.
  by rewrite IH.
Qed.

Lemma lremove_cons_eq x l : lremove x (x :: l) = lremove x l.
Proof. unfold lremove. rewrite filter_cons_False; tauto. Qed.

Lemma lremove_split x l1 l2 :
  x ∉ l1 -> x ∉ l2 -> lremove x (l1 ++ x :: l2) = l1 ++ l2.
Proof. intros. by rewrite lremove_app, lremove_cons_eq, !lremove_notin. Qed.

Lemma lremove_NoDup x l : NoDup l -> NoDup (lremove x l).
Proof. unfold lremove. apply list.NoDup_filter. Qed.

Lemma lremove_perm x l : NoDup l -> x ∈ l -> x :: lremove x l ≡ₚ l.
Proof.
  intros Hnd Hx. apply list_elem_of_split in Hx as (l1 & l2 & ->).
  apply list.NoDup_app in Hnd as (_ & Hd & Hn). apply list.NoDup_cons in Hn as [Hx2 _].
  rewrite lremove_split; [by rewrite Permutation_middle| |done].
  intros Hx1. apply (Hd x Hx1). set_solver.
Qed.

Lemma lremove_length x l :
  NoDup l -> x ∈ l -> length l = S (length (lremove x l)).
Proof.
  intros Hnd (l1 & l2 & ->)%list_elem_of_split.
  apply list.NoDup_app in Hnd as (_ & Hd & Hnd).
  apply list.NoDup_cons in Hnd as [Hx _].
  rewrite lremove_split; [|set_solver|done].
  rewrite !length_app. simpl. lia.
Qed.
End Lremove.

Lemma filter_length_lt {A} (P Q : A -> Prop) `{!forall x, Decision (P x)}
    `{!forall x, Decision (Q x)} (l : list A) x :
  (forall y, Q y -> P y) -> x ∈ l -> P x -> ~ Q x ->
  (length (filter Q l) < length (filter P l))%nat.
Proof.
  intros HQP Hx HP HQ.
  assert (forall l, (length (filter Q l) <= length (filter P l))%nat) as Hle.
  { clear l Hx. induction l as [|y l IH]; [done|]. rewrite !filter_cons.
    repeat case_decide; simpl; try lia. exfalso. auto. }
  induction l as [|y l IH]; [set_solver|]. rewrite !filter_cons.
  apply elem_of_cons in Hx as [<-|Hx].
  - specialize (Hle l). repeat case_decide; try done. simpl. lia.
  - specialize (IH Hx). repeat case_decide; simpl; try lia. exfalso. auto.
Qed.

(** ** Loops with a bound on a power of two

    [iter_until d f a] runs a loop whose body [f] either goes on with a new
    [inl] state or leaves with an [inr] result, for at most [2^d] rounds.  It
    is evaluated in as many rounds as the loop takes. *)

Fixpoint iter_until {A B : Type} (d : nat) (f : A -> A + B) (a : A) : A + B :=
  match d with
  | O => f a
  | S d =>
      match iter_until d f a with
      | inl a' => iter_until d f a'
      | inr b => inr b
      end
  end.

(** An invariant and a variant: the loop leaves with a result if the variant
    starts below the bound. *)
Lemma iter_until_spec {A B} (f : A -> A + B) (I : A -> Prop) (Q : B -> Prop)
    (v : A -> Z) :
  (forall a, I a ->
     match f a with inl a' => I a' /\ v a' < v a | inr b => Q b end) ->
  forall d a, I a ->
    match iter_until d f a with
    | inl a' => I a' /\ v a' + 2 ^ Z.of_nat d <= v a
    | inr b => Q b
    end.
Proof.
  intros Hf d. induction d as [|d IH]; intros a Ha.
  - simpl. specialize (Hf a Ha). destruct (f a); [|done].
    change (2 ^ Z.of_nat 0) with 1. destruct Hf. split; [done|lia].
  - cbn [iter_until]. pose proof (IH a Ha) as H1.
    destruct (iter_until d f a) as [a1|b]; [|done]. destruct H1 as [H1 V1].
    pose proof (IH a1 H1) as H2. destruct (iter_until d f a1) as [a2|b]; [|done].
    destruct H2 as [H2 V2]. split; [done|].
    rewrite Nat2Z.inj_succ, Z.pow_succ_r by lia. lia.
Qed.

Lemma iter_until_done {A B} (f : A -> A + B) (I : A -> Prop) (Q : B -> Prop)
    (v : A -> Z) d a :
  (forall a, I a -> 0 <= v a) ->
  (forall a, I a ->
     match f a with inl a' => I a' /\ v a' < v a | inr b => Q b end) ->
  I a -> v a < 2 ^ Z.of_nat d ->
  exists b, iter_until d f a = inr b /\ Q b.
Proof.
  intros Hv Hf Ha Hd. pose proof (iter_until_spec f I Q v Hf d a Ha) as Hi.
  destruct (iter_until d f a) as [a'|b]; [|eauto].
  destruct Hi as [Hi Hle]. apply Hv in Hi. lia.
Qed.

(** The same with a relation between states and the number of rounds left. *)
Lemma iter_until_rounds {A B} (f : A -> A + B) (R : nat -> A -> Prop) (Q : B -> Prop) :
  (forall n a, R n a ->
     match f a with inl a' => exists n', n = S n' /\ R n' a' | inr b => Q b end) ->
  forall d n a, R n a -> Z.of_nat n < 2 ^ Z.of_nat d ->
  exists b, iter_until d f a = inr b /\ Q b.
Proof.
  intros Hf.
  assert (forall d n a, R n a ->
    match iter_until d f a with
    | inl a' => exists n', Z.of_nat n' + 2 ^ Z.of_nat d <= Z.of_nat n /\ R n' a'
    | inr b => Q b
    end) as Hd.
  { induction d as [|d IH]; intros n a Ha.
    - simpl. specialize (Hf n a Ha). destruct (f a); [|done].
      destruct Hf as (n' & -> & Hr). exists n'. split; [|done]. simpl. lia.
    - cbn [iter_until]. pose proof (IH n a Ha) as H1.
      destruct (iter_until d f a) as [a1|b]; [|done]. destruct H1 as (n1 & L1 & R1).
      pose proof (IH n1 a1 R1) as H2. destruct (iter_until d f a1) as [a2|b]; [|done].
      destruct H2 as (n2 & L2 & R2). exists n2. split; [|done].
      rewrite Nat2Z.inj_succ, Z.pow_succ_r by lia. lia. }
  intros d n a Ha Hlt. specialize (Hd d n a Ha).
  destruct (iter_until d f a) as [a'|b]; [|eauto]. destruct Hd as (n' & Hle & _). lia.
Qed.
