(* ===== verification/Monad.v ===== *)
(** * Kernel code as resumable state transformers

    A kernel function runs under the kernel lock until it either returns or
    gives up the processor.  [outcome] records which: [Done] carries the
    result and the new state, [Suspend AtSwitch] is a [chSysSwitch()] to
    another thread, [Suspend AtUnlock] is a [chSysUnlock()] (interrupts are
    served there), and both carry the rest of the function as a continuation
    that receives the state found when the thread runs again.  [Stuck] is
    the outcome of a failed debug check, an access through a pointer that
    does not designate an object, a loop that does not end, or a loop that
    blocks more often than the bound given to it.

    The file also holds the proof rules of the monad ([osafe], a
    weakest-precondition with a guarantee at every suspension and a rely at
    every resumption) and the pointwise equality of outcomes. *)
From S2P Require Import Prelude.

Inductive stuck :=
  | Panic (msg : string)     (* chDbgPanic(): a failed check or assertion *)
  | Fault (msg : string)     (* undefined access through a pointer *)
  | Diverge                  (* a loop of the source that does not end *)
  | Rounds.                  (* the bound on the rounds of a loop in which
                                the function blocks was reached *)

Inductive susp := AtSwitch | AtUnlock.

Inductive outcome (S A : Type) :=
  | Done (a : A) (s : S)
  | Suspend (w : susp) (s : S) (k : S -> outcome S A)
  | Stuck (e : stuck).
Arguments Done {S A} a s.
Arguments Suspend {S A} w s k.
Arguments Stuck {S A} e.

Definition M (S A : Type) : Type := S -> outcome S A.

Section Monad.
Context {S : Type}.

Definition mret' {A} (a : A) : M S A := fun s => Done a s.

Fixpoint obind {A B} (o : outcome S A) (f : A -> M S B) : outcome S B :=
  match o with
  | Done a s => f a s
  | Suspend w s k => Suspend w s (fun s' => obind (k s') f)
  | Stuck e => Stuck e
  end.

Definition bind {A B} (m : M S A) (f : A -> M S B) : M S B :=
  fun s => obind (m s) f.

Definition get : M S S := fun s => Done s s.
Definition gets {A} (f : S -> A) : M S A := fun s => Done (f s) s.
Definition modify (f : S -> S) : M S unit := fun s => Done tt (f s).
Definition fault {A} (msg : string) : M S A := fun _ => Stuck (Fault msg).
Definition panic {A} (msg : string) : M S A := fun _ => Stuck (Panic msg).
Definition diverge {A} : M S A := fun _ => Stuck Diverge.
Definition suspend (w : susp) : M S unit :=
  fun s => Suspend w s (fun s' => Done tt s').

(** [while (c) body], with a bound on the number of iterations. *)
Fixpoint mwhile (fuel : nat) (c : S -> bool) (body : M S unit) : M S unit :=
  fun s =>
    if c s then
      match fuel with
      | O => Stuck Diverge
      | Datatypes.S n => bind body (fun _ => mwhile n c body) s
      end
    else Done tt s.
End Monad.

Declare Scope kmonad_scope.
Delimit Scope kmonad_scope with km.
Notation "'let!' x := m 'in' k" := (bind m (fun x => k))
  (at level 10, x name, m at level 100, k at level 200)
  : kmonad_scope.
Notation "m ;;; k" := (bind m (fun _ => k))
  (at level 199, k at level 200, right associativity) : kmonad_scope.
Notation "'whenb' b 'then' m" := (if b then m else mret' tt)
  (at level 10, b at level 100, m at level 200) : kmonad_scope.
Open Scope kmonad_scope.

(** ** Safety of an outcome

    [osafe G R Q o]: [o] never gets stuck, every suspension leaves a state in
    [G], and if every resumption finds a state related by [R] to the one left
    behind, the function returns in [Q].  A function that blocks in a loop
    has a bound on its rounds as an argument; running out of them counts as
    safe, and a theorem for every bound says what each round does. *)

Section Safety.
Context {S : Type}.
Variable G : susp -> S -> Prop.
Variable R : susp -> S -> S -> Prop.

Fixpoint osafe {A} (Q : A -> S -> Prop) (o : outcome S A) : Prop :=
  match o with
  | Done a s => Q a s
  | Suspend w s k => G w s /\ forall s', R w s s' -> osafe Q (k s')
  | Stuck Rounds => True
  | Stuck _ => False
  end.

Lemma osafe_mono {A} (Q Q' : A -> S -> Prop) o :
  (forall a s, Q a s -> Q' a s) -> osafe Q o -> osafe Q' o.
Proof.
  intros HQ. induction o as [a s|w s k IH|e]; simpl; auto.
  intros [HG Hk]. split; [done|]. intros s' HR. apply IH, Hk, HR.
Qed.

Lemma osafe_obind {A B} (Q : B -> S -> Prop) (o : outcome S A) f :
  osafe (fun a s => osafe Q (f a s)) o -> osafe Q (obind o f).
Proof.
  induction o as [a s|w s k IH|e]; simpl; auto.
  intros [HG Hk]. split; [done|]. intros s' HR. apply IH, Hk, HR.
Qed.

Lemma osafe_bind {A B} (Q : B -> S -> Prop) (m : M S A) f s :
  osafe (fun a s => osafe Q (f a s)) (m s) -> osafe Q (bind m f s).
Proof. apply osafe_obind. Qed.

Lemma osafe_suspend (Q : unit -> S -> Prop) w s :
  G w s -> (forall s', R w s s' -> Q tt s') -> osafe Q (suspend w s).
Proof. simpl. auto. Qed.

(** The rule for a bounded loop: an invariant, and a variant that is
    positive while the loop runs and starts below the bound. *)
Lemma osafe_mwhile (I : S -> Prop) (v : S -> nat) (c : S -> bool) body
    (Q : unit -> S -> Prop) :
  (forall s, I s -> c s = true -> (0 < v s)%nat /\
    osafe (fun _ s' => I s' /\ (v s' < v s)%nat) (body s)) ->
  (forall s, I s -> c s = false -> Q tt s) ->
  forall fuel s, I s -> (v s <= fuel)%nat -> osafe Q (mwhile fuel c body s).
Proof.
  intros Hbody Hexit fuel. induction fuel as [|n IH]; intros s HI Hv; simpl;
    (destruct (c s) eqn:Hc; [|by apply Hexit]);
    destruct (Hbody s HI Hc) as [Hpos Hb].
  - lia.
  - apply osafe_bind. eapply osafe_mono; [|exact Hb].
    intros _ s' [HI' Hlt]. apply IH; [done|lia].
Qed.
End Safety.

(** ** Pointwise equality of outcomes

    Continuations are functions of the state found at resumption, so two
    outcomes that behave alike need not be convertible; [oeq] is the
    equivalence that ignores how a continuation is written. *)

Section Equivalence.
Context {S A : Type}.

Inductive oeq : outcome S A -> outcome S A -> Prop :=
  | oeq_done a s : oeq (Done a s) (Done a s)
  | oeq_suspend w s k k' :
      (forall s', oeq (k s') (k' s')) -> oeq (Suspend w s k) (Suspend w s k')
  | oeq_stuck e : oeq (Stuck e) (Stuck e).

#[global] Instance oeq_equivalence : Equivalence oeq.
Proof.
  split.
  - intros o. induction o; constructor; auto.
  - intros o o' H. induction H; constructor; auto.
  - intros o1 o2 o3 H. revert o3. induction H as [|w s k k' _ IH|];
      intros o3 H3; inversion H3; subst; constructor; auto.
Qed.
End Equivalence.

#[global] Instance obind_proper {S A B : Type} :
  Proper (oeq ==> pointwise_relation A (pointwise_relation S oeq) ==> oeq)
    (@obind S A B).
Proof.
  intros o o' H f f' Hf. induction H; simpl; [apply Hf|constructor; auto|constructor].
Qed.

#[global] Instance osafe_proper {S A : Type} (G : susp -> S -> Prop)
    (R : susp -> S -> S -> Prop) (Q : A -> S -> Prop) :
  Proper (oeq ==> iff) (osafe G R Q).
Proof.
  intros o o' H. induction H as [|w s k k' _ IH|]; simpl; [done| |done].
  split; intros [HG Hk]; (split; [done|]); intros s' HR; apply IH, Hk, HR.
Qed.

Lemma bind_assoc {S A B C : Type} (m : M S A) (f : A -> M S B) (g : B -> M S C) s :
  oeq (bind (bind m f) g s) (bind m (fun a => bind (f a) g) s).
Proof.
  unfold bind. generalize (m s). intros o.
  induction o as [a s'|w s' k IH|e]; simpl; [reflexivity|constructor; auto|constructor].
Qed.

(** Running a function with no interference at its unlock points. *)
Fixpoint settle {S A : Type} (o : outcome S A) : outcome S A :=
  match o with
  | Suspend AtUnlock s k => settle (k s)
  | _ => o
  end.
