(* ===== verification/Types.v ===== *)
(** * Kernel data types and state

    The types of [os/kernel/include/*.h] and [chtypes.h], the build
    configuration of [app/chconf.h] as a type class, and the kernel state: the
    ready list header [rlist], the timers list header [vtlist] and the stores
    of threads and synchronization objects.

    An object is designated by its address, a [Z].  Stores are total
    functions, so reading a field through a pointer is a function
    application; a pointer that can be [NULL] is an [option].  An intrusive
    linked list is the Rocq list of its elements in link order ([ThdLists]
    proves the pointer code of [chlists.c] against these lists). *)
From S2P Require Import Prelude Monad.

Abbreviation tid := Z (only parsing).   (* Thread pointers *)
Abbreviation sid := Z (only parsing).   (* Semaphore pointers *)
Abbreviation mid := Z (only parsing).   (* Mutex pointers *)

(** ** Thread states, flags, priorities and wakeup codes *)

Inductive tstate :=
  | THD_STATE_READY
  | THD_STATE_CURRENT
  | THD_STATE_SUSPENDED
  | THD_STATE_WTSEM
  | THD_STATE_WTMTX
  | THD_STATE_WTCOND
  | THD_STATE_SLEEPING
  | THD_STATE_WTEXIT
  | THD_STATE_WTOREVT
  | THD_STATE_WTANDEVT
  | THD_STATE_SNDMSGQ
  | THD_STATE_SNDMSG
  | THD_STATE_WTMSG
  | THD_STATE_WTQUEUE
  | THD_STATE_FINAL.

#[export] Instance tstate_eq_dec : EqDecision tstate.
Proof. solve_decision. Defined.

Definition THD_MEM_MODE_MASK : Z := 3.
Definition THD_MEM_MODE_STATIC : Z := 0.
Definition THD_MEM_MODE_HEAP : Z := 1.
Definition THD_MEM_MODE_MEMPOOL : Z := 2.
Definition THD_TERMINATE : Z := 4.

Definition RDY_OK : Z := 0.
Definition RDY_TIMEOUT : Z := -1.
Definition RDY_RESET : Z := -2.

Definition NOPRIO : Z := 0.
Definition IDLEPRIO : Z := 1.
Definition LOWPRIO : Z := 2.
Definition NORMALPRIO : Z := 64.
Definition HIGHPRIO : Z := 127.
Definition ABSPRIO : Z := 255.

Definition TIME_IMMEDIATE : Z := 0.
Definition TIME_INFINITE : Z := 2^32 - 1.

(** ** Thread queues and wait objects

    Every queue header of the kernel: the ready list, and the [ThreadsQueue]
    that is the first field of a semaphore, mutex, condition variable or I/O
    queue, or the [p_msgqueue] of a thread.  As the queue is the first field,
    the [p_u.wtobjp] pointer to a wait object is also the pointer to its
    queue. *)

Inductive qid :=
  | QReady
  | QSem (sp : sid)
  | QMtx (mp : mid)
  | QCond (cp : Z)
  | QIO (qp : Z)
  | QMsg (tp : tid).

#[export] Instance qid_eq_dec : EqDecision qid.
Proof. solve_decision. Defined.

(** The union [p_u]: [rdymsg] and [exitcode] are both a [msg_t] at the same
    offset. *)
Inductive punion :=
  | U_msg (msg : Z)
  | U_wtobjp (q : qid)
  | U_ewmask (mask : Z).

(** ** Build configuration *)

Class Config := {
  CH_TIME_QUANTUM : Z;
  CH_FREQUENCY : Z;
  CH_USE_SEMAPHORES_PRIORITY : bool;
  CH_USE_MESSAGES_PRIORITY : bool;
  CH_DBG_SYSTEM_STATE_CHECK : bool;
  CH_DBG_ENABLE_CHECKS : bool;
  CH_DBG_ENABLE_ASSERTS : bool;
  THD_WA_SIZE0 : Z;             (* THD_WA_SIZE(0) *)
  addr_of : qid -> Z            (* the address of a wait object, as a word *)
}.

(** The configuration of the application. *)
Definition app_config : Config := {|
  CH_TIME_QUANTUM := 20;
  CH_FREQUENCY := 1000;
  CH_USE_SEMAPHORES_PRIORITY := false;
  CH_USE_MESSAGES_PRIORITY := false;
  CH_DBG_SYSTEM_STATE_CHECK := false;
  CH_DBG_ENABLE_CHECKS := false;
  CH_DBG_ENABLE_ASSERTS := false;
  THD_WA_SIZE0 := 312;
  addr_of := fun _ => 0x20000000
|}.

(** The same with every debug option enabled. *)
Definition debug_config : Config := {|
  CH_TIME_QUANTUM := 20;
  CH_FREQUENCY := 1000;
  CH_USE_SEMAPHORES_PRIORITY := false;
  CH_USE_MESSAGES_PRIORITY := false;
  CH_DBG_SYSTEM_STATE_CHECK := true;
  CH_DBG_ENABLE_CHECKS := true;
  CH_DBG_ENABLE_ASSERTS := true;
  THD_WA_SIZE0 := 312;
  addr_of := fun _ => 0x20000000
|}.

(** Reads of the union: every member occupies the same word. *)
Definition u_rdymsg `{Config} (u : punion) : Z :=
  match u with
  | U_msg m => m
  | U_wtobjp q => s32 (addr_of q)
  | U_ewmask m => s32 m
  end.

Definition u_ewmask `{Config} (u : punion) : Z :=
  match u with
  | U_msg m => u32 m
  | U_wtobjp q => u32 (addr_of q)
  | U_ewmask m => m
  end.

Definition u_wtobjp (u : punion) : option qid :=
  match u with U_wtobjp q => Some q | _ => None end.

(** ** The [Thread] structure *)

Record Thread := mkThread {
  p_prio : Z;
  p_state : tstate;
  p_flags : Z;
  p_refs : Z;
  p_preempt : Z;
  p_time : Z;
  p_u : punion;
  p_waiting : list tid;
  p_msg : Z;
  p_epending : Z;
  p_mtxlist : list mid;
  p_realprio : Z;
  p_mpool : option Z;
  p_name : option Z
}.

Definition set_p_prio (v : Z) (t : Thread) : Thread :=
  mkThread v (p_state t) (p_flags t) (p_refs t) (p_preempt t) (p_time t) (p_u
    t) (p_waiting t) (p_msg t) (p_epending t) (p_mtxlist t) (p_realprio t)
    (p_mpool t) (p_name t).
Definition set_p_state (v : tstate) (t : Thread) : Thread :=
  mkThread (p_prio t) v (p_flags t) (p_refs t) (p_preempt t) (p_time t) (p_u
    t) (p_waiting t) (p_msg t) (p_epending t) (p_mtxlist t) (p_realprio t)
    (p_mpool t) (p_name t).
Definition set_p_flags (v : Z) (t : Thread) : Thread :=
  mkThread (p_prio t) (p_state t) v (p_refs t) (p_preempt t) (p_time t) (p_u
    t) (p_waiting t) (p_msg t) (p_epending t) (p_mtxlist t) (p_realprio t)
    (p_mpool t) (p_name t).
Definition set_p_refs (v : Z) (t : Thread) : Thread :=
  mkThread (p_prio t) (p_state t) (p_flags t) v (p_preempt t) (p_time t) (p_u
    t) (p_waiting t) (p_msg t) (p_epending t) (p_mtxlist t) (p_realprio t)
    (p_mpool t) (p_name t).
Definition set_p_preempt (v : Z) (t : Thread) : Thread :=
  mkThread (p_prio t) (p_state t) (p_flags t) (p_refs t) v (p_time t) (p_u t)
    (p_waiting t) (p_msg t) (p_epending t) (p_mtxlist t) (p_realprio t)
    (p_mpool t) (p_name t).
Definition set_p_time (v : Z) (t : Thread) : Thread :=
  mkThread (p_prio t) (p_state t) (p_flags t) (p_refs t) (p_preempt t) v (p_u
    t) (p_waiting t) (p_msg t) (p_epending t) (p_mtxlist t) (p_realprio t)
    (p_mpool t) (p_name t).
Definition set_p_u (v : punion) (t : Thread) : Thread :=
  mkThread (p_prio t) (p_state t) (p_flags t) (p_refs t) (p_preempt t) (p_time
    t) v (p_waiting t) (p_msg t) (p_epending t) (p_mtxlist t) (p_realprio t)
    (p_mpool t) (p_name t).
Definition set_p_waiting (v : list tid) (t : Thread) : Thread :=
  mkThread (p_prio t) (p_state t) (p_flags t) (p_refs t) (p_preempt t) (p_time
    t) (p_u t) v (p_msg t) (p_epending t) (p_mtxlist t) (p_realprio t)
    (p_mpool t) (p_name t).
Definition set_p_msg (v : Z) (t : Thread) : Thread :=
  mkThread (p_prio t) (p_state t) (p_flags t) (p_refs t) (p_preempt t) (p_time
    t) (p_u t) (p_waiting t) v (p_epending t) (p_mtxlist t) (p_realprio t)
    (p_mpool t) (p_name t).
Definition set_p_epending (v : Z) (t : Thread) : Thread :=
  mkThread (p_prio t) (p_state t) (p_flags t) (p_refs t) (p_preempt t) (p_time
    t) (p_u t) (p_waiting t) (p_msg t) v (p_mtxlist t) (p_realprio t) (p_mpool
    t) (p_name t).
Definition set_p_mtxlist (v : list mid) (t : Thread) : Thread :=
  mkThread (p_prio t) (p_state t) (p_flags t) (p_refs t) (p_preempt t) (p_time
    t) (p_u t) (p_waiting t) (p_msg t) (p_epending t) v (p_realprio t)
    (p_mpool t) (p_name t).
Definition set_p_realprio (v : Z) (t : Thread) : Thread :=
  mkThread (p_prio t) (p_state t) (p_flags t) (p_refs t) (p_preempt t) (p_time
    t) (p_u t) (p_waiting t) (p_msg t) (p_epending t) (p_mtxlist t) v (p_mpool
    t) (p_name t).
Definition set_p_mpool (v : option Z) (t : Thread) : Thread :=
  mkThread (p_prio t) (p_state t) (p_flags t) (p_refs t) (p_preempt t) (p_time
    t) (p_u t) (p_waiting t) (p_msg t) (p_epending t) (p_mtxlist t)
    (p_realprio t) v (p_name t).
Definition set_p_name (v : option Z) (t : Thread) : Thread :=
  mkThread (p_prio t) (p_state t) (p_flags t) (p_refs t) (p_preempt t) (p_time
    t) (p_u t) (p_waiting t) (p_msg t) (p_epending t) (p_mtxlist t)
    (p_realprio t) (p_mpool t) v.

(** The content of a [Thread] structure that holds no thread. *)
Definition no_thread : Thread :=
  mkThread 0 THD_STATE_FINAL 0 0 0 0 (U_msg 0) [] 0 0 [] 0 None None.

(** ** Virtual timers

    A timer is either the automatic variable [vt] of a thread blocked in
    [chSchGoSleepTimeoutS()] or an application timer. *)

Inductive vtid := VTStack (tp : tid) | VTUser (vtp : Z).
#[export] Instance vtid_eq_dec : EqDecision vtid.
Proof. solve_decision. Defined.

Inductive vtfunc := VF_wakeup | VF_user (fn : Z).

Record VirtualTimer := mkVT {
  vt_time : Z;
  vt_func : option vtfunc;
  vt_par : Z
}.

Definition set_vt_time (v : Z) (t : VirtualTimer) : VirtualTimer :=
  mkVT v (vt_func t) (vt_par t).
Definition set_vt_func (v : option vtfunc) (t : VirtualTimer) : VirtualTimer
    :=
  mkVT (vt_time t) v (vt_par t).
Definition set_vt_par (v : Z) (t : VirtualTimer) : VirtualTimer :=
  mkVT (vt_time t) (vt_func t) v.

(** ** Event listeners, mailboxes and I/O queues *)

Record EventListener := mkEL {
  el_listener : tid;
  el_mask : Z;
  el_flags : Z
}.

Definition set_el_listener (v : tid) (e : EventListener) : EventListener :=
  mkEL v (el_mask e) (el_flags e).
Definition set_el_mask (v : Z) (e : EventListener) : EventListener :=
  mkEL (el_listener e) v (el_flags e).
Definition set_el_flags (v : Z) (e : EventListener) : EventListener :=
  mkEL (el_listener e) (el_mask e) v.

(** Buffer pointers are kept as offsets from the start of the buffer; the
    buffer size is the length of its contents. *)
Record Mailbox := mkMB {
  mb_buffer : list Z;
  mb_wrptr : Z;
  mb_rdptr : Z;
  mb_fullsem : sid;
  mb_emptysem : sid
}.

Definition set_mb_buffer (v : list Z) (m : Mailbox) : Mailbox :=
  mkMB v (mb_wrptr m) (mb_rdptr m) (mb_fullsem m) (mb_emptysem m).
Definition set_mb_wrptr (v : Z) (m : Mailbox) : Mailbox :=
  mkMB (mb_buffer m) v (mb_rdptr m) (mb_fullsem m) (mb_emptysem m).
Definition set_mb_rdptr (v : Z) (m : Mailbox) : Mailbox :=
  mkMB (mb_buffer m) (mb_wrptr m) v (mb_fullsem m) (mb_emptysem m).
Definition set_mb_fullsem (v : sid) (m : Mailbox) : Mailbox :=
  mkMB (mb_buffer m) (mb_wrptr m) (mb_rdptr m) v (mb_emptysem m).
Definition set_mb_emptysem (v : sid) (m : Mailbox) : Mailbox :=
  mkMB (mb_buffer m) (mb_wrptr m) (mb_rdptr m) (mb_fullsem m) v.

Record IOQueue := mkIOQ {
  q_counter : Z;
  q_buffer : list Z;
  q_wrptr : Z;
  q_rdptr : Z;
  q_notify : option Z;
  q_link : Z
}.

Definition set_q_counter (v : Z) (q : IOQueue) : IOQueue :=
  mkIOQ v (q_buffer q) (q_wrptr q) (q_rdptr q) (q_notify q) (q_link q).
Definition set_q_buffer (v : list Z) (q : IOQueue) : IOQueue :=
  mkIOQ (q_counter q) v (q_wrptr q) (q_rdptr q) (q_notify q) (q_link q).
Definition set_q_wrptr (v : Z) (q : IOQueue) : IOQueue :=
  mkIOQ (q_counter q) (q_buffer q) v (q_rdptr q) (q_notify q) (q_link q).
Definition set_q_rdptr (v : Z) (q : IOQueue) : IOQueue :=
  mkIOQ (q_counter q) (q_buffer q) (q_wrptr q) v (q_notify q) (q_link q).
Definition set_q_notify (v : option Z) (q : IOQueue) : IOQueue :=
  mkIOQ (q_counter q) (q_buffer q) (q_wrptr q) (q_rdptr q) v (q_link q).
Definition set_q_link (v : Z) (q : IOQueue) : IOQueue :=
  mkIOQ (q_counter q) (q_buffer q) (q_wrptr q) (q_rdptr q) (q_notify q) v.

(** ** Memory allocators

    [memget] is the set of functions a [memgetfunc_t] pointer can designate. *)

Inductive memget := MG_chCoreAlloc | MG_chCoreAllocI | MG_user (fn : Z).

Record MemoryPool := mkPool {
  mp_next : Z;
  mp_object_size : Z;
  mp_provider : option memget
}.

Definition set_mp_next (v : Z) (p : MemoryPool) : MemoryPool :=
  mkPool v (mp_object_size p) (mp_provider p).
Definition set_mp_object_size (v : Z) (p : MemoryPool) : MemoryPool :=
  mkPool (mp_next p) v (mp_provider p).
Definition set_mp_provider (v : option memget) (p : MemoryPool) : MemoryPool
    :=
  mkPool (mp_next p) (mp_object_size p) v.

(** ** The kernel state *)

Record kstate := mkK {
  k_thd : tid -> Thread;
  k_q : qid -> list tid;
  k_curr : tid;
  k_rprio : Z;
  k_reg : list tid;
  k_vtl : list vtid;
  k_vt : vtid -> VirtualTimer;
  k_vth : Z;
  k_systime : Z;
  k_sem : sid -> Z;
  k_mtx : mid -> option tid;
  k_es : Z -> list Z;
  k_el : Z -> EventListener;
  k_mb : Z -> Mailbox;
  k_ioq : Z -> IOQueue;
  k_lock_cnt : Z;
  k_isr_cnt : Z;
  k_mem : Z -> Z;
  k_nextmem : Z;
  k_endmem : Z;
  k_heap : Z -> option memget;
  k_pool : Z -> MemoryPool
}.

Definition set_k_thd (v : tid -> Thread) (s : kstate) : kstate :=
  mkK v (k_q s) (k_curr s) (k_rprio s) (k_reg s) (k_vtl s) (k_vt s) (k_vth s)
    (k_systime s) (k_sem s) (k_mtx s) (k_es s) (k_el s) (k_mb s) (k_ioq s)
    (k_lock_cnt s) (k_isr_cnt s) (k_mem s) (k_nextmem s) (k_endmem s) (k_heap
    s) (k_pool s).
Definition set_k_q (v : qid -> list tid) (s : kstate) : kstate :=
  mkK (k_thd s) v (k_curr s) (k_rprio s) (k_reg s) (k_vtl s) (k_vt s) (k_vth
    s) (k_systime s) (k_sem s) (k_mtx s) (k_es s) (k_el s) (k_mb s) (k_ioq s)
    (k_lock_cnt s) (k_isr_cnt s) (k_mem s) (k_nextmem s) (k_endmem s) (k_heap
    s) (k_pool s).
Definition set_k_curr (v : tid) (s : kstate) : kstate :=
  mkK (k_thd s) (k_q s) v (k_rprio s) (k_reg s) (k_vtl s) (k_vt s) (k_vth s)
    (k_systime s) (k_sem s) (k_mtx s) (k_es s) (k_el s) (k_mb s) (k_ioq s)
    (k_lock_cnt s) (k_isr_cnt s) (k_mem s) (k_nextmem s) (k_endmem s) (k_heap
    s) (k_pool s).
Definition set_k_rprio (v : Z) (s : kstate) : kstate :=
  mkK (k_thd s) (k_q s) (k_curr s) v (k_reg s) (k_vtl s) (k_vt s) (k_vth s)
    (k_systime s) (k_sem s) (k_mtx s) (k_es s) (k_el s) (k_mb s) (k_ioq s)
    (k_lock_cnt s) (k_isr_cnt s) (k_mem s) (k_nextmem s) (k_endmem s) (k_heap
    s) (k_pool s).
Definition set_k_reg (v : list tid) (s : kstate) : kstate :=
  mkK (k_thd s) (k_q s) (k_curr s) (k_rprio s) v (k_vtl s) (k_vt s) (k_vth s)
    (k_systime s) (k_sem s) (k_mtx s) (k_es s) (k_el s) (k_mb s) (k_ioq s)
    (k_lock_cnt s) (k_isr_cnt s) (k_mem s) (k_nextmem s) (k_endmem s) (k_heap
    s) (k_pool s).
Definition set_k_vtl (v : list vtid) (s : kstate) : kstate :=
  mkK (k_thd s) (k_q s) (k_curr s) (k_rprio s) (k_reg s) v (k_vt s) (k_vth s)
    (k_systime s) (k_sem s) (k_mtx s) (k_es s) (k_el s) (k_mb s) (k_ioq s)
    (k_lock_cnt s) (k_isr_cnt s) (k_mem s) (k_nextmem s) (k_endmem s) (k_heap
    s) (k_pool s).
Definition set_k_vt (v : vtid -> VirtualTimer) (s : kstate) : kstate :=
  mkK (k_thd s) (k_q s) (k_curr s) (k_rprio s) (k_reg s) (k_vtl s) v (k_vth s)
    (k_systime s) (k_sem s) (k_mtx s) (k_es s) (k_el s) (k_mb s) (k_ioq s)
    (k_lock_cnt s) (k_isr_cnt s) (k_mem s) (k_nextmem s) (k_endmem s) (k_heap
    s) (k_pool s).
Definition set_k_vth (v : Z) (s : kstate) : kstate :=
  mkK (k_thd s) (k_q s) (k_curr s) (k_rprio s) (k_reg s) (k_vtl s) (k_vt s) v
    (k_systime s) (k_sem s) (k_mtx s) (k_es s) (k_el s) (k_mb s) (k_ioq s)
    (k_lock_cnt s) (k_isr_cnt s) (k_mem s) (k_nextmem s) (k_endmem s) (k_heap
    s) (k_pool s).
Definition set_k_systime (v : Z) (s : kstate) : kstate :=
  mkK (k_thd s) (k_q s) (k_curr s) (k_rprio s) (k_reg s) (k_vtl s) (k_vt s)
    (k_vth s) v (k_sem s) (k_mtx s) (k_es s) (k_el s) (k_mb s) (k_ioq s)
    (k_lock_cnt s) (k_isr_cnt s) (k_mem s) (k_nextmem s) (k_endmem s) (k_heap
    s) (k_pool s).
Definition set_k_sem (v : sid -> Z) (s : kstate) : kstate :=
  mkK (k_thd s) (k_q s) (k_curr s) (k_rprio s) (k_reg s) (k_vtl s) (k_vt s)
    (k_vth s) (k_systime s) v (k_mtx s) (k_es s) (k_el s) (k_mb s) (k_ioq s)
    (k_lock_cnt s) (k_isr_cnt s) (k_mem s) (k_nextmem s) (k_endmem s) (k_heap
    s) (k_pool s).
Definition set_k_mtx (v : mid -> option tid) (s : kstate) : kstate :=
  mkK (k_thd s) (k_q s) (k_curr s) (k_rprio s) (k_reg s) (k_vtl s) (k_vt s)
    (k_vth s) (k_systime s) (k_sem s) v (k_es s) (k_el s) (k_mb s) (k_ioq s)
    (k_lock_cnt s) (k_isr_cnt s) (k_mem s) (k_nextmem s) (k_endmem s) (k_heap
    s) (k_pool s).
Definition set_k_es (v : Z -> list Z) (s : kstate) : kstate :=
  mkK (k_thd s) (k_q s) (k_curr s) (k_rprio s) (k_reg s) (k_vtl s) (k_vt s)
    (k_vth s) (k_systime s) (k_sem s) (k_mtx s) v (k_el s) (k_mb s) (k_ioq s)
    (k_lock_cnt s) (k_isr_cnt s) (k_mem s) (k_nextmem s) (k_endmem s) (k_heap
    s) (k_pool s).
Definition set_k_el (v : Z -> EventListener) (s : kstate) : kstate :=
  mkK (k_thd s) (k_q s) (k_curr s) (k_rprio s) (k_reg s) (k_vtl s) (k_vt s)
    (k_vth s) (k_systime s) (k_sem s) (k_mtx s) (k_es s) v (k_mb s) (k_ioq s)
    (k_lock_cnt s) (k_isr_cnt s) (k_mem s) (k_nextmem s) (k_endmem s) (k_heap
    s) (k_pool s).
Definition set_k_mb (v : Z -> Mailbox) (s : kstate) : kstate :=
  mkK (k_thd s) (k_q s) (k_curr s) (k_rprio s) (k_reg s) (k_vtl s) (k_vt s)
    (k_vth s) (k_systime s) (k_sem s) (k_mtx s) (k_es s) (k_el s) v (k_ioq s)
    (k_lock_cnt s) (k_isr_cnt s) (k_mem s) (k_nextmem s) (k_endmem s) (k_heap
    s) (k_pool s).
Definition set_k_ioq (v : Z -> IOQueue) (s : kstate) : kstate :=
  mkK (k_thd s) (k_q s) (k_curr s) (k_rprio s) (k_reg s) (k_vtl s) (k_vt s)
    (k_vth s) (k_systime s) (k_sem s) (k_mtx s) (k_es s) (k_el s) (k_mb s) v
    (k_lock_cnt s) (k_isr_cnt s) (k_mem s) (k_nextmem s) (k_endmem s) (k_heap
    s) (k_pool s).
Definition set_k_lock_cnt (v : Z) (s : kstate) : kstate :=
  mkK (k_thd s) (k_q s) (k_curr s) (k_rprio s) (k_reg s) (k_vtl s) (k_vt s)
    (k_vth s) (k_systime s) (k_sem s) (k_mtx s) (k_es s) (k_el s) (k_mb s)
    (k_ioq s) v (k_isr_cnt s) (k_mem s) (k_nextmem s) (k_endmem s) (k_heap s)
    (k_pool s).
Definition set_k_isr_cnt (v : Z) (s : kstate) : kstate :=
  mkK (k_thd s) (k_q s) (k_curr s) (k_rprio s) (k_reg s) (k_vtl s) (k_vt s)
    (k_vth s) (k_systime s) (k_sem s) (k_mtx s) (k_es s) (k_el s) (k_mb s)
    (k_ioq s) (k_lock_cnt s) v (k_mem s) (k_nextmem s) (k_endmem s) (k_heap s)
    (k_pool s).
Definition set_k_mem (v : Z -> Z) (s : kstate) : kstate :=
  mkK (k_thd s) (k_q s) (k_curr s) (k_rprio s) (k_reg s) (k_vtl s) (k_vt s)
    (k_vth s) (k_systime s) (k_sem s) (k_mtx s) (k_es s) (k_el s) (k_mb s)
    (k_ioq s) (k_lock_cnt s) (k_isr_cnt s) v (k_nextmem s) (k_endmem s)
    (k_heap s) (k_pool s).
Definition set_k_nextmem (v : Z) (s : kstate) : kstate :=
  mkK (k_thd s) (k_q s) (k_curr s) (k_rprio s) (k_reg s) (k_vtl s) (k_vt s)
    (k_vth s) (k_systime s) (k_sem s) (k_mtx s) (k_es s) (k_el s) (k_mb s)
    (k_ioq s) (k_lock_cnt s) (k_isr_cnt s) (k_mem s) v (k_endmem s) (k_heap s)
    (k_pool s).
Definition set_k_endmem (v : Z) (s : kstate) : kstate :=
  mkK (k_thd s) (k_q s) (k_curr s) (k_rprio s) (k_reg s) (k_vtl s) (k_vt s)
    (k_vth s) (k_systime s) (k_sem s) (k_mtx s) (k_es s) (k_el s) (k_mb s)
    (k_ioq s) (k_lock_cnt s) (k_isr_cnt s) (k_mem s) (k_nextmem s) v (k_heap
    s) (k_pool s).
Definition set_k_heap (v : Z -> option memget) (s : kstate) : kstate :=
  mkK (k_thd s) (k_q s) (k_curr s) (k_rprio s) (k_reg s) (k_vtl s) (k_vt s)
    (k_vth s) (k_systime s) (k_sem s) (k_mtx s) (k_es s) (k_el s) (k_mb s)
    (k_ioq s) (k_lock_cnt s) (k_isr_cnt s) (k_mem s) (k_nextmem s) (k_endmem
    s) v (k_pool s).
Definition set_k_pool (v : Z -> MemoryPool) (s : kstate) : kstate :=
  mkK (k_thd s) (k_q s) (k_curr s) (k_rprio s) (k_reg s) (k_vtl s) (k_vt s)
    (k_vth s) (k_systime s) (k_sem s) (k_mtx s) (k_es s) (k_el s) (k_mb s)
    (k_ioq s) (k_lock_cnt s) (k_isr_cnt s) (k_mem s) (k_nextmem s) (k_endmem
    s) (k_heap s) v.

Abbreviation KM := (M kstate) (only parsing).

Section Access.
Implicit Types (s : kstate) (t : tid) (q : qid).

(** [tp->field = ...] *)
Definition upd_thd t (f : Thread -> Thread) s : kstate :=
  set_k_thd (<[t := f (k_thd s t)]> (k_thd s)) s.

(** A new content for a thread queue. *)
Definition upd_q q (l : list tid) s : kstate :=
  set_k_q (<[q := l]> (k_q s)) s.

Definition upd_sem (sp : sid) (n : Z) s : kstate :=
  set_k_sem (<[sp := n]> (k_sem s)) s.
Definition upd_mtx (mp : mid) (o : option tid) s : kstate :=
  set_k_mtx (<[mp := o]> (k_mtx s)) s.
Definition upd_vt (v : vtid) (f : VirtualTimer -> VirtualTimer) s : kstate
  :=
  set_k_vt (<[v := f (k_vt s v)]> (k_vt s)) s.
Definition upd_mb (p : Z) (f : Mailbox -> Mailbox) s : kstate :=
  set_k_mb (<[p := f (k_mb s p)]> (k_mb s)) s.
Definition upd_ioq (p : Z) (f : IOQueue -> IOQueue) s : kstate :=
  set_k_ioq (<[p := f (k_ioq s p)]> (k_ioq s)) s.
Definition upd_el (p : Z) (f : EventListener -> EventListener) s : kstate :=
  set_k_el (<[p := f (k_el s p)]> (k_el s)) s.

Definition upd_word (a w : Z) s : kstate := set_k_mem (<[a := w]> (k_mem s)) s.
Definition upd_pool (p : Z) (f : MemoryPool -> MemoryPool) s : kstate :=
  set_k_pool (<[p := f (k_pool s p)]> (k_pool s)) s.

Definition currp : KM tid := gets k_curr.
Definition setcurrp t : KM unit := modify (set_k_curr t).
Definition thd t : KM Thread := gets (fun s => k_thd s t).
Definition set_thd t (f : Thread -> Thread) : KM unit := modify (upd_thd t
  f).
End Access.

(** ** The application

    What the kernel reaches but does not define: the functions it calls
    through pointers stored by the application (memory providers, timer and
    I/O queue callbacks, event handlers), by the address in the pointer, and
    the addresses the linker gives to static objects. *)

Class App := {
  user_memget : Z -> Z -> M kstate Z;
  user_vtfunc : Z -> Z -> M kstate unit;
  user_qnotify : Z -> Z -> M kstate unit;
  user_evhandler : Z -> Z -> M kstate unit;
  default_heap : Z;
  mainthread : tid;
  _idle_thread_wa : tid;
  ch_debug : Z;
  idle_name : Z
}.

(** ** Debug checks *)

Section Debug.
Context `{Config}.

Definition chDbgCheck (c : bool) (func : string) : KM unit :=
  if CH_DBG_ENABLE_CHECKS && negb c then panic func else mret' tt.

Definition chDbgAssert (c : bool) (m : string) : KM unit :=
  if CH_DBG_ENABLE_ASSERTS && negb c then panic m else mret' tt.

(** [k_lock_cnt] and [k_isr_cnt] are the variables [dbg_lock_cnt] and
    [dbg_isr_cnt]. *)
Definition dbg_check (bad : kstate -> bool) (m : string) : KM unit :=
  fun s => if CH_DBG_SYSTEM_STATE_CHECK && bad s then Stuck (Panic m)
           else Done tt s.

Definition dbg_enter_lock : KM unit := fun s =>
  Done tt (if CH_DBG_SYSTEM_STATE_CHECK then set_k_lock_cnt 1 s else s).
Definition dbg_leave_lock : KM unit := fun s =>
  Done tt (if CH_DBG_SYSTEM_STATE_CHECK then set_k_lock_cnt 0 s else s).

Definition dbg_check_lock : KM unit :=
  dbg_check (fun s => (negb (k_isr_cnt s =? 0)) || negb (k_lock_cnt s =? 0))
  "SV#4" ;;;
  dbg_enter_lock.
Definition dbg_check_unlock : KM unit :=
  dbg_check (fun s => (negb (k_isr_cnt s =? 0)) || (k_lock_cnt s <=? 0))
  "SV#5" ;;;
  dbg_leave_lock.
Definition dbg_check_lock_from_isr : KM unit :=
  dbg_check (fun s => (k_isr_cnt s <=? 0) || negb (k_lock_cnt s =? 0))
  "SV#6" ;;;
  dbg_enter_lock.
Definition dbg_check_unlock_from_isr : KM unit :=
  dbg_check (fun s => (k_isr_cnt s <=? 0) || (k_lock_cnt s <=? 0)) "SV#7"
  ;;;
  dbg_leave_lock.
Definition dbg_check_enter_isr : KM unit :=
  dbg_check (fun s => (k_isr_cnt s <? 0) || negb (k_lock_cnt s =? 0)) "SV#8"
  ;;;
  fun s => Done tt (if CH_DBG_SYSTEM_STATE_CHECK
                    then set_k_isr_cnt (k_isr_cnt s + 1) s else s).
Definition dbg_check_leave_isr : KM unit :=
  dbg_check (fun s => (k_isr_cnt s <=? 0) || negb (k_lock_cnt s =? 0))
  "SV#9" ;;;
  fun s => Done tt (if CH_DBG_SYSTEM_STATE_CHECK
                    then set_k_isr_cnt (k_isr_cnt s - 1) s else s).
Definition chDbgCheckClassI : KM unit :=
  dbg_check (fun s => (k_isr_cnt s <? 0) || (k_lock_cnt s <=? 0)) "SV#10".
Definition chDbgCheckClassS : KM unit :=
  dbg_check (fun s => (negb (k_isr_cnt s =? 0)) || (k_lock_cnt s <=? 0))
  "SV#11".

(** [chSysLock()] masks the interrupts; after [chSysUnlock()], and in a
    handler after [chSysUnlockFromIsr()], other interrupts are served, so
    the function continues from whatever state they leave. *)
Definition chSysLock : KM unit := dbg_check_lock.
Definition chSysUnlock : KM unit := dbg_check_unlock ;;; suspend AtUnlock.
Definition chSysLockFromIsr : KM unit := dbg_check_lock_from_isr.
Definition chSysUnlockFromIsr : KM unit :=
  dbg_check_unlock_from_isr ;;; suspend AtUnlock.

(** [chSysSwitch(ntp, otp)]: the stack of [otp] is saved, [ntp] runs, and
    the function continues when [otp] is switched in again.  The trace and
    the context-switch hook are disabled in the configuration. *)
Definition chSysSwitch (ntp otp : tid) : KM unit := suspend AtSwitch.
End Debug.

(** ** Simplification of state accesses *)

Ltac kcbn :=
  cbn [set_p_prio set_p_state set_p_flags set_p_refs set_p_preempt set_p_time
    set_p_u set_p_waiting set_p_msg set_p_epending set_p_mtxlist
    set_p_realprio set_p_mpool set_p_name set_k_thd set_k_q set_k_curr
    set_k_rprio set_k_reg set_k_vtl set_k_vt set_k_vth set_k_systime set_k_sem
    set_k_mtx set_k_es set_k_el set_k_mb set_k_ioq set_k_lock_cnt
    set_k_isr_cnt set_vt_time set_vt_func set_vt_par set_el_listener
    set_el_mask set_el_flags set_mb_buffer set_mb_wrptr set_mb_rdptr
    set_mb_fullsem set_mb_emptysem set_q_counter set_q_buffer set_q_wrptr
    set_q_rdptr set_q_notify set_q_link
    set_mp_next set_mp_object_size set_mp_provider set_k_mem set_k_nextmem
    set_k_endmem set_k_heap set_k_pool
    p_prio p_state p_flags p_refs p_preempt p_time p_u p_waiting p_msg
    p_epending p_mtxlist p_realprio p_mpool p_name k_thd k_q k_curr k_rprio
    k_reg k_vtl k_vt k_vth k_systime k_sem k_mtx k_es k_el k_mb k_ioq
    k_lock_cnt k_isr_cnt vt_time vt_func vt_par el_listener el_mask el_flags
    mb_buffer mb_wrptr mb_rdptr mb_fullsem mb_emptysem q_counter q_buffer
    q_wrptr q_rdptr q_notify q_link
    mp_next mp_object_size mp_provider k_mem k_nextmem k_endmem k_heap k_pool
    upd_thd upd_q upd_sem upd_mtx upd_vt upd_mb upd_ioq upd_el
    upd_word upd_pool].
Ltac kcbn_in H :=
  cbn [set_p_prio set_p_state set_p_flags set_p_refs set_p_preempt set_p_time
    set_p_u set_p_waiting set_p_msg set_p_epending set_p_mtxlist
    set_p_realprio set_p_mpool set_p_name set_k_thd set_k_q set_k_curr
    set_k_rprio set_k_reg set_k_vtl set_k_vt set_k_vth set_k_systime set_k_sem
    set_k_mtx set_k_es set_k_el set_k_mb set_k_ioq set_k_lock_cnt
    set_k_isr_cnt set_vt_time set_vt_func set_vt_par set_el_listener
    set_el_mask set_el_flags set_mb_buffer set_mb_wrptr set_mb_rdptr
    set_mb_fullsem set_mb_emptysem set_q_counter set_q_buffer set_q_wrptr
    set_q_rdptr set_q_notify set_q_link
    set_mp_next set_mp_object_size set_mp_provider set_k_mem set_k_nextmem
    set_k_endmem set_k_heap set_k_pool
    p_prio p_state p_flags p_refs p_preempt p_time p_u p_waiting p_msg
    p_epending p_mtxlist p_realprio p_mpool p_name k_thd k_q k_curr k_rprio
    k_reg k_vtl k_vt k_vth k_systime k_sem k_mtx k_es k_el k_mb k_ioq
    k_lock_cnt k_isr_cnt vt_time vt_func vt_par el_listener el_mask el_flags
    mb_buffer mb_wrptr mb_rdptr mb_fullsem mb_emptysem q_counter q_buffer
    q_wrptr q_rdptr q_notify q_link
    mp_next mp_object_size mp_provider k_mem k_nextmem k_endmem k_heap k_pool
    upd_thd upd_q upd_sem upd_mtx upd_vt upd_mb upd_ioq upd_el
    upd_word upd_pool] in H.
Ltac ksimpl := repeat (progress (kcbn; fn_simpl)).

(** ** The lock discipline

    What the system state checker requires of the caller of an I-class, an
    S-class and an ordinary API function. *)

Section LockState.
Context `{Config}.

Definition locked_I (s : kstate) : Prop :=
  CH_DBG_SYSTEM_STATE_CHECK = true -> 0 <= k_isr_cnt s /\ 0 < k_lock_cnt s.
Definition locked_S (s : kstate) : Prop :=
  CH_DBG_SYSTEM_STATE_CHECK = true -> k_isr_cnt s = 0 /\ 0 < k_lock_cnt s.
Definition unlocked (s : kstate) : Prop :=
  CH_DBG_SYSTEM_STATE_CHECK = true -> k_isr_cnt s = 0 /\ k_lock_cnt s = 0.

(** The state with the lock counter set, when it is maintained. *)
Definition with_lock (n : Z) (s : kstate) : kstate :=
  if CH_DBG_SYSTEM_STATE_CHECK then set_k_lock_cnt n s else s.

Lemma locked_S_I s : locked_S s -> locked_I s.
Proof. intros HS Hc. specialize (HS Hc). lia. Qed.

Lemma chDbgCheckClassI_ok s : locked_I s -> chDbgCheckClassI s = Done tt s.
Proof.
  unfold locked_I, chDbgCheckClassI, dbg_check. intros HI.
  destruct CH_DBG_SYSTEM_STATE_CHECK; [|done]. destruct HI as [H1 H2]; [done|].
  by rewrite (proj2 (Z.ltb_ge _ _)), (proj2 (Z.leb_gt _ _)) by done.
Qed.

Lemma chDbgCheckClassS_ok s : locked_S s -> chDbgCheckClassS s = Done tt s.
Proof.
  unfold locked_S, chDbgCheckClassS, dbg_check. intros HS.
  destruct CH_DBG_SYSTEM_STATE_CHECK; [|done]. destruct HS as [-> H2]; [done|].
  by rewrite (proj2 (Z.leb_gt _ _)) by done.
Qed.

Lemma chDbgCheck_ok c f s : c = true -> chDbgCheck c f s = Done tt s.
Proof. intros ->. unfold chDbgCheck. by rewrite andb_false_r. Qed.

Lemma chDbgAssert_ok c m s : c = true -> chDbgAssert c m s = Done tt s.
Proof. intros ->. unfold chDbgAssert. by rewrite andb_false_r. Qed.

Lemma chSysLock_ok s : unlocked s -> chSysLock s = Done tt (with_lock 1 s).
Proof.
  unfold unlocked, chSysLock, dbg_check_lock, dbg_check, dbg_enter_lock, bind,
    with_lock. simpl.
  intros HU. destruct CH_DBG_SYSTEM_STATE_CHECK; [|done].
  destruct HU as [-> ->]; done.
Qed.

Lemma chSysUnlock_ok s :
  locked_S s ->
  chSysUnlock s = Suspend AtUnlock (with_lock 0 s) (fun s' => Done tt s').
Proof.
  unfold locked_S, chSysUnlock, dbg_check_unlock, dbg_check, dbg_leave_lock,
    bind, with_lock, suspend. simpl.
  intros HU. destruct CH_DBG_SYSTEM_STATE_CHECK; [|done].
  destruct HU as [-> HU]; [done|].
  by rewrite (proj2 (Z.leb_gt _ _)) by done.
Qed.

(** The same equations with a continuation. *)
Lemma classI_bind {A} (k : unit -> KM A) s :
  locked_I s -> (let! x := chDbgCheckClassI in k x) s = k tt s.
Proof. intros HL. unfold bind. by rewrite chDbgCheckClassI_ok. Qed.
Lemma classS_bind {A} (k : unit -> KM A) s :
  locked_S s -> (let! x := chDbgCheckClassS in k x) s = k tt s.
Proof. intros HL. unfold bind. by rewrite chDbgCheckClassS_ok. Qed.
Lemma check_bind {A} c m (k : unit -> KM A) s :
  c = true -> (let! x := chDbgCheck c m in k x) s = k tt s.
Proof. intros HL. unfold bind. by rewrite chDbgCheck_ok. Qed.
Lemma assert_bind {A} c m (k : unit -> KM A) s :
  c = true -> (let! x := chDbgAssert c m in k x) s = k tt s.
Proof. intros HL. unfold bind. by rewrite chDbgAssert_ok. Qed.
Lemma done_bind {A B} (m : KM A) (k : A -> KM B) a s s' :
  m s = Done a s' -> (let! x := m in k x) s = k a s'.
Proof. intros E. unfold bind. by rewrite E. Qed.

Lemma with_lock_locked s : unlocked s -> locked_S (with_lock 1 s).
Proof.
  unfold unlocked, locked_S, with_lock. intros HU Hc. rewrite Hc. simpl.
  destruct (HU Hc). lia.
Qed.

Lemma with_lock_unlocked s : locked_S s -> unlocked (with_lock 0 s).
Proof.
  unfold unlocked, locked_S, with_lock. intros HU Hc. rewrite Hc. simpl.
  destruct (HU Hc). lia.
Qed.
End LockState.
#[export] Hint Resolve locked_S_I with_lock_locked with_lock_unlocked : chibi.
