(* ===== verification/ThdLists.v ===== *)
(** * Thread queues ([chlists.c], [chlists.h], [chinline.h])

    Two models of the same code.  Module [Ptr] is the pointer code as it is
    written: circular doubly linked lists threaded through the [p_next] and
    [p_prev] fields of threads and queue headers, with the scanning loops
    bounded by fuel.  Module [Lst] gives the operations used by the rest of
    the kernel model, on lists.  The refinement theorems show that every
    pointer routine keeps the lists well linked and changes them as the list
    operation says. *)
From S2P Require Import Prelude Monad Types.

(** ** List level *)

Module Lst.
(** Where [prio_insert()] and [chSchReadyI()] stop: before the first thread
    with a strictly lower priority. *)
Fixpoint prio_ins (prio : tid -> Z) (tp : tid) (l : list tid) : list tid :=
  match l with
  | [] => [tp]
  | cp :: l' => if prio tp <=? prio cp then cp :: prio_ins prio tp l'
                else tp :: l
  end.

(** The scan of [chSchDoRescheduleAhead()] stops at the first thread with a
    lower or equal priority. *)
Fixpoint ahead_ins (prio : tid -> Z) (tp : tid) (l : list tid) : list tid :=
  match l with
  | [] => [tp]
  | cp :: l' => if prio tp <? prio cp then cp :: ahead_ins prio tp l'
                else tp :: l
  end.

(** Ordered by non-increasing priority. *)
Fixpoint psorted (prio : tid -> Z) (l : list tid) : Prop :=
  match l with
  | [] => True
  | a :: l' => Forall (fun b => prio b <= prio a) l' /\ psorted prio l'
  end.

Implicit Types (prio : tid -> Z) (tp : tid) (l : list tid).

Lemma prio_ins_split prio tp l :
  exists l1 l2, l = l1 ++ l2 /\ prio_ins prio tp l = l1 ++ tp :: l2 /\
    Forall (fun c => prio tp <= prio c) l1 /\
    (forall c l', l2 = c :: l' -> prio c < prio tp).
Proof.
  induction l as [|c l (l1 & l2 & -> & E & H1 & H2)]; simpl.
  - exists [], []. done.
  - destruct (Z.leb_spec (prio tp) (prio c)) as [Hc|Hc].
    + exists (c :: l1), l2. rewrite E. auto.
    + exists [], (c :: l1 ++ l2). split_and!; try done. by intros ? ? [= <- _].
Qed.

Lemma ahead_ins_split prio tp l :
  exists l1 l2, l = l1 ++ l2 /\ ahead_ins prio tp l = l1 ++ tp :: l2 /\
    Forall (fun c => prio tp < prio c) l1 /\
    (forall c l', l2 = c :: l' -> prio c <= prio tp).
Proof.
  induction l as [|c l (l1 & l2 & -> & E & H1 & H2)]; simpl.
  - exists [], []. done.
  - destruct (Z.ltb_spec (prio tp) (prio c)) as [Hc|Hc].
    + exists (c :: l1), l2. rewrite E. auto.
    + exists [], (c :: l1 ++ l2). split_and!; try done. by intros ? ? [= <- _].
Qed.

Lemma prio_ins_perm prio tp l : prio_ins prio tp l ≡ₚ tp :: l.
Proof.
  destruct (prio_ins_split prio tp l) as (l1 & l2 & -> & -> & _).
  by rewrite Permutation_middle.
Qed.

Lemma ahead_ins_perm prio tp l : ahead_ins prio tp l ≡ₚ tp :: l.
Proof.
  destruct (ahead_ins_split prio tp l) as (l1 & l2 & -> & -> & _).
  by rewrite Permutation_middle.
Qed.

Lemma psorted_app prio l1 l2 :
  psorted prio (l1 ++ l2) <->
  psorted prio l1 /\ psorted prio l2 /\
  (forall a b, a ∈ l1 -> b ∈ l2 -> prio b <= prio a).
Proof.
  induction l1 as [|c l1 IH]; simpl.
  - set_solver.
  - rewrite IH, Forall_app, !list.Forall_forall. set_solver.
Qed.

Lemma psorted_head prio a l b :
  psorted prio (a :: l) -> b ∈ a :: l -> prio b <= prio a.
Proof.
  simpl. rewrite list.Forall_forall. intros [H _] [->|Hb]%elem_of_cons;
    [lia|auto].
Qed.

Lemma prio_ins_sorted prio tp l :
  psorted prio l -> psorted prio (prio_ins prio tp l).
Proof.
  destruct (prio_ins_split prio tp l) as (l1 & l2 & -> & -> & H1 & H2).
  rewrite !psorted_app. intros (S1 & S2 & S12).
  rewrite list.Forall_forall in H1.
  assert (forall b, b ∈ l2 -> prio b < prio tp) as H2'.
  { intros b Hb. destruct l2 as [|c l2]; [set_solver|].
    pose proof (H2 c l2 eq_refl). pose proof (psorted_head _ _ _ _ S2 Hb). lia. }
  split_and!; [done| |].
  - split; [|done]. apply list.Forall_forall. intros b Hb.
    pose proof (H2' b Hb). lia.
  - intros a b Ha [->|Hb]%elem_of_cons; [by apply H1|eauto].
Qed.

Lemma ahead_ins_sorted prio tp l :
  psorted prio l -> psorted prio (ahead_ins prio tp l).
Proof.
  destruct (ahead_ins_split prio tp l) as (l1 & l2 & -> & -> & H1 & H2).
  rewrite !psorted_app. intros (S1 & S2 & S12).
  rewrite list.Forall_forall in H1. split_and!; [done| |].
  - split; [|done]. apply list.Forall_forall. intros b Hb.
    destruct l2 as [|c l2]; [set_solver|].
    pose proof (H2 c l2 eq_refl). pose proof (psorted_head _ _ _ _ S2 Hb). lia.
  - intros a b Ha [->|Hb]%elem_of_cons; [by apply Z.lt_le_incl, H1|eauto].
Qed.

Lemma prio_ins_ext prio prio' tp l :
  (forall t, prio t = prio' t) -> prio_ins prio tp l = prio_ins prio' tp l.
Proof. intros He. induction l as [|c l IH]; simpl; [done|]. by rewrite IH, !He. Qed.

Lemma ahead_ins_ext prio prio' tp l :
  (forall t, prio t = prio' t) -> ahead_ins prio tp l = ahead_ins prio' tp l.
Proof. intros He. induction l as [|c l IH]; simpl; [done|]. by rewrite IH, !He. Qed.

Lemma psorted_ext prio prio' l :
  (forall t, t ∈ l -> prio t = prio' t) -> psorted prio l -> psorted prio' l.
Proof.
  induction l as [|a l IH]; simpl; [done|]. intros He [H1 H2]. split.
  - rewrite list.Forall_forall in *. intros b Hb.
    rewrite <-!He by set_solver. auto.
  - apply IH; [set_solver|done].
Qed.

Lemma psorted_filter prio (P : tid -> Prop) `{forall t, Decision (P t)} l :
  psorted prio l -> psorted prio (filter P l).
Proof.
  induction l as [|a l IH]; simpl; [done|]. intros [H1 H2].
  rewrite filter_cons. case_decide; [|auto]. simpl. split; [|auto].
  rewrite list.Forall_forall in *. intros b Hb.
  apply list_elem_of_filter in Hb as [_ Hb]. auto.
Qed.
End Lst.

Section Ops.
Definition queue_init (q : qid) : KM unit := modify (upd_q q []).

Definition isempty (s : kstate) (q : qid) : bool :=
  match k_q s q with [] => true | _ => false end.
Definition notempty (s : kstate) (q : qid) : bool := negb (isempty s q).

Definition k_prio (s : kstate) (t : tid) : Z := p_prio (k_thd s t).

Definition prio_insert (tp : tid) (q : qid) : KM unit :=
  modify (fun s => upd_q q (Lst.prio_ins (k_prio s) tp (k_q s q)) s).

Definition queue_insert (tp : tid) (q : qid) : KM unit :=
  modify (fun s => upd_q q (k_q s q ++ [tp]) s).

(** On an empty queue the code takes the header itself for a thread. *)
Definition fifo_remove (q : qid) : KM tid := fun s =>
  match k_q s q with
  | [] => Stuck (Fault "fifo_remove")
  | tp :: l => Done tp (upd_q q l s)
  end.

Definition lifo_remove (q : qid) : KM tid := fun s =>
  match reverse (k_q s q) with
  | [] => Stuck (Fault "lifo_remove")
  | tp :: l => Done tp (upd_q q (reverse l) s)
  end.

(** [dequeue()] unlinks the thread from the queue that holds it. *)
Definition dequeue (tp : tid) : KM tid := fun s =>
  Done tp (set_k_q (fun q => lremove tp (k_q s q)) s).

(** The [p_waiting] list of a thread, used as a stack. *)
Definition list_insert (tp : tid) (owner : tid) : KM unit :=
  set_thd owner (fun th => set_p_waiting (tp :: p_waiting th) th).

Definition list_remove (owner : tid) : KM tid := fun s =>
  match p_waiting (k_thd s owner) with
  | [] => Stuck (Fault "list_remove")
  | tp :: l => Done tp (upd_thd owner (set_p_waiting l) s)
  end.
End Ops.

(** ** Pointer level *)

Module Ptr.
(** A [Thread *] is a thread or a queue header cast to a thread. *)
Inductive node := NThd (tp : tid) | NHdr (q : qid).
#[export] Instance node_eq_dec : EqDecision node.
Proof. solve_decision. Defined.

Record links := mkL {
  p_next : node -> node;
  p_prev : node -> node;
  p_prio : node -> Z      (* for the ready list header, the field [r_prio] *)
}.

Definition set_next (a b : node) (m : links) : links :=
  mkL (<[a := b]> (p_next m)) (p_prev m) (p_prio m).
Definition set_prev (a b : node) (m : links) : links :=
  mkL (p_next m) (<[a := b]> (p_prev m)) (p_prio m).

Definition queue_init (q : qid) (m : links) : links :=
  set_next (NHdr q) (NHdr q) (set_prev (NHdr q) (NHdr q) m).

Definition isempty (q : qid) (m : links) : bool :=
  bool_decide (p_next m (NHdr q) = NHdr q).
Definition notempty (q : qid) (m : links) : bool :=
  bool_decide (p_next m (NHdr q) <> NHdr q).

(** Insertion on [p_prev] of [cp]:
    [tp->p_next = cp; tp->p_prev = cp->p_prev;
     tp->p_prev->p_next = cp->p_prev = tp]. *)
Definition link_before (tp cp : node) (m : links) : links :=
  let m := set_next tp cp m in
  let m := set_prev tp (p_prev m cp) m in
  let m := set_prev cp tp m in
  set_next (p_prev m tp) tp m.

(** [do { cp = cp->p_next; } while (go(cp))] *)
Fixpoint scan (fuel : nat) (m : links) (go : node -> bool) (cp : node)
    : option node :=
  match fuel with
  | O => None
  | S n => let cp := p_next m cp in
           if go cp then scan n m go cp else Some cp
  end.

Definition prio_insert (fuel : nat) (tp : tid) (q : qid) (m : links)
    : option links :=
  match scan fuel m
          (fun cp => negb (bool_decide (cp = NHdr q))
                     && (p_prio m (NThd tp) <=? p_prio m cp)) (NHdr q) with
  | None => None
  | Some cp => Some (link_before (NThd tp) cp m)
  end.

(** The insertion loop of [chSchReadyI()], which has no test for the end of
    the list. *)
Definition ready_insert (fuel : nat) (tp : tid) (m : links) : option links :=
  match scan fuel m
          (fun cp => p_prio m (NThd tp) <=? p_prio m cp) (NHdr QReady) with
  | None => None
  | Some cp => Some (link_before (NThd tp) cp m)
  end.

(** The insertion loop of [chSchDoRescheduleAhead()]. *)
Definition ahead_insert (fuel : nat) (tp : tid) (m : links) : option links :=
  match scan fuel m
          (fun cp => p_prio m (NThd tp) <? p_prio m cp) (NHdr QReady) with
  | None => None
  | Some cp => Some (link_before (NThd tp) cp m)
  end.

Definition queue_insert (tp : tid) (q : qid) (m : links) : links :=
  let m := set_next (NThd tp) (NHdr q) m in
  let m := set_prev (NThd tp) (p_prev m (NHdr q)) m in
  let m := set_prev (NHdr q) (NThd tp) m in
  set_next (p_prev m (NThd tp)) (NThd tp) m.

Definition fifo_remove (q : qid) (m : links) : node * links :=
  let tp := p_next m (NHdr q) in
  let m := set_next (NHdr q) (p_next m tp) m in
  (tp, set_prev (p_next m (NHdr q)) (NHdr q) m).

Definition lifo_remove (q : qid) (m : links) : node * links :=
  let tp := p_prev m (NHdr q) in
  let m := set_prev (NHdr q) (p_prev m tp) m in
  (tp, set_next (p_prev m (NHdr q)) (NHdr q) m).

Definition dequeue (tp : tid) (m : links) : links :=
  let m := set_next (p_prev m (NThd tp)) (p_next m (NThd tp)) m in
  set_prev (p_next m (NThd tp)) (p_prev m (NThd tp)) m.

(** *** Well linked lists *)

Implicit Types (m : links) (a b x y n : node) (l : list node).

(** [seg m a l b]: following [p_next] from [a] visits [l] and reaches [b],
    and every [p_prev] on the way points back. *)
Fixpoint seg m a l b : Prop :=
  match l with
  | [] => p_next m a = b /\ p_prev m b = a
  | x :: l' => p_next m a = x /\ p_prev m x = a /\ seg m x l' b
  end.

(** The links represent the queues [qs], one circular list per header, and
    no thread is on two lists. *)
Definition rep m (qs : qid -> list tid) : Prop :=
  (forall q, seg m (NHdr q) (NThd <$> qs q) (NHdr q)) /\
  (forall q, NoDup (qs q)) /\
  (forall q q' t, t ∈ qs q -> t ∈ qs q' -> q = q').

Lemma seg_app m a l1 x l2 b :
  seg m a (l1 ++ x :: l2) b <-> seg m a l1 x /\ seg m x l2 b.
Proof.
  revert a. induction l1 as [|y l1 IH]; intros a; simpl.
  - tauto.
  - rewrite IH. tauto.
Qed.

Lemma seg_frame m m' a l b :
  seg m a l b ->
  (forall x, x ∈ a :: l -> p_next m' x = p_next m x) ->
  (forall x, x ∈ b :: l -> p_prev m' x = p_prev m x) ->
  seg m' a l b.
Proof.
  revert a. induction l as [|y l IH]; intros a; simpl.
  - intros [H1 H2] Hn Hp. rewrite Hn, Hp by set_solver. done.
  - intros (H1 & H2 & H3) Hn Hp. rewrite Hn, Hp by set_solver.
    repeat (split; [done|]). apply IH; [done| |]; intros x Hx;
      [apply Hn|apply Hp]; set_solver.
Qed.

(** The node after the header at a position of the list. *)
Definition nth_node (q : qid) (l2 : list tid) : node :=
  match l2 with [] => NHdr q | t :: _ => NThd t end.
Definition prev_node (q : qid) (l1 : list tid) : node :=
  match reverse l1 with [] => NHdr q | t :: _ => NThd t end.

Lemma seg_prev m q (l1 : list tid) y :
  seg m (NHdr q) (NThd <$> l1) y -> p_prev m y = prev_node q l1.
Proof.
  unfold prev_node. destruct l1 as [|t l1 _] using rev_ind; simpl.
  - tauto.
  - rewrite reverse_snoc, fmap_app. simpl. rewrite seg_app. simpl. tauto.
Qed.

Lemma seg_next m q (l2 : list tid) x :
  seg m x (NThd <$> l2) (NHdr q) -> p_next m x = nth_node q l2.
Proof. destruct l2; simpl; tauto. Qed.

(** A segment whose last link is redirected, and one whose first is. *)
Lemma seg_change_end m m' q (l1 : list tid) y z :
  NoDup l1 ->
  seg m (NHdr q) (NThd <$> l1) y ->
  (forall t, t ∈ l1 -> p_prev m' (NThd t) = p_prev m (NThd t)) ->
  (forall x, x ∈ NHdr q :: (NThd <$> l1) -> x <> prev_node q l1 ->
             p_next m' x = p_next m x) ->
  p_next m' (prev_node q l1) = z -> p_prev m' z = prev_node q l1 ->
  seg m' (NHdr q) (NThd <$> l1) z.
Proof.
  unfold prev_node. destruct l1 as [|t l1 _] using rev_ind; simpl; [tauto|].
  rewrite reverse_snoc, fmap_app. simpl. rewrite !seg_app. simpl.
  intros Hnd [Hs _] Hp Hn Hz Hz'. split; [|tauto].
  apply list.NoDup_app in Hnd as (_ & Hnd & _).
  apply (seg_frame m); [done| |]; intros x Hx.
  - apply Hn; [set_solver|]. intros ->.
    apply elem_of_cons in Hx as [|Hx]; [done|].
    apply list_elem_of_fmap in Hx as (t' & [= <-] & Ht). set_solver.
  - apply elem_of_cons in Hx as [->|Hx]; [apply Hp; set_solver|].
    apply list_elem_of_fmap in Hx as (t' & -> & Ht). apply Hp. set_solver.
Qed.

Lemma seg_change_start m m' q (l2 : list tid) x z :
  NoDup l2 ->
  seg m x (NThd <$> l2) (NHdr q) ->
  (forall t, t ∈ l2 -> p_next m' (NThd t) = p_next m (NThd t)) ->
  (forall y, y ∈ NHdr q :: (NThd <$> l2) -> y <> nth_node q l2 ->
             p_prev m' y = p_prev m y) ->
  p_next m' z = nth_node q l2 -> p_prev m' (nth_node q l2) = z ->
  seg m' z (NThd <$> l2) (NHdr q).
Proof.
  destruct l2 as [|t l2]; simpl; [tauto|].
  intros Hnd (_ & _ & Hs) Hn Hp Hz Hz'. split_and!; [done..|].
  apply list.NoDup_cons in Hnd as [Ht _].
  apply (seg_frame m); [done| |]; intros y Hy.
  - apply elem_of_cons in Hy as [->|Hy]; [apply Hn; set_solver|].
    apply list_elem_of_fmap in Hy as (t' & -> & Ht'). apply Hn. set_solver.
  - apply Hp; [set_solver|]. intros ->.
    apply elem_of_cons in Hy as [|Hy]; [done|].
    apply list_elem_of_fmap in Hy as (t' & [= <-] & Ht'). done.
Qed.

(** Cutting a queue at a position. *)
Lemma seg_cut m q (l1 l2 : list tid) :
  seg m (NHdr q) (NThd <$> l1 ++ l2) (NHdr q) ->
  seg m (NHdr q) (NThd <$> l1) (nth_node q l2) /\
  seg m (prev_node q l1) (NThd <$> l2) (NHdr q).
Proof.
  intros Hs. split.
  - destruct l2 as [|t l2]; simpl; [by rewrite app_nil_r in Hs|].
    rewrite fmap_app in Hs. simpl in Hs. by apply seg_app in Hs as [? _].
  - unfold prev_node. destruct l1 as [|t l1 _] using rev_ind; [done|].
    rewrite reverse_snoc. rewrite fmap_app, fmap_app, <-app_assoc in Hs.
    simpl in Hs. by apply seg_app in Hs as [_ ?].
Qed.

Lemma seg_join m q (l1 l2 : list tid) t :
  seg m (NHdr q) (NThd <$> l1) (NThd t) ->
  seg m (NThd t) (NThd <$> l2) (NHdr q) ->
  seg m (NHdr q) (NThd <$> l1 ++ t :: l2) (NHdr q).
Proof. intros H1 H2. rewrite fmap_app. simpl. by apply seg_app. Qed.

Lemma seg_paste m q (l1 l2 : list tid) :
  seg m (NHdr q) (NThd <$> l1) (nth_node q l2) ->
  seg m (prev_node q l1) (NThd <$> l2) (NHdr q) ->
  seg m (NHdr q) (NThd <$> l1 ++ l2) (NHdr q).
Proof.
  destruct l2 as [|t l2]; simpl; [by rewrite app_nil_r|].
  intros H1 (_ & _ & H2). by apply seg_join.
Qed.

Lemma prev_node_in q (l1 : list tid) t : prev_node q l1 = NThd t -> t ∈ l1.
Proof.
  unfold prev_node. destruct l1 as [|t' l1 _] using rev_ind; [done|].
  rewrite reverse_snoc. intros [= <-]. set_solver.
Qed.
Lemma nth_node_in q (l2 : list tid) t : nth_node q l2 = NThd t -> t ∈ l2.
Proof. destruct l2; simpl; [done|]. intros [= <-]. set_solver. Qed.
Lemma prev_node_hdr q q' (l1 : list tid) : prev_node q l1 = NHdr q' -> q' = q.
Proof.
  unfold prev_node. destruct l1 as [|t' l1 _] using rev_ind;
    [by intros [= ->]|]. by rewrite reverse_snoc.
Qed.
Lemma nth_node_hdr q q' (l2 : list tid) : nth_node q l2 = NHdr q' -> q' = q.
Proof. destruct l2; simpl; congruence. Qed.

(** *** Insertion and removal *)

Lemma link_before_eq m t y :
  y <> NThd t ->
  link_before (NThd t) y m =
  mkL (<[p_prev m y := NThd t]> (<[NThd t := y]> (p_next m)))
      (<[y := NThd t]> (<[NThd t := p_prev m y]> (p_prev m))) (p_prio m).
Proof.
  intros Hy. unfold link_before, set_next, set_prev. simpl.
  by rewrite (fn_insert_ne _ y), fn_insert_eq by done.
Qed.

Section Rep.
Variables (m : links) (qs : qid -> list tid).
Hypothesis Hrep : rep m qs.

Lemma rep_other q q' t : t ∈ qs q -> q' <> q -> t ∉ qs q'.
Proof. destruct Hrep as (_ & _ & H). intros H1 H2 H3. eauto. Qed.

(** Segments of the other queues are untouched by writes to the nodes of
    one queue and to a thread that is on no queue. *)
Lemma rep_frame q (t : tid) m' :
  (forall x, p_next m' x <> p_next m x ->
     x = NThd t \/ x = NHdr q \/ exists u, u ∈ qs q /\ x = NThd u) ->
  (forall x, p_prev m' x <> p_prev m x ->
     x = NThd t \/ x = NHdr q \/ exists u, u ∈ qs q /\ x = NThd u) ->
  forall q', q' <> q -> t ∉ qs q' ->
  seg m' (NHdr q') (NThd <$> qs q') (NHdr q').
Proof.
  intros Hn Hp q' Hq Ht. destruct Hrep as (Hs & _ & _).
  assert (forall x, x ∈ NHdr q' :: (NThd <$> qs q') ->
            ~ (x = NThd t \/ x = NHdr q \/ exists u, u ∈ qs q /\ x = NThd u))
    as Hout.
  { intros x Hx [->|[->|(u & Hu & ->)]];
      apply elem_of_cons in Hx as [Hx|Hx]; try congruence;
      apply list_elem_of_fmap in Hx as (t' & [= <-] & Ht'); [done|].
    by apply (rep_other q q' u). }
  apply (seg_frame m); [done| |]; intros x Hx;
    [destruct (decide (p_next m' x = p_next m x)) as [|Hd]
    |destruct (decide (p_prev m' x = p_prev m x)) as [|Hd]]; try done;
    exfalso; apply (Hout x Hx); auto.
Qed.

Lemma link_before_rep q (l1 l2 : list tid) t :
  qs q = l1 ++ l2 -> (forall q', t ∉ qs q') ->
  rep (link_before (NThd t) (nth_node q l2) m) (<[q := l1 ++ t :: l2]> qs).
Proof.
  intros Hq Ht. destruct (Hrep) as (Hs & Hnd & Hdj).
  pose proof (Hnd q) as Hndq. rewrite Hq in Hndq.
  apply list.NoDup_app in Hndq as (Hnd1 & Hd12 & Hnd2).
  assert ((t ∉ l1) /\ (t ∉ l2)) as [Ht1 Ht2].
  { pose proof (Ht q) as H. rewrite Hq in H. set_solver. }
  pose proof (Hs q) as Hsq. rewrite Hq in Hsq.
  apply seg_cut in Hsq as [Hs1 Hs2].
  pose proof (seg_prev _ _ _ _ Hs1) as Hpy.
  assert (nth_node q l2 <> NThd t) as Hyt
    by (intros H%nth_node_in; done).
  assert (prev_node q l1 <> NThd t) as Hxt
    by (intros H%prev_node_in; done).
  rewrite link_before_eq, Hpy by done. split_and!.
  - intros q'. destruct (decide (q' = q)) as [->|Hne].
    + rewrite fn_insert_eq. apply seg_join.
      * apply (seg_change_end m _ q l1 (nth_node q l2)); simpl; [done..| | | |].
        -- intros u Hu. rewrite !fn_insert_ne; [done|congruence|].
           intros H%nth_node_in. set_solver.
        -- intros x Hx Hne. rewrite !fn_insert_ne; [done| |done].
           intros <-. apply elem_of_cons in Hx as [|Hx]; [done|].
           apply list_elem_of_fmap in Hx as (u & [= ->] & Hu). done.
        -- by rewrite fn_insert_eq.
        -- by rewrite fn_insert_ne, fn_insert_eq.
      * apply (seg_change_start m _ q l2 (prev_node q l1)); simpl; [done..| | | |].
        -- intros u Hu. rewrite !fn_insert_ne; [done|congruence|].
           intros H%prev_node_in. set_solver.
        -- intros y Hy Hne. rewrite !fn_insert_ne; [done| |done].
           intros <-. apply elem_of_cons in Hy as [|Hy]; [done|].
           apply list_elem_of_fmap in Hy as (u & [= ->] & Hu). done.
        -- by rewrite fn_insert_ne, fn_insert_eq.
        -- by rewrite fn_insert_eq.
    + rewrite fn_insert_ne by done.
      apply (rep_frame q t); simpl; try done; intros x;
        rewrite !fn_insert_dec; repeat case_decide; intros; subst; try tauto;
        right.
      * destruct (prev_node q l1) eqn:E;
          [apply prev_node_in in E|apply prev_node_hdr in E]; subst; eauto.
        right. eexists. rewrite Hq. split; [|done]. set_solver.
      * destruct (nth_node q l2) eqn:E;
          [apply nth_node_in in E|apply nth_node_hdr in E]; subst; eauto.
        right. eexists. rewrite Hq. split; [|done]. set_solver.
  - intros q'. rewrite fn_insert_dec. case_decide; [|done].
    apply list.NoDup_app. split_and!; [done| |by apply list.NoDup_cons].
    set_solver.
  - intros q1 q2 u. rewrite !fn_insert_dec.
    repeat case_decide; subst; try done.
    + intros Hu1 Hu2. apply (Hdj q1 q2 u); [|done]. rewrite Hq. set_solver.
    + intros Hu1 Hu2. apply (Hdj q1 q2 u); [done|]. rewrite Hq. set_solver.
    + eauto.
Qed.

Lemma unlink_rep q (l1 l2 : list tid) t :
  qs q = l1 ++ t :: l2 ->
  rep (mkL (<[prev_node q l1 := nth_node q l2]> (p_next m))
           (<[nth_node q l2 := prev_node q l1]> (p_prev m)) (p_prio m))
      (<[q := l1 ++ l2]> qs).
Proof.
  intros Hq. destruct (Hrep) as (Hs & Hnd & Hdj).
  pose proof (Hnd q) as Hndq. rewrite Hq in Hndq.
  apply list.NoDup_app in Hndq as (Hnd1 & Hd12 & Hnd2).
  apply list.NoDup_cons in Hnd2 as [Ht2 Hnd2].
  pose proof (Hs q) as Hsq. rewrite Hq in Hsq.
  pose proof (seg_cut _ _ _ _ Hsq) as [Hs1 _].
  rewrite (cons_middle t l1 l2), app_assoc in Hsq.
  apply seg_cut in Hsq as [_ Hs2]. split_and!.
  - intros q'. destruct (decide (q' = q)) as [->|Hne].
    + rewrite fn_insert_eq. apply seg_paste.
      * apply (seg_change_end m _ q l1 (nth_node q (t :: l2)));
          simpl; [done..| | | |].
        -- intros u Hu. rewrite fn_insert_ne; [done|].
           intros H%nth_node_in. set_solver.
        -- intros x Hx Hne. by rewrite fn_insert_ne.
        -- by rewrite fn_insert_eq.
        -- by rewrite fn_insert_eq.
      * apply (seg_change_start m _ q l2 (prev_node q (l1 ++ [t])));
          simpl; [done..| | | |].
        -- intros u Hu. rewrite fn_insert_ne; [done|].
           intros H%prev_node_in. set_solver.
        -- intros y Hy Hne. by rewrite fn_insert_ne.
        -- by rewrite fn_insert_eq.
        -- by rewrite fn_insert_eq.
    + rewrite fn_insert_ne by done.
      apply (rep_frame q t); simpl; try done; [| |].
      * intros x. rewrite fn_insert_dec. case_decide; [subst x|done].
        intros _. right. destruct (prev_node q l1) eqn:E;
          [apply prev_node_in in E|apply prev_node_hdr in E]; subst; eauto.
        right. eexists. rewrite Hq. split; [|done]. set_solver.
      * intros x. rewrite fn_insert_dec. case_decide; [subst x|done].
        intros _. right. destruct (nth_node q l2) eqn:E;
          [apply nth_node_in in E|apply nth_node_hdr in E]; subst; eauto.
        right. eexists. rewrite Hq. split; [|done]. set_solver.
      * apply (rep_other q); [rewrite Hq; set_solver|done].
  - intros q'. rewrite fn_insert_dec. case_decide; [|done].
    apply list.NoDup_app. split_and!; [done| |done]. set_solver.
  - intros q1 q2 u. rewrite !fn_insert_dec.
    repeat case_decide; subst; try done; intros Hu1 Hu2;
      apply (Hdj q1 q2 u); try done; rewrite Hq; set_solver.
Qed.

Lemma scan_split q go (l1 l2 : list tid) a fuel :
  seg m a (NThd <$> l1 ++ l2) (NHdr q) ->
  Forall (fun t => go (NThd t) = true) l1 -> go (nth_node q l2) = false ->
  (length l1 < fuel)%nat ->
  scan fuel m go a = Some (nth_node q l2).
Proof using.
  revert a fuel. induction l1 as [|t l1 IH]; intros a fuel Hs Hf Hg Hlen;
    (destruct fuel as [|fuel]; [simpl in Hlen; lia|]); simpl.
  - simpl in Hs. by rewrite (seg_next _ _ l2 _ Hs), Hg.
  - simpl in Hs. destruct Hs as (-> & _ & Hs).
    apply list.Forall_cons in Hf as [-> Hf].
    apply IH; [done..|]. simpl in Hlen. lia.
Qed.
End Rep.

(** *** Refinement theorems *)

(** The priorities of the threads, as the list level sees them. *)
Definition prio_of (m : links) (t : tid) : Z := p_prio m (NThd t).

Theorem prio_insert_refines m qs q t fuel :
  rep m qs -> (forall q', t ∉ qs q') -> (length (qs q) < fuel)%nat ->
  exists m', prio_insert fuel t q m = Some m' /\ p_prio m' = p_prio m /\
    rep m' (<[q := Lst.prio_ins (prio_of m) t (qs q)]> qs).
Proof.
  intros Hrep Ht Hfuel. unfold prio_insert.
  destruct (Lst.prio_ins_split (prio_of m) t (qs q)) as (l1 & l2 & Hq & -> & H1 & H2).
  rewrite (scan_split m q _ l1 l2).
  - eexists. split; [done|]. split; [done|]. by apply link_before_rep.
  - rewrite <-Hq. apply Hrep.
  - apply (list.Forall_impl _ _ _ H1). simpl. intros c Hc.
    apply Z.leb_le, Hc.
  - destruct l2 as [|c l2]; simpl.
    + by rewrite bool_decide_eq_true_2.
    + apply Z.leb_gt, (H2 c l2 eq_refl).
  - rewrite Hq, length_app in Hfuel. lia.
Qed.

Theorem ready_insert_refines m qs t fuel :
  rep m qs -> (forall q', t ∉ qs q') -> (length (qs QReady) < fuel)%nat ->
  p_prio m (NHdr QReady) = NOPRIO -> NOPRIO < prio_of m t ->
  exists m', ready_insert fuel t m = Some m' /\ p_prio m' = p_prio m /\
    rep m' (<[QReady := Lst.prio_ins (prio_of m) t (qs QReady)]> qs).
Proof.
  intros Hrep Ht Hfuel Hhdr Hprio. unfold ready_insert.
  destruct (Lst.prio_ins_split (prio_of m) t (qs QReady)) as (l1 & l2 & Hq & -> & H1 & H2).
  rewrite (scan_split m QReady _ l1 l2).
  - eexists. split; [done|]. split; [done|]. by apply link_before_rep.
  - rewrite <-Hq. apply Hrep.
  - apply (list.Forall_impl _ _ _ H1). simpl. intros c Hc. apply Z.leb_le, Hc.
  - apply Z.leb_gt. destruct l2 as [|c l2]; simpl.
    + by rewrite Hhdr.
    + apply (H2 c l2 eq_refl).
  - rewrite Hq, length_app in Hfuel. lia.
Qed.

Theorem ahead_insert_refines m qs t fuel :
  rep m qs -> (forall q', t ∉ qs q') -> (length (qs QReady) < fuel)%nat ->
  p_prio m (NHdr QReady) = NOPRIO -> NOPRIO <= prio_of m t ->
  exists m', ahead_insert fuel t m = Some m' /\ p_prio m' = p_prio m /\
    rep m' (<[QReady := Lst.ahead_ins (prio_of m) t (qs QReady)]> qs).
Proof.
  intros Hrep Ht Hfuel Hhdr Hprio. unfold ahead_insert.
  destruct (Lst.ahead_ins_split (prio_of m) t (qs QReady)) as (l1 & l2 & Hq & -> & H1 & H2).
  rewrite (scan_split m QReady _ l1 l2).
  - eexists. split; [done|]. split; [done|]. by apply link_before_rep.
  - rewrite <-Hq. apply Hrep.
  - apply (list.Forall_impl _ _ _ H1). simpl. intros c Hc. apply Z.ltb_lt, Hc.
  - apply Z.ltb_ge. destruct l2 as [|c l2]; simpl.
    + by rewrite Hhdr.
    + apply (H2 c l2 eq_refl).
  - rewrite Hq, length_app in Hfuel. lia.
Qed.

Theorem queue_insert_refines m qs q t :
  rep m qs -> (forall q', t ∉ qs q') ->
  rep (queue_insert t q m) (<[q := qs q ++ [t]]> qs).
Proof.
  intros Hrep Ht.
  apply (link_before_rep m qs Hrep q (qs q) []); [by rewrite app_nil_r|done].
Qed.

Theorem fifo_remove_refines m qs q (t : tid) (l : list tid) :
  rep m qs -> qs q = t :: l ->
  fst (fifo_remove q m) = NThd t /\
  rep (snd (fifo_remove q m)) (<[q := l]> qs).
Proof.
  intros Hrep Hq. destruct (Hrep) as (Hs & _ & _).
  pose proof (Hs q) as Hsq. rewrite Hq in Hsq. simpl in Hsq.
  destruct Hsq as (Hn & Hp & Hsq). apply seg_next in Hsq.
  unfold fifo_remove. simpl. rewrite fn_insert_eq, Hn, Hsq. split; [done|].
  apply (unlink_rep m qs Hrep q [] l t Hq).
Qed.

Theorem lifo_remove_refines m qs q (t : tid) (l : list tid) :
  rep m qs -> qs q = l ++ [t] ->
  fst (lifo_remove q m) = NThd t /\
  rep (snd (lifo_remove q m)) (<[q := l]> qs).
Proof.
  intros Hrep Hq. destruct (Hrep) as (Hs & _ & _).
  pose proof (Hs q) as Hsq. rewrite Hq, fmap_app in Hsq. simpl in Hsq.
  apply seg_app in Hsq as [Hsq [Hn Hp]]. apply seg_prev in Hsq.
  unfold lifo_remove. simpl. rewrite fn_insert_eq, Hp, Hsq. split; [done|].
  pose proof (unlink_rep m qs Hrep q l [] t Hq) as Hr.
  by rewrite app_nil_r in Hr.
Qed.

Theorem dequeue_refines m qs q t :
  rep m qs -> t ∈ qs q ->
  rep (dequeue t m) (fun q' => lremove t (qs q')).
Proof.
  intros Hrep Ht. destruct (Hrep) as (Hs & Hnd & Hdj).
  apply list_elem_of_split in Ht as Hsp. destruct Hsp as (l1 & l2 & Hq).
  pose proof (Hs q) as Hsq. rewrite Hq, fmap_app in Hsq. simpl in Hsq.
  apply seg_app in Hsq as [Hs1 Hs2].
  apply seg_prev in Hs1. apply seg_next in Hs2.
  pose proof (Hnd q) as Hndq. rewrite Hq in Hndq.
  apply list.NoDup_app in Hndq as (Hnd1 & Hd12 & Hnd2).
  apply list.NoDup_cons in Hnd2 as [Ht2 Hnd2].
  assert (dequeue t m =
    mkL (<[prev_node q l1 := nth_node q l2]> (p_next m))
        (<[nth_node q l2 := prev_node q l1]> (p_prev m)) (p_prio m)) as ->.
  { unfold dequeue. simpl. rewrite Hs1, Hs2. simpl.
    rewrite fn_insert_ne, Hs2; [done|].
    intros H%prev_node_in. set_solver. }
  pose proof (unlink_rep m qs Hrep q l1 l2 t Hq) as (R1 & R2 & R3).
  assert (forall q', lremove t (qs q') = <[q := l1 ++ l2]> qs q') as Heq.
  { intros q'. rewrite fn_insert_dec. case_decide as Hd.
    - subst q'. rewrite Hq. apply lremove_split; set_solver.
    - apply lremove_notin. intros Hu. apply Hd. eauto. }
  split_and!.
  - intros q'. rewrite Heq. apply R1.
  - intros q'. rewrite Heq. apply R2.
  - intros q1 q2 u. rewrite !Heq. apply R3.
Qed.
End Ptr.
