(* ===== verification/VT.v ===== *)
(** * Virtual timers ([chvt.c], [chvt.h])

    The armed timers form a delta list: each timer holds the number of ticks
    after its predecessor.  The list is walked with no test for its end; the
    header's [vt_time] of [(systime_t)-1] stops the walk.  The specification
    is the number of ticks remaining to each timer: arming and disarming a
    timer changes it for that timer only. *)
From S2P Require Import Prelude Monad Types.

Implicit Types (s : kstate) (v p : vtid) (l : list vtid) (time : Z).

Section Defs.
Context `{Config}.

Definition _vt_init : KM unit :=
  modify (fun s => set_k_vtl [] (set_k_vth (u32 (-1)) (set_k_systime 0 s))).

(** The walk of [chVTSetI()]: the timers passed over, the timers from [p]
    on, and what is left of [time]. *)
Fixpoint vt_walk (vt : vtid -> VirtualTimer) (hdr : Z) l time
    : option (list vtid * list vtid * Z) :=
  match l with
  | [] => if hdr <? time then None else Some ([], [], time)
  | p :: l' =>
      if vt_time (vt p) <? time then
        match vt_walk vt hdr l' (u32 (time - vt_time (vt p))) with
        | None => None
        | Some (before, after, t) => Some (p :: before, after, t)
        end
      else Some ([], l, time)
  end.

Definition chVTSetI v time (fn : vtfunc) (par : Z) : KM unit :=
  chDbgCheckClassI ;;;
  chDbgCheck (negb (time =? TIME_IMMEDIATE)) "chVTSetI" ;;;
  fun s =>
    let s := upd_vt v (fun t => set_vt_func (Some fn) (set_vt_par par t)) s in
    match vt_walk (k_vt s) (k_vth s) (k_vtl s) time with
    | None => Stuck Diverge
    | Some (before, after, time) =>
        let s := set_k_vtl (before ++ v :: after) s in
        let s := upd_vt v (set_vt_time time) s in
        Done tt
          match after with
          | [] => s
          | p :: _ => upd_vt p (fun t => set_vt_time (u32 (vt_time t - time)) t) s
          end
    end.

(** The timer linked after [v]. *)
Fixpoint vt_next l v : option vtid :=
  match l with
  | [] => None
  | a :: l' => if decide (a = v) then head l' else vt_next l' v
  end.

Definition chVTResetI v : KM unit :=
  chDbgCheckClassI ;;;
  (fun s => chDbgAssert (bool_decide (vt_func (k_vt s v) <> None))
              "chVTResetI(), #1" s) ;;;
  fun s =>
    if decide (v ∈ k_vtl s) then
      let s := match vt_next (k_vtl s) v with
               | None => s
               | Some p => upd_vt p (fun t =>
                   set_vt_time (u32 (vt_time t + vt_time (k_vt s v))) t) s
               end in
      let s := set_k_vtl (lremove v (k_vtl s)) s in
      Done tt (upd_vt v (set_vt_func None) s)
    else Stuck (Fault "chVTResetI").

Definition chVTIsArmedI s v : bool := bool_decide (vt_func (k_vt s v) <> None).

Definition chVTSet v time fn par : KM unit :=
  chSysLock ;;; chVTSetI v time fn par ;;; chSysUnlock.

Definition chVTReset v : KM unit :=
  chSysLock ;;;
  (fun s => (whenb chVTIsArmedI s v then chVTResetI v) s) ;;;
  chSysUnlock.

Definition chTimeNow s : Z := k_systime s.

Definition chTimeIsWithin s (start end_ : Z) : bool :=
  let time := chTimeNow s in
  if start <? end_ then (start <=? time) && (time <? end_)
  else (start <=? time) || (time <? end_).
End Defs.

(** ** Remaining ticks *)

Fixpoint vt_remaining (vt : vtid -> VirtualTimer) l v : option Z :=
  match l with
  | [] => None
  | p :: l' => if decide (p = v) then Some (vt_time (vt p))
               else Z.add (vt_time (vt p)) <$> vt_remaining vt l' v
  end.

Definition remaining s v : option Z := vt_remaining (k_vt s) (k_vtl s) v.

Fixpoint vt_total (vt : vtid -> VirtualTimer) l : Z :=
  match l with [] => 0 | p :: l' => vt_time (vt p) + vt_total vt l' end.

Record vt_wf s : Prop := {
  vtwf_nodup : NoDup (k_vtl s);
  vtwf_nonneg : forall v, v ∈ k_vtl s -> 0 <= vt_time (k_vt s v);
  vtwf_total : vt_total (k_vt s) (k_vtl s) < 2^32;
  vtwf_hdr : k_vth s = 2^32 - 1;
  vtwf_armed : forall v, v ∈ k_vtl s <-> vt_func (k_vt s v) <> None
}.

(** ** Lemmas on delta lists *)

Section Lemmas.
Implicit Types (vt : vtid -> VirtualTimer).

Lemma vt_total_app vt l1 l2 :
  vt_total vt (l1 ++ l2) = vt_total vt l1 + vt_total vt l2.
Proof. induction l1 as [|p l1 IH]; simpl; [lia|]. rewrite IH. lia. Qed.

Lemma vt_total_nonneg vt l :
  (forall v, v ∈ l -> 0 <= vt_time (vt v)) -> 0 <= vt_total vt l.
Proof.
  induction l as [|p l IH]; simpl; intros Hn; [lia|].
  pose proof (Hn p ltac:(set_solver)).
  assert (0 <= vt_total vt l) by (apply IH; set_solver). lia.
Qed.

Lemma vt_ext vt vt' l :
  (forall p, p ∈ l -> vt_time (vt' p) = vt_time (vt p)) ->
  vt_total vt' l = vt_total vt l /\
  forall v, vt_remaining vt' l v = vt_remaining vt l v.
Proof.
  induction l as [|p l IH]; simpl; intros He; [done|].
  destruct IH as [IHt IHr]; [set_solver|]. rewrite IHt, (He p) by set_solver.
  split; [done|]. intros v. by rewrite IHr.
Qed.

Lemma vt_remaining_app vt l1 l2 v :
  vt_remaining vt (l1 ++ l2) v =
  match vt_remaining vt l1 v with
  | Some r => Some r
  | None => Z.add (vt_total vt l1) <$> vt_remaining vt l2 v
  end.
Proof.
  induction l1 as [|p l1 IH]; simpl.
  - by destruct (vt_remaining vt l2 v).
  - case_decide; [done|]. rewrite IH.
    destruct (vt_remaining vt l1 v); simpl; [done|].
    destruct (vt_remaining vt l2 v); simpl; [|done]. f_equal. lia.
Qed.

Lemma vt_remaining_notin vt l v : v ∉ l -> vt_remaining vt l v = None.
Proof.
  induction l as [|p l IH]; simpl; [done|].
  intros [Hp Hl]%not_elem_of_cons. rewrite decide_False by congruence.
  by rewrite IH.
Qed.

Lemma vt_remaining_in vt l v :
  (forall p, p ∈ l -> 0 <= vt_time (vt p)) -> v ∈ l ->
  exists r, vt_remaining vt l v = Some r /\ 0 <= r <= vt_total vt l.
Proof.
  induction l as [|p l IH]; simpl; intros Hn Hv; [set_solver|].
  pose proof (Hn p ltac:(set_solver)).
  assert (0 <= vt_total vt l) by (apply vt_total_nonneg; set_solver).
  case_decide; [eexists; split; [done|lia]|].
  destruct IH as (r & -> & Hr); [set_solver..|].
  eexists. split; [done|]. lia.
Qed.

Lemma vt_walk_spec vt hdr l time :
  (forall v, v ∈ l -> 0 <= vt_time (vt v)) ->
  0 < time <= hdr -> hdr = 2^32 - 1 ->
  exists before after t',
    vt_walk vt hdr l time = Some (before, after, t') /\
    l = before ++ after /\ time = vt_total vt before + t' /\ 0 < t' /\
    (forall p l', after = p :: l' -> t' <= vt_time (vt p)).
Proof.
  intros Hn Ht Hh. revert time Ht.
  induction l as [|p l IH]; intros time Ht; simpl.
  - rewrite (proj2 (Z.ltb_ge _ _)) by lia. exists [], [], time.
    split_and!; try done; simpl; lia.
  - pose proof (Hn p ltac:(set_solver)).
    destruct (Z.ltb_spec (vt_time (vt p)) time) as [Hlt|Hge].
    + rewrite u32_small by (unfold is_u32; lia).
      destruct (IH ltac:(set_solver) (time - vt_time (vt p)))
        as (b & a & t' & -> & -> & Ht' & Hp & Ha); [lia|].
      exists (p :: b), a, t'. split_and!; try done. simpl. lia.
    + exists [], (p :: l), time. split_and!; [done|done|simpl; lia|lia|].
      by intros ? ? [= <- _].
Qed.

(** Lowering the first delta of a list by [d] lowers every remaining time
    by [d]. *)
Lemma vt_shift_head vt vt' p l d :
  p ∉ l ->
  vt_time (vt' p) = vt_time (vt p) - d ->
  (forall u, u ∈ l -> vt_time (vt' u) = vt_time (vt u)) ->
  vt_total vt' (p :: l) = vt_total vt (p :: l) - d /\
  forall v, vt_remaining vt' (p :: l) v =
            (fun r => r - d) <$> vt_remaining vt (p :: l) v.
Proof.
  intros Hp Hd Hl. destruct (vt_ext vt vt' l Hl) as [Et Er]. simpl.
  rewrite Et, Hd. split; [lia|]. intros v. rewrite Er. case_decide; [done|].
  destruct (vt_remaining vt l v); simpl; [|done]. f_equal. lia.
Qed.
End Lemmas.

(** [p->vt_time -= time] for the timer that follows the inserted one. *)
Definition vt_lower_head (vt : vtid -> VirtualTimer) l (d : Z) : vtid -> VirtualTimer :=
  match l with
  | [] => vt
  | p :: _ => <[p := set_vt_time (u32 (vt_time (vt p) - d)) (vt p)]> vt
  end.

Lemma vt_lower_head_spec vt a d :
  NoDup a -> (forall u, u ∈ a -> 0 <= vt_time (vt u)) -> vt_total vt a < 2^32 ->
  0 <= d -> (forall p a', a = p :: a' -> d <= vt_time (vt p)) ->
  let vt' := vt_lower_head vt a d in
  vt_total vt' a = vt_total vt a - (if decide (a = []) then 0 else d) /\
  (forall u, u ∈ a -> 0 <= vt_time (vt' u)) /\
  (forall u, vt_remaining vt' a u = (fun r => r - d) <$> vt_remaining vt a u) /\
  (forall u, u ∉ a -> vt' u = vt u) /\
  (forall u, vt_func (vt' u) = vt_func (vt u) /\ vt_par (vt' u) = vt_par (vt u)).
Proof.
  intros Hnd Hnn Htot Hd Ha. destruct a as [|p a]; cbn zeta.
  { split_and!; try done; set_solver. }
  apply list.NoDup_cons in Hnd as [Hpa _]. pose proof (Ha p a eq_refl) as Hpd.
  assert (0 <= vt_total vt a)
    by (apply vt_total_nonneg; intros; apply Hnn; set_solver).
  simpl in Htot. set (vt' := vt_lower_head vt (p :: a) d).
  assert (vt_time (vt' p) = vt_time (vt p) - d) as Ep.
  { unfold vt', vt_lower_head. rewrite fn_insert_eq. simpl.
    apply u32_small. unfold is_u32. lia. }
  assert (forall u, u <> p -> vt' u = vt u) as Eu.
  { intros u Hu. unfold vt', vt_lower_head. by rewrite fn_insert_ne. }
  assert (forall u, u ∈ a -> vt_time (vt' u) = vt_time (vt u)) as Et.
  { intros u Hu. rewrite Eu; [done|]. intros ->. done. }
  destruct (vt_shift_head vt vt' p a d Hpa Ep Et) as [E1 E2].
  rewrite decide_False by done. split_and!; [done| |done| |].
  - intros u [->|Hu]%elem_of_cons; [rewrite Ep; lia|].
    rewrite Et by done. apply Hnn. set_solver.
  - intros u [Hu _]%not_elem_of_cons. by apply Eu.
  - intros u. unfold vt', vt_lower_head. rewrite fn_insert_dec.
    by case_decide; subst.
Qed.

Definition vt_raise_head (vt : vtid -> VirtualTimer) l (d : Z) : vtid -> VirtualTimer :=
  match l with
  | [] => vt
  | p :: _ => <[p := set_vt_time (u32 (vt_time (vt p) + d)) (vt p)]> vt
  end.

Lemma vt_raise_head_spec vt a d :
  NoDup a -> (forall u, u ∈ a -> 0 <= vt_time (vt u)) -> 0 <= d ->
  vt_total vt a + d < 2^32 ->
  let vt' := vt_raise_head vt a d in
  vt_total vt' a = vt_total vt a + (if decide (a = []) then 0 else d) /\
  (forall u, u ∈ a -> 0 <= vt_time (vt' u)) /\
  (forall u, vt_remaining vt' a u = Z.add d <$> vt_remaining vt a u) /\
  (forall u, u ∉ a -> vt' u = vt u) /\
  (forall u, vt_func (vt' u) = vt_func (vt u) /\ vt_par (vt' u) = vt_par (vt u)).
Proof.
  intros Hnd Hnn Hd Htot. destruct a as [|p a]; cbn zeta.
  { split_and!; try done; set_solver. }
  apply list.NoDup_cons in Hnd as [Hpa _]. pose proof (Hnn p ltac:(set_solver)).
  assert (0 <= vt_total vt a)
    by (apply vt_total_nonneg; intros; apply Hnn; set_solver).
  simpl in Htot. set (vt' := vt_raise_head vt (p :: a) d).
  assert (vt_time (vt' p) = vt_time (vt p) - (- d)) as Ep.
  { unfold vt', vt_raise_head. rewrite fn_insert_eq. simpl.
    rewrite u32_small; unfold is_u32; lia. }
  assert (forall u, u <> p -> vt' u = vt u) as Eu.
  { intros u Hu. unfold vt', vt_raise_head. by rewrite fn_insert_ne. }
  assert (forall u, u ∈ a -> vt_time (vt' u) = vt_time (vt u)) as Et.
  { intros u Hu. rewrite Eu; [done|]. intros ->. done. }
  destruct (vt_shift_head vt vt' p a (- d) Hpa Ep Et) as [E1 E2].
  rewrite decide_False by done. split_and!; [lia| | | |].
  - intros u [->|Hu]%elem_of_cons; [rewrite Ep; lia|].
    rewrite Et by done. apply Hnn. set_solver.
  - intros u. rewrite E2. destruct (vt_remaining vt (p :: a) u); simpl; [|done].
    f_equal. lia.
  - intros u [Hu _]%not_elem_of_cons. by apply Eu.
  - intros u. unfold vt', vt_raise_head. rewrite fn_insert_dec.
    by case_decide; subst.
Qed.

(** ** Specifications *)

(** Unlinking [v] and giving its delta to its successor. *)
Lemma vt_remove_spec s v b a :
  vt_wf s -> k_vtl s = b ++ v :: a ->
  let VT1 := vt_raise_head (k_vt s) a (vt_time (k_vt s v)) in
  let VT := <[v := set_vt_func None (VT1 v)]> VT1 in
  let s' := set_k_vtl (b ++ a) (set_k_vt VT s) in
  vt_wf s' /\ vt_func (VT v) = None /\
  (forall u, u <> v -> vt_func (VT u) = vt_func (k_vt s u) /\
                       vt_par (VT u) = vt_par (k_vt s u)) /\
  (forall u, u <> v -> remaining s' u = remaining s u).
Proof.
  intros [Hnd Hnn Htot Hh Har] Hl VT1 VT s'.
  rewrite Hl in Hnd, Htot, Hnn. rewrite vt_total_app in Htot. simpl in Htot.
  apply list.NoDup_app in Hnd as (Hnb & Hba & Hna).
  apply list.NoDup_cons in Hna as [Hva Hna].
  assert (v ∉ b) as Hvb by (intros Hb; apply (Hba v Hb); set_solver).
  assert (forall u, u ∈ b -> u ∉ a) as Hba' by (intros u Hu Ha; apply (Hba u Hu); set_solver).
  assert (0 <= vt_total (k_vt s) b) as Hb0
    by (apply vt_total_nonneg; intros; apply Hnn; set_solver).
  pose proof (Hnn v ltac:(set_solver)) as Hv0.
  destruct (vt_raise_head_spec (k_vt s) a (vt_time (k_vt s v)))
    as (L1 & L2 & L3 & L4 & L5); try lia; try done.
  { intros u Hu. apply Hnn. set_solver. }
  fold VT1 in L1, L2, L3, L4, L5.
  assert (forall u, vt_time (VT u) = vt_time (VT1 u)) as Et.
  { intros u. unfold VT. rewrite fn_insert_dec.
    by destruct (decide (v = u)) as [->|]. }
  destruct (vt_ext VT1 VT a (fun u _ => Et u)) as [Eta Era].
  destruct (vt_ext (k_vt s) VT b) as [Etb Erb].
  { intros u Hu. rewrite Et, L4 by auto. done. }
  split_and!.
  - split; simpl.
    + apply list.NoDup_app. split_and!; auto.
    + intros u [Hu|Hu]%elem_of_app; rewrite Et; [|by apply L2].
      rewrite L4 by auto. apply Hnn. set_solver.
    + rewrite vt_total_app, Etb, Eta, L1. case_decide; subst; simpl in *; lia.
    + done.
    + intros u. unfold VT. rewrite fn_insert_dec.
      destruct (decide (v = u)) as [<-|Hd].
      * simpl. split; [|done]. by intros [?|?]%elem_of_app.
      * rewrite (proj1 (L5 u)), <-Har, Hl. set_solver.
  - unfold VT. by rewrite fn_insert_eq.
  - intros u Hu. unfold VT. rewrite fn_insert_ne by done. apply L5.
  - intros u Hu. unfold remaining. simpl. rewrite Hl, !vt_remaining_app, Erb.
    destruct (vt_remaining (k_vt s) b u); [done|]. simpl.
    rewrite decide_False, Era, L3, Etb by done.
    by destruct (vt_remaining (k_vt s) a u).
Qed.

Lemma vt_next_split b v a : v ∉ b -> vt_next (b ++ v :: a) v = head a.
Proof.
  induction b as [|u b IH]; simpl; intros Hb; [by rewrite decide_True|].
  apply not_elem_of_cons in Hb as [Hu Hb]. rewrite decide_False by congruence.
  auto.
Qed.

(** Inserting [v] with delta [t'] between two parts of a delta list. *)
Lemma vt_insert_spec s v t' b a (VT1 : vtid -> VirtualTimer) :
  vt_wf s -> vt_func (k_vt s v) = None -> k_vtl s = b ++ a -> 0 < t' ->
  vt_total (k_vt s) b + t' < 2^32 ->
  (forall p a', a = p :: a' -> t' <= vt_time (k_vt s p)) ->
  vt_time (VT1 v) = t' -> vt_func (VT1 v) <> None ->
  (forall u, u <> v -> VT1 u = k_vt s u) ->
  let VT := vt_lower_head VT1 a t' in
  let s' := set_k_vtl (b ++ v :: a) (set_k_vt VT s) in
  vt_wf s' /\ VT v = VT1 v /\
  (forall u, u <> v -> vt_func (VT u) = vt_func (k_vt s u) /\
                       vt_par (VT u) = vt_par (k_vt s u)) /\
  remaining s' v = Some (vt_total (k_vt s) b + t') /\
  (forall u, u <> v -> remaining s' u = remaining s u).
Proof.
  intros [Hnd Hnn Htot Hh Har] Hv Hl Ht' Hmax Ha Ft Ff H1 VT s'.
  assert (v ∉ k_vtl s) as Hvl by (rewrite Har; congruence).
  rewrite Hl in Hnd, Hvl, Htot, Hnn. rewrite vt_total_app in Htot.
  apply list.NoDup_app in Hnd as (Hnb & Hba & Hna).
  apply not_elem_of_app in Hvl as [Hvb Hva].
  assert (forall l, v ∉ l -> forall u, u ∈ l -> vt_time (VT1 u) = vt_time (k_vt s u)) as H1t.
  { intros l Hvl u Hu. rewrite H1; [done|]. intros ->. done. }
  destruct (vt_ext _ _ a (H1t a Hva)) as [Eta Era].
  assert (0 <= vt_total (k_vt s) b) as Hb0
    by (apply vt_total_nonneg; intros; apply Hnn; set_solver).
  destruct (vt_lower_head_spec VT1 a t') as (L1 & L2 & L3 & L4 & L5); try lia; try done.
  { intros u Hu. rewrite (H1t a) by done. apply Hnn. set_solver. }
  { intros p a' ->. rewrite (H1t (p :: a')) by set_solver. eauto. }
  fold VT in L1, L2, L3, L4, L5.
  assert (VT v = VT1 v) as Ev by (by rewrite L4).
  assert (forall u, u ∈ b -> vt_time (VT u) = vt_time (k_vt s u)) as Hb.
  { intros u Hu. rewrite L4 by auto. by apply (H1t b). }
  destruct (vt_ext _ _ b Hb) as [Etb Erb].
  split_and!; try done.
  - split; simpl.
    + apply list.NoDup_app. split_and!; [done| |by apply list.NoDup_cons].
      intros u Hu. apply not_elem_of_cons. split; [intros ->|]; auto.
    + intros u [Hu|[->|Hu]%elem_of_cons]%elem_of_app; [|rewrite Ev; lia|auto].
      rewrite Hb by done. apply Hnn. set_solver.
    + rewrite vt_total_app. simpl. rewrite Etb, Ev, L1, Ft, Eta.
      case_decide; subst; simpl in *; lia.
    + done.
    + intros u. rewrite (proj1 (L5 u)). destruct (decide (u = v)) as [->|Hu].
      * set_solver.
      * rewrite H1, <-Har, Hl by done. set_solver.
  - intros u Hu. destruct (L5 u) as [-> ->]. by rewrite H1.
  - unfold remaining. simpl. rewrite vt_remaining_app, vt_remaining_notin by done.
    simpl. rewrite decide_True by done. simpl. by rewrite Etb, Ev, Ft.
  - intros u Hu. unfold remaining. simpl. rewrite Hl, !vt_remaining_app, Erb.
    destruct (vt_remaining (k_vt s) b u); [done|]. simpl.
    rewrite decide_False, L3, Era, Ev, Ft, Etb by done.
    destruct (vt_remaining (k_vt s) a u); simpl; [|done]. f_equal. lia.
Qed.

Section Specs.
Context `{Config}.

Lemma chVTSetI_spec s v time fn par :
  locked_I s -> vt_wf s -> vt_func (k_vt s v) = None -> 0 < time < 2^32 ->
  exists L VT, let s' := set_k_vtl L (set_k_vt VT s) in
    chVTSetI v time fn par s = Done tt s' /\ vt_wf s' /\
    L ≡ₚ v :: k_vtl s /\
    vt_func (VT v) = Some fn /\ vt_par (VT v) = par /\
    (forall u, u <> v -> vt_func (VT u) = vt_func (k_vt s u) /\
                         vt_par (VT u) = vt_par (k_vt s u)) /\
    remaining s' v = Some time /\
    (forall u, u <> v -> remaining s' u = remaining s u).
Proof.
  intros HI Hwf Hv Ht.
  assert (v ∉ k_vtl s) as Hvl by (rewrite (vtwf_armed s Hwf); congruence).
  set (VT0 := <[v := set_vt_func (Some fn) (set_vt_par par (k_vt s v))]> (k_vt s)).
  assert (forall u, u ∈ k_vtl s -> VT0 u = k_vt s u) as H0.
  { intros u Hu. unfold VT0. rewrite fn_insert_ne; [done|]. intros ->. done. }
  destruct (vt_walk_spec VT0 (k_vth s) (k_vtl s) time)
    as (b & a & t' & Hw & Hl & Htime & Ht' & Ha).
  { intros u Hu. rewrite H0 by done. by apply vtwf_nonneg. }
  { rewrite (vtwf_hdr s Hwf). lia. }
  { apply vtwf_hdr, Hwf. }
  assert (vt_total VT0 b = vt_total (k_vt s) b) as Et0.
  { apply vt_ext. intros u Hu. rewrite H0; [done|]. rewrite Hl. set_solver. }
  destruct (vt_insert_spec s v t' b a (<[v := set_vt_time t' (VT0 v)]> VT0))
    as (W & Ev & Eu & Er & Ero); try done; [lia| | | | |].
  2,3: rewrite fn_insert_eq; unfold VT0; by rewrite fn_insert_eq.
  2: { intros u Hu. unfold VT0. by rewrite !fn_insert_ne. }
  { intros p a' ->. rewrite <-H0 by (rewrite Hl; set_solver). eauto. }
  eexists _, _. split_and!; [|exact W|..]; try done.
  - unfold chVTSetI, bind. rewrite chDbgCheckClassI_ok by done. simpl.
    rewrite chDbgCheck_ok
      by (apply negb_true_iff, Z.eqb_neq; unfold TIME_IMMEDIATE; lia).
    simpl. fold VT0. rewrite Hw. by destruct a.
  - rewrite Hl. symmetry. apply Permutation_middle.
  - rewrite Ev, fn_insert_eq. unfold VT0. by rewrite fn_insert_eq.
  - rewrite Ev, fn_insert_eq. unfold VT0. by rewrite fn_insert_eq.
  - rewrite Er. f_equal. lia.
Qed.

Lemma chVTResetI_spec s v :
  locked_I s -> vt_wf s -> vt_func (k_vt s v) <> None ->
  exists L VT, let s' := set_k_vtl L (set_k_vt VT s) in
    chVTResetI v s = Done tt s' /\ vt_wf s' /\
    L = lremove v (k_vtl s) /\ vt_func (VT v) = None /\
    (forall u, u <> v -> vt_func (VT u) = vt_func (k_vt s u) /\
                         vt_par (VT u) = vt_par (k_vt s u)) /\
    (forall u, u <> v -> remaining s' u = remaining s u).
Proof.
  intros HI Hwf Hv. pose proof (proj2 (vtwf_armed s Hwf v) Hv) as Hin.
  pose proof (vtwf_nodup s Hwf) as Hnd.
  apply list_elem_of_split in Hin as Hsp. destruct Hsp as (b & a & Hl).
  rewrite Hl in Hnd. apply list.NoDup_app in Hnd as (_ & Hba & Hna).
  apply list.NoDup_cons in Hna as [Hva _].
  assert (v ∉ b) as Hvb by (intros Hb; apply (Hba v Hb); set_solver).
  destruct (vt_remove_spec s v b a Hwf Hl) as (W & E1 & E2 & E3).
  eexists (b ++ a), _. split_and!; [|exact W|..]; try done.
  - unfold chVTResetI, bind. rewrite chDbgCheckClassI_ok by done. simpl.
    rewrite chDbgAssert_ok by (by apply bool_decide_eq_true_2). simpl.
    rewrite decide_True by done. rewrite Hl, vt_next_split by done.
    destruct a as [|p a]; simpl; rewrite Hl, lremove_split by done; done.
  - rewrite Hl. by rewrite lremove_split.
Qed.
End Specs.
