(* ===== verification/Sched.v ===== *)
(** * Scheduler ([chschd.c], [chschd.h])

    The ready list, context switches, timed sleeps and preemption.  The
    reschedule functions differ in the position of the preempted thread among
    the ready threads of its priority. *)
From S2P Require Import Prelude Monad Types ThdLists VT.

Implicit Types (s : kstate) (tp ntp otp : tid) (time : Z).

Section Defs.
Context `{Config}.

Definition _scheduler_init : KM unit :=
  queue_init QReady ;;;
  modify (fun s => set_k_reg [] (set_k_rprio NOPRIO s)).

(** [firstprio(&rlist.r_queue)]: with no ready thread [p_next] is the
    header, whose priority is [r_prio]. *)
Definition firstprio s : Z :=
  match k_q s QReady with [] => k_rprio s | tp :: _ => k_prio s tp end.

Definition currprio s : Z := k_prio s (k_curr s).

(** The insertion scans have no test for the end of the list: they come
    back to the first thread if the header does not stop them. *)
Definition ready_scan s tp : option (list tid) :=
  let l := k_q s QReady in
  if forallb (fun cp => k_prio s tp <=? k_prio s cp) l
     && (k_prio s tp <=? k_rprio s) then None
  else Some (Lst.prio_ins (k_prio s) tp l).

Definition ahead_scan s tp : option (list tid) :=
  let l := k_q s QReady in
  if forallb (fun cp => k_prio s tp <? k_prio s cp) l
     && (k_prio s tp <? k_rprio s) then None
  else Some (Lst.ahead_ins (k_prio s) tp l).

Definition insert_by (scan : kstate -> tid -> option (list tid)) tp : KM unit :=
  fun s => match scan s tp with
           | None => Stuck Diverge
           | Some l => Done tt (upd_q QReady l s)
           end.

Definition chSchReadyI tp : KM tid :=
  chDbgCheckClassI ;;;
  let! th := thd tp in
  chDbgAssert (negb (bool_decide (p_state th = THD_STATE_READY))
               && negb (bool_decide (p_state th = THD_STATE_FINAL)))
              "chSchReadyI(), #1" ;;;
  set_thd tp (set_p_state THD_STATE_READY) ;;;
  insert_by ready_scan tp ;;;
  mret' tp.

Definition chSchGoSleepS (newstate : tstate) : KM unit :=
  chDbgCheckClassS ;;;
  let! otp := currp in
  set_thd otp (set_p_state newstate) ;;;
  (whenb 0 <? CH_TIME_QUANTUM then set_thd otp (set_p_preempt CH_TIME_QUANTUM)) ;;;
  let! ntp := fifo_remove QReady in
  setcurrp ntp ;;;
  set_thd ntp (set_p_state THD_STATE_CURRENT) ;;;
  chSysSwitch ntp otp.

(** [chSemFastSignalI()] on the semaphore a thread waits for. *)
Definition chSemFastSignalI (sp : sid) : KM unit :=
  modify (fun s => upd_sem sp (s32 (k_sem s sp + 1)) s).

(** The body of [wakeup()] after the test for [THD_STATE_READY]. *)
Definition wakeup_thread tp : KM unit :=
  let! th := thd tp in
  match p_state th with
  | THD_STATE_WTSEM =>
      match u_wtobjp (p_u th) with
      | Some (QSem sp) => chSemFastSignalI sp ;;; dequeue tp ;;; mret' tt
      | _ => fault "wakeup"
      end
  | THD_STATE_WTQUEUE | THD_STATE_WTCOND => dequeue tp ;;; mret' tt
  | _ => mret' tt
  end ;;;
  set_thd tp (set_p_u (U_msg RDY_TIMEOUT)) ;;;
  chSchReadyI tp ;;;
  mret' tt.

Definition wakeup tp : KM unit :=
  chSysLockFromIsr ;;;
  let! th := thd tp in
  if bool_decide (p_state th = THD_STATE_READY) then chSysUnlockFromIsr
  else wakeup_thread tp ;;; chSysUnlockFromIsr.

Definition chSchGoSleepTimeoutS (newstate : tstate) time : KM Z :=
  chDbgCheckClassS ;;;
  (if negb (time =? TIME_INFINITE) then
     let! me := currp in
     chVTSetI (VTStack me) time VF_wakeup me ;;;
     chSchGoSleepS newstate ;;;
     (fun s => (whenb chVTIsArmedI s (VTStack me)
                then chVTResetI (VTStack me)) s)
   else chSchGoSleepS newstate) ;;;
  let! me := currp in
  let! th := thd me in
  mret' (u_rdymsg (p_u th)).

Definition chSchWakeupS ntp (msg : Z) : KM unit :=
  chDbgCheckClassS ;;;
  set_thd ntp (set_p_u (U_msg msg)) ;;;
  fun s =>
    (if k_prio s ntp <=? currprio s then
       chSchReadyI ntp ;;; mret' tt
     else
       let! me := currp in
       let! otp := chSchReadyI me in
       setcurrp ntp ;;;
       set_thd ntp (set_p_state THD_STATE_CURRENT) ;;;
       chSysSwitch ntp otp) s.

Definition chSchIsRescRequiredI s : bool := currprio s <? firstprio s.
Definition chSchCanYieldS s : bool := currprio s <=? firstprio s.

Definition chSchIsPreemptionRequired s : bool :=
  let p1 := firstprio s in
  let p2 := currprio s in
  if 0 <? CH_TIME_QUANTUM then
    if negb (p_preempt (k_thd s (k_curr s)) =? 0) then p2 <? p1 else p2 <=? p1
  else p2 <? p1.

Definition chSchDoRescheduleBehind : KM unit :=
  let! otp := currp in
  let! ntp := fifo_remove QReady in
  setcurrp ntp ;;;
  set_thd ntp (set_p_state THD_STATE_CURRENT) ;;;
  (whenb 0 <? CH_TIME_QUANTUM then set_thd otp (set_p_preempt CH_TIME_QUANTUM)) ;;;
  chSchReadyI otp ;;;
  chSysSwitch ntp otp.

Definition chSchDoRescheduleAhead : KM unit :=
  let! otp := currp in
  let! ntp := fifo_remove QReady in
  setcurrp ntp ;;;
  set_thd ntp (set_p_state THD_STATE_CURRENT) ;;;
  set_thd otp (set_p_state THD_STATE_READY) ;;;
  insert_by ahead_scan otp ;;;
  chSysSwitch ntp otp.

Definition chSchDoReschedule : KM unit := fun s =>
  (if 0 <? CH_TIME_QUANTUM then
     if p_preempt (k_thd s (k_curr s)) =? 0 then chSchDoRescheduleBehind
     else chSchDoRescheduleAhead
   else chSchDoRescheduleAhead) s.

Definition chSchRescheduleS : KM unit :=
  chDbgCheckClassS ;;;
  fun s => (whenb chSchIsRescRequiredI s then chSchDoRescheduleAhead) s.

Definition chSchDoYieldS : KM unit := fun s =>
  (whenb chSchCanYieldS s then chSchDoRescheduleBehind) s.
End Defs.
