(* ===== verification/Sem.v ===== *)
(** * Counting and binary semaphores ([chsem.c], [chsem.h], [chbsem.h]) *)
From S2P Require Import Prelude Monad Types ThdLists VT Sched.

Implicit Types (s : kstate) (sp : sid) (n time : Z).

Section Defs.
Context `{Config}.

Definition sem_insert (tp : tid) (q : qid) : KM unit :=
  if CH_USE_SEMAPHORES_PRIORITY then prio_insert tp q else queue_insert tp q.

Definition set_cnt sp (f : Z -> Z) : KM unit :=
  modify (fun s => upd_sem sp (s32 (f (k_sem s sp))) s).

(** The condition of the "inconsistent semaphore" assertions. *)
Definition sem_consistent s sp : bool :=
  ((0 <=? k_sem s sp) && isempty s (QSem sp)) ||
  ((k_sem s sp <? 0) && notempty s (QSem sp)).

Definition sem_assert sp (m : string) : KM unit :=
  fun s => chDbgAssert (sem_consistent s sp) m s.

Definition chSemInit sp n : KM unit :=
  chDbgCheck (0 <=? n) "chSemInit" ;;;
  queue_init (QSem sp) ;;;
  modify (upd_sem sp n).

(** [chSchReadyI(tp)->p_u.rdymsg = msg] *)
Definition ready_with (tp : tid) (msg : Z) : KM unit :=
  chSchReadyI tp ;;; set_thd tp (set_p_u (U_msg msg)).

(** [while (++cnt <= 0) chSchReadyI(lifo_remove(...))->p_u.rdymsg = RDY_RESET] *)
Fixpoint reset_loop (fuel : nat) sp (cnt : Z) : KM unit :=
  let cnt := cnt + 1 in
  if cnt <=? 0 then
    match fuel with
    | O => diverge
    | S fuel =>
        let! tp := lifo_remove (QSem sp) in
        ready_with tp RDY_RESET ;;;
        reset_loop fuel sp cnt
    end
  else mret' tt.

Definition chSemResetI sp n : KM unit :=
  chDbgCheckClassI ;;;
  chDbgCheck (0 <=? n) "chSemResetI" ;;;
  sem_assert sp "chSemResetI(), #1" ;;;
  let! cnt := gets (fun s => k_sem s sp) in
  modify (upd_sem sp n) ;;;
  reset_loop (Z.to_nat (- cnt)) sp cnt.

Definition chSemReset sp n : KM unit :=
  chSysLock ;;; chSemResetI sp n ;;; chSchRescheduleS ;;; chSysUnlock.

Definition chSemWaitS sp : KM Z :=
  chDbgCheckClassS ;;;
  sem_assert sp "chSemWaitS(), #1" ;;;
  set_cnt sp (fun n => n - 1) ;;;
  fun s =>
    (if k_sem s sp <? 0 then
       let! me := currp in
       set_thd me (set_p_u (U_wtobjp (QSem sp))) ;;;
       sem_insert me (QSem sp) ;;;
       chSchGoSleepS THD_STATE_WTSEM ;;;
       let! me := currp in
       let! th := thd me in
       mret' (u_rdymsg (p_u th))
     else mret' RDY_OK) s.

Definition chSemWait sp : KM Z :=
  chSysLock ;;; let! msg := chSemWaitS sp in chSysUnlock ;;; mret' msg.

Definition chSemWaitTimeoutS sp time : KM Z :=
  chDbgCheckClassS ;;;
  sem_assert sp "chSemWaitTimeoutS(), #1" ;;;
  set_cnt sp (fun n => n - 1) ;;;
  fun s =>
    (if k_sem s sp <? 0 then
       if time =? TIME_IMMEDIATE then
         set_cnt sp (fun n => n + 1) ;;; mret' RDY_TIMEOUT
       else
         let! me := currp in
         set_thd me (set_p_u (U_wtobjp (QSem sp))) ;;;
         sem_insert me (QSem sp) ;;;
         chSchGoSleepTimeoutS THD_STATE_WTSEM time
     else mret' RDY_OK) s.

Definition chSemWaitTimeout sp time : KM Z :=
  chSysLock ;;; let! msg := chSemWaitTimeoutS sp time in chSysUnlock ;;; mret' msg.

(** The assertion of [chSemSignal()] is evaluated before the lock. *)
Definition chSemSignal sp : KM unit :=
  sem_assert sp "chSemSignal(), #1" ;;;
  chSysLock ;;;
  set_cnt sp (fun n => n + 1) ;;;
  (fun s =>
    (whenb k_sem s sp <=? 0 then
       let! tp := fifo_remove (QSem sp) in chSchWakeupS tp RDY_OK) s) ;;;
  chSysUnlock.

Definition chSemSignalI sp : KM unit :=
  chDbgCheckClassI ;;;
  sem_assert sp "chSemSignalI(), #1" ;;;
  set_cnt sp (fun n => n + 1) ;;;
  fun s =>
    (whenb k_sem s sp <=? 0 then
       let! tp := fifo_remove (QSem sp) in
       set_thd tp (set_p_u (U_msg RDY_OK)) ;;;
       chSchReadyI tp ;;; mret' tt) s.

(** One iteration of the loop of [chSemAddCounterI()]. *)
Definition add_counter_step sp : KM unit :=
  set_cnt sp (fun n => n + 1) ;;;
  fun s =>
    (whenb k_sem s sp <=? 0 then
       let! tp := fifo_remove (QSem sp) in ready_with tp RDY_OK) s.

Fixpoint add_counter_loop (n : nat) sp : KM unit :=
  match n with
  | O => mret' tt
  | S n => add_counter_step sp ;;; add_counter_loop n sp
  end.

Definition chSemAddCounterI sp n : KM unit :=
  chDbgCheckClassI ;;;
  chDbgCheck (0 <? n) "chSemAddCounterI" ;;;
  sem_assert sp "chSemAddCounterI(), #1" ;;;
  add_counter_loop (Z.to_nat n) sp.

Definition chSemSignalWait (sps spw : sid) : KM Z :=
  sem_assert sps "chSemSignalWait(), #1" ;;;
  sem_assert spw "chSemSignalWait(), #2" ;;;
  chSysLock ;;;
  add_counter_step sps ;;;
  set_cnt spw (fun n => n - 1) ;;;
  let! msg := (fun s =>
    (if k_sem s spw <? 0 then
       let! ctp := currp in
       sem_insert ctp (QSem spw) ;;;
       set_thd ctp (set_p_u (U_wtobjp (QSem spw))) ;;;
       chSchGoSleepS THD_STATE_WTSEM ;;;
       let! th := thd ctp in
       mret' (u_rdymsg (p_u th))
     else chSchRescheduleS ;;; mret' RDY_OK) s) in
  chSysUnlock ;;;
  mret' msg.

Definition chSemFastWaitI sp : KM unit := set_cnt sp (fun n => n - 1).
Definition chSemGetCounterI s sp : Z := k_sem s sp.

(** ** Binary semaphores *)

Definition chBSemInit sp (taken : bool) : KM unit :=
  chSemInit sp (if taken then 0 else 1).
Definition chBSemWait sp : KM Z := chSemWait sp.
Definition chBSemWaitTimeout sp time : KM Z := chSemWaitTimeout sp time.
Definition chBSemReset sp (taken : bool) : KM unit :=
  chSemReset sp (if taken then 0 else 1).
Definition chBSemResetI sp (taken : bool) : KM unit :=
  chSemResetI sp (if taken then 0 else 1).
Definition chBSemSignalI sp : KM unit := fun s =>
  (whenb k_sem s sp <? 1 then chSemSignalI sp) s.
Definition chBSemSignal sp : KM unit :=
  chSysLock ;;; chBSemSignalI sp ;;; chSchRescheduleS ;;; chSysUnlock.
Definition chBSemGetStateI s sp : bool := if 0 <? k_sem s sp then false else true.
End Defs.
