(* ===== verification/Mtx.v ===== *)
(** * Mutexes with priority inheritance ([chmtx.c]) and condition variables
    ([chcond.c])

    The stack of mutexes owned by a thread ([p_mtxlist], linked through
    [m_next]) is a list, most recently locked first. *)
From S2P Require Import Prelude Monad Types ThdLists VT Sched.

Implicit Types (s : kstate) (mp : mid) (tp ctp : tid).

Section Defs.
Context `{Config}.

Definition chMtxInit mp : KM unit :=
  queue_init (QMtx mp) ;;; modify (upd_mtx mp None).

Definition chMtxQueueNotEmptyS s mp : bool := notempty s (QMtx mp).

(** [prio_insert(dequeue(tp), (ThreadsQueue * )tp->p_u.wtobjp)] *)
Definition requeue tp : KM unit :=
  let! th := thd tp in
  dequeue tp ;;;
  match u_wtobjp (p_u th) with
  | Some q => prio_insert tp q
  | None => fault "prio_insert"
  end.

(** The states in which [chMtxLockS()] moves a boosted thread in a priority
    ordered queue other than a mutex queue. *)
Definition prio_wait_state (st : tstate) : bool :=
  match st with
  | THD_STATE_WTCOND => true
  | THD_STATE_WTSEM => CH_USE_SEMAPHORES_PRIORITY
  | THD_STATE_SNDMSGQ => CH_USE_MESSAGES_PRIORITY
  | _ => false
  end.

(** The priority inheritance loop, from thread [tp] on. *)
Fixpoint inherit (fuel : nat) ctp tp : KM unit := fun s =>
  (if k_prio s tp <? k_prio s ctp then
     match fuel with
     | O => diverge
     | S fuel =>
         set_thd tp (set_p_prio (k_prio s ctp)) ;;;
         let! th := thd tp in
         match p_state th with
         | THD_STATE_WTMTX =>
             requeue tp ;;;
             match u_wtobjp (p_u th) with
             | Some (QMtx mp) => fun s =>
                 match k_mtx s mp with
                 | Some tp => inherit fuel ctp tp s
                 | None => Stuck (Fault "m_owner")
                 end
             | _ => fault "m_owner"
             end
         | THD_STATE_READY =>
             (whenb CH_DBG_ENABLE_ASSERTS
              then set_thd tp (set_p_state THD_STATE_CURRENT)) ;;;
             dequeue tp ;;; chSchReadyI tp ;;; mret' tt
         | st => whenb prio_wait_state st then requeue tp
         end
     end
   else mret' tt) s.

Definition take_mutex ctp mp : KM unit :=
  modify (upd_mtx mp (Some ctp)) ;;;
  set_thd ctp (fun th => set_p_mtxlist (mp :: p_mtxlist th) th).

Definition chMtxLockS mp : KM unit :=
  let! ctp := currp in
  chDbgCheckClassS ;;;
  fun s =>
    (match k_mtx s mp with
     | Some tp =>
         inherit (S (length (k_reg s))) ctp tp ;;;
         prio_insert ctp (QMtx mp) ;;;
         set_thd ctp (set_p_u (U_wtobjp (QMtx mp))) ;;;
         chSchGoSleepS THD_STATE_WTMTX ;;;
         (fun s => chDbgAssert (bool_decide (k_mtx s mp = Some ctp))
                     "chMtxLockS(), #1" s) ;;;
         (fun s => chDbgAssert (bool_decide (head (p_mtxlist (k_thd s ctp)) = Some mp))
                     "chMtxLockS(), #2" s)
     | None => take_mutex ctp mp
     end) s.

Definition chMtxLock mp : KM unit :=
  chSysLock ;;; chMtxLockS mp ;;; chSysUnlock.

Definition chMtxTryLockS mp : KM bool :=
  chDbgCheckClassS ;;;
  fun s =>
    (match k_mtx s mp with
     | Some _ => mret' false
     | None => let! me := currp in take_mutex me mp ;;; mret' true
     end) s.

Definition chMtxTryLock mp : KM bool :=
  chSysLock ;;; let! b := chMtxTryLockS mp in chSysUnlock ;;; mret' b.

(** The priority a thread is left with: its own, or that of the first
    thread waiting on a mutex it owns. *)
Fixpoint scan_owned s (l : list mid) (newprio : Z) : Z :=
  match l with
  | [] => newprio
  | mp :: l =>
      scan_owned s l
        match k_q s (QMtx mp) with
        | t :: _ => if newprio <? k_prio s t then k_prio s t else newprio
        | [] => newprio
        end
  end.

(** Pops the top mutex of the owner's stack. *)
Definition pop_mutex ctp : KM mid := fun s =>
  match p_mtxlist (k_thd s ctp) with
  | [] => Stuck (Fault "p_mtxlist")
  | ump :: l => Done ump (upd_thd ctp (set_p_mtxlist l) s)
  end.

(** Assigns [ump] to the first thread waiting for it. *)
Definition hand_over ump : KM tid :=
  let! tp := fifo_remove (QMtx ump) in
  take_mutex tp ump ;;;
  mret' tp.

Definition mtx_unlock (wake : tid -> KM unit) (msg : string) : KM mid :=
  let! ctp := currp in
  (fun s => chDbgAssert (bool_decide (p_mtxlist (k_thd s ctp) <> []))
              (msg ++ "(), #1") s) ;;;
  (fun s => chDbgAssert
     match p_mtxlist (k_thd s ctp) with
     | mp :: _ => bool_decide (k_mtx s mp = Some ctp)
     | [] => true
     end
     (msg ++ "(), #2") s) ;;;
  let! ump := pop_mutex ctp in
  (fun s =>
    (if chMtxQueueNotEmptyS s ump then
       set_thd ctp (fun th => set_p_prio
         (scan_owned s (p_mtxlist th) (p_realprio th)) th) ;;;
       let! tp := hand_over ump in
       wake tp
     else modify (upd_mtx ump None)) s) ;;;
  mret' ump.

Definition chMtxUnlockS : KM mid :=
  chDbgCheckClassS ;;;
  mtx_unlock (fun tp => chSchReadyI tp ;;; mret' tt) "chMtxUnlockS".

(** The current thread is read before the lock in the source; it is the
    same thread that takes the lock. *)
Definition chMtxUnlock : KM mid :=
  chSysLock ;;;
  let! ump := mtx_unlock (fun tp => chSchWakeupS tp RDY_OK) "chMtxUnlock" in
  chSysUnlock ;;;
  mret' ump.

(** One iteration of the loop of [chMtxUnlockAll()]. *)
Definition unlock_one ctp : KM unit :=
  let! ump := pop_mutex ctp in
  fun s =>
    (if chMtxQueueNotEmptyS s ump then
       let! tp := hand_over ump in chSchReadyI tp ;;; mret' tt
     else modify (upd_mtx ump None)) s.

Definition owns_any ctp s : bool := bool_decide (p_mtxlist (k_thd s ctp) <> []).

Definition chMtxUnlockAll : KM unit :=
  let! ctp := currp in
  chSysLock ;;;
  (fun s =>
    (whenb owns_any ctp s then
       mwhile (length (p_mtxlist (k_thd s ctp))) (owns_any ctp) (unlock_one ctp) ;;;
       set_thd ctp (fun th => set_p_prio (p_realprio th) th) ;;;
       chSchRescheduleS) s) ;;;
  chSysUnlock.

(** ** Condition variables *)

Definition chCondInit (cp : Z) : KM unit := queue_init (QCond cp).

Definition chCondSignal (cp : Z) : KM unit :=
  chSysLock ;;;
  (fun s =>
    (whenb notempty s (QCond cp) then
       let! tp := fifo_remove (QCond cp) in chSchWakeupS tp RDY_OK) s) ;;;
  chSysUnlock.

Definition chCondSignalI (cp : Z) : KM unit :=
  chDbgCheckClassI ;;;
  fun s =>
    (whenb notempty s (QCond cp) then
       let! tp := fifo_remove (QCond cp) in
       chSchReadyI tp ;;; set_thd tp (set_p_u (U_msg RDY_OK))) s.

(** The loop of [chCondBroadcastI()], bounded by the waiting threads. *)
Definition chCondBroadcastI (cp : Z) : KM unit :=
  chDbgCheckClassI ;;;
  fun s =>
    mwhile (length (k_q s (QCond cp))) (fun s => notempty s (QCond cp))
      (let! tp := fifo_remove (QCond cp) in
       chSchReadyI tp ;;; set_thd tp (set_p_u (U_msg RDY_RESET))) s.

Definition chCondBroadcast (cp : Z) : KM unit :=
  chSysLock ;;; chCondBroadcastI cp ;;; chSchRescheduleS ;;; chSysUnlock.

Definition chCondWaitS (cp : Z) : KM Z :=
  let! ctp := currp in
  chDbgCheckClassS ;;;
  (fun s => chDbgAssert (bool_decide (p_mtxlist (k_thd s ctp) <> []))
              "chCondWaitS(), #1" s) ;;;
  let! mp := chMtxUnlockS in
  set_thd ctp (set_p_u (U_wtobjp (QCond cp))) ;;;
  prio_insert ctp (QCond cp) ;;;
  chSchGoSleepS THD_STATE_WTCOND ;;;
  let! th := thd ctp in
  let msg := u_rdymsg (p_u th) in
  chMtxLockS mp ;;;
  mret' msg.

Definition chCondWait (cp : Z) : KM Z :=
  chSysLock ;;; let! msg := chCondWaitS cp in chSysUnlock ;;; mret' msg.

Definition chCondWaitTimeoutS (cp time : Z) : KM Z :=
  chDbgCheckClassS ;;;
  chDbgCheck (negb (time =? TIME_IMMEDIATE)) "chCondWaitTimeoutS" ;;;
  let! me := currp in
  (fun s => chDbgAssert (bool_decide (p_mtxlist (k_thd s me) <> []))
              "chCondWaitTimeoutS(), #1" s) ;;;
  let! mp := chMtxUnlockS in
  let! me := currp in
  set_thd me (set_p_u (U_wtobjp (QCond cp))) ;;;
  prio_insert me (QCond cp) ;;;
  let! msg := chSchGoSleepTimeoutS THD_STATE_WTCOND time in
  (whenb negb (msg =? RDY_TIMEOUT) then chMtxLockS mp) ;;;
  mret' msg.

Definition chCondWaitTimeout (cp time : Z) : KM Z :=
  chSysLock ;;; let! msg := chCondWaitTimeoutS cp time in chSysUnlock ;;; mret' msg.
End Defs.
