(* ===== verification/Mem.v ===== *)
(** * Memory allocators ([chmemcore.c], [chheap.c], [chmempools.c])

    Memory is a store of 32-bit words by address.  A heap block header (the
    union [heap_header], 8 bytes) has its [u.next]/[u.heap] word at its
    address and its [size] at the next word; a free pool object has its
    [ph_next] at its address.  A [MemoryHeap] has [h_provider], then [h_free]
    at offset 8 (it is aligned to [stkalign_t]) and [h_mtx] at offset 16. *)
From S2P Require Import Prelude Monad Types ThdLists VT Sched Mtx.

Implicit Types (s : kstate) (size p hp qp heapp mp : Z).

Definition NULL : Z := 0.
Definition MEM_ALIGN_SIZE : Z := 8.
Definition MEM_ALIGN_MASK : Z := MEM_ALIGN_SIZE - 1.
Definition MEM_ALIGN_PREV p : Z := Z.land (u32 p) (u32 (Z.lnot MEM_ALIGN_MASK)).
Definition MEM_ALIGN_NEXT p : Z := MEM_ALIGN_PREV (u32 (p + MEM_ALIGN_MASK)).
Definition MEM_IS_ALIGNED p : bool := Z.land (u32 p) MEM_ALIGN_MASK =? 0.

Section Core.
Context `{Config}.

Definition _core_init (heap_base heap_end : Z) : KM unit :=
  modify (fun s => set_k_nextmem (MEM_ALIGN_NEXT heap_base)
                     (set_k_endmem (MEM_ALIGN_PREV heap_end) s)).

Definition chCoreAllocI size : KM Z :=
  chDbgCheckClassI ;;;
  fun s =>
    let size := MEM_ALIGN_NEXT size in
    if u32 (k_endmem s - k_nextmem s) <? size then Done NULL s
    else let p := k_nextmem s in
         Done p (set_k_nextmem (k_nextmem s + size) s).

Definition chCoreAlloc size : KM Z :=
  chSysLock ;;; let! p := chCoreAllocI size in chSysUnlock ;;; mret' p.

Definition chCoreStatus s : Z := u32 (k_endmem s - k_nextmem s).

Context `{App}.

(** A call through a [memgetfunc_t]. *)
Definition memget_call (f : memget) size : KM Z :=
  match f with
  | MG_chCoreAlloc => chCoreAlloc size
  | MG_chCoreAllocI => chCoreAllocI size
  | MG_user fn => user_memget fn size
  end.
End Core.

(** ** Memory pools *)

Section Pools.
Context `{Config} `{App}.

Definition chPoolInit mp size (provider : option memget) : KM unit :=
  chDbgCheck (negb (mp =? NULL) && (4 <=? size)) "chPoolInit" ;;;
  modify (upd_pool mp (fun _ => mkPool NULL size provider)).

Definition chPoolAllocI mp : KM Z :=
  chDbgCheckClassI ;;;
  chDbgCheck (negb (mp =? NULL)) "chPoolAllocI" ;;;
  fun s =>
    let objp := mp_next (k_pool s mp) in
    (if negb (objp =? NULL) then
       modify (upd_pool mp (set_mp_next (k_mem s objp))) ;;; mret' objp
     else match mp_provider (k_pool s mp) with
          | Some f => memget_call f (mp_object_size (k_pool s mp))
          | None => mret' objp
          end) s.

Definition chPoolAlloc mp : KM Z :=
  chSysLock ;;; let! objp := chPoolAllocI mp in chSysUnlock ;;; mret' objp.

Definition chPoolFreeI mp (objp : Z) : KM unit :=
  chDbgCheckClassI ;;;
  chDbgCheck (negb (mp =? NULL) && negb (objp =? NULL)) "chPoolFreeI" ;;;
  modify (fun s => upd_word objp (mp_next (k_pool s mp)) s) ;;;
  modify (upd_pool mp (set_mp_next objp)).

Definition chPoolFree mp (objp : Z) : KM unit :=
  chSysLock ;;; chPoolFreeI mp objp ;;; chSysUnlock.

Definition chPoolAdd := chPoolFree.
Definition chPoolAddI := chPoolFreeI.

(** The [n] rounds of the loop of [chPoolLoadArray()]. *)
Fixpoint load_loop (n : nat) mp p : KM unit :=
  match n with
  | O => mret' tt
  | S n =>
      chPoolAdd mp p ;;;
      let! pool := gets (fun s => k_pool s mp) in
      load_loop n mp (p + mp_object_size pool)
  end.

Definition chPoolLoadArray mp p (n : Z) : KM unit :=
  chDbgCheck (negb (mp =? NULL) && negb (n =? 0)) "chPoolLoadArray" ;;;
  load_loop (Z.to_nat n) mp p.
End Pools.

(** ** Heaps *)

Section Heap.
Context `{Config} `{App}.

Definition HDR : Z := 8.                       (* sizeof(union heap_header) *)
Definition h_free heapp : Z := heapp + 8.
Definition h_mtx heapp : mid := heapp + 16.
Definition hnext s hp : Z := k_mem s hp.       (* hp->h.u.next, u.heap *)
Definition hsize s hp : Z := k_mem s (hp + 4). (* hp->h.size *)
Definition set_hnext hp (v : Z) s : kstate := upd_word hp v s.
Definition set_hsize hp (v : Z) s : kstate := upd_word (hp + 4) v s.

Definition H_LOCK heapp : KM unit := chMtxLock (h_mtx heapp).
Definition H_UNLOCK heapp : KM unit := chMtxUnlock ;;; mret' tt.

Definition _heap_init : KM unit :=
  modify (fun s =>
    set_hsize (h_free default_heap) 0 (set_hnext (h_free default_heap) NULL
      (set_k_heap (<[default_heap := Some MG_chCoreAlloc]> (k_heap s)) s))) ;;;
  chMtxInit (h_mtx default_heap).

Definition chHeapInit heapp (buf : Z) size : KM unit :=
  chDbgCheck (MEM_IS_ALIGNED buf && MEM_IS_ALIGNED size) "chHeapInit" ;;;
  modify (fun s =>
    let s := set_k_heap (<[heapp := None]> (k_heap s)) s in
    let s := set_hnext (h_free heapp) buf s in
    let s := set_hsize (h_free heapp) 0 s in
    let s := set_hnext buf NULL s in
    set_hsize buf (u32 (size - HDR)) s) ;;;
  chMtxInit (h_mtx heapp).

(** The free list search of [chHeapAlloc()]: the header whose successor
    is the first block large enough.  Headers are 8 bytes apart, so 2^29
    rounds are more than a list without repetitions can take. *)
Definition alloc_step s size qp : Z + option Z :=
  let hp := hnext s qp in
  if hp =? NULL then inr None
  else if size <=? hsize s hp then inr (Some qp)
  else inl hp.

Definition alloc_scan s size heapp : Z + option Z :=
  iter_until 29 (alloc_step s size) (h_free heapp).

(** Takes the block after [qp], splitting it if it is large enough. *)
Definition alloc_take heapp size qp s : kstate :=
  let hp := hnext s qp in
  let s :=
    if hsize s hp <? u32 (size + HDR) then set_hnext qp (hnext s hp) s
    else
      let fp := hp + HDR + size in
      let s := set_hnext fp (hnext s hp) s in
      let s := set_hsize fp (u32 (hsize s hp - HDR - size)) s in
      let s := set_hnext qp fp s in
      set_hsize hp size s in
  set_hnext hp heapp s.

(** The memory provider is asked for the block and its header. *)
Definition alloc_provider heapp size : KM Z := fun s =>
  (match k_heap s heapp with
   | Some f =>
       let! hp := memget_call f (u32 (size + HDR)) in
       if negb (hp =? NULL) then
         modify (fun s => set_hsize hp size (set_hnext hp heapp s)) ;;;
         mret' (hp + HDR)
       else mret' NULL
   | None => mret' NULL
   end) s.

Definition heap_or_default heapp : Z := if heapp =? NULL then default_heap else heapp.

(** [chHeapAlloc()] from the lock on. *)
Definition alloc_locked heapp size : KM Z := fun s =>
  match alloc_scan s size heapp with
  | inl _ => Stuck Diverge
  | inr (Some qp) =>
      (modify (alloc_take heapp size qp) ;;;
       H_UNLOCK heapp ;;;
       mret' (hnext s qp + HDR)) s
  | inr None => (H_UNLOCK heapp ;;; alloc_provider heapp size) s
  end.

Definition chHeapAlloc heapp size : KM Z :=
  let heapp := heap_or_default heapp in
  let size := MEM_ALIGN_NEXT size in
  H_LOCK heapp ;;; alloc_locked heapp size.

Definition LIMIT s p : Z := p + HDR + hsize s p.

(** A round of the loop of [chHeapFree()] at free block [qp]: leaves with
    the block to insert after, or with the failure of the assertion or of
    the access through a null [qp]. *)
Definition free_step s heapp hp qp : Z + (stuck + Z) :=
  if qp =? NULL then inr (inl (Fault "chHeapFree"))
  else if CH_DBG_ENABLE_ASSERTS && negb ((hp <? qp) || (LIMIT s qp <=? hp))
  then inr (inl (Panic "chHeapFree(), #1"))
  else if ((qp =? h_free heapp) || (qp <? hp)) &&
          ((hnext s qp =? NULL) || (hp <? hnext s qp)) then inr (inr qp)
  else inl (hnext s qp).

(** Insertion after [qp] and the two merges. *)
Definition free_insert qp hp s : kstate :=
  let s := set_hnext hp (hnext s qp) s in
  let s := set_hnext qp hp s in
  let s :=
    if LIMIT s hp =? hnext s hp then
      let nx := hnext s hp in
      let s := set_hsize hp (u32 (hsize s hp + (hsize s nx + HDR))) s in
      set_hnext hp (hnext s nx) s
    else s in
  if LIMIT s qp =? hp then
    let s := set_hsize qp (u32 (hsize s qp + (hsize s hp + HDR))) s in
    set_hnext qp (hnext s hp) s
  else s.

(** [chHeapFree()] from the lock on. *)
Definition free_locked heapp hp : KM unit :=
  (fun s =>
    match iter_until 29 (free_step s heapp hp) (h_free heapp) with
    | inl _ => Stuck Diverge
    | inr (inl e) => Stuck e
    | inr (inr qp) => Done tt (free_insert qp hp s)
    end) ;;;
  H_UNLOCK heapp.

Definition chHeapFree p : KM unit :=
  chDbgCheck (negb (p =? NULL)) "chHeapFree" ;;;
  let hp := p - HDR in
  let! heapp := gets (fun s => hnext s hp) in
  H_LOCK heapp ;;; free_locked heapp hp.

(** A round of the loop of [chHeapStatus()]: the number of fragments and
    their total size so far, and the current header. *)
Definition status_step s (x : Z * Z * Z) : (Z * Z * Z) + (Z * Z) :=
  let '(n, sz, qp) := x in
  if hnext s qp =? NULL then inr (n, sz)
  else inl (u32 (n + 1), u32 (sz + hsize s (hnext s qp)), hnext s qp).

(** Returns the number of fragments and the value stored through [sizep]. *)
Definition chHeapStatus heapp : KM (Z * Z) :=
  let heapp := heap_or_default heapp in
  H_LOCK heapp ;;;
  let! r := (fun s =>
    match iter_until 29 (status_step s) (0, 0, h_free heapp) with
    | inl _ => Stuck Diverge
    | inr r => Done r s
    end) in
  H_UNLOCK heapp ;;;
  mret' r.
End Heap.
