(* ===== verification/Threads.v ===== *)
(** * Threads, registry and dynamic threads ([chthreads.c], [chthreads.h],
    [chregistry.c], [chdynamic.c])

    A [Thread] structure is at the start of its working area, so the address
    of the working area is the address of the thread.  The registry is the
    list of threads linked through [p_newer], oldest first. *)
From S2P Require Import Prelude Monad Types ThdLists VT Sched Mtx Mem.

Implicit Types (s : kstate) (tp : tid) (prio size time msg : Z).

Section Defs.
Context `{Config}.

(** ** Registry lists *)

Definition REG_INSERT tp : KM unit := fun s =>
  if decide (tp ∈ k_reg s) then Stuck (Fault "REG_INSERT")
  else Done tt (set_k_reg (k_reg s ++ [tp]) s).

Definition REG_REMOVE tp : KM unit := fun s =>
  if decide (tp ∈ k_reg s) then Done tt (set_k_reg (lremove tp (k_reg s)) s)
  else Stuck (Fault "REG_REMOVE").

(** ** Creation *)

Definition _thread_init tp prio : KM tid :=
  set_thd tp (fun th =>
    let th := set_p_prio prio th in
    let th := set_p_state THD_STATE_SUSPENDED th in
    let th := set_p_flags THD_MEM_MODE_STATIC th in
    let th := if 0 <? CH_TIME_QUANTUM then set_p_preempt CH_TIME_QUANTUM th else th in
    let th := set_p_realprio prio th in
    let th := set_p_mtxlist [] th in
    let th := set_p_epending 0 th in
    let th := set_p_time 0 th in
    let th := set_p_refs 1 th in
    set_p_name None th) ;;;
  REG_INSERT tp ;;;
  set_thd tp (set_p_waiting []) ;;;
  queue_init (QMsg tp) ;;;
  mret' tp.

(** [SETUP_CONTEXT()] writes the stack of the new thread, which is not
    modelled. *)
Definition chThdCreateI (wsp : tid) size prio (pf : Z) : KM tid :=
  chDbgCheckClassI ;;;
  chDbgCheck (negb (wsp =? NULL) && (THD_WA_SIZE0 <=? size) &&
              (prio <=? HIGHPRIO) && negb (pf =? NULL)) "chThdCreateI" ;;;
  _thread_init wsp prio.

Definition chThdCreateStatic (wsp : tid) size prio (pf : Z) : KM tid :=
  chSysLock ;;;
  let! tp := chThdCreateI wsp size prio pf in
  chSchWakeupS tp RDY_OK ;;;
  chSysUnlock ;;;
  mret' tp.

(** ** Operations *)

Definition chThdSetPriority (newprio : Z) : KM Z :=
  chDbgCheck (newprio <=? HIGHPRIO) "chThdSetPriority" ;;;
  chSysLock ;;;
  let! me := currp in
  let! th := thd me in
  let oldprio := p_realprio th in
  (whenb (p_prio th =? p_realprio th) || (p_prio th <? newprio)
   then set_thd me (set_p_prio newprio)) ;;;
  set_thd me (set_p_realprio newprio) ;;;
  chSchRescheduleS ;;;
  chSysUnlock ;;;
  mret' oldprio.

Definition chThdResume tp : KM tid :=
  chSysLock ;;;
  let! th := thd tp in
  chDbgAssert (bool_decide (p_state th = THD_STATE_SUSPENDED)) "chThdResume(), #1" ;;;
  chSchWakeupS tp RDY_OK ;;;
  chSysUnlock ;;;
  mret' tp.

Definition chThdResumeI tp : KM tid := chSchReadyI tp.

Definition chThdTerminate tp : KM unit :=
  chSysLock ;;;
  set_thd tp (fun th => set_p_flags (Z.lor (p_flags th) THD_TERMINATE) th) ;;;
  chSysUnlock.

Definition chThdShouldTerminate s : bool :=
  negb (Z.land (p_flags (k_thd s (k_curr s))) THD_TERMINATE =? 0).

Definition chThdTerminated s tp : bool :=
  bool_decide (p_state (k_thd s tp) = THD_STATE_FINAL).

Definition chThdSelf := currp.
Definition chThdGetPriority s : Z := p_prio (k_thd s (k_curr s)).
Definition chThdGetTicks s tp : Z := p_time (k_thd s tp).

Definition chThdSleepS time : KM Z := chSchGoSleepTimeoutS THD_STATE_SLEEPING time.

Definition chThdSleep time : KM unit :=
  chDbgCheck (negb (time =? TIME_IMMEDIATE)) "chThdSleep" ;;;
  chSysLock ;;; chThdSleepS time ;;; chSysUnlock.

Definition chThdSleepUntil time : KM unit :=
  chSysLock ;;;
  let! now := gets chTimeNow in
  let time := u32 (time - now) in
  (if 0 <? time then chThdSleepS time ;;; mret' tt else mret' tt) ;;;
  chSysUnlock.

Definition chThdYield : KM unit :=
  chSysLock ;;; chSchDoYieldS ;;; chSysUnlock.

(** ** Termination *)

(** [chSchReadyI(list_remove(&tp->p_waiting))] *)
Definition wake_waiter tp : KM unit :=
  let! w := list_remove tp in chSchReadyI w ;;; mret' tt.

Definition has_waiters tp s : bool := bool_decide (p_waiting (k_thd s tp) <> []).

Definition chThdExitS msg : KM unit :=
  let! tp := currp in
  set_thd tp (set_p_u (U_msg msg)) ;;;
  (fun s => mwhile (length (p_waiting (k_thd s tp))) (has_waiters tp)
              (wake_waiter tp) s) ;;;
  let! th := thd tp in
  (whenb Z.land (p_flags th) THD_MEM_MODE_MASK =? THD_MEM_MODE_STATIC
   then REG_REMOVE tp) ;;;
  chSchGoSleepS THD_STATE_FINAL ;;;
  chDbgAssert false "chThdExitS(), #1".

Definition chThdExit msg : KM unit := chSysLock ;;; chThdExitS msg.

(** ** References *)

Definition chThdAddRef tp : KM tid :=
  chSysLock ;;;
  let! th := thd tp in
  chDbgAssert (p_refs th <? 255) "chThdAddRef(), #1" ;;;
  set_thd tp (fun th => set_p_refs (u8 (p_refs th + 1)) th) ;;;
  chSysUnlock ;;;
  mret' tp.

Definition chThdRelease tp : KM unit :=
  chSysLock ;;;
  let! th := thd tp in
  chDbgAssert (0 <? p_refs th) "chThdRelease(), #1" ;;;
  let refs := u8 (p_refs th - 1) in
  set_thd tp (set_p_refs refs) ;;;
  chSysUnlock ;;;
  let! th := thd tp in
  whenb (refs =? 0) && bool_decide (p_state th = THD_STATE_FINAL) then
    let mode := Z.land (p_flags th) THD_MEM_MODE_MASK in
    if mode =? THD_MEM_MODE_HEAP then REG_REMOVE tp ;;; chHeapFree tp
    else if mode =? THD_MEM_MODE_MEMPOOL then
      REG_REMOVE tp ;;;
      match p_mpool th with
      | Some mp => chPoolFree mp tp
      | None => chPoolFree NULL tp
      end
    else mret' tt.

Definition chThdWait tp : KM Z :=
  chDbgCheck (negb (tp =? NULL)) "chThdWait" ;;;
  chSysLock ;;;
  let! me := currp in
  chDbgAssert (negb (tp =? me)) "chThdWait(), #1" ;;;
  let! th := thd tp in
  chDbgAssert (0 <? p_refs th) "chThdWait(), #2" ;;;
  (whenb negb (bool_decide (p_state th = THD_STATE_FINAL)) then
     list_insert me tp ;;; chSchGoSleepS THD_STATE_WTEXIT) ;;;
  let! th := thd tp in
  let msg := u_rdymsg (p_u th) in
  chSysUnlock ;;;
  chThdRelease tp ;;;
  mret' msg.

(** ** Dynamic creation *)

Context `{App}.

Definition chThdCreateFromHeap (heapp : Z) size prio (pf : Z) : KM tid :=
  let! wsp := chHeapAlloc heapp size in
  if wsp =? NULL then mret' NULL
  else
    chSysLock ;;;
    let! tp := chThdCreateI wsp size prio pf in
    set_thd tp (set_p_flags THD_MEM_MODE_HEAP) ;;;
    chSchWakeupS tp RDY_OK ;;;
    chSysUnlock ;;;
    mret' tp.

Definition chThdCreateFromMemoryPool (mp : Z) prio (pf : Z) : KM tid :=
  chDbgCheck (negb (mp =? NULL)) "chThdCreateFromMemoryPool" ;;;
  let! wsp := chPoolAlloc mp in
  if wsp =? NULL then mret' NULL
  else
    chSysLock ;;;
    let! pool := gets (fun s => k_pool s mp) in
    let! tp := chThdCreateI wsp (mp_object_size pool) prio pf in
    set_thd tp (set_p_flags THD_MEM_MODE_MEMPOOL) ;;;
    set_thd tp (set_p_mpool (Some mp)) ;;;
    chSchWakeupS tp RDY_OK ;;;
    chSysUnlock ;;;
    mret' tp.

(** ** Registry enumeration *)

(** The element linked after [tp]; the links of a thread that is not in
    the registry are stale. *)
Fixpoint reg_next (l : list tid) tp : option (option tid) :=
  match l with
  | [] => None
  | a :: l' => if decide (a = tp) then Some (head l') else reg_next l' tp
  end.

Definition chRegFirstThread : KM tid :=
  chSysLock ;;;
  let! tp := (fun s => match k_reg s with
                       | [] => Stuck (Fault "chRegFirstThread")
                       | tp :: _ => Done tp s
                       end) in
  set_thd tp (fun th => set_p_refs (u8 (p_refs th + 1)) th) ;;;
  chSysUnlock ;;;
  mret' tp.

Definition chRegNextThread tp : KM (option tid) :=
  chSysLock ;;;
  let! ntp := (fun s => match reg_next (k_reg s) tp with
                        | None => Stuck (Fault "chRegNextThread")
                        | Some ntp => Done ntp s
                        end) in
  match ntp with
  | None => mret' tt
  | Some ntp =>
      let! th := thd ntp in
      chDbgAssert (p_refs th <? 255) "chRegNextThread(), #1" ;;;
      set_thd ntp (fun th => set_p_refs (u8 (p_refs th + 1)) th)
  end ;;;
  chSysUnlock ;;;
  chThdRelease tp ;;;
  mret' ntp.

Definition chRegSetThreadName (p : option Z) : KM unit :=
  let! me := currp in set_thd me (set_p_name p).
Definition chRegGetThreadName s tp : option Z := p_name (k_thd s tp).
End Defs.
