(* ===== verification/Evt.v ===== *)
(** * Events ([chevents.c], [chevents.h]) and synchronous messages
    ([chmsg.c], [chmsg.h])

    An event source is the list of its listeners, linked through [el_next]
    back to the source. *)
From S2P Require Import Prelude Monad Types ThdLists VT Sched Sem.

Implicit Types (s : kstate) (tp ctp : tid) (esp elp mask flags time : Z).

Section Defs.
Context `{Config}.

(** [a &= ~m] on an [eventmask_t]. *)
Definition mask_clear (a m : Z) : Z := Z.land a (u32 (Z.lnot m)).

Definition EVENT_MASK (eid : Z) : Z := u32 (Z.shiftl 1 eid).
Definition ALL_EVENTS : Z := u32 (-1).

Definition chEvtInit esp : KM unit :=
  modify (fun s => set_k_es (<[esp := []]> (k_es s)) s).
Definition chEvtIsListeningI s esp : bool := bool_decide (k_es s esp <> []).

Definition chEvtRegisterMask esp elp mask : KM unit :=
  chDbgCheck (negb (esp =? 0) && negb (elp =? 0)) "chEvtRegisterMask" ;;;
  chSysLock ;;;
  let! me := currp in
  (fun s =>
    if decide (elp ∈ k_es s esp) then Stuck (Fault "chEvtRegisterMask")
    else Done tt (set_k_es (<[esp := elp :: k_es s esp]> (k_es s)) s)) ;;;
  modify (upd_el elp (fun _ => mkEL me mask 0)) ;;;
  chSysUnlock.

Definition chEvtRegister esp elp (eid : Z) : KM unit :=
  chEvtRegisterMask esp elp (EVENT_MASK eid).

(** The walk stops at the first listener equal to [elp], or at the source. *)
Definition chEvtUnregister esp elp : KM unit :=
  chDbgCheck (negb (esp =? 0) && negb (elp =? 0)) "chEvtUnregister" ;;;
  chSysLock ;;;
  modify (fun s => set_k_es (<[esp := lremove elp (k_es s esp)]> (k_es s)) s) ;;;
  chSysUnlock.

Definition chEvtGetAndClearEvents mask : KM Z :=
  chSysLock ;;;
  let! me := currp in
  let! th := thd me in
  let m := Z.land (p_epending th) mask in
  set_thd me (fun th => set_p_epending (mask_clear (p_epending th) mask) th) ;;;
  chSysUnlock ;;;
  mret' m.

Definition chEvtAddEvents mask : KM Z :=
  chSysLock ;;;
  let! me := currp in
  set_thd me (fun th => set_p_epending (Z.lor (p_epending th) mask) th) ;;;
  let! th := thd me in
  let mask := p_epending th in
  chSysUnlock ;;;
  mret' mask.

(** The AND/OR wait conditions. *)
Definition evt_ready (th : Thread) : bool :=
  match p_state th with
  | THD_STATE_WTOREVT => negb (Z.land (p_epending th) (u_ewmask (p_u th)) =? 0)
  | THD_STATE_WTANDEVT =>
      Z.land (p_epending th) (u_ewmask (p_u th)) =? u_ewmask (p_u th)
  | _ => false
  end.

Definition chEvtSignalI tp mask : KM unit :=
  chDbgCheckClassI ;;;
  chDbgCheck (negb (tp =? 0)) "chEvtSignalI" ;;;
  set_thd tp (fun th => set_p_epending (Z.lor (p_epending th) mask) th) ;;;
  let! th := thd tp in
  whenb evt_ready th then ready_with tp RDY_OK.

Definition chEvtSignal tp mask : KM unit :=
  chDbgCheck (negb (tp =? 0)) "chEvtSignal" ;;;
  chSysLock ;;; chEvtSignalI tp mask ;;; chSchRescheduleS ;;; chSysUnlock.

(** The loop over the listeners. *)
Fixpoint broadcast_loop (l : list Z) flags : KM unit :=
  match l with
  | [] => mret' tt
  | elp :: l =>
      modify (upd_el elp (fun el => set_el_flags (Z.lor (el_flags el) flags) el)) ;;;
      let! el := gets (fun s => k_el s elp) in
      chEvtSignalI (el_listener el) (el_mask el) ;;;
      broadcast_loop l flags
  end.

Definition chEvtBroadcastFlagsI esp flags : KM unit :=
  chDbgCheckClassI ;;;
  chDbgCheck (negb (esp =? 0)) "chEvtBroadcastMaskI" ;;;
  let! l := gets (fun s => k_es s esp) in
  broadcast_loop l flags.

Definition chEvtBroadcastFlags esp flags : KM unit :=
  chSysLock ;;; chEvtBroadcastFlagsI esp flags ;;; chSchRescheduleS ;;; chSysUnlock.

Definition chEvtBroadcast esp : KM unit := chEvtBroadcastFlags esp 0.
Definition chEvtBroadcastI esp : KM unit := chEvtBroadcastFlagsI esp 0.

Definition chEvtGetAndClearFlagsI elp : KM Z :=
  let! el := gets (fun s => k_el s elp) in
  modify (upd_el elp (set_el_flags 0)) ;;;
  mret' (el_flags el).

Definition chEvtGetAndClearFlags elp : KM Z :=
  chSysLock ;;;
  let! flags := chEvtGetAndClearFlagsI elp in
  chSysUnlock ;;;
  mret' flags.

(** The dispatch loop from event [eid] on; a mask has 32 bits. *)
Context `{App}.
Fixpoint dispatch_loop (fuel : nat) (handlers : list (option Z)) (eid mask : Z)
    : KM unit :=
  if mask =? 0 then mret' tt
  else
    match fuel with
    | O => diverge
    | S fuel =>
        if negb (Z.land mask (EVENT_MASK eid) =? 0) then
          match handlers !! Z.to_nat eid with
          | None => fault "handlers"
          | Some h =>
              chDbgAssert (bool_decide (h <> None)) "chEvtDispatch(), #1" ;;;
              match h with
              | None => fault "handlers"
              | Some fn => user_evhandler fn eid
              end ;;;
              dispatch_loop fuel handlers (eid + 1) (mask_clear mask (EVENT_MASK eid))
          end
        else dispatch_loop fuel handlers (eid + 1) mask
    end.

Definition chEvtDispatch (handlers : list (option Z)) mask : KM unit :=
  dispatch_loop 32 handlers 0 mask.

(** ** Waiting *)

(** [m = ctp->p_epending & mask], waiting for it to be non-zero. *)
Definition evt_wait_or ctp mask : KM Z :=
  let! th := thd ctp in
  let m := Z.land (p_epending th) mask in
  if m =? 0 then
    set_thd ctp (set_p_u (U_ewmask mask)) ;;;
    chSchGoSleepS THD_STATE_WTOREVT ;;;
    let! th := thd ctp in
    mret' (Z.land (p_epending th) mask)
  else mret' m.

(** [m & -m] *)
Definition lowest_bit (m : Z) : Z := Z.land m (u32 (- m)).

Definition evt_take ctp m : KM unit :=
  set_thd ctp (fun th => set_p_epending (mask_clear (p_epending th) m) th).

Definition chEvtWaitOne mask : KM Z :=
  let! ctp := currp in
  chSysLock ;;;
  let! m := evt_wait_or ctp mask in
  let m := lowest_bit m in
  evt_take ctp m ;;;
  chSysUnlock ;;;
  mret' m.

Definition chEvtWaitAny mask : KM Z :=
  let! ctp := currp in
  chSysLock ;;;
  let! m := evt_wait_or ctp mask in
  evt_take ctp m ;;;
  chSysUnlock ;;;
  mret' m.

Definition chEvtWaitAll mask : KM Z :=
  let! ctp := currp in
  chSysLock ;;;
  let! th := thd ctp in
  (whenb negb (Z.land (p_epending th) mask =? mask) then
     set_thd ctp (set_p_u (U_ewmask mask)) ;;;
     chSchGoSleepS THD_STATE_WTANDEVT) ;;;
  evt_take ctp mask ;;;
  chSysUnlock ;;;
  mret' mask.

(** The same with a timeout; [None] when it expires. *)
Definition evt_sleep ctp (st : tstate) mask time : KM bool :=
  if TIME_IMMEDIATE =? time then mret' false
  else
    set_thd ctp (set_p_u (U_ewmask mask)) ;;;
    let! msg := chSchGoSleepTimeoutS st time in
    mret' (negb (msg <? RDY_OK)).

Definition evt_wait_or_timeout ctp mask time : KM (option Z) :=
  let! th := thd ctp in
  let m := Z.land (p_epending th) mask in
  if m =? 0 then
    let! ok := evt_sleep ctp THD_STATE_WTOREVT mask time in
    if ok then
      let! th := thd ctp in mret' (Some (Z.land (p_epending th) mask))
    else mret' None
  else mret' (Some m).

Definition chEvtWaitOneTimeout mask time : KM Z :=
  let! ctp := currp in
  chSysLock ;;;
  let! r := evt_wait_or_timeout ctp mask time in
  match r with
  | None => chSysUnlock ;;; mret' 0
  | Some m =>
      let m := lowest_bit m in
      evt_take ctp m ;;; chSysUnlock ;;; mret' m
  end.

Definition chEvtWaitAnyTimeout mask time : KM Z :=
  let! ctp := currp in
  chSysLock ;;;
  let! r := evt_wait_or_timeout ctp mask time in
  match r with
  | None => chSysUnlock ;;; mret' 0
  | Some m => evt_take ctp m ;;; chSysUnlock ;;; mret' m
  end.

Definition chEvtWaitAllTimeout mask time : KM Z :=
  let! ctp := currp in
  chSysLock ;;;
  let! th := thd ctp in
  let! ok := (if negb (Z.land (p_epending th) mask =? mask)
              then evt_sleep ctp THD_STATE_WTANDEVT mask time
              else mret' true) in
  if ok then evt_take ctp mask ;;; chSysUnlock ;;; mret' mask
  else chSysUnlock ;;; mret' 0.

(** ** Synchronous messages *)

Definition msg_insert tp (q : qid) : KM unit :=
  if CH_USE_MESSAGES_PRIORITY then prio_insert tp q else queue_insert tp q.

Definition chMsgIsPendingI s tp : bool := notempty s (QMsg tp).
Definition chMsgGet s tp : Z := p_msg (k_thd s tp).

Definition chMsgSend tp (msg : Z) : KM Z :=
  let! ctp := currp in
  chDbgCheck (negb (tp =? 0)) "chMsgSend" ;;;
  chSysLock ;;;
  set_thd ctp (set_p_msg msg) ;;;
  set_thd ctp (set_p_u (U_wtobjp (QMsg tp))) ;;;
  msg_insert ctp (QMsg tp) ;;;
  let! th := thd tp in
  (whenb bool_decide (p_state th = THD_STATE_WTMSG) then
     chSchReadyI tp ;;; mret' tt) ;;;
  chSchGoSleepS THD_STATE_SNDMSGQ ;;;
  let! th := thd ctp in
  let msg := u_rdymsg (p_u th) in
  chSysUnlock ;;;
  mret' msg.

Definition chMsgWait : KM tid :=
  chSysLock ;;;
  (fun s => (whenb negb (chMsgIsPendingI s (k_curr s))
             then chSchGoSleepS THD_STATE_WTMSG) s) ;;;
  let! me := currp in
  let! tp := fifo_remove (QMsg me) in
  set_thd tp (set_p_state THD_STATE_SNDMSG) ;;;
  chSysUnlock ;;;
  mret' tp.

Definition chMsgReleaseS tp (msg : Z) : KM unit := chSchWakeupS tp msg.

Definition chMsgRelease tp (msg : Z) : KM unit :=
  chSysLock ;;;
  let! th := thd tp in
  chDbgAssert (bool_decide (p_state th = THD_STATE_SNDMSG)) "chMsgRelease(), #1" ;;;
  chMsgReleaseS tp msg ;;;
  chSysUnlock.
End Defs.
