(* ===== verification/Mbox.v ===== *)
(** * Mailboxes ([chmboxes.c], [chmboxes.h])

    A mailbox is a circular buffer of messages with two counting semaphores:
    [mb_fullsem] counts the messages, [mb_emptysem] the free slots. *)
From S2P Require Import Prelude Monad Types ThdLists VT Sched Sem.

Implicit Types (s : kstate) (mbp msg time : Z).

Section Defs.
Context `{Config}.

Definition chMBSizeI (mb : Mailbox) : Z := Z.of_nat (length (mb_buffer mb)).

(** The two semaphores are embedded in the structure at [mbp]; [fullsem]
    and [emptysem] are their addresses. *)
Definition chMBInit mbp (buf : list Z) (fullsem emptysem : sid) : KM unit :=
  let n := Z.of_nat (length buf) in
  chDbgCheck (negb (mbp =? 0) && (0 <? n)) "chMBInit" ;;;
  modify (upd_mb mbp (fun _ => mkMB buf 0 0 fullsem emptysem)) ;;;
  chSemInit emptysem n ;;;
  chSemInit fullsem 0.

Definition chMBReset mbp : KM unit :=
  chDbgCheck (negb (mbp =? 0)) "chMBReset" ;;;
  chSysLock ;;;
  modify (upd_mb mbp (fun mb => set_mb_wrptr 0 (set_mb_rdptr 0 mb))) ;;;
  let! mb := gets (fun s => k_mb s mbp) in
  chSemResetI (mb_emptysem mb) (chMBSizeI mb) ;;;
  chSemResetI (mb_fullsem mb) 0 ;;;
  chSchRescheduleS ;;;
  chSysUnlock.

(** [*mbp->mb_wrptr++ = msg], wrapping at [mb_top]. *)
Definition mb_write msg (mb : Mailbox) : Mailbox :=
  let mb := set_mb_buffer (<[Z.to_nat (mb_wrptr mb) := msg]> (mb_buffer mb)) mb in
  let mb := set_mb_wrptr (mb_wrptr mb + 1) mb in
  if chMBSizeI mb <=? mb_wrptr mb then set_mb_wrptr 0 mb else mb.

(** [*--mbp->mb_rdptr = msg], wrapping at [mb_buffer]. *)
Definition mb_write_ahead msg (mb : Mailbox) : Mailbox :=
  let mb := set_mb_rdptr (mb_rdptr mb - 1) mb in
  let mb := if mb_rdptr mb <? 0 then set_mb_rdptr (chMBSizeI mb - 1) mb else mb in
  set_mb_buffer (<[Z.to_nat (mb_rdptr mb) := msg]> (mb_buffer mb)) mb.

Definition mb_peek (mb : Mailbox) : option Z := mb_buffer mb !! Z.to_nat (mb_rdptr mb).

(** [mbp->mb_rdptr++], wrapping at [mb_top]. *)
Definition mb_advance (mb : Mailbox) : Mailbox :=
  let mb := set_mb_rdptr (mb_rdptr mb + 1) mb in
  if chMBSizeI mb <=? mb_rdptr mb then set_mb_rdptr 0 mb else mb.

Definition mb_read mbp : KM Z := fun s =>
  match mb_peek (k_mb s mbp) with
  | None => Stuck (Fault "mb_rdptr")
  | Some msg => Done msg (upd_mb mbp mb_advance s)
  end.

Definition chMBGetFreeCountI s mbp : Z := chSemGetCounterI s (mb_emptysem (k_mb s mbp)).
Definition chMBGetUsedCountI s mbp : Z := chSemGetCounterI s (mb_fullsem (k_mb s mbp)).
Definition chMBPeekI s mbp : option Z := mb_peek (k_mb s mbp).

(** [chMBPostS()] and [chMBPostAheadS()] differ in the write. *)
Definition post_S (name : string) (w : Z -> Mailbox -> Mailbox) mbp msg time : KM Z :=
  chDbgCheckClassS ;;;
  chDbgCheck (negb (mbp =? 0)) name ;;;
  let! mb := gets (fun s => k_mb s mbp) in
  let! rdymsg := chSemWaitTimeoutS (mb_emptysem mb) time in
  (whenb rdymsg =? RDY_OK then
     modify (upd_mb mbp (w msg)) ;;;
     chSemSignalI (mb_fullsem mb) ;;;
     chSchRescheduleS) ;;;
  mret' rdymsg.

Definition post_I (name : string) (w : Z -> Mailbox -> Mailbox) mbp msg : KM Z :=
  chDbgCheckClassI ;;;
  chDbgCheck (negb (mbp =? 0)) name ;;;
  let! mb := gets (fun s => k_mb s mbp) in
  fun s =>
    (if chSemGetCounterI s (mb_emptysem mb) <=? 0 then mret' RDY_TIMEOUT
     else
       chSemFastWaitI (mb_emptysem mb) ;;;
       modify (upd_mb mbp (w msg)) ;;;
       chSemSignalI (mb_fullsem mb) ;;;
       mret' RDY_OK) s.

Definition chMBPostS := post_S "chMBPostS" mb_write.
Definition chMBPostI := post_I "chMBPostI" mb_write.
Definition chMBPostAheadS := post_S "chMBPostAheadS" mb_write_ahead.
Definition chMBPostAheadI := post_I "chMBPostAheadI" mb_write_ahead.

Definition chMBPost mbp msg time : KM Z :=
  chSysLock ;;; let! r := chMBPostS mbp msg time in chSysUnlock ;;; mret' r.
Definition chMBPostAhead mbp msg time : KM Z :=
  chSysLock ;;; let! r := chMBPostAheadS mbp msg time in chSysUnlock ;;; mret' r.

(** The message stored through [msgp] is the second component. *)
Definition chMBFetchS mbp time : KM (Z * option Z) :=
  chDbgCheckClassS ;;;
  chDbgCheck (negb (mbp =? 0)) "chMBFetchS" ;;;
  let! mb := gets (fun s => k_mb s mbp) in
  let! rdymsg := chSemWaitTimeoutS (mb_fullsem mb) time in
  if rdymsg =? RDY_OK then
    let! msg := mb_read mbp in
    chSemSignalI (mb_emptysem mb) ;;;
    chSchRescheduleS ;;;
    mret' (rdymsg, Some msg)
  else mret' (rdymsg, None).

Definition chMBFetch mbp time : KM (Z * option Z) :=
  chSysLock ;;; let! r := chMBFetchS mbp time in chSysUnlock ;;; mret' r.

Definition chMBFetchI mbp : KM (Z * option Z) :=
  chDbgCheckClassI ;;;
  chDbgCheck (negb (mbp =? 0)) "chMBFetchI" ;;;
  let! mb := gets (fun s => k_mb s mbp) in
  fun s =>
    (if chSemGetCounterI s (mb_fullsem mb) <=? 0 then mret' (RDY_TIMEOUT, None)
     else
       chSemFastWaitI (mb_fullsem mb) ;;;
       let! msg := mb_read mbp in
       chSemSignalI (mb_emptysem mb) ;;;
       mret' (RDY_OK, Some msg)) s.
End Defs.
