(* ===== verification/IOQ.v ===== *)
(** * I/O queues ([chqueues.c], [chqueues.h])

    Byte queues between threads and interrupt handlers, as circular buffers:
    an input queue counts its bytes, an output queue its free slots.  The
    functions that block do it in a loop, whose number of rounds is bounded
    by an argument. *)
From S2P Require Import Prelude Monad Types ThdLists VT Sched Sem.

Implicit Types (s : kstate) (iqp oqp qp b time : Z) (q : IOQueue).

Definition Q_OK : Z := RDY_OK.
Definition Q_TIMEOUT : Z := RDY_TIMEOUT.
Definition Q_RESET : Z := RDY_RESET.
Definition Q_EMPTY : Z := -3.
Definition Q_FULL : Z := -4.

Section Defs.
Context `{Config} `{App}.

Definition chQSizeI q : Z := Z.of_nat (length (q_buffer q)).
Definition chQSpaceI q : Z := q_counter q.
Definition chQGetLink q : Z := q_link q.

Definition chIQGetFullI q : Z := chQSpaceI q.
Definition chIQGetEmptyI q : Z := u32 (chQSizeI q - chQSpaceI q).
Definition chIQIsEmptyI q : bool := chQSpaceI q <=? 0.
Definition chIQIsFullI q : bool :=
  (q_wrptr q =? q_rdptr q) && negb (q_counter q =? 0).
Definition chOQGetFullI q : Z := u32 (chQSizeI q - chQSpaceI q).
Definition chOQGetEmptyI q : Z := chQSpaceI q.
Definition chOQIsEmptyI q : bool :=
  (q_wrptr q =? q_rdptr q) && negb (q_counter q =? 0).
Definition chOQIsFullI q : bool := chQSpaceI q <=? 0.

(** [*qp->q_wrptr++ = b], wrapping at [q_top]. *)
Definition q_write b q : IOQueue :=
  let q := set_q_buffer (<[Z.to_nat (q_wrptr q) := b]> (q_buffer q)) q in
  let q := set_q_wrptr (q_wrptr q + 1) q in
  if chQSizeI q <=? q_wrptr q then set_q_wrptr 0 q else q.

(** [*qp->q_rdptr++], wrapping at [q_top]. *)
Definition q_peek q : option Z := q_buffer q !! Z.to_nat (q_rdptr q).
Definition q_advance q : IOQueue :=
  let q := set_q_rdptr (q_rdptr q + 1) q in
  if chQSizeI q <=? q_rdptr q then set_q_rdptr 0 q else q.

Definition q_count (n : Z) q : IOQueue := set_q_counter (u32 (q_counter q + n)) q.

Definition q_read qp : KM Z := fun s =>
  match q_peek (k_ioq s qp) with
  | None => Stuck (Fault "q_rdptr")
  | Some b => Done b (upd_ioq qp q_advance s)
  end.

Definition q_call (nfy : option Z) qp : KM unit :=
  match nfy with None => mret' tt | Some fn => user_qnotify fn qp end.

Definition qwait qp time : KM Z :=
  if TIME_IMMEDIATE =? time then mret' Q_TIMEOUT
  else
    let! me := currp in
    set_thd me (set_p_u (U_wtobjp (QIO qp))) ;;;
    queue_insert me (QIO qp) ;;;
    chSchGoSleepTimeoutS THD_STATE_WTQUEUE time.

(** [while (blocked(qp)) { msg = qwait(qp, time); if (bad msg) return msg; }]:
    the message that made the function leave, or [None]. *)
Fixpoint qwait_loop (rounds : nat) (blocked : IOQueue -> bool) (bad : Z -> bool)
    qp time : KM (option Z) :=
  let! q := gets (fun s => k_ioq s qp) in
  if blocked q then
    match rounds with
    | O => fun _ => Stuck Rounds
    | S rounds =>
        let! msg := qwait qp time in
        if bad msg then mret' (Some msg)
        else qwait_loop rounds blocked bad qp time
    end
  else mret' None.

(** [chSchReadyI(fifo_remove(&qp->q_waiting))->p_u.rdymsg = msg] *)
Definition wake_one qp (msg : Z) : KM unit :=
  let! tp := fifo_remove (QIO qp) in ready_with tp msg.

Definition wake_all qp (msg : Z) : KM unit := fun s =>
  mwhile (length (k_q s (QIO qp))) (fun s => notempty s (QIO qp)) (wake_one qp msg) s.

(** ** Input queues *)

Definition chIQInit iqp (buf : list Z) (infy : option Z) (link : Z) : KM unit :=
  queue_init (QIO iqp) ;;;
  modify (upd_ioq iqp (fun _ => mkIOQ 0 buf 0 0 infy link)).

Definition chIQResetI iqp : KM unit :=
  chDbgCheckClassI ;;;
  modify (upd_ioq iqp (fun q => set_q_rdptr 0 (set_q_wrptr 0 (set_q_counter 0 q)))) ;;;
  wake_all iqp Q_RESET.

Definition chIQPutI iqp b : KM Z :=
  chDbgCheckClassI ;;;
  let! q := gets (fun s => k_ioq s iqp) in
  if chIQIsFullI q then mret' Q_FULL
  else
    modify (upd_ioq iqp (q_count 1)) ;;;
    modify (upd_ioq iqp (q_write b)) ;;;
    (fun s => (whenb notempty s (QIO iqp) then wake_one iqp Q_OK) s) ;;;
    mret' Q_OK.

(** Takes a byte out of a queue that has one. *)
Definition iq_take iqp : KM Z :=
  modify (upd_ioq iqp (q_count (-1))) ;;; q_read iqp.

Definition chIQGetTimeout (rounds : nat) iqp time : KM Z :=
  chSysLock ;;;
  let! q := gets (fun s => k_ioq s iqp) in
  q_call (q_notify q) iqp ;;;
  let! r := qwait_loop rounds chIQIsEmptyI (fun msg => msg <? Q_OK) iqp time in
  match r with
  | Some msg => chSysUnlock ;;; mret' msg
  | None =>
      let! b := iq_take iqp in
      chSysUnlock ;;;
      mret' b
  end.

Definition chIQGet (rounds : nat) iqp : KM Z := chIQGetTimeout rounds iqp TIME_INFINITE.

(** The loop of [chIQReadTimeout()] with [n] bytes to go: the bytes stored
    through [bp], the last one first.  The lock is held at the start.  The
    loop stores a byte before it counts: with no room it writes past [bp]. *)
Fixpoint iq_read_loop (rounds n : nat) (nfy : option Z) iqp (acc : list Z) time
    : KM (list Z) :=
  q_call nfy iqp ;;;
  let! r := qwait_loop rounds chIQIsEmptyI (fun msg => negb (msg =? Q_OK)) iqp time in
  match r with
  | Some _ => chSysUnlock ;;; mret' acc
  | None =>
      match n with
      | O => fault "bp"
      | S n =>
          let! b := iq_take iqp in
          chSysUnlock ;;;
          match n with
          | O => mret' (b :: acc)
          | S _ => chSysLock ;;; iq_read_loop rounds n nfy iqp (b :: acc) time
          end
      end
  end.

(** Returns the bytes read, in order; the count is their number. *)
Definition chIQReadTimeout (rounds : nat) iqp (n time : Z) : KM (list Z) :=
  let! q := gets (fun s => k_ioq s iqp) in
  chDbgCheck (0 <? n) "chIQReadTimeout" ;;;
  chSysLock ;;;
  let! acc := iq_read_loop rounds (Z.to_nat n) (q_notify q) iqp [] time in
  mret' (rev acc).

(** ** Output queues *)

Definition chOQInit oqp (buf : list Z) (onfy : option Z) (link : Z) : KM unit :=
  queue_init (QIO oqp) ;;;
  modify (upd_ioq oqp (fun _ => mkIOQ (Z.of_nat (length buf)) buf 0 0 onfy link)).

Definition chOQResetI oqp : KM unit :=
  chDbgCheckClassI ;;;
  modify (upd_ioq oqp (fun q =>
    set_q_counter (chQSizeI q) (set_q_rdptr 0 (set_q_wrptr 0 q)))) ;;;
  wake_all oqp Q_RESET.

Definition oq_store oqp b : KM unit :=
  modify (upd_ioq oqp (q_count (-1))) ;;; modify (upd_ioq oqp (q_write b)).

Definition chOQPutTimeout (rounds : nat) oqp b time : KM Z :=
  chSysLock ;;;
  let! r := qwait_loop rounds chOQIsFullI (fun msg => msg <? Q_OK) oqp time in
  match r with
  | Some msg => chSysUnlock ;;; mret' msg
  | None =>
      oq_store oqp b ;;;
      let! q := gets (fun s => k_ioq s oqp) in
      q_call (q_notify q) oqp ;;;
      chSysUnlock ;;;
      mret' Q_OK
  end.

Definition chOQPut (rounds : nat) oqp b : KM Z :=
  chOQPutTimeout rounds oqp b TIME_INFINITE.

Definition chOQGetI oqp : KM Z :=
  chDbgCheckClassI ;;;
  let! q := gets (fun s => k_ioq s oqp) in
  if chOQIsEmptyI q then mret' Q_EMPTY
  else
    modify (upd_ioq oqp (q_count 1)) ;;;
    let! b := q_read oqp in
    (fun s => (whenb notempty s (QIO oqp) then wake_one oqp Q_OK) s) ;;;
    mret' b.

(** The loop of [chOQWriteTimeout()]: the number of bytes written. *)
Fixpoint oq_write_loop (rounds : nat) (nfy : option Z) oqp (bs : list Z) (w time : Z)
    : KM Z :=
  let! r := qwait_loop rounds chOQIsFullI (fun msg => negb (msg =? Q_OK)) oqp time in
  match r with
  | Some _ => chSysUnlock ;;; mret' w
  | None =>
      match bs with
      | [] => fault "bp"
      | b :: bs =>
          oq_store oqp b ;;;
          q_call nfy oqp ;;;
          chSysUnlock ;;;
          match bs with
          | [] => mret' (w + 1)
          | _ :: _ => chSysLock ;;; oq_write_loop rounds nfy oqp bs (w + 1) time
          end
      end
  end.

Definition chOQWriteTimeout (rounds : nat) oqp (bs : list Z) time : KM Z :=
  let! q := gets (fun s => k_ioq s oqp) in
  chDbgCheck (0 <? Z.of_nat (length bs)) "chOQWriteTimeout" ;;;
  chSysLock ;;;
  oq_write_loop rounds (q_notify q) oqp bs 0 time.
End Defs.
