(* ===== verification/Sys.v ===== *)
(** * System layer ([chsys.c], [chsys.h], [chvt.h], [chschd.h]) and the
    ARMv7-M port ([chcore_v7m.c])

    System initialization, the system tick, and the interrupt epilogue that
    preempts the interrupted thread. *)
From S2P Require Import Prelude Monad Types ThdLists VT Sched Mtx Mem.
From S2P Require Import Threads.

Implicit Types (s : kstate) (v : vtid).

Section Defs.
Context `{Config}.

(** ** Time conversions; the division is that of C *)

Definition S2ST (sec : Z) : Z := u32 (sec * CH_FREQUENCY).
Definition MS2ST (msec : Z) : Z := u32 (Z.quot (msec * CH_FREQUENCY - 1) 1000 + 1).
Definition US2ST (usec : Z) : Z := u32 (Z.quot (usec * CH_FREQUENCY - 1) 1000000 + 1).

(** ** Preemption *)

Definition chSchPreemption : KM unit := fun s =>
  let p1 := firstprio s in
  let p2 := currprio s in
  (if negb (p_preempt (k_thd s (k_curr s)) =? 0) then
     whenb p2 <? p1 then chSchDoRescheduleAhead
   else
     whenb p2 <=? p1 then chSchDoRescheduleBehind) s.

(** Runs in the thread that was interrupted, with the lock held. *)
Definition _port_switch_from_isr : KM unit :=
  dbg_check_lock ;;; chSchDoReschedule ;;; dbg_check_unlock.

(** [rettobase] is the [RETTOBASE] bit of [SCB_ICSR]: there is no other
    active exception.  The lock is released by the SVC handler, or at once
    in a nested handler. *)
Definition _port_irq_epilogue (rettobase : bool) : KM unit :=
  (fun s => (whenb rettobase && chSchIsPreemptionRequired s
             then _port_switch_from_isr) s) ;;;
  suspend AtUnlock.

Definition CH_IRQ_PROLOGUE : KM unit := dbg_check_enter_isr.
Definition CH_IRQ_EPILOGUE (rettobase : bool) : KM unit :=
  dbg_check_leave_isr ;;; _port_irq_epilogue rettobase.

(** A thread starts with the lock held, and exits if its function returns. *)
Definition _port_thread_start (pf : KM Z) : KM unit :=
  chSysUnlock ;;; let! r := pf in chThdExit r.

(** ** The system tick *)

Context `{App}.

Definition vt_call (fn : vtfunc) (par : Z) : KM unit :=
  match fn with
  | VF_wakeup => wakeup par
  | VF_user f => user_vtfunc f par
  end.

(** [!(vtp = vtlist.vt_next)->vt_time]; with no timer, [vtp] is the header. *)
Definition vt_expired s : bool :=
  match k_vtl s with
  | [] => k_vth s =? 0
  | vtp :: _ => vt_time (k_vt s vtp) =? 0
  end.

(** Unlinks the first timer and returns its callback. *)
Definition vt_unlink : KM (option vtfunc * Z) := fun s =>
  match k_vtl s with
  | [] => Stuck (Fault "chVTDoTickI")
  | vtp :: l =>
      let fn := vt_func (k_vt s vtp) in
      let s := upd_vt vtp (set_vt_func None) s in
      Done (fn, vt_par (k_vt s vtp)) (set_k_vtl l s)
  end.

Definition vt_fire : KM unit :=
  let! c := vt_unlink in
  chSysUnlockFromIsr ;;;
  match c.1 with
  | Some fn => vt_call fn c.2
  | None => fault "chVTDoTickI"
  end ;;;
  chSysLockFromIsr.

Definition chVTDoTickI : KM unit :=
  modify (fun s => set_k_systime (u32 (k_systime s + 1)) s) ;;;
  fun s =>
    (match k_vtl s with
     | [] => mret' tt
     | vtp :: _ =>
         modify (upd_vt vtp (fun t => set_vt_time (u32 (vt_time t - 1)) t)) ;;;
         mwhile (length (k_vtl s)) vt_expired vt_fire
     end) s.

(** The quantum and profiling part of the handler. *)
Definition tick_account (th : Thread) : Thread :=
  let th := if (0 <? CH_TIME_QUANTUM) && (0 <? p_preempt th)
            then set_p_preempt (p_preempt th - 1) th else th in
  set_p_time (u32 (p_time th + 1)) th.

Definition chSysTimerHandlerI : KM unit :=
  chDbgCheckClassI ;;;
  let! me := currp in
  set_thd me tick_account ;;;
  chVTDoTickI.

Definition SysTickVector (rettobase : bool) : KM unit :=
  CH_IRQ_PROLOGUE ;;;
  chSysLockFromIsr ;;;
  chSysTimerHandlerI ;;;
  chSysUnlockFromIsr ;;;
  CH_IRQ_EPILOGUE rettobase.

(** ** System initialization *)

Definition dbg_check_enable : KM unit :=
  dbg_check (fun s => (negb (k_isr_cnt s =? 0)) || negb (k_lock_cnt s =? 0)) "SV#3".

Definition chSysEnable : KM unit := dbg_check_enable ;;; suspend AtUnlock.

(** [PORT_IDLE_THREAD_STACK_SIZE] is 16; [pf] is the address of
    [_idle_thread()]. *)
Definition chSysInit (heap_base heap_end pf : Z) : KM unit :=
  _scheduler_init ;;;
  _vt_init ;;;
  _core_init heap_base heap_end ;;;
  _heap_init ;;;
  let! tp := _thread_init mainthread NORMALPRIO in
  setcurrp tp ;;;
  set_thd tp (set_p_state THD_STATE_CURRENT) ;;;
  chSysEnable ;;;
  chRegSetThreadName (Some ch_debug) ;;;
  chThdCreateStatic _idle_thread_wa (THD_WA_SIZE0 + 16) IDLEPRIO pf ;;;
  mret' tt.

(** The last ready thread, or the list header. *)
Definition chSysGetIdleThread s : option tid := List.last (map Some (k_q s QReady)) None.
End Defs.
