(* ===== verification/Inv.v ===== *)
(** * The kernel invariant

    [KInv fl s] is what every kernel function relies on and re-establishes.
    While a thread is on its way from a wait queue to the ready list it is
    on no queue whatever its state says: that thread, if any, is [fl]. *)
From S2P Require Import Prelude Monad Types ThdLists VT Sched Sem Mtx.

Implicit Types (s : kstate) (t u : tid) (q : qid) (fl : option tid).

(** The queue a thread must be on. *)
Definition home (th : Thread) : option qid :=
  match p_state th with
  | THD_STATE_READY => Some QReady
  | THD_STATE_WTSEM | THD_STATE_WTMTX | THD_STATE_WTCOND
  | THD_STATE_WTQUEUE | THD_STATE_SNDMSGQ => u_wtobjp (p_u th)
  | _ => None
  end.

Definition queued_state (st : tstate) : bool :=
  match st with
  | THD_STATE_READY | THD_STATE_WTSEM | THD_STATE_WTMTX | THD_STATE_WTCOND
  | THD_STATE_WTQUEUE | THD_STATE_SNDMSGQ => true
  | _ => false
  end.

(** The kind of object a thread waits for in each state. *)
Definition kind_ok (st : tstate) q : Prop :=
  match st, q with
  | THD_STATE_READY, QReady | THD_STATE_WTSEM, QSem _
  | THD_STATE_WTMTX, QMtx _ | THD_STATE_WTCOND, QCond _
  | THD_STATE_WTQUEUE, QIO _ | THD_STATE_SNDMSGQ, QMsg _ => True
  | _, _ => False
  end.

(** The states a thread can be in while the timer on its stack is armed. *)
Definition timed_state (st : tstate) : Prop :=
  match st with
  | THD_STATE_READY | THD_STATE_CURRENT | THD_STATE_WTSEM | THD_STATE_WTQUEUE
  | THD_STATE_WTCOND | THD_STATE_SLEEPING | THD_STATE_WTOREVT
  | THD_STATE_WTANDEVT => True
  | _ => False
  end.

Section Inv.
Context `{Config}.

(** The queues kept in priority order. *)
Definition prio_queue q : bool :=
  match q with
  | QReady | QMtx _ | QCond _ => true
  | QSem _ => CH_USE_SEMAPHORES_PRIORITY
  | QMsg _ => CH_USE_MESSAGES_PRIORITY
  | QIO _ => false
  end.

Record KInv (idle : tid) fl s : Prop := {
  i_place : forall t q, fl <> Some t ->
    t ∈ k_q s q <-> home (k_thd s t) = Some q;
  i_float : forall t, fl = Some t ->
    (forall q, t ∉ k_q s q) /\ (forall u, t ∉ p_waiting (k_thd s u)) /\
    t <> k_curr s /\ p_state (k_thd s t) <> THD_STATE_FINAL;
  i_kind : forall t q, fl <> Some t ->
    home (k_thd s t) = Some q -> kind_ok (p_state (k_thd s t)) q;
  i_nodup : forall q, NoDup (k_q s q);
  i_cur : p_state (k_thd s (k_curr s)) = THD_STATE_CURRENT;
  i_cur1 : forall t, fl <> Some t ->
    p_state (k_thd s t) = THD_STATE_CURRENT -> t = k_curr s;
  i_sorted : forall q, prio_queue q = true -> Lst.psorted (k_prio s) (k_q s q);
  i_prio : forall t, p_state (k_thd s t) <> THD_STATE_FINAL -> NOPRIO < k_prio s t;
  i_rprio : k_rprio s = NOPRIO;
  i_idle : p_state (k_thd s idle) = THD_STATE_READY \/
           p_state (k_thd s idle) = THD_STATE_CURRENT;
  i_reg : forall t, p_state (k_thd s t) <> THD_STATE_FINAL -> t ∈ k_reg s;
  i_sem : forall sp, is_s32 (k_sem s sp) /\
    Z.of_nat (length (k_q s (QSem sp))) = Z.max 0 (- k_sem s sp);
  i_owner : forall mp t, k_mtx s mp = Some t <-> mp ∈ p_mtxlist (k_thd s t);
  i_owned : forall t, NoDup (p_mtxlist (k_thd s t));
  i_free : forall mp, k_mtx s mp = None -> k_q s (QMtx mp) = [];
  i_vt : vt_wf s;
  i_timer : forall t, vt_func (k_vt s (VTStack t)) <> None ->
    vt_func (k_vt s (VTStack t)) = Some VF_wakeup /\
    vt_par (k_vt s (VTStack t)) = t /\ timed_state (p_state (k_thd s t));
  i_wait : forall t u, t ∈ p_waiting (k_thd s u) ->
    p_state (k_thd s t) = THD_STATE_WTEXIT;
  i_wait1 : forall t u u', t ∈ p_waiting (k_thd s u) ->
    t ∈ p_waiting (k_thd s u') -> u = u';
  i_waitnd : forall u, NoDup (p_waiting (k_thd s u));
  i_queued : forall t, fl <> Some t -> queued_state (p_state (k_thd s t)) = true ->
    home (k_thd s t) <> None;
  i_real : forall t, p_state (k_thd s t) <> THD_STATE_FINAL ->
    NOPRIO < p_realprio (k_thd s t)
}.

(** The running thread has the highest priority. *)
Definition HP s : Prop := firstprio s <= currprio s.

(** The timer of the running thread is not armed. *)
Definition no_timer s : Prop := vt_func (k_vt s (VTStack (k_curr s))) = None.

(** ** States that agree field by field *)

Record keq s s' : Prop := {
  keq_thd : forall t, k_thd s t = k_thd s' t;
  keq_q : forall q, k_q s q = k_q s' q;
  keq_curr : k_curr s = k_curr s';
  keq_rprio : k_rprio s = k_rprio s';
  keq_reg : k_reg s = k_reg s';
  keq_vtl : k_vtl s = k_vtl s';
  keq_vt : forall v, k_vt s v = k_vt s' v;
  keq_vth : k_vth s = k_vth s';
  keq_systime : k_systime s = k_systime s';
  keq_sem : forall p, k_sem s p = k_sem s' p;
  keq_mtx : forall p, k_mtx s p = k_mtx s' p;
  keq_es : forall p, k_es s p = k_es s' p;
  keq_el : forall p, k_el s p = k_el s' p;
  keq_mb : forall p, k_mb s p = k_mb s' p;
  keq_ioq : forall p, k_ioq s p = k_ioq s' p;
  keq_lock : k_lock_cnt s = k_lock_cnt s';
  keq_isr : k_isr_cnt s = k_isr_cnt s';
  keq_mem : forall a, k_mem s a = k_mem s' a;
  keq_nextmem : k_nextmem s = k_nextmem s';
  keq_endmem : k_endmem s = k_endmem s';
  keq_heap : forall a, k_heap s a = k_heap s' a;
  keq_pool : forall a, k_pool s a = k_pool s' a
}.

#[global] Instance keq_equiv : Equivalence keq.
Proof.
  split.
  - intros s. split; done.
  - intros s s' []. split; congruence.
  - intros s1 s2 s3 [] []. split; congruence.
Qed.

Lemma vt_wf_keq s s' : keq s s' -> vt_wf s -> vt_wf s'.
Proof.
  intros E [W1 W2 W3 W4 W5].
  assert (forall v, k_vt s' v = k_vt s v) as Ev by (intros; symmetry; apply E).
  rewrite (keq_vtl _ _ E) in *. split; [done| | | |].
  - intros v Hv. rewrite Ev. auto.
  - destruct (vt_ext (k_vt s) (k_vt s') (k_vtl s')) as [-> _]; [|done].
    intros p _. by rewrite Ev.
  - by rewrite <-(keq_vth _ _ E).
  - intros v. by rewrite Ev.
Qed.

#[global] Instance KInv_proper idle fl : Proper (keq ==> iff) (KInv idle fl).
Proof.
  enough (forall s s', keq s s' -> KInv idle fl s -> KInv idle fl s') as Himp.
  { intros s s' E. split; apply Himp; [done|by symmetry]. }
  intros s s' E HI. pose proof (vt_wf_keq s s' E (i_vt _ _ _ HI)) as W.
  destruct E as [E1 E2 E3 E4 E5 E6 E7 E8 E9 E10 E11 _ _ _ _ _ _ _ _ _ _ _].
  destruct HI. split; intros; unfold k_prio in *;
    rewrite <-?E2, <-?E3, <-?E4, <-?E5, <-?E7, <-?E10, <-?E11, <-?E1;
    repeat match goal with
      | H : context [k_thd s' _] |- _ => rewrite <-E1 in H
      | H : context [k_q s' _] |- _ => rewrite <-E2 in H
      | H : context [k_vt s' _] |- _ => rewrite <-E7 in H
      | H : context [k_mtx s' _] |- _ => rewrite <-E11 in H
      end; eauto.
  - destruct (i_float0 t) as (? & ? & ? & ?); [done|].
    split_and!; auto; intros; rewrite <-?E2, <-?E1; auto.
  - apply (Lst.psorted_ext (fun t => p_prio (k_thd s t))); [|auto].
    intros t _. by rewrite E1.
Qed.
End Inv.

(** ** Priorities are owned or inherited

    A thread runs with its own priority or that of the first thread waiting
    on a mutex it owns, never with more. *)
Definition UB s : Prop := forall t,
  k_prio s t <= scan_owned s (p_mtxlist (k_thd s t)) (p_realprio (k_thd s t)).

Lemma scan_owned_ext s s' (l : list mid) p :
  (forall u, k_prio s' u = k_prio s u) -> (forall mp, k_q s' (QMtx mp) = k_q s (QMtx mp)) ->
  scan_owned s' l p = scan_owned s l p.
Proof.
  intros Ep Eq. revert p. induction l as [|mp l IH]; intros p; [done|]. cbn [scan_owned].
  rewrite IH, Eq. f_equal. destruct (k_q s (QMtx mp)); [done|]. by rewrite Ep.
Qed.

(** The fields [UB] reads. *)
Record same_prio s s' : Prop := {
  sp_prio : forall u, k_prio s' u = k_prio s u;
  sp_own : forall u, p_mtxlist (k_thd s' u) = p_mtxlist (k_thd s u);
  sp_real : forall u, p_realprio (k_thd s' u) = p_realprio (k_thd s u);
  sp_q : forall mp, k_q s' (QMtx mp) = k_q s (QMtx mp)
}.

Lemma same_prio_UB s s' : same_prio s s' -> UB s -> UB s'.
Proof.
  intros [Ep Eo Er Eq] HU t. rewrite Ep, Eo, Er, (scan_owned_ext s) by done. apply HU.
Qed.

Lemma same_prio_trans s1 s2 s3 : same_prio s1 s2 -> same_prio s2 s3 -> same_prio s1 s3.
Proof. intros [] []. split; intros; congruence. Qed.

(** Writes to other fields of a thread. *)
Lemma same_prio_upd s t f :
  (forall th, p_prio (f th) = p_prio th /\ p_mtxlist (f th) = p_mtxlist th /\
              p_realprio (f th) = p_realprio th) ->
  same_prio s (upd_thd t f s).
Proof.
  intros Hf. split; try done; intros u; unfold k_prio; simpl; rewrite fn_insert_dec;
    case_decide; subst; try done; apply Hf.
Qed.

(** The clauses of an invariant hypothesis, under fixed names. *)
Ltac kinv_open H :=
  destruct H as [Ipl Ifl Iki Ind Icu Icu1 Iso Ipr Irp Iid Ire Ise Iow Iod Ifr
                 Ivt Iti Iwa Iwa1 Iwn Iqd Irl].

(** Closes the clauses that a move does not touch. *)
Ltac kinv_same :=
  try solve
    [ eauto
    | discriminate
    | match goal with H : vt_wf _ |- vt_wf _ => destruct H; split; done end
    | match goal with H : _ |- _ => by apply H end ].
