(* ===== verification/InvPrim.v ===== *)
(** * Primitive moves and the invariant

    Every change the kernel makes to the position of a thread is a
    composition of five moves: taking a thread off a queue ([detach]),
    writing to a thread that is on no queue ([float_upd]), making it the
    running thread ([make_current]), putting it on a queue ([enqueue]) and
    leaving it in a state that has no queue ([settle_float]). *)
From S2P Require Import Prelude Monad Types ThdLists VT Sched Sem Mtx.
From S2P Require Import Inv.

Implicit Types (s : kstate) (t u : tid) (q : qid) (fl : option tid).

Definition make_current t s : kstate :=
  upd_thd t (set_p_state THD_STATE_CURRENT) (set_k_curr t s).

Section Prim.
Context `{Config}.
Variable idle : tid.
Local Abbreviation KI := (KInv idle).

(** ** Consequences of the invariant *)

Lemma home_state th q : home th = Some q ->
  p_state th <> THD_STATE_CURRENT /\ p_state th <> THD_STATE_FINAL /\
  p_state th <> THD_STATE_WTEXIT.
Proof. unfold home. by destruct (p_state th). Qed.

Lemma inv_placed s t q : KI None s -> t ∈ k_q s q -> home (k_thd s t) = Some q.
Proof. intros HI. by apply (i_place _ _ _ HI t q). Qed.

Lemma inv_one_queue s t q q' : KI None s -> t ∈ k_q s q -> t ∈ k_q s q' -> q = q'.
Proof.
  intros HI H1 H2. apply (inv_placed _ _ _ HI) in H1, H2. congruence.
Qed.

Lemma inv_queued_not_curr s t q : KI None s -> t ∈ k_q s q -> t <> k_curr s.
Proof.
  intros HI Ht ->. apply (inv_placed _ _ _ HI), home_state in Ht as (Hc & _).
  by rewrite (i_cur _ _ _ HI) in Hc.
Qed.

Lemma inv_not_waiting s t u : KI None s ->
  p_state (k_thd s t) <> THD_STATE_WTEXIT -> t ∉ p_waiting (k_thd s u).
Proof. intros HI Ht Hw. by apply (i_wait _ _ _ HI) in Hw. Qed.

Lemma inv_home_none s t q : KI None s -> home (k_thd s t) = None -> t ∉ k_q s q.
Proof. intros HI Ht Hq. apply (inv_placed _ _ _ HI) in Hq. congruence. Qed.

Lemma curr_home s : KI None s -> home (k_thd s (k_curr s)) = None.
Proof. intros HI. unfold home. by rewrite (i_cur _ _ _ HI). Qed.

(** ** The moves *)

Lemma float_intro s t :
  KI None s -> home (k_thd s t) = None -> t <> k_curr s ->
  p_state (k_thd s t) <> THD_STATE_FINAL ->
  (forall u, t ∉ p_waiting (k_thd s u)) ->
  KI (Some t) s.
Proof.
  intros HI Hh Hc Hf Hw. kinv_open (HI). split; intros; kinv_same.
  - injection H0 as <-. split_and!; auto. intros q. by apply inv_home_none.
Qed.

Lemma detach_gen s q l1 t l2 sem' :
  KI None s -> k_q s q = l1 ++ t :: l2 ->
  (forall sp, is_s32 (sem' sp) /\
     Z.of_nat (length (<[q := l1 ++ l2]> (k_q s) (QSem sp))) = Z.max 0 (- sem' sp)) ->
  KI (Some t) (upd_q q (l1 ++ l2) (set_k_sem sem' s)).
Proof.
  intros HI Hq Hsem. pose proof (i_nodup _ _ _ HI q) as Hnd.
  assert (t ∈ k_q s q) as Htq by (rewrite Hq; set_solver).
  pose proof (inv_placed _ _ _ HI Htq) as Hh.
  destruct (home_state _ _ Hh) as (Hs1 & Hs2 & Hs3).
  rewrite Hq in Hnd. apply list.NoDup_app in Hnd as (Hn1 & Hd & Hn2).
  apply list.NoDup_cons in Hn2 as [Ht2 Hn2].
  assert (t ∉ l1) as Ht1 by (intros Hx; apply (Hd t Hx); set_solver).
  assert (forall u q', u <> t ->
            u ∈ <[q := l1 ++ l2]> (k_q s) q' <-> u ∈ k_q s q') as Hel.
  { intros u q' Hu. rewrite fn_insert_dec. case_decide; [|done]. subst q'.
    rewrite Hq. set_solver. }
  kinv_open (HI). split; simpl; intros; kinv_same.
  - rewrite Hel by congruence. auto.
  - injection H0 as <-. split_and!; auto.
    + intros q'. rewrite fn_insert_dec. case_decide; [set_solver|].
      intros Hx. by apply (inv_one_queue s t q q') in Hx.
    + intros u. by apply (inv_not_waiting s).
    + by apply (inv_queued_not_curr s t q).
  - rewrite fn_insert_dec. case_decide; [|auto].
    apply list.NoDup_app. split_and!; [done| |done]. set_solver.
  - rewrite fn_insert_dec. case_decide; [|by apply Iso]. subst q0.
    specialize (Iso q ltac:(done)). rewrite Hq in Iso.
    change (Lst.psorted (k_prio s) (l1 ++ l2)).
    apply Lst.psorted_app in Iso as (S1 & [_ S2] & S12).
    apply Lst.psorted_app. split_and!; [done..|]. set_solver.
  - rewrite fn_insert_dec. case_decide; [|auto]. subst q.
    rewrite Ifr in Htq by done. set_solver.
Qed.

Lemma detach s q l1 t l2 :
  KI None s -> k_q s q = l1 ++ t :: l2 -> (forall sp, q <> QSem sp) ->
  KI (Some t) (upd_q q (l1 ++ l2) s).
Proof.
  intros HI Hq Hns.
  assert (keq (upd_q q (l1 ++ l2) s) (upd_q q (l1 ++ l2) (set_k_sem (k_sem s) s)))
    as -> by (split; done).
  apply detach_gen; [done..|]. intros sp.
  rewrite fn_insert_ne by done. apply (i_sem _ _ _ HI).
Qed.

Lemma float_upd s t (f : Thread -> Thread) :
  KI (Some t) s ->
  (forall th, p_prio (f th) = p_prio th /\ p_mtxlist (f th) = p_mtxlist th /\
              p_waiting (f th) = p_waiting th /\ p_realprio (f th) = p_realprio th) ->
  p_state (f (k_thd s t)) <> THD_STATE_FINAL ->
  (vt_func (k_vt s (VTStack t)) <> None -> timed_state (p_state (f (k_thd s t)))) ->
  (t = idle -> p_state (f (k_thd s t)) = THD_STATE_READY \/
               p_state (f (k_thd s t)) = THD_STATE_CURRENT) ->
  KI (Some t) (upd_thd t f s).
Proof.
  intros HI Hf Hfin Htim Hidle. destruct (Hf (k_thd s t)) as (Hp & Hm & Hw & Hr).
  assert (forall u, k_prio (upd_thd t f s) u = k_prio s u) as Eprio.
  { intros u. unfold k_prio. simpl. rewrite fn_insert_dec. by case_decide; subst. }
  assert (forall u, p_mtxlist (k_thd (upd_thd t f s) u) = p_mtxlist (k_thd s u)) as Emtx.
  { intros u. simpl. rewrite fn_insert_dec. by case_decide; subst. }
  assert (forall u, p_waiting (k_thd (upd_thd t f s) u) = p_waiting (k_thd s u)) as Ew.
  { intros u. simpl. rewrite fn_insert_dec. by case_decide; subst. }
  assert (forall u, u <> t -> k_thd (upd_thd t f s) u = k_thd s u) as Eo.
  { intros u Hu. simpl. by rewrite fn_insert_ne. }
  assert (k_thd (upd_thd t f s) t = f (k_thd s t)) as Et by (simpl; apply fn_insert_eq).
  kinv_open (HI). destruct (Ifl t eq_refl) as (F1 & F2 & F3 & F4).
  split; intros; rewrite ?Emtx, ?Eprio, ?Ew in *; kinv_same.
  - rewrite Eo by congruence. by apply Ipl.
  - injection H0 as <-. rewrite Et. split_and!; auto. intros u. rewrite Ew. auto.
  - rewrite Eo in * by congruence. by apply Iki.
  - change (k_curr (upd_thd t f s)) with (k_curr s). by rewrite Eo.
  - rewrite Eo in * by congruence. by apply Icu1.
  - apply (Lst.psorted_ext (k_prio s)); [done|]. by apply Iso.
  - destruct (decide (t0 = t)) as [->|Ht]; [auto|]. rewrite Eo in * by done. auto.
  - destruct (decide (idle = t)) as [->|Ht]; [rewrite Et; auto|]. by rewrite Eo.
  - destruct (decide (t0 = t)) as [->|Ht]; [by apply Ire|].
    rewrite Eo in * by done. by apply Ire.
  - destruct (decide (t0 = t)) as [->|Ht]; [|rewrite Eo by done; by apply Iti].
    rewrite Et. destruct (Iti t) as (? & ? & ?); auto.
  - destruct (decide (t0 = t)) as [->|Ht]; [by apply F2 in H0|].
    rewrite Eo by done. eauto.
  - rewrite Eo in * by congruence. by apply Iqd.
  - destruct (decide (t0 = t)) as [->|Ht]; [rewrite Et, Hr; auto|].
    rewrite Eo in * by done. auto.
Qed.

Lemma float_not_curr s t : KI (Some t) s ->
  t <> k_curr s /\ home (k_thd s (k_curr s)) = None /\
  forall q, k_curr s ∉ k_q s q.
Proof.
  intros HI. destruct (i_float _ _ _ HI t eq_refl) as (_ & _ & Hc & _).
  assert (home (k_thd s (k_curr s)) = None) as Hh
    by (unfold home; by rewrite (i_cur _ _ _ HI)).
  split_and!; [done..|]. intros q Hq.
  apply (i_place _ _ _ HI) in Hq; congruence.
Qed.

Lemma make_current_inv s t :
  KI (Some t) s -> KI (Some (k_curr s)) (make_current t s).
Proof.
  intros HI. destruct (float_not_curr s t HI) as (Hc & Hch & Hcq).
  assert (forall u, u <> t -> k_thd (make_current t s) u = k_thd s u) as Eo.
  { intros u Hu. simpl. by rewrite fn_insert_ne. }
  assert (k_thd (make_current t s) t = set_p_state THD_STATE_CURRENT (k_thd s t)) as Et
    by (simpl; apply fn_insert_eq).
  assert (forall u, k_prio (make_current t s) u = k_prio s u /\
     p_mtxlist (k_thd (make_current t s) u) = p_mtxlist (k_thd s u) /\
     p_waiting (k_thd (make_current t s) u) = p_waiting (k_thd s u)) as Ep.
  { intros u. unfold k_prio. destruct (decide (u = t)) as [->|Hu];
      [by rewrite Et|by rewrite Eo]. }
  kinv_open (HI). destruct (Ifl t eq_refl) as (F1 & F2 & F3 & F4).
  split; intros;
    rewrite ?(proj1 (proj2 (Ep _))), ?(proj1 (Ep _)), ?(proj2 (proj2 (Ep _))) in *;
    kinv_same.
  - destruct (decide (t0 = t)) as [->|Ht].
    + rewrite Et. split; [intros Hx; by apply F1 in Hx|done].
    + rewrite Eo by done. apply Ipl. congruence.
  - injection H0 as <-. rewrite Eo by congruence. split_and!; [done| |done|].
    + intros u. rewrite (proj2 (proj2 (Ep u))). intros Hx.
      apply Iwa in Hx. congruence.
    + rewrite Icu. done.
  - destruct (decide (t0 = t)) as [->|Ht]; [by rewrite Et in *|].
    rewrite Eo in * by done. apply Iki; congruence.
  - change (k_curr (make_current t s)) with t. by rewrite Et.
  - change (k_curr (make_current t s)) with t.
    destruct (decide (t0 = t)) as [->|Ht]; [done|]. rewrite Eo in * by done.
    exfalso. apply H0. f_equal. symmetry. apply Icu1; congruence.
  - apply (Lst.psorted_ext (k_prio s)); [intros u _; symmetry; apply Ep|]. by apply Iso.
  - destruct (decide (t0 = t)) as [->|Ht]; [auto|]. rewrite Eo in * by done. auto.
  - destruct (decide (idle = t)) as [->|Ht]; [rewrite Et; by right|].
    by rewrite Eo.
  - destruct (decide (t0 = t)) as [->|Ht]; [by apply Ire|].
    rewrite Eo in * by done. by apply Ire.
  - destruct (decide (t0 = t)) as [->|Ht]; [|rewrite Eo by done; by apply Iti].
    rewrite Et. by destruct (Iti t) as (? & ? & ?).
  - destruct (decide (t0 = t)) as [->|Ht]; [by apply F2 in H0|].
    rewrite Eo by done. eauto.
  - destruct (decide (t0 = t)) as [->|Ht]; [by rewrite Et in *|].
    rewrite Eo in * by done. apply Iqd; congruence.
  - destruct (decide (t0 = t)) as [->|Ht]; [rewrite Et; simpl; auto|].
    rewrite Eo in * by done. auto.
Qed.

Lemma enqueue_gen s t q L sem' :
  KI (Some t) s -> home (k_thd s t) = Some q -> kind_ok (p_state (k_thd s t)) q ->
  L ≡ₚ t :: k_q s q ->
  (prio_queue q = true -> Lst.psorted (k_prio s) L) ->
  (forall mp, q = QMtx mp -> k_mtx s mp <> None) ->
  (forall sp, is_s32 (sem' sp) /\
     Z.of_nat (length (<[q := L]> (k_q s) (QSem sp))) = Z.max 0 (- sem' sp)) ->
  KI None (upd_q q L (set_k_sem sem' s)).
Proof.
  intros HI Hh Hk HL Hso Hmt Hsem.
  destruct (home_state _ _ Hh) as (Hs1 & Hs2 & Hs3).
  destruct (i_float _ _ _ HI t eq_refl) as (F1 & F2 & F3 & F4).
  assert (forall u q', u ∈ <[q := L]> (k_q s) q' <->
            (u = t /\ q' = q) \/ u ∈ k_q s q') as Hel.
  { intros u q'. rewrite fn_insert_dec. case_decide; [subst q'|naive_solver].
    rewrite HL. set_solver. }
  kinv_open (HI). split; simpl; intros; kinv_same.
  - rewrite Hel. destruct (decide (t0 = t)) as [->|Ht].
    + rewrite Hh. split; [intros [[_ ->]|Hx]; [done|by apply F1 in Hx]|].
      intros [= ->]. by left.
    + rewrite <-Ipl by congruence. naive_solver.
  - destruct (decide (t0 = t)) as [->|Ht]; [congruence|].
    apply Iki; congruence.
  - rewrite fn_insert_dec. case_decide; [|by apply Ind].
    rewrite HL. apply list.NoDup_cons. auto.
  - destruct (decide (t0 = t)) as [->|Ht]; [done|]. apply Icu1; congruence.
  - rewrite fn_insert_dec. case_decide; [subst q0; by apply Hso|by apply Iso].
  - rewrite fn_insert_dec. case_decide; [subst q; by apply Hmt in H0|by apply Ifr].
  - destruct (decide (t0 = t)) as [->|Ht]; [congruence|]. apply Iqd; congruence.
Qed.

Lemma enqueue s t q L :
  KI (Some t) s -> home (k_thd s t) = Some q -> kind_ok (p_state (k_thd s t)) q ->
  L ≡ₚ t :: k_q s q ->
  (prio_queue q = true -> Lst.psorted (k_prio s) L) ->
  (forall mp, q = QMtx mp -> k_mtx s mp <> None) ->
  (forall sp, q <> QSem sp) ->
  KI None (upd_q q L s).
Proof.
  intros HI Hh Hk HL Hso Hmt Hns.
  assert (keq (upd_q q L s) (upd_q q L (set_k_sem (k_sem s) s))) as -> by (split; done).
  apply (enqueue_gen s t); try done. intros sp.
  rewrite fn_insert_ne by done. apply (i_sem _ _ _ HI).
Qed.

Lemma settle_float s t :
  KI (Some t) s -> home (k_thd s t) = None ->
  queued_state (p_state (k_thd s t)) = false ->
  p_state (k_thd s t) <> THD_STATE_CURRENT -> KI None s.
Proof.
  intros HI Hh Hqs Hc. destruct (i_float _ _ _ HI t eq_refl) as (F1 & F2 & F3 & F4).
  kinv_open (HI). split; intros; kinv_same.
  - destruct (decide (t0 = t)) as [->|Ht].
    + rewrite Hh. split; [intros Hx; by apply F1 in Hx|done].
    + apply Ipl. congruence.
  - destruct (decide (t0 = t)) as [->|Ht]; [congruence|]. apply Iki; congruence.
  - destruct (decide (t0 = t)) as [->|Ht]; [done|]. apply Icu1; congruence.
  - destruct (decide (t0 = t)) as [->|Ht]; [congruence|]. apply Iqd; congruence.
Qed.
End Prim.
