(* ===== verification/InvSched.v ===== *)
(** * The scheduler preserves the invariant

    Equations for the scheduler functions on states that satisfy the
    invariant, the guarantee and rely conditions of kernel code, and the
    safety of every scheduling function. *)
From S2P Require Import Prelude Monad Types ThdLists VT Sched Sem Mtx.
From S2P Require Import Inv InvPrim.

Implicit Types (s : kstate) (t u c n : tid) (q : qid) (l : list tid) (st : tstate).

Section Pure.
Context `{Config}.

(** The state after [chSchReadyI(t)]. *)
Definition ready_st t s : kstate :=
  let s := upd_thd t (set_p_state THD_STATE_READY) s in
  upd_q QReady (Lst.prio_ins (k_prio s) t (k_q s QReady)) s.

(** A new time quantum, when round robin is enabled. *)
Definition renew t s : kstate :=
  if 0 <? CH_TIME_QUANTUM then upd_thd t (set_p_preempt CH_TIME_QUANTUM) s else s.

Definition renew_th (th : Thread) : Thread :=
  if 0 <? CH_TIME_QUANTUM then set_p_preempt CH_TIME_QUANTUM th else th.

(** The state in which [chSchGoSleepS(st)] switches to [n]. *)
Definition sleep_st st n l s : kstate :=
  make_current n (upd_q QReady l
    (renew (k_curr s) (upd_thd (k_curr s) (set_p_state st) s))).

Lemma renew_eq t s : keq (renew t s) (upd_thd t renew_th s).
Proof.
  unfold renew, renew_th. destruct (0 <? CH_TIME_QUANTUM); [done|].
  split; try done. intros u. simpl. rewrite fn_insert_dec.
  by case_decide; subst.
Qed.

(** The lock counters are the only fields that [with_lock] writes. *)
Lemma with_lock_fields x s :
  k_thd (with_lock x s) = k_thd s /\ k_q (with_lock x s) = k_q s /\
  k_curr (with_lock x s) = k_curr s /\ k_rprio (with_lock x s) = k_rprio s /\
  k_vt (with_lock x s) = k_vt s.
Proof. unfold with_lock. by destruct CH_DBG_SYSTEM_STATE_CHECK. Qed.

Lemma with_lock_rest x s :
  k_sem (with_lock x s) = k_sem s /\ k_mtx (with_lock x s) = k_mtx s /\
  k_reg (with_lock x s) = k_reg s /\ k_vtl (with_lock x s) = k_vtl s /\
  k_es (with_lock x s) = k_es s /\ k_el (with_lock x s) = k_el s /\
  k_mb (with_lock x s) = k_mb s /\ k_ioq (with_lock x s) = k_ioq s /\
  k_systime (with_lock x s) = k_systime s.
Proof. unfold with_lock. by destruct CH_DBG_SYSTEM_STATE_CHECK. Qed.
End Pure.

Section Sched.
Context `{Config}.
Variable idle : tid.
Local Abbreviation KI := (KInv idle).

Lemma KInv_lock fl x s : KI fl (with_lock x s) <-> KI fl s.
Proof.
  unfold with_lock. destruct CH_DBG_SYSTEM_STATE_CHECK; [|done].
  split; intros HI; kinv_open HI; split; kinv_same.
Qed.

(** ** [chSchReadyI] *)

Lemma ready_scan_ok s t :
  k_rprio s = NOPRIO -> NOPRIO < k_prio s t ->
  ready_scan s t = Some (Lst.prio_ins (k_prio s) t (k_q s QReady)).
Proof.
  intros Hr Hp. unfold ready_scan. rewrite Hr.
  by rewrite (proj2 (Z.leb_gt _ _)), andb_false_r by done.
Qed.

Lemma ahead_scan_ok s t :
  k_rprio s = NOPRIO -> NOPRIO < k_prio s t ->
  ahead_scan s t = Some (Lst.ahead_ins (k_prio s) t (k_q s QReady)).
Proof.
  intros Hr Hp. unfold ahead_scan. rewrite Hr.
  by rewrite (proj2 (Z.ltb_ge _ _)), andb_false_r by lia.
Qed.

Lemma chSchReadyI_eq s t :
  locked_I s -> k_rprio s = NOPRIO -> NOPRIO < k_prio s t ->
  p_state (k_thd s t) <> THD_STATE_FINAL ->
  (CH_DBG_ENABLE_ASSERTS = true -> p_state (k_thd s t) <> THD_STATE_READY) ->
  chSchReadyI t s = Done t (ready_st t s).
Proof.
  intros HI Hr Hp Hf Ha. unfold chSchReadyI, bind.
  rewrite chDbgCheckClassI_ok by done. simpl.
  assert (chDbgAssert (negb (bool_decide (p_state (k_thd s t) = THD_STATE_READY))
     && negb (bool_decide (p_state (k_thd s t) = THD_STATE_FINAL)))
     "chSchReadyI(), #1" s = Done tt s) as ->.
  { unfold chDbgAssert. destruct CH_DBG_ENABLE_ASSERTS; [|done].
    by rewrite !bool_decide_eq_false_2 by auto. }
  simpl. unfold insert_by. rewrite ready_scan_ok; [done..|].
  unfold k_prio. simpl. by rewrite fn_insert_eq.
Qed.

Lemma ready_st_inv s t : KI (Some t) s -> KI None (ready_st t s).
Proof.
  intros HI. set (s1 := upd_thd t (set_p_state THD_STATE_READY) s).
  assert (KI (Some t) s1) as HI1.
  { apply float_upd; [done|done|done|done|by left]. }
  assert (k_thd s1 t = set_p_state THD_STATE_READY (k_thd s t)) as Et
    by (simpl; apply fn_insert_eq).
  apply (enqueue idle s1 t QReady); try done.
  - by rewrite Et.
  - by rewrite Et.
  - apply Lst.prio_ins_perm.
  - intros _. apply Lst.prio_ins_sorted. by apply (i_sorted _ _ _ HI1).
Qed.

(** The thread returned by [chSchReadyI] is ready and the invariant holds
    again. *)
Lemma chSchReadyI_ok s t :
  locked_I s -> KI (Some t) s ->
  (CH_DBG_ENABLE_ASSERTS = true -> p_state (k_thd s t) <> THD_STATE_READY) ->
  chSchReadyI t s = Done t (ready_st t s) /\ KI None (ready_st t s).
Proof.
  intros HL HI Ha. split; [|by apply ready_st_inv].
  destruct (i_float _ _ _ HI t eq_refl) as (_ & _ & _ & Hf).
  apply chSchReadyI_eq; try done; [apply (i_rprio _ _ _ HI)|by apply (i_prio _ _ _ HI)].
Qed.

(** ** Context switches *)

Lemma idle_ready s : KI None s -> k_curr s <> idle ->
  exists n l, k_q s QReady = n :: l.
Proof.
  intros HI Hc. destruct (k_q s QReady) as [|n l] eqn:Hq; [|eauto].
  exfalso. destruct (i_idle _ _ _ HI) as [Hr|Hr].
  - assert (idle ∈ k_q s QReady) as Hin
      by (apply (i_place _ _ _ HI); [done|]; unfold home; by rewrite Hr).
    rewrite Hq in Hin. set_solver.
  - apply Hc. symmetry. by apply (i_cur1 _ _ _ HI).
Qed.

Lemma chSchGoSleepS_eq s st n l :
  locked_S s -> k_q s QReady = n :: l ->
  chSchGoSleepS st s = Suspend AtSwitch (sleep_st st n l s) (fun s' => Done tt s').
Proof.
  intros HL Hq. unfold chSchGoSleepS, bind.
  rewrite chDbgCheckClassS_ok by done. simpl.
  unfold sleep_st, renew, fifo_remove.
  destruct (0 <? CH_TIME_QUANTUM); simpl; by rewrite Hq.
Qed.

(** Popping the first ready thread and making it current leaves the
    previous thread on no queue. *)
Lemma dispatch_inv s n l :
  KI None s -> k_q s QReady = n :: l ->
  KI (Some (k_curr s)) (make_current n (upd_q QReady l s)).
Proof.
  intros HI Hq. apply (make_current_inv idle (upd_q QReady l s) n).
  by apply (detach idle s QReady [] n l).
Qed.

Lemma dispatch_ne s n l :
  KI None s -> k_q s QReady = n :: l -> n <> k_curr s /\ n ∉ l.
Proof.
  intros HI Hq. split.
  - apply (inv_queued_not_curr idle s n QReady); [done|]. rewrite Hq. set_solver.
  - pose proof (i_nodup _ _ _ HI QReady) as Hnd. rewrite Hq in Hnd.
    by apply list.NoDup_cons in Hnd as [? _].
Qed.

(** ** The running thread has the highest priority *)

Lemma HP_intro s :
  k_rprio s = NOPRIO -> NOPRIO <= currprio s ->
  (forall u, u ∈ k_q s QReady -> k_prio s u <= currprio s) -> HP s.
Proof.
  intros Hr Hc Hu. unfold HP, firstprio.
  destruct (k_q s QReady) as [|u l]; [lia|]. apply Hu. set_solver.
Qed.

Lemma HP_elim fl s u : KI fl s -> HP s -> u ∈ k_q s QReady -> k_prio s u <= currprio s.
Proof.
  intros HI Hhp Hu. unfold HP, firstprio in Hhp.
  pose proof (i_sorted _ _ _ HI QReady eq_refl) as Hs.
  destruct (k_q s QReady) as [|v l]; [set_solver|].
  pose proof (Lst.psorted_head _ _ _ _ Hs Hu). lia.
Qed.

Lemma currprio_pos fl s : KI fl s -> NOPRIO < currprio s.
Proof.
  intros HI. apply (i_prio _ _ _ HI). by rewrite (i_cur _ _ _ HI).
Qed.

(** ** Going to sleep *)

Ltac keq_solve :=
  split; try done; intros; simpl; rewrite ?fn_insert_dec;
  repeat case_decide; subst; try done; try congruence.

Definition sleep_th st (q : option qid) (th : Thread) : Thread :=
  renew_th (set_p_state st
    match q with Some q => set_p_u (U_wtobjp q) th | None => th end).

Lemma sleep_th_fields st (q : option qid) th :
  p_prio (sleep_th st q th) = p_prio th /\
  p_mtxlist (sleep_th st q th) = p_mtxlist th /\
  p_waiting (sleep_th st q th) = p_waiting th /\
  p_state (sleep_th st q th) = st /\
  p_u (sleep_th st q th) =
    match q with Some q => U_wtobjp q | None => p_u th end /\
  p_realprio (sleep_th st q th) = p_realprio th.
Proof.
  unfold sleep_th, renew_th. by destruct (0 <? CH_TIME_QUANTUM), q.
Qed.

(** The state before the switch when the running thread has been put on
    queue [q], with contents [L], and the semaphore counters are [sem']. *)
Definition enq_st q (L : list tid) (sem' : sid -> Z) s : kstate :=
  upd_q q L (upd_thd (k_curr s) (set_p_u (U_wtobjp q)) (set_k_sem sem' s)).

Section Sleep.
Variables (s : kstate) (n : tid) (l : list tid) (st : tstate).
Hypothesis HI : KI None s.
Hypothesis Hq : k_q s QReady = n :: l.
Hypothesis Hcur : k_curr s <> idle.
Hypothesis Hst : st <> THD_STATE_FINAL /\ st <> THD_STATE_CURRENT.
Hypothesis Htim : vt_func (k_vt s (VTStack (k_curr s))) <> None -> timed_state st.

Let c := k_curr s.
Let s1 := make_current n (upd_q QReady l s).

Lemma sleep_float_inv (q : option qid) :
  KI (Some c) (upd_thd c (sleep_th st q) s1).
Proof.
  apply float_upd; [by apply dispatch_inv| | | |].
  - intros th. split_and!; apply sleep_th_fields.
  - destruct (sleep_th_fields st q (k_thd s1 c)) as (_ & _ & _ & -> & _). tauto.
  - intros Hv. destruct (sleep_th_fields st q (k_thd s1 c)) as (_ & _ & _ & -> & _).
    by apply Htim.
  - done.
Qed.

Lemma sleep_queue_inv q L sem' :
  q <> QReady -> kind_ok st q -> home (sleep_th st (Some q) (k_thd s c)) = Some q ->
  L ≡ₚ c :: k_q s q ->
  (prio_queue q = true -> Lst.psorted (k_prio s) L) ->
  (forall mp, q = QMtx mp -> k_mtx s mp <> None) ->
  (forall sp, is_s32 (sem' sp) /\
     Z.of_nat (length (<[q := L]> (k_q s) (QSem sp))) = Z.max 0 (- sem' sp)) ->
  KI None (sleep_st st n l (enq_st q L sem' s)).
Proof.
  intros Hqr Hk Hh HL Hso Hmt Hsem. destruct (dispatch_ne s n l HI Hq) as [Hnc _].
  set (s2 := upd_thd c (sleep_th st (Some q)) s1).
  assert (keq (sleep_st st n l (enq_st q L sem' s))
              (upd_q q L (set_k_sem sem' s2))) as ->.
  { unfold sleep_st, enq_st, s2, s1, sleep_th, renew_th, renew.
    destruct (0 <? CH_TIME_QUANTUM); fold c; keq_solve. }
  assert (k_thd s2 c = sleep_th st (Some q) (k_thd s c)) as E2
    by (unfold s2, s1; simpl; by rewrite fn_insert_eq, fn_insert_ne).
  destruct (sleep_th_fields st (Some q) (k_thd s c)) as (_ & _ & _ & Es & Eu & _).
  apply (enqueue_gen idle s2 c).
  - apply sleep_float_inv.
  - by rewrite E2.
  - by rewrite E2, Es.
  - simpl. by rewrite fn_insert_ne.
  - intros Hp. apply (Lst.psorted_ext (k_prio s)); [|auto]. intros u _.
    unfold k_prio, s2, s1. simpl. rewrite !fn_insert_dec.
    repeat case_decide; subst; try done.
    symmetry. apply sleep_th_fields.
  - done.
  - intros sp. destruct (Hsem sp) as [? <-]. by split.
Qed.

Lemma sleep_none_inv (f : Thread -> Thread) :
  queued_state st = false ->
  (forall th, p_prio (f th) = p_prio th /\ p_mtxlist (f th) = p_mtxlist th /\
              p_waiting (f th) = p_waiting th /\ p_realprio (f th) = p_realprio th) ->
  KI None (sleep_st st n l (upd_thd c f s)).
Proof.
  intros Hqs Hf. destruct (dispatch_ne s n l HI Hq) as [Hnc _].
  assert (forall th, home (sleep_th st None th) = None) as Hh.
  { intros th. unfold home. destruct (sleep_th_fields st None th) as (_ & _ & _ & -> & _).
    by destruct st. }
  set (s2 := upd_thd c (fun th => sleep_th st None (f th)) s1).
  assert (keq (sleep_st st n l (upd_thd c f s)) s2) as ->.
  { unfold sleep_st, s2, s1, sleep_th, renew_th, renew.
    destruct (0 <? CH_TIME_QUANTUM); fold c; keq_solve. }
  assert (k_thd s2 c = sleep_th st None (f (k_thd s c))) as E2
    by (unfold s2, s1; simpl; by rewrite fn_insert_eq, fn_insert_ne).
  destruct (sleep_th_fields st None (f (k_thd s c))) as (_ & _ & _ & Es & _).
  apply (settle_float idle s2 c).
  - apply float_upd; [by apply dispatch_inv| | | |done].
    + intros th. destruct (Hf th) as (<- & <- & <- & <-).
      split_and!; apply sleep_th_fields.
    + unfold s1. simpl. rewrite fn_insert_ne, Es by done. tauto.
    + unfold s1. simpl. rewrite fn_insert_ne, Es by done. done.
  - by rewrite E2.
  - by rewrite E2, Es.
  - rewrite E2, Es. tauto.
Qed.
End Sleep.

(** ** Rescheduling *)

Definition ahead_st t s : kstate :=
  let s := upd_thd t (set_p_state THD_STATE_READY) s in
  upd_q QReady (Lst.ahead_ins (k_prio s) t (k_q s QReady)) s.

Lemma ahead_st_inv s t : KI (Some t) s -> KI None (ahead_st t s).
Proof.
  intros HI. set (s1 := upd_thd t (set_p_state THD_STATE_READY) s).
  assert (KI (Some t) s1) as HI1.
  { apply float_upd; [done|done|done|done|by left]. }
  assert (k_thd s1 t = set_p_state THD_STATE_READY (k_thd s t)) as Et
    by (simpl; apply fn_insert_eq).
  apply (enqueue idle s1 t QReady); try done.
  - by rewrite Et.
  - by rewrite Et.
  - apply Lst.ahead_ins_perm.
  - intros _. apply Lst.ahead_ins_sorted. by apply (i_sorted _ _ _ HI1).
Qed.

(** What the ready list and the priorities become. *)
Lemma ready_st_fields t s :
  k_curr (ready_st t s) = k_curr s /\ k_rprio (ready_st t s) = k_rprio s /\
  (forall u, k_prio (ready_st t s) u = k_prio s u) /\
  (forall u, u ∈ k_q (ready_st t s) QReady <-> u = t \/ u ∈ k_q s QReady) /\
  k_vt (ready_st t s) = k_vt s.
Proof.
  split_and!; try done.
  - intros u. unfold k_prio, ready_st. simpl. rewrite fn_insert_dec.
    by case_decide; subst.
  - intros u. unfold ready_st. simpl. rewrite fn_insert_eq, Lst.prio_ins_perm.
    apply elem_of_cons.
Qed.

Lemma ahead_st_fields t s :
  k_curr (ahead_st t s) = k_curr s /\ k_rprio (ahead_st t s) = k_rprio s /\
  (forall u, k_prio (ahead_st t s) u = k_prio s u) /\
  (forall u, u ∈ k_q (ahead_st t s) QReady <-> u = t \/ u ∈ k_q s QReady) /\
  k_vt (ahead_st t s) = k_vt s.
Proof.
  split_and!; try done.
  - intros u. unfold k_prio, ahead_st. simpl. rewrite fn_insert_dec.
    by case_decide; subst.
  - intros u. unfold ahead_st. simpl. rewrite fn_insert_eq, Lst.ahead_ins_perm.
    apply elem_of_cons.
Qed.

Section Resched.
Variables (s : kstate) (n : tid) (l : list tid).
Hypothesis HL : locked_I s.
Hypothesis HI : KI None s.
Hypothesis Hq : k_q s QReady = n :: l.

Let c := k_curr s.
Definition behind_res : kstate :=
  ready_st c (renew c (make_current n (upd_q QReady l s))).
Definition ahead_res : kstate := ahead_st c (make_current n (upd_q QReady l s)).

Lemma dispatch_prio u : k_prio (make_current n (upd_q QReady l s)) u = k_prio s u.
Proof.
  unfold k_prio. simpl. rewrite fn_insert_dec. by case_decide; subst.
Qed.

Lemma renew_float_inv t s0 : KI (Some t) s0 -> KI (Some t) (renew t s0).
Proof.
  intros HI0. rewrite renew_eq.
  assert (forall th, p_state (renew_th th) = p_state th) as Es
    by (intros; unfold renew_th; by destruct (0 <? CH_TIME_QUANTUM)).
  apply float_upd; [done| | | |].
  - intros th. unfold renew_th. by destruct (0 <? CH_TIME_QUANTUM).
  - rewrite Es. by apply (i_float _ _ _ HI0 t).
  - rewrite Es. intros Hv. by apply (i_timer _ _ _ HI0).
  - rewrite Es. intros ->. apply (i_idle _ _ _ HI0).
Qed.

Lemma behind_res_inv : KI None behind_res.
Proof. apply ready_st_inv, renew_float_inv. by apply dispatch_inv. Qed.

Lemma ahead_res_inv : KI None ahead_res.
Proof. apply ahead_st_inv. by apply dispatch_inv. Qed.

Lemma renew_fields t s0 :
  k_curr (renew t s0) = k_curr s0 /\ k_rprio (renew t s0) = k_rprio s0 /\
  (forall u, k_prio (renew t s0) u = k_prio s0 u) /\
  k_q (renew t s0) = k_q s0 /\ k_vt (renew t s0) = k_vt s0 /\
  (forall u, p_state (k_thd (renew t s0) u) = p_state (k_thd s0 u)) /\
  (locked_I (renew t s0) <-> locked_I s0).
Proof.
  unfold renew, k_prio. destruct (0 <? CH_TIME_QUANTUM); [|done].
  split_and!; try done; intros u; simpl; rewrite fn_insert_dec;
    by case_decide; subst.
Qed.

Lemma chSchDoRescheduleBehind_eq :
  chSchDoRescheduleBehind s = Suspend AtSwitch behind_res (fun s' => Done tt s').
Proof.
  destruct (dispatch_ne s n l HI Hq) as [Hnc _].
  pose proof (dispatch_inv s n l HI Hq) as HD.
  assert (p_state (k_thd (make_current n (upd_q QReady l s)) c) = THD_STATE_CURRENT) as Ec
    by (simpl; rewrite fn_insert_ne by done; apply (i_cur _ _ _ HI)).
  destruct (renew_fields c (make_current n (upd_q QReady l s)))
    as (_ & Er & _ & _ & _ & Es & El).
  assert (chSchReadyI c (renew c (make_current n (upd_q QReady l s))) =
          Done c behind_res) as Hr.
  { apply chSchReadyI_ok; [by apply El|by apply renew_float_inv|].
    rewrite Es, Ec. done. }
  unfold chSchDoRescheduleBehind, bind, fifo_remove. simpl. rewrite Hq. simpl.
  unfold renew in Hr. destruct (0 <? CH_TIME_QUANTUM); simpl; fold c;
    unfold make_current in Hr; simpl in Hr; by rewrite Hr.
Qed.

Lemma chSchDoRescheduleAhead_eq :
  chSchDoRescheduleAhead s = Suspend AtSwitch ahead_res (fun s' => Done tt s').
Proof.
  unfold chSchDoRescheduleAhead, bind, fifo_remove. simpl. rewrite Hq. simpl.
  unfold insert_by. rewrite ahead_scan_ok; [done|apply (i_rprio _ _ _ HI)|].
  unfold k_prio. simpl. destruct (dispatch_ne s n l HI Hq) as [Hnc _].
  rewrite fn_insert_eq. simpl. rewrite fn_insert_ne by done.
  apply (currprio_pos None s HI).
Qed.

(** The new running thread dominates if it dominated the old one. *)
Lemma resched_HP s' :
  k_curr s' = n -> k_rprio s' = NOPRIO ->
  (forall u, k_prio s' u = k_prio s u) ->
  (forall u, u ∈ k_q s' QReady <-> u = c \/ u ∈ l) ->
  currprio s <= k_prio s n -> HP s'.
Proof.
  intros Ec Er Ep Eq Hle. unfold currprio in Hle.
  pose proof (currprio_pos None s HI) as Hpos. unfold currprio in Hpos.
  apply HP_intro; [done| |].
  - unfold currprio. rewrite Ec, Ep. fold c in Hle, Hpos. lia.
  - intros u. rewrite Eq. unfold currprio. rewrite !Ep, Ec.
    intros [->|Hu]; [done|].
    pose proof (i_sorted _ _ _ HI QReady eq_refl) as Hs. rewrite Hq in Hs.
    apply (Lst.psorted_head _ _ _ u Hs). set_solver.
Qed.

Lemma behind_res_HP : currprio s <= k_prio s n -> HP behind_res.
Proof.
  unfold behind_res. set (s1 := make_current n (upd_q QReady l s)).
  destruct (renew_fields c s1) as (R1 & R2 & R3 & R4 & _).
  destruct (ready_st_fields c (renew c s1)) as (F1 & F2 & F3 & F4 & _).
  apply resched_HP.
  - by rewrite F1, R1.
  - rewrite F2, R2. apply (i_rprio _ _ _ HI).
  - intros u. rewrite F3, R3. apply dispatch_prio.
  - intros u. rewrite F4, R4. simpl. by rewrite fn_insert_eq.
Qed.

Lemma ahead_res_HP : currprio s <= k_prio s n -> HP ahead_res.
Proof.
  unfold ahead_res. set (s1 := make_current n (upd_q QReady l s)).
  destruct (ahead_st_fields c s1) as (F1 & F2 & F3 & F4 & _).
  apply resched_HP.
  - by rewrite F1.
  - rewrite F2. apply (i_rprio _ _ _ HI).
  - intros u. rewrite F3. apply dispatch_prio.
  - intros u. rewrite F4. simpl. by rewrite fn_insert_eq.
Qed.
End Resched.
End Sched.
