(* ===== verification/Rules.v ===== *)
(** * Rely, guarantee and the proof rules of kernel code

    A thread that calls the kernel sees the state change under it at two
    kinds of points: while it is switched out, and after it has released the
    lock.  [grd] is what the kernel guarantees there, [rely] what a thread
    finds when it goes on.  Both carry an arbitrary invariant [J] of the data
    the scheduler does not touch ([kdata]), so that the components built on
    the scheduler add their own.

    The rules give, for every scheduling primitive, the safety of the call
    from the safety of what follows it. *)
From S2P Require Import Prelude Monad Types ThdLists VT Sched Sem Mtx.
From S2P Require Import Inv InvPrim InvSched.

Implicit Types (s : kstate) (t u c n : tid) (q : qid) (l : list tid) (st : tstate).

Definition kdata s :=
  (k_es s, k_el s, k_mb s, k_ioq s, k_mem s, k_nextmem s, k_endmem s, k_heap s, k_pool s).
Definition kdata_t : Type :=
  (Z -> list Z) * (Z -> EventListener) * (Z -> Mailbox) * (Z -> IOQueue) *
  (Z -> Z) * Z * Z * (Z -> option memget) * (Z -> MemoryPool).

(** The mutexes a thread owns when it runs again: one more if it was switched
    out waiting for one. *)
Definition gain st (u : punion) (ml : list mid) : list mid :=
  match st, u_wtobjp u with
  | THD_STATE_WTMTX, Some (QMtx mp) => mp :: ml
  | _, _ => ml
  end.
Definition granted (th : Thread) : list mid := gain (p_state th) (p_u th) (p_mtxlist th).

Lemma gain_other st (pu : punion) ml : st <> THD_STATE_WTMTX -> gain st pu ml = ml.
Proof. by destruct st. Qed.

Ltac sp_solve :=
  split; intros; unfold k_prio; simpl; rewrite ?fn_insert_dec;
  repeat case_decide; by subst.

(** What the thread that ends the wait of [t] in state [st] has seen to. *)
Definition woken `{Config} st (pu : punion) t s : Prop :=
  match st with
  | THD_STATE_WTMSG => k_q s (QMsg t) <> []
  | THD_STATE_WTOREVT => Z.land (p_epending (k_thd s t)) (u_ewmask pu) <> 0
  | THD_STATE_WTANDEVT => Z.land (p_epending (k_thd s t)) (u_ewmask pu) = u_ewmask pu
  | _ => True
  end.

Section Rules.
Context `{Config}.
Variable idle : tid.
Variable J : kdata_t -> Prop.
Local Abbreviation KI := (KInv idle).

(** The data invariant and the bound on priorities. *)
Definition DU s : Prop := J (kdata s) /\ UB s.

Lemma DU_ext s s' : kdata s' = kdata s -> same_prio s s' -> DU s -> DU s'.
Proof.
  intros E Hs [HJ HU]. split; [by rewrite E|by apply (same_prio_UB s)].
Qed.

Definition grd (w : susp) s : Prop :=
  KI None s /\ HP s /\ DU s /\
  match w with
  | AtSwitch => locked_S s
  | AtUnlock => unlocked s /\ no_timer s
  end.

Definition rely t (w : susp) s s' : Prop :=
  KI None s' /\ HP s' /\ DU s' /\ k_curr s' = t /\
  match w with
  | AtSwitch =>
      locked_S s' /\
      p_state (k_thd s t) <> THD_STATE_FINAL /\
      (vt_func (k_vt s (VTStack t)) = None -> vt_func (k_vt s' (VTStack t)) = None) /\
      p_mtxlist (k_thd s' t) = granted (k_thd s t) /\
      (vt_func (k_vt s (VTStack t)) = None \/ RDY_OK <= u_rdymsg (p_u (k_thd s' t)) ->
       woken (p_state (k_thd s t)) (p_u (k_thd s t)) t s')
  | AtUnlock =>
      unlocked s' /\ no_timer s' /\ p_mtxlist (k_thd s' t) = p_mtxlist (k_thd s t)
  end.

(** Thread [t] running, owning the mutexes [ml]: outside the kernel, inside
    with a reschedule possibly due, and inside with none due; [Mst0] says nothing of the priorities. *)
Definition Ust t (ml : list mid) s : Prop :=
  KI None s /\ HP s /\ DU s /\ k_curr s = t /\ unlocked s /\ no_timer s /\
  p_mtxlist (k_thd s t) = ml.
Definition Mst0 t (ml : list mid) s : Prop :=
  KI None s /\ J (kdata s) /\ k_curr s = t /\ locked_S s /\ no_timer s /\
  p_mtxlist (k_thd s t) = ml.
Definition Mst t (ml : list mid) s : Prop :=
  KI None s /\ DU s /\ k_curr s = t /\ locked_S s /\ no_timer s /\
  p_mtxlist (k_thd s t) = ml.
Definition Sst t (ml : list mid) s : Prop := Mst t ml s /\ HP s.

Abbreviation safe t := (osafe grd (rely t)).

(** ** The lock *)

Lemma chSysLock_rule t ml s :
  Ust t ml s ->
  exists s', chSysLock s = Done tt s' /\ s' = with_lock 1 s /\ Sst t ml s'.
Proof.
  intros (HI & Hhp & HJ & Hc & HU & Hn & Hm). exists (with_lock 1 s).
  rewrite chSysLock_ok by done. split; [done|]. split; [done|].
  destruct (with_lock_fields 1 s) as (E1 & E2 & E3 & E4 & E5).
  split; [split_and!|].
  - by apply KInv_lock.
  - revert HJ. apply DU_ext; unfold with_lock; by destruct CH_DBG_SYSTEM_STATE_CHECK.
  - congruence.
  - by apply with_lock_locked.
  - unfold no_timer in *. congruence.
  - by rewrite E1.
  - unfold HP, firstprio, currprio, k_prio in *. by rewrite E1, E2, E3, E4.
Qed.

Lemma chSysUnlock_rule t ml s (Q : unit -> kstate -> Prop) :
  Sst t ml s -> (forall s', Ust t ml s' -> Q tt s') -> safe t Q (chSysUnlock s).
Proof.
  intros [(HI & HJ & Hc & HL & Hn & Hm) Hhp] HQ.
  rewrite chSysUnlock_ok by done.
  destruct (with_lock_fields 0 s) as (E1 & E2 & E3 & E4 & E5). split.
  - split_and!.
    + by apply KInv_lock.
    + unfold HP, firstprio, currprio, k_prio in *. by rewrite E1, E2, E3, E4.
    + revert HJ. apply DU_ext; unfold with_lock; by destruct CH_DBG_SYSTEM_STATE_CHECK.
    + by apply with_lock_unlocked.
    + unfold no_timer in *. congruence.
  - intros s' (HI' & Hhp' & HJ' & Hc' & HU' & Hn' & Hm'). apply HQ.
    split_and!; try done. by rewrite Hm', E1.
Qed.

(** The frame of an API function: lock, body, unlock. *)
Lemma locked_rule {A} t ml s (m : KM A) (Q : A -> kstate -> Prop) :
  Ust t ml s ->
  (forall s', Sst t ml s' ->
     safe t (fun a s'' => exists ml', Sst t ml' s'' /\
               (forall s3, Ust t ml' s3 -> Q a s3)) (m s')) ->
  safe t Q ((chSysLock ;;; let! a := m in chSysUnlock ;;; mret' a) s).
Proof.
  intros HU Hm. destruct (chSysLock_rule t ml s HU) as (s' & E & _ & HS).
  unfold bind at 1. rewrite E. simpl. apply osafe_bind.
  eapply osafe_mono; [|by apply Hm]. intros a s'' (ml' & HS' & HQ).
  apply osafe_bind. by apply (chSysUnlock_rule t ml').
Qed.

(** The same rules with a continuation. *)
Lemma lock_bind {A} t ml s (k : unit -> KM A) (Q : A -> kstate -> Prop) :
  Ust t ml s ->
  (Sst t ml (with_lock 1 s) -> safe t Q (k tt (with_lock 1 s))) ->
  safe t Q ((let! x := chSysLock in k x) s).
Proof.
  intros HU Hk. destruct (chSysLock_rule t ml s HU) as (s' & E & -> & HS).
  rewrite (done_bind _ _ _ _ _ E). auto.
Qed.

Lemma unlock_bind {A} t ml s (k : unit -> KM A) (Q : A -> kstate -> Prop) :
  Sst t ml s -> (forall s', Ust t ml s' -> safe t Q (k tt s')) ->
  safe t Q ((let! x := chSysUnlock in k x) s).
Proof. intros HS Hk. apply osafe_bind. by apply (chSysUnlock_rule t ml). Qed.

(** ** Rescheduling *)

Lemma same_prio_ready t s : same_prio s (ready_st t s).
Proof. sp_solve. Qed.
Lemma same_prio_ahead t s : same_prio s (ahead_st t s).
Proof. sp_solve. Qed.
Lemma same_prio_current t s : same_prio s (make_current t s).
Proof. sp_solve. Qed.
Lemma same_prio_renew t s : same_prio s (renew t s).
Proof. unfold renew. destruct (0 <? CH_TIME_QUANTUM); [sp_solve|done]. Qed.
Lemma same_prio_pop l s : same_prio s (upd_q QReady l s).
Proof. sp_solve. Qed.

(** What a thread preempted in state READY finds. *)
Lemma resumed_ready t ml s s' :
  rely t AtSwitch s s' -> p_state (k_thd s t) = THD_STATE_READY ->
  vt_func (k_vt s (VTStack t)) = None -> p_mtxlist (k_thd s t) = ml ->
  Sst t ml s'.
Proof.
  intros (HI & Hhp & HJ & Hc & HL & _ & Hv & Hm & _) Hr Hn Hml.
  split; [split_and!; try done|done].
  - unfold no_timer. rewrite Hc. auto.
  - rewrite Hm. unfold granted. by rewrite Hr.
Qed.

Lemma ahead_res_fields s n l :
  n <> k_curr s ->
  p_state (k_thd (ahead_res s n l) (k_curr s)) = THD_STATE_READY /\
  p_mtxlist (k_thd (ahead_res s n l) (k_curr s)) = p_mtxlist (k_thd s (k_curr s)).
Proof.
  intros Hn. unfold ahead_res, ahead_st. simpl. rewrite fn_insert_eq.
  simpl. by rewrite fn_insert_ne.
Qed.

Lemma behind_res_fields s n l :
  n <> k_curr s ->
  p_state (k_thd (behind_res s n l) (k_curr s)) = THD_STATE_READY /\
  p_mtxlist (k_thd (behind_res s n l) (k_curr s)) = p_mtxlist (k_thd s (k_curr s)) /\
  kdata (behind_res s n l) = kdata s /\
  k_vt (behind_res s n l) = k_vt s /\
  (locked_S s -> locked_S (behind_res s n l)).
Proof.
  intros Hn. unfold behind_res, ready_st, renew. simpl.
  destruct (0 <? CH_TIME_QUANTUM); simpl; rewrite fn_insert_eq; simpl;
    rewrite ?fn_insert_eq; simpl; by rewrite fn_insert_ne.
Qed.

Lemma chSchDoRescheduleAhead_rule t ml s n l (Q : unit -> kstate -> Prop) :
  Mst t ml s -> k_q s QReady = n :: l -> currprio s <= k_prio s n ->
  (forall s', Sst t ml s' -> Q tt s') ->
  safe t Q (chSchDoRescheduleAhead s).
Proof.
  intros (HI & HJ & Hc & HL & Hn & Hm) Hq Hp HQ.
  destruct (dispatch_ne idle s n l HI Hq) as [Hne _].
  destruct (ahead_res_fields s n l Hne) as [F1 F2].
  rewrite (chSchDoRescheduleAhead_eq idle s n l) by done. split.
  - split_and!; [by apply ahead_res_inv|apply (ahead_res_HP idle); auto with chibi| |done].
    revert HJ. apply DU_ext; [done|].
    eapply same_prio_trans; [apply (same_prio_pop l)|].
    eapply same_prio_trans; [apply (same_prio_current n)|apply same_prio_ahead].
  - intros s' HR. apply HQ. subst t.
    apply (resumed_ready _ _ _ _ HR); [done|exact Hn|congruence].
Qed.

Lemma chSchDoRescheduleBehind_rule t ml s n l (Q : unit -> kstate -> Prop) :
  Mst t ml s -> k_q s QReady = n :: l -> currprio s <= k_prio s n ->
  (forall s', Sst t ml s' -> Q tt s') ->
  safe t Q (chSchDoRescheduleBehind s).
Proof.
  intros (HI & HJ & Hc & HL & Hn & Hm) Hq Hp HQ.
  destruct (dispatch_ne idle s n l HI Hq) as [Hne _].
  destruct (behind_res_fields s n l Hne) as (F1 & F2 & F3 & F4 & F5).
  rewrite (chSchDoRescheduleBehind_eq idle s n l) by auto with chibi. split.
  - split_and!; [by apply behind_res_inv|apply (behind_res_HP idle); auto with chibi| |by apply F5].
    revert HJ. apply DU_ext; [done|].
    eapply same_prio_trans; [apply (same_prio_pop l)|].
    eapply same_prio_trans; [apply (same_prio_current n)|].
    eapply same_prio_trans; [apply same_prio_renew|apply same_prio_ready].
  - intros s' HR. apply HQ. subst t.
    apply (resumed_ready _ _ _ _ HR); [done|rewrite F4; exact Hn|congruence].
Qed.

(** The first ready thread when its priority is above a positive bound. *)
Lemma firstprio_cons s p :
  KI None s -> NOPRIO < p -> p <= firstprio s ->
  exists n l, k_q s QReady = n :: l /\ p <= k_prio s n.
Proof.
  intros HI Hp Hle. unfold firstprio in Hle.
  destruct (k_q s QReady) as [|n l] eqn:Hq; [|eauto].
  pose proof (i_rprio _ _ _ HI). lia.
Qed.

Lemma chSchRescheduleS_rule t ml s (Q : unit -> kstate -> Prop) :
  Mst t ml s -> (forall s', Sst t ml s' -> Q tt s') ->
  safe t Q (chSchRescheduleS s).
Proof.
  intros HM HQ. pose proof HM as (HI & HJ & Hc & HL & Hn & Hm).
  unfold chSchRescheduleS, bind. rewrite chDbgCheckClassS_ok by done. simpl.
  unfold chSchIsRescRequiredI. destruct (currprio s <? firstprio s) eqn:Hlt.
  - apply Z.ltb_lt in Hlt. pose proof (currprio_pos idle None s HI).
    destruct (firstprio_cons s (currprio s)) as (n & l & Hq & Hp); [done|lia..|].
    by apply (chSchDoRescheduleAhead_rule t ml s n l).
  - apply Z.ltb_ge in Hlt. apply HQ. by split.
Qed.

Lemma chSchDoYieldS_rule t ml s (Q : unit -> kstate -> Prop) :
  Sst t ml s -> (forall s', Sst t ml s' -> Q tt s') ->
  safe t Q (chSchDoYieldS s).
Proof.
  intros [HM Hhp] HQ. pose proof HM as (HI & _).
  unfold chSchDoYieldS, chSchCanYieldS. destruct (currprio s <=? firstprio s) eqn:Hle.
  - apply Z.leb_le in Hle. pose proof (currprio_pos idle None s HI).
    destruct (firstprio_cons s (currprio s)) as (n & l & Hq & Hp); [done|lia..|].
    by apply (chSchDoRescheduleBehind_rule t ml s n l).
  - by apply HQ.
Qed.

(** ** Waking a thread *)

(** Thread [t] running with thread [w] taken off its queue. *)
Definition Fst t (ml : list mid) w s : Prop :=
  KI (Some w) s /\ DU s /\ k_curr s = t /\ locked_S s /\ no_timer s /\
  p_mtxlist (k_thd s t) = ml /\
  p_state (k_thd s w) <> THD_STATE_READY.

Lemma set_p_u_float w s (u : punion) :
  KI (Some w) s -> KI (Some w) (upd_thd w (set_p_u u) s).
Proof.
  intros HI. apply float_upd; [done|done| | |].
  - by apply (i_float _ _ _ HI w).
  - intros Hv. by apply (i_timer _ _ _ HI).
  - intros ->. apply (i_idle _ _ _ HI).
Qed.

Lemma set_p_u_Fst t ml w s (u : punion) :
  Fst t ml w s -> Fst t ml w (upd_thd w (set_p_u u) s).
Proof.
  intros (HI & HJ & Hc & HL & Hn & Hm & Hr).
  split_and!; try done; [by apply set_p_u_float|..];
    try (simpl; rewrite fn_insert_dec; case_decide; by subst).
  revert HJ. apply DU_ext; [done|]. by apply same_prio_upd.
Qed.

(** [chSchReadyI(w)] from a thread or a handler. *)
Lemma chSchReadyI_rule t ml w s :
  Fst t ml w s -> chSchReadyI w s = Done w (ready_st w s) /\ Mst t ml (ready_st w s).
Proof.
  intros (HI & HJ & Hc & HL & Hn & Hm & Hr).
  destruct (chSchReadyI_ok idle s w) as [E HI']; [auto with chibi|done|done|].
  split; [done|]. split_and!; try done.
  - revert HJ. apply DU_ext; [done|apply same_prio_ready].
  - unfold ready_st. simpl. rewrite fn_insert_dec. case_decide; by subst.
Qed.

Lemma ready_st_HP w s :
  KI (Some w) s -> HP s -> k_prio s w <= currprio s -> HP (ready_st w s).
Proof.
  intros HI Hhp Hle. destruct (ready_st_fields w s) as (F1 & F2 & F3 & F4 & _).
  pose proof (currprio_pos idle _ s HI).
  apply HP_intro; [rewrite F2; apply (i_rprio _ _ _ HI)| |].
  - unfold currprio. rewrite F1, F3. unfold currprio in *. lia.
  - intros u. rewrite F4. unfold currprio. rewrite F1, !F3.
    intros [->|Hu]; [done|]. by apply (HP_elim idle (Some w)).
Qed.

(** The state in which [chSchWakeupS] switches to [w]. *)
Definition wakeup_res w s : kstate := make_current w (ready_st (k_curr s) s).

Lemma wakeup_res_keq w s :
  w <> k_curr s -> keq (wakeup_res w s) (ready_st (k_curr s) (make_current w s)).
Proof.
  intros Hw.
  assert (forall u, k_prio (upd_thd (k_curr s) (set_p_state THD_STATE_READY) s) u =
    k_prio (upd_thd (k_curr s) (set_p_state THD_STATE_READY) (make_current w s)) u) as Ep.
  { intros u. unfold k_prio. simpl. rewrite !fn_insert_dec.
    repeat case_decide; by subst. }
  split; try done; intros u; simpl; rewrite ?fn_insert_dec;
    repeat case_decide; subst; try done.
  by apply Lst.prio_ins_ext.
Qed.

(** The ready threads are dominated by the running thread or by [w]. *)
Definition HPw w s : Prop :=
  forall u, u ∈ k_q s QReady -> k_prio s u <= Z.max (currprio s) (k_prio s w).

Lemma HP_HPw fl w s : KI fl s -> HP s -> HPw w s.
Proof. intros HI Hhp u Hu. pose proof (HP_elim idle fl s u HI Hhp Hu). lia. Qed.

(** The switch to a thread of higher priority. *)
Lemma wakeup_switch t ml w s (Q : unit -> kstate -> Prop) :
  Fst t ml w s -> HPw w s -> currprio s < k_prio s w ->
  (forall s', Sst t ml s' -> Q tt s') ->
  safe t Q (Suspend AtSwitch (wakeup_res w s) (fun s' => Done tt s')).
Proof.
  intros (HI & HJ & Hc & HL & Hn & Hm & Hr) Hhp Hlt HQ.
  pose proof (i_float _ _ _ HI w eq_refl) as (_ & _ & Hwc & _).
  assert (KI None (wakeup_res w s)) as HIr.
  { rewrite wakeup_res_keq by done. by apply ready_st_inv, make_current_inv. }
  assert (same_prio s (wakeup_res w s)) as Hsp.
  { eapply same_prio_trans; [apply (same_prio_ready (k_curr s))|apply same_prio_current]. }
  destruct (ready_st_fields (k_curr s) s) as (F1 & F2 & F3 & F4 & _). split.
  - split_and!; try done.
    + apply HP_intro; [apply (i_rprio _ _ _ HI)| |].
      * pose proof (currprio_pos idle _ _ HIr). lia.
      * intros u Hu. unfold currprio in *. rewrite !(sp_prio _ _ Hsp).
        change (k_curr (wakeup_res w s)) with w.
        apply F4 in Hu as [->|Hu]; [lia|]. specialize (Hhp u Hu). unfold currprio in *. lia.
    + by apply (DU_ext s).
  - intros s' HR. apply HQ. apply (resumed_ready _ _ _ _ HR).
    + rewrite <-Hc. simpl. rewrite fn_insert_ne by done. by rewrite fn_insert_eq.
    + unfold no_timer in Hn. by rewrite Hc in Hn.
    + rewrite <-Hm, <-Hc. simpl. rewrite fn_insert_ne by done. by rewrite fn_insert_eq.
Qed.

Lemma chSchWakeupS_rule' t ml w msg s (Q : unit -> kstate -> Prop) :
  Fst t ml w s -> HPw w s -> (forall s', Sst t ml s' -> Q tt s') ->
  safe t Q (chSchWakeupS w msg s).
Proof.
  intros HF Hhp HQ. pose proof HF as (HI & HJ & Hc & HL & Hn & Hm & Hr).
  unfold chSchWakeupS. rewrite classS_bind by done. unfold bind at 1.
  cbn [set_thd modify obind]. set (s2 := upd_thd w (set_p_u (U_msg msg)) s).
  pose proof (set_p_u_Fst t ml w s (U_msg msg) HF : Fst t ml w s2) as HF2.
  assert (same_prio s s2) as Hsp by (by apply same_prio_upd).
  assert (HPw w s2) as Hhp2.
  { intros u Hu. unfold currprio. rewrite !(sp_prio _ _ Hsp). by apply Hhp. }
  pose proof HF2 as (HI2 & _ & Hc2 & HL2 & _).
  destruct (Z.leb_spec (k_prio s2 w) (currprio s2)) as [Hle|Hlt].
  - destruct (chSchReadyI_rule t ml w s2 HF2) as [E HM].
    rewrite (done_bind _ _ _ _ _ E). apply HQ. split; [done|].
    apply ready_st_HP; [done| |done].
    apply HP_intro; [apply (i_rprio _ _ _ HI2)| |].
    + pose proof (currprio_pos idle _ s2 HI2). lia.
    + intros u Hu. specialize (Hhp2 u Hu). lia.
  - assert (chSchReadyI (k_curr s2) s2 = Done (k_curr s2) (ready_st (k_curr s2) s2)) as E.
    { apply chSchReadyI_eq; [auto with chibi|apply (i_rprio _ _ _ HI2)|
        apply (currprio_pos idle _ s2 HI2)|by rewrite (i_cur _ _ _ HI2)..]. }
    unfold bind, currp, gets. cbn [obind]. rewrite E.
    by apply (wakeup_switch t ml w s2 Q).
Qed.

Lemma chSchWakeupS_rule t ml w msg s (Q : unit -> kstate -> Prop) :
  Fst t ml w s -> HP s -> (forall s', Sst t ml s' -> Q tt s') ->
  safe t Q (chSchWakeupS w msg s).
Proof.
  intros HF Hhp. apply chSchWakeupS_rule'; [done|]. by apply (HP_HPw (Some w)), Hhp; apply HF.
Qed.

(** ** Going to sleep *)

Lemma Mst_weak t ml s : Mst t ml s -> Mst0 t ml s.
Proof. intros (? & [? ?] & ? & ? & ? & ?). by split_and!. Qed.

(** [s0] is [s] up to the state of the timers. *)
Definition vt_variant s s0 : Prop :=
  s0 = s \/ exists L V, s0 = set_k_vtl L (set_k_vt V s).

(** [g] is what a function does between the point where it decides to
    block and the call that puts the running thread to sleep in [st]. *)
Record sleeper st (g : kstate -> kstate) s : Prop := {
  sl_inv : forall s0, vt_variant s s0 -> KI None s0 ->
    (vt_func (k_vt s0 (VTStack (k_curr s))) <> None -> timed_state st) ->
    forall n l, k_q s QReady = n :: l -> KI None (sleep_st st n l (g s0));
  sl_comm : forall L V, g (set_k_vtl L (set_k_vt V s)) = set_k_vtl L (set_k_vt V (g s));
  sl_frame : k_q (g s) QReady = k_q s QReady /\ k_curr (g s) = k_curr s /\
    k_rprio (g s) = k_rprio s /\ (forall u, k_prio (g s) u = k_prio s u) /\
    kdata (g s) = kdata s /\ k_vt (g s) = k_vt s /\ k_vtl (g s) = k_vtl s /\
    k_vth (g s) = k_vth s /\
    k_lock_cnt (g s) = k_lock_cnt s /\ k_isr_cnt (g s) = k_isr_cnt s;
  sl_mtx : p_mtxlist (k_thd (g s) (k_curr s)) = p_mtxlist (k_thd s (k_curr s));
  sl_ub : UB (g s);
  sl_live : st <> THD_STATE_FINAL
}.

Lemma sleep_st_fields st n l s :
  n <> k_curr s ->
  k_curr (sleep_st st n l s) = n /\ k_rprio (sleep_st st n l s) = k_rprio s /\
  k_q (sleep_st st n l s) QReady = l /\
  (forall u, k_prio (sleep_st st n l s) u = k_prio s u) /\
  kdata (sleep_st st n l s) = kdata s /\ k_vt (sleep_st st n l s) = k_vt s /\
  k_lock_cnt (sleep_st st n l s) = k_lock_cnt s /\
  k_isr_cnt (sleep_st st n l s) = k_isr_cnt s /\
  let th := k_thd (sleep_st st n l s) (k_curr s) in
  p_state th = st /\ p_u th = p_u (k_thd s (k_curr s)) /\
  p_mtxlist th = p_mtxlist (k_thd s (k_curr s)).
Proof.
  intros Hn. unfold sleep_st, renew.
  destruct (0 <? CH_TIME_QUANTUM); cbn zeta; ksimpl; rewrite ?fn_insert_eq;
    (split_and!; try done);
    try (intros u; unfold k_prio; simpl; rewrite !fn_insert_dec;
         repeat case_decide; by subst);
    simpl; rewrite fn_insert_ne by done; by rewrite !fn_insert_eq.
Qed.

Lemma same_prio_sleep st n l s : same_prio s (sleep_st st n l s).
Proof. unfold sleep_st, renew. destruct (0 <? CH_TIME_QUANTUM); sp_solve. Qed.

Lemma sleep_HP s0 s st n l :
  KI None s0 -> k_q s0 QReady = n :: l -> n <> k_curr s -> k_rprio s = k_rprio s0 ->
  (forall u, k_prio s u = k_prio s0 u) -> HP (sleep_st st n l s).
Proof.
  intros HI Hq Hn Er Ep.
  destruct (sleep_st_fields st n l s Hn) as (F1 & F2 & F3 & F4 & _).
  assert (NOPRIO < k_prio s0 n) as Hpos.
  { apply (i_prio _ _ _ HI).
    assert (n ∈ k_q s0 QReady) as Hin by (rewrite Hq; set_solver).
    apply (inv_placed idle _ _ _ HI), home_state in Hin. tauto. }
  unfold currprio. apply HP_intro.
  - rewrite F2, Er. apply (i_rprio _ _ _ HI).
  - unfold currprio. rewrite F1, F4, Ep. lia.
  - intros u. rewrite F3. unfold currprio. rewrite F1, !F4, !Ep. intros Hu.
    pose proof (i_sorted _ _ _ HI QReady eq_refl) as Hs. rewrite Hq in Hs.
    apply (Lst.psorted_head _ _ _ u Hs). set_solver.
Qed.

(** The switch itself, from any variant of the timers. *)
Lemma sleep_switch t ml st g s s0 (Q : unit -> kstate -> Prop) :
  Mst0 t ml s -> t <> idle -> sleeper st g s ->
  vt_variant s s0 -> KI None s0 ->
  (vt_func (k_vt s0 (VTStack t)) <> None -> timed_state st) ->
  (forall s', KI None s' -> HP s' -> DU s' -> k_curr s' = t -> locked_S s' ->
     (vt_func (k_vt s0 (VTStack t)) = None -> no_timer s') ->
     p_mtxlist (k_thd s' t) = gain st (p_u (k_thd (g s0) t)) ml ->
     (vt_func (k_vt s0 (VTStack t)) = None \/ RDY_OK <= u_rdymsg (p_u (k_thd s' t)) ->
      woken st (p_u (k_thd (g s0) t)) t s') -> Q tt s') ->
  safe t Q (chSchGoSleepS st (g s0)).
Proof.
  intros (HI & HJ & Hc & HL & Hn & Hm) Hid [Sinv Scomm Sfr Sm Su Sf] Hv HI0 Htim HQ.
  destruct (idle_ready idle s HI) as (n & l & Hq); [congruence|].
  destruct (dispatch_ne idle s n l HI Hq) as [Hne _].
  assert (let g0 := g s0 in
    k_q g0 QReady = k_q s QReady /\ k_curr g0 = k_curr s /\
    k_rprio g0 = k_rprio s /\ (forall u, k_prio g0 u = k_prio s u) /\
    kdata g0 = kdata s /\ k_vt g0 = k_vt s0 /\
    k_lock_cnt g0 = k_lock_cnt s /\ k_isr_cnt g0 = k_isr_cnt s /\
    p_mtxlist (k_thd g0 (k_curr s)) = p_mtxlist (k_thd s (k_curr s)) /\ UB g0) as
    (G1 & G2 & G3 & G4 & G5 & G6 & G7 & G8 & G9 & G10).
  { destruct Sfr as (? & ? & ? & ? & ? & ? & ? & ? & ? & ?).
    destruct Hv as [->|(L & V & ->)]; [by split_and!|].
    rewrite Scomm. split_and!; try done. by apply (same_prio_UB (g s)). }
  assert (locked_S (g s0)) as HLg.
  { unfold locked_S in *. by rewrite G7, G8. }
  rewrite (chSchGoSleepS_eq (g s0) st n l) by (done || congruence).
  destruct (sleep_st_fields st n l (g s0)) as
    (F1 & F2 & F3 & F4 & F5 & F6 & F7 & F8 & F9 & F10 & F11); [congruence|].
  rewrite G2, Hc in F9, F10, F11. rewrite Hc in *.
  split.
  - split_and!.
    + by apply Sinv.
    + apply (sleep_HP s); congruence.
    + split; [by rewrite F5, G5|]. apply (same_prio_UB (g s0)); [apply same_prio_sleep|done].
    + unfold locked_S in *. by rewrite F7, F8.
  - intros s' (HI' & Hhp' & HJ' & Hc' & HL' & _ & Hv' & Hm' & Hmsg').
    apply HQ; try done.
    + intros Hnone. unfold no_timer. rewrite Hc'. apply Hv'. by rewrite F6, G6.
    + rewrite Hm'. unfold granted. by rewrite F9, F10, F11, G9, Hm.
    + rewrite F6, F9, F10, G6 in Hmsg'. exact Hmsg'.
Qed.

Lemma chSchGoSleepS_rule t ml st g s (Q : unit -> kstate -> Prop) :
  Mst0 t ml s -> t <> idle -> sleeper st g s ->
  (forall s', Sst t (gain st (p_u (k_thd (g s) t)) ml) s' ->
     woken st (p_u (k_thd (g s) t)) t s' -> Q tt s') ->
  safe t Q (chSchGoSleepS st (g s)).
Proof.
  intros HM Hid HS HQ. pose proof HM as (HI & _ & Hc & _ & Hn & _).
  apply (sleep_switch t ml st g s s); try done.
  - by left.
  - unfold no_timer in Hn. rewrite <-Hc, Hn. done.
  - unfold no_timer in Hn. rewrite Hc in Hn.
    intros s' H1 H2 H3 H4 H5 H6 H7 H8. apply HQ; [|auto].
    split; [|done]. split_and!; auto.
Qed.

(** A change to the timers only. *)
Lemma vt_upd_inv fl s L V :
  KI fl s -> vt_wf (set_k_vtl L (set_k_vt V s)) ->
  (forall t, vt_func (V (VTStack t)) <> None ->
     vt_func (V (VTStack t)) = Some VF_wakeup /\ vt_par (V (VTStack t)) = t /\
     timed_state (p_state (k_thd s t))) ->
  KI fl (set_k_vtl L (set_k_vt V s)).
Proof. intros HI HW HT. kinv_open HI. split; kinv_same. Qed.

Lemma chVTResetI_inv s v :
  locked_I s -> KI None s -> vt_func (k_vt s v) <> None ->
  exists L V, let s' := set_k_vtl L (set_k_vt V s) in
    chVTResetI v s = Done tt s' /\ KI None s' /\ vt_func (V v) = None /\
    (forall u : vtid, u <> v -> vt_func (V u) = vt_func (k_vt s u) /\
                         vt_par (V u) = vt_par (k_vt s u)).
Proof.
  intros HL HI Hv.
  destruct (chVTResetI_spec s v) as (L & V & E & W & _ & Ev & Eo & _);
    [done|apply (i_vt _ _ _ HI)|done|].
  exists L, V. split_and!; try done. apply vt_upd_inv; [done..|].
  intros t. destruct (decide (VTStack t = v)) as [<-|Ht]; [congruence|].
  destruct (Eo (VTStack t) Ht) as [-> ->]. by apply (i_timer _ _ _ HI).
Qed.

Lemma vt_wf_ext s s' :
  k_vtl s' = k_vtl s -> k_vt s' = k_vt s -> k_vth s' = k_vth s -> vt_wf s -> vt_wf s'.
Proof. intros E1 E2 E3 []. split; by rewrite ?E1, ?E2, ?E3. Qed.

(** Arming the timer of the running thread in a state [s1] that differs
    from [s] in other fields than the timers. *)
Lemma arm_timer s s1 t time :
  k_vtl s1 = k_vtl s -> k_vt s1 = k_vt s -> k_vth s1 = k_vth s ->
  locked_I s1 -> KI None s -> vt_func (k_vt s (VTStack t)) = None ->
  0 < time < 2^32 -> timed_state (p_state (k_thd s t)) ->
  exists L V,
    chVTSetI (VTStack t) time VF_wakeup t s1 = Done tt (set_k_vtl L (set_k_vt V s1)) /\
    KI None (set_k_vtl L (set_k_vt V s)).
Proof.
  intros E1 E2 E3 HL HI Hv Ht Hst.
  destruct (chVTSetI_spec s1 (VTStack t) time VF_wakeup t)
    as (L & V & E & W & _ & Ef & Ep & Eo & _ & _); [done| |by rewrite E2|done|].
  { apply (vt_wf_ext s); try done. apply (i_vt _ _ _ HI). }
  exists L, V. split; [done|].
  apply vt_upd_inv; [done|by apply (vt_wf_ext (set_k_vtl L (set_k_vt V s1)))|].
  intros u Hu. destruct (decide (u = t)) as [->|Hne]; [done|].
  destruct (Eo (VTStack u)) as [Ea Eb]; [congruence|].
  rewrite Ea, Eb, E2 in *. by apply (i_timer _ _ _ HI).
Qed.

(** Disarming it on the way back. *)
Lemma disarm_rule t ml s :
  KI None s -> HP s -> DU s -> k_curr s = t -> locked_S s ->
  p_mtxlist (k_thd s t) = ml ->
  exists s', (whenb chVTIsArmedI s (VTStack t) then chVTResetI (VTStack t)) s = Done tt s' /\
    Sst t ml s' /\ k_thd s' = k_thd s /\ k_mtx s' = k_mtx s.
Proof.
  intros HI Hhp HJ Hc HL Hm. unfold chVTIsArmedI. case_bool_decide as Hv.
  - destruct (chVTResetI_inv s (VTStack t)) as (L & V & E & HI' & Ev & _);
      [auto with chibi|done..|]. cbn zeta in *.
    eexists. split; [exact E|]. split; [|done]. split; [|done].
    split_and!; try done; [by apply (DU_ext s)|].
    unfold no_timer. simpl. by rewrite Hc.
  - exists s. split_and!; try done. split; [|done].
    split_and!; try done. unfold no_timer. rewrite Hc.
    destruct (vt_func (k_vt s (VTStack t))); [by destruct Hv|done].
Qed.

(** The timed sleep: the result is the wakeup message, and the timer is
    disarmed on return. *)
Lemma chSchGoSleepTimeoutS_rule t ml st g s time (Q : Z -> kstate -> Prop) :
  Mst0 t ml s -> t <> idle -> sleeper st g s -> timed_state st -> 0 < time < 2^32 ->
  (forall s', Sst t ml s' ->
     (RDY_OK <= u_rdymsg (p_u (k_thd s' t)) -> woken st (p_u (k_thd (g s) t)) t s') ->
     Q (u_rdymsg (p_u (k_thd s' t))) s') ->
  safe t Q (chSchGoSleepTimeoutS st time (g s)).
Proof.
  intros HM Hid HS Hst Htime HQ. pose proof HM as (HI & HJ & Hc & HL & Hn & Hm).
  pose proof HS as [Sinv Scomm Sfr Sm Su Sf].
  destruct Sfr as (G1 & G2 & G3 & G4 & G5 & G6 & G7 & G8 & G9 & G10).
  assert (st <> THD_STATE_WTMTX) as Hmt by (by destruct st).
  assert (locked_S (g s)) as HLg by (unfold locked_S in *; by rewrite G9, G10).
  unfold chSchGoSleepTimeoutS, bind at 1.
  rewrite chDbgCheckClassS_ok by done. cbn [obind]. apply osafe_bind.
  set (W s' := RDY_OK <= u_rdymsg (p_u (k_thd s' t)) -> woken st (p_u (k_thd (g s) t)) t s').
  assert (forall s', Sst t ml s' -> W s' -> safe t Q
    ((let! me := currp in let! th := thd me in mret' (u_rdymsg (p_u th))) s')) as Hend.
  { intros s' HS' HW. simpl. pose proof HS' as [(_ & _ & -> & _) _]. by apply HQ. }
  apply (osafe_mono _ _ (fun _ s' => Sst t ml s' /\ W s')); [by intros _ s' []; apply Hend|].
  destruct (negb (time =? TIME_INFINITE)).
  - unfold bind at 1, currp, gets. cbn [obind]. rewrite G2, Hc.
    assert (vt_func (k_vt s (VTStack t)) = None) as Hnone
      by (unfold no_timer in Hn; by rewrite Hc in Hn).
    destruct (arm_timer s (g s) t time) as (L & V & E & HI0);
      [done..|auto with chibi|done|done|done| |].
    { pose proof (i_cur _ _ _ HI) as Hcur. rewrite Hc in Hcur. by rewrite Hcur. }
    unfold bind at 1. rewrite E. cbn [obind].
    rewrite <-Scomm. apply osafe_bind.
    apply (sleep_switch t ml st g s); try done; [by right; eauto|].
    intros s' H1 H2 H3 H4 H5 _ H7 H8. rewrite gain_other in H7 by done.
    destruct (disarm_rule t ml s') as (s2 & E2 & HS2 & E3 & _); try done.
    rewrite E2. split; [done|]. intros HW. rewrite E3 in HW.
    specialize (H8 (or_intror HW)). rewrite Scomm in H8. by destruct st; simpl in *; rewrite ?E3.
  - apply (chSchGoSleepS_rule t ml st g s); try done.
    intros s' HS' HW. rewrite gain_other in HS' by done. split; [done|by intros _].
Qed.

(** ** The ways of blocking *)

Lemma keq_upd_thd t f s s' : keq s s' -> keq (upd_thd t f s) (upd_thd t f s').
Proof.
  intros []. split; try done. intros u. simpl. rewrite !fn_insert_dec, keq_thd.
  by case_decide.
Qed.
Lemma keq_upd_q q l s s' : keq s s' -> keq (upd_q q l s) (upd_q q l s').
Proof.
  intros []. split; try done. intros u. simpl. rewrite !fn_insert_dec.
  by case_decide.
Qed.
Lemma keq_set_curr t s s' : keq s s' -> keq (set_k_curr t s) (set_k_curr t s').
Proof. intros []. by split. Qed.

Lemma keq_sleep_st st n l s s' :
  keq s s' -> keq (sleep_st st n l s) (sleep_st st n l s').
Proof.
  intros E. unfold sleep_st, make_current, renew. rewrite <-(keq_curr _ _ E).
  apply keq_upd_thd, keq_set_curr, keq_upd_q.
  destruct (0 <? CH_TIME_QUANTUM); by repeat apply keq_upd_thd.
Qed.

(** Queue [q] with the new contents [L], and [q] as the wait object. *)
Definition enq q (L : list tid) s : kstate :=
  upd_q q L (upd_thd (k_curr s) (set_p_u (U_wtobjp q)) s).

Lemma kind_ok_home st q th :
  kind_ok st q -> q <> QReady -> home (sleep_th st (Some q) th) = Some q.
Proof.
  intros Hk Hq. unfold home.
  destruct (sleep_th_fields st (Some q) th) as (_ & _ & _ & -> & -> & _).
  destruct st, q; simpl in *; try done.
Qed.

Lemma enq_prio q L s u : k_prio (enq q L s) u = k_prio s u.
Proof. unfold k_prio. simpl. rewrite fn_insert_dec. by case_decide; subst. Qed.

Lemma enq_UB q L s : (forall mp, q <> QMtx mp) -> UB s -> UB (enq q L s).
Proof.
  intros Hq. apply same_prio_UB. split; intros; unfold k_prio; simpl;
    rewrite fn_insert_dec; case_decide; subst; try done. by destruct (Hq mp).
Qed.

Section Blocking.
Variables (st : tstate) (q : qid) (L : list tid) (s : kstate).
Hypothesis Hid : k_curr s <> idle.
Hypothesis Hq : q <> QReady.
Hypothesis Hk : kind_ok st q.
Hypothesis HL : L ≡ₚ k_curr s :: k_q s q.
Hypothesis Hso : prio_queue q = true -> Lst.psorted (k_prio s) L.
Hypothesis Hmt : forall mp, q = QMtx mp -> k_mtx s mp <> None.

Lemma kind_ok_live : st <> THD_STATE_FINAL /\ st <> THD_STATE_CURRENT.
Proof. by destruct st. Qed.

(** On a semaphore, whose counter goes with the queue. *)
Lemma sleeper_sem (sem' : sid -> Z) :
  (forall sp, is_s32 (sem' sp) /\
     Z.of_nat (length (<[q := L]> (k_q s) (QSem sp))) = Z.max 0 (- sem' sp)) ->
  UB (enq q L s) ->
  sleeper st (enq_st q L sem') s.
Proof.
  intros Hsem Hub. split.
  - intros s0 Hv HI0 Htim n l Hr.
    assert (k_q s0 = k_q s /\ k_thd s0 = k_thd s /\ k_curr s0 = k_curr s /\
            k_mtx s0 = k_mtx s) as (E1 & E2 & E3 & E4)
      by (by destruct Hv as [->|(? & ? & ->)]).
    apply (sleep_queue_inv idle s0 n l st); rewrite ?E1, ?E3, ?E4; try done.
    + apply kind_ok_live.
    + by apply kind_ok_home.
    + intros Hp. apply (Lst.psorted_ext (k_prio s)); [|auto].
      intros u _. unfold k_prio. by rewrite E2.
  - done.
  - split_and!; try done; [simpl; by rewrite fn_insert_ne|].
    intros u. unfold k_prio. simpl. rewrite fn_insert_dec. by case_decide; subst.
  - simpl. by rewrite fn_insert_eq.
  - by apply (same_prio_UB (enq q L s)).
  - apply kind_ok_live.
Qed.

(** On any other object. *)
Lemma sleeper_queue :
  (forall sp, q <> QSem sp) -> KI None s -> UB (enq q L s) -> sleeper st (enq q L) s.
Proof.
  intros Hns HI Hub. destruct (sleeper_sem (k_sem s)) as [S1 S2 S3 S4 S5 S6].
  { intros sp. rewrite fn_insert_ne by done. apply (i_sem _ _ _ HI). }
  { done. }
  split; try done. intros s0 Hv HI0 Htim n l Hr.
  assert (keq (sleep_st st n l (enq q L s0))
              (sleep_st st n l (enq_st q L (k_sem s) s0))) as ->; [|by apply S1].
  apply keq_sleep_st. split; try done.
  by destruct Hv as [->|(? & ? & ->)].
Qed.
End Blocking.

(** In a state with no queue. *)
Lemma sleeper_none st f s :
  KI None s -> UB s -> k_curr s <> idle ->
  st <> THD_STATE_FINAL -> st <> THD_STATE_CURRENT -> queued_state st = false ->
  (forall th, p_prio (f th) = p_prio th /\ p_mtxlist (f th) = p_mtxlist th /\
              p_waiting (f th) = p_waiting th /\ p_realprio (f th) = p_realprio th) ->
  sleeper st (fun s => upd_thd (k_curr s) f s) s.
Proof.
  intros HI Hub Hid H1 H2 Hh Hf. split; try done.
  - intros s0 Hv HI0 Htim n l Hr.
    assert (k_curr s0 = k_curr s /\ k_q s0 = k_q s) as [E1 E2]
      by (by destruct Hv as [->|(? & ? & ->)]).
    apply (sleep_none_inv idle s0 n l st); rewrite ?E1, ?E2; try done.
  - split_and!; try done. intros u. unfold k_prio. simpl. rewrite fn_insert_dec.
    case_decide; subst; [|done]. apply Hf.
  - simpl. rewrite fn_insert_eq. apply Hf.
  - apply (same_prio_UB s); [|done]. apply same_prio_upd. intros th.
    destruct (Hf th) as (? & ? & ? & ?). done.
Qed.
End Rules.
