(* ===== verification/Total.v ===== *)
(** * Functions that return

    [osafe] accepts a function that runs out of the rounds it was given.
    [ototal] does not: every run whose resumptions are in the rely ends in the
    postcondition.  A function without a bound on its rounds that is safe is
    total ([osafe_total]); [rounds] is the hint database for that.  A sleep of the
    running thread is safe in any state ([chThdSleep_safe]). *)
From S2P Require Import Prelude Monad Types ThdLists VT Sched Threads.
From S2P Require Import Inv InvPrim InvSched Rules.

Section Total.
Context {S : Type}.
Variable G : susp -> S -> Prop.
Variable R : susp -> S -> S -> Prop.

Fixpoint ototal {A} (Q : A -> S -> Prop) (o : outcome S A) : Prop :=
  match o with
  | Done a s => Q a s
  | Suspend w s k => G w s /\ forall s', R w s s' -> ototal Q (k s')
  | Stuck _ => False
  end.

Lemma ototal_mono {A} (Q Q' : A -> S -> Prop) o :
  ototal Q o -> (forall a s, Q a s -> Q' a s) -> ototal Q' o.
Proof.
  intros Ho HQ. induction o as [a s|w s k IH|e]; simpl in *; auto.
  destruct Ho as [HG Hk]. split; [done|]. intros s' HR. by apply IH, Hk.
Qed.

Lemma ototal_bind {A B} (Q : A -> S -> Prop) (Q' : B -> S -> Prop) (m : M S A) f s :
  ototal Q (m s) -> (forall a s', Q a s' -> ototal Q' (f a s')) -> ototal Q' (bind m f s).
Proof.
  intros Hm Hf. unfold bind. revert Hm. generalize (m s). intros o.
  induction o as [a s1|w s1 k IH|e]; simpl; [auto| |done].
  intros [HG Hk]. split; [done|]. intros s' HR. by apply IH, Hk.
Qed.
End Total.

(** ** No bound on the rounds *)

Section Rounds.
Context {S : Type}.

Fixpoint orounds_free {A} (o : outcome S A) : Prop :=
  match o with
  | Done _ _ => True
  | Suspend _ _ k => forall s, orounds_free (k s)
  | Stuck e => e <> Rounds
  end.
Definition rounds_free {A} (m : M S A) : Prop := forall s, orounds_free (m s).

Lemma osafe_total {A} G R (Q : A -> S -> Prop) o : osafe G R Q o -> orounds_free o -> ototal G R Q o.
Proof.
  induction o as [a s|w s k IH|e]; simpl; [done| |by destruct e].
  intros [HG Hk] Hr. split; [done|]. intros s' HR. by apply IH; [apply Hk|].
Qed.

Lemma rounds_free_bind {A B} (m : M S A) (f : A -> M S B) :
  rounds_free m -> (forall a, rounds_free (f a)) -> rounds_free (bind m f).
Proof.
  intros Hm Hf s. unfold bind. specialize (Hm s). revert Hm. generalize (m s). intros o.
  induction o as [a s1|w s1 k IH|e]; simpl; [intros _; apply Hf| |done].
  intros Hk s'. by apply IH.
Qed.

Lemma rounds_free_if {A} (b : bool) (m1 m2 : M S A) : rounds_free m1 -> rounds_free m2 -> rounds_free (if b then m1 else m2).
Proof. by destruct b. Qed.

Lemma rounds_free_ret {A} (a : A) : rounds_free (mret' a : M S A).
Proof. by intros s. Qed.
Lemma rounds_free_gets {A} (f : S -> A) : rounds_free (gets f).
Proof. by intros s. Qed.
Lemma rounds_free_modify (f : S -> S) : rounds_free (modify f).
Proof. by intros s. Qed.
Lemma rounds_free_panic {A} msg : rounds_free (panic msg : M S A).
Proof. by intros s. Qed.
Lemma rounds_free_suspend w : rounds_free (suspend w : M S unit).
Proof. by intros s s'. Qed.
End Rounds.

Create HintDb rounds.
#[export] Hint Resolve rounds_free_bind rounds_free_if rounds_free_ret rounds_free_gets rounds_free_modify
  rounds_free_panic rounds_free_suspend : rounds.

Section Kernel.
Context `{Config}.

Lemma rounds_free_dbg bad msg : rounds_free (dbg_check bad msg).
Proof. intros s. unfold dbg_check. by destruct (_ && _). Qed.
Lemma rounds_free_lock : rounds_free chSysLock.
Proof. apply rounds_free_bind; [apply rounds_free_dbg|by intros [] s]. Qed.
Lemma rounds_free_unlock : rounds_free chSysUnlock.
Proof.
  apply rounds_free_bind; [|by intros [] s s'].
  apply rounds_free_bind; [apply rounds_free_dbg|by intros [] s].
Qed.
Lemma rounds_free_check c msg : rounds_free (chDbgCheck c msg).
Proof. unfold chDbgCheck. auto with rounds. Qed.
Lemma rounds_free_assert c msg : rounds_free (chDbgAssert c msg).
Proof. unfold chDbgAssert. auto with rounds. Qed.
Hint Resolve rounds_free_dbg rounds_free_lock rounds_free_unlock rounds_free_check rounds_free_assert : rounds.

Lemma rounds_free_sleep st : rounds_free (chSchGoSleepS st).
Proof.
  unfold chSchGoSleepS, chDbgCheckClassS, currp, set_thd, setcurrp, chSysSwitch, fifo_remove.
  repeat first [apply rounds_free_bind; [|intros ?]|by auto with rounds|by intros s; destruct (k_q s QReady)].
Qed.
Hint Resolve rounds_free_sleep : rounds.

Lemma rounds_free_vt_set v time fn par : rounds_free (chVTSetI v time fn par).
Proof.
  unfold chVTSetI, chDbgCheckClassI. repeat first [apply rounds_free_bind; [|intros ?]|by auto with rounds].
  intros s. by destruct (vt_walk _ _ _ _) as [[[? ?] ?]|].
Qed.
Lemma rounds_free_vt_reset v : rounds_free (chVTResetI v).
Proof.
  unfold chVTResetI, chDbgCheckClassI. repeat first [apply rounds_free_bind; [|intros ?]|by auto with rounds].
  - intros s. apply rounds_free_assert.
  - intros s. by destruct (decide _).
Qed.
Hint Resolve rounds_free_vt_set rounds_free_vt_reset : rounds.

Lemma rounds_free_thd_sleep time : rounds_free (chThdSleep time).
Proof.
  unfold chThdSleep, chThdSleepS, chSchGoSleepTimeoutS, chDbgCheckClassS, currp, thd.
  repeat first [by auto 2 with rounds|apply rounds_free_if|apply rounds_free_bind; [|intros ?]].
  intros s. destruct (chVTIsArmedI _ _); [apply rounds_free_vt_reset|done].
Qed.
End Kernel.
#[export] Hint Resolve rounds_free_dbg rounds_free_lock rounds_free_unlock rounds_free_check rounds_free_assert
  rounds_free_sleep rounds_free_thd_sleep : rounds.

(** ** Sleeping *)

Section Sleep.
Context `{Config} (idle : tid) (J : kdata_t -> Prop).

Lemma sleeper_id st s :
  KInv idle None s -> UB s -> k_curr s <> idle ->
  st <> THD_STATE_FINAL -> st <> THD_STATE_CURRENT -> queued_state st = false -> sleeper idle st (fun s => s) s.
Proof.
  intros HI Hub Hid H1 H2 H3.
  destruct (sleeper_none idle st (fun th => th) s HI Hub Hid H1 H2 H3) as [S1 _ _ _ _ _]; [done|].
  split; try done. intros s0 Hv HI0 Htim n l Hr.
  assert (keq (sleep_st st n l s0) (sleep_st st n l (upd_thd (k_curr s0) (fun th => th) s0))) as ->; [|by apply S1].
  apply keq_sleep_st. split; try done. intros u. simpl. rewrite fn_insert_dec. by case_decide; subst.
Qed.

Lemma chThdSleep_safe t ml time s :
  Ust idle J t ml s -> t <> idle -> 0 < time < 2^32 ->
  osafe (grd idle J) (rely idle J t) (fun _ s' => Ust idle J t ml s') (chThdSleep time s).
Proof.
  intros HU Hid Ht. unfold chThdSleep. rewrite check_bind by (unfold TIME_IMMEDIATE; by rewrite (proj2 (Z.eqb_neq _ _)) by lia).
  apply (lock_bind idle J t ml); [done|]. intros HS. apply osafe_bind.
  pose proof HS as [(HI & [_ Hub] & Hc & _) _]. unfold chThdSleepS.
  apply (chSchGoSleepTimeoutS_rule idle J t ml THD_STATE_SLEEPING (fun s => s) (with_lock 1 s));
    [apply Mst_weak, HS|done| |done|done|].
  - apply sleeper_id; try done. by rewrite Hc.
  - intros s' HS' _. by apply (chSysUnlock_rule idle J t ml).
Qed.
End Sleep.
