(* ===== verification/Scenario.v ===== *)
(** * Concrete kernel states

    Finitely described states and a checker that decides the kernel
    invariant on them.  The witnesses of the properties run the kernel from
    these states. *)
From S2P Require Import Prelude Monad Types ThdLists VT Sched Sem Mtx.
From S2P Require Import Inv InvPrim InvSched Rules.

Section Get.
Context {K V : Type} `{EqDecision K}.

Fixpoint get_assoc (l : list (K * V)) (d : V) (k : K) : V :=
  match l with
  | [] => d
  | (k', v) :: l => if decide (k = k') then v else get_assoc l d k
  end.

Lemma get_Forall (P : K -> V -> Prop) l d :
  (forall k, P k d) -> Forall (fun kv => P kv.1 kv.2) l -> forall k, P k (get_assoc l d k).
Proof.
  intros Hd Hl k. induction Hl as [|[k' v] l Hv _ IH]; simpl; [done|].
  by case_decide; subst.
Qed.
End Get.

(** Threads, queues, semaphore counters and mutex owners by key; every other
    thread is terminated and every other object free; no timer is armed. *)
Record scenario := {
  sc_curr : tid;
  sc_thd : list (tid * Thread);
  sc_q : list (qid * list tid);
  sc_sem : list (Z * Z);
  sc_mtx : list (mid * option tid);
  sc_data : kstate
}.

Definition sc_state (d : scenario) : kstate :=
  set_k_thd (get_assoc (sc_thd d) no_thread)
  (set_k_q (get_assoc (sc_q d) [])
  (set_k_curr (sc_curr d)
  (set_k_rprio NOPRIO
  (set_k_reg (map fst (sc_thd d))
  (set_k_vtl [] (set_k_vt (fun _ => mkVT 0 None 0) (set_k_vth (2 ^ 32 - 1)
  (set_k_sem (get_assoc (sc_sem d) 0)
  (set_k_mtx (get_assoc (sc_mtx d) None)
  (set_k_lock_cnt 0 (set_k_isr_cnt 0 (sc_data d)))))))))))).

#[export] Instance kind_ok_dec st q : Decision (kind_ok st q).
Proof. destruct st, q; simpl; apply _. Defined.
#[export] Instance tstate_eq_dec : EqDecision tstate.
Proof. solve_decision. Defined.
#[export] Instance psorted_dec f l : Decision (Lst.psorted f l).
Proof. induction l as [|x l IH]; simpl; apply _. Defined.
#[export] Instance is_s32_dec z : Decision (is_s32 z).
Proof. unfold is_s32. apply _. Defined.

Section Check.
Context `{Config}.
Variable idle : tid.

Definition thd_ok s (t : tid) (th : Thread) : Prop :=
  match home th with
  | Some q => t ∈ k_q s q /\ kind_ok (p_state th) q
  | None => queued_state (p_state th) = false
  end /\
  (p_state th = THD_STATE_CURRENT -> t = k_curr s) /\
  (p_state th <> THD_STATE_FINAL -> NOPRIO < p_prio th /\ NOPRIO < p_realprio th /\ t ∈ k_reg s) /\
  p_waiting th = [] /\ NoDup (p_mtxlist th) /\
  (Forall (fun mp => k_mtx s mp = Some t) (p_mtxlist th)).

Definition queue_ok s q (l : list tid) : Prop :=
  NoDup l /\ Forall (fun t => home (k_thd s t) = Some q) l /\
  (prio_queue q = true -> Lst.psorted (k_prio s) l) /\
  match q with
  | QSem sp => Z.of_nat (length l) = Z.max 0 (- k_sem s sp)
  | QMtx mp => l = [] \/ k_mtx s mp <> None
  | _ => True
  end.

Definition sc_ok (d : scenario) : Prop :=
  let s := sc_state d in
  Forall (fun kv => thd_ok s kv.1 kv.2) (sc_thd d) /\
  Forall (fun kv => queue_ok s kv.1 kv.2) (sc_q d) /\
  Forall (fun kv => is_s32 kv.2 /\
    Z.of_nat (length (k_q s (QSem kv.1))) = Z.max 0 (- kv.2)) (sc_sem d) /\
  Forall (fun kv => match kv.2 with
    | Some t => kv.1 ∈ p_mtxlist (k_thd s t) | None => True end) (sc_mtx d) /\
  p_state (k_thd s (k_curr s)) = THD_STATE_CURRENT /\
  (p_state (k_thd s idle) = THD_STATE_READY \/ p_state (k_thd s idle) = THD_STATE_CURRENT).

#[export] Instance thd_ok_dec s t th : Decision (thd_ok s t th).
Proof. unfold thd_ok. destruct (home th); apply _. Defined.
#[export] Instance queue_ok_dec s q l : Decision (queue_ok s q l).
Proof. unfold queue_ok. destruct q; apply _. Defined.
#[export] Instance sc_ok_dec d : Decision (sc_ok d).
Proof.
  unfold sc_ok. simpl.
  repeat apply and_dec; try apply _.
  apply Forall_dec. intros [mp [t|]]; [apply list_elem_of_dec|apply True_dec].
Defined.

Lemma sc_KInv d : sc_ok d -> KInv idle None (sc_state d).
Proof.
  intros (HT & HQ & HS & HM & Hc & Hi). set (s := sc_state d) in *.
  assert (forall t, thd_ok s t (k_thd s t)) as Ht.
  { apply (get_Forall (thd_ok s)); [|done]. intros t. split_and!; try done; constructor. }
  assert (forall sp, is_s32 (k_sem s sp) /\ Z.of_nat (length (k_q s (QSem sp)))
            = Z.max 0 (- k_sem s sp) \/ k_sem s sp = 0) as Hs.
  { apply (get_Forall (fun sp n => is_s32 n /\ Z.of_nat (length (k_q s (QSem sp)))
            = Z.max 0 (- n) \/ n = 0)); [auto|].
    eapply list.Forall_impl; [exact HS|]. auto. }
  assert (forall q, queue_ok s q (k_q s q) \/ k_q s q = []) as Hq.
  { apply (get_Forall (fun q l => queue_ok s q l \/ l = [])); [auto|].
    eapply list.Forall_impl; [exact HQ|]. auto. }
  assert (forall mp, match k_mtx s mp with Some t => mp ∈ p_mtxlist (k_thd s t)
            | None => True end) as Hm.
  { by apply (get_Forall (fun mp o => match o with Some t => mp ∈ p_mtxlist (k_thd s t)
            | None => True end)). }
  assert (forall q, NoDup (k_q s q) /\ Forall (fun t => home (k_thd s t) = Some q) (k_q s q)
     /\ (prio_queue q = true -> Lst.psorted (k_prio s) (k_q s q))) as Hq'.
  { intros q. destruct (Hq q) as [(?&?&?&?)| ->]; [done|]. split_and!; [constructor|constructor|done]. }
  split; try done.
  - intros t q _. split.
    + intros Hin. destruct (Hq' q) as (_ & Hf & _). by apply (proj1 (list.Forall_forall _ _) Hf).
    + intros E. destruct (Ht t) as [Hh _]. rewrite E in Hh. apply Hh.
  - intros t q _ E. destruct (Ht t) as [Hh _]. rewrite E in Hh. apply Hh.
  - intros q. apply (Hq' q).
  - intros t _ E. by apply (Ht t).
  - intros q. apply (Hq' q).
  - intros t E. by apply (Ht t).
  - intros t E. by apply (Ht t).
  - intros sp. destruct (Hs sp) as [?|E]; [done|]. rewrite E. split; [unfold is_s32; lia|].
    destruct (Hq (QSem sp)) as [(_&_&_&E')| ->]; [|done]. by rewrite E, <-E' in *.
  - intros mp t. split.
    + intros E. specialize (Hm mp). by rewrite E in Hm.
    + intros Hin. destruct (Ht t) as (_&_&_&_&_&Hf).
      by apply (proj1 (list.Forall_forall _ _) Hf).
  - intros t. apply (Ht t).
  - intros mp E. destruct (Hq (QMtx mp)) as [(_&_&_&[?|?])|?]; done.
  - split; simpl; try done; [constructor|set_solver].
  - intros t u Hin. destruct (Ht u) as (_&_&_&E&_). rewrite E in Hin. set_solver.
  - intros t u u' Hin. destruct (Ht u) as (_&_&_&E&_). rewrite E in Hin. set_solver.
  - intros u. destruct (Ht u) as (_&_&_&E&_). rewrite E. constructor.
  - intros t _ Hqd. destruct (Ht t) as [Hh _]. destruct (home _); [done|congruence].
  - intros t E. by apply (Ht t).
Qed.
End Check.

(** ** A thread outside the kernel *)

Definition sc_UB (d : scenario) : Prop :=
  Forall (fun kv => p_prio kv.2 <=
    scan_owned (sc_state d) (p_mtxlist kv.2) (p_realprio kv.2)) (sc_thd d).

#[export] Instance sc_UB_dec d : Decision (sc_UB d).
Proof. apply Forall_dec. intros. apply Z_le_dec. Defined.

Lemma sc_UB_ok d : sc_UB d -> UB (sc_state d).
Proof.
  intros HU t. apply (get_Forall (fun _ th => p_prio th <=
    scan_owned (sc_state d) (p_mtxlist th) (p_realprio th)) (sc_thd d) no_thread); [done|exact HU].
Qed.

Lemma sc_Ust `{Config} idle (J : kdata_t -> Prop) d t ml :
  sc_ok idle d -> sc_UB d -> firstprio (sc_state d) <= currprio (sc_state d) ->
  sc_curr d = t -> p_mtxlist (k_thd (sc_state d) t) = ml -> J (kdata (sc_state d)) ->
  Ust idle J t ml (sc_state d).
Proof.
  intros Hok HU Hh Hc Hm HJ. split_and!; try done.
  - by apply sc_KInv.
  - split; [done|by apply sc_UB_ok].
Qed.

(** ** The example system

    The main thread (1) owns mutex 5 and runs with the priority of thread 3,
    which waits for it and owns mutex 6, for which thread 8 waits.  Thread 2
    waits for semaphore 7, thread 4 for condition variable 9, thread 5 for a
    message, thread 6 for either of two events; thread 7 and the idle thread
    (0) are ready. *)

Definition mk_thd (prio real : Z) (st : tstate) (u : punion) (ml : list mid) : Thread :=
  mkThread prio st 0 1 20 0 u [] 0 0 ml real None None.

Definition blank : kstate :=
  mkK (fun _ => no_thread) (fun _ => []) 0 0 [] [] (fun _ => mkVT 0 None 0) (2 ^ 32 - 1) 0
    (fun _ => 0) (fun _ => None) (fun _ => []) (fun _ => mkEL 0 0 0)
    (fun _ => mkMB [0] 0 0 0 0) (fun _ => mkIOQ 0 [0] 0 0 None 0) 0 0 (fun _ => 0) 0 0
    (fun _ => None) (fun _ => mkPool 0 4 None).

Definition demo : scenario := {|
  sc_curr := 1;
  sc_thd :=
    [ (0, mk_thd 1 1 THD_STATE_READY (U_msg 0) []);
      (1, mk_thd 90 64 THD_STATE_CURRENT (U_msg 0) [5]);
      (2, mk_thd 100 100 THD_STATE_WTSEM (U_wtobjp (QSem 7)) []);
      (3, mk_thd 90 90 THD_STATE_WTMTX (U_wtobjp (QMtx 5)) [6]);
      (4, mk_thd 80 80 THD_STATE_WTCOND (U_wtobjp (QCond 9)) []);
      (5, mk_thd 70 70 THD_STATE_WTMSG (U_msg 0) []);
      (6, mk_thd 60 60 THD_STATE_WTOREVT (U_ewmask 3) []);
      (7, mk_thd 50 50 THD_STATE_READY (U_msg 0) []);
      (8, mk_thd 40 40 THD_STATE_WTMTX (U_wtobjp (QMtx 6)) []) ];
  sc_q := [ (QReady, [7; 0]); (QSem 7, [2]); (QMtx 5, [3]); (QMtx 6, [8]); (QCond 9, [4]) ];
  sc_sem := [ (7, -1); (8, 2) ];
  sc_mtx := [ (5, Some 1); (6, Some 3) ];
  sc_data := blank
|}.

Lemma demo_Ust : @Ust debug_config 0 (fun _ => True) 1 [5] (sc_state demo).
Proof.
  apply sc_Ust; try done.
  - apply (bool_decide_unpack _). by vm_compute.
  - apply (bool_decide_unpack _). by vm_compute.
Qed.

(** The same under the lock. *)
Lemma demo_Sst : @Sst debug_config 0 (fun _ => True) 1 [5] (@with_lock debug_config 1 (sc_state demo)).
Proof.
  destruct (@chSysLock_rule debug_config 0 _ 1 [5] _ demo_Ust) as (s' & _ & -> & HS). exact HS.
Qed.

Lemma demo_I :
  @locked_I debug_config (@with_lock debug_config 1 (sc_state demo)) /\
  @KInv debug_config 0 None (@with_lock debug_config 1 (sc_state demo)).
Proof.
  destruct demo_Sst as [(HI & _ & _ & HL & _) _]. split; [|done].
  by apply (@locked_S_I debug_config).
Qed.
