(* ===== verification/Wake.v ===== *)
(** * Waking threads from I-class functions

    I-class functions do not switch: they move threads to the ready list and
    leave the running thread alone.  [istep] is what they preserve; it is
    transitive, so it goes through loops. *)
From S2P Require Import Prelude Monad Types ThdLists VT Sched Sem Mtx.
From S2P Require Import Inv InvPrim InvSched Rules.

Implicit Types (s : kstate) (t u c n : tid) (q : qid) (l : list tid) (st : tstate).

Section Wake.
Context `{Config}.
Variable idle : tid.
Variable J : kdata_t -> Prop.
Local Abbreviation KI := (KInv idle).

Record istep s s' : Prop := {
  is_inv : KI None s';
  is_curr : k_curr s' = k_curr s;
  is_data : kdata s' = kdata s;
  is_vt : k_vt s' = k_vt s;
  is_vtl : k_vtl s' = k_vtl s;
  is_lock : k_lock_cnt s' = k_lock_cnt s;
  is_isr : k_isr_cnt s' = k_isr_cnt s;
  is_reg : k_reg s' = k_reg s;
  is_prio : forall u, k_prio s' u = k_prio s u;
  is_mtx : forall u, p_mtxlist (k_thd s' u) = p_mtxlist (k_thd s u);
  is_real : forall u, p_realprio (k_thd s' u) = p_realprio (k_thd s u);
  is_mq : forall mp, k_q s' (QMtx mp) = k_q s (QMtx mp);
  is_systime : k_systime s' = k_systime s
}.

Lemma istep_same_prio s s' : istep s s' -> same_prio s s'.
Proof. by intros []. Qed.

Lemma istep_refl s : KI None s -> istep s s.
Proof. by split. Qed.

Lemma istep_trans s1 s2 s3 : istep s1 s2 -> istep s2 s3 -> istep s1 s3.
Proof. intros [] []. split; congruence. Qed.

Lemma istep_Mst t ml s s' : istep s s' -> Mst idle J t ml s -> Mst idle J t ml s'.
Proof.
  intros Hi (HI & HJ & Hc & HL & Hn & Hm).
  pose proof (DU_ext J s s' (is_data _ _ Hi) (istep_same_prio _ _ Hi) HJ). destruct Hi.
  split_and!; try done; [congruence| | |by rewrite is_mtx0].
  - unfold locked_S in *. by rewrite is_lock0, is_isr0.
  - unfold no_timer in *. congruence.
Qed.

Lemma istep_locked s s' : istep s s' -> locked_I s -> locked_I s'.
Proof. intros [] HL. unfold locked_I in *. by rewrite is_lock0, is_isr0. Qed.

(** The state after a thread has been made ready with a wakeup message. *)
Definition wake_st t (msg : Z) s : kstate :=
  ready_st t (upd_thd t (set_p_u (U_msg msg)) s).

Lemma wake_st_keq t msg s :
  keq (upd_thd t (set_p_u (U_msg msg)) (ready_st t s)) (wake_st t msg s).
Proof.
  assert (forall u, k_prio (upd_thd t (set_p_state THD_STATE_READY) s) u =
    k_prio (upd_thd t (set_p_state THD_STATE_READY)
              (upd_thd t (set_p_u (U_msg msg)) s)) u) as Ep.
  { intros u. unfold k_prio. simpl. rewrite !fn_insert_dec.
    repeat case_decide; by subst. }
  split; try done; intros u; simpl; rewrite ?fn_insert_dec;
    repeat case_decide; subst; try done.
  by apply Lst.prio_ins_ext.
Qed.

Lemma wake_st_inv t msg s : KI (Some t) s -> KI None (wake_st t msg s).
Proof. intros HI. by apply ready_st_inv, set_p_u_float. Qed.

Lemma wake_st_thd t msg s u :
  k_thd (wake_st t msg s) u =
    if decide (t = u) then set_p_state THD_STATE_READY (set_p_u (U_msg msg) (k_thd s u))
    else k_thd s u.
Proof. simpl. rewrite !fn_insert_dec. repeat case_decide; by subst. Qed.

Lemma ready_with_eq t msg s :
  locked_I s -> KI (Some t) s ->
  (CH_DBG_ENABLE_ASSERTS = true -> p_state (k_thd s t) <> THD_STATE_READY) ->
  ready_with t msg s = Done tt (upd_thd t (set_p_u (U_msg msg)) (ready_st t s)).
Proof.
  intros HL HI Hr. unfold ready_with, bind.
  by destruct (chSchReadyI_ok idle s t) as [-> _].
Qed.

(** [set_p_u] then [chSchReadyI], as in [chSemSignalI()]. *)
Lemma set_ready_eq t msg s :
  locked_I s -> KI (Some t) s ->
  (CH_DBG_ENABLE_ASSERTS = true -> p_state (k_thd s t) <> THD_STATE_READY) ->
  (set_thd t (set_p_u (U_msg msg)) ;;; chSchReadyI t ;;; mret' tt) s =
    Done tt (wake_st t msg s).
Proof.
  intros HL HI Hr. unfold bind. cbn [set_thd modify obind].
  destruct (chSchReadyI_ok idle (upd_thd t (set_p_u (U_msg msg)) s) t) as [-> _];
    [done|by apply set_p_u_float| |done].
  simpl. by rewrite fn_insert_eq.
Qed.

Lemma keq_istep s0 s s' : keq s s' -> kdata s' = kdata s -> k_vt s' = k_vt s ->
  istep s0 s -> istep s0 s'.
Proof.
  intros E Ed Ev []. split.
  - by rewrite <-E.
  - by rewrite <-(keq_curr _ _ E).
  - congruence.
  - congruence.
  - by rewrite <-(keq_vtl _ _ E).
  - by rewrite <-(keq_lock _ _ E).
  - by rewrite <-(keq_isr _ _ E).
  - by rewrite <-(keq_reg _ _ E).
  - intros u. unfold k_prio in *. by rewrite <-(keq_thd _ _ E).
  - intros u. by rewrite <-(keq_thd _ _ E).
  - intros u. by rewrite <-(keq_thd _ _ E).
  - intros mp. by rewrite <-(keq_q _ _ E).
  - by rewrite <-(keq_systime _ _ E).
Qed.

(** Taking a thread off a queue, with the semaphore counters [sem'], and
    making it ready. *)
Section One.
Variables (s : kstate) (q : qid) (l1 l2 : list tid) (w : tid) (sem' : sid -> Z).
Hypothesis HI : KI None s.
Hypothesis Hq : k_q s q = l1 ++ w :: l2.
Hypothesis Hqr : q <> QReady.
Hypothesis Hqm : forall mp, q <> QMtx mp.
Hypothesis Hsem : forall sp, is_s32 (sem' sp) /\
   Z.of_nat (length (<[q := l1 ++ l2]> (k_q s) (QSem sp))) = Z.max 0 (- sem' sp).

Definition off_st : kstate := upd_q q (l1 ++ l2) (set_k_sem sem' s).

Lemma off_float : KI (Some w) off_st.
Proof. by apply detach_gen. Qed.

Lemma off_not_ready : p_state (k_thd s w) <> THD_STATE_READY.
Proof using HI Hq Hqr.
  clear Hsem sem' Hqm. intros Hr. assert (home (k_thd s w) = Some q) as Hh.
  { apply (inv_placed idle s w q HI). rewrite Hq. set_solver. }
  unfold home in Hh. rewrite Hr in Hh. congruence.
Qed.

Lemma off_istep msg : istep s (wake_st w msg off_st).
Proof.
  split; try done; [apply wake_st_inv, off_float|..].
  1-3: intros u; unfold k_prio; rewrite wake_st_thd; by case_decide.
  intros mp. simpl. rewrite !fn_insert_dec. repeat case_decide; subst; try done.
  by destruct (Hqm mp).
Qed.

Lemma off_istep' msg : istep s (upd_thd w (set_p_u (U_msg msg)) (ready_st w off_st)).
Proof.
  apply (keq_istep _ (wake_st w msg off_st)); [|done..|apply off_istep].
  symmetry. apply wake_st_keq.
Qed.

Lemma off_Fst t ml : Mst idle J t ml s -> Fst idle J t ml w off_st.
Proof.
  intros (_ & HJ & Hc & HL & Hn & Hm).
  split_and!; try done; [apply off_float| |apply off_not_ready].
  revert HJ. apply DU_ext; [done|]. split; try done. intros mp. simpl.
  rewrite fn_insert_dec. case_decide; [|done]. by destruct (Hqm mp).
Qed.

Lemma off_HP : HP s -> HP off_st.
Proof. unfold HP, firstprio, off_st. simpl. by rewrite fn_insert_ne. Qed.
End One.

(** ** Queues with no counter *)

(** The objects whose queue has no counter and gives no priority. *)
Definition plain_queue q : bool :=
  match q with QCond _ | QIO _ | QMsg _ => true | _ => false end.

Lemma plain_counters s q l :
  plain_queue q = true -> KI None s ->
  forall sp, is_s32 (k_sem s sp) /\
    Z.of_nat (length (<[q := l]> (k_q s) (QSem sp))) = Z.max 0 (- k_sem s sp).
Proof. intros Hq HI sp. rewrite fn_insert_ne by (by intros ->). apply (i_sem _ _ _ HI). Qed.

Section Plain.
Variables (s : kstate) (q : qid) (w : tid) (l : list tid).
Hypothesis HI : KI None s.
Hypothesis Hq : k_q s q = w :: l.
Hypothesis Hp : plain_queue q = true.

Definition pop_st : kstate := upd_q q l s.

Lemma pop_keq : keq (off_st s q [] l (k_sem s)) pop_st.
Proof using. by split. Qed.

Lemma pop_float : KI (Some w) pop_st.
Proof.
  rewrite <-pop_keq. apply (off_float s q [] l w); [done..|]. by apply plain_counters.
Qed.

Lemma pop_not_ready : p_state (k_thd s w) <> THD_STATE_READY.
Proof. apply (off_not_ready s q [] l w); [done..|]. by intros ->. Qed.

Lemma pop_Fst t ml : Mst idle J t ml s -> Fst idle J t ml w pop_st.
Proof.
  intros HM.
  destruct (off_Fst s q [] l w (k_sem s) HI Hq) with (t := t) (ml := ml)
    as (_ & _ & Hc & HL & Hn & Hm & Hr); try done;
    [by intros ->|by intros mp ->|by apply plain_counters|].
  split_and!; try done; [apply pop_float|].
  destruct HM as (_ & HJ & _). revert HJ. apply DU_ext; [done|]. split; try done.
  intros mp. simpl. rewrite fn_insert_ne; [done|]. by intros ->.
Qed.

Lemma pop_HP : HP s -> HP pop_st.
Proof.
  unfold HP, firstprio, pop_st. simpl. rewrite fn_insert_ne; [done|]. by intros ->.
Qed.

(** [chSchReadyI(fifo_remove(q))->p_u.rdymsg = msg] *)
Definition wake_first (msg : Z) : kstate :=
  upd_thd w (set_p_u (U_msg msg)) (ready_st w pop_st).

Lemma wake_first_eq msg :
  locked_I s ->
  (let! tp := fifo_remove q in ready_with tp msg) s = Done tt (wake_first msg) /\
  istep s (wake_first msg).
Proof.
  intros HL. split.
  - unfold bind, fifo_remove. rewrite Hq. cbn [obind].
    apply ready_with_eq; [done|apply pop_float|]. intros _. apply pop_not_ready.
  - apply (keq_istep s (upd_thd w (set_p_u (U_msg msg)) (ready_st w (off_st s q [] l (k_sem s)))));
      [by split|done|done|].
    apply off_istep'; [done..|by intros ->|by intros mp ->|by apply plain_counters].
Qed.

Lemma wake_first_thd msg u :
  k_thd (wake_first msg) u =
    if decide (w = u) then set_p_state THD_STATE_READY (set_p_u (U_msg msg) (k_thd s u))
    else k_thd s u.
Proof using.
  clear. unfold wake_first. rewrite (keq_thd _ _ (wake_st_keq w msg pop_st)).
  by rewrite wake_st_thd.
Qed.

Lemma wake_first_q msg : k_q (wake_first msg) q = l.
Proof.
  unfold wake_first, ready_st, pop_st. simpl. rewrite fn_insert_ne by (by intros <-).
  apply fn_insert_eq.
Qed.
End Plain.

(** Emptying a queue. *)
Lemma wake_loop_eq q msg : plain_queue q = true -> forall l s,
  KI None s -> locked_I s -> k_q s q = l ->
  exists s', mwhile (length l) (fun s => notempty s q)
      (let! tp := fifo_remove q in ready_with tp msg) s = Done tt s' /\
    istep s s' /\ k_q s' q = [] /\
    (forall u, k_thd s' u =
      if decide (u ∈ l) then set_p_state THD_STATE_READY (set_p_u (U_msg msg) (k_thd s u))
      else k_thd s u).
Proof.
  intros Hp. induction l as [|w l IH]; intros s HI HL Hq.
  - exists s. split_and!; try done.
    cbn [mwhile length]. unfold notempty, isempty. by rewrite Hq.
  - destruct (wake_first_eq s q w l HI Hq Hp msg HL) as [E Hi].
    destruct (IH (wake_first s q w l msg)) as (s' & E' & Hi' & Hq' & Ht');
      [apply Hi|by apply (istep_locked s)|by apply wake_first_q|].
    exists s'. split_and!; [|by eapply istep_trans|done|].
    + cbn [mwhile length]. unfold notempty at 1, isempty. rewrite Hq.
      cbn [negb]. by rewrite (done_bind _ _ _ _ _ E).
    + intros u. rewrite Ht', wake_first_thd. pose proof (i_nodup _ _ _ HI q) as Hnd.
      rewrite Hq in Hnd. apply list.NoDup_cons in Hnd as [Hnd _].
      destruct (decide (w = u)), (decide (u ∈ l)), (decide (u ∈ w :: l)); try done; set_solver.
Qed.
End Wake.
