(* ===== verification/SemOK.v ===== *)
(** * Correctness of the semaphores *)
From S2P Require Import Prelude Monad Types ThdLists VT Sched Sem Mtx.
From S2P Require Import Inv InvPrim InvSched Rules Wake.

Implicit Types (s : kstate) (t u : tid) (sp : sid) (ml : list mid).

Section SemOK.
Context `{Config}.
Variable idle : tid.
Variable J : kdata_t -> Prop.
Local Abbreviation KI := (KInv idle).
Abbreviation safe t := (osafe (grd idle J) (rely idle J t)).

Lemma k_sem_upd sp n s : k_sem (upd_sem sp n s) sp = n.
Proof. apply fn_insert_eq. Qed.
Lemma k_q_upd_sem sp n s : k_q (upd_sem sp n s) = k_q s.
Proof. done. Qed.

Lemma sem_consistent_ok fl s sp : KI fl s -> sem_consistent s sp = true.
Proof.
  intros HI. destruct (i_sem _ _ _ HI sp) as [_ Hl].
  unfold sem_consistent, notempty, isempty.
  destruct (k_q s (QSem sp)); simpl in Hl; destruct (Z.leb_spec 0 (k_sem s sp));
    destruct (Z.ltb_spec (k_sem s sp) 0); simpl; lia.
Qed.

Lemma sem_assert_ok fl s sp m : KI fl s -> sem_assert sp m s = Done tt s.
Proof. intros HI. unfold sem_assert. by rewrite chDbgAssert_ok by (by eapply sem_consistent_ok). Qed.

(** A change of counter that agrees with the queue. *)
Lemma upd_sem_inv fl s sp n :
  KI fl s -> is_s32 n ->
  Z.of_nat (length (k_q s (QSem sp))) = Z.max 0 (- n) ->
  KI fl (upd_sem sp n s).
Proof.
  intros HI Hn Hl. kinv_open (HI). split; kinv_same.
  intros sp'. simpl. rewrite fn_insert_dec. case_decide; [by subst|auto].
Qed.

Lemma sem_len fl s sp : KI fl s ->
  is_s32 (k_sem s sp) /\ Z.of_nat (length (k_q s (QSem sp))) = Z.max 0 (- k_sem s sp).
Proof. intros HI. apply (i_sem _ _ _ HI). Qed.

(** The counters when a thread leaves or enters the queue of [sp]. *)
Lemma sem_counters s sp L n :
  KI None s -> is_s32 n -> Z.of_nat (length L) = Z.max 0 (- n) ->
  forall sp', is_s32 (<[sp := n]> (k_sem s) sp') /\
    Z.of_nat (length (<[QSem sp := L]> (k_q s) (QSem sp'))) =
      Z.max 0 (- <[sp := n]> (k_sem s) sp').
Proof.
  intros HI Hn HL sp'. rewrite !fn_insert_dec.
  destruct (decide (sp = sp')) as [->|Hne].
  - by rewrite decide_True by done.
  - rewrite decide_False by congruence. apply (i_sem _ _ _ HI).
Qed.

(** ** Signal *)

Lemma sem_head s sp :
  KI None s -> k_sem s sp < 0 -> exists w l, k_q s (QSem sp) = w :: l /\
    Z.of_nat (length l) = Z.max 0 (- (k_sem s sp + 1)).
Proof.
  intros HI Hk. destruct (sem_len _ s sp HI) as [_ Hl].
  destruct (k_q s (QSem sp)) as [|w l]; simpl in *; [lia|]. exists w, l. split; [done|lia].
Qed.

(** What a signal does to the state, besides the scheduling. *)
Definition signal_st sp s : kstate :=
  match k_q s (QSem sp) with
  | [] => upd_sem sp (k_sem s sp + 1) s
  | w :: l => wake_st w RDY_OK (upd_q (QSem sp) l (upd_sem sp (k_sem s sp + 1) s))
  end.

Lemma signal_st_istep s sp :
  KI None s -> k_sem s sp < 2^31 - 1 -> istep idle s (signal_st sp s).
Proof.
  intros HI Hmax. destruct (sem_len _ s sp HI) as [Hs Hl]. unfold is_s32 in Hs.
  unfold signal_st. destruct (k_q s (QSem sp)) as [|w l] eqn:Hq.
  - split; try done. apply upd_sem_inv; [done|unfold is_s32; lia|].
    rewrite Hq. simpl in *. lia.
  - apply (off_istep idle s (QSem sp) [] l w); try done.
    apply sem_counters; [done|unfold is_s32; lia|]. simpl in *. lia.
Qed.

(** [chSemSignalI()]: the counter is incremented; the first waiting thread,
    if any, becomes ready with [RDY_OK]. *)
Lemma chSemSignalI_eq s sp :
  locked_I s -> KI None s -> k_sem s sp < 2^31 - 1 ->
  chSemSignalI sp s = Done tt (signal_st sp s) /\ istep idle s (signal_st sp s).
Proof.
  intros HL HI Hmax. split; [|by apply signal_st_istep].
  destruct (sem_len _ s sp HI) as [Hs Hl]. unfold is_s32 in Hs.
  unfold chSemSignalI, bind. rewrite chDbgCheckClassI_ok by done. cbn [obind].
  rewrite (sem_assert_ok None) by done. cbn [obind set_cnt modify].
  rewrite s32_small by (unfold is_s32; lia).
  unfold signal_st. rewrite k_sem_upd.
  destruct (k_q s (QSem sp)) as [|w l] eqn:Hq; simpl in Hl.
  - by rewrite (proj2 (Z.leb_gt _ _)) by lia.
  - rewrite (proj2 (Z.leb_le _ _)) by lia.
    unfold fifo_remove. rewrite k_q_upd_sem, Hq. cbn [obind].
    apply (set_ready_eq idle w RDY_OK (upd_q (QSem sp) l (upd_sem sp (k_sem s sp + 1) s)));
      [done| |].
    + apply (off_float idle s (QSem sp) [] l w); [done..|].
      apply sem_counters; [done|unfold is_s32; lia|simpl; lia].
    + intros _. by apply (off_not_ready idle s (QSem sp) [] l w).
Qed.

Lemma sem_assert_bind {A} fl s sp m (k : unit -> KM A) :
  KI fl s -> (let! x := sem_assert sp m in k x) s = k tt s.
Proof. intros HI. apply done_bind. by apply (sem_assert_ok fl). Qed.

Lemma set_cnt_bind {A} s sp f (k : unit -> KM A) :
  is_s32 (f (k_sem s sp)) ->
  (let! x := set_cnt sp f in k x) s = k tt (upd_sem sp (f (k_sem s sp)) s).
Proof.
  intros Hf. apply done_bind. unfold set_cnt, modify. by rewrite s32_small.
Qed.

Lemma chSemSignal_safe t ml sp s :
  Ust idle J t ml s -> k_sem s sp < 2^31 - 1 ->
  safe t (fun _ s' => Ust idle J t ml s') (chSemSignal sp s).
Proof.
  intros HU Hmax. unfold chSemSignal. rewrite (sem_assert_bind None) by apply HU.
  apply (lock_bind idle J t ml); [done|]. intros [HM Hhp].
  destruct (with_lock_rest 1 s) as (Ek & _). rewrite <-Ek in Hmax.
  revert HM Hhp Hmax. generalize (with_lock 1 s). clear. intros s HM Hhp Hmax.
  pose proof HM as (HI & _). destruct (sem_len _ s sp HI) as [Hs Hl].
  unfold is_s32 in Hs. rewrite set_cnt_bind by (unfold is_s32; lia).
  apply osafe_bind. rewrite k_sem_upd.
  destruct (k_q s (QSem sp)) as [|w l] eqn:Hq; simpl in Hl.
  - rewrite (proj2 (Z.leb_gt _ _)) by lia.
    apply (chSysUnlock_rule idle J t ml); [|done]. split; [|done].
    pose proof (signal_st_istep s sp HI ltac:(lia)) as Hi. unfold signal_st in Hi.
    rewrite Hq in Hi. by apply (istep_Mst _ _ _ _ _ _ Hi).
  - rewrite (proj2 (Z.leb_le _ _)) by lia.
    unfold bind, fifo_remove. rewrite k_q_upd_sem, Hq. cbn [obind].
    pose proof (sem_counters s sp l (k_sem s sp + 1) HI) as Hc.
    apply (chSchWakeupS_rule idle J t ml).
    + apply (off_Fst idle J s (QSem sp) [] l w); try done.
      apply Hc; [unfold is_s32; lia|lia].
    + by apply (off_HP s (QSem sp) [] l).
    + intros s' HS'. by apply (chSysUnlock_rule idle J t ml).
Qed.

(** ** Wait *)

Lemma sem_insert_eq s t q :
  exists L, sem_insert t q s = Done tt (upd_q q L s) /\ L ≡ₚ t :: k_q s q /\
    (CH_USE_SEMAPHORES_PRIORITY = true ->
       Lst.psorted (k_prio s) (k_q s q) -> Lst.psorted (k_prio s) L) /\
    (CH_USE_SEMAPHORES_PRIORITY = false -> L = k_q s q ++ [t]).
Proof.
  unfold sem_insert. destruct CH_USE_SEMAPHORES_PRIORITY; eexists; (split; [reflexivity|]).
  - split_and!; [apply Lst.prio_ins_perm| |done]. intros _. apply Lst.prio_ins_sorted.
  - split_and!; [|done..]. rewrite (Permutation_app_comm _ [t]). done.
Qed.

(** Any position in the queue that respects the ordering option will do;
    [s1] is the state in which the code computes it. *)
Lemma sem_wait_enter s s1 sp :
  KI None s -> k_curr s <> idle -> -2^31 < k_sem s sp -> k_sem s sp <= 0 ->
  (forall u, k_prio s1 u = k_prio s u) -> k_q s1 = k_q s ->
  exists L,
    sem_insert (k_curr s) (QSem sp) s1 = Done tt (upd_q (QSem sp) L s1) /\
    L ≡ₚ k_curr s :: k_q s (QSem sp) /\
    (CH_USE_SEMAPHORES_PRIORITY = false -> L = k_q s (QSem sp) ++ [k_curr s]) /\
    (UB s -> sleeper idle THD_STATE_WTSEM
      (enq_st (QSem sp) L (<[sp := k_sem s sp - 1]> (k_sem s))) s).
Proof.
  intros HI Hid Hmin Hk Ep Eq. destruct (sem_len _ s sp HI) as [Hs Hl]. unfold is_s32 in Hs.
  destruct (sem_insert_eq s1 (k_curr s) (QSem sp)) as (L & E & HL & Hso & Hf).
  rewrite Eq in *. exists L. split; [exact E|]. split; [exact HL|]. split; [exact Hf|].
  intros Hub. apply sleeper_sem; try done; [| |by apply enq_UB].
  - intros Hp. apply (Lst.psorted_ext (k_prio s1)); [done|]. apply Hso; [done|].
    apply (Lst.psorted_ext (k_prio s)); [done|]. by apply (i_sorted _ _ _ HI).
  - apply sem_counters; [done|unfold is_s32; lia|]. rewrite HL. simpl. lia.
Qed.

Lemma set_p_u_prio s t (pu : punion) u : k_prio (upd_thd t (set_p_u pu) s) u = k_prio s u.
Proof. unfold k_prio. simpl. rewrite fn_insert_dec. by case_decide; subst. Qed.

Lemma chSemWaitS_safe t ml sp s :
  Sst idle J t ml s -> t <> idle -> -2^31 < k_sem s sp ->
  safe t (fun _ s' => Sst idle J t ml s') (chSemWaitS sp s).
Proof.
  intros [HM Hhp] Hid Hmin. pose proof HM as (HI & [_ Hub] & Hc & HL & _).
  destruct (sem_len _ s sp HI) as [Hs Hl]. unfold is_s32 in Hs.
  unfold chSemWaitS. rewrite classS_bind by done. rewrite (sem_assert_bind None) by done.
  rewrite set_cnt_bind by (unfold is_s32; lia). rewrite k_sem_upd.
  destruct (Z.ltb_spec (k_sem s sp - 1) 0) as [Hlt|Hge].
  - unfold bind at 1, currp, gets. cbn [obind]. unfold bind at 1. cbn [set_thd modify obind].
    destruct (sem_wait_enter s (upd_thd (k_curr s) (set_p_u (U_wtobjp (QSem sp)))
      (upd_sem sp (k_sem s sp - 1) s)) sp) as (L & E & _ & _ & HS);
      [done|congruence|lia|lia|by intros u; rewrite set_p_u_prio|done|].
    rewrite (done_bind _ _ _ _ _ E). apply osafe_bind.
    apply (chSchGoSleepS_rule idle J t ml _ (enq_st (QSem sp) L _)); [by apply Mst_weak|done|by apply HS|].
    intros s' HS' _. rewrite gain_other in HS' by done. done.
  - simpl. split; [|done].
    apply (istep_Mst idle J t ml s); [|done]. split; try done.
    apply upd_sem_inv; [done|unfold is_s32; lia|]. lia.
Qed.

Lemma upd_sem_back s sp n : keq (upd_sem sp (k_sem s sp) (upd_sem sp n s)) s.
Proof.
  split; try done. intros sp'. simpl. rewrite !fn_insert_dec. by case_decide; subst.
Qed.

Lemma chSemWaitTimeoutS_safe t ml sp time s :
  Sst idle J t ml s -> t <> idle -> -2^31 < k_sem s sp -> 0 <= time < 2^32 ->
  safe t (fun _ s' => Sst idle J t ml s') (chSemWaitTimeoutS sp time s).
Proof.
  intros [HM Hhp] Hid Hmin Htime. pose proof HM as (HI & [_ Hub] & Hc & HL & _).
  destruct (sem_len _ s sp HI) as [Hs Hl]. unfold is_s32 in Hs.
  unfold chSemWaitTimeoutS. rewrite classS_bind by done.
  rewrite (sem_assert_bind None) by done.
  rewrite set_cnt_bind by (unfold is_s32; lia). rewrite k_sem_upd.
  destruct (Z.ltb_spec (k_sem s sp - 1) 0) as [Hlt|Hge].
  - destruct (time =? TIME_IMMEDIATE) eqn:Hti.
    + rewrite set_cnt_bind by (rewrite k_sem_upd; unfold is_s32; lia).
      rewrite k_sem_upd. simpl. replace (k_sem s sp - 1 + 1) with (k_sem s sp) by lia.
      split; [|done]. apply (istep_Mst idle J t ml s); [|done]. split; try done.
      by rewrite upd_sem_back.
    + apply Z.eqb_neq in Hti. unfold TIME_IMMEDIATE in Hti.
      unfold bind at 1, currp, gets. cbn [obind]. unfold bind at 1. cbn [set_thd modify obind].
      destruct (sem_wait_enter s (upd_thd (k_curr s) (set_p_u (U_wtobjp (QSem sp)))
        (upd_sem sp (k_sem s sp - 1) s)) sp) as (L & E & _ & _ & HS);
        [done|congruence|lia|lia|by intros u; rewrite set_p_u_prio|done|].
      rewrite (done_bind _ _ _ _ _ E).
      apply (chSchGoSleepTimeoutS_rule idle J t ml _ (enq_st (QSem sp) L _));
        [by apply Mst_weak|done|by apply HS|done|lia|done].
  - simpl. split; [|done].
    apply (istep_Mst idle J t ml s); [|done]. split; try done.
    apply upd_sem_inv; [done|unfold is_s32; lia|]. lia.
Qed.

(** ** API functions *)

Lemma with_lock_sem sp s : k_sem (with_lock 1 s) sp = k_sem s sp.
Proof. by rewrite (proj1 (with_lock_rest 1 s)). Qed.

Lemma chSemWait_safe t ml sp s :
  Ust idle J t ml s -> t <> idle -> -2^31 < k_sem s sp ->
  safe t (fun _ s' => Ust idle J t ml s') (chSemWait sp s).
Proof.
  intros HU Hid Hmin. apply (lock_bind idle J t ml); [done|]. intros HS.
  apply osafe_bind. eapply osafe_mono; [|apply (chSemWaitS_safe t ml)]; try done.
  - intros msg s' HS'. by apply (unlock_bind idle J t ml).
  - by rewrite with_lock_sem.
Qed.

Lemma chSemWaitTimeout_safe t ml sp time s :
  Ust idle J t ml s -> t <> idle -> -2^31 < k_sem s sp -> 0 <= time < 2^32 ->
  safe t (fun _ s' => Ust idle J t ml s') (chSemWaitTimeout sp time s).
Proof.
  intros HU Hid Hmin Ht. apply (lock_bind idle J t ml); [done|]. intros HS.
  apply osafe_bind. eapply osafe_mono; [|apply (chSemWaitTimeoutS_safe t ml)]; try done.
  - intros msg s' HS'. by apply (unlock_bind idle J t ml).
  - by rewrite with_lock_sem.
Qed.

(** ** Adding to the counter *)

Lemma add_counter_step_eq s sp :
  locked_I s -> KI None s -> k_sem s sp < 2^31 - 1 ->
  exists s', add_counter_step sp s = Done tt s' /\ keq s' (signal_st sp s) /\
    istep idle s s'.
Proof.
  intros HL HI Hmax. destruct (sem_len _ s sp HI) as [Hs Hl]. unfold is_s32 in Hs.
  pose proof (signal_st_istep s sp HI Hmax) as Hi. unfold signal_st in *.
  unfold add_counter_step. rewrite set_cnt_bind by (unfold is_s32; lia).
  rewrite k_sem_upd.
  destruct (k_q s (QSem sp)) as [|w l] eqn:Hq; simpl in Hl.
  - rewrite (proj2 (Z.leb_gt _ _)) by lia. by eexists.
  - rewrite (proj2 (Z.leb_le _ _)) by lia.
    unfold bind, fifo_remove. rewrite k_q_upd_sem, Hq. cbn [obind].
    assert (KI (Some w) (upd_q (QSem sp) l (upd_sem sp (k_sem s sp + 1) s))) as HF.
    { apply (off_float idle s (QSem sp) [] l w); [done..|].
      apply sem_counters; [done|unfold is_s32; lia|simpl; lia]. }
    rewrite (ready_with_eq idle); [|done..|].
    2: { intros _. by apply (off_not_ready idle s (QSem sp) [] l w). }
    eexists. split_and!; [done|apply wake_st_keq|].
    apply (off_istep' idle s (QSem sp) [] l w); [done..|].
    apply sem_counters; [done|unfold is_s32; lia|simpl; lia].
Qed.

Lemma signal_st_sem s sp : k_sem (signal_st sp s) sp = k_sem s sp + 1.
Proof. unfold signal_st. destruct (k_q s (QSem sp)); simpl; by rewrite fn_insert_eq. Qed.

Lemma signal_st_q s sp : k_q (signal_st sp s) (QSem sp) = tail (k_q s (QSem sp)).
Proof.
  unfold signal_st. destruct (k_q s (QSem sp)) as [|w l] eqn:Hq; [done|].
  simpl. rewrite fn_insert_ne by done. by rewrite fn_insert_eq.
Qed.

(** [n] signals: the counter grows by [n] and the first [n] waiting threads
    leave the queue. *)
Lemma add_counter_loop_eq n s sp :
  locked_I s -> KI None s -> k_sem s sp + Z.of_nat n < 2^31 ->
  exists s', add_counter_loop n sp s = Done tt s' /\ istep idle s s' /\
    k_sem s' sp = k_sem s sp + Z.of_nat n /\
    k_q s' (QSem sp) = drop n (k_q s (QSem sp)).
Proof.
  revert s. induction n as [|n IH]; intros s HL HI Hmax.
  - exists s. split_and!; [done|by apply istep_refl|lia|done].
  - destruct (add_counter_step_eq s sp) as (s1 & E & K & Hi); [done..|lia|].
    assert (k_sem s1 sp = k_sem s sp + 1) as Es
      by (rewrite (keq_sem _ _ K); apply signal_st_sem).
    destruct (IH s1) as (s2 & E2 & Hi2 & Ek & Eq);
      [by apply (istep_locked idle s)|apply Hi|lia|].
    exists s2. cbn [add_counter_loop]. rewrite (done_bind _ _ _ _ _ E), E2.
    split_and!; [done|by eapply istep_trans|lia|].
    rewrite Eq, (keq_q _ _ K), signal_st_q. by destruct (k_q s (QSem sp)); destruct n.
Qed.

Lemma chSemAddCounterI_eq n s sp :
  locked_I s -> KI None s -> 0 < n -> k_sem s sp + n < 2^31 ->
  exists s', chSemAddCounterI sp n s = Done tt s' /\ istep idle s s' /\
    k_sem s' sp = k_sem s sp + n /\
    k_q s' (QSem sp) = drop (Z.to_nat n) (k_q s (QSem sp)).
Proof.
  intros HL HI Hn Hmax. unfold chSemAddCounterI. rewrite classI_bind by done.
  rewrite check_bind by lia. rewrite (sem_assert_bind None) by done.
  destruct (add_counter_loop_eq (Z.to_nat n) s sp) as (s' & ? & ? & ? & ?); [done..|lia|].
  exists s'. split_and!; try done. lia.
Qed.

(** ** Reset

    The counter is overwritten before the queue is emptied, so the
    invariant holds inside the loop for the counter the queue stands for. *)

Definition as_if sp n s : kstate := upd_sem sp n s.

Lemma lifo_remove_eq s q l w :
  k_q s q = l ++ [w] -> lifo_remove q s = Done w (upd_q q l s).
Proof. intros Hq. unfold lifo_remove. by rewrite Hq, reverse_snoc, reverse_involutive. Qed.

Lemma reset_step s sp l w :
  KI None (as_if sp (- Z.of_nat (length (l ++ [w]))) s) -> locked_I s ->
  k_q s (QSem sp) = l ++ [w] ->
  exists s', (let! tp := lifo_remove (QSem sp) in ready_with tp RDY_RESET) s = Done tt s' /\
    istep idle (as_if sp (- Z.of_nat (length (l ++ [w]))) s)
               (as_if sp (- Z.of_nat (length l)) s') /\
    k_sem s' = k_sem s /\ k_q s' (QSem sp) = l /\
    forall u, k_thd s' u =
      if decide (w = u) then set_p_state THD_STATE_READY (set_p_u (U_msg RDY_RESET) (k_thd s u))
      else k_thd s u.
Proof.
  intros HI HL Hq. set (n := - Z.of_nat (length (l ++ [w]))) in *.
  assert (k_q (as_if sp n s) (QSem sp) = l ++ w :: []) as Hq' by done.
  set (s1 := upd_q (QSem sp) l s).
  assert (p_state (k_thd s w) <> THD_STATE_READY) as Hr
    by (by apply (off_not_ready idle (as_if sp n s) (QSem sp) l [] w)).
  assert (home (k_thd s w) = Some (QSem sp)) as Hh.
  { apply (inv_placed idle (as_if sp n s)); [done|]. rewrite Hq'. set_solver. }
  destruct (home_state _ _ Hh) as (_ & Hf & _).
  exists (upd_thd w (set_p_u (U_msg RDY_RESET)) (ready_st w s1)). split_and!.
  - rewrite (done_bind _ _ _ _ _ (lifo_remove_eq s (QSem sp) l w Hq)).
    fold s1. unfold ready_with, bind.
    rewrite chSchReadyI_eq; [done|done|apply (i_rprio _ _ _ HI)|by apply (i_prio _ _ _ HI)|
      done|done].
  - assert (forall sp', is_s32 (<[sp := - Z.of_nat (length l)]> (k_sem s) sp') /\
      Z.of_nat (length (<[QSem sp := l ++ []]> (k_q (as_if sp n s)) (QSem sp'))) =
        Z.max 0 (- <[sp := - Z.of_nat (length l)]> (k_sem s) sp')) as Hsem.
    { intros sp'. destruct (i_sem _ _ _ HI sp') as [H1 H2]. simpl in *.
      rewrite app_nil_r. subst n. rewrite !fn_insert_dec in *.
      repeat case_decide; simplify_eq; try done.
      unfold is_s32 in *. rewrite length_app in *. simpl in *. lia. }
    pose proof (off_istep' idle (as_if sp n s) (QSem sp) l [] w _ HI Hq' ltac:(done) ltac:(done) Hsem RDY_RESET) as Hi.
    revert Hi. apply keq_istep; [|done..].
    unfold off_st. rewrite app_nil_r. by split.
  - done.
  - simpl. rewrite fn_insert_ne by done. apply fn_insert_eq.
  - intros u. simpl. rewrite !fn_insert_dec. repeat case_decide; by subst.
Qed.

Lemma reset_loop_eq sp l : forall s,
  KI None (as_if sp (- Z.of_nat (length l)) s) -> locked_I s -> k_q s (QSem sp) = l ->
  exists s', reset_loop (length l) sp (- Z.of_nat (length l)) s = Done tt s' /\
    istep idle (as_if sp (- Z.of_nat (length l)) s) (as_if sp 0 s') /\
    k_sem s' = k_sem s /\ k_q s' (QSem sp) = [] /\
    (forall u, k_thd s' u =
      if decide (u ∈ l)
      then set_p_state THD_STATE_READY (set_p_u (U_msg RDY_RESET) (k_thd s u))
      else k_thd s u).
Proof.
  induction l as [|w l IH] using rev_ind; intros s HI HL Hq.
  - exists s. by split_and!.
  - destruct (reset_step s sp l w HI HL Hq) as (s1 & E1 & I1 & K1 & Q1 & T1).
    destruct (IH s1) as (s2 & E2 & I2 & K2 & Q2 & T2); [apply I1| |done|].
    { unfold locked_I in *. intros Hd. specialize (HL Hd).
      pose proof (is_lock _ _ _ I1). pose proof (is_isr _ _ _ I1). simpl in *. lia. }
    exists s2. split_and!; [|by eapply istep_trans|congruence|done|].
    + rewrite length_app. simpl. rewrite Nat.add_1_r. cbn [reset_loop].
      rewrite (proj2 (Z.leb_le _ _)) by lia.
      replace (- Z.of_nat (S (length l)) + 1) with (- Z.of_nat (length l)) by lia.
      unfold bind in *. destruct (lifo_remove (QSem sp) s); simpl in *; try discriminate.
      by rewrite E1.
    + intros u. rewrite T2, T1. pose proof (i_nodup _ _ _ HI (QSem sp)) as Hnd.
      simpl in Hnd. rewrite Hq in Hnd. apply list.NoDup_app in Hnd as (_ & Hd & _).
      specialize (Hd u). destruct (decide (w = u)), (decide (u ∈ l)),
        (decide (u ∈ l ++ [w])); try done; set_solver.
Qed.

(** [chSemResetI()]: every waiting thread becomes ready with [RDY_RESET]
    and the counter is [n]. *)
Lemma chSemResetI_eq s sp n :
  locked_I s -> KI None s -> 0 <= n < 2^31 ->
  exists s', chSemResetI sp n s = Done tt s' /\ istep idle s s' /\
    k_sem s' sp = n /\ k_q s' (QSem sp) = [] /\
    (forall u, k_thd s' u =
      if decide (u ∈ k_q s (QSem sp))
      then set_p_state THD_STATE_READY (set_p_u (U_msg RDY_RESET) (k_thd s u))
      else k_thd s u).
Proof.
  intros HL HI Hn. destruct (sem_len _ s sp HI) as [Hs Hl].
  set (l := k_q s (QSem sp)) in *.
  assert (keq (as_if sp (k_sem s sp) (upd_sem sp n s)) s) as K by apply upd_sem_back.
  unfold chSemResetI. rewrite classI_bind by done. rewrite check_bind by lia.
  rewrite (sem_assert_bind None) by done. unfold bind, gets, modify. cbn [obind].
  destruct (Z.leb_spec 0 (k_sem s sp)) as [Hk|Hk].
  - (* no thread is waiting *)
    assert (l = []) as El by (destruct l; [done|simpl in Hl; lia]).
    assert (reset_loop (Z.to_nat (- k_sem s sp)) sp (k_sem s sp) (upd_sem sp n s) =
            Done tt (upd_sem sp n s)) as ->.
    { destruct (Z.to_nat (- k_sem s sp)); cbn [reset_loop];
        by rewrite (proj2 (Z.leb_gt _ _)) by lia. }
    exists (upd_sem sp n s).
    split_and!; [done| |by rewrite k_sem_upd|done|by rewrite El].
    split; try done. apply upd_sem_inv; [done|unfold is_s32; lia|]. fold l.
    rewrite El. simpl. lia.
  - destruct (reset_loop_eq sp l (upd_sem sp n s)) as (s2 & E2 & I2 & K2 & Q2 & T2);
      [|done|done|].
    { replace (- Z.of_nat (length l)) with (k_sem s sp) by lia. by rewrite K. }
    replace (Z.to_nat (- k_sem s sp)) with (length l) by lia.
    replace (k_sem s sp) with (- Z.of_nat (length l)) by lia.
    exists s2. split_and!; try done.
    + destruct I2. split; try done.
      assert (keq (upd_sem sp n (as_if sp 0 s2)) s2) as Ke.
      { split; try done. intros sp'. simpl. rewrite !fn_insert_dec, K2. simpl.
        rewrite fn_insert_dec. by repeat case_decide. }
      rewrite <-Ke. apply upd_sem_inv; [done|unfold is_s32; lia|].
      simpl. rewrite Q2. simpl. lia.
    + rewrite K2. by rewrite k_sem_upd.
Qed.

(** The frame of the functions that wake threads under the lock and then
    reschedule. *)
Lemma istep_api t ml s (m : KM unit) :
  Ust idle J t ml s ->
  (exists s', m (with_lock 1 s) = Done tt s' /\ istep idle (with_lock 1 s) s') ->
  safe t (fun _ s' => Ust idle J t ml s')
    ((chSysLock ;;; m ;;; chSchRescheduleS ;;; chSysUnlock) s).
Proof.
  intros HU (s' & E & Hi). apply (lock_bind idle J t ml); [done|]. intros [HM Hhp].
  rewrite (done_bind _ _ _ _ _ E). apply osafe_bind.
  apply (chSchRescheduleS_rule idle J t ml); [by eapply istep_Mst|].
  intros s2 HS. by apply (chSysUnlock_rule idle J t ml).
Qed.

Lemma lock_KI t ml s : Ust idle J t ml s -> locked_I (with_lock 1 s) /\ KI None (with_lock 1 s).
Proof.
  intros (HI & _ & _ & _ & HU & _). split; [by auto with chibi|]. by apply KInv_lock.
Qed.

Lemma chSemReset_safe t ml sp n s :
  Ust idle J t ml s -> 0 <= n < 2^31 ->
  safe t (fun _ s' => Ust idle J t ml s') (chSemReset sp n s).
Proof.
  intros HU Hn. destruct (lock_KI _ _ _ HU) as [HL HI]. apply istep_api; [done|].
  destruct (chSemResetI_eq (with_lock 1 s) sp n) as (s' & E & Hi & _); eauto.
Qed.

Lemma chBSemSignalI_eq s sp :
  locked_I s -> KI None s -> k_sem s sp <= 1 ->
  exists s', chBSemSignalI sp s = Done tt s' /\ istep idle s s' /\ k_sem s' sp <= 1 /\
    (k_sem s sp = 1 -> s' = s) /\ (k_sem s sp < 1 -> s' = signal_st sp s).
Proof.
  intros HL HI H1. unfold chBSemSignalI. destruct (Z.ltb_spec (k_sem s sp) 1).
  - destruct (chSemSignalI_eq s sp) as [-> Hi]; [done..|lia|].
    exists (signal_st sp s). rewrite signal_st_sem. split_and!; try done; lia.
  - exists s. split_and!; try done; lia.
Qed.

Lemma chBSemSignal_safe t ml sp s :
  Ust idle J t ml s -> k_sem s sp <= 1 ->
  safe t (fun _ s' => Ust idle J t ml s') (chBSemSignal sp s).
Proof.
  intros HU Hn. destruct (lock_KI _ _ _ HU) as [HL HI]. apply istep_api; [done|].
  destruct (chBSemSignalI_eq (with_lock 1 s) sp) as (s' & E & Hi & _); eauto.
  by rewrite with_lock_sem.
Qed.

(** ** Signal and wait *)

Lemma chSemSignalWait_safe t ml sps spw s :
  Ust idle J t ml s -> t <> idle -> k_sem s sps < 2^31 - 1 -> -2^31 < k_sem s spw ->
  safe t (fun _ s' => Ust idle J t ml s') (chSemSignalWait sps spw s).
Proof.
  intros HU Hid Hmax Hmin. pose proof HU as (HI & _).
  unfold chSemSignalWait. rewrite !(sem_assert_bind None) by done.
  apply (lock_bind idle J t ml); [done|]. intros [HM Hhp].
  rewrite <-(with_lock_sem sps) in Hmax. rewrite <-(with_lock_sem spw) in Hmin. revert HM Hhp Hmax Hmin. generalize (with_lock 1 s).
  clear s HU HI. intros s HM Hhp Hmax Hmin. pose proof HM as (HI & [_ Hub] & Hc & HL & _).
  destruct (add_counter_step_eq s sps) as (s1 & E & K & Hi); [auto with chibi|done|done|].
  rewrite (done_bind _ _ _ _ _ E).
  pose proof (istep_Mst idle J t ml s s1 Hi HM) as HM1.
  pose proof HM1 as (HI1 & [_ Hub1] & Hc1 & HL1 & _).
  assert (-2^31 < k_sem s1 spw) as Hmin1.
  { rewrite (keq_sem _ _ K). destruct (decide (spw = sps)) as [->|Hne].
    - rewrite signal_st_sem. pose proof (sem_len _ s sps HI). unfold is_s32 in *. lia.
    - unfold signal_st. destruct (k_q s (QSem sps)); simpl; by rewrite fn_insert_ne. }
  destruct (sem_len _ s1 spw HI1) as [Hs Hl]. unfold is_s32 in Hs.
  rewrite set_cnt_bind by (unfold is_s32; lia). apply osafe_bind. rewrite k_sem_upd.
  assert (forall (a : Z) s', Sst idle J t ml s' -> safe t (fun _ s' => Ust idle J t ml s')
    ((chSysUnlock ;;; mret' a) s')) as Hend.
  { intros a s' HS. by apply (unlock_bind idle J t ml). }
  apply (osafe_mono _ _ (fun _ => Sst idle J t ml)); [exact Hend|].
  destruct (Z.ltb_spec (k_sem s1 spw - 1) 0) as [Hlt|Hge].
  - unfold bind at 1, currp, gets. cbn [obind].
    change (k_curr (upd_sem spw (k_sem s1 spw - 1) s1)) with (k_curr s1).
    destruct (sem_wait_enter s1 (upd_sem spw (k_sem s1 spw - 1) s1) spw)
      as (L & E1 & _ & _ & HS); [done|congruence|lia|lia|done|done|].
    rewrite (done_bind _ _ _ _ _ E1). unfold bind at 1. cbn [set_thd modify obind].
    apply osafe_bind.
    apply (chSchGoSleepS_rule idle J t ml _ (enq_st (QSem spw) L _)); [by apply Mst_weak|done|by apply HS|].
    intros s' HS' _. by rewrite gain_other in HS'.
  - apply osafe_bind. apply (chSchRescheduleS_rule idle J t ml); [|done].
    apply (istep_Mst idle J t ml s1); [|done]. split; try done.
    apply upd_sem_inv; [done|unfold is_s32; lia|lia].
Qed.

(** ** Initialization *)

Lemma chSemInit_eq fl s sp n :
  KI fl s -> 0 <= n < 2^31 -> k_q s (QSem sp) = [] ->
  exists s', chSemInit sp n s = Done tt s' /\ KI fl s' /\ k_sem s' sp = n.
Proof.
  intros HI Hn Hq. unfold chSemInit. rewrite check_bind by lia.
  exists (upd_sem sp n (upd_q (QSem sp) [] s)). split_and!; [done| |apply k_sem_upd].
  assert (keq (upd_sem sp n (upd_q (QSem sp) [] s)) (upd_sem sp n s)) as ->.
  { split; try done. intros q. simpl. rewrite fn_insert_dec. by case_decide; subst. }
  apply upd_sem_inv; [done|unfold is_s32; lia|]. rewrite Hq. simpl. lia.
Qed.
End SemOK.
