(* ===== verification/MtxOK.v ===== *)
(** * Correctness of the mutexes *)
From S2P Require Import Prelude Monad Types ThdLists VT Sched Sem Mtx.
From S2P Require Import Inv InvPrim InvSched Rules Wake.

Implicit Types (s : kstate) (t u w c : tid) (mp : mid) (q : qid) (ml : list mid).

Section Base.
Context `{Config}.
Variable idle : tid.
Local Abbreviation KI := (KInv idle).

(** ** Changes of ownership and of priority *)

Definition own_st (m : mid -> option tid) (own : tid -> list mid) s : kstate :=
  set_k_mtx m (set_k_thd (fun t => set_p_mtxlist (own t) (k_thd s t)) s).

Lemma own_st_inv fl s m own :
  KI fl s ->
  (forall mp t, m mp = Some t <-> mp ∈ own t) -> (forall t, NoDup (own t)) ->
  (forall mp, m mp = None -> k_q s (QMtx mp) = []) ->
  KI fl (own_st m own s).
Proof. intros HI H1 H2 H3. kinv_open HI. split; kinv_same. Qed.

Definition prio_st (pr : tid -> Z) (Q : qid -> list tid) s : kstate :=
  set_k_q Q (set_k_thd (fun t => set_p_prio (pr t) (k_thd s t)) s).

Lemma prio_st_inv fl s pr Q :
  KI fl s ->
  (forall q, Q q ≡ₚ k_q s q) ->
  (forall q, prio_queue q = true -> Lst.psorted pr (Q q)) ->
  (forall t, p_state (k_thd s t) <> THD_STATE_FINAL -> NOPRIO < pr t) ->
  KI fl (prio_st pr Q s).
Proof.
  intros HI HQ Hso Hpr. kinv_open HI. split; kinv_same; simpl.
  - intros t q Ht. rewrite HQ. by apply Ipl.
  - intros t Ht. destruct (Ifl t Ht) as (F1 & F2 & F3 & F4).
    split_and!; try done. intros q. rewrite HQ. apply F1.
  - intros q. rewrite HQ. apply Ind.
  - intros sp. rewrite HQ. apply Ise.
  - intros mp Hm. apply Permutation_nil. by rewrite HQ, Ifr.
Qed.

(** A thread gets a new priority and queue [q], the only priority queue
    that can hold it, is reordered. *)
Lemma reprio_inv fl s t p q L :
  KI fl s -> NOPRIO < p -> L ≡ₚ k_q s q ->
  (prio_queue q = true -> Lst.psorted (<[t := p]> (k_prio s)) L) ->
  (forall q', q' <> q -> prio_queue q' = true -> t ∉ k_q s q') ->
  KI fl (upd_q q L (upd_thd t (set_p_prio p) s)).
Proof.
  intros HI Hp HL Hso Ho.
  assert (keq (upd_q q L (upd_thd t (set_p_prio p) s))
              (prio_st (<[t := p]> (k_prio s)) (<[q := L]> (k_q s)) s)) as ->.
  { split; try done. intros u. simpl. unfold k_prio. rewrite !fn_insert_dec.
    case_decide; subst; [done|]. by destruct (k_thd s u). }
  apply prio_st_inv; [done|..].
  - intros q'. rewrite fn_insert_dec. by case_decide; subst.
  - intros q' Hq'. rewrite fn_insert_dec. case_decide; [subst; auto|].
    apply (Lst.psorted_ext (k_prio s)); [|by apply (i_sorted _ _ _ HI)].
    intros u Hu. rewrite fn_insert_ne; [done|]. intros <-. by apply (Ho q').
  - intros u Hu. rewrite fn_insert_dec. case_decide; [done|]. by apply (i_prio _ _ _ HI).
Qed.

Lemma upd_q_same q L s : L = k_q s q -> keq (upd_q q L s) s.
Proof.
  intros ->. split; try done. intros q'. simpl. rewrite fn_insert_dec.
  by case_decide; subst.
Qed.

Lemma reprio_plain_inv fl s t p :
  KI fl s -> NOPRIO < p -> (forall q, prio_queue q = true -> t ∉ k_q s q) ->
  KI fl (upd_thd t (set_p_prio p) s).
Proof.
  intros HI Hp Ho.
  rewrite <-(upd_q_same QReady (k_q s QReady) (upd_thd t (set_p_prio p) s)) by done.
  apply reprio_inv; try done; [|auto].
  intros _. apply (Lst.psorted_ext (k_prio s)); [|by apply (i_sorted _ _ _ HI)].
  intros u Hu. rewrite fn_insert_ne; [done|]. intros <-. by apply (Ho QReady).
Qed.

(** [dequeue()] when the thread is on one queue. *)
Lemma dequeue_eq s t q :
  (forall q', q' <> q -> t ∉ k_q s q') ->
  keq (set_k_q (fun q => lremove t (k_q s q)) s) (upd_q q (lremove t (k_q s q)) s).
Proof.
  intros Ho. split; try done. intros q'. simpl. rewrite fn_insert_dec.
  case_decide; [by subst|]. by rewrite lremove_notin by auto.
Qed.

(** ** The priority an owner is left with *)

Lemma scan_owned_spec s l p :
  p <= scan_owned s l p /\
  (forall mp h k, mp ∈ l -> k_q s (QMtx mp) = h :: k -> k_prio s h <= scan_owned s l p) /\
  (scan_owned s l p = p \/
   exists mp h k, mp ∈ l /\ k_q s (QMtx mp) = h :: k /\ scan_owned s l p = k_prio s h).
Proof.
  revert p. induction l as [|m l IH]; intros p; cbn [scan_owned].
  { split_and!; [lia|set_solver|by left]. }
  set (p1 := match k_q s (QMtx m) with
             | t :: _ => if p <? k_prio s t then k_prio s t else p | [] => p end).
  assert (p <= p1 /\ (forall h k, k_q s (QMtx m) = h :: k -> k_prio s h <= p1) /\
          (p1 = p \/ exists h k, k_q s (QMtx m) = h :: k /\ p1 = k_prio s h)) as (P1 & P2 & P3).
  { unfold p1. destruct (k_q s (QMtx m)) as [|h k]; [split_and!; [lia|done|by left]|].
    destruct (Z.ltb_spec p (k_prio s h)); split_and!; try lia; eauto;
      intros ? ? [= <- <-]; lia. }
  destruct (IH p1) as (I1 & I2 & I3). split_and!; [lia| |].
  - intros mp h k [->|Hm]%elem_of_cons Hq; [specialize (P2 _ _ Hq); lia|eauto].
  - destruct I3 as [I3|(mp & h & k & Hm & Hq & I3)].
    + rewrite I3. destruct P3 as [P3|(h & k & Hq & P3)]; [by left|].
      right. exists m, h, k. split_and!; [set_solver|done|done].
    + right. exists mp, h, k. split_and!; [set_solver|done|done].
Qed.

Lemma scan_ge s l r p :
  p <= scan_owned s l r <->
  p <= r \/ exists mp h k, mp ∈ l /\ k_q s (QMtx mp) = h :: k /\ p <= k_prio s h.
Proof.
  destruct (scan_owned_spec s l r) as (S1 & S2 & S3). split.
  - intros Hp. destruct S3 as [E|(mp & h & k & Hm & Hq & E)]; rewrite E in Hp; eauto 8.
  - intros [Hp|(mp & h & k & Hm & Hq & Hp)]; [lia|]. specialize (S2 mp h k Hm Hq). lia.
Qed.

(** The bound of one thread. *)
Definition ubt s u : Prop :=
  k_prio s u <= scan_owned s (p_mtxlist (k_thd s u)) (p_realprio (k_thd s u)).

(** It survives if the first thread of every queue only gets stronger. *)
Definition heads_le s s' : Prop := forall mp h k, k_q s (QMtx mp) = h :: k ->
  exists h' k', k_q s' (QMtx mp) = h' :: k' /\ k_prio s h <= k_prio s' h'.

Lemma ubt_mono s s' u :
  heads_le s s' -> k_prio s' u <= k_prio s u ->
  (forall mp, mp ∈ p_mtxlist (k_thd s u) -> mp ∈ p_mtxlist (k_thd s' u)) ->
  p_realprio (k_thd s' u) = p_realprio (k_thd s u) -> ubt s u -> ubt s' u.
Proof.
  unfold ubt. rewrite !scan_ge. intros Hh Hp Hm Hr [Hu|(mp & h & k & Hin & Hq & Hu)].
  - left. lia.
  - right. destruct (Hh mp h k Hq) as (h' & k' & Hq' & Hle).
    exists mp, h', k'. split_and!; [auto|done|lia].
Qed.

(** A stronger thread in a sorted queue gives a stronger head. *)
Lemma sorted_head_ge s q t : Lst.psorted (k_prio s) (k_q s q) -> t ∈ k_q s q ->
  exists h k, k_q s q = h :: k /\ k_prio s t <= k_prio s h.
Proof.
  intros Hs Ht. destruct (k_q s q) as [|h k]; [set_solver|].
  exists h, k. split; [done|]. by apply (Lst.psorted_head _ _ _ _ Hs).
Qed.

(** ** Priority inheritance *)

(** Only priorities change, upwards, and the queues are reordered. *)
Record boost s s' : Prop := {
  b_inv : KI None s';
  b_thd : forall u, k_thd s' u = set_p_prio (k_prio s' u) (k_thd s u);
  b_le : forall u, k_prio s u <= k_prio s' u;
  b_q : forall q, k_q s' q ≡ₚ k_q s q;
  b_fifo : forall q, prio_queue q = false -> k_q s' q = k_q s q;
  b_curr : k_curr s' = k_curr s;
  b_reg : k_reg s' = k_reg s;
  b_mtx : k_mtx s' = k_mtx s;
  b_sem : k_sem s' = k_sem s;
  b_vt : k_vt s' = k_vt s;
  b_vtl : k_vtl s' = k_vtl s;
  b_data : kdata s' = kdata s;
  b_lock : k_lock_cnt s' = k_lock_cnt s;
  b_isr : k_isr_cnt s' = k_isr_cnt s
}.

Lemma boost_trans s1 s2 s3 : boost s1 s2 -> boost s2 s3 -> boost s1 s3.
Proof.
  intros [] []. split; try congruence.
  - intros u. rewrite b_thd1, b_thd0. by destruct (k_thd s1 u).
  - intros u. etrans; [apply b_le0|apply b_le1].
  - intros q. by rewrite b_q1.
  - intros q Hq. by rewrite b_fifo1, b_fifo0.
Qed.

Lemma boost_refl s : KI None s -> boost s s.
Proof. intros HI. split; try done. intros u. unfold k_prio. by destruct (k_thd s u). Qed.

Lemma boost_heads s s' : boost s s' -> heads_le s s'.
Proof.
  intros Hb mp h k Hq.
  destruct (sorted_head_ge s' (QMtx mp) h) as (h' & k' & Hq' & Hle).
  - by apply (i_sorted _ _ _ (b_inv _ _ Hb)).
  - rewrite (b_q _ _ Hb), Hq. set_solver.
  - exists h', k'. split; [done|]. pose proof (b_le _ _ Hb h). lia.
Qed.

Lemma boost_ubt s s' u : boost s s' -> k_prio s' u = k_prio s u -> ubt s u -> ubt s' u.
Proof.
  intros Hb Hp. apply ubt_mono; [by apply boost_heads|lia|..]; by rewrite (b_thd _ _ Hb).
Qed.

(** A raise of one thread, with queue [q] reordered. *)
Lemma raise_boost s s' t p q L :
  KI None s -> NOPRIO < p -> k_prio s t <= p ->
  L ≡ₚ k_q s q -> (prio_queue q = false -> L = k_q s q) ->
  (prio_queue q = true -> Lst.psorted (<[t := p]> (k_prio s)) L) ->
  (forall q', q' <> q -> prio_queue q' = true -> t ∉ k_q s q') ->
  keq s' (upd_q q L (upd_thd t (set_p_prio p) s)) ->
  k_mtx s' = k_mtx s -> k_sem s' = k_sem s -> k_vt s' = k_vt s -> kdata s' = kdata s ->
  boost s s' /\ forall u, k_prio s' u = <[t := p]> (k_prio s) u.
Proof.
  intros HI Hp Hle HL Hfi Hso Ho K E1 E2 E3 E4.
  assert (forall u, k_prio s' u = <[t := p]> (k_prio s) u) as Epr.
  { intros u. unfold k_prio. rewrite (keq_thd _ _ K). simpl. rewrite !fn_insert_dec.
    by case_decide; subst. }
  split; [|done]. destruct K. simpl in *. split; try done.
  - assert (keq s' (upd_q q L (upd_thd t (set_p_prio p) s))) as -> by (by split).
    by apply reprio_inv.
  - intros u. rewrite Epr, keq_thd, !fn_insert_dec. case_decide; subst; [done|].
    unfold k_prio. by destruct (k_thd s u).
  - intros u. rewrite Epr, fn_insert_dec. case_decide; by subst.
  - intros q'. rewrite keq_q, fn_insert_dec. by case_decide; subst.
  - intros q' Hq'. rewrite keq_q, fn_insert_dec. case_decide; subst; auto.
Qed.

(** The position of a raised thread in its queue. *)
Lemma reinsert_sorted s t p q (pr : tid -> Z) :
  KI None s -> prio_queue q = true -> t ∈ k_q s q ->
  (forall u, pr u = <[t := p]> (k_prio s) u) ->
  let L := Lst.prio_ins pr t (lremove t (k_q s q)) in
  L ≡ₚ k_q s q /\ Lst.psorted (<[t := p]> (k_prio s)) L.
Proof.
  intros HI Hq Ht Hpr L. split.
  - unfold L. rewrite Lst.prio_ins_perm. apply lremove_perm; [|done].
    apply (i_nodup _ _ _ HI).
  - apply (Lst.psorted_ext pr); [done|]. apply Lst.prio_ins_sorted.
    apply (Lst.psorted_ext (k_prio s)).
    + intros u Hu. rewrite Hpr, fn_insert_ne; [done|].
      apply elem_of_lremove in Hu as [Hu _]. congruence.
    + apply Lst.psorted_filter. by apply (i_sorted _ _ _ HI).
Qed.

Lemma raised_prio s t p u : k_prio (upd_thd t (set_p_prio p) s) u = <[t := p]> (k_prio s) u.
Proof. unfold k_prio. simpl. rewrite !fn_insert_dec. by case_decide. Qed.

(** Moving a raised thread in the queue it waits on. *)
Lemma requeue_ok s t p q :
  KI None s -> NOPRIO < p -> k_prio s t <= p ->
  home (k_thd s t) = Some q -> u_wtobjp (p_u (k_thd s t)) = Some q ->
  prio_queue q = true ->
  exists s', requeue t (upd_thd t (set_p_prio p) s) = Done tt s' /\ boost s s' /\
    forall u, k_prio s' u = <[t := p]> (k_prio s) u.
Proof.
  intros HI Hp Hle Hh Hu Hq.
  assert (t ∈ k_q s q) as Ht by (by apply (i_place _ _ _ HI)).
  assert (forall q', q' <> q -> t ∉ k_q s q') as Ho.
  { intros q' Hne Hx. apply Hne. by apply (inv_one_queue idle s t). }
  set (s1 := upd_thd t (set_p_prio p) s).
  set (s2 := set_k_q (fun q => lremove t (k_q s q)) s1).
  assert (forall u, k_prio s2 u = <[t := p]> (k_prio s) u) as Epr by apply raised_prio.
  destruct (reinsert_sorted s t p q (k_prio s2) HI Hq Ht Epr) as [HL Hso].
  eexists. split.
  - unfold requeue, bind, thd, gets. cbn [obind]. unfold dequeue. cbn [obind].
    assert (u_wtobjp (p_u (k_thd s1 t)) = Some q) as ->
      by (unfold s1; simpl; by rewrite fn_insert_eq).
    reflexivity.
  - apply (raise_boost s _ t p q (Lst.prio_ins (k_prio s2) t (lremove t (k_q s q))));
      try done; [congruence|auto|].
    split; try done. intros q'. simpl. rewrite !fn_insert_dec. case_decide; [done|].
    by rewrite lremove_notin by auto.
Qed.

(** Moving a raised thread in the ready list. *)
Lemma reready_ok s t p :
  locked_I s -> KI None s -> NOPRIO < p -> k_prio s t <= p ->
  p_state (k_thd s t) = THD_STATE_READY ->
  exists s',
    ((whenb CH_DBG_ENABLE_ASSERTS then set_thd t (set_p_state THD_STATE_CURRENT)) ;;;
     dequeue t ;;; chSchReadyI t ;;; mret' tt) (upd_thd t (set_p_prio p) s) = Done tt s' /\
    boost s s' /\ forall u, k_prio s' u = <[t := p]> (k_prio s) u.
Proof.
  intros HL HI Hp Hle Hst.
  assert (home (k_thd s t) = Some QReady) as Hh by (unfold home; by rewrite Hst).
  assert (t ∈ k_q s QReady) as Ht by (by apply (i_place _ _ _ HI)).
  assert (forall q', q' <> QReady -> t ∉ k_q s q') as Ho.
  { intros q' Hne Hx. apply Hne. by apply (inv_one_queue idle s t). }
  set (s0 := upd_thd t (set_p_prio p) s).
  set (s1 := if CH_DBG_ENABLE_ASSERTS then upd_thd t (set_p_state THD_STATE_CURRENT) s0 else s0).
  set (s2 := set_k_q (fun q => lremove t (k_q s1 q)) s1).
  assert (forall u, k_thd (upd_thd t (set_p_state THD_STATE_READY) s2) u =
            if decide (t = u) then set_p_prio p (k_thd s u) else k_thd s u) as Et.
  { intros u. unfold s2, s1, s0. destruct CH_DBG_ENABLE_ASSERTS; simpl;
      rewrite !fn_insert_dec; repeat case_decide; subst; try done; rewrite <-Hst;
      by destruct (k_thd s u). }
  assert (forall u, k_prio (upd_thd t (set_p_state THD_STATE_READY) s2) u =
            <[t := p]> (k_prio s) u) as Epr.
  { intros u. unfold k_prio at 1. rewrite Et, fn_insert_dec. by case_decide. }
  assert (k_q s1 = k_q s) as Eq by (unfold s1; by destruct CH_DBG_ENABLE_ASSERTS).
  destruct (reinsert_sorted s t p QReady _ HI eq_refl Ht Epr) as [HLp Hso].
  exists (ready_st t s2). split.
  - rewrite (done_bind _ _ tt _ s1); [|unfold s1; by destruct CH_DBG_ENABLE_ASSERTS].
    unfold bind, dequeue. cbn [obind]. fold s2.
    rewrite chSchReadyI_eq; [done| | | | |].
    + unfold s2, s1. by destruct CH_DBG_ENABLE_ASSERTS.
    + unfold s2, s1. destruct CH_DBG_ENABLE_ASSERTS; apply (i_rprio _ _ _ HI).
    + unfold k_prio, s2, s1, s0. destruct CH_DBG_ENABLE_ASSERTS; simpl;
        by repeat (rewrite !fn_insert_eq; simpl).
    + unfold s2, s1, s0. destruct CH_DBG_ENABLE_ASSERTS; simpl; rewrite !fn_insert_eq; [done|].
      simpl. by rewrite Hst.
    + unfold s2, s1, s0. intros ->. simpl. by rewrite fn_insert_eq.
  - apply (raise_boost s _ t p QReady (Lst.prio_ins
      (k_prio (upd_thd t (set_p_state THD_STATE_READY) s2)) t (lremove t (k_q s QReady))));
      try done; [auto|..];
      try (unfold ready_st, s2, s1; by destruct CH_DBG_ENABLE_ASSERTS).
    split; try (unfold ready_st, s2, s1; by destruct CH_DBG_ENABLE_ASSERTS).
    + intros u. change (k_thd (ready_st t s2) u)
        with (k_thd (upd_thd t (set_p_state THD_STATE_READY) s2) u).
      rewrite Et. simpl. rewrite fn_insert_dec. by case_decide; subst.
    + intros q'. unfold ready_st. simpl. rewrite Eq, !fn_insert_dec. case_decide; [done|].
      by rewrite lremove_notin by auto.
Qed.

(** The object a thread in a wait queue waits for. *)
Lemma wait_object s t :
  KI None s -> queued_state (p_state (k_thd s t)) = true ->
  p_state (k_thd s t) = THD_STATE_READY \/
  exists q, u_wtobjp (p_u (k_thd s t)) = Some q /\ kind_ok (p_state (k_thd s t)) q.
Proof.
  intros HI Hq. pose proof (i_queued _ _ _ HI t ltac:(done) Hq) as Hh.
  destruct (home (k_thd s t)) as [q|] eqn:Hhome; [|done].
  pose proof (i_kind _ _ _ HI t q ltac:(done) Hhome) as Hk.
  unfold home in Hhome. destruct (p_state (k_thd s t)); try done; eauto.
Qed.

(** Threads that the loop can still raise. *)
Definition low s (p : Z) : nat := length (filter (fun t => k_prio s t < p) (k_reg s)).

Lemma low_decreases s s' t p :
  t ∈ k_reg s -> k_prio s t < p -> k_reg s' = k_reg s ->
  (forall u, k_prio s' u = <[t := p]> (k_prio s) u) -> (low s' p < low s p)%nat.
Proof.
  intros Ht Hp Er Epr. unfold low. rewrite Er.
  apply (filter_length_lt _ _ _ t); [|done|done|].
  - intros u. rewrite Epr, fn_insert_dec. case_decide; [lia|done].
  - rewrite Epr, fn_insert_eq. lia.
Qed.

(** Priority inheritance: the owner of a mutex is at least as urgent as
    every thread that waits for it.  [PIx s t p] allows thread [t] to owe a
    raise to [p]. *)
Definition PI s : Prop := forall mp o u,
  k_mtx s mp = Some o -> u ∈ k_q s (QMtx mp) -> k_prio s u <= k_prio s o.
Definition PIx s t (p : Z) : Prop := forall mp o u,
  k_mtx s mp = Some o -> u ∈ k_q s (QMtx mp) ->
  k_prio s u <= k_prio s o \/ (o = t /\ k_prio s u <= p).

Lemma PI_PIx s t p : PI s -> PIx s t p.
Proof. intros HP mp o u Ho Hu. left. by apply (HP mp). Qed.

(** A thread that does not wait for a mutex is not on the queue of one. *)
Lemma not_mtx_waiter s t mp :
  KI None s -> p_state (k_thd s t) <> THD_STATE_WTMTX -> t ∉ k_q s (QMtx mp).
Proof.
  intros HI Hst Ht. pose proof (inv_placed idle s t _ HI Ht) as Hh.
  pose proof (i_kind _ _ _ HI t _ ltac:(done) Hh) as Hk.
  unfold home in Hh. by destruct (p_state (k_thd s t)).
Qed.

(** The raise of a thread pays what it owes, and moves the debt to the owner
    of the mutex it waits for. *)
Lemma raise_PIx s s' t o p :
  boost s s' -> (forall u, k_prio s' u = <[t := p]> (k_prio s) u) -> k_prio s t <= p ->
  (forall mp o', k_mtx s mp = Some o' -> t ∈ k_q s (QMtx mp) -> o' = o) ->
  PIx s t p -> PIx s' o p.
Proof.
  intros Hb Epr Hle Hw HP mp x u Hx Hu. rewrite (b_mtx _ _ Hb) in Hx.
  rewrite (b_q _ _ Hb) in Hu. rewrite !Epr, !fn_insert_dec.
  destruct (HP mp x u Hx Hu) as [Hc|[-> Hc]]; repeat case_decide; subst; try lia.
  right. split; [by apply (Hw mp)|lia].
Qed.

Local Ltac use_raise H :=
  let HPI := fresh in
  destruct H as (? & ? & ? & ? & ? & HPI);
  split_and!; [assumption..|intros; by apply HPI].

(** The loop raises the priorities along the chain of owners and ends. *)
Lemma inherit_ok fuel : forall ctp t s,
  locked_I s -> KI None s -> NOPRIO < k_prio s ctp -> (low s (k_prio s ctp) < fuel)%nat ->
  exists s', inherit fuel ctp t s = Done tt s' /\ boost s s' /\
    k_prio s' ctp = k_prio s ctp /\ k_prio s ctp <= k_prio s' t /\
    (forall u, k_prio s' u = k_prio s u \/ k_prio s' u = k_prio s ctp) /\
    (forall E : tid -> Prop, (forall u, E u \/ ubt s u) ->
       forall u, E u \/ u = t \/ ubt s' u) /\
    (PIx s t (k_prio s ctp) -> PI s').
Proof.
  induction fuel as [|fuel IH]; intros ctp t s HL HI Hpos Hf; [lia|]. cbn [inherit].
  destruct (Z.ltb_spec (k_prio s t) (k_prio s ctp)) as [Hlt|Hge].
  2: { exists s. split_and!; [done|by apply boost_refl|done|lia|by left| |].
       - intros E HE u. destruct (HE u); auto.
       - intros HP mp o u Ho Hu. destruct (HP mp o u Ho Hu) as [?|[-> ?]]; lia. }
  set (p := k_prio s ctp) in *.
  assert (t <> ctp) as Hne by (intros ->; lia).
  unfold bind at 1. cbn [set_thd modify obind]. unfold bind at 1, thd, gets. cbn [obind].
  set (s1 := upd_thd t (set_p_prio p) s).
  assert (p_state (k_thd s1 t) = p_state (k_thd s t)) as ->
    by (unfold s1; simpl; by rewrite fn_insert_eq).
  assert (p_u (k_thd s1 t) = p_u (k_thd s t)) as ->
    by (unfold s1; simpl; by rewrite fn_insert_eq).
  assert (forall s', boost s s' -> (forall u, k_prio s' u = <[t := p]> (k_prio s) u) ->
    boost s s' /\ k_prio s' ctp = p /\ p <= k_prio s' t /\
    (forall u, k_prio s' u = k_prio s u \/ k_prio s' u = p) /\
    (forall E : tid -> Prop, (forall u, E u \/ ubt s u) ->
       forall u, E u \/ u = t \/ ubt s' u) /\
    (PIx s t p -> p_state (k_thd s t) <> THD_STATE_WTMTX -> PI s')) as Hone.
  { intros s' Hb Epr. split_and!; [done| | | | |].
    - by rewrite Epr, fn_insert_ne.
    - rewrite Epr, fn_insert_eq. lia.
    - intros u. rewrite Epr, fn_insert_dec. case_decide; auto.
    - intros E HE u. destruct (decide (t = u)) as [<-|Hu]; [auto|].
      destruct (HE u) as [?|HU]; [auto|]. right; right. revert HU.
      apply boost_ubt; [done|]. by rewrite Epr, fn_insert_ne.
    - intros HPx Hnw mp o u Ho Hu.
      assert (PIx s' t p) as HPx'.
      { apply (raise_PIx s s' t t p); [done..|lia| |done]. intros mp' o' _ Ht'.
        by apply not_mtx_waiter in Ht'. }
      destruct (HPx' mp o u Ho Hu) as [?|[-> ?]]; [done|]. rewrite (Epr t), fn_insert_eq. lia. }
  assert ((forall q, prio_queue q = true -> t ∉ k_q s q) ->
    boost s s1 /\ forall u, k_prio s1 u = <[t := p]> (k_prio s) u) as Hplain.
  { intros Ho. apply (raise_boost s s1 t p QReady (k_q s QReady)); try done; try lia.
    - intros _. apply (Lst.psorted_ext (k_prio s)); [|by apply (i_sorted _ _ _ HI)].
      intros u Hu. rewrite fn_insert_ne; [done|]. intros <-. by apply (Ho QReady).
    - auto.
    - symmetry. by apply upd_q_same. }
  assert (forall q, home (k_thd s t) = Some q -> prio_queue q = true ->
    u_wtobjp (p_u (k_thd s t)) = Some q ->
    exists s', requeue t s1 = Done tt s' /\ boost s s' /\
      forall u, k_prio s' u = <[t := p]> (k_prio s) u) as Hreq.
  { intros q Hh Hq Hu. by apply (requeue_ok s t p q); [..|lia| | | ]. }
  pose proof (wait_object s t HI) as Hqd. unfold home in Hreq.
  assert (forall q, u_wtobjp (p_u (k_thd s t)) = Some q -> prio_queue q = true ->
    home (k_thd s t) = Some q ->
    exists s', requeue t s1 = Done tt s' /\ boost s s' /\
      k_prio s' ctp = p /\ p <= k_prio s' t /\
      (forall u, k_prio s' u = k_prio s u \/ k_prio s' u = p) /\
      (forall E : tid -> Prop, (forall u, E u \/ ubt s u) ->
         forall u, E u \/ u = t \/ ubt s' u) /\
      (PIx s t p -> p_state (k_thd s t) <> THD_STATE_WTMTX -> PI s')) as Hbreak.
  { intros q Hu Hq Hh. destruct (Hreq q) as (s' & E & Hb & Epr); [done..|].
    exists s'. split; [done|]. by apply Hone. }
  assert (forall q, home (k_thd s t) = Some q -> prio_queue q = false ->
    exists s', (mret' tt : KM unit) s1 = Done tt s' /\ boost s s' /\
      k_prio s' ctp = p /\ p <= k_prio s' t /\
      (forall u, k_prio s' u = k_prio s u \/ k_prio s' u = p) /\
      (forall E : tid -> Prop, (forall u, E u \/ ubt s u) ->
         forall u, E u \/ u = t \/ ubt s' u) /\
      (PIx s t p -> p_state (k_thd s t) <> THD_STATE_WTMTX -> PI s')) as Hfifo.
  { intros q Hh Hq. destruct Hplain as [Hb Epr].
    - intros q' Hq' Hx. apply (inv_placed idle _ _ _ HI) in Hx. congruence.
    - exists s1. split; [done|]. by apply Hone. }
  unfold home in Hbreak, Hfifo.
  pose proof (fun q => i_place _ _ _ HI t q) as Hpl. unfold home in Hpl.
  destruct (p_state (k_thd s t)) eqn:Hst; cbn [prio_wait_state];
    try (destruct (Hplain) as [Hb Epr];
         [intros q _ Hx; by apply Hpl in Hx|];
         exists s1; split; [done|]; use_raise (Hone s1 Hb Epr)).
  - (* READY *)
    destruct (reready_ok s t p) as (s' & E & Hb & Epr); [done..|lia|done|].
    exists s'. split; [exact E|]. use_raise (Hone s' Hb Epr).
  - (* WTSEM *)
    destruct (Hqd eq_refl) as [?|(q & Hu & Hk)]; [done|]. destruct q as [|sp| | | |]; try done.
    destruct CH_USE_SEMAPHORES_PRIORITY eqn:Hsp.
    + destruct (Hbreak (QSem sp)) as (s' & E & Hx); [done|by simpl|done|].
      exists s'. split; [exact E|]. use_raise Hx.
    + destruct (Hfifo (QSem sp)) as (s' & E & Hx); [done|by simpl|].
      exists s'. split; [exact E|]. use_raise Hx.
  - (* WTMTX *)
    destruct (Hqd eq_refl) as [?|(q & Hu & Hk)]; [done|]. destruct q as [| |mp| | |]; try done.
    destruct (Hreq (QMtx mp)) as (s' & E & Hb & Epr); [by rewrite Hu|done|done|].
    rewrite (done_bind _ _ _ _ _ E), Hu.
    assert (k_mtx s' mp <> None) as Hown.
    { rewrite (b_mtx _ _ Hb). intros Hnone. apply (i_free _ _ _ HI) in Hnone.
      assert (t ∈ k_q s (QMtx mp)) as Hin by (apply Hpl; done). rewrite Hnone in Hin. set_solver. }
    destruct (k_mtx s' mp) as [o|] eqn:Hmo; [|done].
    assert (k_prio s' ctp = p) as Ec by (by rewrite Epr, fn_insert_ne).
    assert ((low s' p < low s p)%nat) as Hlow.
    { apply (low_decreases s s' t); [|done|apply Hb|done].
      apply (i_reg _ _ _ HI). by rewrite Hst. }
    destruct (IH ctp o s') as (s2 & E2 & Hb2 & Ec2 & Eo2 & Ed2 & Ee2 & HPI2).
    { unfold locked_I in *. by rewrite (b_lock _ _ Hb), (b_isr _ _ Hb). }
    { apply Hb. } { lia. } { rewrite Ec. lia. }
    destruct (Hone s' Hb Epr) as (_ & _ & Hpt & Hch & Hex & _).
    rewrite Ec in *. pose proof (b_le _ _ Hb2 t) as Hle2.
    assert (forall u, k_prio s2 u = k_prio s u \/ k_prio s2 u = p) as Hch2.
    { intros u. destruct (Ed2 u) as [E3|E3]; rewrite E3; auto. }
    exists s2. split_and!; [done|by eapply boost_trans|lia|lia|done| |].
    2: { intros HPx. apply HPI2. apply (raise_PIx s s' t o p); [done..|lia| |done].
         intros mp' o' Ho' Ht'.
         assert (QMtx mp' = QMtx mp) as [= ->].
         { apply (inv_one_queue idle s t); [done..|]. by apply Hpl. }
         rewrite (b_mtx _ _ Hb) in Hmo. congruence. }
    intros E0 HE0 u.
    destruct (Ee2 (fun u => E0 u \/ u = t)) with (u := u) as [[?|?]|[->|?]]; auto.
    { intros u'. destruct (Hex E0 HE0 u') as [?|[?|?]]; auto. }
    (* the owner is raised for the thread that has just been requeued *)
    destruct (HE0 o) as [?|HU]; [auto|]. right; right.
    destruct (Hch2 o) as [Heq|Heq].
    { by apply (boost_ubt s); [eapply boost_trans|..]. }
    apply scan_ge. right. rewrite Heq.
    destruct (sorted_head_ge s2 (QMtx mp) t) as (h & k & Hq & Hge).
    { by apply (i_sorted _ _ _ (b_inv _ _ Hb2)). }
    { rewrite (b_q _ _ Hb2), (b_q _ _ Hb). by apply Hpl. }
    exists mp, h, k. split_and!; [|done|lia].
    apply (i_owner _ _ _ (b_inv _ _ Hb2)). by rewrite (b_mtx _ _ Hb2).
  - (* WTCOND *)
    destruct (Hqd eq_refl) as [?|(q & Hu & Hk)]; [done|]. destruct q as [| | |cp| |]; try done.
    destruct (Hbreak (QCond cp)) as (s' & E & Hx); [done..|].
    exists s'. split; [exact E|]. use_raise Hx.
  - (* SNDMSGQ *)
    destruct (Hqd eq_refl) as [?|(q & Hu & Hk)]; [done|]. destruct q as [| | | | |tp]; try done.
    destruct CH_USE_MESSAGES_PRIORITY eqn:Hsp.
    + destruct (Hbreak (QMsg tp)) as (s' & E & Hx); [done|by simpl|done|].
      exists s'. split; [exact E|]. use_raise Hx.
    + destruct (Hfifo (QMsg tp)) as (s' & E & Hx); [done|by simpl|].
      exists s'. split; [exact E|]. use_raise Hx.
  - (* WTQUEUE *)
    destruct (Hqd eq_refl) as [?|(q & Hu & Hk)]; [done|]. destruct q as [| | | |qp|]; try done.
    destruct (Hfifo (QIO qp)) as (s' & E & Hx); [done..|].
    exists s'. split; [exact E|]. use_raise Hx.
Qed.
End Base.

Section MtxOK.
Context `{Config}.
Variable idle : tid.
Variable J : kdata_t -> Prop.
Local Abbreviation KI := (KInv idle).
Abbreviation safe t := (osafe (grd idle J) (rely idle J t)).

Lemma boost_Mst0 t ml s s' : boost idle s s' -> Mst idle J t ml s -> Mst0 idle J t ml s'.
Proof.
  intros [] (HI & [HJ _] & Hc & HL & Hn & Hm).
  split_and!; try done; [by rewrite b_data0|congruence| | |by rewrite b_thd0].
  - unfold locked_S in *. by rewrite b_lock0, b_isr0.
  - unfold no_timer in *. congruence.
Qed.

(** ** Taking a free mutex *)

Definition take_st t mp s : kstate :=
  upd_thd t (fun th => set_p_mtxlist (mp :: p_mtxlist th) th) (upd_mtx mp (Some t) s).

Lemma take_mutex_eq t mp s : take_mutex t mp s = Done tt (take_st t mp s).
Proof. done. Qed.

Lemma take_st_own t mp s :
  keq (take_st t mp s)
      (own_st (<[mp := Some t]> (k_mtx s))
              (<[t := mp :: p_mtxlist (k_thd s t)]> (fun u => p_mtxlist (k_thd s u))) s).
Proof.
  split; try done. intros u. simpl. rewrite !fn_insert_dec. case_decide; subst; [done|].
  by destruct (k_thd s u).
Qed.

Lemma take_free_inv s t mp :
  KI None s -> k_mtx s mp = None -> KI None (take_st t mp s).
Proof.
  intros HI Hm. rewrite take_st_own. apply own_st_inv; [done|..].
  - intros mp' u. rewrite !fn_insert_dec.
    assert (mp ∉ p_mtxlist (k_thd s u)) as Hn
      by (rewrite <-(i_owner _ _ _ HI); congruence).
    pose proof (i_owner _ _ _ HI mp' u).
    repeat case_decide; subst; rewrite ?elem_of_cons; naive_solver.
  - intros u. rewrite fn_insert_dec. case_decide; [|apply (i_owned _ _ _ HI)].
    apply list.NoDup_cons. split; [|apply (i_owned _ _ _ HI)].
    rewrite <-(i_owner _ _ _ HI). congruence.
  - intros mp'. rewrite fn_insert_dec. case_decide; [done|]. apply (i_free _ _ _ HI).
Qed.

(** Owning one more mutex does not lower the bound. *)
Lemma take_ubt s t mp u : ubt s u -> ubt (take_st t mp s) u.
Proof.
  assert (forall v, k_prio (take_st t mp s) v = k_prio s v) as Ep.
  { intros v. unfold k_prio. simpl. rewrite fn_insert_dec. by case_decide; subst. }
  apply ubt_mono.
  - intros m h k Hq. exists h, k. by rewrite Ep.
  - by rewrite Ep.
  - intros m. simpl. rewrite fn_insert_dec. case_decide; [subst; simpl; set_solver|done].
  - simpl. rewrite fn_insert_dec. by case_decide; subst.
Qed.

Lemma take_free_Mst s t ml mp :
  Mst idle J t ml s -> k_mtx s mp = None -> Mst idle J t (mp :: ml) (take_st t mp s).
Proof.
  intros (HI & HJ & Hc & HL & Hn & Hm) Hfree.
  split_and!; try done; [by apply take_free_inv| |].
  - destruct HJ as [HJ HU]. split; [done|]. intros u. by apply take_ubt, HU.
  - unfold take_st. simpl. rewrite fn_insert_eq. simpl. by rewrite Hm.
Qed.

Lemma take_HP s t mp : HP s -> HP (take_st t mp s).
Proof.
  assert (forall u, k_prio (take_st t mp s) u = k_prio s u) as E.
  { intros u. unfold k_prio. simpl. rewrite fn_insert_dec. by case_decide; subst. }
  unfold HP, firstprio, currprio. simpl. rewrite E.
  destruct (k_q s QReady); [done|]. by rewrite E.
Qed.

(** ** Locking *)

(** The running thread joins the queue of an owned mutex. *)
Lemma mtx_sleeper s mp :
  KI None s -> k_curr s <> idle -> k_mtx s mp <> None ->
  let L := Lst.prio_ins (k_prio s) (k_curr s) (k_q s (QMtx mp)) in
  UB (enq (QMtx mp) L s) ->
  sleeper idle THD_STATE_WTMTX (enq (QMtx mp) L) s.
Proof.
  intros HI Hid Hm L Hub. apply sleeper_queue; try done.
  - apply Lst.prio_ins_perm.
  - intros _. apply Lst.prio_ins_sorted. by apply (i_sorted _ _ _ HI).
  - by intros mp' [= <-].
Qed.

(** Joining the queue of a mutex only raises the first priority in it. *)
Lemma join_heads s mp :
  KI None s ->
  let s' := enq (QMtx mp) (Lst.prio_ins (k_prio s) (k_curr s) (k_q s (QMtx mp))) s in
  heads_le s s' /\
  (exists h k, k_q s' (QMtx mp) = h :: k /\ k_prio s (k_curr s) <= k_prio s' h).
Proof.
  intros HI s'. assert (forall u, k_prio s' u = k_prio s u) as Ep by apply enq_prio.
  assert (Lst.psorted (k_prio s') (k_q s' (QMtx mp))) as Hs.
  { simpl. rewrite fn_insert_eq. apply (Lst.psorted_ext (k_prio s)); [done|].
    apply Lst.prio_ins_sorted. by apply (i_sorted _ _ _ HI). }
  assert (forall u, u ∈ k_curr s :: k_q s (QMtx mp) -> u ∈ k_q s' (QMtx mp)) as Hin.
  { intros u Hu. simpl. by rewrite fn_insert_eq, Lst.prio_ins_perm. }
  split.
  - intros m h k Hq. destruct (decide (m = mp)) as [->|Hm].
    + destruct (sorted_head_ge s' (QMtx mp) h Hs) as (h' & k' & Hq' & Hle).
      { apply Hin. rewrite Hq. set_solver. }
      exists h', k'. rewrite <-(Ep h). done.
    + exists h, k. rewrite Ep. simpl. by rewrite fn_insert_ne by congruence.
  - destruct (sorted_head_ge s' (QMtx mp) (k_curr s) Hs) as (h' & k' & Hq' & Hle).
    { apply Hin. set_solver. }
    exists h', k'. by rewrite <-(Ep (k_curr s)).
Qed.

(** After the priorities have been raised for the running thread and it has
    joined the queue, every priority is again owned or inherited. *)
Lemma lock_UB s s1 mp o :
  KI None s -> UB s -> boost idle s s1 -> k_mtx s mp = Some o ->
  (forall u, k_prio s1 u = k_prio s u \/ k_prio s1 u = k_prio s1 (k_curr s1)) ->
  (forall u, u = o \/ ubt s1 u) ->
  UB (enq (QMtx mp) (Lst.prio_ins (k_prio s1) (k_curr s1) (k_q s1 (QMtx mp))) s1).
Proof.
  intros HI Hub Hb Ho Hch Hex u.
  destruct (join_heads s1 mp (b_inv _ _ _ Hb)) as [Hle (h & k & Hq & Hge)].
  set (s2 := enq _ _ s1) in *.
  assert (forall v, k_prio s2 v = k_prio s1 v) as Ep by apply enq_prio.
  assert (forall v, p_mtxlist (k_thd s2 v) = p_mtxlist (k_thd s1 v) /\
                    p_realprio (k_thd s2 v) = p_realprio (k_thd s1 v)) as Et.
  { intros v. simpl. rewrite fn_insert_dec. by case_decide; subst. }
  assert (forall v, ubt s1 v -> ubt s2 v) as Hmono.
  { intros v. apply ubt_mono; [done|by rewrite Ep|by rewrite (proj1 (Et v))|apply Et]. }
  destruct (Hex u) as [->|Hu]; [|by apply Hmono].
  destruct (Hch o) as [Heq|Heq]; [apply Hmono, (boost_ubt idle s s1 o Hb Heq), Hub|].
  apply scan_ge. right. exists mp, h, k. split_and!; [|done|rewrite Ep; lia].
  rewrite (proj1 (Et o)). apply (i_owner _ _ _ (b_inv _ _ _ Hb)).
  by rewrite (b_mtx _ _ _ Hb).
Qed.

Lemma chMtxLockS_safe t ml mp s :
  Sst idle J t ml s -> t <> idle ->
  safe t (fun _ s' => Sst idle J t (mp :: ml) s') (chMtxLockS mp s).
Proof.
  intros [HM Hhp] Hid. pose proof HM as (HI & [_ Hub] & Hc & HL & _).
  unfold chMtxLockS. unfold bind at 1, currp, gets. cbn [obind]. rewrite Hc.
  rewrite classS_bind by done.
  destruct (k_mtx s mp) as [o|] eqn:Hm.
  - destruct (inherit_ok idle (S (length (k_reg s))) t o s) as (s1 & E & Hb & Ec & _ & Hch & Hex & _);
      [by auto with chibi|done| | |].
    { rewrite <-Hc. apply (currprio_pos idle None s HI). }
    { unfold low. pose proof (length_filter (fun u => k_prio s u < k_prio s t) (k_reg s)).
      lia. }
    rewrite (done_bind _ _ _ _ _ E).
    pose proof (boost_Mst0 t ml s s1 Hb HM) as HM1. pose proof HM1 as (HI1 & _ & Hc1 & _).
    unfold bind at 1. cbn [prio_insert modify obind].
    unfold bind at 1. cbn [set_thd modify obind]. apply osafe_bind.
    match goal with |- osafe _ _ _ (chSchGoSleepS _ ?x) =>
      change x with (upd_q (QMtx mp) (Lst.prio_ins (k_prio s1) t (k_q s1 (QMtx mp)))
                      (upd_thd t (set_p_u (U_wtobjp (QMtx mp))) s1)) end.
    rewrite <-Hc1 at 2 3. fold (enq (QMtx mp)
      (Lst.prio_ins (k_prio s1) (k_curr s1) (k_q s1 (QMtx mp))) s1).
    apply (chSchGoSleepS_rule idle J t ml); [done..| |].
    { apply mtx_sleeper; [done|congruence|rewrite (b_mtx _ _ _ Hb); congruence|].
      apply (lock_UB s s1 mp o); try done.
      - intros u. rewrite Hc1, Ec. apply Hch.
      - intros u. destruct (Hex (fun _ => False)) with (u := u) as [[]|?]; auto.
        intros v. right. apply Hub. }
    intros s' HS' _.
    assert (p_u (k_thd (enq (QMtx mp) (Lst.prio_ins (k_prio s1) (k_curr s1)
      (k_q s1 (QMtx mp))) s1) t) = U_wtobjp (QMtx mp)) as Eu
      by (rewrite <-Hc1; simpl; by rewrite fn_insert_eq).
    rewrite Eu in HS'. cbn [gain u_wtobjp] in HS'.
    pose proof HS' as [(HI' & _ & _ & _ & _ & Hml) _].
    assert (k_mtx s' mp = Some t) as Hown
      by (apply (i_owner _ _ _ HI'); rewrite Hml; set_solver).
    unfold bind. rewrite chDbgAssert_ok by (by apply bool_decide_eq_true_2). cbn [obind].
    rewrite chDbgAssert_ok; [done|]. apply bool_decide_eq_true_2. by rewrite Hml.
  - simpl. split; [by apply take_free_Mst|by apply take_HP].
Qed.

Lemma chMtxLock_safe t ml mp s :
  Ust idle J t ml s -> t <> idle ->
  safe t (fun _ s' => Ust idle J t (mp :: ml) s') (chMtxLock mp s).
Proof.
  intros HU Hid. apply (lock_bind idle J t ml); [done|]. intros HS.
  apply osafe_bind. eapply osafe_mono; [|by apply chMtxLockS_safe].
  intros a s' HS'. by apply (chSysUnlock_rule idle J t (mp :: ml)).
Qed.

(** [chMtxTryLockS()] never blocks: it takes the mutex if and only if it is
    free. *)
Lemma chMtxTryLockS_eq t ml mp s :
  Sst idle J t ml s ->
  (k_mtx s mp = None -> chMtxTryLockS mp s = Done true (take_st t mp s) /\
     Sst idle J t (mp :: ml) (take_st t mp s)) /\
  (k_mtx s mp <> None -> chMtxTryLockS mp s = Done false s).
Proof.
  intros [HM Hhp]. pose proof HM as (HI & _ & Hc & HL & _).
  unfold chMtxTryLockS. rewrite classS_bind by done. split.
  - intros Hm. rewrite Hm. unfold bind. simpl. rewrite Hc. split; [done|].
    split; [by apply take_free_Mst|by apply take_HP].
  - intros Hm. by destruct (k_mtx s mp).
Qed.

Lemma chMtxTryLock_safe t ml mp s :
  Ust idle J t ml s ->
  safe t (fun (b : bool) s' => Ust idle J t (if b then mp :: ml else ml) s') (chMtxTryLock mp s).
Proof.
  intros HU. apply (lock_bind idle J t ml); [done|]. intros HS.
  destruct (chMtxTryLockS_eq t ml mp (with_lock 1 s) HS) as [H1 H2].
  destruct (k_mtx (with_lock 1 s) mp) eqn:Hm.
  - rewrite (done_bind _ _ _ _ _ (H2 ltac:(done))).
    by apply (unlock_bind idle J t ml).
  - destruct (H1 eq_refl) as [E HS']. rewrite (done_bind _ _ _ _ _ E).
    by apply (unlock_bind idle J t (mp :: ml)).
Qed.

(** ** Unlocking *)

(** Releasing a mutex no thread waits for. *)
Lemma release_inv s c mp l :
  KI None s -> p_mtxlist (k_thd s c) = mp :: l -> k_q s (QMtx mp) = [] ->
  KI None (upd_mtx mp None (upd_thd c (set_p_mtxlist l) s)).
Proof.
  intros HI Hl Hq.
  pose proof (i_owned _ _ _ HI c) as Hnd. rewrite Hl in Hnd.
  apply list.NoDup_cons in Hnd as [Hnl Hnd].
  assert (keq (upd_mtx mp None (upd_thd c (set_p_mtxlist l) s))
              (own_st (<[mp := None]> (k_mtx s))
                      (<[c := l]> (fun u => p_mtxlist (k_thd s u))) s)) as ->.
  { split; try done. intros u. simpl. rewrite !fn_insert_dec. case_decide; subst; [done|].
    by destruct (k_thd s u). }
  assert (k_mtx s mp = Some c) as Ho by (apply (i_owner _ _ _ HI); rewrite Hl; set_solver).
  apply own_st_inv; [done|..].
  - intros mp' u. pose proof (i_owner _ _ _ HI mp' u) as Hw.
    destruct (decide (mp = mp')) as [<-|Hm], (decide (c = u)) as [<-|Hu]; fn_simpl.
    + split; done.
    + split; [done|]. intros Hx. apply Hw in Hx. congruence.
    + rewrite Hw, Hl, elem_of_cons. naive_solver.
    + done.
  - intros u. rewrite fn_insert_dec. case_decide; [done|]. apply (i_owned _ _ _ HI).
  - intros mp'. rewrite fn_insert_dec. case_decide; [by subst|]. apply (i_free _ _ _ HI).
Qed.

(** Handing a mutex over to a thread that has been taken off its queue. *)
Lemma transfer_inv s c w mp l :
  KI (Some w) s -> w <> c -> k_mtx s mp = Some c -> p_mtxlist (k_thd s c) = mp :: l ->
  KI (Some w) (take_st w mp (upd_thd c (set_p_mtxlist l) s)).
Proof.
  intros HI Hne Ho Hl.
  pose proof (i_owned _ _ _ HI c) as Hnd. rewrite Hl in Hnd.
  apply list.NoDup_cons in Hnd as [Hnl Hnd].
  assert (mp ∉ p_mtxlist (k_thd s w)) as Hnw
    by (rewrite <-(i_owner _ _ _ HI); congruence).
  assert (keq (take_st w mp (upd_thd c (set_p_mtxlist l) s))
              (own_st (<[mp := Some w]> (k_mtx s))
                 (<[w := mp :: p_mtxlist (k_thd s w)]>
                    (<[c := l]> (fun u => p_mtxlist (k_thd s u)))) s)) as ->.
  { split; try done. intros u. simpl. rewrite !fn_insert_dec.
    repeat case_decide; subst; try done. by destruct (k_thd s u). }
  apply own_st_inv; [done|..].
  - intros mp' u. pose proof (i_owner _ _ _ HI mp' u) as Hw.
    destruct (decide (w = u)) as [<-|Hwu].
    { fn_simpl. rewrite elem_of_cons. rewrite fn_insert_dec. case_decide; naive_solver. }
    destruct (decide (mp = mp')) as [<-|Hm], (decide (c = u)) as [<-|Hu]; fn_simpl.
    + split; [congruence|done].
    + split; [congruence|]. intros Hx. apply Hw in Hx. congruence.
    + rewrite Hw, Hl, elem_of_cons. naive_solver.
    + done.
  - intros u. rewrite !fn_insert_dec. repeat case_decide; [|done|apply (i_owned _ _ _ HI)].
    apply list.NoDup_cons. split; [done|apply (i_owned _ _ _ HI)].
  - intros mp'. rewrite fn_insert_dec. case_decide; [done|]. apply (i_free _ _ _ HI).
Qed.


(** The state in which the code of an unlock wakes the new owner [w]: the
    running thread has left its stack of mutexes at [l] and has priority
    [p]. *)
Definition handed c (l : list mid) mp w (ql : list tid) (p : Z) s : kstate :=
  take_st w mp (upd_thd c (set_p_mtxlist l)
    (upd_q (QMtx mp) ql (upd_thd c (set_p_prio p) s))).

Lemma curr_no_queue t ml s q : Mst0 idle J t ml s -> t ∉ k_q s q.
Proof.
  intros (HI & _ & <- & _). apply (inv_home_none idle); [done|]. by apply (curr_home idle).
Qed.

Section Handed.
Variables (t : tid) (mp : mid) (l : list mid) (s : kstate) (w : tid) (ql : list tid) (p : Z).
Hypothesis HM : Mst0 idle J t (mp :: l) s.
Hypothesis Hq : k_q s (QMtx mp) = w :: ql.
Hypothesis Hp : NOPRIO < p.

Lemma handed_ne : w <> t.
Proof using HM Hq.
  clear Hp p. destruct HM as (HI & _ & <- & _). apply (inv_queued_not_curr idle s w (QMtx mp)); [done|].
  rewrite Hq. set_solver.
Qed.

Lemma handed_float : KI (Some w) (handed t l mp w ql p s).
Proof.
  pose proof HM as (HI & _ & Hc & _ & _ & Hml).
  assert (KI None (upd_thd t (set_p_prio p) s)) as HI1.
  { apply reprio_plain_inv; [done|done|]. intros q _. by apply (curr_no_queue t (mp :: l)). }
  apply transfer_inv; [by apply (detach idle _ (QMtx mp) [] w ql)|apply handed_ne|..].
  - apply (i_owner _ _ _ HI). rewrite Hml. set_solver.
  - simpl. by rewrite fn_insert_eq.
Qed.

Lemma handed_prio u : k_prio (handed t l mp w ql p s) u = <[t := p]> (k_prio s) u.
Proof using.
  clear. unfold k_prio, handed, take_st. simpl. rewrite !fn_insert_dec.
  repeat case_decide; subst; by rewrite ?fn_insert_dec, ?decide_True, ?decide_False.
Qed.

Lemma handed_Fst :
  (forall u, ubt (handed t l mp w ql p s) u) ->
  Fst idle J t l w (handed t l mp w ql p s).
Proof.
  intros Hub. pose proof HM as (HI & HJ & Hc & HL & Hn & Hm).
  pose proof handed_ne as Hne.
  split_and!; try done; [apply handed_float| |].
  - simpl. by rewrite fn_insert_ne, fn_insert_eq.
  - simpl. rewrite fn_insert_eq. simpl. rewrite !fn_insert_ne by done.
    by apply (off_not_ready idle s (QMtx mp) [] ql w).
Qed.

Lemma handed_queue m :
  m <> mp -> k_q (handed t l mp w ql p s) (QMtx m) = k_q s (QMtx m).
Proof using. clear. intros Hm. simpl. by rewrite fn_insert_ne by congruence. Qed.

Lemma handed_head m h k :
  k_q s (QMtx m) = h :: k -> k_prio (handed t l mp w ql p s) h = k_prio s h.
Proof.
  intros Hk. rewrite handed_prio, fn_insert_ne; [done|]. intros <-.
  apply (curr_no_queue t (mp :: l) s (QMtx m) HM). rewrite Hk. set_solver.
Qed.

(** The bounds of the other threads. *)
Lemma handed_ubt_other u :
  u <> t -> ubt s u -> ubt (handed t l mp w ql p s) u.
Proof.
  intros Hu Hub. pose proof handed_ne as Hne.
  pose proof HM as (HI & _ & Hc & _ & _ & Hml).
  apply scan_ge. rewrite handed_prio, fn_insert_ne by done.
  assert (p_realprio (k_thd (handed t l mp w ql p s) u) = p_realprio (k_thd s u)) as ->.
  { simpl. rewrite !fn_insert_dec. repeat case_decide; subst; try done;
      simpl; by rewrite ?fn_insert_ne. }
  apply scan_ge in Hub as [Hle|(m & h & k & Hm & Hk & Hle)]; [by left|].
  assert (m <> mp) as Hmp.
  { intros ->. apply Hu. apply (i_owner _ _ _ HI) in Hm.
    assert (k_mtx s mp = Some t) as Ho by (apply (i_owner _ _ _ HI); rewrite Hml; set_solver).
    congruence. }
  right. exists m, h, k. rewrite (handed_head m h k Hk), handed_queue by done.
  split_and!; [|done|done]. simpl. rewrite !fn_insert_dec.
  repeat case_decide; subst; try done; simpl; rewrite ?fn_insert_ne by done; set_solver.
Qed.

(** The bounds, when [p] is what the remaining mutexes justify. *)
Lemma handed_UB :
  UB s -> mp ∉ l -> p = scan_owned s l (p_realprio (k_thd s t)) ->
  forall u, ubt (handed t l mp w ql p s) u.
Proof.
  intros Hub Hnl Ep u. pose proof handed_ne as Hne.
  destruct (decide (t = u)) as [<-|Hu]; [|apply handed_ubt_other; [done|apply Hub]].
  apply scan_ge. rewrite handed_prio, fn_insert_eq.
  assert (p <= scan_owned s l (p_realprio (k_thd s t))) as Hle by lia.
  apply scan_ge in Hle as [Hle|(m & h & k & Hm & Hk & Hle)].
  - left. simpl. rewrite fn_insert_ne by done. rewrite fn_insert_eq. simpl.
    by rewrite fn_insert_eq.
  - right. exists m, h, k. rewrite (handed_head m h k Hk), handed_queue by congruence.
    split_and!; [|done|done]. simpl. rewrite fn_insert_ne by done. by rewrite fn_insert_eq.
Qed.
End Handed.

Lemma Fst_keq t ml w s s' :
  keq s s' -> kdata s' = kdata s -> Fst idle J t ml w s -> Fst idle J t ml w s'.
Proof.
  intros K Ed (HI & HJ & Hc & HL & Hn & Hm & Hr).
  assert (same_prio s s') as Hsp.
  { split; intros; unfold k_prio; by rewrite <-?(keq_thd _ _ K), <-?(keq_q _ _ K). }
  pose proof (DU_ext J s s' Ed Hsp HJ). split_and!; try done.
  - by rewrite <-K.
  - by rewrite <-(keq_curr _ _ K).
  - unfold locked_S in *. by rewrite <-(keq_lock _ _ K), <-(keq_isr _ _ K).
  - unfold no_timer in *. by rewrite <-(keq_curr _ _ K), <-(keq_vt _ _ K).
  - by rewrite <-(keq_thd _ _ K).
  - by rewrite <-(keq_thd _ _ K).
Qed.

(** The state after the release of a mutex no thread waits for. *)
Definition released c (l : list mid) mp s : kstate :=
  upd_mtx mp None (upd_thd c (set_p_mtxlist l) s).

Lemma released_Mst t mp l s :
  Mst idle J t (mp :: l) s -> k_q s (QMtx mp) = [] ->
  Mst idle J t l (released t l mp s) /\ (HP s -> HP (released t l mp s)).
Proof.
  intros HM Hq. pose proof HM as (HI & [HJ Hub] & Hc & HL & Hn & Hm).
  assert (forall u, k_prio (released t l mp s) u = k_prio s u) as Ep.
  { intros u. unfold k_prio. simpl. rewrite fn_insert_dec. by case_decide; subst. }
  split.
  - split_and!; try done; [by apply release_inv| |by simpl; rewrite fn_insert_eq].
    split; [done|]. intros u. apply scan_ge. rewrite Ep.
    pose proof (Hub u) as Hu. apply scan_ge in Hu as [Hu|(m & h & k & Hmm & Hk & Hu)].
    + left. simpl. rewrite fn_insert_dec. by case_decide; subst.
    + right. exists m, h, k. rewrite Ep. split_and!; try done.
      simpl. rewrite fn_insert_dec. case_decide; [subst u|done]. simpl.
      rewrite Hm in Hmm. apply elem_of_cons in Hmm as [->|?]; [|done].
      rewrite Hk in Hq. done.
  - unfold HP, firstprio, currprio. rewrite Ep. simpl.
    destruct (k_q s QReady); [done|]. by rewrite Ep.
Qed.

Section Unlock.
Variables (t : tid) (mp : mid) (l : list mid) (s : kstate).
Hypothesis HM : Mst idle J t (mp :: l) s.

Definition left_prio : Z := scan_owned s l (p_realprio (k_thd s t)).

Lemma unlock_nodup : mp ∉ l.
Proof.
  destruct HM as (HI & _ & _ & _ & _ & Hm). pose proof (i_owned _ _ _ HI t) as Hnd.
  rewrite Hm in Hnd. by apply list.NoDup_cons in Hnd as [? _].
Qed.

Lemma left_prio_pos : NOPRIO < left_prio.
Proof.
  destruct HM as (HI & _ & Hc & _). unfold left_prio.
  destruct (scan_owned_spec s l (p_realprio (k_thd s t))) as (Hle & _).
  assert (NOPRIO < p_realprio (k_thd s t)); [|lia].
  apply (i_real _ _ _ HI). rewrite <-Hc. by rewrite (i_cur _ _ _ HI).
Qed.

Lemma owner_ok : k_mtx s mp = Some t.
Proof.
  destruct HM as (HI & _ & _ & _ & _ & Hm). apply (i_owner _ _ _ HI).
  rewrite Hm. set_solver.
Qed.

(** The release, when no thread waits. *)
Lemma mtx_unlock_free wake msg :
  k_q s (QMtx mp) = [] ->
  mtx_unlock wake msg s = Done mp (released t l mp s).
Proof.
  intros Hq. pose proof owner_ok as Ho. destruct HM as (HI & _ & Hc & _ & _ & Hm).
  unfold mtx_unlock, bind at 1, currp, gets. cbn [obind]. rewrite Hc.
  unfold bind at 1. rewrite chDbgAssert_ok by (apply bool_decide_eq_true_2; by rewrite Hm).
  cbn [obind]. unfold bind at 1.
  rewrite chDbgAssert_ok by (rewrite Hm; by apply bool_decide_eq_true_2).
  cbn [obind]. unfold bind, pop_mutex. rewrite Hm. cbn [obind].
  unfold chMtxQueueNotEmptyS, notempty, isempty. simpl. by rewrite Hq.
Qed.

(** The hand-over, when thread [w] is the first to wait. *)
Lemma mtx_unlock_handed wake msg w ql :
  k_q s (QMtx mp) = w :: ql ->
  exists s', mtx_unlock wake msg s = (wake w ;;; mret' mp) s' /\
    keq s' (handed t l mp w ql left_prio s) /\
    Fst idle J t l w s' /\ (HP s -> HPw w s').
Proof.
  intros Hq. pose proof owner_ok as Ho. pose proof left_prio_pos as Hpos.
  pose proof HM as (HI & [_ Hub] & Hc & _ & _ & Hm).
  pose proof (Mst_weak _ _ _ _ _ HM) as HM0.
  pose proof (handed_ne t mp l s w ql HM0 Hq) as Hne.
  set (s1 := upd_thd t (set_p_mtxlist l) s).
  set (s2 := upd_thd t (fun th =>
         set_p_prio (scan_owned s1 (p_mtxlist th) (p_realprio th)) th) s1).
  set (s4 := take_st w mp (upd_q (QMtx mp) ql s2)).
  assert (keq s4 (handed t l mp w ql left_prio s)) as K.
  { split; try done. intros u. unfold s4, s2, handed, take_st. simpl.
    rewrite !fn_insert_dec. repeat case_decide; subst; try done.
    assert (scan_owned s1 l (p_realprio (k_thd s t)) = left_prio) as <-; [|done].
    apply scan_owned_ext; [|done]. intros u. unfold k_prio. simpl.
    rewrite fn_insert_dec. by case_decide; subst. }
  exists s4. split_and!; [|done| |].
  - unfold mtx_unlock, bind at 1, currp, gets. cbn [obind]. rewrite Hc.
    unfold bind at 1. rewrite chDbgAssert_ok by (apply bool_decide_eq_true_2; by rewrite Hm).
    cbn [obind]. unfold bind at 1.
    rewrite chDbgAssert_ok by (rewrite Hm; by apply bool_decide_eq_true_2).
    cbn [obind]. unfold bind, pop_mutex. rewrite Hm. cbn [obind].
    fold s1. assert (chMtxQueueNotEmptyS s1 mp = true) as ->
      by (unfold chMtxQueueNotEmptyS, notempty, isempty; simpl; by rewrite Hq).
    unfold hand_over, bind. cbn [set_thd modify obind]. fold s2.
    assert (fifo_remove (QMtx mp) s2 = Done w (upd_q (QMtx mp) ql s2)) as ->
      by (unfold fifo_remove; simpl; by rewrite Hq).
    done.
  - apply (Fst_keq t l w (handed t l mp w ql left_prio s)); [by symmetry|done|].
    apply handed_Fst; [done..|]. apply handed_UB; try done. apply unlock_nodup.
  - intros Hhp u Hu.
    assert (forall v, k_prio s4 v = <[t := left_prio]> (k_prio s) v) as Ep.
    { intros v. unfold k_prio at 1. rewrite (keq_thd _ _ K). apply handed_prio. }
    change (u ∈ k_q s QReady) in Hu.
    assert (u <> t) as Hut by (intros ->; by apply (curr_no_queue t (mp :: l) s QReady HM0)).
    unfold currprio. change (k_curr s4) with (k_curr s). rewrite Hc, !Ep.
    rewrite fn_insert_eq, !fn_insert_ne by done.
    pose proof (HP_elim idle None s u HI Hhp Hu) as Hle. unfold currprio in Hle.
    rewrite Hc in Hle. specialize (Hub t). rewrite Hm in Hub. cbn [scan_owned] in Hub.
    rewrite Hq in Hub. apply scan_ge in Hub as [Hub|(m & h & k & Hmm & Hk & Hub)].
    + unfold left_prio. destruct (scan_owned_spec s l (p_realprio (k_thd s t))) as (? & _).
      destruct (Z.ltb_spec (p_realprio (k_thd s t)) (k_prio s w)); lia.
    + assert (k_prio s t <= left_prio) by (apply scan_ge; eauto 8). lia.
Qed.
End Unlock.

Lemma chMtxUnlock_safe t mp l s :
  Ust idle J t (mp :: l) s ->
  safe t (fun ump s' => ump = mp /\ Ust idle J t l s') (chMtxUnlock s).
Proof.
  intros HU. apply (lock_bind idle J t (mp :: l)); [done|]. intros [HM Hhp].
  apply osafe_bind. destruct (k_q (with_lock 1 s) (QMtx mp)) as [|w ql] eqn:Hq.
  - rewrite (mtx_unlock_free t mp l) by done. destruct (released_Mst t mp l _ HM Hq) as [HM' HP'].
    apply (unlock_bind idle J t l); [by split; auto|done].
  - destruct (mtx_unlock_handed t mp l (with_lock 1 s) HM
      (fun tp => chSchWakeupS tp RDY_OK) "chMtxUnlock" w ql Hq) as (s' & E & _ & HF & HW).
    rewrite E. apply osafe_bind. apply (chSchWakeupS_rule' idle J t l); [done|auto|].
    intros s2 HS2. by apply (unlock_bind idle J t l).
Qed.

(** ** Priority inheritance is kept by lock and unlock *)

Lemma PI_same s s' : same_prio s s' -> k_mtx s' = k_mtx s -> PI s -> PI s'.
Proof.
  intros [Ep _ _ Eq] Em HP mp o u Ho Hu. rewrite !Ep. rewrite Em in Ho. rewrite Eq in Hu.
  by apply (HP mp).
Qed.

Lemma handed_PI t mp l s w ql :
  Mst idle J t (mp :: l) s -> k_q s (QMtx mp) = w :: ql -> PI s ->
  PI (handed t l mp w ql (left_prio t l s) s).
Proof.
  intros HM Hq HPI m o u Ho Hu. pose proof (Mst_weak _ _ _ _ _ HM) as HM0.
  pose proof HM as (HI & _ & Hc & _ & _ & Hm).
  rewrite !handed_prio. simpl in Ho.
  assert (forall m, t ∉ k_q s (QMtx m)) as Htq by (intros; by eapply curr_no_queue).
  destruct (decide (m = mp)) as [->|Hmp].
  - rewrite fn_insert_eq in Ho. injection Ho as <-.
    assert (u ∈ ql) as Hul.
    { simpl in Hu. by rewrite fn_insert_eq in Hu. }
    assert (u <> t /\ w <> t) as [Hut Hwt].
    { split; intros ->; apply (Htq mp); rewrite Hq; set_solver. }
    rewrite !fn_insert_ne by done.
    pose proof (i_sorted _ _ _ HI (QMtx mp) eq_refl) as Hs. rewrite Hq in Hs.
    apply (Lst.psorted_head _ _ _ u Hs). set_solver.
  - rewrite fn_insert_ne in Ho by done.
    simpl in Hu. rewrite fn_insert_ne in Hu by congruence.
    assert (u <> t) as Hut by (intros ->; by apply (Htq m)).
    rewrite (fn_insert_ne _ t _ u) by done.
    destruct (decide (o = t)) as [->|Hot]; [|rewrite fn_insert_ne by done; by apply (HPI m)].
    rewrite fn_insert_eq. unfold left_prio. apply scan_ge. right.
    destruct (sorted_head_ge s (QMtx m) u) as (h & k & Hk & Hle);
      [by apply (i_sorted _ _ _ HI)|done|].
    exists m, h, k. split_and!; [|done|done].
    apply (i_owner _ _ _ HI) in Ho. rewrite Hm in Ho. set_solver.
Qed.

Lemma released_PI t mp l s :
  k_q s (QMtx mp) = [] -> PI s -> PI (released t l mp s).
Proof.
  intros Hq HPI m o u Ho Hu. simpl in Ho.
  destruct (decide (m = mp)) as [->|Hm]; [by rewrite fn_insert_eq in Ho|].
  rewrite fn_insert_ne in Ho by done.
  assert (forall v, k_prio (released t l mp s) v = k_prio s v) as Ep.
  { intros v. unfold k_prio. simpl. rewrite fn_insert_dec. by case_decide; subst. }
  rewrite !Ep. by apply (HPI m).
Qed.

(** [chMtxLockS()] on an owned mutex: the thread joins the queue, its owner
    runs at least at the same priority, and inheritance holds along every
    chain of owners. *)
Lemma chMtxLockS_blocks t ml mp o s :
  Sst idle J t ml s -> t <> idle -> k_mtx s mp = Some o ->
  exists s' k, chMtxLockS mp s = Suspend AtSwitch s' k /\
    t ∈ k_q s' (QMtx mp) /\ p_state (k_thd s' t) = THD_STATE_WTMTX /\
    k_prio s t <= k_prio s' o /\ (PI s -> PI s') /\
    k_mtx s' = k_mtx s /\ p_mtxlist (k_thd s' t) = ml /\
    (forall v, k_mtx v mp = Some t -> head (p_mtxlist (k_thd v t)) = Some mp -> k v = Done tt v).
Proof.
  intros [HM Hhp] Hid Hm. pose proof HM as (HI & [_ Hub] & Hc & HL & _).
  destruct (inherit_ok idle (S (length (k_reg s))) t o s)
    as (s1 & E & Hb & Ec & Ho & _ & _ & HPI); [by auto with chibi|done| | |].
  { rewrite <-Hc. apply (currprio_pos idle None s HI). }
  { unfold low. pose proof (length_filter (fun u => k_prio s u < k_prio s t) (k_reg s)). lia. }
  pose proof (boost_Mst0 t ml s s1 Hb HM) as (HI1 & _ & Hc1 & HL1 & _ & Hm1).
  destruct (idle_ready idle s1 HI1) as (n & l & Hq); [congruence|].
  destruct (dispatch_ne idle s1 n l HI1 Hq) as [Hne _].
  set (s2 := enq (QMtx mp) (Lst.prio_ins (k_prio s1) t (k_q s1 (QMtx mp))) s1).
  assert (k_thd s2 t = set_p_u (U_wtobjp (QMtx mp)) (k_thd s1 t)) as Et2
    by (unfold s2; simpl; by rewrite Hc1, fn_insert_eq).
  eexists (sleep_st THD_STATE_WTMTX n l s2), _. split.
  - unfold chMtxLockS. unfold bind at 1, currp, gets. cbn [obind]. rewrite Hc.
    rewrite classS_bind by done. rewrite Hm. rewrite (done_bind _ _ _ _ _ E).
    unfold bind at 1. cbn [prio_insert modify obind].
    unfold bind at 1. cbn [set_thd modify obind]. unfold bind at 1.
    assert (upd_thd t (set_p_u (U_wtobjp (QMtx mp)))
      (upd_q (QMtx mp) (Lst.prio_ins (k_prio s1) t (k_q s1 (QMtx mp))) s1) = s2) as ->
      by (unfold s2, enq; by rewrite Hc1).
    rewrite (chSchGoSleepS_eq s2 _ n l); [reflexivity|done|].
    unfold s2. simpl. by rewrite fn_insert_ne.
  - destruct (sleep_st_fields THD_STATE_WTMTX n l s2) as
      (_ & _ & _ & F4 & _ & _ & _ & _ & F9 & _); [done|].
    pose proof (same_prio_sleep THD_STATE_WTMTX n l s2) as Hsp.
    assert (forall u, k_prio s2 u = k_prio s1 u) as E2 by apply enq_prio.
    assert (k_q s2 (QMtx mp) ≡ₚ t :: k_q s1 (QMtx mp)) as Hq2.
    { unfold s2. simpl. rewrite fn_insert_eq. apply Lst.prio_ins_perm. }
    change (k_curr s2) with (k_curr s1) in F9. rewrite Hc1 in F9.
    assert (k_mtx (sleep_st THD_STATE_WTMTX n l s2) = k_mtx s2) as Em
      by (unfold sleep_st, renew; by destruct (0 <? CH_TIME_QUANTUM)).
    split_and!; [rewrite (sp_q _ _ Hsp), Hq2; set_solver|done|by rewrite F4, E2| |..].
    2: { rewrite Em. apply (b_mtx _ _ _ Hb). }
    2: { by rewrite (sp_own _ _ Hsp), Et2. }
    2: { intros v Hv Hh. cbn [obind]. unfold bind.
         rewrite chDbgAssert_ok by (by apply bool_decide_eq_true_2). cbn [obind].
         by rewrite chDbgAssert_ok by (by apply bool_decide_eq_true_2). }
    intros HPs. apply (PI_same s2); [done..|].
    + specialize (HPI (PI_PIx _ _ _ HPs)). intros m x u Hx Hu. rewrite !E2.
      destruct (decide (m = mp)) as [->|Hmm].
      * rewrite Hq2 in Hu. apply elem_of_cons in Hu as [->|Hu]; [|by apply (HPI mp)].
        change (k_mtx s2 mp) with (k_mtx s1 mp) in Hx. rewrite (b_mtx _ _ _ Hb), Hm in Hx.
        injection Hx as <-. lia.
      * apply (HPI m); [done|]. unfold s2 in Hu. simpl in Hu.
        by rewrite fn_insert_ne in Hu by congruence.
Qed.

(** [chMtxUnlockS()] wakes without switching: a reschedule may be due. *)
Lemma chMtxUnlockS_eq t mp l s :
  Mst idle J t (mp :: l) s ->
  exists s', chMtxUnlockS s = Done mp s' /\ Mst idle J t l s' /\
    k_prio s' t = match k_q s (QMtx mp) with [] => k_prio s t | _ => left_prio t l s end /\
    k_mtx s' mp = head (k_q s (QMtx mp)) /\ (PI s -> PI s') /\
    (forall u, u <> t -> p_mtxlist (k_thd s' u) =
       if decide (head (k_q s (QMtx mp)) = Some u) then mp :: p_mtxlist (k_thd s u) else p_mtxlist (k_thd s u)) /\
    (forall u, head (k_q s (QMtx mp)) = Some u -> u <> t /\ u ∈ k_q s' QReady).
Proof.
  intros HM. unfold chMtxUnlockS. rewrite classS_bind by apply HM.
  destruct (k_q s (QMtx mp)) as [|w ql] eqn:Hq.
  - rewrite (mtx_unlock_free t mp l) by done. eexists. split; [done|].
    split; [by apply (released_Mst t mp l s HM Hq)|]. split_and!.
    + unfold k_prio. simpl. by rewrite fn_insert_eq.
    + simpl. by rewrite fn_insert_eq.
    + by apply released_PI.
    + intros u Hu. simpl. by rewrite fn_insert_ne.
    + done.
  - destruct (mtx_unlock_handed t mp l s HM
      (fun tp => chSchReadyI tp ;;; mret' tt) "chMtxUnlockS" w ql Hq) as (s' & E & K & HF & _).
    rewrite E. destruct (chSchReadyI_rule idle J t l w s' HF) as [Er HM'].
    pose proof (handed_ne t mp l s w ql (Mst_weak _ _ _ _ _ HM) Hq) as Hne.
    exists (ready_st w s'). split_and!; [|done| | | | |].
    + unfold bind. by rewrite Er.
    + destruct (ready_st_fields w s') as (_ & _ & F3 & _). rewrite F3.
      unfold k_prio at 1. rewrite (keq_thd _ _ K).
      change (k_prio (handed t l mp w ql (left_prio t l s) s) t = left_prio t l s).
      by rewrite handed_prio, fn_insert_eq.
    + change (k_mtx s' mp = Some w). rewrite (keq_mtx _ _ K). simpl. by rewrite fn_insert_eq.
    + intros HPI. apply (PI_same s'); [apply same_prio_ready|done|].
      pose proof (handed_PI t mp l s w ql HM Hq HPI) as HPh.
      intros m o u Ho Hu. unfold k_prio. rewrite !(keq_thd _ _ K).
      rewrite (keq_mtx _ _ K) in Ho. rewrite (keq_q _ _ K) in Hu. by apply (HPh m).
    + intros u Hu. rewrite (sp_own _ _ (same_prio_ready w s')), (keq_thd _ _ K). simpl.
      rewrite !fn_insert_dec. repeat case_decide; simplify_eq/=; try done; by rewrite ?fn_insert_ne.
    + intros u [= <-]. split; [done|]. apply (ready_st_fields w s'). by left.
Qed.

(** ** Locking and waiting, without assumptions on what runs meanwhile *)

(** Thread [t] at the point where it takes a mutex, to return [a]: a free one
    is taken and the function returns; for one with an owner the thread waits,
    and returns from any state in which the mutex has been handed to it. *)
Definition takes t ml mp {A} (a : A) s (o : outcome kstate A) : Prop :=
  match k_mtx s mp with
  | None => exists s', o = Done a s' /\ Sst idle J t (mp :: ml) s' /\ k_mtx s' mp = Some t
  | Some _ => exists s' k, o = Suspend AtSwitch s' k /\ t ∈ k_q s' (QMtx mp) /\
      k_mtx s' = k_mtx s /\ p_mtxlist (k_thd s' t) = ml /\
      forall v, k_mtx v mp = Some t -> head (p_mtxlist (k_thd v t)) = Some mp -> k v = Done a v
  end.

Lemma chMtxLockS_takes t ml mp {A} (a : A) s :
  Sst idle J t ml s -> t <> idle -> takes t ml mp a s ((chMtxLockS mp ;;; mret' a) s).
Proof.
  intros HS Hid. unfold takes. destruct (k_mtx s mp) as [o|] eqn:Hm.
  - destruct (chMtxLockS_blocks t ml mp o s HS Hid Hm) as (s' & k & E & Hq & _ & _ & _ & Em & El & Hk).
    exists s', (fun v => obind (k v) (fun _ => mret' a)). split_and!; try done.
    + unfold bind. by rewrite E.
    + intros v Ho Hh. by rewrite Hk.
  - destruct HS as [HM Hhp]. pose proof HM as (_ & _ & Hc & HL & _).
    exists (take_st t mp s). split_and!; [|split; [by apply take_free_Mst|by apply take_HP]|].
    + unfold chMtxLockS. unfold bind at 1. unfold bind at 1, currp, gets. cbn [obind]. rewrite Hc.
      rewrite classS_bind by done. by rewrite Hm.
    + simpl. by rewrite fn_insert_eq.
Qed.

(** The running thread goes to sleep in a state of its own making. *)
Lemma sleep_keeps st n l s :
  locked_S s -> k_q s QReady = n :: l -> n <> k_curr s ->
  exists s', chSchGoSleepS st s = Suspend AtSwitch s' (fun v => Done tt v) /\
    k_mtx s' = k_mtx s /\ (forall u, p_mtxlist (k_thd s' u) = p_mtxlist (k_thd s u)) /\
    (forall q, q <> QReady -> k_q s' q = k_q s q) /\ p_state (k_thd s' (k_curr s)) = st.
Proof.
  intros HL Hq Hn. exists (sleep_st st n l s). split; [by apply chSchGoSleepS_eq|].
  destruct (sleep_st_fields st n l s Hn) as (_ & _ & _ & _ & _ & _ & _ & _ & Es & _).
  split_and!; [|apply (same_prio_sleep st n l s)| |done];
    unfold sleep_st, renew; destruct (0 <? CH_TIME_QUANTUM); try done;
    intros q Hne; simpl; by rewrite fn_insert_ne.
Qed.

(** ** Unlocking all *)

(** Inside the loop the running thread may keep a priority it no longer
    inherits. *)
Definition Lst0 t ml s : Prop :=
  Mst0 idle J t ml s /\ forall u, u <> t -> ubt s u.

Lemma unlock_one_eq t mp l s :
  Lst0 t (mp :: l) s -> exists s', unlock_one t s = Done tt s' /\ Lst0 t l s'.
Proof.
  intros [HM Hub]. pose proof HM as (HI & HJ & Hc & HL & Hn & Hm).
  unfold unlock_one, bind at 1, pop_mutex. rewrite Hm. cbn [obind].
  destruct (k_q s (QMtx mp)) as [|w ql] eqn:Hq.
  - assert (chMtxQueueNotEmptyS (upd_thd t (set_p_mtxlist l) s) mp = false) as ->
      by (unfold chMtxQueueNotEmptyS, notempty, isempty; simpl; by rewrite Hq).
    exists (released t l mp s). split; [done|]. split.
    + split_and!; try done; [by apply release_inv|by simpl; rewrite fn_insert_eq].
    + intros u Hu. specialize (Hub u Hu). revert Hub. apply ubt_mono.
      * intros m h k Hk. exists h, k. split; [done|]. unfold k_prio. simpl.
        rewrite fn_insert_dec. by case_decide; subst.
      * unfold k_prio. simpl. by rewrite fn_insert_ne.
      * intros m. simpl. by rewrite fn_insert_ne.
      * simpl. by rewrite fn_insert_ne.
  - set (s1 := upd_thd t (set_p_mtxlist l) s).
    assert (chMtxQueueNotEmptyS s1 mp = true) as ->
      by (unfold chMtxQueueNotEmptyS, notempty, isempty; simpl; by rewrite Hq).
    set (s4 := take_st w mp (upd_q (QMtx mp) ql s1)).
    assert (keq s4 (handed t l mp w ql (k_prio s t) s)) as K.
    { split; try done. intros u. unfold s4, s1, handed, take_st. simpl.
      rewrite !fn_insert_dec. repeat case_decide; subst; try done. }
    assert (NOPRIO < k_prio s t) as Hpos.
    { apply (i_prio _ _ _ HI). rewrite <-Hc. by rewrite (i_cur _ _ _ HI). }
    pose proof (handed_ne t mp l s w ql HM Hq) as Hne.
    pose proof (handed_float t mp l s w ql _ HM Hq Hpos) as HF.
    assert (KI (Some w) s4) as HF4 by (by rewrite K).
    assert (p_state (k_thd s4 w) <> THD_STATE_READY) as Hr4.
    { unfold s4. simpl. rewrite fn_insert_eq. simpl. rewrite fn_insert_ne by done.
      by apply (off_not_ready idle s (QMtx mp) [] ql w). }
    destruct (chSchReadyI_ok idle s4 w) as [E HI']; [auto with chibi|done|done|].
    exists (ready_st w s4). split.
    + unfold hand_over, bind.
      assert (fifo_remove (QMtx mp) s1 = Done w (upd_q (QMtx mp) ql s1)) as ->
        by (unfold fifo_remove; simpl; by rewrite Hq).
      cbn [obind]. rewrite take_mutex_eq. cbn [obind mret']. fold s4. by rewrite E.
    + split.
      * split_and!; try done. unfold ready_st, s4, s1. simpl.
        rewrite !(fn_insert_ne _ w) by done. by rewrite fn_insert_eq.
      * intros u Hu.
        assert (same_prio (handed t l mp w ql (k_prio s t) s) (ready_st w s4)) as Hsp.
        { apply (same_prio_trans _ s4); [|apply same_prio_ready].
          split; intros; unfold k_prio; by rewrite ?(keq_thd _ _ K), ?(keq_q _ _ K). }
        destruct Hsp as [S1 S2 S3 S4]. unfold ubt.
        rewrite S1, S2, S3, (scan_owned_ext (handed t l mp w ql (k_prio s t) s)) by done.
        apply (handed_ubt_other t mp l s w ql (k_prio s t)); auto.
Qed.

Lemma unlock_loop_eq t : forall ml s,
  Lst0 t ml s -> exists s',
    mwhile (length ml) (owns_any t) (unlock_one t) s = Done tt s' /\ Lst0 t [] s'.
Proof.
  induction ml as [|mp l IH]; intros s HL.
  - exists s. split; [|done]. destruct HL as [(_ & _ & _ & _ & _ & Hm) _].
    cbn [mwhile length]. unfold owns_any. by rewrite Hm.
  - destruct (unlock_one_eq t mp l s HL) as (s1 & E1 & HL1).
    destruct (IH s1 HL1) as (s2 & E2 & HL2). exists s2. split; [|done].
    destruct HL as [(_ & _ & _ & _ & _ & Hm) _].
    cbn [mwhile length]. unfold owns_any at 1. rewrite Hm.
    rewrite bool_decide_eq_true_2 by done. by rewrite (done_bind _ _ _ _ _ E1).
Qed.

(** The running thread goes back to its own priority. *)
Lemma restore_prio t s :
  Lst0 t [] s ->
  Mst idle J t [] (upd_thd t (fun th => set_p_prio (p_realprio th) th) s).
Proof.
  intros [HM Hub]. pose proof HM as (HI & HJ & Hc & HL & Hn & Hm).
  set (p := p_realprio (k_thd s t)).
  assert (keq (upd_thd t (fun th => set_p_prio (p_realprio th) th) s)
              (upd_thd t (set_p_prio p) s)) as K by (by split).
  split_and!; try done.
  - rewrite K. apply reprio_plain_inv; [done| |].
    + apply (i_real _ _ _ HI). rewrite <-Hc. by rewrite (i_cur _ _ _ HI).
    + intros q _. by apply (curr_no_queue t []).
  - split; [done|]. intros u. destruct (decide (u = t)) as [->|Hu].
    + simpl. unfold k_prio. simpl. rewrite fn_insert_eq. simpl. rewrite Hm. simpl. lia.
    + specialize (Hub u Hu). revert Hub. apply ubt_mono.
      * intros m h k Hk. exists h, k. split; [done|]. unfold k_prio. simpl.
        rewrite fn_insert_ne; [done|]. intros <-.
        apply (curr_no_queue t [] s (QMtx m) HM). rewrite Hk. set_solver.
      * unfold k_prio. simpl. by rewrite fn_insert_ne.
      * intros m. simpl. by rewrite fn_insert_ne.
      * simpl. by rewrite fn_insert_ne.
  - simpl. by rewrite fn_insert_eq.
Qed.

Lemma chMtxUnlockAll_safe t ml s :
  Ust idle J t ml s -> safe t (fun _ s' => Ust idle J t [] s') (chMtxUnlockAll s).
Proof.
  intros HU. pose proof HU as (_ & _ & _ & Hc & _).
  unfold chMtxUnlockAll, bind at 1, currp, gets. cbn [obind]. rewrite Hc.
  apply (lock_bind idle J t ml); [done|]. intros HS. pose proof HS as [HM Hhp].
  apply osafe_bind. pose proof HM as (_ & [_ Hub] & _ & _ & _ & Hm).
  destruct (owns_any t (with_lock 1 s)) eqn:Hany.
  - rewrite Hm. destruct (unlock_loop_eq t ml (with_lock 1 s)) as (s1 & E & HL1).
    { split; [by apply Mst_weak|]. intros u _. apply Hub. }
    rewrite (done_bind _ _ _ _ _ E). unfold bind at 1. cbn [set_thd modify obind].
    apply (chSchRescheduleS_rule idle J t []); [by apply restore_prio|].
    intros s' HS'. by apply (chSysUnlock_rule idle J t []).
  - apply bool_decide_eq_false in Hany. rewrite Hm in Hany.
    destruct ml; [|by destruct Hany]. by apply (chSysUnlock_rule idle J t []).
Qed.

(** ** Condition variables *)

Lemma chCondSignal_safe t ml cp s :
  Ust idle J t ml s -> safe t (fun _ s' => Ust idle J t ml s') (chCondSignal cp s).
Proof.
  intros HU. apply (lock_bind idle J t ml); [done|]. intros HS. pose proof HS as [HM Hhp].
  apply osafe_bind. unfold notempty, isempty.
  destruct (k_q (with_lock 1 s) (QCond cp)) as [|w l] eqn:Hq; cbn [negb].
  - by apply (chSysUnlock_rule idle J t ml).
  - unfold bind, fifo_remove. rewrite Hq. cbn [obind].
    pose proof HM as (HI & _).
    apply (chSchWakeupS_rule idle J t ml).
    + by apply (pop_Fst idle J (with_lock 1 s) (QCond cp) w l).
    + by apply (pop_HP (with_lock 1 s) (QCond cp) w l).
    + intros s' HS'. by apply (chSysUnlock_rule idle J t ml).
Qed.

Lemma chCondSignalI_eq cp s :
  locked_I s -> KI None s ->
  exists s', chCondSignalI cp s = Done tt s' /\ istep idle s s' /\
    k_q s' (QCond cp) = tail (k_q s (QCond cp)).
Proof.
  intros HL HI. unfold chCondSignalI. rewrite classI_bind by done.
  unfold notempty, isempty.
  destruct (k_q s (QCond cp)) as [|w l] eqn:Hq; cbn [negb].
  - exists s. by split_and!.
  - destruct (wake_first_eq idle s (QCond cp) w l HI Hq eq_refl RDY_OK HL) as [E Hi].
    exists (wake_first s (QCond cp) w l RDY_OK). split_and!; [exact E|done|].
    by apply wake_first_q.
Qed.

(** [chCondBroadcastI()]: every waiting thread becomes ready with
    [RDY_RESET]. *)
Lemma chCondBroadcastI_eq cp s :
  locked_I s -> KI None s ->
  exists s', chCondBroadcastI cp s = Done tt s' /\ istep idle s s' /\
    k_q s' (QCond cp) = [] /\
    (forall u, k_thd s' u =
      if decide (u ∈ k_q s (QCond cp))
      then set_p_state THD_STATE_READY (set_p_u (U_msg RDY_RESET) (k_thd s u))
      else k_thd s u).
Proof.
  intros HL HI. unfold chCondBroadcastI. rewrite classI_bind by done.
  by apply (wake_loop_eq idle (QCond cp) RDY_RESET eq_refl).
Qed.

Lemma chCondBroadcast_safe t ml cp s :
  Ust idle J t ml s -> safe t (fun _ s' => Ust idle J t ml s') (chCondBroadcast cp s).
Proof.
  intros HU. apply (lock_bind idle J t ml); [done|]. intros [HM Hhp].
  destruct (chCondBroadcastI_eq cp (with_lock 1 s)) as (s' & E & Hi & _);
    [destruct HM as (_ & _ & _ & HL & _); auto with chibi|apply HM|].
  rewrite (done_bind _ _ _ _ _ E). apply osafe_bind.
  apply (chSchRescheduleS_rule idle J t ml); [by eapply istep_Mst|].
  intros s2 HS. by apply (chSysUnlock_rule idle J t ml).
Qed.

(** The running thread joins the queue of a condition variable. *)
Lemma cond_sleeper s cp (pr : tid -> Z) :
  KI None s -> UB s -> k_curr s <> idle -> (forall u, pr u = k_prio s u) ->
  sleeper idle THD_STATE_WTCOND
    (enq (QCond cp) (Lst.prio_ins pr (k_curr s) (k_q s (QCond cp)))) s.
Proof.
  intros HI Hub Hid Hpr. apply sleeper_queue; try done.
  - apply Lst.prio_ins_perm.
  - intros _. apply (Lst.psorted_ext pr); [done|]. apply Lst.prio_ins_sorted.
    apply (Lst.psorted_ext (k_prio s)); [done|]. by apply (i_sorted _ _ _ HI).
  - by apply enq_UB.
Qed.

Lemma chCondWaitS_safe t mp l cp s :
  Sst idle J t (mp :: l) s -> t <> idle ->
  safe t (fun _ s' => Sst idle J t (mp :: l) s') (chCondWaitS cp s).
Proof.
  intros [HM Hhp] Hid. pose proof HM as (HI & _ & Hc & HL & _ & Hm).
  unfold chCondWaitS, bind at 1, currp, gets. cbn [obind]. rewrite Hc.
  rewrite classS_bind by done. unfold bind at 1.
  rewrite chDbgAssert_ok by (apply bool_decide_eq_true_2; by rewrite Hm). cbn [obind].
  destruct (chMtxUnlockS_eq t mp l s HM) as (s1 & E & HM1 & _).
  rewrite (done_bind _ _ _ _ _ E). pose proof HM1 as (HI1 & [_ Hub1] & Hc1 & _).
  unfold bind at 1. cbn [set_thd modify obind].
  unfold bind at 1. cbn [prio_insert modify obind]. apply osafe_bind.
  set (s2 := upd_thd t (set_p_u (U_wtobjp (QCond cp))) s1).
  assert (upd_q (QCond cp) (Lst.prio_ins (k_prio s2) t (k_q s2 (QCond cp))) s2 =
    enq (QCond cp) (Lst.prio_ins (k_prio s2) (k_curr s1) (k_q s1 (QCond cp))) s1) as ->
    by (unfold enq; by rewrite Hc1).
  apply (chSchGoSleepS_rule idle J t l); [by apply Mst_weak|done| |].
  { apply cond_sleeper; [done..|congruence|]. intros u. unfold k_prio. simpl.
    rewrite fn_insert_dec. by case_decide; subst. }
  intros s' HS' _. rewrite gain_other in HS' by done.
  unfold bind at 1, thd, gets. cbn [obind]. apply osafe_bind.
  eapply osafe_mono; [|by apply chMtxLockS_safe]. done.
Qed.

(** At the point where it waits for the condition, the thread has given the
    mutex to the first thread that waited for it, or left it free. *)
Definition gave_up t mp l cp s s' : Prop :=
  k_mtx s' mp = head (k_q s (QMtx mp)) /\ p_mtxlist (k_thd s' t) = l /\
  (forall u, head (k_q s (QMtx mp)) = Some u -> p_mtxlist (k_thd s' u) = mp :: p_mtxlist (k_thd s u)) /\
  t ∈ k_q s' (QCond cp) /\ p_state (k_thd s' t) = THD_STATE_WTCOND.

(** A state that differs in the wait object of the thread, the queue of the
    condition and the timers. *)
Lemma cond_sleep t mp l cp s s1 s2 :
  Mst idle J t (mp :: l) s -> t <> idle -> chMtxUnlockS s = Done mp s1 -> locked_S s2 ->
  k_curr s2 = k_curr s1 -> k_mtx s2 = k_mtx s1 -> k_q s2 QReady = k_q s1 QReady -> t ∈ k_q s2 (QCond cp) ->
  (forall u, p_mtxlist (k_thd s2 u) = p_mtxlist (k_thd s1 u)) ->
  exists s', chSchGoSleepS THD_STATE_WTCOND s2 = Suspend AtSwitch s' (fun v => Done tt v) /\ gave_up t mp l cp s s'.
Proof.
  intros HM Hid E HL Hc2 Hm2 Hr2 Hq2 Ho2.
  destruct (chMtxUnlockS_eq t mp l s HM) as (s1' & E' & HM1 & _ & Em & _ & Eo & Eh).
  rewrite E in E'. injection E' as <-. pose proof HM1 as (HI1 & _ & Hc1 & _ & _ & Hml).
  destruct (idle_ready idle s1 HI1) as (n & r & Hq); [congruence|].
  destruct (dispatch_ne idle s1 n r HI1 Hq) as [Hne _].
  destruct (sleep_keeps THD_STATE_WTCOND n r s2) as (s' & Es & Fm & Fo & Fq & Fs); [done|congruence..|].
  rewrite Hc2, Hc1 in Fs. exists s'. split; [done|]. split_and!; try done.
  - by rewrite Fm, Hm2.
  - by rewrite Fo, Ho2.
  - intros u Hu. destruct (Eh u Hu) as [Hut _]. rewrite Fo, Ho2, Eo by done. by rewrite decide_True.
  - by rewrite Fq.
Qed.

Lemma chCondWaitS_waits t mp l cp s :
  Sst idle J t (mp :: l) s -> t <> idle ->
  exists s' k, chCondWaitS cp s = Suspend AtSwitch s' k /\ gave_up t mp l cp s s' /\
    forall v, Sst idle J t l v -> takes t l mp (u_rdymsg (p_u (k_thd v t))) v (k v).
Proof.
  intros [HM Hhp] Hid. pose proof HM as (_ & _ & Hc & HL & _ & Hm).
  unfold chCondWaitS, bind at 1, currp, gets. cbn [obind]. rewrite Hc.
  rewrite classS_bind by done. unfold bind at 1.
  rewrite chDbgAssert_ok by (apply bool_decide_eq_true_2; by rewrite Hm). cbn [obind].
  destruct (chMtxUnlockS_eq t mp l s HM) as (s1 & E & HM1 & _).
  rewrite (done_bind _ _ _ _ _ E). pose proof HM1 as (_ & _ & Hc1 & HL1 & _).
  unfold bind at 1. cbn [set_thd modify obind]. unfold bind at 1. cbn [prio_insert modify obind].
  set (s2 := upd_thd t (set_p_u (U_wtobjp (QCond cp))) s1). set (s3 := upd_q _ _ s2).
  destruct (cond_sleep t mp l cp s s1 s3) as (s' & Es & HG); try done.
  { simpl. rewrite fn_insert_eq, Lst.prio_ins_perm. set_solver. }
  { intros u. simpl. rewrite fn_insert_dec. by case_decide; subst. }
  unfold bind at 1. rewrite Es. cbn [obind]. eexists s', _. split; [reflexivity|]. split; [done|].
  intros v Hv. cbn [obind]. unfold bind at 1, thd, gets. cbn [obind]. by apply chMtxLockS_takes.
Qed.

Lemma chCondWaitTimeoutS_waits t mp l cp time s :
  Sst idle J t (mp :: l) s -> t <> idle -> 0 < time < TIME_INFINITE ->
  exists s' k, chCondWaitTimeoutS cp time s = Suspend AtSwitch s' k /\ gave_up t mp l cp s s' /\
    forall v, KI None v -> HP v -> DU J v -> k_curr v = t -> locked_S v -> p_mtxlist (k_thd v t) = l ->
    exists v', Sst idle J t l v' /\ k_mtx v' = k_mtx v /\
      let msg := u_rdymsg (p_u (k_thd v t)) in
      if msg =? RDY_TIMEOUT then k v = Done msg v' else takes t l mp msg v' (k v).
Proof.
  intros [HM Hhp] Hid Htime. pose proof HM as (HI & _ & Hc & HL & _ & Hm).
  unfold chCondWaitTimeoutS. rewrite classS_bind by done.
  rewrite check_bind by (unfold TIME_IMMEDIATE; destruct (Z.eqb_spec time 0); lia).
  unfold bind at 1, currp, gets. cbn [obind]. rewrite Hc. unfold bind at 1.
  rewrite chDbgAssert_ok by (apply bool_decide_eq_true_2; by rewrite Hm). cbn [obind].
  destruct (chMtxUnlockS_eq t mp l s HM) as (s1 & E & HM1 & _).
  rewrite (done_bind _ _ _ _ _ E). pose proof HM1 as (HI1 & _ & Hc1 & HL1 & Hn1 & _).
  unfold bind at 1. cbn [obind]. rewrite Hc1. unfold bind at 1. cbn [set_thd modify obind].
  unfold bind at 1. cbn [prio_insert modify obind].
  set (s2 := upd_thd t (set_p_u (U_wtobjp (QCond cp))) s1). set (s3 := upd_q _ _ s2).
  destruct (chVTSetI_spec s3 (VTStack t) time VF_wakeup t) as (L & V & Ev & _);
    [auto with chibi| |unfold no_timer in Hn1; by rewrite Hc1 in Hn1|unfold TIME_INFINITE in *; lia|].
  { apply (vt_wf_ext s1); try done. apply (i_vt _ _ _ HI1). }
  cbn zeta in Ev. set (s4 := set_k_vtl L (set_k_vt V s3)) in *.
  destruct (cond_sleep t mp l cp s s1 s4) as (s' & Es & HG); try done.
  { simpl. rewrite fn_insert_eq, Lst.prio_ins_perm. set_solver. }
  { intros u. simpl. rewrite fn_insert_dec. by case_decide; subst. }
  unfold chSchGoSleepTimeoutS. unfold bind at 1. rewrite classS_bind by done.
  rewrite (proj2 (Z.eqb_neq time TIME_INFINITE)) by lia. cbn [negb].
  unfold bind at 1. unfold bind at 1, currp, gets. cbn [obind]. change (k_curr s3) with (k_curr s1). rewrite Hc1.
  unfold bind at 1. rewrite Ev. cbn [obind]. unfold bind at 1. rewrite Es. cbn [obind].
  eexists s', _. split; [reflexivity|]. split; [done|]. intros v HIv HPv HDv Hcv HLv Hmv. cbn [obind].
  destruct (disarm_rule idle J t l v) as (v' & Ed & HS' & Et & Emv); try done. exists v'. split_and!; try done.
  rewrite Ed. cbn [obind]. unfold bind, currp, thd, gets. cbn [obind].
  pose proof HS' as [(_ & _ & Hcv' & _) _]. rewrite Hcv', Et.
  cbn [mret' obind]. destruct (u_rdymsg (p_u (k_thd v t)) =? RDY_TIMEOUT); cbn [negb]; [done|].
  by apply chMtxLockS_takes.
Qed.

Lemma chCondWaitTimeoutS_safe t mp l cp time s :
  Sst idle J t (mp :: l) s -> t <> idle -> 0 < time < 2^32 ->
  safe t (fun msg s' => Sst idle J t (if msg =? RDY_TIMEOUT then l else mp :: l) s')
    (chCondWaitTimeoutS cp time s).
Proof.
  intros [HM Hhp] Hid Htime. pose proof HM as (HI & _ & Hc & HL & _ & Hm).
  unfold chCondWaitTimeoutS. rewrite classS_bind by done.
  rewrite check_bind by (unfold TIME_IMMEDIATE; destruct (Z.eqb_spec time 0); lia).
  unfold bind at 1, currp, gets. cbn [obind]. rewrite Hc. unfold bind at 1.
  rewrite chDbgAssert_ok by (apply bool_decide_eq_true_2; by rewrite Hm). cbn [obind].
  destruct (chMtxUnlockS_eq t mp l s HM) as (s1 & E & HM1 & _).
  rewrite (done_bind _ _ _ _ _ E). pose proof HM1 as (HI1 & [_ Hub1] & Hc1 & _).
  unfold bind at 1. cbn [obind]. rewrite Hc1. unfold bind at 1. cbn [set_thd modify obind].
  unfold bind at 1. cbn [prio_insert modify obind]. apply osafe_bind.
  set (s2 := upd_thd t (set_p_u (U_wtobjp (QCond cp))) s1).
  assert (upd_q (QCond cp) (Lst.prio_ins (k_prio s2) t (k_q s2 (QCond cp))) s2 =
    enq (QCond cp) (Lst.prio_ins (k_prio s2) (k_curr s1) (k_q s1 (QCond cp))) s1) as ->
    by (unfold enq; by rewrite Hc1).
  apply (chSchGoSleepTimeoutS_rule idle J t l); [by apply Mst_weak|done| |done|done|].
  { apply cond_sleeper; [done..|congruence|]. intros u. unfold k_prio. simpl.
    rewrite fn_insert_dec. by case_decide; subst. }
  intros s' HS' _. set (msg := u_rdymsg _). apply osafe_bind.
  destruct (msg =? RDY_TIMEOUT) eqn:Hto; cbn [negb]; [simpl; by rewrite Hto|].
  eapply osafe_mono; [|by apply chMtxLockS_safe]. intros a s3 HS3. simpl. by rewrite Hto.
Qed.
End MtxOK.
