(* ===== verification/TickOK.v ===== *)
(** * The system tick: correctness

    [chVTDoTickI()] runs in the tick interrupt.  It takes one tick from the
    head of the delta list, which takes one from every timer, and fires the
    timers that have none left, in order; the loop ends because what follows
    them is not due.  The callback of the timer on a thread's stack is
    [wakeup()], which makes the thread ready with [RDY_TIMEOUT] unless it is
    ready already. *)
From S2P Require Import Prelude Monad Types ThdLists VT Sched Sem Mtx Mem.
From S2P Require Import Threads Sys Inv InvPrim InvSched Rules Wake SemOK MtxOK.

Implicit Types (s : kstate) (t u : tid) (v : vtid).

(** ** Running with no nested interrupt *)

Lemma settle_bind {S A B} (m : M S A) (f : A -> M S B) x a y :
  settle (m x) = Done a y -> settle (bind m f x) = settle (f a y).
Proof.
  unfold bind. generalize (m x). intros o. induction o as [b x1|[|] x1 k IH|e]; simpl; try done.
  - by intros [= -> ->].
  - apply IH.
Qed.

Section Tick.
Context `{Config}.
Variable idle : tid.
Local Abbreviation KI := (KInv idle).

(** In an interrupt handler, with and without the lock. *)
Definition isr_in s : Prop :=
  CH_DBG_SYSTEM_STATE_CHECK = true -> 0 < k_isr_cnt s /\ 0 < k_lock_cnt s.
Definition isr_out s : Prop :=
  CH_DBG_SYSTEM_STATE_CHECK = true -> 0 < k_isr_cnt s /\ k_lock_cnt s = 0.

Lemma isr_in_I s : isr_in s -> locked_I s.
Proof. intros HS Hc. specialize (HS Hc). lia. Qed.

Lemma lock_isr s : isr_out s -> chSysLockFromIsr s = Done tt (with_lock 1 s) /\ isr_in (with_lock 1 s).
Proof.
  unfold isr_out, isr_in, chSysLockFromIsr, dbg_check_lock_from_isr, dbg_check, bind, with_lock,
    dbg_enter_lock. intros Ho. destruct CH_DBG_SYSTEM_STATE_CHECK; [|done].
  destruct Ho as [H1 H2]; [done|]. rewrite (proj2 (Z.leb_gt _ _)), H2 by lia. simpl.
  split; [done|]. intros _. lia.
Qed.

Lemma unlock_isr s :
  isr_in s -> settle (chSysUnlockFromIsr s) = Done tt (with_lock 0 s) /\ isr_out (with_lock 0 s).
Proof.
  unfold isr_out, isr_in, chSysUnlockFromIsr, dbg_check_unlock_from_isr, dbg_check, bind, with_lock,
    dbg_leave_lock. intros Ho. destruct CH_DBG_SYSTEM_STATE_CHECK; [|done].
  destruct Ho as [H1 H2]; [done|]. rewrite !(proj2 (Z.leb_gt _ _)) by lia. simpl.
  split; [done|]. intros _. lia.
Qed.

Lemma unlock_isr_eq s :
  isr_in s -> chSysUnlockFromIsr s = Suspend AtUnlock (with_lock 0 s) (fun s' => Done tt s').
Proof.
  unfold isr_in, chSysUnlockFromIsr, dbg_check_unlock_from_isr, dbg_check, bind, with_lock,
    dbg_leave_lock. intros Ho. destruct CH_DBG_SYSTEM_STATE_CHECK; [|done].
  destruct Ho as [H1 H2]; [done|]. by rewrite !(proj2 (Z.leb_gt _ _)) by lia.
Qed.

(** ** The timeout of a thread *)

Definition timed_out (th : Thread) : Thread :=
  set_p_state THD_STATE_READY (set_p_u (U_msg RDY_TIMEOUT) th).

Lemma queued_at s t (q0 : qid) :
  KI None s -> home (k_thd s t) = Some q0 ->
  exists l1 l2, k_q s q0 = l1 ++ t :: l2 /\
    forall q, lremove t (k_q s q) = <[q0 := l1 ++ l2]> (k_q s) q.
Proof.
  intros HI Hh. pose proof (proj2 (i_place _ _ _ HI t q0 ltac:(done)) Hh) as Hin.
  apply list_elem_of_split in Hin as (l1 & l2 & E). exists l1, l2.
  pose proof (i_nodup _ _ _ HI q0) as Hnd. rewrite E in Hnd.
  apply list.NoDup_app in Hnd as (_ & Hd & Hnd). apply list.NoDup_cons in Hnd as [H2 _].
  assert (t ∉ l1) as H1 by (intros H1; apply (Hd t H1); set_solver).
  split_and!; try done. intros q. rewrite fn_insert_dec. case_decide as Hq.
  - subst q. by rewrite E, lremove_split.
  - apply lremove_notin. intros Hin. apply Hq. eapply inv_one_queue; [done| |done].
    rewrite E. set_solver.
Qed.

(** The thread is on no queue, or has just been taken off its own. *)
Lemma timeout_ready s t :
  locked_I s -> KI (Some t) s -> p_state (k_thd s t) <> THD_STATE_READY ->
  (set_thd t (set_p_u (U_msg RDY_TIMEOUT)) ;;; chSchReadyI t ;;; mret' tt) s =
    Done tt (wake_st t RDY_TIMEOUT s).
Proof. intros HL HI Hr. by apply (set_ready_eq idle). Qed.

Lemma wake_istep s s1 t msg :
  KI (Some t) s1 -> k_thd s1 = k_thd s -> k_curr s1 = k_curr s -> kdata s1 = kdata s ->
  k_vt s1 = k_vt s -> k_vtl s1 = k_vtl s -> k_lock_cnt s1 = k_lock_cnt s ->
  k_isr_cnt s1 = k_isr_cnt s -> k_reg s1 = k_reg s -> k_systime s1 = k_systime s ->
  (forall mp, k_q s1 (QMtx mp) = k_q s (QMtx mp)) -> istep idle s (wake_st t msg s1).
Proof.
  intros HI Et. intros. split; try done; [by apply wake_st_inv|..].
  1-3: intros u; unfold k_prio; rewrite wake_st_thd, Et; by case_decide.
Qed.

(** Off the queue it waits on, with the counter of a semaphore adjusted. *)
Lemma timeout_off s t q :
  KI None s -> home (k_thd s t) = Some q -> q <> QReady -> (forall mp, q <> QMtx mp) ->
  let sem' := match q with QSem sp => <[sp := s32 (k_sem s sp + 1)]> (k_sem s) | _ => k_sem s end in
  let s1 := set_k_q (fun q => lremove t (k_q s q)) (set_k_sem sem' s) in
  KI (Some t) s1 /\ istep idle s (wake_st t RDY_TIMEOUT s1).
Proof.
  intros HI Hh Hqr Hqm sem' s1. destruct (queued_at s t q HI Hh) as (l1 & l2 & E & Er).
  assert (keq (off_st s q l1 l2 sem') s1) as Ek by (split; try done; intros q'; simpl; by rewrite Er).
  assert (KI (Some t) s1) as HI1.
  { rewrite <-Ek. apply (off_float idle s q l1 l2 t sem' HI E). intros sp.
    destruct (i_sem _ _ _ HI sp) as [Hs Hl]. rewrite fn_insert_dec. case_decide as Hq.
    - subst q. unfold sem'. rewrite fn_insert_eq. rewrite E, length_app in Hl. simpl in Hl.
      rewrite length_app. unfold is_s32 in *. rewrite s32_small; unfold is_s32; lia.
    - split; [|]; unfold sem'; destruct q; try done; rewrite fn_insert_ne by congruence; done. }
  split; [done|]. apply wake_istep; try done. intros mp. simpl. rewrite Er.
  rewrite fn_insert_ne; [done|]. apply Hqm.
Qed.

Lemma wakeup_thread_ok s t :
  locked_I s -> KI None s -> timed_state (p_state (k_thd s t)) -> t <> k_curr s ->
  p_state (k_thd s t) <> THD_STATE_READY ->
  exists s', wakeup_thread t s = Done tt s' /\ istep idle s s' /\ k_systime s' = k_systime s /\
    forall u, k_thd s' u = if decide (u = t) then timed_out (k_thd s u) else k_thd s u.
Proof.
  intros HL HI Ht Hc Hr.
  assert (p_state (k_thd s t) <> THD_STATE_CURRENT) as Hnc.
  { intros Hs. apply Hc. by apply (i_cur1 _ _ _ HI). }
  assert (forall s1, KI (Some t) s1 -> istep idle s (wake_st t RDY_TIMEOUT s1) ->
    locked_I s1 -> k_thd s1 = k_thd s -> k_systime s1 = k_systime s ->
    exists s', (set_thd t (set_p_u (U_msg RDY_TIMEOUT)) ;;; chSchReadyI t ;;; mret' tt) s1 = Done tt s' /\
      istep idle s s' /\ k_systime s' = k_systime s /\
      forall u, k_thd s' u = if decide (u = t) then timed_out (k_thd s u) else k_thd s u) as Hfin.
  { intros s1 HI1 Hi HL1 E1 E2. exists (wake_st t RDY_TIMEOUT s1). split_and!; try done.
    - apply timeout_ready; [done|done|by rewrite E1].
    - intros u. rewrite wake_st_thd, E1.
      destruct (decide (t = u)) as [->|?]; [by rewrite decide_True|by rewrite decide_False]. }
  assert (home (k_thd s t) = None -> KI (Some t) s) as Hfl.
  { intros Hh. apply float_intro; try done.
    - intros Hx. by rewrite Hx in Ht.
    - intros u Hu. pose proof (i_wait _ _ _ HI t u Hu) as Hx. by rewrite Hx in Ht. }
  assert (home (k_thd s t) = None -> istep idle s (wake_st t RDY_TIMEOUT s)) as Hfi.
  { intros Hh. apply wake_istep; auto. }
  pose proof (i_queued _ _ _ HI t ltac:(done)) as Hqd. pose proof (i_kind _ _ _ HI t) as Hk.
  pose proof (timeout_off s t) as Hoff.
  unfold wakeup_thread, bind at 1, thd, gets. cbn [obind].
  unfold home in *. destruct (p_state (k_thd s t)) eqn:Est; try done.
  all: try by apply Hfin; auto.
  all: destruct (u_wtobjp (p_u (k_thd s t))) as [q|] eqn:Eq; [|by destruct Hqd].
  all: specialize (Hk q ltac:(done) eq_refl); destruct q; try done.
  all: edestruct Hoff as [O1 O2]; [done|done|done|done|].
  all: by apply Hfin.
Qed.

(** What a callback does to the rest of the kernel: it leaves alone the
    timers, the running thread and the threads that are ready. *)
Record cb_step s s' : Prop := {
  cb_istep : istep idle s s';
  cb_systime : k_systime s' = k_systime s;
  cb_ready : forall u, p_state (k_thd s u) = THD_STATE_READY -> k_thd s' u = k_thd s u
}.

Definition expire (th : Thread) : Thread :=
  if bool_decide (p_state th = THD_STATE_READY) then th else timed_out th.

Lemma with_lock_thd (k : Z) s : k_thd (with_lock k s) = k_thd s /\ k_systime (with_lock k s) = k_systime s.
Proof. unfold with_lock. by destruct CH_DBG_SYSTEM_STATE_CHECK. Qed.

Lemma istep_locked_out s s1 :
  isr_out s -> istep idle (with_lock 1 s) s1 -> istep idle s (with_lock 0 s1).
Proof.
  intros Ho Hi. unfold isr_out, with_lock in *.
  destruct CH_DBG_SYSTEM_STATE_CHECK eqn:Ec; [|done]. destruct (Ho eq_refl) as [_ E0].
  destruct Hi. split; try done. pose proof (proj2 (KInv_lock idle None 0 s1) is_inv) as HK.
  unfold with_lock in HK. by rewrite Ec in HK.
Qed.

Lemma wakeup_ok s t :
  isr_out s -> KI None s -> timed_state (p_state (k_thd s t)) -> t <> k_curr s ->
  exists s', wakeup t s = Suspend AtUnlock s' (fun y => Done tt y) /\ cb_step s s' /\
    forall u, k_thd s' u = if decide (u = t) then expire (k_thd s u) else k_thd s u.
Proof.
  intros Ho HI Ht Hc. destruct (lock_isr s Ho) as [El Hin].
  destruct (with_lock_thd 1 s) as [E1 E1'].
  assert (KI None (with_lock 1 s)) as HI1 by by apply KInv_lock.
  unfold wakeup, bind at 1. rewrite El. cbn [obind].
  unfold bind at 1, thd, gets. cbn [obind]. rewrite E1. unfold expire.
  destruct (bool_decide_reflect (p_state (k_thd s t) = THD_STATE_READY)) as [Hr|Hr].
  - rewrite (unlock_isr_eq _ Hin). exists (with_lock 0 (with_lock 1 s)).
    destruct (with_lock_thd 0 (with_lock 1 s)) as [E2 E2'].
    split_and!; [done| |].
    + split; [|congruence|by intros; rewrite E2, E1].
      apply istep_locked_out; [done|by apply istep_refl].
    + intros u. rewrite E2, E1. case_decide; [|done]. subst. by rewrite bool_decide_true.
  - destruct (wakeup_thread_ok (with_lock 1 s) t) as (s1 & E & Hi & Es & Eu);
      [by apply isr_in_I|done|by rewrite E1| |by rewrite E1|].
    { unfold with_lock. by destruct CH_DBG_SYSTEM_STATE_CHECK. }
    unfold bind at 1. rewrite E. cbn [obind].
    assert (isr_in s1) as Hin1.
    { unfold isr_in in *. by rewrite (is_lock _ _ _ Hi), (is_isr _ _ _ Hi). }
    rewrite (unlock_isr_eq _ Hin1). destruct (with_lock_thd 0 s1) as [E2 E2'].
    exists (with_lock 0 s1). split_and!; [done| |].
    + split; [by apply istep_locked_out|congruence|].
      intros u Hu. rewrite E2, Eu, E1. rewrite decide_False; [done|congruence].
    + intros u. rewrite E2, Eu, E1. case_decide; [|done]. subst. by rewrite bool_decide_false.
Qed.

(** ** The loop *)

Context `{App}.

(** Under the lock, in the handler of the tick. *)
Record tick_st s : Prop := {
  tk_in : isr_in s;
  tk_inv : KI None s;
  tk_curr : no_timer s;
  tk_user : forall n f, vt_func (k_vt s (VTUser n)) = Some f -> exists g, f = VF_user g
}.

Definition unlinked v (l : list vtid) s : kstate := set_k_vtl l (upd_vt v (set_vt_func None) s).

Lemma unlinked_inv s v l :
  KI None s -> k_vtl s = v :: l -> KI None (unlinked v l s).
Proof.
  intros HI El. pose proof (i_vt _ _ _ HI) as [Hnd Hnn Htot Hh Har].
  rewrite El in Hnd, Hnn, Htot, Har. apply list.NoDup_cons in Hnd as [Hv Hnd].
  assert (vt_wf (unlinked v l s)) as Hwf.
  { simpl in Htot. destruct (vt_ext (k_vt s) (k_vt (unlinked v l s)) l) as [Et _].
    { intros p Hp. simpl. rewrite fn_insert_dec. by case_decide; subst. }
    split; [done| |simpl in *|done|].
    - intros p Hp. simpl. rewrite fn_insert_dec. specialize (Hnn p ltac:(set_solver)).
      by case_decide; subst.
    - rewrite Et. specialize (Hnn v ltac:(set_solver)). lia.
    - intros p. simpl. rewrite fn_insert_dec. case_decide as Hp; [subst; by simpl|].
      rewrite <-Har. set_solver. }
  clear Hnd Hnn Htot Hh Har. kinv_open HI. split; kinv_same.
  intros t. simpl. rewrite fn_insert_dec. case_decide as Hp; [by subst; simpl|apply Iti].
Qed.

(** The callback of the timer just unlinked, on the stack of a thread. *)
Lemma vt_call_ok s v t l fn :
  v = VTStack t -> tick_st s -> vt_func (k_vt s v) = Some fn ->
  let s2 := with_lock 0 (unlinked v l s) in
  isr_out s2 -> KI None s2 ->
  exists s3, settle (vt_call fn (vt_par (k_vt s v)) s2) = Done tt s3 /\ cb_step s2 s3 /\
    p_state (k_thd s3 t) = THD_STATE_READY /\
    forall u, k_thd s3 u = if decide (u = t) then expire (k_thd s u) else k_thd s u.
Proof.
  intros Hv [_ HI Hnt Hus] Ef s2 Ho HI2.
  destruct (with_lock_fields 0 (unlinked v l s)) as (F1 & _ & F3 & _). fold s2 in F1, F3.
  subst v.
  destruct (i_timer _ _ _ HI t ltac:(congruence)) as (E1 & E2 & E3).
  assert (fn = VF_wakeup) as -> by congruence. rewrite E2.
  destruct (wakeup_ok s2 t) as (s3 & E & Hcb & Hu); [done|done|by rewrite F1| |].
  { rewrite F3. simpl. intros Et. unfold no_timer in Hnt. rewrite <-Et in Hnt. congruence. }
  exists s3. cbn [vt_call]. rewrite E. split_and!; try done.
  - rewrite Hu, decide_True by done. unfold expire. by case_bool_decide.
  - intros u. by rewrite Hu, F1.
Qed.

Lemma vt_fire_ok s v t l :
  v = VTStack t -> tick_st s -> k_vtl s = v :: l ->
  exists s', settle (vt_fire s) = Done tt s' /\ tick_st s' /\ k_vtl s' = l /\
    k_vt s' = <[v := set_vt_func None (k_vt s v)]> (k_vt s) /\
    k_systime s' = k_systime s /\
    (forall u, p_state (k_thd s u) = THD_STATE_READY -> k_thd s' u = k_thd s u) /\
    p_state (k_thd s' t) = THD_STATE_READY /\
    (forall u, k_thd s' u = if decide (u = t) then expire (k_thd s u) else k_thd s u).
Proof.
  intros Hvt HT El. pose proof HT as [Hin HI Hnt Hus]. pose proof (unlinked_inv s v l HI El) as HI1.
  assert (exists fn, vt_func (k_vt s v) = Some fn) as [fn Ef].
  { destruct (vt_func (k_vt s v)) eqn:E; [by eexists|].
    assert (v ∈ k_vtl s) as Hv by (rewrite El; set_solver).
    by apply (vtwf_armed _ (i_vt _ _ _ HI)) in Hv. }
  unfold vt_fire. rewrite (settle_bind _ _ _ (Some fn, vt_par (k_vt s v)) (unlinked v l s)).
  2:{ unfold vt_unlink. rewrite El, Ef. simpl. by rewrite fn_insert_eq. }
  destruct (unlock_isr (unlinked v l s) Hin) as [Eu Ho]. rewrite (settle_bind _ _ _ tt _ Eu).
  destruct (vt_call_ok s v t l fn Hvt HT Ef Ho) as (s3 & Ec & [Hi Es Hr] & Hexp & Hexp'); [by apply KInv_lock|].
  rewrite (settle_bind _ _ _ tt s3 Ec).
  destruct (with_lock_fields 0 (unlinked v l s)) as (F1 & _ & F3 & _ & F5).
  destruct (with_lock_rest 0 (unlinked v l s)) as (_ & _ & _ & F6 & _).
  destruct (with_lock_thd 0 (unlinked v l s)) as [_ F7].
  assert (isr_out s3) as Ho3.
  { unfold isr_out in *. by rewrite (is_lock _ _ _ Hi), (is_isr _ _ _ Hi). }
  destruct (lock_isr s3 Ho3) as [-> Hin3]. exists (with_lock 1 s3).
  destruct (with_lock_fields 1 s3) as (G1 & _ & G3 & _ & G5).
  destruct (with_lock_rest 1 s3) as (_ & _ & _ & G6 & _). destruct (with_lock_thd 1 s3) as [_ G7].
  assert (k_vt (with_lock 1 s3) = <[v := set_vt_func None (k_vt s v)]> (k_vt s)) as Ev
    by (by rewrite G5, (is_vt _ _ _ Hi), F5).
  split_and!; [done| | |done| | | |].
  - split; [done|apply KInv_lock, Hi| |].
    + unfold no_timer. rewrite Ev, G3, (is_curr _ _ _ Hi), F3, fn_insert_dec. by case_decide.
    + intros n f. rewrite Ev, fn_insert_dec. case_decide; [done|apply Hus].
  - by rewrite G6, (is_vtl _ _ _ Hi), F6.
  - by rewrite G7, Es, F7.
  - intros u Hu. rewrite G1, Hr; by rewrite F1.
  - by rewrite G1.
  - by rewrite G1.
Qed.

Lemma expire_ready th : p_state (expire th) = THD_STATE_READY.
Proof. unfold expire. by case_bool_decide. Qed.

(** The timers at the head that are due are fired, and no other. *)
Lemma tick_loop (Zs R : list vtid) (n : nat) s :
  tick_st s -> k_vtl s = Zs ++ R -> (forall v, v ∈ Zs -> vt_time (k_vt s v) = 0) ->
  (forall v R', R = v :: R' -> vt_time (k_vt s v) <> 0) -> (length Zs <= n)%nat -> (forall k, VTUser k ∉ Zs) ->
  exists s', settle (mwhile n vt_expired vt_fire s) = Done tt s' /\ tick_st s' /\ k_vtl s' = R /\
    (forall v, k_vt s' v = if decide (v ∈ Zs) then set_vt_func None (k_vt s v) else k_vt s v) /\
    k_systime s' = k_systime s /\
    (forall u, p_state (k_thd s u) = THD_STATE_READY -> k_thd s' u = k_thd s u) /\
    (forall t, VTStack t ∈ Zs -> p_state (k_thd s' t) = THD_STATE_READY) /\
    (forall u, k_thd s' u = if decide (VTStack u ∈ Zs) then expire (k_thd s u) else k_thd s u).
Proof.
  revert n s. induction Zs as [|v Zs IH]; intros n s HT El HZ HR Hn Hk.
  - assert (vt_expired s = false) as E.
    { unfold vt_expired. rewrite El. simpl. destruct R as [|v R].
      - by rewrite (vtwf_hdr _ (i_vt _ _ _ (tk_inv _ HT))).
      - apply Z.eqb_neq. by eapply HR. }
    exists s. split; [destruct n; cbn [mwhile]; by rewrite E|].
    split_and!; try done; intros; try set_solver; by rewrite decide_False by set_solver.
  - destruct n as [|n]; [simpl in Hn; lia|]. cbn [mwhile].
    assert (vt_expired s = true) as ->.
    { unfold vt_expired. rewrite El. simpl. apply Z.eqb_eq, HZ. set_solver. }
    destruct v as [t|k]; [|destruct (Hk k); set_solver].
    destruct (vt_fire_ok s _ t (Zs ++ R) eq_refl HT El) as (s1 & E1 & HT1 & L1 & V1 & S1 & R1 & X1 & X1').
    rewrite (settle_bind _ _ _ tt s1 E1).
    assert (forall p, vt_time (k_vt s1 p) = vt_time (k_vt s p)) as Etm.
    { intros p. rewrite V1, fn_insert_dec. by case_decide; subst. }
    destruct (IH n s1 HT1 L1) as (s2 & E2 & HT2 & L2 & V2 & S2 & R2 & X2 & Y2).
    { intros p Hp. rewrite Etm. apply HZ. set_solver. }
    { intros p R' ->. rewrite Etm. by eapply HR. }
    { simpl in Hn. lia. }
    { intros k Hk'. apply (Hk k). set_solver. }
    exists s2. split_and!; try done.
    + intros p. rewrite V2, V1, fn_insert_dec.
      destruct (decide (VTStack t = p)) as [<-|Hp].
      * rewrite (decide_True (P := VTStack t ∈ VTStack t :: Zs)) by set_solver. by case_decide.
      * destruct (decide (p ∈ Zs)); [by rewrite decide_True by set_solver|].
        by rewrite decide_False by set_solver.
    + congruence.
    + intros u Hu. rewrite R2; by rewrite R1.
    + intros t' Ht. apply elem_of_cons in Ht as [[= ->]|Ht]; [|by apply X2]. by rewrite R2.
    + intros u. rewrite Y2, X1'.
      destruct (decide (u = t)) as [->|Hu].
      * rewrite (decide_True (P := VTStack t ∈ VTStack t :: Zs)) by set_solver.
        case_decide; [|done]. unfold expire at 1. rewrite expire_ready. by rewrite bool_decide_true.
      * destruct (decide (VTStack u ∈ Zs)); [by rewrite decide_True by set_solver|].
        rewrite decide_False; [done|]. intros [[= ?]|?]%elem_of_cons; [done|done].
Qed.

(** ** The whole tick *)

(** The due timers are at the head of the list. *)
Lemma due_prefix (vt : vtid -> VirtualTimer) (l : list vtid) :
  exists Zs R, l = Zs ++ R /\ (forall v, v ∈ Zs -> vt_time (vt v) = 0) /\
    (forall v R', R = v :: R' -> vt_time (vt v) <> 0).
Proof.
  induction l as [|v l (Zs & R & -> & HZ & HR)]; [by exists [], []; split_and!; [..|set_solver|]|].
  destruct (decide (vt_time (vt v) = 0)) as [E|E].
  - exists (v :: Zs), R. split_and!; [done| |done]. intros p [->|Hp]%elem_of_cons; auto.
  - exists [], (v :: Zs ++ R). split_and!; [done|set_solver|]. by intros p R' [= <- _].
Qed.

Lemma due_remaining (vt : vtid -> VirtualTimer) (Zs R : list vtid) v :
  (forall p, p ∈ Zs ++ R -> 0 <= vt_time (vt p)) -> NoDup (Zs ++ R) ->
  (forall p, p ∈ Zs -> vt_time (vt p) = 0) ->
  (forall p R', R = p :: R' -> vt_time (vt p) <> 0) ->
  (v ∈ Zs <-> vt_remaining vt (Zs ++ R) v = Some 0) /\
  (v ∉ Zs -> vt_remaining vt (Zs ++ R) v = vt_remaining vt R v).
Proof.
  induction Zs as [|p Zs IH]; simpl; intros Hnn Hnd HZ HR.
  - split; [|done]. split; [set_solver|]. destruct R as [|q R]; simpl; [done|].
    specialize (HR q R eq_refl). pose proof (Hnn q ltac:(set_solver)).
    case_decide; [intros [= ?]; lia|]. intros Hr.
    destruct (vt_remaining vt R v) as [r|] eqn:Er; [|done]. injection Hr as Hr.
    destruct (decide (v ∈ R)) as [Hv|Hv]; [|by rewrite vt_remaining_notin in Er].
    destruct (vt_remaining_in vt R v) as (r' & E' & Hr' & _); [set_solver|done|].
    rewrite Er in E'. injection E' as <-. lia.
  - apply list.NoDup_cons in Hnd as [Hp Hnd].
    destruct IH as [IH1 IH2]; [set_solver|done|set_solver|done|].
    pose proof (HZ p ltac:(set_solver)) as E0. rewrite E0. case_decide as Hv.
    + subst. split; [split; [done|set_solver]|set_solver].
    + assert (Z.add 0 <$> vt_remaining vt (Zs ++ R) v = vt_remaining vt (Zs ++ R) v) as ->
        by (by destruct (vt_remaining vt (Zs ++ R) v)).
      rewrite <-IH1. split; [set_solver|]. intros Hn. apply IH2. set_solver.
Qed.

Definition ticked s : kstate :=
  let s1 := set_k_systime (u32 (k_systime s + 1)) s in
  set_k_vt (vt_lower_head (k_vt s) (k_vtl s) 1) s1.

Lemma ticked_ok s :
  tick_st s -> (forall v, remaining s v <> Some 0) ->
  tick_st (ticked s) /\
  forall v, remaining (ticked s) v = (fun r => r - 1) <$> remaining s v /\
    vt_func (k_vt (ticked s) v) = vt_func (k_vt s v).
Proof.
  intros [Hin HI Hnt Hus] Hpos. pose proof (i_vt _ _ _ HI) as [Hnd Hnn Htot Hh Har].
  destruct (vt_lower_head_spec (k_vt s) (k_vtl s) 1) as (L1 & L2 & L3 & _ & L5); try done.
  { intros p a' E. pose proof (Hnn p ltac:(rewrite E; set_solver)).
    assert (vt_time (k_vt s p) <> 0); [|lia]. intros E0. apply (Hpos p).
    unfold remaining. rewrite E. simpl. by rewrite decide_True, E0. }
  split; [|intros v; split; [apply L3|apply L5]]. split; try done.
  - assert (vt_wf (ticked s)) as Hwf.
    { split; try done; simpl.
      - rewrite L1. case_decide; lia.
      - intros v. by rewrite (proj1 (L5 v)). }
    clear Hnd Hnn Htot Hh Har. kinv_open HI. split; kinv_same.
    intros t. cbn [ticked k_vt set_k_vt k_thd set_k_systime].
    destruct (L5 (VTStack t)) as [-> ->]. apply Iti.
  - unfold no_timer. cbn [ticked k_vt set_k_vt k_curr set_k_systime]. by rewrite (proj1 (L5 _)).
  - intros n f. cbn [ticked k_vt set_k_vt]. rewrite (proj1 (L5 _)). apply Hus.
Qed.

(** [chVTDoTickI()] up to the loop. *)
Lemma chVTDoTickI_eq s :
  chVTDoTickI s =
  match k_vtl s with
  | [] => Done tt (ticked s)
  | _ => mwhile (length (k_vtl s)) vt_expired vt_fire (ticked s)
  end.
Proof.
  unfold chVTDoTickI, bind, ticked. cbn [modify obind k_vtl set_k_systime].
  destruct (k_vtl s) as [|p l] eqn:Ek; [|done]. by destruct s.
Qed.

Lemma tick_ok s :
  tick_st s -> (forall v, remaining s v <> Some 0) -> (forall k, remaining s (VTUser k) <> Some 1) ->
  exists s', settle (chVTDoTickI s) = Done tt s' /\ tick_st s' /\
    k_systime s' = u32 (k_systime s + 1) /\ (forall v, remaining s' v <> Some 0) /\
    (forall v, remaining s v = Some 1 -> vt_func (k_vt s' v) = None) /\
    (forall v r, remaining s v = Some r -> r <> 1 ->
       remaining s' v = Some (r - 1) /\ vt_func (k_vt s' v) = vt_func (k_vt s v)) /\
    (forall t, remaining s (VTStack t) = Some 1 -> p_state (k_thd s' t) = THD_STATE_READY) /\
    (forall u, k_thd s' u =
       if decide (remaining s (VTStack u) = Some 1) then expire (k_thd s u) else k_thd s u).
Proof.
  intros HT Hpos Hk. destruct (ticked_ok s HT Hpos) as [HT1 Htk].
  pose proof (fun v => proj1 (Htk v)) as Hrem.
  destruct (due_prefix (k_vt (ticked s)) (k_vtl s)) as (Zs & R & El & HZ & HR).
  pose proof (i_vt _ _ _ (tk_inv _ HT1)) as [Hnd Hnn _ _ _].
  change (k_vtl (ticked s)) with (k_vtl s) in *. rewrite El in Hnd, Hnn.
  assert (forall v, v ∈ Zs <-> remaining s v = Some 1) as Hdue.
  { intros v. destruct (due_remaining _ Zs R v Hnn Hnd HZ HR) as [-> _].
    specialize (Hrem v). unfold remaining at 1 in Hrem. change (k_vtl (ticked s)) with (k_vtl s) in Hrem.
    rewrite El in Hrem. rewrite Hrem. destruct (remaining s v) as [r|]; simpl; [|done].
    split; intros [= ?]; f_equal; lia. }
  assert (forall v, v ∉ Zs -> vt_remaining (k_vt (ticked s)) R v = remaining (ticked s) v) as Hrest.
  { intros v Hv. unfold remaining. change (k_vtl (ticked s)) with (k_vtl s). rewrite El.
    symmetry. by apply due_remaining. }
  destruct (tick_loop Zs R (length (k_vtl s)) (ticked s) HT1 El HZ HR) as
    (s' & E & HT' & L' & V' & S' & _ & X' & Y'); [rewrite El, length_app; lia|intros k; rewrite Hdue; apply Hk|].
  assert (forall v, remaining s' v = if decide (v ∈ Zs) then None else remaining (ticked s) v) as Hr'.
  { intros v. unfold remaining at 1. rewrite L'. destruct (vt_ext (k_vt (ticked s)) (k_vt s') R) as [_ ->].
    { intros p Hp. rewrite V'. by case_decide. }
    case_decide as Hv; [|by apply Hrest]. apply vt_remaining_notin. intros Hin.
    apply list.NoDup_app in Hnd as (_ & Hd & _). by apply (Hd v). }
  exists s'. split_and!; try done.
  - rewrite chVTDoTickI_eq. destruct (k_vtl s) as [|p l] eqn:Ek; [|exact E].
    rewrite <-E. cbn [length mwhile]. unfold vt_expired. change (k_vtl (ticked s)) with (k_vtl s).
    by rewrite Ek, (vtwf_hdr _ (i_vt _ _ _ (tk_inv _ HT1))).
  - intros v. rewrite Hr'. case_decide as Hv; [done|]. rewrite Hrem, Hdue in *.
    destruct (remaining s v) as [r|]; simpl; [|done]. intros [= ?]. apply Hv. f_equal. lia.
  - intros v Hv. by rewrite V', decide_True by (by apply Hdue).
  - intros v r Hv Hn. assert (v ∉ Zs) as Hz by (rewrite Hdue; congruence).
    rewrite Hr', V', !decide_False, Hrem, Hv by done. split; [done|]. apply Htk.
  - intros t Ht. by apply X', Hdue.
  - intros u. rewrite Y'.
    destruct (decide (VTStack u ∈ Zs)) as [Hu|Hu]; rewrite Hdue in Hu;
      [by rewrite decide_True|by rewrite decide_False].
Qed.

End Tick.
