(* ===== verification/TickRun.v ===== *)
(** * The system tick with callbacks and other interrupts

    The handler of the tick releases the lock around each callback.  Other
    interrupts are served there, and the callbacks of the application run: both
    may arm timers, wake threads and change the data of the kernel.  [isr_step]
    is what they may do; [tick_run] is what the tick does whatever they do
    within it. *)
From S2P Require Import Prelude Monad Types ThdLists VT Sched Sem Mtx Mem.
From S2P Require Import Threads Sys Inv InvPrim InvSched Rules Total Wake SemOK MtxOK TickOK.

Implicit Types (s : kstate) (t u : tid) (v : vtid).

Section Run.
Context `{Config} `{App}.
Variables (idle : tid) (J : kdata_t -> Prop).
Local Abbreviation KI := (KInv idle).

(** The running thread stays, threads at most become ready, armed timers stay
    as they are, and timers of the application that [own] allows may be armed. *)
Record isr_step (own : Z -> Prop) s s' : Prop := mkIsrStep {
  ir_inv : KI None s';
  ir_data : J (kdata s) -> J (kdata s');
  ir_curr : k_curr s' = k_curr s;
  ir_lock : k_lock_cnt s' = k_lock_cnt s;
  ir_isr : k_isr_cnt s' = k_isr_cnt s;
  ir_systime : k_systime s' = k_systime s;
  ir_state : forall u, p_state (k_thd s' u) = p_state (k_thd s u) \/ p_state (k_thd s' u) = THD_STATE_READY;
  ir_armed : forall v r, remaining s v = Some r ->
    remaining s' v = Some r /\ vt_func (k_vt s' v) = vt_func (k_vt s v) /\ vt_par (k_vt s' v) = vt_par (k_vt s v);
  ir_new : forall v r, remaining s v = None -> remaining s' v = Some r ->
    r <> 0 /\ exists n g, v = VTUser n /\ own n /\ vt_func (k_vt s' v) = Some (VF_user g)
}.

Lemma isr_step_refl own s : KI None s -> isr_step own s s.
Proof. intros HI. split; auto. congruence. Qed.

Lemma isr_step_trans (own1 own2 own : Z -> Prop) s1 s2 s3 :
  (forall n, own1 n -> own n) -> (forall n, own2 n -> own n) ->
  isr_step own1 s1 s2 -> isr_step own2 s2 s3 -> isr_step own s1 s3.
Proof.
  intros H1 H2 [A1 A2 A3 A4 A5 A6 A7 A8 A9] [B1 B2 B3 B4 B5 B6 B7 B8 B9].
  split; auto; try congruence.
  - intros u. destruct (A7 u) as [E1|E1], (B7 u) as [E2|E2]; rewrite ?E2; auto.
  - intros v r Hr. destruct (A8 v r Hr) as (E1 & E2 & E3), (B8 v r E1) as (F1 & F2 & F3). by rewrite F2, F3.
  - intros v r Hn Hr. destruct (remaining s2 v) as [r2|] eqn:E2.
    + destruct (A9 v r2 Hn E2) as (N & n & g & -> & Ho & Ef). destruct (B8 _ _ E2) as (F1 & F2 & _).
      assert (r2 = r) as -> by congruence. split; [done|]. exists n, g. rewrite F2. auto.
    + destruct (B9 v r E2 Hr) as (N & n & g & -> & Ho & Ef). split; [done|]. exists n, g. auto.
Qed.

(** The timers that were armed at first belong to their callbacks. *)
Variable mine : Z -> Prop.
Definition tick_grd (w : susp) s : Prop := w = AtUnlock /\ isr_out s /\ KI None s.
Definition tick_rely (w : susp) s s' : Prop := isr_step (fun n => ~ mine n) s s'.
Abbreviation itotal := (ototal tick_grd tick_rely).

(** The callback of timer [n] returns, whatever other interrupts do, and leaves
    its timer not armed, or armed for [rearm n] ticks. *)
Variable rearm : Z -> option Z.
Definition callback_ok (n f par : Z) : Prop :=
  forall s, isr_out s -> KI None s -> J (kdata s) -> remaining s (VTUser n) = None ->
  itotal (fun _ s' => isr_step (fun m => m = n \/ ~ mine m) s s' /\ remaining s' (VTUser n) = rearm n) (user_vtfunc f par s).

Lemma remaining_none s v : vt_wf s -> (remaining s v = None <-> vt_func (k_vt s v) = None).
Proof.
  intros Hwf. destruct (decide (v ∈ k_vtl s)) as [Hv|Hv].
  - destruct (vt_remaining_in (k_vt s) (k_vtl s) v) as (r & E & _); [apply Hwf|done|].
    unfold remaining. rewrite E. apply (vtwf_armed _ Hwf) in Hv. done.
  - unfold remaining. rewrite vt_remaining_notin by done. rewrite (vtwf_armed _ Hwf) in Hv.
    split; [|done]. intros _. by apply dec_stable.
Qed.

Lemma isr_step_tick own s s' : tick_st idle s -> isr_step own (with_lock 0 s) s' ->
  isr_out s' /\ KI None s' /\ no_timer s' /\
  (forall n f, vt_func (k_vt s' (VTUser n)) = Some f -> exists g, f = VF_user g).
Proof.
  intros [Hin HI Hnt Hus] Hs. destruct (unlock_isr s Hin) as [_ Ho].
  destruct (with_lock_fields 0 s) as (_ & _ & F3 & _ & F5).
  pose proof (i_vt _ _ _ HI) as Hwf. pose proof (i_vt _ _ _ (ir_inv _ _ _ Hs)) as Hwf'.
  assert (forall v, remaining (with_lock 0 s) v = remaining s v) as Er.
  { intros v. unfold remaining. destruct (with_lock_rest 0 s) as (_ & _ & _ & -> & _). by rewrite F5. }
  split_and!.
  - intros Hc. rewrite (ir_lock _ _ _ Hs), (ir_isr _ _ _ Hs). by apply Ho.
  - apply Hs.
  - unfold no_timer in *. apply (remaining_none _ _ Hwf'). rewrite (ir_curr _ _ _ Hs), F3.
    apply (remaining_none _ _ Hwf) in Hnt. rewrite <-Er in Hnt.
    destruct (remaining s' (VTStack (k_curr s))) eqn:E; [|done].
    destruct (ir_new _ _ _ Hs _ _ Hnt E) as (_ & ? & ? & ? & _). congruence.
  - intros n f Hf. destruct (remaining s (VTUser n)) as [r|] eqn:E.
    + rewrite <-Er in E. destruct (ir_armed _ _ _ Hs _ _ E) as (_ & E2 & _). rewrite E2, F5 in Hf. by apply (Hus n).
    + rewrite <-Er in E. destruct (remaining s' (VTUser n)) as [r|] eqn:E'.
      * destruct (ir_new _ _ _ Hs _ _ E E') as (_ & m & g & _ & _ & Eg). exists g. congruence.
      * apply (remaining_none _ _ Hwf') in E'. congruence.
Qed.

(** ** A round of the loop *)

Lemma remaining_lock (k : Z) s v : remaining (with_lock k s) v = remaining s v.
Proof.
  unfold remaining. destruct (with_lock_fields k s) as (_ & _ & _ & _ & ->). by destruct (with_lock_rest k s) as (_ & _ & _ & -> & _).
Qed.

Lemma kdata_lock (k : Z) s : kdata (with_lock k s) = kdata s.
Proof. unfold with_lock. by destruct CH_DBG_SYSTEM_STATE_CHECK. Qed.

Lemma unlinked_tick s v l : tick_st idle s -> k_vtl s = v :: l -> tick_st idle (unlinked v l s).
Proof.
  intros [Hin HI Hnt Hus] El. split; [done|by apply unlinked_inv| |].
  - unfold no_timer in *. simpl. rewrite fn_insert_dec. by case_decide.
  - intros n f. simpl. rewrite fn_insert_dec. case_decide; [done|apply Hus].
Qed.

(** A due timer taken off the head leaves the others as they are. *)
Lemma unlinked_remaining s v l (u : vtid) :
  vt_wf s -> k_vtl s = v :: l -> vt_time (k_vt s v) = 0 ->
  remaining (unlinked v l s) u = if decide (u = v) then None else remaining s u.
Proof.
  intros Hwf El E0. unfold remaining. simpl. rewrite El. simpl. rewrite E0.
  pose proof (vtwf_nodup _ Hwf) as Hnd. rewrite El in Hnd. apply list.NoDup_cons in Hnd as [Hv _].
  destruct (vt_ext (k_vt s) (<[v := set_vt_func None (k_vt s v)]> (k_vt s)) l) as [_ ->].
  { intros p Hp. rewrite fn_insert_dec. by case_decide; subst. }
  destruct (decide (u = v)) as [->|E]; [by apply vt_remaining_notin|]. rewrite ?decide_False by congruence.
  by destruct (vt_remaining (k_vt s) l u).
Qed.

(** The callback of a thread's timer. *)
Lemma wakeup_run s t :
  isr_out s -> KI None s -> timed_state (p_state (k_thd s t)) -> t <> k_curr s ->
  itotal (fun _ s' => isr_step (fun m => ~ mine m) s s' /\ p_state (k_thd s' t) = THD_STATE_READY) (wakeup t s).
Proof.
  intros Ho HI Ht Hc. destruct (wakeup_ok idle s t Ho HI Ht Hc) as (s1 & -> & [Hi Es _] & Hu).
  assert (forall v, remaining s1 v = remaining s v) as Er
    by (intros v; unfold remaining; by rewrite (is_vt _ _ _ Hi), (is_vtl _ _ _ Hi)).
  assert (isr_step (fun m => ~ mine m) s s1) as H1.
  { split; try apply Hi; [by rewrite (is_data _ _ _ Hi)| | |].
    - intros u. rewrite Hu. case_decide; [|by left]. right. apply expire_ready.
    - intros v r Hr. rewrite Er, (is_vt _ _ _ Hi). done.
    - intros v r Hn. rewrite Er. congruence. }
  cbn [ototal]. split.
  - split_and!; [done| |apply Hi]. intros Hk. rewrite (is_lock _ _ _ Hi), (is_isr _ _ _ Hi). by apply Ho.
  - intros s2 H2. split; [by apply (isr_step_trans (fun m => ~ mine m) (fun m => ~ mine m) _ _ s1)|].
    destruct (ir_state _ _ _ H2 t) as [->|]; [|done]. rewrite Hu, decide_True by done. apply expire_ready.
Qed.

(** What a round does to the timers and threads; [v] is the timer it fires. *)
Record fired v s s' : Prop := mkFired {
  fd_tick : tick_st idle s';
  fd_data : J (kdata s');
  fd_systime : k_systime s' = k_systime s;
  fd_ready : forall u, p_state (k_thd s u) = THD_STATE_READY -> p_state (k_thd s' u) = THD_STATE_READY;
  fd_armed : forall (u : vtid) r, u <> v -> remaining s u = Some r ->
    remaining s' u = Some r /\ vt_func (k_vt s' u) = vt_func (k_vt s u) /\ vt_par (k_vt s' u) = vt_par (k_vt s u);
  fd_new : forall (u : vtid) r, u <> v -> remaining s u = None -> remaining s' u = Some r -> r <> 0 /\ exists n, u = VTUser n /\ ~ mine n;
  fd_stack : forall t, v = VTStack t -> remaining s' v = None /\ p_state (k_thd s' t) = THD_STATE_READY;
  fd_user : forall n, v = VTUser n -> remaining s' v = rearm n /\ rearm n <> Some 0
}.

Lemma fire_run s v l :
  tick_st idle s -> J (kdata s) -> k_vtl s = v :: l -> vt_time (k_vt s v) = 0 ->
  (forall n f, v = VTUser n -> vt_func (k_vt s v) = Some (VF_user f) -> mine n /\ callback_ok n f (vt_par (k_vt s v))) ->
  itotal (fun _ s' => fired v s s') (vt_fire s).
Proof.
  intros HT HJ El E0 Hcb. pose proof HT as [Hin HI Hnt Hus]. pose proof (i_vt _ _ _ HI) as Hwf.
  assert (exists fn, vt_func (k_vt s v) = Some fn) as [fn Ef].
  { destruct (vt_func (k_vt s v)) eqn:E; [by eexists|].
    assert (v ∈ k_vtl s) as Hv by (rewrite El; set_solver). by apply (vtwf_armed _ Hwf) in Hv. }
  unfold vt_fire, bind at 1, vt_unlink. rewrite El, Ef. cbn [obind fst snd].
  change (set_k_vtl l (upd_vt v (set_vt_func None) s)) with (unlinked v l s).
  replace (vt_par (k_vt (upd_vt v (set_vt_func None) s) v)) with (vt_par (k_vt s v)) by (simpl; by rewrite fn_insert_eq).
  set (s1 := unlinked v l s). pose proof (unlinked_tick s v l HT El) as HT1. fold s1 in HT1.
  pose proof (fun u : vtid => unlinked_remaining s v l u Hwf El E0) as Hr1. fold s1 in Hr1.
  unfold bind at 1. rewrite unlock_isr_eq by apply HT1. cbn [obind ototal]. destruct (unlock_isr s1 (tk_in _ _ HT1)) as [_ Ho1].
  split; [split_and!; [done|done|apply KInv_lock, HT1]|]. intros s2 H2.
  destruct (isr_step_tick _ s1 s2 HT1 H2) as (Ho2 & HI2 & Hnt2 & _).
  destruct (with_lock_fields 0 s1) as (F1 & _ & F3 & _ & F5).
  set (own := fun m => VTUser m = v \/ ~ mine m).
  assert (itotal (fun _ s3 => isr_step own (with_lock 0 s1) s3 /\
      (forall t, v = VTStack t -> p_state (k_thd s3 t) = THD_STATE_READY) /\
      (forall n, v = VTUser n -> remaining s3 v = rearm n)) (vt_call fn (vt_par (k_vt s v)) s2)) as Hcall.
  { destruct v as [t|n].
    - destruct (i_timer _ _ _ HI t ltac:(congruence)) as (E1 & E2 & E3). assert (fn = VF_wakeup) as -> by congruence. rewrite E2.
      eapply ototal_mono; [apply (wakeup_run s2 t); [done|done| |]|].
      + destruct (ir_state _ _ _ H2 t) as [->| ->]; [by rewrite F1|done].
      + rewrite (ir_curr _ _ _ H2), F3. simpl. intros Et. unfold no_timer in Hnt. rewrite <-Et in Hnt. congruence.
      + intros _ s3 [H3 Hr3]. split_and!; [|by intros ? [= <-]|done].
        by apply (isr_step_trans (fun m => ~ mine m) (fun m => ~ mine m) own _ s2); [right|right| |].
    - destruct (Hus _ _ Ef) as [g ->]. destruct (Hcb n g eq_refl Ef) as [Hmine Hok].
      eapply ototal_mono; [apply (Hok s2); [done|done| |]|].
      + apply (ir_data _ _ _ H2). by rewrite kdata_lock.
      + destruct (remaining s2 (VTUser n)) as [r|] eqn:E; [|done].
        destruct (ir_new _ _ _ H2 (VTUser n) r) as (_ & m & ? & [= <-] & Hm & _); [|done|done].
        by rewrite remaining_lock, Hr1, decide_True.
      + intros _ s3 [H3 Hr3]. split_and!; [|done|by intros ? [= <-]].
        apply (isr_step_trans (fun m => ~ mine m) (fun m => m = n \/ ~ mine m) own _ s2); [by right| |done|done].
        intros m [->|]; [by left|by right]. }
  eapply ototal_bind; [exact Hcall|]. intros [] s3 (H3 & Hst & Hus3).
  destruct (isr_step_tick _ s1 s3 HT1 H3) as (Ho3 & HI3 & Hnt3 & Hus3').
  destruct (lock_isr s3 Ho3) as [-> Hin3]. cbn [ototal].
  destruct (with_lock_fields 1 s3) as (G1 & _ & G3 & _ & G5).
  assert (forall u : vtid, remaining (with_lock 0 s1) u = if decide (u = v) then None else remaining s u) as Er0
    by (intros u; by rewrite remaining_lock).
  split.
  - split; [done|by apply KInv_lock| |].
    + unfold no_timer in *. by rewrite G5, G3.
    + by rewrite G5.
  - rewrite kdata_lock. apply (ir_data _ _ _ H3). by rewrite kdata_lock.
  - destruct (with_lock_thd 1 s3) as [_ ->]. rewrite (ir_systime _ _ _ H3). by destruct (with_lock_thd 0 s1) as [_ ->].
  - intros u Hu. rewrite G1. destruct (ir_state _ _ _ H3 u) as [->|]; [by rewrite F1|done].
  - intros u r Hne Hr. rewrite remaining_lock, G5. destruct (ir_armed _ _ _ H3 u r) as (A1 & A2 & A3).
    { by rewrite Er0, decide_False. }
    rewrite F5 in A2, A3. unfold s1 in A2, A3. simpl in A2, A3. rewrite fn_insert_ne in A2, A3 by done. done.
  - intros u r Hne Hn. rewrite remaining_lock. intros Hr. destruct (ir_new _ _ _ H3 u r) as (N & n & g & -> & [Hn'|Hn'] & _); [|done|congruence|].
    { by rewrite Er0, decide_False. }
    eauto.
  - intros t ->. rewrite remaining_lock, G1. split; [|by apply Hst]. destruct (remaining s3 (VTStack t)) as [r|] eqn:E; [|done].
    destruct (ir_new _ _ _ H3 (VTStack t) r) as (_ & ? & ? & ? & _); [by rewrite Er0, decide_True|done|done].
  - intros n ->. rewrite remaining_lock, (Hus3 n) by done. split; [done|]. intros E.
    destruct (ir_new _ _ _ H3 (VTUser n) 0) as [N _]; [by rewrite Er0, decide_True|by rewrite (Hus3 n)|done].
Qed.

(** ** The loop *)

(** What the rounds do together, from a state whose timers with no ticks left
    are due. *)
Record all_fired s s' : Prop := mkAllFired {
  af_tick : tick_st idle s';
  af_data : J (kdata s');
  af_systime : k_systime s' = k_systime s;
  af_none : forall v, remaining s' v <> Some 0;
  af_ready : forall u, p_state (k_thd s u) = THD_STATE_READY -> p_state (k_thd s' u) = THD_STATE_READY;
  af_armed : forall v r, remaining s v = Some r -> r <> 0 -> remaining s' v = Some r /\ vt_func (k_vt s' v) = vt_func (k_vt s v);
  af_kept : forall v, remaining s v = None -> (forall n, v = VTUser n -> mine n) -> remaining s' v = None;
  af_stack : forall t, remaining s (VTStack t) = Some 0 ->
    remaining s' (VTStack t) = None /\ p_state (k_thd s' t) = THD_STATE_READY;
  af_user : forall n, remaining s (VTUser n) = Some 0 -> remaining s' (VTUser n) = rearm n
}.

Lemma head_due s v l : vt_wf s -> k_vtl s = v :: l ->
  (vt_time (k_vt s v) = 0 -> remaining s v = Some 0) /\
  (vt_time (k_vt s v) <> 0 -> forall u : vtid, remaining s u <> Some 0).
Proof.
  intros Hwf El. split.
  - intros E. unfold remaining. rewrite El. simpl. by rewrite decide_True, E.
  - intros Hne u. unfold remaining. destruct (due_remaining (k_vt s) [] (k_vtl s) u) as [Hd _]; [apply Hwf|apply Hwf|set_solver| |].
    + intros p R E. rewrite El in E. by injection E as <- _.
    + simpl in Hd. intros Hu. apply Hd in Hu. set_solver.
Qed.

Lemma fired_due s s1 v (u : vtid) : fired v s s1 -> remaining s1 u = Some 0 <-> u <> v /\ remaining s u = Some 0.
Proof.
  intros Hf. destruct (decide (u = v)) as [->|Hne].
  - split; [|by intros []]. intros E. destruct v as [t|n].
    + destruct (fd_stack _ _ _ Hf t eq_refl). congruence.
    + destruct (fd_user _ _ _ Hf n eq_refl). congruence.
  - split.
    + intros E. split; [done|]. destruct (remaining s u) as [r|] eqn:Er.
      * destruct (fd_armed _ _ _ Hf u r Hne Er). congruence.
      * by destruct (fd_new _ _ _ Hf u 0 Hne Er E).
    + intros [_ E]. apply (fd_armed _ _ _ Hf u 0 Hne E).
Qed.

Lemma all_fired_cons s s1 s2 v :
  remaining s v = Some 0 -> fired v s s1 -> (forall m, remaining s (VTUser m) = Some 0 -> mine m) -> all_fired s1 s2 -> all_fired s s2.
Proof.
  intros Hv0 Hf Hmine [A1 A2 A3 A4 A5 A6 A7 A8 A9].
  assert (forall u : vtid, u <> v -> remaining s u = None -> (forall n, u = VTUser n -> mine n) -> remaining s1 u = None) as Hkept.
  { intros u Hne Hn Hm. destruct (remaining s1 u) as [r|] eqn:E; [|done].
    destruct (fd_new _ _ _ Hf u r Hne Hn E) as (_ & n & -> & Hn'). by destruct Hn'; apply Hm. }
  split; auto.
  - by rewrite A3, (fd_systime _ _ _ Hf).
  - intros u Hu. by apply A5, (fd_ready _ _ _ Hf).
  - intros u r Hr Hnz. destruct (fd_armed _ _ _ Hf u r) as (E1 & E2 & _); [congruence|done|]. rewrite <-E2. by apply A6.
  - intros u Hn Hm. apply A7; [|done]. apply Hkept; [congruence|done|done].
  - intros t Ht. destruct (decide (v = VTStack t)) as [->|Hne].
    + destruct (fd_stack _ _ _ Hf t eq_refl) as [E1 E2]. split; [by apply A7|by apply A5].
    + apply A8. apply (fired_due s s1 v); [done|]. split; [congruence|done].
  - intros n Hn. destruct (decide (v = VTUser n)) as [->|Hne].
    + destruct (fd_user _ _ _ Hf n eq_refl) as [E1 E2]. destruct (rearm n) as [r|] eqn:Er.
      * apply A6; [done|congruence].
      * apply A7; [done|]. intros m [= <-]. by apply Hmine.
    + apply A9. apply (fired_due s s1 v); [done|]. split; [congruence|done].
Qed.

Lemma loop_run n : forall s (Zs : list vtid),
  tick_st idle s -> J (kdata s) -> NoDup Zs -> (length Zs <= n)%nat -> (forall v, v ∈ Zs <-> remaining s v = Some 0) ->
  (forall m f, remaining s (VTUser m) = Some 0 -> vt_func (k_vt s (VTUser m)) = Some (VF_user f) ->
     mine m /\ callback_ok m f (vt_par (k_vt s (VTUser m)))) ->
  itotal (fun _ s' => all_fired s s') (mwhile n vt_expired vt_fire s).
Proof.
  assert (forall s, tick_st idle s -> J (kdata s) -> (forall v, remaining s v <> Some 0) -> all_fired s s) as Hstop.
  { intros s HT HJ Hn. split; auto; intros; by destruct (Hn _ ltac:(eassumption)). }
  assert (forall s, tick_st idle s -> vt_expired s = false -> forall v, remaining s v <> Some 0) as Hexp.
  { intros s HT He v. unfold vt_expired in He. pose proof (i_vt _ _ _ (tk_inv _ _ HT)) as Hwf.
    destruct (k_vtl s) as [|p l] eqn:El; [unfold remaining; by rewrite El|].
    apply Z.eqb_neq in He. by apply (head_due s p l Hwf El). }
  induction n as [|n IH]; intros s Zs HT HJ Hnd Hlen Hz Hcb; cbn [mwhile]; destruct (vt_expired s) eqn:He; try (cbn; eauto);
    pose proof (i_vt _ _ _ (tk_inv _ _ HT)) as Hwf; unfold vt_expired in He; (destruct (k_vtl s) as [|v l] eqn:El; [by rewrite (vtwf_hdr _ Hwf) in He|]);
    apply Z.eqb_eq in He; pose proof (proj2 (Hz v) (proj1 (head_due s v l Hwf El) He)) as Hv.
  - destruct Zs; [set_solver|simpl in Hlen; lia].
  - assert (remaining s v = Some 0) as Hv0 by (by apply Hz).
    eapply ototal_bind; [apply (fire_run s v l HT HJ El He)|].
    { intros m f -> Ef. by apply Hcb. }
    intros [] s1 Hf. apply list_elem_of_split in Hv as (l1 & l2 & ->). pose proof (fun u : vtid => fired_due s s1 v u Hf) as Hd.
    assert (NoDup (v :: l1 ++ l2)) as [Hvn Hnd']%list.NoDup_cons by (by rewrite Permutation_middle).
    eapply ototal_mono; [apply (IH s1 (l1 ++ l2))|].
    + apply Hf.
    + apply Hf.
    + done.
    + rewrite length_app in *. simpl in Hlen. lia.
    + intros u. rewrite Hd, <-Hz. split; [intros Hu; split; [by intros ->|set_solver]|set_solver].
    + intros m f Hm Ef. apply Hd in Hm as [Hne Hm]. destruct (fd_armed _ _ _ Hf _ _ Hne Hm) as (_ & E1 & E2). rewrite E1 in Ef. rewrite E2. by apply Hcb.
    + intros [] s2. apply (all_fired_cons s s1 s2 v Hv0 Hf). intros m Hm.
      destruct (vt_func (k_vt s (VTUser m))) as [f|] eqn:Ef; [|apply (remaining_none _ _ Hwf) in Ef; congruence].
      destruct (tk_user _ _ HT _ _ Ef) as [g ->]. by apply (Hcb m g).
Qed.

(** ** The tick *)

Lemma tick_run s :
  tick_st idle s -> J (kdata s) -> (forall v, remaining s v <> Some 0) ->
  (forall m f, remaining s (VTUser m) = Some 1 -> vt_func (k_vt s (VTUser m)) = Some (VF_user f) ->
     mine m /\ callback_ok m f (vt_par (k_vt s (VTUser m)))) ->
  itotal (fun _ s' => all_fired (ticked s) s') (chVTDoTickI s).
Proof.
  intros HT HJ Hpos Hcb. destruct (ticked_ok idle s HT Hpos) as [HT1 Htk].
  pose proof (i_vt _ _ _ (tk_inv _ _ HT1)) as Hwf.
  assert (forall v r, remaining (ticked s) v = Some r -> remaining s v = Some (r + 1)) as Hr.
  { intros v r. rewrite (proj1 (Htk v)). destruct (remaining s v); [|done]. simpl. intros [= <-]. f_equal. lia. }
  assert (itotal (fun _ s' => all_fired (ticked s) s') (mwhile (length (k_vtl s)) vt_expired vt_fire (ticked s))) as Hrun.
  { apply (loop_run _ _ (filter (fun v => remaining (ticked s) v = Some 0) (k_vtl (ticked s)))); [done|done|..].
    - apply list.NoDup_filter, Hwf.
    - apply length_filter.
    - intros v. rewrite list_elem_of_filter. split; [by intros []|]. intros E. split; [done|].
      destruct (decide (v ∈ k_vtl (ticked s))) as [|Hv]; [done|]. unfold remaining in E. by rewrite vt_remaining_notin in E.
    - intros m f Hm%Hr. rewrite (proj2 (Htk (VTUser m))). intros Ef.
      replace (vt_par (k_vt (ticked s) (VTUser m))) with (vt_par (k_vt s (VTUser m))); [by apply Hcb|].
      simpl. destruct (k_vtl s) as [|p l]; [done|]. simpl. rewrite fn_insert_dec. case_decide; [by subst|done]. }
  rewrite chVTDoTickI_eq. destruct (k_vtl s) as [|p l] eqn:Ek; [|exact Hrun].
  cbn [length mwhile] in Hrun. unfold vt_expired in Hrun. change (k_vtl (ticked s)) with (k_vtl s) in Hrun.
  rewrite Ek, (vtwf_hdr _ Hwf) in Hrun. exact Hrun.
Qed.
End Run.
