(* ===== verification/EvtOK.v ===== *)
(** * Events: correctness

    Signalling, broadcasting, dispatching and the six wait functions of
    [chevents.c]. *)
From S2P Require Import Prelude Monad Types ThdLists VT Sched Sem Mtx.
From S2P Require Import Evt Inv InvPrim InvSched Rules Scenario Wake SemOK.

Implicit Types (s : kstate) (t u tp : tid) (mask flags m : Z) (st : tstate).

(** Writes to the fields of a thread that the invariant does not read. *)
Definition quiet (f : Thread -> Thread) : Prop := forall th,
  p_prio (f th) = p_prio th /\ p_state (f th) = p_state th /\ p_u (f th) = p_u th /\
  p_waiting (f th) = p_waiting th /\ p_mtxlist (f th) = p_mtxlist th /\
  p_realprio (f th) = p_realprio th.

Section Quiet.
Context `{Config}.
Variable idle : tid.

Lemma quiet_upd_inv fl s t f : quiet f -> KInv idle fl s -> KInv idle fl (upd_thd t f s).
Proof.
  intros Hf HI.
  assert (forall u, let th := k_thd (upd_thd t f s) u in let th0 := k_thd s u in
    p_prio th = p_prio th0 /\ p_state th = p_state th0 /\ p_u th = p_u th0 /\
    p_waiting th = p_waiting th0 /\ p_mtxlist th = p_mtxlist th0 /\
    p_realprio th = p_realprio th0) as E.
  { intros u. simpl. rewrite fn_insert_dec. case_decide; subst; [apply Hf|done]. }
  assert (forall u, home (k_thd (upd_thd t f s) u) = home (k_thd s u)) as Eh.
  { intros u. unfold home. destruct (E u) as (_ & -> & -> & _). done. }
  kinv_open HI. split; unfold k_prio in *.
  - intros u q Hu. rewrite Eh. by apply Ipl.
  - intros u Hu. destruct (Ifl u Hu) as (A & B & C & D). split_and!; try done.
    + intros v. destruct (E v) as (_ & _ & _ & -> & _). apply B.
    + by destruct (E u) as (_ & -> & _).
  - intros u q Hu. rewrite Eh. destruct (E u) as (_ & -> & _). by apply Iki.
  - done.
  - simpl k_curr. by destruct (E (k_curr s)) as (_ & -> & _).
  - intros u Hu. destruct (E u) as (_ & -> & _). by apply Icu1.
  - intros q Hq. apply (Lst.psorted_ext (fun u => p_prio (k_thd s u))); [|by apply Iso].
    intros u _. by destruct (E u) as (-> & _).
  - intros u. destruct (E u) as (-> & -> & _). apply Ipr.
  - done.
  - destruct (E idle) as (_ & -> & _). done.
  - intros u. destruct (E u) as (_ & -> & _). apply Ire.
  - done.
  - intros mp u. destruct (E u) as (_ & _ & _ & _ & -> & _). apply Iow.
  - intros u. destruct (E u) as (_ & _ & _ & _ & -> & _). apply Iod.
  - done.
  - destruct Ivt; by split.
  - intros u. destruct (E u) as (_ & -> & _). apply Iti.
  - intros u v. destruct (E v) as (_ & _ & _ & -> & _), (E u) as (_ & -> & _). apply Iwa.
  - intros u v w. destruct (E v) as (_ & _ & _ & -> & _), (E w) as (_ & _ & _ & -> & _). apply Iwa1.
  - intros u. destruct (E u) as (_ & _ & _ & -> & _). apply Iwn.
  - intros u Hu. rewrite Eh. destruct (E u) as (_ & -> & _). by apply Iqd.
  - intros u. destruct (E u) as (_ & -> & _ & _ & _ & ->). apply Irl.
Qed.

Lemma quiet_istep s t f : quiet f -> KInv idle None s -> istep idle s (upd_thd t f s).
Proof.
  intros Hf HI. split; try done; [by apply quiet_upd_inv|..];
    intros u; unfold k_prio; simpl; rewrite fn_insert_dec; case_decide; subst; try done;
    apply Hf.
Qed.
End Quiet.

Ltac quiet := intros ?; by split_and!.

(** ** Event masks *)

Lemma land_mask_range a m : 0 <= m < 2^32 -> 0 <= Z.land a m < 2^32.
Proof.
  intros Hm. assert (0 <= Z.land a m) as H0 by (apply Z.land_nonneg; lia).
  split; [done|]. assert (Z.land a m <= m) as Hle; [|lia].
  apply Z.ldiff_le; [lia|]. apply Z.bits_inj'. intros n Hn.
  rewrite Z.ldiff_spec, Z.land_spec, Z.bits_0. by destruct (Z.testbit a n), (Z.testbit m n).
Qed.

Lemma testbit_high m n : 0 <= m < 2^32 -> 32 <= n -> Z.testbit m n = false.
Proof.
  intros Hm Hn. destruct (decide (m = 0)) as [->|]; [apply Z.bits_0|].
  apply Z.bits_above_log2; [lia|]. apply (Z.lt_le_trans _ 32); [|done].
  apply Z.log2_lt_pow2; lia.
Qed.

Lemma mask_clear_spec a m n : 0 <= m < 2^32 -> 0 <= n < 32 ->
  Z.testbit (mask_clear a m) n = Z.testbit a n && negb (Z.testbit m n).
Proof.
  intros Hm Hn. unfold mask_clear, u32. rewrite Z.land_spec, Z.mod_pow2_bits_low by lia.
  by rewrite Z.lnot_spec by lia.
Qed.

Lemma EVENT_MASK_spec eid n : 0 <= eid < 32 -> 0 <= n ->
  Z.testbit (EVENT_MASK eid) n = (n =? eid).
Proof.
  intros He Hn. unfold EVENT_MASK. rewrite Z.shiftl_mul_pow2, Z.mul_1_l by lia.
  rewrite u32_small; [by rewrite Z.pow2_bits_eqb, Z.eqb_sym by lia|].
  split; [lia|]. apply Z.pow_lt_mono_r; lia.
Qed.

(** [m & -m] is the least significant bit that is set. *)
Lemma lowest_bit_spec m : 0 < m < 2^32 ->
  exists i, 0 <= i < 32 /\ lowest_bit m = 2^i /\ Z.testbit m i = true /\
    forall j, 0 <= j < i -> Z.testbit m j = false.
Proof.
  intros Hm.
  assert (exists i, 0 <= i < 32 /\ Z.testbit m i = true /\
    forall j, 0 <= j < i -> Z.testbit m j = false) as (i & Hi & Hb & Hlow).
  { assert (forall n, (forall j, 0 <= j < Z.of_nat n -> Z.testbit m j = false) \/
      exists i, 0 <= i < Z.of_nat n /\ Z.testbit m i = true /\
        forall j, 0 <= j < i -> Z.testbit m j = false) as Hn.
    { induction n as [|n [IH|(i & Hi & Hb & Hl)]]; [left; lia| |right; exists i; split_and!; try done; lia].
      destruct (Z.testbit m (Z.of_nat n)) eqn:E.
      - right. exists (Z.of_nat n). split_and!; [lia|lia|done|]. done.
      - left. intros j Hj. destruct (decide (j = Z.of_nat n)) as [->|]; [done|]. apply IH. lia. }
    destruct (Hn 32%nat) as [Hz|(i & Hi & Hr)]; [|exists i; by split].
    exfalso. assert (m = 0); [|lia]. apply Z.bits_inj'. intros j Hj. rewrite Z.bits_0.
    destruct (decide (j < 32)); [apply Hz; lia|apply testbit_high; lia]. }
  exists i. split_and!; try done; try lia. unfold lowest_bit.
  apply Z.bits_inj'. intros j Hj. rewrite Z.land_spec, Z.pow2_bits_eqb by lia.
  replace (- m) with (Z.lnot (m - 1)) by (unfold Z.lnot; lia).
  (* m - 1 has the bits below i set, bit i clear and the others as m *)
  assert (m - 1 = Z.lor (Z.shiftl (Z.shiftr m (i + 1)) (i + 1)) (Z.ones i)) as E.
  { assert (m = Z.shiftr m (i + 1) * 2^(i + 1) + 2^i) as Em.
    { rewrite Z.shiftr_div_pow2 by lia.
      rewrite (Z.div_mod m (2^(i+1))) at 1 by lia. rewrite (Z.mul_comm (2^(i+1))). f_equal.
      rewrite <-Z.land_ones by lia. apply Z.bits_inj'. intros k Hk.
      rewrite Z.land_spec, Z.testbit_ones, Z.pow2_bits_eqb by lia.
      destruct (Z.eqb_spec i k) as [<-|]; [rewrite Hb; by replace (i <? i + 1) with true by lia; replace (0 <=? i) with true by lia|].
      destruct (decide (k < i)); [rewrite Hlow by lia; done|].
      replace (k <? i + 1) with false by lia. by rewrite !andb_false_r. }
    set (a := Z.shiftl (Z.shiftr m (i + 1)) (i + 1)).
    assert (Z.land a (Z.ones i) = 0) as El.
    { apply Z.bits_inj'. intros k Hk. rewrite Z.land_spec, Z.bits_0, Z.testbit_ones by lia.
      destruct (Z.ltb_spec k i); [|by rewrite !andb_false_r].
      unfold a. by rewrite Z.shiftl_spec_low by lia. }
    pose proof (Z.add_lor_land a (Z.ones i)) as Ea. rewrite El, Z.ones_equiv in Ea.
    rewrite Z.ones_equiv. unfold a in *. rewrite Z.shiftl_mul_pow2 in * by lia. lia. }
  unfold u32. destruct (decide (j < 32)).
  - rewrite Z.mod_pow2_bits_low, Z.lnot_spec by lia. rewrite E, Z.lor_spec, Z.testbit_ones by lia.
    destruct (Z.eqb_spec i j) as [<-|Hne].
    + rewrite Hb, Z.shiftl_spec_low by lia. replace (i <? i) with false by lia. by rewrite andb_false_r.
    + destruct (decide (j < i)); [rewrite Hlow by lia; done|].
      rewrite Z.shiftl_spec, Z.shiftr_spec by lia. replace (j - (i+1) + (i+1)) with j by lia.
      replace (j <? i) with false by lia. rewrite andb_false_r, orb_false_r. by destruct (Z.testbit m j).
  - rewrite (testbit_high m) by lia. replace (i =? j) with false by lia. done.
Qed.

Section Signal.
Context `{Config}.
Variable idle : tid.
Local Abbreviation KI := (KInv idle).

Definition pend tp mask s : kstate :=
  upd_thd tp (fun th => set_p_epending (Z.lor (p_epending th) mask) th) s.

(** The state after a signal: the events are pending and the thread is ready
    if they satisfy the condition it waits for. *)
Definition signalled tp mask s : kstate :=
  if evt_ready (k_thd (pend tp mask s) tp)
  then upd_thd tp (set_p_u (U_msg RDY_OK)) (ready_st tp (pend tp mask s))
  else pend tp mask s.

Lemma evt_ready_state th : evt_ready th = true ->
  p_state th = THD_STATE_WTOREVT \/ p_state th = THD_STATE_WTANDEVT.
Proof. unfold evt_ready. destruct (p_state th); by auto. Qed.

Lemma evt_float s tp : KI None s -> evt_ready (k_thd s tp) = true -> KI (Some tp) s.
Proof.
  intros HI Hr. apply evt_ready_state in Hr. apply float_intro; try done.
  - unfold home. by destruct Hr as [-> | ->].
  - intros ->. rewrite (i_cur _ _ _ HI) in Hr. by destruct Hr.
  - by destruct Hr as [-> | ->].
  - intros u. apply (inv_not_waiting idle); [done|]. by destruct Hr as [-> | ->].
Qed.

Lemma chEvtSignalI_eq s tp mask :
  locked_I s -> KI None s -> tp <> 0 ->
  chEvtSignalI tp mask s = Done tt (signalled tp mask s) /\
  istep idle s (signalled tp mask s).
Proof.
  intros HL HI Htp. unfold chEvtSignalI. rewrite classI_bind by done.
  rewrite check_bind by (by rewrite (proj2 (Z.eqb_neq _ _))).
  unfold bind, set_thd, thd, modify, gets. cbn [obind].
  fold (pend tp mask s). unfold signalled.
  assert (istep idle s (pend tp mask s)) as Hi by (apply quiet_istep; [quiet|done]).
  destruct (evt_ready _) eqn:Hr; [|done].
  pose proof (evt_float _ _ (is_inv _ _ _ Hi) Hr) as HF.
  rewrite (ready_with_eq idle); [|done|done|].
  - split; [done|]. eapply istep_trans; [exact Hi|].
    eapply keq_istep; [symmetry; apply wake_st_keq|done..|].
    split; try done; [by apply wake_st_inv|..]; intros u; unfold k_prio;
      rewrite wake_st_thd; by case_decide.
  - intros _ E. apply evt_ready_state in Hr. rewrite E in Hr. by destruct Hr.
Qed.

Lemma signalled_thd tp mask s u :
  k_thd (signalled tp mask s) u =
    if decide (tp = u) then
      let th := set_p_epending (Z.lor (p_epending (k_thd s u)) mask) (k_thd s u) in
      if evt_ready th then set_p_u (U_msg RDY_OK) (set_p_state THD_STATE_READY th) else th
    else k_thd s u.
Proof.
  unfold signalled. assert (k_thd (pend tp mask s) tp =
    set_p_epending (Z.lor (p_epending (k_thd s tp)) mask) (k_thd s tp)) as E
    by (simpl; by rewrite fn_insert_eq).
  rewrite E. destruct (decide (tp = u)) as [<-|Hne]; cbn zeta.
  - destruct (evt_ready _); simpl; by rewrite ?fn_insert_eq.
  - destruct (evt_ready _); simpl; by rewrite ?fn_insert_ne.
Qed.

(** ** Broadcast *)

(** The pending events of [t] after the listeners in [l] have been served. *)
Fixpoint heard s (l : list Z) t (e : Z) : Z :=
  match l with
  | [] => e
  | elp :: l =>
      heard s l t (if decide (el_listener (k_el s elp) = t)
                   then Z.lor e (el_mask (k_el s elp)) else e)
  end.

Lemma heard_ext s s' l t e :
  (forall elp, el_listener (k_el s' elp) = el_listener (k_el s elp) /\
               el_mask (k_el s' elp) = el_mask (k_el s elp)) ->
  heard s' l t e = heard s l t e.
Proof.
  intros E. revert e. induction l as [|elp l IH]; intros e; [done|]. simpl.
  destruct (E elp) as [-> ->]. apply IH.
Qed.

Lemma set_k_el_inv fl s f : KI fl (set_k_el f s) <-> KI fl s.
Proof. split; intros HI; kinv_open HI; split; kinv_same. Qed.

Lemma set_k_el_istep s s' f : istep idle s s' -> istep idle (set_k_el f s) (set_k_el f s').
Proof.
  intros []. split; try done; [by apply set_k_el_inv|].
  unfold kdata in *. simpl. congruence.
Qed.

Lemma set_el_set_el f g s : set_k_el f (set_k_el g s) = set_k_el f s.
Proof. done. Qed.
Lemma set_k_el_id s : set_k_el (k_el s) s = s.
Proof. by destruct s. Qed.

Lemma broadcast_loop_eq l : forall s flags,
  locked_I s -> KI None s -> NoDup l ->
  (forall elp, elp ∈ l -> el_listener (k_el s elp) <> 0) ->
  exists s', broadcast_loop l flags s = Done tt s' /\
    istep idle s (set_k_el (k_el s) s') /\
    (forall elp, k_el s' elp = if decide (elp ∈ l)
       then set_el_flags (Z.lor (el_flags (k_el s elp)) flags) (k_el s elp) else k_el s elp) /\
    (forall u, p_epending (k_thd s' u) = heard s l u (p_epending (k_thd s u))) /\
    (forall u, p_state (k_thd s' u) = p_state (k_thd s u) \/
       p_state (k_thd s' u) = THD_STATE_READY).
Proof.
  induction l as [|elp l IH]; intros s flags HL HI Hnd Hl; cbn [broadcast_loop].
  { exists s. rewrite set_k_el_id. split_and!; auto. by apply istep_refl. }
  apply list.NoDup_cons in Hnd as [Hnin Hnd].
  unfold bind at 1. cbn [modify obind]. unfold bind at 1, gets. cbn [obind].
  set (s1 := upd_el _ _ s).
  assert (KI None s1) as HI1 by (by apply set_k_el_inv).
  assert (forall e, el_listener (k_el s1 e) = el_listener (k_el s e) /\
                    el_mask (k_el s1 e) = el_mask (k_el s e)) as E1.
  { intros e. simpl. rewrite fn_insert_dec. by case_decide; subst. }
  set (tp := el_listener (k_el s1 elp)). set (mk := el_mask (k_el s1 elp)).
  destruct (chEvtSignalI_eq s1 tp mk) as [E Hi]; [done|done| |].
  { unfold tp. rewrite (proj1 (E1 elp)). apply Hl. set_solver. }
  rewrite (done_bind _ _ _ _ _ E).
  assert (k_el (signalled tp mk s1) = k_el s1) as Eel.
  { unfold signalled. by destruct (evt_ready _). }
  destruct (IH (signalled tp mk s1) flags) as (s' & E' & Hi' & He' & Hp' & Hs').
  - by apply (istep_locked idle s1).
  - apply Hi.
  - done.
  - intros e He. rewrite Eel, (proj1 (E1 e)). apply Hl. set_solver.
  - exists s'. split_and!; [done| | | |].
    + apply (istep_trans idle _ (set_k_el (k_el s) (signalled tp mk s1))).
      * apply (set_k_el_istep _ _ (k_el s)) in Hi. by destruct s.
      * apply (set_k_el_istep _ _ (k_el s)) in Hi'. exact Hi'.
    + intros e. rewrite He', Eel. simpl. rewrite fn_insert_dec.
      destruct (decide (elp = e)) as [<-|Hne].
      * rewrite decide_False by done. by rewrite decide_True by set_solver.
      * repeat case_decide; set_solver.
    + intros u. rewrite Hp'.
      rewrite (heard_ext s) by (intros e; rewrite Eel; apply E1).
      cbn [heard]. f_equal. rewrite signalled_thd. unfold tp, mk.
      destruct (E1 elp) as [-> ->]. case_decide; [|done]. cbn zeta. by destruct (evt_ready _).
    + intros u. destruct (Hs' u) as [Eu|Eu]; [|by right]. rewrite Eu, signalled_thd.
      case_decide; [|by left]. cbn zeta. destruct (evt_ready _); [by right|by left].
Qed.
End Signal.

(** ** The API functions *)

Section Api.
Context `{Config}.
Variable idle : tid.
Variable J : kdata_t -> Prop.
Local Abbreviation KI := (KInv idle).
Local Abbreviation safe t := (osafe (grd idle J) (rely idle J t)).

Lemma chEvtSignal_safe t ml tp mask s :
  Ust idle J t ml s -> tp <> 0 ->
  safe t (fun _ s' => Ust idle J t ml s') (chEvtSignal tp mask s).
Proof.
  intros HU Htp. destruct (lock_KI idle J _ _ _ HU) as [HL HI].
  unfold chEvtSignal. rewrite check_bind by (by rewrite (proj2 (Z.eqb_neq _ _))).
  apply istep_api; [done|].
  destruct (chEvtSignalI_eq idle (with_lock 1 s) tp mask HL HI Htp) as [E Hi]. eauto.
Qed.

Lemma quiet_Sst t ml s u f :
  quiet f -> Sst idle J t ml s -> Sst idle J t ml (upd_thd u f s).
Proof.
  intros Hf [HM Hhp]. pose proof HM as (HI & _).
  pose proof (quiet_istep idle s u f Hf HI) as Hi. split; [by eapply istep_Mst|].
  unfold HP, firstprio, currprio. simpl k_q. simpl k_curr. simpl k_rprio.
  destruct (k_q s QReady) as [|v l] eqn:Eq; unfold HP, firstprio in Hhp; rewrite Eq in Hhp;
    rewrite ?(is_prio _ _ _ Hi); done.
Qed.

(** Ending a wait: the events taken are no longer pending. *)
Lemma evt_finish t ml s m (r : Z) (Q : Z -> kstate -> Prop) :
  Sst idle J t ml s -> (forall s', Ust idle J t ml s' -> Q r s') ->
  safe t Q ((evt_take t m ;;; chSysUnlock ;;; mret' r) s).
Proof.
  intros HS HQ. unfold bind at 1, evt_take, set_thd, modify. cbn [obind].
  apply (unlock_bind idle J t ml); [|by apply HQ]. apply quiet_Sst; [quiet|done].
Qed.

Lemma evt_sleeper st mask s :
  KI None s -> UB s -> k_curr s <> idle ->
  st = THD_STATE_WTOREVT \/ st = THD_STATE_WTANDEVT ->
  sleeper idle st (fun s => upd_thd (k_curr s) (set_p_u (U_ewmask mask)) s) s.
Proof.
  intros HI HU Hid Hst. apply sleeper_none; try done; by destruct Hst as [-> | ->].
Qed.

(** What [chEvtWaitOne()] and [chEvtWaitAny()] wait for: some of the events. *)
Lemma evt_wait_or_safe t ml mask s (Q : Z -> kstate -> Prop) :
  Sst idle J t ml s -> t <> idle -> 0 <= mask < 2^32 ->
  (forall m s', Sst idle J t ml s' -> m <> 0 ->
     m = Z.land (p_epending (k_thd s' t)) mask -> Q m s') ->
  safe t Q (evt_wait_or t mask s).
Proof.
  intros [HM Hhp] Hid Hmask HQ. pose proof HM as (HI & [_ HU] & Hc & HL & _).
  unfold evt_wait_or. unfold bind at 1, thd, gets. cbn [obind].
  destruct (Z.eqb_spec (Z.land (p_epending (k_thd s t)) mask) 0) as [Hz|Hz].
  - unfold bind at 1, set_thd, modify. cbn [obind]. apply osafe_bind. rewrite <-Hc.
    apply (chSchGoSleepS_rule idle J (k_curr s) ml _
      (fun s => upd_thd (k_curr s) (set_p_u (U_ewmask mask)) s));
      [by rewrite Hc; apply Mst_weak|by rewrite Hc|apply evt_sleeper; try done; [congruence|by left]|].
    intros s' HS Hw. rewrite gain_other in HS by done. rewrite Hc in *.
    simpl in Hw. rewrite fn_insert_eq in Hw. simpl in Hw. simpl. by apply HQ.
  - by apply HQ.
Qed.

Lemma chEvtWaitAny_safe t ml mask s :
  Ust idle J t ml s -> t <> idle -> 0 <= mask < 2^32 ->
  safe t (fun m s' => Ust idle J t ml s' /\ m <> 0 /\ Z.land m mask = m) (chEvtWaitAny mask s).
Proof.
  intros HU Hid Hmask. unfold chEvtWaitAny. unfold bind at 1, currp, gets. cbn [obind].
  pose proof HU as (_ & _ & _ & -> & _).
  apply (lock_bind idle J t ml); [done|]. intros HS. apply osafe_bind.
  apply (evt_wait_or_safe t ml); [done..|]. intros m s' HS' Hm E.
  apply (evt_finish t ml); [done|]. intros s2 HU2. split_and!; [done..|].
  by rewrite E, <-Z.land_assoc, Z.land_diag.
Qed.

Lemma chEvtWaitOne_safe t ml mask s :
  Ust idle J t ml s -> t <> idle -> 0 <= mask < 2^32 ->
  safe t (fun m s' => Ust idle J t ml s' /\
    exists i, 0 <= i < 32 /\ m = 2^i /\ Z.testbit mask i = true) (chEvtWaitOne mask s).
Proof.
  intros HU Hid Hmask. unfold chEvtWaitOne. unfold bind at 1, currp, gets. cbn [obind].
  pose proof HU as (_ & _ & _ & -> & _).
  apply (lock_bind idle J t ml); [done|]. intros HS. apply osafe_bind.
  apply (evt_wait_or_safe t ml); [done..|]. intros m s' HS' Hm E.
  apply (evt_finish t ml); [done|]. intros s2 HU2. split; [done|].
  pose proof (land_mask_range (p_epending (k_thd s' t)) mask Hmask) as Hr.
  destruct (lowest_bit_spec m) as (i & Hi & El & Hb & _); [lia|]. exists i. split_and!; try done; try lia.
  rewrite E, Z.land_spec in Hb. apply andb_true_iff in Hb. tauto.
Qed.

Lemma chEvtWaitAll_safe t ml mask s :
  Ust idle J t ml s -> t <> idle -> 0 <= mask < 2^32 ->
  safe t (fun m s' => Ust idle J t ml s' /\ m = mask) (chEvtWaitAll mask s).
Proof.
  intros HU Hid Hmask. unfold chEvtWaitAll. unfold bind at 1, currp, gets. cbn [obind].
  pose proof HU as (_ & _ & _ & -> & _).
  apply (lock_bind idle J t ml); [done|]. intros HS.
  revert HS. generalize (with_lock 1 s). clear s HU. intros s HS.
  pose proof HS as [HM Hhp]. pose proof HM as (HI & [_ HU] & Hc & HL & _).
  unfold bind at 1, thd, gets. cbn [obind]. apply osafe_bind.
  apply (osafe_mono _ _ (fun _ => Sst idle J t ml)).
  { intros _ s' HS'. by apply (evt_finish t ml). }
  destruct (negb _); [|done].
  unfold bind at 1, set_thd, modify. cbn [obind]. rewrite <-Hc.
  apply (chSchGoSleepS_rule idle J (k_curr s) ml _
    (fun s => upd_thd (k_curr s) (set_p_u (U_ewmask mask)) s));
    [by rewrite Hc; apply Mst_weak|by rewrite Hc|apply evt_sleeper; try done; [congruence|by right]|].
  intros s' HS' _. by rewrite gain_other in HS'.
Qed.

(** *** With a timeout *)

Lemma evt_sleep_safe t ml st mask time s (Q : bool -> kstate -> Prop) :
  Sst idle J t ml s -> t <> idle -> 0 <= time < 2^32 ->
  st = THD_STATE_WTOREVT \/ st = THD_STATE_WTANDEVT ->
  (forall b s', Sst idle J t ml s' -> (b = true -> woken st (U_ewmask mask) t s') -> Q b s') ->
  safe t Q (evt_sleep t st mask time s).
Proof.
  intros [HM Hhp] Hid Htime Hst HQ. pose proof HM as (HI & [_ HU] & Hc & HL & _).
  unfold evt_sleep. destruct (Z.eqb_spec TIME_IMMEDIATE time) as [Ht|Ht]; [by apply HQ|].
  unfold TIME_IMMEDIATE in Ht. unfold bind at 1, set_thd, modify. cbn [obind].
  apply osafe_bind. rewrite <-Hc.
  apply (chSchGoSleepTimeoutS_rule idle J (k_curr s) ml _
    (fun s => upd_thd (k_curr s) (set_p_u (U_ewmask mask)) s)); rewrite ?Hc.
  - by apply Mst_weak.
  - done.
  - apply evt_sleeper; try done. congruence.
  - by destruct Hst as [-> | ->].
  - lia.
  - intros s' HS' Hw. apply HQ; [done|]. simpl in Hw. rewrite fn_insert_eq in Hw. intros Hb. apply Hw. apply negb_true_iff, Z.ltb_ge in Hb. done.
Qed.

(** [None] when the wait has timed out. *)
Lemma evt_wait_or_timeout_safe t ml mask time s (Q : option Z -> kstate -> Prop) :
  Sst idle J t ml s -> t <> idle -> 0 <= mask < 2^32 -> 0 <= time < 2^32 ->
  (forall m s', Sst idle J t ml s' -> m <> 0 ->
     m = Z.land (p_epending (k_thd s' t)) mask -> Q (Some m) s') ->
  (forall s', Sst idle J t ml s' -> Q None s') ->
  safe t Q (evt_wait_or_timeout t mask time s).
Proof.
  intros HS Hid Hmask Htime HQ HN. unfold evt_wait_or_timeout.
  unfold bind at 1, thd, gets. cbn [obind].
  destruct (Z.eqb_spec (Z.land (p_epending (k_thd s t)) mask) 0) as [Hz|Hz]; [|by apply HQ].
  apply osafe_bind. apply (evt_sleep_safe t ml); [done..|by left|].
  intros [] s' HS' Hw; [|by apply HN]. simpl. apply HQ; [done| |done]. by apply Hw.
Qed.

Lemma chEvtWaitAnyTimeout_safe t ml mask time s :
  Ust idle J t ml s -> t <> idle -> 0 <= mask < 2^32 -> 0 <= time < 2^32 ->
  safe t (fun m s' => Ust idle J t ml s' /\ Z.land m mask = m) (chEvtWaitAnyTimeout mask time s).
Proof.
  intros HU Hid Hmask Htime. unfold chEvtWaitAnyTimeout. unfold bind at 1, currp, gets. cbn [obind].
  pose proof HU as (_ & _ & _ & -> & _).
  apply (lock_bind idle J t ml); [done|]. intros HS. apply osafe_bind.
  apply (evt_wait_or_timeout_safe t ml); [done..| |].
  - intros m s' HS' Hm E. apply (evt_finish t ml); [done|]. intros s2 HU2. split; [done|].
    by rewrite E, <-Z.land_assoc, Z.land_diag.
  - intros s' HS'. by apply (unlock_bind idle J t ml).
Qed.

Lemma chEvtWaitOneTimeout_safe t ml mask time s :
  Ust idle J t ml s -> t <> idle -> 0 <= mask < 2^32 -> 0 <= time < 2^32 ->
  safe t (fun m s' => Ust idle J t ml s' /\ (m = 0 \/
    exists i, 0 <= i < 32 /\ m = 2^i /\ Z.testbit mask i = true)) (chEvtWaitOneTimeout mask time s).
Proof.
  intros HU Hid Hmask Htime. unfold chEvtWaitOneTimeout. unfold bind at 1, currp, gets. cbn [obind].
  pose proof HU as (_ & _ & _ & -> & _).
  apply (lock_bind idle J t ml); [done|]. intros HS. apply osafe_bind.
  apply (evt_wait_or_timeout_safe t ml); [done..| |].
  - intros m s' HS' Hm E. apply (evt_finish t ml); [done|]. intros s2 HU2. split; [done|]. right.
    pose proof (land_mask_range (p_epending (k_thd s' t)) mask Hmask) as Hr.
    destruct (lowest_bit_spec m) as (i & Hi & El & Hb & _); [lia|]. exists i. split_and!; try done; try lia.
    rewrite E, Z.land_spec in Hb. apply andb_true_iff in Hb. tauto.
  - intros s' HS'. apply (unlock_bind idle J t ml); [done|]. intros s2 HU2. split; [done|by left].
Qed.

Lemma chEvtWaitAllTimeout_safe t ml mask time s :
  Ust idle J t ml s -> t <> idle -> 0 <= mask < 2^32 -> 0 <= time < 2^32 ->
  safe t (fun m s' => Ust idle J t ml s' /\ (m = 0 \/ m = mask)) (chEvtWaitAllTimeout mask time s).
Proof.
  intros HU Hid Hmask Htime. unfold chEvtWaitAllTimeout. unfold bind at 1, currp, gets. cbn [obind].
  pose proof HU as (_ & _ & _ & -> & _).
  apply (lock_bind idle J t ml); [done|]. intros HS.
  unfold bind at 1, thd, gets. cbn [obind]. apply osafe_bind.
  apply (osafe_mono _ _ (fun _ => Sst idle J t ml)).
  { intros [] s' HS'.
    - apply (evt_finish t ml); [done|]. intros s2 HU2. auto.
    - apply (unlock_bind idle J t ml); [done|]. intros s2 HU2. split; [done|by left]. }
  destruct (negb _); [|done]. apply (evt_sleep_safe t ml); try done. by right.
Qed.
End Api.

(** ** Dispatching *)

Section Dispatch.
Context `{Config, App}.

(** The events of a mask, in increasing order. *)
Definition event_ids (n : nat) (eid mask : Z) : list Z :=
  filter (fun i => Z.testbit mask i = true) (seqZ eid (Z.of_nat n)).

(** One handler after the other. *)
Fixpoint run_handlers (handlers : list (option Z)) (ids : list Z) : KM unit :=
  match ids with
  | [] => mret' tt
  | i :: ids =>
      match handlers !! Z.to_nat i with
      | Some (Some fn) => user_evhandler fn i ;;; run_handlers handlers ids
      | _ => fault "handlers"
      end
  end.

Lemma event_ids_ext n eid m m' :
  (forall i, eid <= i -> Z.testbit m i = Z.testbit m' i) ->
  event_ids n eid m = event_ids n eid m'.
Proof.
  intros E. unfold event_ids.
  assert (forall i, i ∈ seqZ eid (Z.of_nat n) -> Z.testbit m i = Z.testbit m' i) as El.
  { intros i Hi. apply elem_of_seqZ in Hi. apply E. lia. }
  induction (seqZ eid (Z.of_nat n)) as [|i l IH]; [done|].
  rewrite !filter_cons, (El i), IH by set_solver. done.
Qed.

Lemma event_bit mask eid : 0 <= eid < 32 ->
  negb (Z.land mask (EVENT_MASK eid) =? 0) = Z.testbit mask eid.
Proof.
  intros He. assert (Z.testbit (Z.land mask (EVENT_MASK eid)) eid = Z.testbit mask eid) as E.
  { rewrite Z.land_spec, EVENT_MASK_spec, Z.eqb_refl, andb_true_r by lia. done. }
  destruct (Z.eqb_spec (Z.land mask (EVENT_MASK eid)) 0) as [Hz|Hz]; simpl.
  - by rewrite Hz, Z.bits_0 in E.
  - destruct (Z.testbit mask eid) eqn:Hb; [done|]. destruct Hz. apply Z.bits_inj'.
    intros j Hj. rewrite Z.land_spec, EVENT_MASK_spec, Z.bits_0 by lia.
    destruct (Z.eqb_spec j eid) as [->|]; [by rewrite Hb|by rewrite andb_false_r].
Qed.

Lemma dispatch_loop_eq handlers : forall n eid mask s,
  0 <= eid -> eid + Z.of_nat n = 32 -> 0 <= mask < 2^32 ->
  (forall i, 0 <= i < eid -> Z.testbit mask i = false) ->
  (forall i, Z.testbit mask i = true -> exists fn, handlers !! Z.to_nat i = Some (Some fn)) ->
  oeq (dispatch_loop n handlers eid mask s)
      (run_handlers handlers (event_ids n eid mask) s).
Proof.
  assert (forall n eid, event_ids n eid 0 = []) as Hnil.
  { intros n eid. unfold event_ids. generalize (seqZ eid (Z.of_nat n)).
    intros l. induction l as [|i l IH]; [done|]. rewrite filter_cons_False; [done|].
    by rewrite Z.bits_0. }
  induction n as [|n IH]; intros eid mask s He Hn Hm Hlow Hh; cbn [dispatch_loop].
  - assert (mask = 0) as ->; [|by rewrite Z.eqb_refl, Hnil].
    apply Z.bits_inj'. intros j Hj. rewrite Z.bits_0. destruct (decide (j < 32)).
    + apply Hlow. lia.
    + apply testbit_high; lia.
  - destruct (Z.eqb_spec mask 0) as [->|Hz]; [by rewrite Hnil|].
    rewrite event_bit by lia. unfold event_ids. rewrite Nat2Z.inj_succ, seqZ_cons by lia.
    rewrite Z.pred_succ. destruct (Z.testbit mask eid) eqn:Hb.
    + rewrite filter_cons_True by done. cbn [run_handlers].
      destruct (Hh eid Hb) as [fn Hfn]. rewrite Hfn.
      unfold chDbgAssert. rewrite bool_decide_eq_true_2 by done. rewrite andb_false_r.
      unfold bind at 1. cbn [obind mret']. unfold bind. apply obind_proper; [done|].
      intros [] s'. rewrite IH.
      * rewrite (event_ids_ext n (eid + 1) _ mask); [by rewrite <-Z.add_1_r|].
        intros i Hi. destruct (decide (i < 32)).
        -- rewrite mask_clear_spec, EVENT_MASK_spec by
             (try lia; unfold EVENT_MASK; apply u32_range).
           replace (i =? eid) with false by lia. by rewrite andb_true_r.
        -- rewrite (testbit_high mask) by lia. unfold mask_clear.
           by rewrite Z.land_spec, (testbit_high mask) by lia.
      * lia.
      * lia.
      * unfold mask_clear. apply (land_mask_range _ (u32 (Z.lnot (EVENT_MASK eid)))). apply u32_range.
      * intros i Hi. rewrite mask_clear_spec, EVENT_MASK_spec by
          (try lia; unfold EVENT_MASK; apply u32_range).
        destruct (Z.eqb_spec i eid); [by rewrite andb_false_r|]. rewrite Hlow by lia. done.
      * intros i Hi. apply Hh. unfold mask_clear in Hi. rewrite Z.land_spec in Hi.
        apply andb_true_iff in Hi. tauto.
    + rewrite filter_cons_False by congruence. rewrite <-Z.add_1_r. apply IH; try done; try lia.
      intros i Hi. destruct (decide (i = eid)) as [->|]; [done|]. apply Hlow. lia.
Qed.
End Dispatch.
