(* ===== verification/MsgOK.v ===== *)
(** * Synchronous messages: correctness *)
From S2P Require Import Prelude Monad Types ThdLists VT Sched Sem Mtx.
From S2P Require Import Evt Inv InvPrim InvSched Rules Scenario Wake SemOK.
From S2P Require Import EvtOK.

Implicit Types (s a : kstate) (t u tp : tid) (msg : Z) (st : tstate).

Section MsgOK.
Context `{Config}.
Variable idle : tid.
Variable J : kdata_t -> Prop.
Local Abbreviation KI := (KInv idle).
Local Abbreviation safe t := (osafe (grd idle J) (rely idle J t)).

(** A state [a] that agrees with [g s] is as good to sleep in. *)
Definition retime a s : kstate := set_k_vtl (k_vtl s) (set_k_vt (k_vt s) a).

Lemma sleeper_keq st g s a :
  sleeper idle st g s -> keq a (g s) -> kdata a = kdata (g s) -> k_vt a = k_vt (g s) ->
  sleeper idle st (retime a) s.
Proof.
  intros [Sinv Scomm Sfr Sm Su Sf] E Ed Ev.
  destruct Sfr as (G1 & G2 & G3 & G4 & G5 & G6 & G7 & G8 & G9 & G10). split.
  - intros s0 Hv HI0 Ht n l Hq.
    assert (keq (sleep_st st n l (retime a s0)) (sleep_st st n l (g s0))) as ->; [|by apply Sinv].
    apply keq_sleep_st. unfold retime.
    assert (g s0 = set_k_vtl (k_vtl s0) (set_k_vt (k_vt s0) (g s))) as ->.
    { destruct Hv as [->|(L & V & ->)]; [|apply Scomm].
      rewrite <-Scomm. f_equal. by destruct s. }
    destruct E. by split.
  - done.
  - unfold retime. destruct E. unfold kdata in *. simpl. split_and!; try congruence.
    intros u. unfold k_prio in *. simpl. rewrite keq_thd. apply G4.
  - simpl. rewrite (keq_thd _ _ E). done.
  - revert Su. apply same_prio_UB. destruct E. split; intros; unfold k_prio; simpl; congruence.
  - done.
Qed.

(** ** Sending *)

(** The state in which the sender goes to sleep. *)
Definition sent tp msg (L : list tid) s : kstate :=
  let t := k_curr s in
  let a := upd_q (QMsg tp) L (upd_thd t (set_p_u (U_wtobjp (QMsg tp))) (upd_thd t (set_p_msg msg) s)) in
  if bool_decide (p_state (k_thd a tp) = THD_STATE_WTMSG) then ready_st tp a else a.

(** The same with the server made ready first. *)
Definition server_up tp msg s : kstate :=
  let s1 := upd_thd (k_curr s) (set_p_msg msg) s in
  if bool_decide (p_state (k_thd s tp) = THD_STATE_WTMSG) then ready_st tp s1 else s1.

Lemma msg_insert_eq s t q :
  exists L, msg_insert t q s = Done tt (upd_q q L s) /\ L ≡ₚ t :: k_q s q /\
    (CH_USE_MESSAGES_PRIORITY = true ->
       Lst.psorted (k_prio s) (k_q s q) -> Lst.psorted (k_prio s) L) /\
    (CH_USE_MESSAGES_PRIORITY = false -> L = k_q s q ++ [t]).
Proof.
  unfold msg_insert. destruct CH_USE_MESSAGES_PRIORITY; eexists; (split; [reflexivity|]).
  - split_and!; [apply Lst.prio_ins_perm| |done]. intros _. apply Lst.prio_ins_sorted.
  - split_and!; [|done..]. rewrite (Permutation_app_comm _ [t]). done.
Qed.

Lemma wtmsg_float s tp : KI None s -> p_state (k_thd s tp) = THD_STATE_WTMSG -> KI (Some tp) s.
Proof.
  intros HI Hs. apply float_intro; try done.
  - unfold home. by rewrite Hs.
  - intros ->. by rewrite (i_cur _ _ _ HI) in Hs.
  - by rewrite Hs.
  - intros u. apply (inv_not_waiting idle); [done|]. by rewrite Hs.
Qed.

Lemma server_up_istep tp msg s : KI None s -> istep idle s (server_up tp msg s).
Proof.
  intros HI. unfold server_up.
  assert (istep idle s (upd_thd (k_curr s) (set_p_msg msg) s)) as Hi
    by (apply quiet_istep; [quiet|done]).
  case_bool_decide as Hw; [|done]. eapply istep_trans; [exact Hi|].
  assert (p_state (k_thd (upd_thd (k_curr s) (set_p_msg msg) s) tp) = THD_STATE_WTMSG) as Hw'.
  { simpl. rewrite fn_insert_dec. case_decide; by subst. }
  pose proof (wtmsg_float _ _ (is_inv _ _ _ Hi) Hw') as HF.
  split; try done; [by apply ready_st_inv|..];
    intros u; unfold k_prio, ready_st; simpl; rewrite ?fn_insert_dec; repeat case_decide; by subst.
Qed.

Lemma sent_keq tp msg L s :
  KI None s ->
  keq (sent tp msg L s) (enq (QMsg tp) L (server_up tp msg s)).
Proof.
  intros HI. unfold sent, server_up.
  assert (p_state (k_thd (upd_q (QMsg tp) L (upd_thd (k_curr s) (set_p_u (U_wtobjp (QMsg tp)))
    (upd_thd (k_curr s) (set_p_msg msg) s))) tp) = p_state (k_thd s tp)) as ->.
  { simpl. rewrite !fn_insert_dec. repeat case_decide; by subst. }
  case_bool_decide as Hw; [|done].
  assert (tp <> k_curr s) as Hne by (intros ->; by rewrite (i_cur _ _ _ HI) in Hw).
  split; try done; intros x; simpl; rewrite !fn_insert_dec; repeat case_decide; subst; try done.
  apply Lst.prio_ins_ext; try done; intros v; unfold k_prio; simpl; rewrite ?fn_insert_dec;
    repeat case_decide; by subst.
Qed.

Lemma sent_rest tp msg L s :
  kdata (sent tp msg L s) = kdata s /\ k_vt (sent tp msg L s) = k_vt s /\
  k_vtl (sent tp msg L s) = k_vtl s.
Proof. unfold sent. by case_bool_decide. Qed.

(** [chMsgSend()] up to the call that puts the sender to sleep. *)
Lemma chMsgSend_enter t ml tp msg s :
  Sst idle J t ml s -> t <> idle ->
  exists L, L ≡ₚ t :: k_q s (QMsg tp) /\
    (CH_USE_MESSAGES_PRIORITY = false -> L = k_q s (QMsg tp) ++ [t]) /\
    Mst idle J t ml (server_up tp msg s) /\
    sleeper idle THD_STATE_SNDMSGQ (retime (sent tp msg L s)) (server_up tp msg s) /\
    forall A (k : KM A),
    (set_thd t (set_p_msg msg) ;;; set_thd t (set_p_u (U_wtobjp (QMsg tp))) ;;;
     msg_insert t (QMsg tp) ;;;
     let! th := thd tp in
     (whenb bool_decide (p_state th = THD_STATE_WTMSG) then
       chSchReadyI tp ;;; mret' tt) ;;; k) s = k (sent tp msg L s).
Proof.
  intros [HM Hhp] Hid. pose proof HM as (HI & [_ Hub] & Hc & HL & _).
  pose proof (server_up_istep tp msg s HI) as Hi.
  set (s2 := upd_thd t (set_p_u (U_wtobjp (QMsg tp))) (upd_thd t (set_p_msg msg) s)).
  assert (forall u, k_prio s2 u = k_prio s u) as Ep.
  { intros u. unfold k_prio, s2. simpl. rewrite !fn_insert_dec. repeat case_decide; by subst. }
  destruct (msg_insert_eq s2 t (QMsg tp)) as (L & E & HLp & Hso & Hf).
  exists L. split; [exact HLp|]. split; [exact Hf|].
  assert (Mst idle J t ml (server_up tp msg s)) as HM' by (by eapply istep_Mst).
  split; [done|].
  assert (k_q (server_up tp msg s) (QMsg tp) = k_q s (QMsg tp)) as Eq
    by (unfold server_up; by case_bool_decide).
  split.
  - destruct (sent_rest tp msg L s) as (R1 & R2 & R3).
    apply (sleeper_keq _ (enq (QMsg tp) L)).
    + apply sleeper_queue; try done.
      * rewrite (is_curr _ _ _ Hi). congruence.
      * rewrite (is_curr _ _ _ Hi), Hc, Eq. done.
      * intros Hp. apply (Lst.psorted_ext (k_prio s2)).
        { intros u _. by rewrite Ep, (is_prio _ _ _ Hi). }
        apply Hso; [done|]. apply (Lst.psorted_ext (k_prio s)); [by intros u _; rewrite Ep|].
        by apply (i_sorted _ _ _ HI (QMsg tp)).
      * apply Hi.
      * apply enq_UB; [done|]. by apply (same_prio_UB s); [apply (istep_same_prio idle)|].
    + by apply sent_keq.
    + rewrite R1. symmetry. apply Hi.
    + rewrite R2. symmetry. apply Hi.
  - intros A k. unfold bind at 1, set_thd, modify. cbn [obind]. unfold bind at 1. cbn [obind].
    rewrite (done_bind _ _ _ _ _ E). unfold bind at 1, thd, gets. cbn [obind].
    unfold sent. rewrite Hc. fold s2. case_bool_decide as Hw; [|done].
    assert (p_state (k_thd s tp) = THD_STATE_WTMSG) as Hw'.
    { revert Hw. unfold s2. simpl. rewrite !fn_insert_dec. repeat case_decide; by subst. }
    assert (chSchReadyI tp (upd_q (QMsg tp) L s2) =
            Done tp (ready_st tp (upd_q (QMsg tp) L s2))) as E2.
    2: { unfold bind. by rewrite E2. }
    apply chSchReadyI_eq; [auto with chibi|apply (i_rprio _ _ _ HI)| |congruence|congruence].
    change (NOPRIO < k_prio s2 tp). rewrite Ep. apply (i_prio _ _ _ HI). congruence.
Qed.

Lemma sent_retime tp msg L s : retime (sent tp msg L s) (server_up tp msg s) = sent tp msg L s.
Proof. unfold retime, sent, server_up. by repeat case_bool_decide. Qed.

Lemma chMsgSend_safe t ml tp msg s :
  Ust idle J t ml s -> t <> idle -> tp <> 0 ->
  safe t (fun _ s' => Ust idle J t ml s') (chMsgSend tp msg s).
Proof.
  intros HU Hid Htp. unfold chMsgSend. unfold bind at 1, currp, gets. cbn [obind].
  pose proof HU as (_ & _ & _ & -> & _).
  rewrite check_bind by (by rewrite (proj2 (Z.eqb_neq _ _))).
  apply (lock_bind idle J t ml); [done|]. intros HS.
  destruct (chMsgSend_enter t ml tp msg _ HS Hid) as (L & _ & _ & HM & Hsl & E).
  rewrite E, <-sent_retime. apply osafe_bind.
  apply (chSchGoSleepS_rule idle J t ml); [by apply Mst_weak|done|done|].
  intros s' HS' _. rewrite gain_other in HS' by done.
  unfold bind at 1, thd, gets. cbn [obind]. by apply (unlock_bind idle J t ml).
Qed.

(** Where the sender is while it waits. *)
Lemma chMsgSend_blocks t ml tp msg s :
  Ust idle J t ml s -> t <> idle -> tp <> 0 -> tp <> t ->
  exists s1 k, chMsgSend tp msg s = Suspend AtSwitch s1 k /\
    t ∈ k_q s1 (QMsg tp) /\
    (CH_USE_MESSAGES_PRIORITY = false -> k_q s1 (QMsg tp) = k_q s (QMsg tp) ++ [t]) /\
    p_state (k_thd s1 t) = THD_STATE_SNDMSGQ /\ chMsgGet s1 t = msg /\
    (p_state (k_thd s tp) = THD_STATE_WTMSG -> p_state (k_thd s1 tp) = THD_STATE_READY \/
       k_curr s1 = tp).
Proof.
  intros HU Hid Htp Hne. pose proof HU as (_ & _ & _ & Hc & _).
  unfold chMsgSend. unfold bind at 1, currp, gets. cbn [obind]. rewrite Hc.
  rewrite check_bind by (by rewrite (proj2 (Z.eqb_neq _ _))).
  destruct (chSysLock_rule idle J t ml s HU) as (s0 & E0 & Es0 & HS).
  rewrite (done_bind _ _ _ _ _ E0).
  destruct (chMsgSend_enter t ml tp msg _ HS Hid) as (L & HL & HLf & HM & Hsl & E).
  rewrite E. pose proof HS as [(HI0 & _ & Hc0 & HL0 & _) _].
  pose proof HM as (HIu & _ & Hcu & HLu & _).
  destruct (idle_ready idle _ HIu) as (n & l & Hq); [by rewrite Hcu|].
  destruct (dispatch_ne idle _ n l HIu Hq) as [Hn _]. rewrite Hcu in Hn.
  assert (k_q (sent tp msg L s0) QReady = k_q (server_up tp msg s0) QReady) as Eq.
  { rewrite (keq_q _ _ (sent_keq tp msg L s0 HI0)). unfold enq. simpl. by rewrite fn_insert_ne. }
  assert (k_curr (sent tp msg L s0) = t) as Ec by (unfold sent; by case_bool_decide).
  unfold bind. rewrite (chSchGoSleepS_eq _ _ n l); [|unfold sent; by case_bool_decide|congruence].
  eexists _, _. split; [reflexivity|].
  destruct (sleep_st_fields THD_STATE_SNDMSGQ n l (sent tp msg L s0)) as
    (F1 & _ & _ & _ & _ & _ & _ & _ & F9 & _); [congruence|].
  assert (forall q, q <> QReady -> k_q (sleep_st THD_STATE_SNDMSGQ n l (sent tp msg L s0)) q =
            k_q (sent tp msg L s0) q) as Fq.
  { intros q Hnr. unfold sleep_st, renew. simpl.
    destruct (0 <? CH_TIME_QUANTUM); simpl; by rewrite fn_insert_ne. }
  assert (k_q (sent tp msg L s0) (QMsg tp) = L) as EL.
  { unfold sent. case_bool_decide; simpl; rewrite ?fn_insert_eq; [|done].
    rewrite fn_insert_ne by done. by rewrite fn_insert_eq. }
  rewrite Fq, EL by done. rewrite Ec in F9. subst s0.
  destruct (with_lock_fields 1 s) as (W1 & W2 & _). rewrite W2 in *.
  split_and!; try done.
  - rewrite HL. set_solver.
  - unfold chMsgGet. rewrite (keq_thd _ _ (keq_sleep_st _ n l _ _ (sent_keq tp msg L _ HI0))).
    set (x := enq _ _ _).
    assert (k_curr x = t) as Ex by (unfold x; simpl; done).
    assert (p_msg (k_thd x t) = msg) as Em.
    { unfold x, enq. rewrite Hcu. simpl. rewrite fn_insert_eq. simpl. unfold server_up.
      case_bool_decide; simpl; rewrite ?(fn_insert_ne _ tp) by congruence;
        rewrite Hc0, fn_insert_eq; done. }
    clearbody x. unfold sleep_st, renew. rewrite Ex.
    destruct (0 <? CH_TIME_QUANTUM); simpl; rewrite !fn_insert_dec;
      repeat case_decide; subst; done.
  - intros Hw. destruct (decide (n = tp)) as [->|Hnt]; [by right|]. left.
    rewrite (keq_thd _ _ (keq_sleep_st _ n l _ _ (sent_keq tp msg L _ HI0))).
    set (x := enq _ _ _).
    assert (k_curr x = t) as Ex by (unfold x; simpl; done).
    assert (p_state (k_thd x tp) = THD_STATE_READY) as Em.
    { unfold x, enq. rewrite Hcu. simpl. rewrite fn_insert_ne by congruence.
      unfold server_up. rewrite W1, bool_decide_eq_true_2 by done. simpl. by rewrite fn_insert_eq. }
    clearbody x. unfold sleep_st, renew. rewrite Ex.
    destruct (0 <? CH_TIME_QUANTUM); simpl; rewrite !fn_insert_dec;
      repeat case_decide; subst; done.
Qed.

(** ** Receiving *)

(** The first sender is taken off the queue and waits for its answer. *)
Definition received w (l : list tid) s : kstate :=
  upd_thd w (set_p_state THD_STATE_SNDMSG) (upd_q (QMsg (k_curr s)) l s).

Lemma received_Sst t ml w l s :
  Sst idle J t ml s -> k_q s (QMsg t) = w :: l -> Sst idle J t ml (received w l s).
Proof.
  intros [HM Hhp] Hq. pose proof HM as (HI & HJ & Hc & HL & Hn & Hm).
  unfold received. rewrite Hc.
  pose proof (pop_float idle s (QMsg t) w l HI Hq eq_refl) as HF. unfold pop_st in HF.
  set (s1 := upd_q (QMsg t) l s) in *.
  assert (home (k_thd s w) = Some (QMsg t)) as Hh.
  { apply (inv_placed idle _ _ _ HI). rewrite Hq. set_solver. }
  assert (p_state (k_thd s w) = THD_STATE_SNDMSGQ) as Hs.
  { pose proof (i_kind _ _ _ HI w _ ltac:(done) Hh) as Hk.
    by destruct (p_state (k_thd s w)). }
  assert (w <> t) as Hwt.
  { intros ->. rewrite <-Hc, (i_cur _ _ _ HI) in Hs. done. }
  assert (KI (Some w) (upd_thd w (set_p_state THD_STATE_SNDMSG) s1)) as HF1.
  { apply float_upd; try done.
    - intros Hv. destruct (i_timer _ _ _ HI w Hv) as (_ & _ & Ht). by rewrite Hs in Ht.
    - intros ->. destruct (i_idle _ _ _ HI) as [E|E]; by rewrite Hs in E. }
  assert (k_thd (upd_thd w (set_p_state THD_STATE_SNDMSG) s1) w =
    set_p_state THD_STATE_SNDMSG (k_thd s w)) as Ew by (simpl; by rewrite fn_insert_eq).
  split; [split_and!|].
  - apply (settle_float idle _ w); [done|..]; by rewrite Ew.
  - revert HJ. apply DU_ext; [done|]. split; intros; unfold k_prio; simpl;
      rewrite ?fn_insert_dec; repeat case_decide; by subst.
  - done.
  - done.
  - done.
  - simpl. by rewrite fn_insert_ne.
  - unfold HP, firstprio, currprio, k_prio in *. simpl. rewrite (fn_insert_ne _ (QMsg t)) by done.
    rewrite Hc in *. rewrite (fn_insert_ne _ w _ t) by done.
    destruct (k_q s QReady) as [|v r]; [done|]. rewrite fn_insert_dec. case_decide; by subst.
Qed.

Lemma received_bind {A} t ml w l s (k : tid -> KM A) :
  Sst idle J t ml s -> k_q s (QMsg t) = w :: l ->
  (let! me := currp in let! tp := fifo_remove (QMsg me) in
   set_thd tp (set_p_state THD_STATE_SNDMSG) ;;; k tp) s = k w (received w l s).
Proof.
  intros [(_ & _ & Hc & _) _] Hq. unfold bind, currp, gets, fifo_remove, set_thd, modify.
  cbn [obind]. rewrite Hc, Hq. cbn [obind]. unfold received. by rewrite Hc.
Qed.

Lemma chMsgWait_safe t ml s :
  Ust idle J t ml s -> t <> idle ->
  safe t (fun _ s' => Ust idle J t ml s') (chMsgWait s).
Proof.
  intros HU Hid. apply (lock_bind idle J t ml); [done|].
  generalize (with_lock 1 s). clear s HU. intros s HS.
  pose proof HS as [HM Hhp]. pose proof HM as (HI & [_ Hub] & Hc & HL & _).
  apply osafe_bind.
  apply (osafe_mono _ _ (fun _ s' => Sst idle J t ml s' /\ k_q s' (QMsg t) <> [])).
  { intros _ s' [HS' Hne]. destruct (k_q s' (QMsg t)) as [|w l] eqn:Hq; [done|].
    rewrite (received_bind t ml w l) by done.
    apply (unlock_bind idle J t ml); [by apply received_Sst|done]. }
  unfold chMsgIsPendingI, notempty, isempty. rewrite Hc.
  destruct (k_q s (QMsg t)) as [|w l] eqn:Hq; cbn [negb].
  - assert (retime s s = s) as Er by (by destruct s). rewrite <-Er at 1.
    apply (chSchGoSleepS_rule idle J t ml); [by apply Mst_weak|done| |].
    + apply (sleeper_keq _ (fun s => upd_thd (k_curr s) (fun th => th) s)); [| |done|done].
      * apply sleeper_none; try done. congruence.
      * split; try done. intros u. simpl. rewrite fn_insert_dec. case_decide; by subst.
    + intros s' HS' Hw. rewrite gain_other in HS' by done. done.
  - split; [done|]. by rewrite Hq.
Qed.

(** A message that is already there is received without waiting. *)
Lemma chMsgWait_pending t ml w l s :
  Ust idle J t ml s -> k_q s (QMsg t) = w :: l ->
  exists s1 k, chMsgWait s = Suspend AtUnlock s1 k /\ (forall s2, k s2 = Done w s2) /\
    k_q s1 (QMsg t) = l /\ p_state (k_thd s1 w) = THD_STATE_SNDMSG /\
    chMsgGet s1 w = chMsgGet s w.
Proof.
  intros HU Hq. destruct (chSysLock_rule idle J t ml s HU) as (s0 & E0 & Es0 & HS).
  destruct (with_lock_fields 1 s) as (W1 & W2 & _). subst s0.
  assert (k_q (with_lock 1 s) (QMsg t) = w :: l) as Hq0 by (by rewrite W2).
  unfold chMsgWait. rewrite (done_bind _ _ _ _ _ E0). unfold bind at 1.
  pose proof HS as [(_ & _ & Hc & HL & _) _].
  unfold chMsgIsPendingI, notempty, isempty. rewrite Hc, Hq0. cbn [negb mret' obind].
  rewrite (received_bind t ml w l) by done.
  pose proof (received_Sst t ml w l _ HS Hq0) as [(_ & _ & _ & HL' & _) _].
  unfold bind. rewrite chSysUnlock_ok by done. cbn [obind].
  eexists _, _. split; [reflexivity|]. split; [done|].
  destruct (with_lock_fields 0 (received w l (with_lock 1 s))) as (V1 & V2 & _).
  unfold chMsgGet. rewrite V1, V2. unfold received. rewrite Hc. simpl.
  rewrite !fn_insert_eq. by rewrite W1.
Qed.

(** ** Answering *)

Lemma chMsgRelease_safe t ml tp msg s :
  Ust idle J t ml s -> p_state (k_thd s tp) = THD_STATE_SNDMSG ->
  safe t (fun _ s' => Ust idle J t ml s') (chMsgRelease tp msg s).
Proof.
  intros HU Hs. unfold chMsgRelease. apply (lock_bind idle J t ml); [done|]. intros HS.
  destruct (with_lock_fields 1 s) as (W1 & _).
  assert (p_state (k_thd (with_lock 1 s) tp) = THD_STATE_SNDMSG) as Hs0 by (by rewrite W1).
  revert HS Hs0. generalize (with_lock 1 s). clear s HU Hs W1. intros s [HM Hhp] Hs.
  pose proof HM as (HI & HJ & Hc & HL & Hn & Hm).
  unfold bind at 1, thd, gets. cbn [obind].
  rewrite assert_bind by (by rewrite bool_decide_eq_true_2). apply osafe_bind.
  apply (chSchWakeupS_rule idle J t ml); [|done|].
  - split_and!; try done; [|congruence]. apply float_intro; try done.
    + unfold home. by rewrite Hs.
    + intros ->. by rewrite (i_cur _ _ _ HI) in Hs.
    + by rewrite Hs.
    + intros u. apply (inv_not_waiting idle); [done|]. by rewrite Hs.
  - intros s' HS'. by apply (chSysUnlock_rule idle J t ml).
Qed.
End MsgOK.
