(* ===== verification/Ring.v ===== *)
(** * Circular buffers

    The representation shared by the mailboxes and the I/O queues: a buffer,
    a read and a write position, and the sequence of elements they stand for.
    The positions wrap by comparison with the end of the buffer, as the code
    does; the invariant is stated with a modulus. *)
From S2P Require Import Prelude.

Section Ring.
Implicit Types (buf l : list Z) (rd wr x n : Z).

Definition len l : Z := Z.of_nat (length l).

(** [if (++p >= top) p = buffer] and [if (--p < buffer) p = top - 1]. *)
Definition nxt n p : Z := if n <=? p + 1 then 0 else p + 1.
Definition prv n p : Z := if p - 1 <? 0 then n - 1 else p - 1.

Record ring buf rd wr l : Prop := {
  r_rd : 0 <= rd < len buf;
  r_len : len l <= len buf;
  r_wr : wr = (rd + len l) `mod` len buf;
  r_get : forall i x, l !! i = Some x ->
    buf !! Z.to_nat ((rd + Z.of_nat i) `mod` len buf) = Some x
}.

Lemma nxt_mod n p : 0 <= p < n -> nxt n p = (p + 1) `mod` n.
Proof.
  intros Hp. unfold nxt. destruct (Z.leb_spec n (p + 1)).
  - replace (p + 1) with n by lia. by rewrite Z_mod_same_full.
  - by rewrite Z.mod_small by lia.
Qed.

Lemma prv_mod n p : 0 <= p < n -> prv n p = (p - 1) `mod` n.
Proof.
  intros Hp. unfold prv. destruct (Z.ltb_spec (p - 1) 0).
  - replace (p - 1) with (n - 1 + (-1) * n) by lia. by rewrite Z_mod_plus_full, Z.mod_small by lia.
  - by rewrite Z.mod_small by lia.
Qed.

Lemma len_insert buf i x : len (<[i := x]> buf) = len buf.
Proof. unfold len. by rewrite length_insert. Qed.

Lemma len_app l l' : len (l ++ l') = len l + len l'.
Proof. unfold len. rewrite length_app. lia. Qed.

Lemma mod_inj n a b : 0 < n -> a `mod` n = b `mod` n -> - n < a - b < n -> a = b.
Proof.
  intros Hn E Hb. pose proof (Z.div_mod a n ltac:(lia)). pose proof (Z.div_mod b n ltac:(lia)).
  assert (a `div` n = b `div` n) by nia. nia.
Qed.

Lemma ring_reset buf : 0 < len buf -> ring buf 0 0 [].
Proof. intros Hn. split; try done; unfold len in *; simpl; lia. Qed.

Lemma ring_wr_range buf rd wr l : ring buf rd wr l -> 0 <= wr < len buf.
Proof. intros [Hr Hl Hw Hg]. subst. apply Z.mod_pos_bound. lia. Qed.

Lemma ring_write buf rd wr l x :
  ring buf rd wr l -> len l < len buf ->
  ring (<[Z.to_nat wr := x]> buf) rd (nxt (len buf) wr) (l ++ [x]).
Proof.
  intros HR Hlt. pose proof (ring_wr_range _ _ _ _ HR) as Hwr. destruct HR as [Hr Hl Hw Hg].
  split; rewrite ?len_insert, ?len_app; cbn [len length]; try lia.
  - unfold len. simpl. unfold len in *. lia.
  - rewrite nxt_mod by done. subst wr. rewrite Zplus_mod_idemp_l. f_equal. unfold len. simpl. lia.
  - intros i y Hi. apply lookup_app_Some in Hi as [Hi|[Hge Hi]].
    + rewrite list_lookup_insert_ne; [by apply Hg|]. pose proof (lookup_lt_Some _ _ _ Hi) as Hil.
      intros E. subst wr. pose proof (Z.mod_pos_bound (rd + Z.of_nat i) (len buf) ltac:(lia)).
      assert (rd + len l = rd + Z.of_nat i) as Ei; [|unfold len in *; lia].
      apply (mod_inj (len buf)); [lia| |unfold len in *; lia].
      apply Z2Nat.inj; [lia..|done].
    + apply list_lookup_singleton_Some in Hi as [Hi <-].
      assert (Z.of_nat i = len l) as Ei by (unfold len; lia). rewrite Ei, <-Hw.
      apply list_lookup_insert_eq. unfold len in *. lia.
Qed.

Lemma ring_read buf rd wr x l :
  ring buf rd wr (x :: l) ->
  buf !! Z.to_nat rd = Some x /\ ring buf (nxt (len buf) rd) wr l.
Proof.
  intros [Hr Hl Hw Hg]. unfold len in Hl, Hw; cbn [length] in Hl, Hw. split.
  - specialize (Hg 0%nat x eq_refl). rewrite Z.add_0_r, Z.mod_small in Hg by done. done.
  - rewrite nxt_mod by done. split.
    + apply Z.mod_pos_bound. lia.
    + unfold len. lia.
    + rewrite Zplus_mod_idemp_l, Hw. f_equal. unfold len. lia.
    + intros i y Hi. rewrite Zplus_mod_idemp_l.
      replace (rd + 1 + Z.of_nat i) with (rd + Z.of_nat (S i)) by lia. by apply Hg.
Qed.

Lemma ring_ahead buf rd wr l x :
  ring buf rd wr l -> len l < len buf ->
  ring (<[Z.to_nat (prv (len buf) rd) := x]> buf) (prv (len buf) rd) wr (x :: l).
Proof.
  intros [Hr Hl Hw Hg] Hlt. rewrite prv_mod by done.
  pose proof (Z.mod_pos_bound (rd - 1) (len buf) ltac:(lia)) as Hp.
  split; rewrite ?len_insert.
  - done.
  - unfold len in *. cbn [length]. lia.
  - rewrite Zplus_mod_idemp_l, Hw. f_equal. unfold len. cbn [length]. lia.
  - intros [|i] y Hi; cbn [lookup] in Hi.
    + simpl in Hi. injection Hi as <-. rewrite Z.add_0_r, Z.mod_mod by lia.
      apply list_lookup_insert_eq. unfold len in *. lia.
    + simpl in Hi. rewrite Zplus_mod_idemp_l.
      replace (rd - 1 + Z.of_nat (S i)) with (rd + Z.of_nat i) by lia.
      rewrite list_lookup_insert_ne; [by apply Hg|].
      pose proof (lookup_lt_Some _ _ _ Hi) as Hil. intros E.
      pose proof (Z.mod_pos_bound (rd + Z.of_nat i) (len buf) ltac:(lia)).
      assert (rd - 1 = rd + Z.of_nat i) as Ei; [|lia].
      apply (mod_inj (len buf)); [lia| |unfold len in *; lia].
      apply Z2Nat.inj; [lia..|done].
Qed.
End Ring.
