(* ===== verification/MboxOK.v ===== *)
(** * Mailboxes: correctness

    A mailbox stands for a bounded sequence of messages.  The I-class
    operations refine the operations on that sequence and never block; the
    two semaphores never promise more messages or free slots than there
    are. *)
From S2P Require Import Prelude Monad Types ThdLists VT Sched Sem Mtx.
From S2P Require Import Mbox Ring Inv InvPrim InvSched Rules Scenario Wake.
From S2P Require Import SemOK.

Implicit Types (s : kstate) (mbp msg : Z) (l : list Z) (mb : Mailbox).

(** The sequence [l] is the content of mailbox [mb]. *)
Definition mb_ring mb l : Prop := ring (mb_buffer mb) (mb_rdptr mb) (mb_wrptr mb) l.

Record mb_rep s mbp l : Prop := {
  mr_ring : mb_ring (k_mb s mbp) l;
  mr_full : k_sem s (mb_fullsem (k_mb s mbp)) <= len l;
  mr_empty : k_sem s (mb_emptysem (k_mb s mbp)) <= len (mb_buffer (k_mb s mbp)) - len l;
  mr_sems : mb_fullsem (k_mb s mbp) <> mb_emptysem (k_mb s mbp)
}.

(** ** The buffer *)

Lemma mb_write_ring mb l msg :
  mb_ring mb l -> len l < len (mb_buffer mb) -> mb_ring (mb_write msg mb) (l ++ [msg]).
Proof.
  intros HR Hlt. pose proof (ring_write _ _ _ _ msg HR Hlt) as HR'.
  unfold mb_write, chMBSizeI. cbn [mb_buffer mb_wrptr set_mb_buffer set_mb_wrptr].
  rewrite length_insert. fold (len (mb_buffer mb)). unfold nxt in HR'.
  by destruct (len (mb_buffer mb) <=? mb_wrptr mb + 1).
Qed.

Lemma mb_write_ahead_ring mb l msg :
  mb_ring mb l -> len l < len (mb_buffer mb) -> mb_ring (mb_write_ahead msg mb) (msg :: l).
Proof.
  intros HR Hlt. pose proof (ring_ahead _ _ _ _ msg HR Hlt) as HR'.
  unfold mb_write_ahead, chMBSizeI. cbn [mb_buffer mb_rdptr set_mb_rdptr].
  fold (len (mb_buffer mb)). unfold prv in HR'. by destruct (mb_rdptr mb - 1 <? 0).
Qed.

Lemma mb_read_ring mb l msg :
  mb_ring mb (msg :: l) -> mb_peek mb = Some msg /\ mb_ring (mb_advance mb) l.
Proof.
  intros HR. destruct (ring_read _ _ _ _ _ HR) as [E HR']. split; [exact E|].
  unfold mb_advance, chMBSizeI. cbn [mb_buffer mb_rdptr set_mb_rdptr].
  fold (len (mb_buffer mb)). unfold nxt in HR'. by destruct (len (mb_buffer mb) <=? mb_rdptr mb + 1).
Qed.

(** The writes and reads leave the rest of the structure alone. *)
Definition mb_same mb mb' : Prop :=
  mb_fullsem mb' = mb_fullsem mb /\ mb_emptysem mb' = mb_emptysem mb /\
  len (mb_buffer mb') = len (mb_buffer mb).

Lemma mb_write_same msg mb : mb_same mb (mb_write msg mb).
Proof.
  unfold mb_write, mb_same. case_match; simpl; by rewrite len_insert.
Qed.
Lemma mb_write_ahead_same msg mb : mb_same mb (mb_write_ahead msg mb).
Proof.
  unfold mb_write_ahead, mb_same. simpl. case_match; simpl; by rewrite len_insert.
Qed.
Lemma mb_advance_same mb : mb_same mb (mb_advance mb).
Proof. unfold mb_advance, mb_same. by case_match. Qed.

Section MboxOK.
Context `{Config}.
Variable idle : tid.
Local Abbreviation KI := (KInv idle).

Lemma set_k_mb_inv fl s f : KI fl (set_k_mb f s) <-> KI fl s.
Proof. split; intros HI; kinv_open HI; split; kinv_same. Qed.

Lemma set_k_mb_istep s s' f : istep idle s s' -> istep idle (set_k_mb f s) (set_k_mb f s').
Proof.
  intros []. split; try done; [by apply set_k_mb_inv|].
  unfold kdata in *. simpl. congruence.
Qed.

(** Taking one unit of a semaphore that has some. *)
Lemma fast_wait_istep s sp :
  KI None s -> 0 < k_sem s sp ->
  chSemFastWaitI sp s = Done tt (upd_sem sp (k_sem s sp - 1) s) /\
  istep idle s (upd_sem sp (k_sem s sp - 1) s).
Proof.
  intros HI Hp. destruct (sem_len idle _ s sp HI) as [Hs Hl]. unfold is_s32 in Hs.
  split; [unfold chSemFastWaitI, set_cnt, modify; by rewrite s32_small by (unfold is_s32; lia)|].
  split; try done. apply upd_sem_inv; [done|unfold is_s32; lia|]. lia.
Qed.

Lemma signal_st_other s sp sp' : sp' <> sp -> k_sem (signal_st sp s) sp' = k_sem s sp'.
Proof. intros Hne. unfold signal_st. destruct (k_q s (QSem sp)); simpl; by rewrite fn_insert_ne. Qed.

Lemma signal_st_mb s sp : k_mb (signal_st sp s) = k_mb s.
Proof. unfold signal_st. by destruct (k_q s (QSem sp)). Qed.

(** One unit moves from [a] to [b] while the mailbox changes by [f]: what
    a transfer of a message does. *)
Section Transfer.
Variables (s : kstate) (mbp : Z) (a b : sid) (f : Mailbox -> Mailbox).
Hypothesis HL : locked_I s.
Hypothesis HI : KI None s.
Hypothesis Ha : 0 < k_sem s a.
Hypothesis Hb : k_sem s b < 2^31 - 1.
Hypothesis Hab : a <> b.

Definition moved : kstate := signal_st b (upd_mb mbp f (upd_sem a (k_sem s a - 1) s)).

Lemma moved_eq :
  chSemFastWaitI a s = Done tt (upd_sem a (k_sem s a - 1) s) /\
  chSemSignalI b (upd_mb mbp f (upd_sem a (k_sem s a - 1) s)) = Done tt moved /\
  istep idle s (set_k_mb (k_mb s) moved).
Proof.
  destruct (fast_wait_istep s a HI Ha) as [E1 Hi1].
  destruct (chSemSignalI_eq idle (upd_mb mbp f (upd_sem a (k_sem s a - 1) s)) b) as [E2 Hi2].
  - done.
  - by apply set_k_mb_inv, Hi1.
  - simpl. by rewrite fn_insert_ne.
  - split_and!; [done..|]. eapply istep_trans; [exact Hi1|].
    apply (set_k_mb_istep _ _ (k_mb s)) in Hi2. exact Hi2.
Qed.

Lemma moved_mb : k_mb moved mbp = f (k_mb s mbp).
Proof. unfold moved. rewrite signal_st_mb. simpl. by rewrite fn_insert_eq. Qed.

Lemma moved_sem : k_sem moved a = k_sem s a - 1 /\ k_sem moved b = k_sem s b + 1.
Proof using Hab.
  unfold moved. rewrite signal_st_sem, signal_st_other by done. simpl.
  rewrite fn_insert_eq, fn_insert_ne by done. done.
Qed.
End Transfer.

(** [d] messages more in the mailbox, by the semaphores. *)
Definition counted d s s' mbp : Prop :=
  mb_same (k_mb s mbp) (k_mb s' mbp) /\
  chMBGetUsedCountI s' mbp = chMBGetUsedCountI s mbp + d /\
  chMBGetFreeCountI s' mbp = chMBGetFreeCountI s mbp - d.

(** ** Posting *)

Lemma post_I_eq name w (ins : Z -> list Z -> list Z) s mbp msg l :
  (forall mb, mb_ring mb l -> len l < len (mb_buffer mb) -> mb_ring (w msg mb) (ins msg l)) ->
  (forall mb, mb_same mb (w msg mb)) -> len (ins msg l) = len l + 1 ->
  locked_I s -> KI None s -> mbp <> 0 -> mb_rep s mbp l ->
  len (mb_buffer (k_mb s mbp)) < 2^31 ->
  (chMBGetFreeCountI s mbp <= 0 -> post_I name w mbp msg s = Done RDY_TIMEOUT s) /\
  (0 < chMBGetFreeCountI s mbp -> exists s',
     post_I name w mbp msg s = Done RDY_OK s' /\ mb_rep s' mbp (ins msg l) /\
     istep idle s (set_k_mb (k_mb s) s') /\ counted 1 s s' mbp).
Proof.
  intros Hw Hsame Hins HL HI Hp [Hr Hf He Hs] Hmax. unfold chMBGetFreeCountI, chSemGetCounterI.
  set (mb := k_mb s mbp) in *.
  assert (post_I name w mbp msg s =
    (if k_sem s (mb_emptysem mb) <=? 0 then mret' RDY_TIMEOUT
     else chSemFastWaitI (mb_emptysem mb) ;;; modify (upd_mb mbp (w msg)) ;;;
          chSemSignalI (mb_fullsem mb) ;;; mret' RDY_OK) s) as ->.
  { unfold post_I. rewrite classI_bind by done.
    by rewrite check_bind by (by rewrite (proj2 (Z.eqb_neq _ _))). }
  split.
  - intros Hz. by rewrite (proj2 (Z.leb_le _ _)).
  - intros Hz. rewrite (proj2 (Z.leb_gt _ _)) by done.
    destruct (moved_eq s mbp (mb_emptysem mb) (mb_fullsem mb) (w msg)) as (E1 & E2 & Hi);
      [done..| |congruence|].
    { lia. }
    destruct (Hsame mb) as (S1 & S2 & S3).
    destruct (moved_sem s mbp (mb_emptysem mb) (mb_fullsem mb) (w msg)) as [M1 M2]; [congruence|].
    exists (moved s mbp (mb_emptysem mb) (mb_fullsem mb) (w msg)). split_and!.
    + rewrite (done_bind _ _ _ _ _ E1). unfold bind at 1, modify. cbn [obind].
      by rewrite (done_bind _ _ _ _ _ E2).
    + split; rewrite moved_mb; fold mb.
      * apply Hw; [done|lia].
      * rewrite S1, M2, Hins. lia.
      * rewrite S2, S3, M1, Hins. lia.
      * congruence.
    + done.
    + unfold counted, chMBGetUsedCountI, chMBGetFreeCountI, chSemGetCounterI.
      rewrite moved_mb. fold mb. rewrite S1, S2, M1, M2. split_and!; [|lia..]. by split_and!.
Qed.

Lemma chMBPostI_eq s mbp msg l :
  locked_I s -> KI None s -> mbp <> 0 -> mb_rep s mbp l ->
  len (mb_buffer (k_mb s mbp)) < 2^31 ->
  (chMBGetFreeCountI s mbp <= 0 -> chMBPostI mbp msg s = Done RDY_TIMEOUT s) /\
  (0 < chMBGetFreeCountI s mbp -> exists s',
     chMBPostI mbp msg s = Done RDY_OK s' /\ mb_rep s' mbp (l ++ [msg]) /\
     istep idle s (set_k_mb (k_mb s) s') /\ counted 1 s s' mbp).
Proof.
  apply (post_I_eq _ _ (fun x l => l ++ [x])).
  - intros mb. apply mb_write_ring.
  - apply mb_write_same.
  - by rewrite len_app.
Qed.

Lemma chMBPostAheadI_eq s mbp msg l :
  locked_I s -> KI None s -> mbp <> 0 -> mb_rep s mbp l ->
  len (mb_buffer (k_mb s mbp)) < 2^31 ->
  (chMBGetFreeCountI s mbp <= 0 -> chMBPostAheadI mbp msg s = Done RDY_TIMEOUT s) /\
  (0 < chMBGetFreeCountI s mbp -> exists s',
     chMBPostAheadI mbp msg s = Done RDY_OK s' /\ mb_rep s' mbp (msg :: l) /\
     istep idle s (set_k_mb (k_mb s) s') /\ counted 1 s s' mbp).
Proof.
  apply (post_I_eq _ _ (fun x l => x :: l)).
  - intros mb. apply mb_write_ahead_ring.
  - apply mb_write_ahead_same.
  - unfold len. cbn [length]. lia.
Qed.

(** ** Fetching *)

Lemma chMBFetchI_eq s mbp l :
  locked_I s -> KI None s -> mbp <> 0 -> mb_rep s mbp l ->
  len (mb_buffer (k_mb s mbp)) < 2^31 ->
  (chMBGetUsedCountI s mbp <= 0 -> chMBFetchI mbp s = Done (RDY_TIMEOUT, None) s) /\
  (0 < chMBGetUsedCountI s mbp -> exists msg l' s',
     l = msg :: l' /\ chMBPeekI s mbp = Some msg /\
     chMBFetchI mbp s = Done (RDY_OK, Some msg) s' /\ mb_rep s' mbp l' /\
     istep idle s (set_k_mb (k_mb s) s') /\ counted (-1) s s' mbp).
Proof.
  intros HL HI Hp [Hr Hf He Hs] Hmax. unfold chMBGetUsedCountI, chSemGetCounterI, chMBPeekI.
  set (mb := k_mb s mbp) in *.
  assert (chMBFetchI mbp s =
    (if k_sem s (mb_fullsem mb) <=? 0 then mret' (RDY_TIMEOUT, None)
     else chSemFastWaitI (mb_fullsem mb) ;;; let! msg := mb_read mbp in
          chSemSignalI (mb_emptysem mb) ;;; mret' (RDY_OK, Some msg)) s) as ->.
  { unfold chMBFetchI. rewrite classI_bind by done.
    by rewrite check_bind by (by rewrite (proj2 (Z.eqb_neq _ _))). }
  split.
  - intros Hz. by rewrite (proj2 (Z.leb_le _ _)).
  - intros Hz. rewrite (proj2 (Z.leb_gt _ _)) by done.
    destruct l as [|msg l']; [unfold len in Hf; simpl in Hf; lia|].
    destruct (mb_read_ring _ _ _ Hr) as [Hpk Hr'].
    destruct (moved_eq s mbp (mb_fullsem mb) (mb_emptysem mb) mb_advance) as (E1 & E2 & Hi);
      [done..| |done|].
    { pose proof (r_len _ _ _ _ Hr). unfold len in *. lia. }
    destruct (mb_advance_same mb) as (S1 & S2 & S3).
    destruct (moved_sem s mbp (mb_fullsem mb) (mb_emptysem mb) mb_advance Hs) as [M1 M2].
    exists msg, l', (moved s mbp (mb_fullsem mb) (mb_emptysem mb) mb_advance). split_and!; try done.
    + rewrite (done_bind _ _ _ _ _ E1). unfold bind at 1, mb_read.
      change (k_mb (upd_sem (mb_fullsem mb) (k_sem s (mb_fullsem mb) - 1) s) mbp) with mb.
      rewrite Hpk. cbn [obind]. by rewrite (done_bind _ _ _ _ _ E2).
    + unfold len in Hf, He; cbn [length] in Hf, He.
      split; rewrite moved_mb; fold mb.
      * done.
      * rewrite S1, M1. unfold len. lia.
      * rewrite S2, S3, M2. unfold len. lia.
      * congruence.
    + unfold counted, chMBGetUsedCountI, chMBGetFreeCountI, chSemGetCounterI.
      rewrite moved_mb. fold mb. rewrite S1, S2, M1, M2. split_and!; [|lia..]. by split_and!.
Qed.

(** ** Refinement of a bounded sequence *)

Inductive mb_op := OpPost (msg : Z) | OpPostAhead (msg : Z) | OpFetch.

(** The specification: [n] slots, the content [l]; the result is the status
    and the message fetched. *)
Definition mb_spec (n : Z) (op : mb_op) (l : list Z) : (Z * option Z) * list Z :=
  match op with
  | OpPost msg =>
      if len l <? n then ((RDY_OK, None), l ++ [msg]) else ((RDY_TIMEOUT, None), l)
  | OpPostAhead msg =>
      if len l <? n then ((RDY_OK, None), msg :: l) else ((RDY_TIMEOUT, None), l)
  | OpFetch =>
      match l with
      | [] => ((RDY_TIMEOUT, None), [])
      | msg :: l => ((RDY_OK, Some msg), l)
      end
  end.

Definition mb_impl mbp (op : mb_op) : KM (Z * option Z) :=
  match op with
  | OpPost msg => let! r := chMBPostI mbp msg in mret' (r, None)
  | OpPostAhead msg => let! r := chMBPostAheadI mbp msg in mret' (r, None)
  | OpFetch => chMBFetchI mbp
  end.

Fixpoint spec_run (n : Z) (ops : list mb_op) (l : list Z) : list (Z * option Z) * list Z :=
  match ops with
  | [] => ([], l)
  | op :: ops =>
      let '(r, l1) := mb_spec n op l in
      let '(rs, l2) := spec_run n ops l1 in (r :: rs, l2)
  end.

Fixpoint impl_run mbp (ops : list mb_op) : KM (list (Z * option Z)) :=
  match ops with
  | [] => mret' []
  | op :: ops =>
      let! r := mb_impl mbp op in
      let! rs := impl_run mbp ops in mret' (r :: rs)
  end.

(** No thread waits, so the counters are exact. *)
Definition mb_idle s mbp l : Prop :=
  mb_rep s mbp l /\ chMBGetUsedCountI s mbp = len l /\
  chMBGetFreeCountI s mbp = len (mb_buffer (k_mb s mbp)) - len l.

Lemma mb_idle_step d s s' mbp l l' :
  mb_idle s mbp l -> mb_rep s' mbp l' -> counted d s s' mbp -> len l' = len l + d ->
  mb_idle s' mbp l' /\ len (mb_buffer (k_mb s' mbp)) = len (mb_buffer (k_mb s mbp)).
Proof.
  intros (_ & Hu & Hf) HR ((_ & _ & S3) & C1 & C2) Hl. split; [|done].
  split_and!; [done|lia|]. rewrite S3. lia.
Qed.

Lemma mb_impl_refines s mbp l op :
  locked_I s -> KI None s -> mbp <> 0 -> mb_idle s mbp l ->
  len (mb_buffer (k_mb s mbp)) < 2^31 ->
  let '(r, l') := mb_spec (len (mb_buffer (k_mb s mbp))) op l in
  exists s', mb_impl mbp op s = Done r s' /\ mb_idle s' mbp l' /\ locked_I s' /\ KI None s' /\
    len (mb_buffer (k_mb s' mbp)) = len (mb_buffer (k_mb s mbp)).
Proof.
  intros HL HI Hp HR Hmax. pose proof HR as (Hrep & Hu & Hf).
  assert (forall s', istep idle s (set_k_mb (k_mb s) s') -> locked_I s' /\ KI None s') as Hst.
  { intros s' Hi. split; [by apply (istep_locked _ _ _ Hi)|].
    by apply (set_k_mb_inv None s' (k_mb s)), Hi. }
  destruct op as [msg|msg|]; cbn [mb_spec mb_impl].
  - destruct (chMBPostI_eq s mbp msg l HL HI Hp Hrep Hmax) as [P1 P2].
    destruct (Z.ltb_spec (len l) (len (mb_buffer (k_mb s mbp)))).
    + destruct P2 as (s' & E & HR' & Hi & Hc); [lia|]. exists s'. unfold bind. rewrite E.
      destruct (Hst s' Hi). destruct (mb_idle_step 1 s s' mbp l (l ++ [msg])); try done.
      by rewrite len_app.
    + exists s. unfold bind. rewrite P1 by lia. done.
  - destruct (chMBPostAheadI_eq s mbp msg l HL HI Hp Hrep Hmax) as [P1 P2].
    destruct (Z.ltb_spec (len l) (len (mb_buffer (k_mb s mbp)))).
    + destruct P2 as (s' & E & HR' & Hi & Hc); [lia|]. exists s'. unfold bind. rewrite E.
      destruct (Hst s' Hi). destruct (mb_idle_step 1 s s' mbp l (msg :: l)); try done.
      unfold len. cbn [length]. lia.
    + exists s. unfold bind. rewrite P1 by lia. done.
  - destruct (chMBFetchI_eq s mbp l HL HI Hp Hrep Hmax) as [P1 P2].
    destruct l as [|msg l]; [exists s; by rewrite P1 by (rewrite Hu; done)|].
    destruct P2 as (msg' & l' & s' & El & _ & E & HR' & Hi & Hc); [rewrite Hu; unfold len; simpl; lia|].
    injection El as <- <-. exists s'. destruct (Hst s' Hi).
    destruct (mb_idle_step (-1) s s' mbp (msg :: l) l); try done. unfold len. cbn [length]. lia.
Qed.

Lemma impl_run_refines mbp ops : forall s l,
  locked_I s -> KI None s -> mbp <> 0 -> mb_idle s mbp l ->
  len (mb_buffer (k_mb s mbp)) < 2^31 ->
  let '(rs, l') := spec_run (len (mb_buffer (k_mb s mbp))) ops l in
  exists s', impl_run mbp ops s = Done rs s' /\ mb_idle s' mbp l' /\ KI None s'.
Proof.
  induction ops as [|op ops IH]; intros s l HL HI Hp HR Hmax; cbn [spec_run impl_run].
  { exists s. done. }
  pose proof (mb_impl_refines s mbp l op HL HI Hp HR Hmax) as Hstep.
  destruct (mb_spec _ op l) as [r l1]. destruct Hstep as (s1 & E1 & HR1 & HL1 & HI1 & En).
  specialize (IH s1 l1 HL1 HI1 Hp HR1). rewrite En in IH. specialize (IH Hmax).
  destruct (spec_run _ ops l1) as [rs l2]. destruct IH as (s2 & E2 & HR2 & HI2).
  exists s2. split; [|done]. rewrite (done_bind _ _ _ _ _ E1). by rewrite (done_bind _ _ _ _ _ E2).
Qed.
End MboxOK.
