(* ===== verification/IOQOK.v ===== *)
(** * I/O queues: correctness

    An input queue and an output queue stand for a bounded sequence of bytes;
    the counter of the first is the length of the sequence, that of the
    second the room left.  Interrupt handlers and threads use the queue from
    both ends: the handler side refines the operations on the sequence, the
    thread side blocks until it can go on and keeps the representation
    whatever happens while it is blocked. *)
From S2P Require Import Prelude Monad Types ThdLists VT Sched Sem Mtx.
From S2P Require Import IOQ Ring Inv InvPrim InvSched Rules Scenario Wake.
From S2P Require Import SemOK.

Implicit Types (s : kstate) (qp iqp oqp b time : Z) (l : list Z) (q : IOQueue) (t : tid).

(** ** The representation *)

Record q_rep q l : Prop := {
  qr_ring : ring (q_buffer q) (q_rdptr q) (q_wrptr q) l;
  qr_size : len (q_buffer q) < 2^32;
  qr_bytes : Forall is_u8 (q_buffer q)
}.

Definition iq_rep q l : Prop := q_rep q l /\ q_counter q = len l.
Definition oq_rep q l : Prop := q_rep q l /\ q_counter q = len (q_buffer q) - len l.

Lemma len_nonneg l : 0 <= len l.
Proof. unfold len. lia. Qed.

(** The positions coincide when the queue is empty and when it is full. *)
Lemma q_same_pos q l :
  q_rep q l -> (q_wrptr q =? q_rdptr q) = (len l =? 0) || (len l =? len (q_buffer q)).
Proof.
  intros [[Hr Hl Hw Hg] _ _]. pose proof (len_nonneg l). rewrite Hw.
  destruct (decide (q_rdptr q + len l < len (q_buffer q))).
  - rewrite Z.mod_small by lia. lia.
  - replace (q_rdptr q + len l) with (q_rdptr q + len l - len (q_buffer q) + 1 * len (q_buffer q)) by lia.
    rewrite Z_mod_plus_full. destruct (decide (len l = len (q_buffer q))) as [E|].
    + rewrite E. replace (q_rdptr q + len (q_buffer q) - len (q_buffer q)) with (q_rdptr q) by lia.
      rewrite Z.mod_small, Z.eqb_refl by lia. lia.
    + rewrite Z.mod_small by lia. lia.
Qed.

Lemma iq_full q l : iq_rep q l -> chIQIsFullI q = (len l =? len (q_buffer q)).
Proof.
  intros [HR Hc]. unfold chIQIsFullI. rewrite (q_same_pos q l HR), Hc.
  pose proof (r_rd _ _ _ _ (qr_ring _ _ HR)). lia.
Qed.

Lemma oq_empty q l : oq_rep q l -> chOQIsEmptyI q = (len l =? 0).
Proof.
  intros [HR Hc]. unfold chOQIsEmptyI. rewrite (q_same_pos q l HR), Hc.
  pose proof (r_rd _ _ _ _ (qr_ring _ _ HR)). pose proof (len_nonneg l). lia.
Qed.

Lemma q_write_rep q l b :
  q_rep q l -> len l < len (q_buffer q) -> is_u8 b -> q_rep (q_write b q) (l ++ [b]) /\
  q_counter (q_write b q) = q_counter q /\ len (q_buffer (q_write b q)) = len (q_buffer q) /\
  q_notify (q_write b q) = q_notify q.
Proof.
  intros [HR Hs Hb] Hlt Hu. pose proof (ring_write _ _ _ _ b HR Hlt) as HR'.
  unfold q_write, chQSizeI. cbn [q_buffer q_wrptr set_q_buffer set_q_wrptr].
  rewrite length_insert. fold (len (q_buffer q)). unfold nxt in HR'.
  assert (Forall is_u8 (<[Z.to_nat (q_wrptr q) := b]> (q_buffer q))) as Hb'
    by (by apply Forall_insert).
  destruct (len (q_buffer q) <=? q_wrptr q + 1); simpl;
    (split_and!; [split; simpl; rewrite ?len_insert; done|done|by rewrite len_insert|done]).
Qed.

Lemma q_read_rep q l b :
  q_rep q (b :: l) -> q_peek q = Some b /\ is_u8 b /\ q_rep (q_advance q) l /\
  q_counter (q_advance q) = q_counter q /\ q_buffer (q_advance q) = q_buffer q /\
  q_notify (q_advance q) = q_notify q.
Proof.
  intros [HR Hs Hb]. destruct (ring_read _ _ _ _ _ HR) as [E HR'].
  split; [exact E|]. split; [by eapply Forall_lookup_1|].
  unfold q_advance, chQSizeI. cbn [q_buffer q_rdptr set_q_rdptr].
  fold (len (q_buffer q)). unfold nxt in HR'.
  by destruct (len (q_buffer q) <=? q_rdptr q + 1).
Qed.

Lemma q_count_rep q l n : q_rep q l -> q_rep (q_count n q) l.
Proof. by intros []. Qed.

(** One more byte, one byte less. *)
Lemma iq_put_rep q l b :
  iq_rep q l -> len l < len (q_buffer q) -> is_u8 b -> iq_rep (q_write b (q_count 1 q)) (l ++ [b]).
Proof.
  intros [HR Hc] Hlt Hb.
  destruct (q_write_rep (q_count 1 q) l b) as (HR' & E & _); [by apply q_count_rep|done..|].
  split; [done|]. rewrite E, len_app. simpl. rewrite Hc. pose proof (len_nonneg l).
  pose proof (qr_size _ _ HR). apply u32_small. unfold is_u32, len in *. cbn. lia.
Qed.

Lemma iq_get_rep q l b :
  iq_rep q (b :: l) -> q_peek (q_count (-1) q) = Some b /\ is_u8 b /\
  iq_rep (q_advance (q_count (-1) q)) l.
Proof.
  intros [HR Hc]. destruct (q_read_rep (q_count (-1) q) l b) as (E & Hb & HR' & Ec & _);
    [by apply q_count_rep|]. split_and!; [done..|]. split; [done|]. rewrite Ec. simpl. rewrite Hc.
  pose proof (r_len _ _ _ _ (qr_ring _ _ HR)). pose proof (qr_size _ _ HR).
  unfold len in *. cbn [length] in *. rewrite u32_small; [lia|]. unfold is_u32. lia.
Qed.

Lemma oq_put_rep q l b :
  oq_rep q l -> len l < len (q_buffer q) -> is_u8 b ->
  oq_rep (q_write b (q_count (-1) q)) (l ++ [b]).
Proof.
  intros [HR Hc] Hlt Hb.
  destruct (q_write_rep (q_count (-1) q) l b) as (HR' & E & El & _); [by apply q_count_rep|done..|].
  split; [done|]. rewrite E, El, len_app. simpl. rewrite Hc.
  pose proof (len_nonneg l). pose proof (qr_size _ _ HR).
  rewrite u32_small; [|unfold is_u32]; unfold len in *; cbn; lia.
Qed.

Lemma oq_get_rep q l b :
  oq_rep q (b :: l) -> q_peek (q_count 1 q) = Some b /\ is_u8 b /\
  oq_rep (q_advance (q_count 1 q)) l.
Proof.
  intros [HR Hc]. destruct (q_read_rep (q_count 1 q) l b) as (E & Hb & HR' & Ec & Eb & _);
    [by apply q_count_rep|]. split_and!; [done..|]. split; [done|]. rewrite Ec, Eb. simpl. rewrite Hc.
  pose proof (r_len _ _ _ _ (qr_ring _ _ HR)). pose proof (qr_size _ _ HR).
  unfold len in *. cbn [length] in *. rewrite u32_small; [lia|]. unfold is_u32. lia.
Qed.

(** ** The handler side *)

Section Handler.
Context `{Config, App}.
Variable idle : tid.
Local Abbreviation KI := (KInv idle).

Lemma set_k_ioq_inv fl s f : KI fl (set_k_ioq f s) <-> KI fl s.
Proof. split; intros HI; kinv_open HI; split; kinv_same. Qed.

Lemma set_k_ioq_istep s s' f : istep idle s s' -> istep idle (set_k_ioq f s) (set_k_ioq f s').
Proof.
  intros []. split; try done; [by apply set_k_ioq_inv|].
  unfold kdata in *. simpl. congruence.
Qed.

(** The first waiting thread, if any, is made ready. *)
Lemma wake_some s qp msg :
  locked_I s -> KI None s ->
  exists s', (whenb notempty s (QIO qp) then wake_one qp msg) s = Done tt s' /\ istep idle s s' /\
    k_q s' (QIO qp) = tail (k_q s (QIO qp)).
Proof.
  intros HL HI. unfold notempty, isempty. destruct (k_q s (QIO qp)) as [|w r] eqn:Hq; cbn [negb].
  - exists s. rewrite Hq. split_and!; [done| |done]. by apply istep_refl.
  - destruct (wake_first_eq idle s (QIO qp) w r HI Hq eq_refl msg HL) as [E Hi].
    exists (wake_first s (QIO qp) w r msg). split_and!; [done..|]. by apply wake_first_q.
Qed.

Lemma upd_ioq_twice qp f g s :
  keq (upd_ioq qp g (upd_ioq qp f s)) (upd_ioq qp (fun q => g (f q)) s).
Proof.
  split; try done. intros p. simpl. rewrite !fn_insert_dec. case_decide; [|done].
  by rewrite decide_True by done.
Qed.

Lemma chIQPutI_eq s iqp b l :
  locked_I s -> KI None s -> iq_rep (k_ioq s iqp) l -> is_u8 b ->
  (len l = len (q_buffer (k_ioq s iqp)) -> chIQPutI iqp b s = Done Q_FULL s) /\
  (len l < len (q_buffer (k_ioq s iqp)) -> exists s',
     chIQPutI iqp b s = Done Q_OK s' /\ iq_rep (k_ioq s' iqp) (l ++ [b]) /\
     istep idle s (set_k_ioq (k_ioq s) s') /\
     k_q s' (QIO iqp) = tail (k_q s (QIO iqp))).
Proof.
  intros HL HI HR Hb.
  assert (chIQPutI iqp b s =
    (if len l =? len (q_buffer (k_ioq s iqp)) then mret' Q_FULL
     else modify (upd_ioq iqp (q_count 1)) ;;; modify (upd_ioq iqp (q_write b)) ;;;
          (fun s => (whenb notempty s (QIO iqp) then wake_one iqp Q_OK) s) ;;; mret' Q_OK) s) as ->.
  { unfold chIQPutI. rewrite classI_bind by done. unfold bind at 1, gets. cbn [obind].
    by rewrite (iq_full _ _ HR). }
  split; intros Hlt; [by rewrite (proj2 (Z.eqb_eq _ _))|].
  rewrite (proj2 (Z.eqb_neq _ _)) by lia.
  unfold bind at 1, modify at 1. cbn [obind]. unfold bind at 1, modify at 1. cbn [obind].
  set (s1 := upd_ioq iqp (q_write b) (upd_ioq iqp (q_count 1) s)).
  assert (k_ioq s1 iqp = q_write b (q_count 1 (k_ioq s iqp))) as E1
    by (unfold s1; simpl; by rewrite !fn_insert_eq).
  destruct (wake_some s1 iqp Q_OK) as (s' & E & Hi & Hq); [done|by apply set_k_ioq_inv, set_k_ioq_inv|].
  exists s'. split_and!.
  - unfold bind at 1. cbv beta. by rewrite E.
  - pose proof (is_data _ _ _ Hi) as Hd. unfold kdata in Hd.
    assert (k_ioq s' = k_ioq s1) as -> by congruence. rewrite E1. by apply iq_put_rep.
  - apply (set_k_ioq_istep _ _ (k_ioq s)) in Hi. destruct s. exact Hi.
  - done.
Qed.

Lemma chOQGetI_eq s oqp l :
  locked_I s -> KI None s -> oq_rep (k_ioq s oqp) l ->
  match l with
  | [] => chOQGetI oqp s = Done Q_EMPTY s
  | b :: l' => exists s',
      chOQGetI oqp s = Done b s' /\ is_u8 b /\ oq_rep (k_ioq s' oqp) l' /\
      istep idle s (set_k_ioq (k_ioq s) s') /\
      k_q s' (QIO oqp) = tail (k_q s (QIO oqp))
  end.
Proof.
  intros HL HI HR.
  assert (chOQGetI oqp s =
    (if len l =? 0 then mret' Q_EMPTY
     else modify (upd_ioq oqp (q_count 1)) ;;; let! b := q_read oqp in
          (fun s => (whenb notempty s (QIO oqp) then wake_one oqp Q_OK) s) ;;; mret' b) s) as ->.
  { unfold chOQGetI. rewrite classI_bind by done. unfold bind at 1, gets. cbn [obind].
    by rewrite (oq_empty _ _ HR). }
  destruct l as [|b l]; [done|].
  rewrite (proj2 (Z.eqb_neq (len (b :: l)) 0)) by (unfold len; cbn [length]; lia).
  destruct (oq_get_rep _ _ _ HR) as (Ep & Hb & HR').
  unfold bind at 1, modify at 1. cbn [obind]. unfold bind at 1, q_read.
  assert (k_ioq (upd_ioq oqp (q_count 1) s) oqp = q_count 1 (k_ioq s oqp)) as E0
    by (simpl; by rewrite fn_insert_eq).
  rewrite E0, Ep. cbn [obind].
  set (s1 := upd_ioq oqp q_advance (upd_ioq oqp (q_count 1) s)).
  assert (k_ioq s1 oqp = q_advance (q_count 1 (k_ioq s oqp))) as E1
    by (unfold s1; simpl; by rewrite !fn_insert_eq).
  destruct (wake_some s1 oqp Q_OK) as (s' & E & Hi & Hq); [done|by apply set_k_ioq_inv, set_k_ioq_inv|].
  exists s'. split_and!; try done.
  - unfold bind at 1. cbv beta. by rewrite E.
  - pose proof (is_data _ _ _ Hi) as Hd. unfold kdata in Hd.
    assert (k_ioq s' = k_ioq s1) as -> by congruence. by rewrite E1.
  - apply (set_k_ioq_istep _ _ (k_ioq s)) in Hi. destruct s. exact Hi.
Qed.

(** A reset empties the queue and releases every waiting thread with
    [Q_RESET]. *)
Lemma chIQResetI_eq s iqp l :
  locked_I s -> KI None s -> iq_rep (k_ioq s iqp) l ->
  exists s', chIQResetI iqp s = Done tt s' /\ iq_rep (k_ioq s' iqp) [] /\
    k_q s' (QIO iqp) = [] /\ istep idle s (set_k_ioq (k_ioq s) s') /\
    (forall u, u ∈ k_q s (QIO iqp) ->
       p_state (k_thd s' u) = THD_STATE_READY /\ p_u (k_thd s' u) = U_msg Q_RESET).
Proof.
  intros HL HI [[HR Hs Hb] Hc]. unfold chIQResetI. rewrite classI_bind by done.
  unfold bind at 1, modify at 1. cbn [obind]. set (s1 := upd_ioq _ _ s). unfold wake_all.
  destruct (wake_loop_eq idle (QIO iqp) Q_RESET eq_refl (k_q s1 (QIO iqp)) s1)
    as (s' & E & Hi & Hq & Ht); [by apply set_k_ioq_inv|done|done|].
  exists s'. split_and!; try done.
  - pose proof (is_data _ _ _ Hi) as Hd. unfold kdata in Hd.
    assert (k_ioq s' = k_ioq s1) as -> by congruence. unfold s1. simpl. rewrite fn_insert_eq.
    split; [|done]. split; simpl; try done. apply ring_reset. apply HR || (destruct HR; lia).
  - apply (set_k_ioq_istep _ _ (k_ioq s)) in Hi. destruct s. exact Hi.
  - intros u Hu. rewrite Ht. simpl. by rewrite decide_True.
Qed.
End Handler.

(** ** The thread side

    What the rest of the system promises about queue [qp] while a thread is
    blocked on it, and what the thread may do to it in turn. *)

Class QueueInv (J : kdata_t -> Prop) qp (ok : IOQueue -> Prop) := {
  qi_ok : forall s, J (kdata s) -> ok (k_ioq s qp);
  qi_set : forall s f, J (kdata s) -> (forall p, p <> qp -> f p = k_ioq s p) -> ok (f qp) ->
    J (kdata (set_k_ioq f s))
}.

(** The invariant that speaks of this queue alone. *)
Definition only_queue qp (ok : IOQueue -> Prop) : kdata_t -> Prop :=
  fun d => ok (d.1.1.1.1.1.2 qp).

#[export] Instance only_queue_inv qp ok : QueueInv (only_queue qp ok) qp ok.
Proof.
  split.
  - intros s. done.
  - intros s f _ _ Hq. exact Hq.
Qed.

Definition iq_ok q : Prop := exists l, iq_rep q l.
Definition oq_ok q : Prop := exists l, oq_rep q l.

(** The notification callbacks run under the lock and leave the state as
    an S-class function finds it. *)
Class NotifyOK `{Config} `{App} (idle : tid) (J : kdata_t -> Prop) :=
  notify_ok : forall t ml fn qp s, Sst idle J t ml s ->
    osafe (grd idle J) (rely idle J t) (fun _ s' => Sst idle J t ml s') (user_qnotify fn qp s).

Section Thread.
Context `{Config, App}.
Variable idle : tid.
Variable J : kdata_t -> Prop.
Context `{NotifyOK idle J}.
Local Abbreviation KI := (KInv idle).
Local Abbreviation safe t := (osafe (grd idle J) (rely idle J t)).

Lemma q_call_safe t ml nfy qp s :
  Sst idle J t ml s -> safe t (fun _ s' => Sst idle J t ml s') (q_call nfy qp s).
Proof. intros HS. destruct nfy; simpl; [by apply notify_ok|done]. Qed.

(** Writing to the queue under the lock. *)
Lemma set_ioq_Sst qp ok t ml f s `{!QueueInv J qp ok} :
  Sst idle J t ml s -> (forall p, p <> qp -> f p = k_ioq s p) -> ok (f qp) ->
  Sst idle J t ml (set_k_ioq f s).
Proof.
  intros [(HI & [HJ Hub] & Hc & HL & Hn & Hm) Hhp] Hf Hok. split; [|done].
  split_and!; try done; [by apply set_k_ioq_inv|]. split.
  - by apply qi_set.
  - by apply (same_prio_UB s).
Qed.

Lemma Sst_ok qp ok t ml s `{!QueueInv J qp ok} : Sst idle J t ml s -> ok (k_ioq s qp).
Proof. intros [(_ & [HJ _] & _) _]. by apply qi_ok. Qed.

Lemma qwait_safe t ml qp time s :
  Sst idle J t ml s -> t <> idle -> 0 <= time < 2^32 ->
  safe t (fun _ s' => Sst idle J t ml s') (qwait qp time s).
Proof.
  intros [HM Hhp] Hid Htime. pose proof HM as (HI & [_ Hub] & Hc & HL & _).
  unfold qwait. destruct (Z.eqb_spec TIME_IMMEDIATE time) as [Ht|Ht]; [done|].
  unfold TIME_IMMEDIATE in Ht.
  unfold bind at 1, currp, gets. cbn [obind]. unfold bind at 1, set_thd, modify. cbn [obind].
  unfold bind at 1, queue_insert, modify. cbn [obind].
  change (upd_q _ _ _) with (enq (QIO qp) (k_q s (QIO qp) ++ [k_curr s]) s).
  apply (chSchGoSleepTimeoutS_rule idle J t ml); [by apply Mst_weak|done| |done|lia|done].
  apply sleeper_queue; try done; [congruence| |by apply enq_UB].
  by rewrite (Permutation_app_comm _ [k_curr s]).
Qed.

Lemma qwait_loop_safe blocked bad t ml qp time : forall rounds s,
  Sst idle J t ml s -> t <> idle -> 0 <= time < 2^32 ->
  safe t (fun r s' => Sst idle J t ml s' /\
            match r with
            | Some msg => bad msg = true
            | None => blocked (k_ioq s' qp) = false
            end) (qwait_loop rounds blocked bad qp time s).
Proof.
  induction rounds as [|n IH]; intros s HS Hid Ht; cbn [qwait_loop];
    unfold bind at 1, gets; cbn [obind];
    destruct (blocked (k_ioq s qp)) eqn:Hb; try done.
  apply osafe_bind. eapply osafe_mono; [|by apply (qwait_safe t ml)].
  intros msg s' HS'. simpl. destruct (bad msg) eqn:Hbad; [done|]. by apply IH.
Qed.

(** *** Reading *)

Section Input.
Variable iqp : Z.
Context `{!QueueInv J iqp iq_ok}.

Lemma iq_take_eq t ml s :
  Sst idle J t ml s -> chIQIsEmptyI (k_ioq s iqp) = false ->
  exists b s', iq_take iqp s = Done b s' /\ is_u8 b /\ Sst idle J t ml s' /\
    forall l, iq_rep (k_ioq s iqp) l -> exists l', l = b :: l' /\ iq_rep (k_ioq s' iqp) l'.
Proof.
  intros HS He. destruct (Sst_ok iqp iq_ok t ml s HS) as [l HR].
  unfold chIQIsEmptyI, chQSpaceI in He. apply Z.leb_gt in He.
  destruct l as [|b l]; [destruct HR as [_ HR]; rewrite HR in He; by unfold len in He|].
  destruct (iq_get_rep _ _ _ HR) as (Ep & Hb & HR').
  set (s' := upd_ioq iqp q_advance (upd_ioq iqp (q_count (-1)) s)).
  assert (k_ioq s' iqp = q_advance (q_count (-1) (k_ioq s iqp))) as E'
    by (unfold s'; simpl; by rewrite !fn_insert_eq).
  exists b, s'. split_and!.
  - unfold iq_take, bind, modify. cbn [obind]. unfold q_read.
    assert (k_ioq (upd_ioq iqp (q_count (-1)) s) iqp = q_count (-1) (k_ioq s iqp)) as ->
      by (simpl; by rewrite fn_insert_eq).
    by rewrite Ep.
  - done.
  - apply (set_ioq_Sst iqp iq_ok t ml (k_ioq s') s); [done| |].
    + intros p Hp. simpl. by rewrite !fn_insert_ne by congruence.
    + rewrite <-E' in HR'. by exists l.
  - intros l0 HR0. rewrite E'. destruct l0 as [|b0 l0].
    + destruct HR0 as [_ HR0]. rewrite HR0 in He. by unfold len in He.
    + destruct (iq_get_rep _ _ _ HR0) as (Ep0 & _ & HR0'). rewrite Ep in Ep0.
      injection Ep0 as <-. eauto.
Qed.

(** The result is a byte, or the message that ended the wait. *)
Lemma chIQGetTimeout_safe t ml rounds time s :
  Ust idle J t ml s -> t <> idle -> 0 <= time < 2^32 ->
  safe t (fun r s' => Ust idle J t ml s' /\ (is_u8 r \/ r < Q_OK))
    (chIQGetTimeout rounds iqp time s).
Proof.
  intros HU Hid Ht. apply (lock_bind idle J t ml); [done|]. intros HS.
  unfold bind at 1, gets. cbn [obind]. apply osafe_bind.
  eapply osafe_mono; [|by apply (q_call_safe t ml)]. intros [] s1 HS1. apply osafe_bind.
  eapply osafe_mono; [|by apply (qwait_loop_safe _ _ t ml)].
  intros [msg|] s2 [HS2 Hr].
  - apply (unlock_bind idle J t ml); [done|]. intros s3 HU3. split; [done|]. right. lia.
  - destruct (iq_take_eq t ml s2 HS2 Hr) as (b & s3 & E & Hb & HS3 & _).
    rewrite (done_bind _ _ _ _ _ E). apply (unlock_bind idle J t ml); [done|].
    intros s4 HU4. split; [done|by left].
Qed.

Lemma iq_read_loop_safe t ml rounds nfy time : forall n acc s,
  (0 < n)%nat -> Sst idle J t ml s -> t <> idle -> 0 <= time < 2^32 -> Forall is_u8 acc ->
  safe t (fun r s' => Ust idle J t ml s' /\ Forall is_u8 r /\ (length r <= length acc + n)%nat)
    (iq_read_loop rounds n nfy iqp acc time s).
Proof.
  induction n as [|n IH]; intros acc s Hn HS Hid Ht Hacc; [lia|]. cbn [iq_read_loop].
  apply osafe_bind. eapply osafe_mono; [|by apply (q_call_safe t ml)]. intros [] s1 HS1.
  apply osafe_bind. eapply osafe_mono; [|by apply (qwait_loop_safe _ _ t ml)].
  intros [msg|] s2 [HS2 Hr].
  - apply (unlock_bind idle J t ml); [done|]. intros s3 HU3. split_and!; [done..|lia].
  - destruct (iq_take_eq t ml s2 HS2 Hr) as (b & s3 & E & Hb & HS3 & _).
    rewrite (done_bind _ _ _ _ _ E). apply (unlock_bind idle J t ml); [done|].
    intros s4 HU4. destruct n as [|n].
    + simpl. split_and!; [done|by constructor|lia].
    + apply (lock_bind idle J t ml); [done|]. intros HS5.
      eapply osafe_mono; [|apply IH; try done; [lia|by constructor]].
      intros r s6 (HU6 & Hb6 & Hl6). split_and!; try done. simpl in Hl6. lia.
Qed.

Lemma chIQReadTimeout_safe t ml rounds n time s :
  Ust idle J t ml s -> t <> idle -> 0 <= time < 2^32 -> 0 < n ->
  safe t (fun r s' => Ust idle J t ml s' /\ Forall is_u8 r /\ len r <= n)
    (chIQReadTimeout rounds iqp n time s).
Proof.
  intros HU Hid Ht Hn. unfold chIQReadTimeout. unfold bind at 1, gets. cbn [obind].
  rewrite check_bind by (by rewrite (proj2 (Z.ltb_lt _ _))).
  apply (lock_bind idle J t ml); [done|]. intros HS. apply osafe_bind.
  eapply osafe_mono; [|apply (iq_read_loop_safe t ml); try done; lia].
  intros r s' (HU' & Hb & Hl). simpl. split_and!; [done|by apply Forall_rev|].
  unfold len. rewrite length_rev. simpl in Hl. lia.
Qed.
End Input.

(** *** Writing *)

Section Output.
Variable oqp : Z.
Context `{!QueueInv J oqp oq_ok}.

Lemma oq_store_eq t ml b s :
  Sst idle J t ml s -> is_u8 b -> chOQIsFullI (k_ioq s oqp) = false ->
  exists s', oq_store oqp b s = Done tt s' /\ Sst idle J t ml s' /\
    forall l, oq_rep (k_ioq s oqp) l -> oq_rep (k_ioq s' oqp) (l ++ [b]).
Proof.
  intros HS Hb He. unfold chOQIsFullI, chQSpaceI in He. apply Z.leb_gt in He.
  set (s' := upd_ioq oqp (q_write b) (upd_ioq oqp (q_count (-1)) s)).
  assert (k_ioq s' oqp = q_write b (q_count (-1) (k_ioq s oqp))) as E'
    by (unfold s'; simpl; by rewrite !fn_insert_eq).
  assert (forall l, oq_rep (k_ioq s oqp) l -> oq_rep (k_ioq s' oqp) (l ++ [b])) as HR.
  { intros l HR. rewrite E'. apply oq_put_rep; try done. destruct HR as [_ Hc]. lia. }
  exists s'. split_and!; [done| |done].
  apply (set_ioq_Sst oqp oq_ok t ml (k_ioq s') s); [done| |].
  - intros p Hp. simpl. by rewrite !fn_insert_ne by congruence.
  - destruct (Sst_ok oqp oq_ok t ml s HS) as [l Hl]. exists (l ++ [b]). by apply HR.
Qed.

Lemma chOQPutTimeout_safe t ml rounds b time s :
  Ust idle J t ml s -> t <> idle -> 0 <= time < 2^32 -> is_u8 b ->
  safe t (fun r s' => Ust idle J t ml s' /\ r <= Q_OK) (chOQPutTimeout rounds oqp b time s).
Proof.
  intros HU Hid Ht Hb. apply (lock_bind idle J t ml); [done|]. intros HS. apply osafe_bind.
  eapply osafe_mono; [|by apply (qwait_loop_safe _ _ t ml)].
  intros [msg|] s2 [HS2 Hr].
  - apply (unlock_bind idle J t ml); [done|]. intros s3 HU3. split; [done|]. lia.
  - destruct (oq_store_eq t ml b s2 HS2 Hb Hr) as (s3 & E & HS3 & _).
    rewrite (done_bind _ _ _ _ _ E). unfold bind at 1, gets. cbn [obind]. apply osafe_bind.
    eapply osafe_mono; [|by apply (q_call_safe t ml)]. intros [] s4 HS4.
    apply (unlock_bind idle J t ml); [done|]. intros s5 HU5. done.
Qed.

Lemma oq_write_loop_safe t ml rounds nfy time : forall bs w s,
  bs <> [] -> Sst idle J t ml s -> t <> idle -> 0 <= time < 2^32 -> Forall is_u8 bs ->
  safe t (fun r s' => Ust idle J t ml s' /\ w <= r <= w + len bs)
    (oq_write_loop rounds nfy oqp bs w time s).
Proof.
  induction bs as [|b bs IH]; intros w s Hn HS Hid Ht Hbs; [done|]. cbn [oq_write_loop].
  apply list.Forall_cons in Hbs as [Hb Hbs].
  apply osafe_bind. eapply osafe_mono; [|by apply (qwait_loop_safe _ _ t ml)].
  intros [msg|] s2 [HS2 Hr].
  - apply (unlock_bind idle J t ml); [done|]. intros s3 HU3. split; [done|]. unfold len. simpl. lia.
  - destruct (oq_store_eq t ml b s2 HS2 Hb Hr) as (s3 & E & HS3 & _).
    rewrite (done_bind _ _ _ _ _ E). apply osafe_bind.
    eapply osafe_mono; [|by apply (q_call_safe t ml)]. intros [] s4 HS4.
    apply (unlock_bind idle J t ml); [done|]. intros s5 HU5.
    destruct bs as [|b' bs]; [simpl; split; [done|unfold len; simpl; lia]|].
    apply (lock_bind idle J t ml); [done|]. intros HS6.
    eapply osafe_mono; [|by apply IH]. intros r s7 [HU7 Hr7]. split; [done|].
    unfold len in *. cbn [length] in *. lia.
Qed.

Lemma chOQWriteTimeout_safe t ml rounds bs time s :
  Ust idle J t ml s -> t <> idle -> 0 <= time < 2^32 -> bs <> [] -> Forall is_u8 bs ->
  safe t (fun r s' => Ust idle J t ml s' /\ 0 <= r <= len bs)
    (chOQWriteTimeout rounds oqp bs time s).
Proof.
  intros HU Hid Ht Hn Hbs. unfold chOQWriteTimeout. unfold bind at 1, gets. cbn [obind].
  rewrite check_bind by (destruct bs; [done|apply Z.ltb_lt; simpl; lia]).
  apply (lock_bind idle J t ml); [done|]. intros HS.
  by apply (oq_write_loop_safe t ml rounds _ time bs 0).
Qed.
End Output.
End Thread.
