(* ===== verification/HeapOK.v ===== *)
(** * The heap: correctness

    The free list of a heap is a sequence of blocks in address order, no two
    of which touch.  [chHeapAlloc()] and [chHeapFree()] are shown to compute
    first fit and coalescing insertion on that sequence, and an allocation
    followed by the release of the block restores it. *)
From S2P Require Import Prelude Monad Types ThdLists VT Sched Sem Mtx.
From S2P Require Import Mem Inv InvPrim InvSched Rules Scenario Wake SemOK.
From S2P Require Import MtxOK.

(** A block: the address of its header and its size. *)
Definition fblock : Type := Z * Z.
Definition bend (b : fblock) : Z := b.1 + HDR + b.2.

Implicit Types (s : kstate) (m : Z -> Z) (L : list fblock) (b : fblock) (a n q size : Z).

(** ** Free lists *)

Definition block_ok b : Prop :=
  8 <= b.1 /\ b.1 `mod` 8 = 0 /\ 0 <= b.2 /\ b.2 `mod` 8 = 0 /\ bend b <= 2^32.

(** In address order, with a gap between any two blocks. *)
Fixpoint wfl (lo : Z) L : Prop :=
  match L with
  | [] => True
  | b :: L => lo < b.1 /\ block_ok b /\ wfl (bend b) L
  end.

(** The list in memory, from the header at [q]. *)
Fixpoint chain m q L : Prop :=
  match L with
  | [] => m q = NULL
  | b :: L => m q = b.1 /\ m (b.1 + 4) = b.2 /\ chain m b.1 L
  end.

(** Clear of the 16 bytes from [q0], where the list header is. *)
Definition clear q0 b : Prop := q0 + 16 <= b.1 \/ bend b <= q0.

Record flist m q0 L : Prop := {
  fl_chain : chain m q0 L;
  fl_wf : wfl 0 L;
  fl_clear : Forall (clear q0) L;
  fl_head : m (q0 + 4) = 0;
  fl_q0 : 0 < q0
}.

(** ** The specification *)

(** First fit. *)
Fixpoint fl_alloc size L : option (fblock * list fblock) :=
  match L with
  | [] => None
  | b :: L =>
      if size <=? b.2 then
        if b.2 <? size + HDR then Some (b, L)
        else Some ((b.1, size), (b.1 + HDR + size, b.2 - HDR - size) :: L)
      else
        match fl_alloc size L with
        | Some (r, L') => Some (r, b :: L')
        | None => None
        end
  end.

(** The new block before [L], joined to the first one if they touch. *)
Definition fl_join b L : list fblock :=
  match L with
  | c :: L' => if bend b =? c.1 then (b.1, b.2 + (c.2 + HDR)) :: L' else b :: L
  | [] => [b]
  end.

Fixpoint fl_free b L : list fblock :=
  match L with
  | [] => [b]
  | c :: L' =>
      if b.1 <? c.1 then fl_join b L
      else if bend c =? b.1 then
        match fl_join b L' with
        | d :: L'' => (c.1, c.2 + (d.2 + HDR)) :: L''
        | [] => [c]
        end
      else c :: fl_free b L'
  end.

(** The bytes in the list, headers included. *)
Definition fl_bytes L : Z := foldr (fun b acc => HDR + b.2 + acc) 0 L.

(** A block outside the list. *)
Definition apart b L : Prop := Forall (fun c => bend b <= c.1 \/ bend c <= b.1) L.

(** ** Facts on sequences *)

Lemma bend_gt b : block_ok b -> b.1 + 8 <= bend b.
Proof. unfold block_ok, bend, HDR. lia. Qed.

Lemma wfl_weak lo lo' L : lo' <= lo -> wfl lo L -> wfl lo' L.
Proof. destruct L; simpl; [done|]. intros Hle (? & ? & ?). split_and!; try done. lia. Qed.

Lemma wfl_in lo L b : wfl lo L -> b ∈ L -> lo < b.1 /\ block_ok b.
Proof.
  revert lo. induction L as [|c L IH]; intros lo Hw Hb; [set_solver|].
  destruct Hw as (H1 & H2 & H3). apply list_elem_of_In in Hb. destruct Hb as [->|Hb]; [done|].
  apply list_elem_of_In in Hb. destruct (IH _ H3 Hb) as [H4 H5]. pose proof (bend_gt _ H2).
  split; [|done]. unfold block_ok in *. lia.
Qed.

Lemma wfl_app lo L1 b L2 :
  wfl lo (L1 ++ b :: L2) -> Forall (fun c => bend c < b.1) L1 /\ block_ok b /\ wfl (bend b) L2 /\
  lo < b.1 /\ wfl lo L1.
Proof.
  revert lo. induction L1 as [|c L1 IH]; intros lo; simpl.
  - intros (H1 & H2 & H3). by split_and!.
  - intros (H1 & H2 & H3). destruct (IH _ H3) as (F & Hb & Hw & Hlt & Hw1).
    pose proof (bend_gt _ H2). split_and!; try done; [by constructor|lia].
Qed.

(** The number of blocks is bounded by the address space. *)
Lemma wfl_length lo L : 0 <= lo -> lo <= 2^32 -> wfl lo L ->
  lo + 8 * Z.of_nat (length L) <= 2^32.
Proof.
  revert lo. induction L as [|c L IH]; intros lo H0 H1 Hw; cbn [length]; [lia|].
  destruct Hw as (Hlt & Hb & Hw). pose proof (bend_gt _ Hb).
  assert (bend c <= 2^32) by apply Hb.
  specialize (IH (bend c) ltac:(unfold block_ok in *; lia) ltac:(done) Hw).
  unfold block_ok in *. lia.
Qed.

Lemma wfl_rounds L : wfl 0 L -> Z.of_nat (length L) < 2^29.
Proof.
  intros Hw. destruct L as [|c L]; [simpl; lia|]. destruct Hw as (_ & Hb & Hw).
  pose proof (bend_gt _ Hb).
  pose proof (wfl_length (bend c) L ltac:(unfold block_ok in *; lia) ltac:(apply Hb) Hw).
  cbn [length]. unfold block_ok in *. lia.
Qed.

Lemma aligned_ne x y : x `mod` 8 = 0 -> y `mod` 8 = 0 -> x + 4 <> y.
Proof. intros Hx Hy <-. rewrite Z.add_mod, Hx in Hy by lia. done. Qed.

Lemma aligned_add x y : x `mod` 8 = 0 -> y `mod` 8 = 0 -> (x + y) `mod` 8 = 0.
Proof. intros Hx Hy. by rewrite Z.add_mod, Hx, Hy by lia. Qed.

Lemma aligned_sub x y : x `mod` 8 = 0 -> y `mod` 8 = 0 -> (x - y) `mod` 8 = 0.
Proof. intros Hx Hy. by rewrite Zminus_mod, Hx, Hy. Qed.

Lemma Forall_at {A} (P : A -> Prop) (l : list A) x : Forall P l -> x ∈ l -> P x.
Proof. rewrite List.Forall_forall, list_elem_of_In. auto. Qed.

(** ** The list in memory *)

(** The header before [R] in [L1 ++ R]. *)
Fixpoint lastp q L : Z :=
  match L with
  | [] => q
  | b :: L => lastp b.1 L
  end.

(** The part of the list before [lastp q L]. *)
Fixpoint cseg m q L : Prop :=
  match L with
  | [] => True
  | b :: L => m q = b.1 /\ m (b.1 + 4) = b.2 /\ cseg m b.1 L
  end.

Lemma chain_app m q L1 L2 : chain m q (L1 ++ L2) <-> cseg m q L1 /\ chain m (lastp q L1) L2.
Proof. revert q. induction L1 as [|b L1 IH]; intros q; simpl; [tauto|]. rewrite IH. tauto. Qed.

Lemma lastp_app q L b : lastp q (L ++ [b]) = b.1.
Proof. revert q. induction L as [|c L IH]; intros q; simpl; [done|apply IH]. Qed.

Lemma lastp_in q L : lastp q L = q /\ L = [] \/ exists L' b, L = L' ++ [b] /\ lastp q L = b.1.
Proof.
  destruct L as [|b L'] using rev_ind; [by left|]. right. exists L', b. by rewrite lastp_app.
Qed.

(** The words of the list are the header, and the two words of each block;
    [cseg] does not use the last link. *)
Lemma cseg_frame m m' q L lo :
  wfl lo L -> (L <> [] -> m' q = m q) ->
  (forall b, b ∈ L -> m' (b.1 + 4) = m (b.1 + 4) /\ (b.1 <> lastp q L -> m' b.1 = m b.1)) ->
  cseg m q L -> cseg m' q L.
Proof.
  revert q lo. induction L as [|c L IH]; intros q lo Hw Hq Hf; simpl; [done|].
  intros (E1 & E2 & Hc). destruct Hw as (_ & Hb & Hw).
  destruct (Hf c ltac:(set_solver)) as [F1 F2]. simpl in F2.
  split_and!; [by rewrite Hq|by rewrite F1|].
  eapply IH; [exact Hw| | |exact Hc].
  - intros Hne. apply F2. destruct (lastp_in c.1 L) as [[_ ?]|(L' & b & -> & ->)]; [done|].
    apply wfl_app in Hw as (_ & _ & _ & Hlt & _). pose proof (bend_gt _ Hb). lia.
  - intros b Hin. apply Hf. set_solver.
Qed.

Lemma chain_frame m m' q q' L :
  m' q' = m q -> (forall b, b ∈ L -> m' b.1 = m b.1 /\ m' (b.1 + 4) = m (b.1 + 4)) ->
  chain m q L -> chain m' q' L.
Proof.
  revert q q'. induction L as [|c L IH]; intros q q' Hq Hf; simpl; [by rewrite Hq|].
  intros (E1 & E2 & Hc). destruct (Hf c ltac:(set_solver)) as [F1 F2].
  split_and!; [by rewrite Hq|by rewrite F2|]. apply (IH c.1); [done| |done].
  intros b Hin. apply Hf. set_solver.
Qed.

Lemma wfl_app_r lo L1 L2 : wfl lo (L1 ++ L2) -> wfl lo L2.
Proof.
  revert lo. induction L1 as [|c L1 IH]; intros lo; simpl; [done|].
  intros (H1 & H2 & H3). apply IH in H3. eapply wfl_weak; [|exact H3].
  pose proof (bend_gt _ H2). lia.
Qed.

Lemma wfl_app_l lo L1 L2 : wfl lo (L1 ++ L2) -> wfl lo L1.
Proof.
  revert lo. induction L1 as [|c L1 IH]; intros lo; simpl; [done|].
  intros (H1 & H2 & H3). split_and!; [done|done|by apply IH].
Qed.

Lemma wfl_fits lo L b : wfl lo L -> b ∈ L -> 0 <= b.2 /\ b.2 + 16 <= 2^32 /\ 8 <= b.1.
Proof. intros Hw Hb. destruct (wfl_in _ _ _ Hw Hb) as [_ Hok]. unfold block_ok, bend, HDR in Hok. lia. Qed.

(** Putting blocks together again around a changed middle. *)
Lemma wfl_paste lo L1 L2 :
  wfl lo L1 -> 0 <= lo -> wfl lo L2 ->
  (forall b c, b ∈ L1 -> c ∈ L2 -> bend b < c.1) -> wfl lo (L1 ++ L2).
Proof.
  revert lo. induction L1 as [|c L1 IH]; intros lo; simpl; [done|].
  intros (H1 & H2 & H3) H0 Hw Hlt. split_and!; [done|done|]. pose proof (bend_gt _ H2).
  apply IH; [done|lia| |set_solver].
  destruct L2 as [|d L2]; [done|]. destruct Hw as (_ & Hd & Hw). split_and!; [|done|done].
  apply Hlt; set_solver.
Qed.

(** Changing the list from the header [lastp q0 L1] on. *)
Lemma flist_splice m m' q0 L1 R R' :
  flist m q0 (L1 ++ R) ->
  m' (q0 + 4) = m (q0 + 4) -> (L1 <> [] -> m' q0 = m q0) ->
  (forall b, b ∈ L1 -> m' (b.1 + 4) = m (b.1 + 4) /\ (b.1 <> lastp q0 L1 -> m' b.1 = m b.1)) ->
  wfl 0 (L1 ++ R') -> Forall (clear q0) R' -> chain m' (lastp q0 L1) R' ->
  flist m' q0 (L1 ++ R').
Proof.
  intros [Hc Hw Hf Hh Hq] H4 H0 HL Hw' Hf' Hc'. apply chain_app in Hc as [Hs _].
  apply Forall_app in Hf as [Hf1 _]. split; [|done| |congruence|done].
  - apply chain_app. split; [|done]. eapply cseg_frame; [|exact H0|exact HL|exact Hs].
    apply (wfl_app_l 0 L1 R'). done.
  - by apply Forall_app.
Qed.

(** The header before a part of the list is apart from everything in it. *)
Lemma lastp_before q0 L1 R c :
  wfl 0 (L1 ++ R) -> Forall (clear q0) (L1 ++ R) -> c ∈ R ->
  lastp q0 L1 + 8 <= c.1 \/ bend c <= lastp q0 L1 /\ lastp q0 L1 = q0.
Proof.
  intros Hw Hf Hc. destruct (lastp_in q0 L1) as [[-> ->]|(L' & b & -> & ->)].
  - simpl in *. destruct (Forall_at _ _ _ Hf Hc) as [?|?]; [left; lia|by right].
  - left. rewrite <-app_assoc in Hw. simpl in Hw. apply wfl_app in Hw as (_ & Hb & Hw & _).
    apply (wfl_in _ _ c) in Hw; [|done]. pose proof (bend_gt _ Hb). lia.
Qed.

Lemma lastp_sizes q0 L1 c :
  wfl 0 L1 -> Forall (clear q0) L1 -> 0 < q0 -> c ∈ L1 ->
  c.1 + 4 <> lastp q0 L1 /\ c.1 <> q0 /\ c.1 + 4 <> q0.
Proof.
  intros Hw Hf H0 Hc. pose proof (Forall_at _ _ _ Hf Hc) as Hcl.
  destruct (wfl_in _ _ _ Hw Hc) as [_ Hb]. pose proof (bend_gt _ Hb).
  assert (c.1 <> q0 /\ c.1 + 4 <> q0) by (unfold clear in Hcl; lia).
  split; [|done]. destruct (lastp_in q0 L1) as [[_ ->]|(L' & b & -> & ->)]; [set_solver|].
  destruct (wfl_in _ _ b Hw ltac:(set_solver)) as [_ (_ & Hb' & _)]. destruct Hb as (_ & Hb & _).
  by apply aligned_ne.
Qed.

Lemma lastp_head q0 L1 :
  wfl 0 L1 -> Forall (clear q0) L1 -> lastp q0 L1 <> q0 + 4.
Proof.
  intros Hw Hf. destruct (lastp_in q0 L1) as [[-> _]|(L' & b & -> & ->)]; [lia|].
  pose proof (Forall_at _ _ b Hf ltac:(set_solver)) as Hcl.
  destruct (wfl_in _ _ b Hw ltac:(set_solver)) as [_ Hb]. pose proof (bend_gt _ Hb).
  unfold clear in Hcl. lia.
Qed.

(** A change confined to [lastp q0 L1] and to addresses from [lo] to [hi]
    that no other block has. *)
Lemma flist_change m m' q0 L1 R L2 lo hi :
  flist m q0 (L1 ++ R ++ L2) ->
  (forall x, x <> lastp q0 L1 -> x < lo \/ hi <= x -> m' x = m x) ->
  (forall c, c ∈ L1 -> bend c <= lo) -> (forall c, c ∈ L2 -> hi <= c.1) ->
  q0 + 8 <= lo \/ hi <= q0 ->
  forall R', wfl 0 (L1 ++ R' ++ L2) -> Forall (clear q0) R' ->
  cseg m' (lastp q0 L1) R' -> m' (lastp (lastp q0 L1) R') = m (lastp (lastp q0 L1) R) ->
  flist m' q0 (L1 ++ R' ++ L2).
Proof.
  intros HL Hm H1 H2 H0 R' Hw' Hf' Hs Hl. pose proof HL as [Hc Hw Hf Hh Hq].
  pose proof (wfl_app_l _ _ _ Hw) as Hw1. apply Forall_app in Hf as Hf'1. destruct Hf'1 as [Hf1 Hf2].
  apply chain_app in Hc as [_ Hc]. apply chain_app in Hc as [_ Hc].
  pose proof (lastp_head _ _ Hw1 Hf1) as Hqh.
  apply (flist_splice m m' q0 L1 (R ++ L2)); [done| | | |done| |].
  - apply Hm; [done|lia].
  - intros Hne. apply Hm; [|lia]. destruct (lastp_in q0 L1) as [[_ ?]|(L' & b & -> & ->)]; [done|].
    pose proof (lastp_sizes _ _ b Hw1 Hf1 Hq ltac:(set_solver)). lia.
  - intros b Hb. pose proof (lastp_sizes _ _ b Hw1 Hf1 Hq Hb) as (E1 & _).
    specialize (H1 b Hb). destruct (wfl_in _ _ _ Hw1 Hb) as [_ Hok]. pose proof (bend_gt _ Hok).
    split; [apply Hm; [done|lia]|]. intros Hne. apply Hm; [done|lia].
  - apply Forall_app. split; [done|]. by apply Forall_app in Hf2 as [_ ?].
  - apply chain_app. split; [done|]. apply (chain_frame m _ _ _ _ Hl); [|done].
    intros b Hb. specialize (H2 b Hb).
    destruct (lastp_before _ _ _ b Hw Hf ltac:(set_solver)) as [?|[? _]];
      pose proof (wfl_fits _ _ b Hw ltac:(set_solver)); unfold bend, HDR in *;
      (split; apply Hm; lia).
Qed.

(** ** Allocation *)

Section Alloc.
Context `{Config}.

(** The search ends, at the header before the first block that fits. *)
Lemma alloc_scan_ok s size heapp L :
  flist (k_mem s) (h_free heapp) L ->
  exists r, alloc_scan s size heapp = inr r /\
  match r with
  | None => Forall (fun b => b.2 < size) L
  | Some qp => exists L1 b L2, L = L1 ++ b :: L2 /\ qp = lastp (h_free heapp) L1 /\
      Forall (fun b => b.2 < size) L1 /\ size <= b.2 /\ hnext s qp = b.1 /\ hsize s b.1 = b.2
  end.
Proof.
  intros HL. unfold alloc_scan.
  apply (iter_until_rounds _ (fun k qp => exists L1 R, L = L1 ++ R /\ k = length R /\
    qp = lastp (h_free heapp) L1 /\ Forall (fun b => b.2 < size) L1)) with (n := length L).
  - intros k qp (L1 & R & -> & -> & -> & HF). unfold alloc_step, hnext, hsize.
    destruct HL as [Hc Hw _ _ _]. apply chain_app in Hc as [_ Hc]. destruct R as [|b R].
    + simpl in Hc. rewrite Hc, app_nil_r. done.
    + destruct Hc as (E1 & E2 & _). rewrite E1, E2.
      pose proof (wfl_fits _ _ b Hw ltac:(set_solver)).
      destruct (Z.eqb_spec b.1 NULL) as [E|_]; [unfold NULL in E; lia|].
      destruct (Z.leb_spec size b.2).
      * exists L1, b, R. by split_and!.
      * exists (length R). split; [done|]. exists (L1 ++ [b]), R.
        rewrite <-app_assoc, lastp_app, Forall_app. split_and!; try done. by constructor.
  - exists [], L. by split_and!.
  - by apply wfl_rounds, HL.
Qed.

Lemma fl_alloc_none size L : Forall (fun b => b.2 < size) L -> fl_alloc size L = None.
Proof.
  induction 1 as [|b L Hb _ IH]; [done|]. simpl. destruct (Z.leb_spec size b.2); [lia|].
  by rewrite IH.
Qed.

Lemma fl_alloc_at size L1 b L2 :
  Forall (fun b => b.2 < size) L1 -> size <= b.2 ->
  fl_alloc size (L1 ++ b :: L2) =
  if b.2 <? size + HDR then Some (b, L1 ++ L2)
  else Some ((b.1, size), L1 ++ (b.1 + HDR + size, b.2 - HDR - size) :: L2).
Proof.
  intros HF Hle. induction HF as [|c L1 Hc _ IH]; simpl.
  - destruct (Z.leb_spec size b.2); [by case_match|lia].
  - destruct (Z.leb_spec size c.2); [lia|]. rewrite IH. by case_match.
Qed.

(** The words written by [alloc_take] outside the block are those of [qp]. *)
Lemma alloc_take_mem heapp size qp s b :
  hnext s qp = b.1 -> hsize s b.1 = b.2 -> 0 <= size <= b.2 -> b.2 + 16 <= 2^32 ->
  qp + 8 <= b.1 \/ bend b <= qp ->
  let s' := alloc_take heapp size qp s in
  let fp := b.1 + HDR + size in
  (forall x, x <> qp -> x < b.1 \/ bend b <= x -> k_mem s' x = k_mem s x) /\
  k_mem s' b.1 = heapp /\
  if b.2 <? size + HDR then k_mem s' qp = hnext s b.1 /\ k_mem s' (b.1 + 4) = b.2
  else k_mem s' qp = fp /\ k_mem s' fp = hnext s b.1 /\
       k_mem s' (fp + 4) = b.2 - HDR - size /\ k_mem s' (b.1 + 4) = size.
Proof.
  intros Hn Hs Hsz Hb Hq. unfold alloc_take, hsize, hnext, bend, HDR in *.
  rewrite Hn, Hs, (u32_small (size + 8)) by (unfold is_u32; lia).
  destruct (Z.ltb_spec b.2 (size + 8)); unfold set_hnext, set_hsize, upd_word;
    cbn [k_mem set_k_mem]; split_and!; intros; rewrite ?fn_insert_dec;
    repeat case_decide; try lia; rewrite Hs, u32_small; unfold is_u32; lia.
Qed.
(** What a block handed out or given back is: well formed, and apart from
    the free list and its header. *)
Record block_of q0 L b : Prop := {
  bo_ok : block_ok b;
  bo_apart : apart b L;
  bo_clear : clear q0 b
}.

Lemma wfl_split lo L1 b L2 size :
  wfl lo (L1 ++ b :: L2) -> 0 <= lo -> 0 <= size -> size `mod` 8 = 0 -> size + HDR <= b.2 ->
  block_ok (b.1 + HDR + size, b.2 - HDR - size) /\
  wfl lo (L1 ++ (b.1 + HDR + size, b.2 - HDR - size) :: L2).
Proof.
  intros Hw H0 Hs Hm Hle. apply wfl_app in Hw as (HF & Hb & Hw2 & Hlo & Hw1).
  assert (block_ok (b.1 + HDR + size, b.2 - HDR - size)) as Hok.
  { destruct Hb as (B1 & B2 & B3 & B4 & B5). unfold block_ok, bend, HDR in *. simpl.
    split_and!; try lia.
    - by repeat apply aligned_add.
    - by repeat apply aligned_sub. }
  split; [done|]. assert (bend (b.1 + HDR + size, b.2 - HDR - size) = bend b) as E
    by (unfold bend, HDR; simpl; lia).
  apply wfl_paste; [done|done| |].
  - simpl. unfold HDR in *. split_and!; [lia|done|by rewrite E].
  - intros c d Hc Hd. pose proof (Forall_at _ _ _ HF Hc) as Hlt. simpl in Hlt.
    apply list_elem_of_In in Hd as [<-|Hd].
    + simpl. unfold HDR. lia.
    + apply list_elem_of_In in Hd. destruct (wfl_in _ _ _ Hw2 Hd). pose proof (bend_gt _ Hb). lia.
Qed.

Lemma wfl_drop lo L1 b L2 : wfl lo (L1 ++ b :: L2) -> 0 <= lo -> wfl lo (L1 ++ L2).
Proof.
  intros Hw H0. apply wfl_app in Hw as (HF & Hb & Hw2 & Hlo & Hw1). pose proof (bend_gt _ Hb).
  apply wfl_paste; [done|done|eapply wfl_weak; [|done]; lia|].
  intros c d Hc Hd. pose proof (Forall_at _ _ _ HF Hc) as Hlt. destruct (wfl_in _ _ _ Hw2 Hd).
  simpl in Hlt. lia.
Qed.

Lemma apart_of b L1 L2 :
  (forall c, c ∈ L1 -> bend c <= b.1) -> (forall c, c ∈ L2 -> bend b <= c.1) -> apart b (L1 ++ L2).
Proof.
  intros H1 H2. apply List.Forall_forall. intros c Hc. apply list_elem_of_In in Hc.
  apply elem_of_app in Hc as [Hc|Hc]; auto.
Qed.

Lemma alloc_take_flist heapp size s L1 b L2 :
  flist (k_mem s) (h_free heapp) (L1 ++ b :: L2) ->
  0 <= size <= b.2 -> size `mod` 8 = 0 ->
  Forall (fun b => b.2 < size) L1 ->
  let s' := alloc_take heapp size (lastp (h_free heapp) L1) s in
  exists r L', fl_alloc size (L1 ++ b :: L2) = Some (r, L') /\ r.1 = b.1 /\
    flist (k_mem s') (h_free heapp) L' /\ block_of (h_free heapp) L' r /\
    hnext s' r.1 = heapp /\ hsize s' r.1 = r.2.
Proof.
  intros HL Hsz Hm HF s'. pose proof HL as [Hc Hw Hcl _ Hq].
  apply chain_app in Hc as [_ (E1 & E2 & Hc)].
  pose proof (wfl_fits _ _ b Hw ltac:(set_solver)) as Hfit.
  pose proof (lastp_before _ _ (b :: L2) b Hw Hcl ltac:(set_solver)) as Hqp.
  destruct (alloc_take_mem heapp size _ s b E1 E2 Hsz ltac:(lia) ltac:(tauto)) as (Hfr & Hhp & Hrest).
  fold s' in Hfr, Hhp, Hrest. rewrite fl_alloc_at by (done || lia).
  destruct (wfl_app _ _ _ _ Hw) as (HF1 & Hb & Hw2 & _ & Hw1).
  pose proof (Forall_at _ _ b Hcl ltac:(set_solver)) as Hclb.
  assert (forall c, c ∈ L1 -> bend c <= b.1) as HL1.
  { intros c Hi. pose proof (Forall_at _ _ _ HF1 Hi) as Hlt. simpl in Hlt. lia. }
  assert (forall c, c ∈ L2 -> bend b <= c.1) as HL2.
  { intros c Hi. destruct (wfl_in _ _ _ Hw2 Hi). lia. }
  assert (h_free heapp + 8 <= b.1 \/ bend b <= h_free heapp) as H0 by (unfold clear in Hclb; lia).
  pose proof (flist_change _ (k_mem s') _ L1 [b] L2 _ _ HL Hfr HL1 HL2 H0) as Hch.
  destruct (Z.ltb_spec b.2 (size + HDR)) as [Hlt|Hge].
  - destruct Hrest as [R1 R2]. exists b, (L1 ++ L2). split_and!; try done.
    + apply (Hch []); simpl; try done. by apply (wfl_drop 0 L1 b L2).
    + split; [done|by apply apart_of|done].
  - destruct Hrest as (R1 & R2 & R3 & R4).
    destruct (wfl_split 0 L1 b L2 size Hw ltac:(lia) ltac:(lia) Hm Hge) as [Hok Hwn].
    set (d := (b.1 + HDR + size, b.2 - HDR - size)) in *.
    assert (bend d = bend b) as Ed by (unfold d, bend, HDR; simpl; lia).
    exists (b.1, size), (L1 ++ d :: L2). split_and!; try done.
    + apply (Hch [d]); simpl; try done. constructor; [|done].
      unfold clear in *. rewrite Ed. unfold d, HDR. simpl. lia.
    + split.
      * unfold block_ok, bend, HDR in *. simpl. destruct Hb as (? & ? & ? & ? & ?). lia.
      * apply apart_of; [done|]. intros c Hi. apply list_elem_of_In in Hi as [<-|Hi].
        -- unfold d, bend, HDR. simpl. lia.
        -- apply list_elem_of_In in Hi. specialize (HL2 c Hi). unfold bend, HDR in *. simpl. lia.
      * unfold clear, bend, HDR in *. simpl. lia.
Qed.
End Alloc.

(** ** Release *)

Section Free.
Context `{Config}.

Lemma lastp_size m q0 L1 c :
  cseg m q0 (L1 ++ [c]) -> m (lastp q0 (L1 ++ [c]) + 4) = c.2.
Proof.
  rewrite lastp_app. revert q0. induction L1 as [|e L1 IH]; intros q0; simpl; [tauto|].
  intros (_ & _ & Hs). by apply (IH e.1).
Qed.

(** A round of the loop at a block before [b]: neither the assertion nor the
    first half of the condition fails. *)
Lemma free_step_at s heapp b L1 R :
  flist (k_mem s) (h_free heapp) (L1 ++ R) -> block_ok b -> clear (h_free heapp) b ->
  (forall c, c ∈ L1 -> bend c <= b.1) ->
  let qp := lastp (h_free heapp) L1 in
  free_step s heapp b.1 qp =
    if (hnext s qp =? NULL) || (b.1 <? hnext s qp) then inr (inr qp) else inl (hnext s qp).
Proof.
  intros [Hc Hw Hf Hh Hq] Hok Hcl H1 qp. apply chain_app in Hc as [Hs _].
  pose proof (bend_gt _ Hok).
  assert (0 < qp /\ (b.1 < qp \/ LIMIT s qp <= b.1) /\ (qp = h_free heapp \/ qp < b.1)) as (P1 & P2 & P3).
  { unfold qp, LIMIT, hsize. destruct (lastp_in (h_free heapp) L1) as [[-> _]|(L' & c & -> & E)].
    - rewrite Hh. unfold clear, HDR in *. split_and!; [done|lia|by left].
    - rewrite (lastp_size _ _ _ _ Hs), E. specialize (H1 c ltac:(set_solver)).
      pose proof (wfl_fits _ _ c Hw ltac:(set_solver)). unfold bend, HDR in *. lia. }
  unfold free_step. destruct (Z.eqb_spec qp NULL) as [E|_]; [unfold NULL in E; lia|].
  assert ((b.1 <? qp) || (LIMIT s qp <=? b.1) = true) as -> by lia.
  assert ((qp =? h_free heapp) || (qp <? b.1) = true) as -> by lia.
  by rewrite andb_false_r.
Qed.

(** The place of a block in the list, as found by the loop. *)
Lemma free_find_ok s heapp L b :
  flist (k_mem s) (h_free heapp) L -> block_of (h_free heapp) L b ->
  exists L1 R, L = L1 ++ R /\ iter_until 29 (free_step s heapp b.1) (h_free heapp) =
      inr (inr (lastp (h_free heapp) L1)) /\
    (forall c, c ∈ L1 -> bend c <= b.1) /\ (forall c, c ∈ R -> bend b <= c.1).
Proof.
  intros HL [Hok Hap Hcl]. pose proof HL as [Hc Hw Hf Hh Hq]. pose proof (bend_gt _ Hok) as Hbb.
  assert (forall c, c ∈ L -> bend c <= b.1 \/ bend b <= c.1) as Hside.
  { intros c Hi. pose proof (Forall_at _ _ _ Hap Hi). simpl in *. tauto. }
  edestruct (iter_until_rounds (free_step s heapp b.1) (fun k qp => exists L1 R, L = L1 ++ R /\
    k = length R /\ qp = lastp (h_free heapp) L1 /\ (forall c, c ∈ L1 -> bend c <= b.1))
    (fun r => exists L1 R, L = L1 ++ R /\ r = inr (lastp (h_free heapp) L1) /\
      (forall c, c ∈ L1 -> bend c <= b.1) /\ (forall c, c ∈ R -> bend b <= c.1)))
    with (d := 29%nat) (n := length L) (a := h_free heapp)
    as (r & E & L1 & R & HE & -> & H1 & H2).
  - intros k qp (L1 & R & -> & -> & -> & HF).
    rewrite (free_step_at s heapp b L1 R) by done.
    apply chain_app in Hc as [_ Hc]. unfold hnext. destruct R as [|c R].
    + simpl in Hc. rewrite Hc. simpl. exists L1, []. split_and!; try done. set_solver.
    + destruct Hc as (E1 & E2 & _). rewrite E1.
      pose proof (wfl_fits _ _ c Hw ltac:(set_solver)) as Hfit.
      destruct (wfl_in _ _ c Hw ltac:(set_solver)) as [_ Hcok]. pose proof (bend_gt _ Hcok).
      specialize (Hside c ltac:(set_solver)) as Hsc.
      destruct (Z.eqb_spec c.1 NULL) as [Ez|_]; [unfold NULL in Ez; lia|]. simpl.
      destruct (Z.ltb_spec b.1 c.1) as [Hlt|Hge].
      * exists L1, (c :: R). split_and!; try done. intros e He.
        apply wfl_app_r in Hw. destruct Hw as (_ & _ & Hw).
        apply list_elem_of_In in He as [<-|He]; [lia|]. apply list_elem_of_In in He.
        destruct (wfl_in _ _ _ Hw He). lia.
      * exists (length R). split; [done|]. exists (L1 ++ [c]), R.
        rewrite <-app_assoc, lastp_app. split_and!; try done.
        intros e He. apply elem_of_app in He as [He|He]; [by apply HF|].
        apply list_elem_of_singleton in He as ->. lia.
  - exists [], L. split_and!; try done. set_solver.
  - by apply wfl_rounds.
  - eauto 10.
Qed.
(** The first merge. *)
Lemma fl_join_ok q0 lo b R :
  block_ok b -> clear q0 b -> wfl lo R -> Forall (clear q0) R ->
  (forall c, c ∈ R -> bend b <= c.1) ->
  exists b' R0 R', R = R0 ++ R' /\ fl_join b R = b' :: R' /\ b'.1 = b.1 /\ block_ok b' /\
    clear q0 b' /\ wfl (bend b') R' /\ bend b <= bend b' /\
    ((R0 = [] /\ b' = b /\ (forall d R1, R = d :: R1 -> bend b <> d.1)) \/
     exists d, R0 = [d] /\ bend b = d.1 /\ b'.2 = b.2 + (d.2 + HDR)).
Proof.
  intros Hok Hcl Hw Hf HR. destruct R as [|d R1].
  - exists b, [], []. split_and!; try done. left. by split_and!.
  - destruct Hw as (_ & Hd & Hw). apply Forall_cons_1 in Hf as [Hcd _]. simpl.
    specialize (HR d ltac:(set_solver)). destruct (Z.eqb_spec (bend b) d.1) as [E|Hne].
    + exists (b.1, b.2 + (d.2 + HDR)), [d], R1.
      assert (bend (b.1, b.2 + (d.2 + HDR)) = bend d) as Eb by (unfold bend, HDR in *; simpl; lia).
      split_and!; try done.
      * destruct Hok as (B1 & B2 & B3 & B4 & B5), Hd as (D1 & D2 & D3 & D4 & D5).
        unfold block_ok. rewrite Eb. unfold HDR in *. simpl.
        split_and!; [done|done|lia| |done]. by repeat apply aligned_add.
      * unfold clear in *. rewrite Eb. simpl. pose proof (bend_gt _ Hok). pose proof (bend_gt _ Hd). lia.
      * by rewrite Eb.
      * rewrite Eb. pose proof (bend_gt _ Hd). lia.
      * right. by exists d.
    + exists b, [], (d :: R1). split_and!; try done.
      * simpl. split_and!; [lia|done|done].
      * left. split_and!; try done. by intros ? ? [= <- <-].
Qed.

Lemma fl_free_at b L1 R :
  (forall c, c ∈ L1 -> bend c < b.1) -> Forall block_ok L1 -> block_ok b ->
  (forall c, c ∈ R -> bend b <= c.1) -> fl_free b (L1 ++ R) = L1 ++ fl_join b R.
Proof.
  intros H1 Hk Hok HR. pose proof (bend_gt _ Hok). induction L1 as [|c L1 IH].
  - destruct R as [|d R]; [done|]. cbn [app fl_free]. specialize (HR d ltac:(set_solver)).
    destruct (Z.ltb_spec b.1 d.1); [done|lia].
  - apply Forall_cons_1 in Hk as [Hc Hk]. pose proof (bend_gt _ Hc).
    specialize (H1 c ltac:(set_solver)) as Hlt. cbn [app fl_free].
    destruct (Z.ltb_spec b.1 c.1); [lia|]. destruct (Z.eqb_spec (bend c) b.1); [lia|].
    rewrite IH; [done| |done]. intros e He. apply H1. set_solver.
Qed.

Lemma fl_free_prev b L1 c R b' R' :
  (forall e, e ∈ L1 -> bend e < c.1) -> Forall block_ok (L1 ++ [c]) -> bend c = b.1 ->
  fl_join b R = b' :: R' -> fl_free b (L1 ++ c :: R) = L1 ++ (c.1, c.2 + (b'.2 + HDR)) :: R'.
Proof.
  intros H1 Hk E Ej. induction L1 as [|e L1 IH].
  - apply Forall_cons_1 in Hk as [Hc _]. pose proof (bend_gt _ Hc). cbn [app fl_free].
    destruct (Z.ltb_spec b.1 c.1); [lia|]. by rewrite (proj2 (Z.eqb_eq _ _) E), Ej.
  - apply Forall_cons_1 in Hk as [He Hk]. pose proof (bend_gt _ He).
    destruct (proj1 (Forall_app _ _ _) Hk) as [_ Hc].
    apply Forall_cons_1 in Hc as [Hc _]. pose proof (bend_gt _ Hc).
    specialize (H1 e ltac:(set_solver)) as Hlt. cbn [app fl_free].
    destruct (Z.ltb_spec b.1 e.1); [lia|]. destruct (Z.eqb_spec (bend e) b.1); [lia|].
    rewrite IH; [done| |done]. intros x Hx. apply H1. set_solver.
Qed.

(** Joining the block at [nx] to the one at [p] before it. *)
Definition merge_mem m p nx : Z -> Z :=
  let m1 := <[p + 4 := u32 (m (p + 4) + (m (nx + 4) + HDR))]> m in <[p := m1 nx]> m1.

Lemma free_insert_unfold s qp hp :
  k_mem (free_insert qp hp s) =
  let m1 := <[qp := hp]> (<[hp := hnext s qp]> (k_mem s)) in
  let m2 := if hp + HDR + m1 (hp + 4) =? m1 hp then merge_mem m1 hp (m1 hp) else m1 in
  if qp + HDR + m2 (qp + 4) =? hp then merge_mem m2 qp hp else m2.
Proof.
  unfold free_insert, LIMIT. cbv zeta.
  unfold hsize, hnext, set_hsize, set_hnext, upd_word, merge_mem. cbn [k_mem set_k_mem].
  destruct (hp + HDR + _ =? _); cbn [k_mem set_k_mem]; by destruct (qp + HDR + _ =? hp).
Qed.

(** The words written by [free_insert]. *)
Lemma free_insert_mem s qp b :
  hsize s b.1 = b.2 -> qp + 8 <= b.1 \/ bend b <= qp ->
  0 <= b.2 -> 0 <= hsize s qp ->
  let nx := hnext s qp in
  (bend b = nx -> qp + 8 <= nx \/ nx + 8 <= qp) ->
  let sz := if bend b =? nx then b.2 + (hsize s nx + HDR) else b.2 in
  let nx' := if bend b =? nx then hnext s nx else nx in
  0 <= sz -> 0 < qp -> 8 <= b.1 -> b.1 + 8 + sz <= 2^32 ->
  let s' := free_insert qp b.1 s in
  if LIMIT s qp =? b.1 then
    k_mem s' qp = nx' /\ k_mem s' (qp + 4) = hsize s qp + (sz + HDR) /\
    (forall x, x <> qp -> x < qp \/ bend b <= x -> k_mem s' x = k_mem s x)
  else
    k_mem s' qp = b.1 /\ k_mem s' b.1 = nx' /\ k_mem s' (b.1 + 4) = sz /\
    (forall x, x <> qp -> x < b.1 \/ bend b <= x -> k_mem s' x = k_mem s x).
Proof.
  intros Hs Hq Hb Hqs nx Hnx sz nx' Hsz Hqp Hhp Hsum s'. unfold s'. clear s'.
  rewrite free_insert_unfold. fold nx. cbv zeta.
  set (m1 := <[qp:=b.1]> _).
  assert (m1 (b.1 + 4) = b.2 /\ m1 b.1 = nx /\ m1 qp = b.1 /\
    forall x, x <> qp -> x <> b.1 -> m1 x = k_mem s x) as (A1 & A2 & A3 & A4).
  { unfold m1, bend, HDR in *. split_and!; intros; rewrite ?fn_insert_dec; repeat case_decide;
      try lia; try done. }
  clearbody m1. rewrite A1, A2. change (b.1 + HDR + b.2) with (bend b).
  set (m2 := if bend b =? nx then merge_mem m1 b.1 nx else m1).
  assert (m2 (b.1 + 4) = sz /\ m2 b.1 = nx' /\ m2 qp = b.1 /\
    forall x, x <> qp -> x <> b.1 -> x <> b.1 + 4 -> m2 x = k_mem s x) as (B1 & B2 & B3 & B4).
  { unfold m2, sz, nx'. destruct (Z.eqb_spec (bend b) nx) as [E|_]; [|by split_and!; auto].
    specialize (Hnx E). unfold merge_mem, hsize, hnext in *. unfold sz in Hsz, Hsum.
    destruct (Z.eqb_spec (bend b) nx); [|done].
    assert (m1 nx = k_mem s nx /\ m1 (nx + 4) = k_mem s (nx + 4)) as [N1 N2]
      by (unfold bend, HDR in *; split; apply A4; lia).
    rewrite A1, N2. unfold bend, HDR in *.
    split_and!; intros; rewrite ?fn_insert_dec; repeat case_decide; try lia; try done; auto.
    rewrite u32_small; [done|]. unfold is_u32. lia. }
  clearbody m2. clear A1 A2 A3 A4 m1. unfold LIMIT, hsize in *.
  assert (m2 (qp + 4) = k_mem s (qp + 4)) as B5.
  { unfold bend, HDR in *. apply B4; lia. }
  rewrite B5. destruct (Z.eqb_spec (qp + HDR + k_mem s (qp + 4)) b.1) as [E|Hne].
  - unfold merge_mem. rewrite B1, B5. unfold bend, HDR in *. rewrite u32_small by (unfold is_u32; lia).
    split_and!; intros; rewrite ?fn_insert_dec; repeat case_decide; try lia; try done.
    apply B4; lia.
  - split_and!; try done. intros x Hx Hr. apply B4; unfold bend, HDR in *; lia.
Qed.
(** The words written, in terms of the first merge. *)
Lemma free_insert_join s q0 L1 R0 R' b b' :
  flist (k_mem s) q0 (L1 ++ R0 ++ R') -> block_ok b -> clear q0 b ->
  (forall c, c ∈ L1 -> bend c <= b.1) -> (forall c, c ∈ R0 ++ R' -> bend b <= c.1) ->
  hsize s b.1 = b.2 -> block_ok b' -> b'.1 = b.1 -> bend b <= bend b' ->
  ((R0 = [] /\ b' = b /\ (forall d R1, R0 ++ R' = d :: R1 -> bend b <> d.1)) \/
   exists d, R0 = [d] /\ bend b = d.1 /\ b'.2 = b.2 + (d.2 + HDR)) ->
  let qp := lastp q0 L1 in
  let m' := k_mem (free_insert qp b.1 s) in
  let nx' := k_mem s (lastp qp R0) in
  if LIMIT s qp =? b.1 then
    m' qp = nx' /\ m' (qp + 4) = hsize s qp + (b'.2 + HDR) /\
    (forall x, x <> qp -> x < qp \/ bend b' <= x -> m' x = k_mem s x)
  else
    m' qp = b.1 /\ m' b.1 = nx' /\ m' (b.1 + 4) = b'.2 /\
    (forall x, x <> qp -> x < b.1 \/ bend b' <= x -> m' x = k_mem s x).
Proof.
  intros HL Hok Hcl H1 H2 Hs Hok' E1 Hbb Hcase qp m' nx'.
  pose proof HL as [Hc Hw Hf Hh Hq]. apply chain_app in Hc as [Hcs Hc].
  assert (0 < qp /\ 0 <= hsize s qp /\ (qp + 8 <= b.1 \/ bend b <= qp)) as (Q1 & Q2 & Q3).
  { unfold qp, hsize. destruct (lastp_in q0 L1) as [[-> _]|(L' & c & -> & E)].
    - rewrite Hh. unfold clear in Hcl. lia.
    - rewrite (lastp_size _ _ _ _ Hcs), E. specialize (H1 c ltac:(set_solver)).
      pose proof (wfl_fits _ _ c Hw ltac:(set_solver)). unfold bend, HDR in *. lia. }
  assert ((if bend b =? hnext s qp then b.2 + (hsize s (hnext s qp) + HDR) else b.2) = b'.2 /\
    (if bend b =? hnext s qp then hnext s (hnext s qp) else hnext s qp) = nx' /\
    (bend b = hnext s qp -> qp + 8 <= hnext s qp \/ hnext s qp + 8 <= qp)) as (F1 & F2 & F3).
  { unfold nx', hnext, hsize. destruct Hcase as [(-> & -> & Hne)|(d & -> & E & ->)].
    - simpl in Hc. assert (bend b <> k_mem s qp) as Hn.
      { destruct R' as [|d R1]; simpl in Hc.
        - fold qp in Hc. rewrite Hc. pose proof (bend_gt _ Hok). unfold block_ok, NULL in *. lia.
        - destruct Hc as [Hc _]. fold qp in Hc. rewrite Hc. by apply (Hne d R1). }
      by rewrite (proj2 (Z.eqb_neq _ _) Hn).
    - simpl in Hc. destruct Hc as (C1 & C2 & _). fold qp in C1. rewrite C1, E, Z.eqb_refl, C2.
      split_and!; [done|done|]. intros _. pose proof (wfl_fits _ _ d Hw ltac:(set_solver)).
      destruct (lastp_before q0 L1 _ d Hw Hf ltac:(set_solver)) as [?|[? _]];
        unfold qp; unfold bend, HDR in *; lia. }
  pose proof (free_insert_mem s qp b Hs Q3 ltac:(apply Hok) Q2 F3) as HM. cbv zeta in HM.
  rewrite F1, F2 in HM. fold m' in HM.
  destruct Hok as (? & _ & ? & _ & _), Hok' as (? & _ & ? & _ & ?).
  specialize (HM ltac:(done) Q1 ltac:(done) ltac:(unfold bend, HDR in *; lia)).
  destruct (LIMIT s qp =? b.1).
  - destruct HM as (M1 & M2 & M3). split_and!; try done. intros x Hx Hr. apply M3; [done|lia].
  - destruct HM as (M1 & M2 & M3 & M4). split_and!; try done. intros x Hx Hr. apply M4; [done|lia].
Qed.

Lemma wfl_blocks lo L : wfl lo L -> Forall block_ok L.
Proof.
  intros Hw. apply List.Forall_forall. intros e He. apply list_elem_of_In in He.
  by apply (wfl_in _ _ _ Hw He).
Qed.

(** A block in the gap between two parts of the list. *)
Lemma wfl_insert L1 b R :
  wfl 0 L1 -> block_ok b -> (forall c, c ∈ L1 -> bend c < b.1) -> wfl (bend b) R ->
  wfl 0 (L1 ++ b :: R).
Proof.
  intros Hw Hok H1 HR. pose proof (bend_gt _ Hok). apply wfl_paste; [done|lia| |].
  - simpl. split_and!; [destruct Hok; lia|done|done].
  - intros c d Hc Hd. specialize (H1 c Hc). apply list_elem_of_In in Hd as [<-|Hd]; [done|].
    apply list_elem_of_In in Hd. destruct (wfl_in _ _ _ HR Hd). lia.
Qed.

(** The block touches the one before it. *)
Lemma free_prev_flist m m' q0 L1 c R0 R' b b' :
  flist m q0 ((L1 ++ [c]) ++ R0 ++ R') -> bend c = b.1 -> b'.1 = b.1 -> block_ok b' ->
  clear q0 b' -> wfl (bend b') R' ->
  m' c.1 = m (lastp c.1 R0) -> m' (c.1 + 4) = c.2 + (b'.2 + HDR) ->
  (forall x, x <> c.1 -> x < c.1 \/ bend b' <= x -> m' x = m x) ->
  flist m' q0 (L1 ++ (c.1, c.2 + (b'.2 + HDR)) :: R').
Proof.
  intros HL Ec E1 Hok' Hcl' Hw' M1 M2 M3. rewrite <-app_assoc in HL. cbn [app] in HL.
  pose proof HL as [Hc Hw Hf Hh Hq]. set (d := (c.1, c.2 + (b'.2 + HDR))).
  destruct (wfl_app _ _ _ _ Hw) as (HF & Hcok & _ & _ & HwL).
  assert (bend d = bend b') as Ed by (unfold d, bend, HDR in *; simpl; lia).
  assert (block_ok d) as Hdok.
  { destruct Hcok as (B1 & B2 & B3 & B4 & B5), Hok' as (D1 & D2 & D3 & D4 & D5).
    unfold block_ok. rewrite Ed. unfold d, HDR in *. simpl.
    split_and!; [done|done|lia| |done]. by repeat apply aligned_add. }
  pose proof (bend_gt _ Hcok) as Hc8. pose proof (bend_gt _ Hok') as Hb8.
  assert (forall e, e ∈ L1 -> bend e < c.1) as HL1 by (intros e; apply (Forall_at _ _ e HF)).
  pose proof (Forall_at _ _ c Hf ltac:(set_solver)) as Hcc.
  assert (clear q0 d) as Hcd by (unfold clear in *; rewrite Ed; unfold d; simpl; lia).
  destruct (lastp_before q0 L1 _ c Hw Hf ltac:(set_solver)) as [Hqp|Hqp];
  apply (flist_change m m' q0 L1 (c :: R0) R' c.1 (bend b')) with (R' := [d]); try done.
  all: try (intros x Hx Hr; apply M3; unfold clear in *; lia).
  all: try (intros e He; specialize (HL1 e He); lia).
  all: try (intros e He; destruct (wfl_in _ _ _ Hw' He); lia).
  all: try (unfold clear in *; lia).
  all: try by constructor.
  all: try (apply wfl_insert; [done|done|done|by rewrite Ed]).
  all: simpl; split_and!; try done; rewrite M3; unfold clear in *; try lia.
  all: apply chain_app in Hc as [_ (? & _)]; done.
Qed.

(** The block does not touch the one before it. *)
Lemma free_gap_flist m m' q0 L1 R0 R' b b' :
  flist m q0 (L1 ++ R0 ++ R') -> b'.1 = b.1 -> block_ok b' ->
  clear q0 b' -> wfl (bend b') R' -> (forall c, c ∈ L1 -> bend c < b.1) ->
  m' (lastp q0 L1) = b.1 -> m' b.1 = m (lastp (lastp q0 L1) R0) -> m' (b.1 + 4) = b'.2 ->
  (forall x, x <> lastp q0 L1 -> x < b.1 \/ bend b' <= x -> m' x = m x) ->
  flist m' q0 (L1 ++ b' :: R').
Proof.
  intros HL E1 Hok' Hcl' Hw' H1 M1 M2 M3 M4. pose proof HL as [Hc Hw Hf Hh Hq].
  pose proof (wfl_app_l _ _ _ Hw) as Hw1.
  apply (flist_change m m' q0 L1 R0 R' b.1 (bend b')) with (R' := [b']); try done.
  - intros e He. specialize (H1 e He). lia.
  - intros e He. destruct (wfl_in _ _ _ Hw' He). lia.
  - unfold clear in *. lia.
  - apply wfl_insert; try done. by rewrite E1.
  - by constructor.
  - simpl. by rewrite E1.
  - simpl. by rewrite E1.
Qed.

(** A block apart from the list keeps clear of the header before any part
    of it. *)
Lemma lastp_apart q0 L1 R (a : fblock) :
  wfl 0 (L1 ++ R) -> block_of q0 (L1 ++ R) a ->
  a.1 + 8 <= lastp q0 L1 \/ lastp q0 L1 + 8 <= a.1.
Proof.
  intros Hw [Hok Hap Hcl]. pose proof (bend_gt _ Hok).
  destruct (lastp_in q0 L1) as [[-> _]|(L' & c & -> & ->)].
  - unfold clear in Hcl. lia.
  - pose proof (Forall_at _ _ c Hap ltac:(set_solver)) as Hs. simpl in Hs.
    destruct (wfl_in _ _ c Hw ltac:(set_solver)) as [_ Hc]. pose proof (bend_gt _ Hc). lia.
Qed.

(** The list after the insertion, and the headers of other blocks. *)
Lemma free_insert_flist s q0 L1 R b :
  flist (k_mem s) q0 (L1 ++ R) -> block_ok b -> clear q0 b ->
  (forall c, c ∈ L1 -> bend c <= b.1) -> (forall c, c ∈ R -> bend b <= c.1) ->
  hsize s b.1 = b.2 ->
  let m' := k_mem (free_insert (lastp q0 L1) b.1 s) in
  flist m' q0 (fl_free b (L1 ++ R)) /\
  forall a : fblock, block_of q0 (L1 ++ R) a -> apart a (fl_free b (L1 ++ R)) ->
    m' a.1 = k_mem s a.1 /\ m' (a.1 + 4) = k_mem s (a.1 + 4).
Proof.
  intros HL Hok Hcl H1 H2 Hs m'. pose proof HL as [Hc Hw Hf Hh Hq].
  pose proof (wfl_app_l _ _ _ Hw) as Hw1. pose proof (wfl_app_r _ _ _ Hw) as HwR.
  destruct (proj1 (Forall_app _ _ _) Hf) as [Hf1 HfR].
  destruct (fl_join_ok q0 0 b R Hok Hcl HwR HfR H2)
    as (b' & R0 & R' & -> & Ej & E1 & Hok' & Hcl' & Hw' & Hbb & Hcase).
  pose proof (free_insert_join s q0 L1 R0 R' b b' HL Hok Hcl H1 H2 Hs Hok' E1 Hbb Hcase) as HM.
  cbv zeta in HM. fold m' in HM. pose proof (bend_gt _ Hok) as Hb8.
  apply chain_app in Hc as [Hcs _]. unfold LIMIT, hsize in HM.
  set (P := flist m' q0 _ /\ _).
  assert ((forall c, c ∈ L1 -> bend c < b.1) ->
    (if lastp q0 L1 + HDR + k_mem s (lastp q0 L1 + 4) =? b.1 then true else false) = false ->
    P) as Hgap.
  { intros H1' El. destruct (_ + _ + _ =? b.1); [done|]. destruct HM as (M1 & M2 & M3 & M4).
    unfold P. rewrite fl_free_at by eauto using wfl_blocks. rewrite Ej.
    split; [by eapply free_gap_flist|]. intros a Ha Hap.
    pose proof (lastp_apart _ _ _ _ Hw Ha). pose proof (bend_gt _ (bo_ok _ _ _ Ha)).
    pose proof (Forall_at _ _ b' Hap ltac:(set_solver)) as Hs'. simpl in Hs'.
    split; apply M4; lia. }
  destruct (lastp_in q0 L1) as [[_ ->]|(L' & c & -> & Ec)].
  - apply Hgap; [set_solver|]. simpl. rewrite Hh.
    destruct (Z.eqb_spec (q0 + HDR + 0) b.1); [unfold clear, HDR in *; lia|done].
  - rewrite (lastp_size _ _ _ _ Hcs), Ec in HM, Hgap. fold (bend c) in HM, Hgap.
    destruct (wfl_app _ _ _ _ Hw1) as (HF & Hcok & _). pose proof (bend_gt _ Hcok).
    assert (forall e, e ∈ L' -> bend e < c.1) as HL' by (intros e; apply (Forall_at _ _ e HF)).
    destruct (Z.eqb_spec (bend c) b.1) as [El|Hnl].
    + destruct HM as (M1 & M2 & M3). unfold P.
      match goal with |- context [fl_free b ?l] =>
        assert (fl_free b l = L' ++ (c.1, c.2 + (b'.2 + HDR)) :: R') as ->
          by (rewrite <-app_assoc; apply (fl_free_prev b L' c (R0 ++ R') b' R');
              eauto using wfl_blocks)
      end. split; [by eapply free_prev_flist|]. intros a Ha Hap.
      pose proof (bend_gt _ (bo_ok _ _ _ Ha)).
      pose proof (Forall_at _ _ (c.1, c.2 + (b'.2 + HDR)) Hap ltac:(set_solver)) as Hs'.
      unfold bend, HDR in *. simpl in Hs'. split; apply M3; lia.
    + apply Hgap; [|done]. intros e He. specialize (H1 c ltac:(set_solver)).
      apply elem_of_app in He as [He|He]; [specialize (HL' e He); lia|].
      apply list_elem_of_singleton in He as ->. lia.
Qed.
End Free.

(** ** The specification: what stays apart, and the round trip *)

Lemma fl_alloc_apart (a : fblock) size L b L' :
  0 <= size -> fl_alloc size L = Some (b, L') -> apart a L -> block_ok a ->
  (bend a <= b.1 \/ bend b <= a.1) /\ apart a L'.
Proof.
  intros H0 E Hap Ha. pose proof (bend_gt _ Ha). revert L' E.
  induction Hap as [|c L Hc Hap IH]; intros L' E; [done|]. simpl in E.
  destruct (Z.leb_spec size c.2).
  - destruct (Z.ltb_spec c.2 (size + HDR)); injection E as <- <-; [done|].
    unfold bend, HDR in *. simpl. split; [lia|]. constructor; [|done]. unfold bend, HDR. simpl. lia.
  - destruct (fl_alloc size L) as [[r L0]|]; [|done]. injection E as <- <-.
    destruct (IH L0 eq_refl) as [F1 F2]. split; [done|by constructor].
Qed.

Lemma fl_join_apart (a : fblock) b L :
  apart a L -> block_ok a -> bend a <= b.1 \/ bend b <= a.1 -> apart a (fl_join b L).
Proof.
  intros Hap Ha Hb. pose proof (bend_gt _ Ha). destruct Hap as [|c L Hc Hap]; simpl; [by (constructor; [|try constructor])|].
  destruct (Z.eqb_spec (bend b) c.1) as [E|_]; [|by (constructor; [|constructor])].
  constructor; [|done]. unfold bend, HDR in *. simpl. lia.
Qed.

Lemma fl_free_apart (a : fblock) b L :
  apart a L -> block_ok a -> bend a <= b.1 \/ bend b <= a.1 -> apart a (fl_free b L).
Proof.
  intros Hap Ha Hb. pose proof (bend_gt _ Ha). induction Hap as [|c L Hc Hap IH]; [by (constructor; [|try constructor])|].
  cbn [fl_free]. destruct (b.1 <? c.1); [by apply fl_join_apart; [constructor|..]|].
  destruct (Z.eqb_spec (bend c) b.1) as [E|_]; [|by constructor].
  destruct (fl_join b L) as [|d L''] eqn:Ej; [by (constructor; [|try constructor])|].
  pose proof (fl_join_apart a b L Hap Ha Hb) as Hj. rewrite Ej in Hj.
  apply Forall_cons_1 in Hj as [Hd Hj]. constructor; [|done]. simpl in *.
  assert (d.1 = b.1) as Ed.
  { destruct L as [|e L]; simpl in Ej; [by injection Ej as <- _|].
    destruct (bend b =? e.1); by injection Ej as <- _. }
  unfold bend, HDR in *. simpl. lia.
Qed.

Lemma fl_alloc_head lo size L b L' :
  wfl lo L -> fl_alloc size L = Some (b, L') -> lo < b.1.
Proof.
  revert lo L'. induction L as [|c L IH]; intros lo L' Hw E; [done|]. destruct Hw as (H1 & Hc & Hw).
  pose proof (bend_gt _ Hc). simpl in E. destruct (size <=? c.2).
  - destruct (c.2 <? size + HDR); by injection E as <- _.
  - destruct (fl_alloc size L) as [[r L0]|]; [|done]. injection E as <- _.
    specialize (IH _ _ Hw eq_refl). lia.
Qed.

(** Releasing the block just allocated restores the list. *)
Lemma fl_free_alloc lo size L b L' :
  wfl lo L -> 0 <= size -> fl_alloc size L = Some (b, L') -> fl_free b L' = L.
Proof.
  intros Hw H0. revert lo L' Hw. induction L as [|c L IH]; intros lo L' Hw E; [done|].
  destruct Hw as (H1 & Hc & Hw). pose proof (bend_gt _ Hc) as Hc8. simpl in E.
  destruct (Z.leb_spec size c.2).
  - destruct (Z.ltb_spec c.2 (size + HDR)); injection E as <- <-.
    + destruct L as [|d L]; [done|]. destruct Hw as (Hlt & _). cbn [fl_free fl_join].
      destruct (Z.ltb_spec c.1 d.1); [|lia]. destruct (Z.eqb_spec (bend c) d.1); [lia|done].
    + cbn [fl_free fl_join]. destruct (Z.ltb_spec (c.1, size).1 (c.1 + HDR + size, c.2 - HDR - size).1) as [_|Hn];
        [|unfold HDR in *; simpl in *; lia].
      unfold bend, HDR. simpl. rewrite Z.eqb_refl. destruct c as [x y]. simpl. do 2 f_equal. lia.
  - destruct (fl_alloc size L) as [[r L0]|] eqn:Ea; [|done]. injection E as <- <-.
    pose proof (fl_alloc_head _ _ _ _ _ Hw Ea). cbn [fl_free].
    destruct (Z.ltb_spec r.1 c.1); [lia|]. destruct (Z.eqb_spec (bend c) r.1); [lia|].
    by rewrite (IH _ _ Hw eq_refl).
Qed.
