(* ===== verification/HeapRep.v ===== *)
(** * The heap: ownership and the kernel calls

    [heap_rep m heapp A L]: memory [m] holds the heap at [heapp] with free list
    [L] and the blocks [A] handed out.  [heap_own pr heapp A], as the data
    invariant of the kernel rules, is what the threads that share the heap
    agree on: the heap stays well formed, and the headers of the blocks in
    [A] stay as [chHeapAlloc()] left them.  [chHeapAlloc()] and [chHeapFree()]
    work between the lock and the unlock of the mutex of the heap; there the
    list is the one the specification of [HeapOK] computes. *)
From S2P Require Import Prelude Monad Types ThdLists VT Sched Sem Mtx.
From S2P Require Import Mem Inv InvPrim InvSched Rules Scenario Wake SemOK.
From S2P Require Import MtxOK HeapOK.

Implicit Types (s : kstate) (m : Z -> Z) (L A : list fblock) (b : fblock) (t : tid).

Record heap_rep m heapp A L : Prop := {
  hr_list : flist m (h_free heapp) L;
  hr_blocks : forall b, b ∈ A -> block_of (h_free heapp) L b;
  hr_nodup : NoDup A;
  hr_disj : forall b c, b ∈ A -> c ∈ A -> b <> c -> bend b <= c.1 \/ bend c <= b.1;
  hr_hdr : forall b, b ∈ A -> m b.1 = heapp /\ m (b.1 + 4) = b.2
}.

(** The order in which the blocks are listed does not matter. *)
#[global] Instance heap_rep_proper m heapp :
  Proper (Permutation ==> eq ==> iff) (heap_rep m heapp).
Proof.
  assert (forall A A' L, A ≡ₚ A' -> heap_rep m heapp A L -> heap_rep m heapp A' L) as Himp.
  { intros A A' L HA [H1 H2 H3 H4 H5]. split; [done|..].
    - intros b. rewrite <-HA. apply H2.
    - by rewrite <-HA.
    - intros b c. rewrite <-HA. apply H4.
    - intros b. rewrite <-HA. apply H5. }
  intros A A' HA L _ <-. split; apply Himp; [done|by symmetry].
Qed.

Definition kd_mem (d : kdata_t) : Z -> Z := d.1.1.1.1.2.
Definition kd_heap (d : kdata_t) : Z -> option memget := d.1.2.

(** A heap with a provider or without one, as [chHeapInit()] makes it. *)
Definition heap_own (pr : option memget) heapp A (d : kdata_t) : Prop :=
  kd_heap d heapp = pr /\ exists L, heap_rep (kd_mem d) heapp A L.

Lemma heap_own_at pr heapp A s : heap_own pr heapp A (kdata s) <->
  k_heap s heapp = pr /\ exists L, heap_rep (k_mem s) heapp A L.
Proof. done. Qed.

Lemma align_next_ok size : 0 <= MEM_ALIGN_NEXT size /\ MEM_ALIGN_NEXT size `mod` 8 = 0.
Proof.
  unfold MEM_ALIGN_NEXT, MEM_ALIGN_PREV. set (x := u32 (size + MEM_ALIGN_MASK)).
  assert (u32 (Z.lnot MEM_ALIGN_MASK) = Z.shiftl (Z.ones 29) 3) as -> by done.
  pose proof (u32_range x) as [Hx _]. split; [apply Z.land_nonneg; by left|].
  apply Z.bits_inj'. intros i Hi. rewrite Z.bits_0. change 8 with (2^3).
  destruct (Z.lt_ge_cases i 3).
  - rewrite Z.mod_pow2_bits_low, Z.land_spec, Z.shiftl_spec_low by lia. apply andb_false_r.
  - by rewrite Z.mod_pow2_bits_high by lia.
Qed.

Section Own.
Context `{Config}.

Lemma alloc_rep heapp size s A L :
  heap_rep (k_mem s) heapp A L -> 0 <= size -> size `mod` 8 = 0 ->
  match fl_alloc size L with
  | Some (b, L') => exists qp, alloc_scan s size heapp = inr (Some qp) /\ hnext s qp = b.1 /\
      heap_rep (k_mem (alloc_take heapp size qp s)) heapp (b :: A) L'
  | None => alloc_scan s size heapp = inr None
  end.
Proof.
  intros [HL HB HN HD HH] H0 Hm. destruct (alloc_scan_ok s size heapp L HL) as (r & E & Hr).
  destruct r as [qp|]; [|by rewrite (fl_alloc_none _ _ Hr)].
  destruct Hr as (L1 & c & L2 & -> & -> & HF & Hle & En & Es).
  pose proof HL as [_ Hw Hf _ _]. pose proof (wfl_fits _ _ c Hw ltac:(set_solver)) as Hfit.
  destruct (alloc_take_flist heapp size s L1 c L2 HL ltac:(lia) Hm HF)
    as (b & L' & Ea & Eb & HL' & Hbo & Hh1 & Hh2).
  rewrite Ea. exists (lastp (h_free heapp) L1). split_and!; [done|congruence|].
  pose proof (lastp_before _ _ (c :: L2) c Hw Hf ltac:(set_solver)) as Hqp.
  destruct (alloc_take_mem heapp size _ s c En Es ltac:(lia) ltac:(lia) ltac:(tauto)) as (Hfr & _).
  assert (forall a : fblock, a ∈ A -> (bend a <= b.1 \/ bend b <= a.1) /\ apart a L') as Hap.
  { intros a Ha. destruct (HB a Ha) as [? ? _]. by eapply fl_alloc_apart. }
  split; [done|..].
  - intros a Ha. apply elem_of_cons in Ha as [->|Ha]; [done|].
    destruct (HB a Ha). split; [done|by apply Hap|done].
  - apply list.NoDup_cons. split; [|done]. intros Hb. destruct (Hap b Hb).
    pose proof (bend_gt _ (bo_ok _ _ _ Hbo)). lia.
  - intros a e Ha He Hne. apply elem_of_cons in Ha as [->|Ha], He as [->|He];
      [done|apply Hap in He; tauto|apply Hap in Ha; tauto|by apply HD].
  - intros a Ha. apply elem_of_cons in Ha as [->|Ha]; [done|]. destruct (HH a Ha) as [<- <-].
    pose proof (bend_gt _ (bo_ok _ _ _ (HB a Ha))). pose proof (lastp_apart _ _ _ _ Hw (HB a Ha)).
    pose proof (Forall_at _ _ c (bo_apart _ _ _ (HB a Ha)) ltac:(set_solver)) as Hc. simpl in Hc.
    split; apply Hfr; lia.
Qed.

Lemma free_rep heapp b s A L :
  heap_rep (k_mem s) heapp (b :: A) L ->
  exists qp, iter_until 29 (free_step s heapp b.1) (h_free heapp) = inr (inr qp) /\
    heap_rep (k_mem (free_insert qp b.1 s)) heapp A (fl_free b L).
Proof.
  assert (b ∈ b :: A /\ forall a : fblock, a ∈ A -> a ∈ b :: A) as [Hb Hin] by set_solver.
  intros [HL HB HN HD HH]. pose proof (HB b Hb) as Hbo.
  destruct (free_find_ok s heapp L b HL Hbo) as (L1 & R & -> & E & H1 & H2).
  exists (lastp (h_free heapp) L1). split; [done|].
  destruct (HH b Hb) as [_ Hsz].
  destruct (free_insert_flist s (h_free heapp) L1 R b HL (bo_ok _ _ _ Hbo) (bo_clear _ _ _ Hbo) H1 H2 Hsz)
    as [HL' Hfr].
  apply list.NoDup_cons in HN as [Hnb HN].
  assert (forall a : fblock, a ∈ A -> apart a (fl_free b (L1 ++ R))) as Hap.
  { intros a Ha. destruct (HB a (Hin a Ha)). apply fl_free_apart; [done|done|].
    apply HD; [by apply Hin|done|congruence]. }
  split; [done| |done| |].
  - intros a Ha. destruct (HB a (Hin a Ha)). split; [done|by apply Hap|done].
  - intros a e Ha He. apply HD; by apply Hin.
  - intros a Ha. destruct (HH a (Hin a Ha)) as [<- <-].
    apply Hfr; [by apply HB, Hin|by apply Hap].
Qed.
(** [chHeapInit()] makes a heap with one free block, unless it stops at its
    check. *)
Lemma one_block_rep m heapp b :
  block_ok b -> clear (h_free heapp) b -> 0 < h_free heapp ->
  m (h_free heapp) = b.1 -> m (h_free heapp + 4) = 0 -> m b.1 = NULL -> m (b.1 + 4) = b.2 ->
  heap_rep m heapp [] [b].
Proof.
  intros Hok Hcl H0 E1 E2 E3 E4. split; try set_solver; [|constructor].
  split; [done| |by constructor|done|done]. simpl. destruct Hok. split_and!; [lia|done|done].
Qed.

Lemma chHeapInit_ok heapp (buf size : Z) s :
  block_ok (buf, size - HDR) -> clear (h_free heapp) (buf, size - HDR) -> 0 < h_free heapp ->
  MEM_IS_ALIGNED buf = true -> MEM_IS_ALIGNED size = true -> size < 2^32 ->
  exists s', chHeapInit heapp buf size s = Done tt s' /\ k_heap s' heapp = None /\
    k_mtx s' (h_mtx heapp) = None /\ k_q s' (QMtx (h_mtx heapp)) = [] /\
    heap_rep (k_mem s') heapp [] [(buf, size - HDR)].
Proof.
  intros Hok Hcl H0 A1 A2 Hs. unfold chHeapInit, bind at 1.
  rewrite chDbgCheck_ok by by rewrite A1, A2. eexists. split; [reflexivity|].
  cbn [k_heap k_mtx k_q k_mem set_k_heap set_hnext set_hsize upd_word set_k_mem upd_mtx upd_q
       set_k_mtx set_k_q].
  split_and!; [by rewrite fn_insert_eq..|].
  apply one_block_rep; try done; simpl; pose proof Hok as (? & _ & ? & _); simpl in *;
    unfold clear, h_free, bend, HDR in *; simpl in *; rewrite ?fn_insert_dec;
    repeat case_decide; try lia; try done.
  rewrite u32_small; [done|]. unfold is_u32. lia.
Qed.

(** ** Under the kernel *)

Variable idle : tid.
Local Abbreviation safeH J t := (osafe (grd idle J) (rely idle J t)).
Local Abbreviation UstH J := (Ust idle J).

(** Between kernel calls the threads change only the data. *)
Lemma Ust_mem (J J' : kdata_t -> Prop) t ml s m :
  UstH J t ml s -> J' (kdata (set_k_mem m s)) -> UstH J' t ml (set_k_mem m s).
Proof.
  intros (HI & Hhp & [_ HU] & Hc & HL & Hn & Hm) HJ.
  split; [kinv_open HI; split; kinv_same|]. split; [done|].
  split; [split; [done|by apply (same_prio_UB s)]|]. by split_and!.
Qed.

Lemma alloc_take_set heapp size qp s :
  alloc_take heapp size qp s = set_k_mem (k_mem (alloc_take heapp size qp s)) s.
Proof. unfold alloc_take. cbv zeta. by destruct (hsize _ _ <? _). Qed.

Lemma free_insert_set qp hp s : free_insert qp hp s = set_k_mem (k_mem (free_insert qp hp s)) s.
Proof.
  unfold free_insert. cbv zeta. destruct (LIMIT _ hp =? _); by destruct (LIMIT _ qp =? hp).
Qed.

Lemma H_LOCK_safe J heapp t ml s :
  UstH J t ml s -> t <> idle ->
  safeH J t (fun _ s1 => UstH J t (h_mtx heapp :: ml) s1) (H_LOCK heapp s).
Proof. apply chMtxLock_safe. Qed.

Lemma H_UNLOCK_end J heapp t ml s :
  UstH J t (h_mtx heapp :: ml) s -> safeH J t (fun _ s' => UstH J t ml s') (H_UNLOCK heapp s).
Proof.
  intros HU. unfold H_UNLOCK. apply osafe_bind.
  eapply osafe_mono; [|by apply (chMtxUnlock_safe idle J t (h_mtx heapp) ml)].
  by intros a s' [_ HU'].
Qed.

Lemma H_UNLOCK_safe J heapp t ml s {B} (k : KM B) Q :
  UstH J t (h_mtx heapp :: ml) s -> (forall s', UstH J t ml s' -> safeH J t Q (k s')) ->
  safeH J t Q ((H_UNLOCK heapp ;;; k) s).
Proof.
  intros HU Hk. apply osafe_bind. eapply osafe_mono; [|by apply (H_UNLOCK_end J heapp t ml)].
  intros a s' HU'. by apply Hk.
Qed.

Context `{App}.

(** [chHeapAlloc()] from the lock on: first fit. *)
Lemma alloc_locked_found pr heapp size t ml s A L b L' :
  UstH (heap_own pr heapp A) t (h_mtx heapp :: ml) s -> heap_rep (k_mem s) heapp A L ->
  0 <= size -> size `mod` 8 = 0 -> fl_alloc size L = Some (b, L') ->
  exists s', alloc_locked heapp size s = (H_UNLOCK heapp ;;; mret' (b.1 + HDR)) s' /\
    heap_rep (k_mem s') heapp (b :: A) L' /\
    UstH (heap_own pr heapp (b :: A)) t (h_mtx heapp :: ml) s'.
Proof.
  intros HU HR H1 H2 Ea. pose proof (alloc_rep heapp size s A L HR H1 H2) as Hal.
  rewrite Ea in Hal. destruct Hal as (qp & E & En & HR').
  exists (alloc_take heapp size qp s). split_and!; [|done|].
  - unfold alloc_locked. by rewrite E, En.
  - rewrite alloc_take_set. apply (Ust_mem (heap_own pr heapp A)); [done|].
    destruct HU as (_ & _ & [HJ _] & _). apply heap_own_at in HJ as [Hp _].
    apply heap_own_at. split; [done|]. by exists L'.
Qed.

Lemma alloc_locked_none heapp size s A L :
  heap_rep (k_mem s) heapp A L -> 0 <= size -> size `mod` 8 = 0 -> fl_alloc size L = None ->
  alloc_locked heapp size s = (H_UNLOCK heapp ;;; alloc_provider heapp size) s.
Proof.
  intros HR H1 H2 Ea. pose proof (alloc_rep heapp size s A L HR H1 H2) as Hal.
  rewrite Ea in Hal. unfold alloc_locked. by rewrite Hal.
Qed.

Lemma alloc_provider_none heapp t ml size s A :
  UstH (heap_own None heapp A) t (h_mtx heapp :: ml) s ->
  safeH (heap_own None heapp A) t (fun p s' => p = NULL /\ UstH (heap_own None heapp A) t ml s')
    ((H_UNLOCK heapp ;;; alloc_provider heapp size) s).
Proof.
  intros HU. apply (H_UNLOCK_safe _ _ t ml); [done|].
  intros s' HU'. unfold alloc_provider. pose proof HU' as (_ & _ & [HJ _] & _).
  apply heap_own_at in HJ as [-> _]. by split.
Qed.

(** [chHeapFree()] from the lock on: coalescing insertion. *)
Lemma free_locked_ok pr heapp t ml s A L b :
  UstH (heap_own pr heapp (b :: A)) t (h_mtx heapp :: ml) s -> heap_rep (k_mem s) heapp (b :: A) L ->
  exists s', free_locked heapp b.1 s = H_UNLOCK heapp s' /\
    heap_rep (k_mem s') heapp A (fl_free b L) /\
    UstH (heap_own pr heapp A) t (h_mtx heapp :: ml) s'.
Proof.
  intros HU HR. destruct (free_rep heapp b s A L HR) as (qp & E & HR').
  exists (free_insert qp b.1 s). split_and!; [|done|].
  - unfold free_locked, bind at 1. by rewrite E.
  - rewrite free_insert_set. apply (Ust_mem (heap_own pr heapp (b :: A))); [done|].
    destruct HU as (_ & _ & [HJ _] & _). apply heap_own_at in HJ as [Hp _].
    apply heap_own_at. split; [done|]. by exists (fl_free b L).
Qed.
End Own.
