(* ===== verification/SchedThm.v ===== *)
(** * Theorems: thread queues, virtual timers, scheduling *)
From S2P Require Import Prelude Monad Types ThdLists VT Sched Sem Mtx.
From S2P Require Import Inv InvPrim InvSched Rules Scenario Wake SemOK.

(** ** Thread queues as linked lists *)

(** Empty queues: every header points to itself. *)
Definition empty_links : Ptr.links := {|
  Ptr.p_next := fun n => n; Ptr.p_prev := fun n => n;
  Ptr.p_prio := fun n => match n with Ptr.NThd t => t | Ptr.NHdr _ => 0 end
|}.

Lemma empty_links_rep : Ptr.rep empty_links (fun _ => []).
Proof. split_and!; [done|constructor|set_solver]. Qed.

(** C9: [prio_insert()] run on the doubly linked nodes stops within the queue
    and inserts the thread after the threads of equal or higher priority: the
    links then represent the abstract insertion in the queue and leave every
    other queue alone. *)
Theorem prio_insert_links m qs q t fuel :
  Ptr.rep m qs -> (forall q', t ∉ qs q') -> (length (qs q) < fuel)%nat ->
  exists m', Ptr.prio_insert fuel t q m = Some m' /\
    Ptr.rep m' (<[q := Lst.prio_ins (Ptr.prio_of m) t (qs q)]> qs).
Proof.
  intros Hr Ht Hf. destruct (Ptr.prio_insert_refines m qs q t fuel Hr Ht Hf) as (m' & E & _ & Hr').
  eauto.
Qed.

Lemma prio_insert_links_witness :
  exists m', Ptr.prio_insert 1 5 (QSem 7) empty_links = Some m' /\
    Ptr.rep m' (<[QSem 7 := [5]]> (fun _ => [])).
Proof.
  apply (prio_insert_links empty_links (fun _ => []) (QSem 7) 5 1).
  - exact empty_links_rep.
  - set_solver.
  - simpl. lia.
Defined.

(** The insertion loop of [chSchReadyI()] has no test for the end of the
    list: it stops because the ready list header has the lowest priority, and
    then inserts the thread behind its equals. *)
Theorem ready_insert_links m qs t fuel :
  Ptr.rep m qs -> (forall q', t ∉ qs q') -> (length (qs QReady) < fuel)%nat ->
  Ptr.p_prio m (Ptr.NHdr QReady) = NOPRIO -> NOPRIO < Ptr.prio_of m t ->
  exists m', Ptr.ready_insert fuel t m = Some m' /\
    Ptr.rep m' (<[QReady := Lst.prio_ins (Ptr.prio_of m) t (qs QReady)]> qs).
Proof.
  intros Hr Ht Hf Hh Hp.
  destruct (Ptr.ready_insert_refines m qs t fuel Hr Ht Hf Hh Hp) as (m' & E & _ & Hr'). eauto.
Qed.

Lemma ready_insert_links_witness :
  exists m', Ptr.ready_insert 1 5 empty_links = Some m' /\
    Ptr.rep m' (<[QReady := [5]]> (fun _ => [])).
Proof.
  apply (ready_insert_links empty_links (fun _ => []) 5 1).
  - exact empty_links_rep.
  - set_solver.
  - simpl. lia.
  - reflexivity.
  - reflexivity.
Defined.

(** Inserting a thread in a queue with [queue_insert()] and taking it out
    with [dequeue()], which is not told the queue, restores the queues. *)
Theorem queue_insert_dequeue_links m qs q t :
  Ptr.rep m qs -> (forall q', t ∉ qs q') ->
  Ptr.rep (Ptr.dequeue t (Ptr.queue_insert t q m)) qs.
Proof.
  intros Hr Ht. pose proof (Ptr.queue_insert_refines m qs q t Hr Ht) as Hi.
  pose proof (Ptr.dequeue_refines _ _ q t Hi) as Hd.
  assert (forall q', lremove t (<[q := qs q ++ [t]]> qs q') = qs q') as E.
  { intros q'. rewrite fn_insert_dec. case_decide; [subst q'|by apply lremove_notin].
    rewrite (lremove_split t (qs q) []) by (done || set_solver). by rewrite app_nil_r. }
  destruct Hd as (A & B & C); [rewrite fn_insert_eq; set_solver|]. split_and!.
  - intros q'. rewrite <-E. apply A.
  - intros q'. rewrite <-E. apply B.
  - intros q1 q2 u. rewrite <-(E q1), <-(E q2). apply C.
Qed.

Lemma queue_insert_dequeue_links_witness :
  Ptr.rep (Ptr.dequeue 5 (Ptr.queue_insert 5 (QIO 2) empty_links)) (fun _ => []).
Proof.
  apply queue_insert_dequeue_links.
  - exact empty_links_rep.
  - set_solver.
Defined.

(** ** Virtual timers *)

(** C10: [chVTSetI()] arms the timer for exactly the given number of ticks and
    changes the remaining time of no other armed timer, although the list
    holds differences. *)
Theorem timer_set `{Config} s v time fn par :
  locked_I s -> vt_wf s -> vt_func (k_vt s v) = None -> 0 < time < 2^32 ->
  exists s', chVTSetI v time fn par s = Done tt s' /\ vt_wf s' /\
    vt_func (k_vt s' v) = Some fn /\ vt_par (k_vt s' v) = par /\
    remaining s' v = Some time /\ (forall u, u <> v -> remaining s' u = remaining s u).
Proof.
  intros HL HW Hv Ht.
  destruct (chVTSetI_spec s v time fn par HL HW Hv Ht) as (L & V & E & W & _ & Ef & Ep & _ & Er & Eo).
  eexists. split; [exact E|]. by split_and!.
Qed.

Lemma timer_set_witness :
  exists s', @chVTSetI debug_config (VTUser 1) 10 (VF_user 4) 9
    (@with_lock debug_config 1 (sc_state demo)) = Done tt s' /\
    remaining s' (VTUser 1) = Some 10.
Proof.
  destruct demo_I as [HL HI].
  destruct (@timer_set debug_config (@with_lock debug_config 1 (sc_state demo)) (VTUser 1) 10
    (VF_user 4) 9) as (s' & E & _ & _ & _ & Er & _).
  - exact HL.
  - apply (i_vt _ _ _ HI).
  - reflexivity.
  - lia.
  - exists s'. by split.
Defined.

(** C11: arming a timer and resetting it restores the remaining time of every
    timer. *)
Theorem timer_set_reset `{Config} s v time fn par :
  locked_I s -> vt_wf s -> vt_func (k_vt s v) = None -> 0 < time < 2^32 ->
  exists s1 s2, chVTSetI v time fn par s = Done tt s1 /\ chVTResetI v s1 = Done tt s2 /\
    vt_wf s2 /\ vt_func (k_vt s2 v) = None /\ (forall u, remaining s2 u = remaining s u).
Proof.
  intros HL HW Hv Ht.
  destruct (chVTSetI_spec s v time fn par HL HW Hv Ht) as (L & V & E & W & HLp & Ef & Ep & _ & Er & Eo).
  set (s1 := set_k_vtl L (set_k_vt V s)) in *.
  destruct (chVTResetI_spec s1 v) as (L2 & V2 & E2 & W2 & HL2 & Ef2 & _ & Er2);
    [done|done|by simpl; rewrite Ef|].
  exists s1. eexists. split_and!; [done|exact E2|done|done|].
  intros u. destruct (decide (u = v)) as [->|Hne]; [|by rewrite Er2, Eo].
  unfold remaining. rewrite !vt_remaining_notin; [done| |].
  - rewrite (vtwf_armed s HW). congruence.
  - intros Hin. apply (vtwf_armed _ W2) in Hin. done.
Qed.

Lemma timer_set_reset_witness :
  exists s1 s2, @chVTSetI debug_config (VTUser 1) 10 (VF_user 4) 9
      (@with_lock debug_config 1 (sc_state demo)) = Done tt s1 /\
    @chVTResetI debug_config (VTUser 1) s1 = Done tt s2 /\ vt_wf s2.
Proof.
  destruct demo_I as [HL HI].
  destruct (@timer_set_reset debug_config (@with_lock debug_config 1 (sc_state demo)) (VTUser 1) 10
    (VF_user 4) 9) as (s1 & s2 & E1 & E2 & HW & _).
  - exact HL.
  - apply (i_vt _ _ _ HI).
  - reflexivity.
  - lia.
  - exists s1, s2. by split_and!.
Defined.

(** ** Scheduling *)

Section Preempt.
Context `{Config}.
Variables (s : kstate) (n : tid) (l : list tid).
Hypothesis Hne : n <> k_curr s.

Lemma behind_res_queue :
  0 < CH_TIME_QUANTUM ->
  k_q (behind_res s n l) QReady = Lst.prio_ins (k_prio s) (k_curr s) l /\
  p_preempt (k_thd (behind_res s n l) (k_curr s)) = CH_TIME_QUANTUM.
Proof.
  intros Hqt. unfold behind_res, ready_st, renew. rewrite (proj2 (Z.ltb_lt _ _)) by done.
  simpl. rewrite !fn_insert_eq. split; [|done].
  apply Lst.prio_ins_ext. intros u. unfold k_prio. simpl. rewrite !fn_insert_dec.
  repeat case_decide; by subst.
Qed.

Lemma ahead_res_queue :
  k_q (ahead_res s n l) QReady = Lst.ahead_ins (k_prio s) (k_curr s) l /\
  p_preempt (k_thd (ahead_res s n l) (k_curr s)) = p_preempt (k_thd s (k_curr s)).
Proof.
  unfold ahead_res, ahead_st. simpl. rewrite !fn_insert_eq. split.
  - apply Lst.ahead_ins_ext. intros u. unfold k_prio. simpl. rewrite !fn_insert_dec.
    repeat case_decide; by subst.
  - simpl. by rewrite fn_insert_ne.
Qed.
End Preempt.

(** C4: [chSchDoReschedule()], called when [chSchIsPreemptionRequired()] says
    so, runs the first ready thread.  A thread that has used up its quantum
    goes behind its equals with a new quantum, any other goes ahead of its
    equals and keeps what is left.  The kernel invariant holds and the running
    thread has the highest priority. *)
Theorem preemption `{Config} idle s :
  locked_I s -> KInv idle None s -> chSchIsPreemptionRequired s = true ->
  exists n l s' k, k_q s QReady = n :: l /\ chSchDoReschedule s = Suspend AtSwitch s' k /\
    k_curr s' = n /\ KInv idle None s' /\ HP s' /\
    let c := k_curr s in
    if (0 <? CH_TIME_QUANTUM) && (p_preempt (k_thd s c) =? 0)
    then k_q s' QReady = Lst.prio_ins (k_prio s) c l /\ p_preempt (k_thd s' c) = CH_TIME_QUANTUM
    else k_q s' QReady = Lst.ahead_ins (k_prio s) c l /\
         p_preempt (k_thd s' c) = p_preempt (k_thd s c).
Proof.
  intros HL HI Hp.
  assert (currprio s <= firstprio s) as Hle.
  { revert Hp. unfold chSchIsPreemptionRequired. repeat case_match; lia. }
  pose proof (currprio_pos idle None s HI) as Hpos.
  destruct (firstprio_cons idle s (currprio s)) as (n & l & Hq & Hn); [done|done|done|].
  destruct (dispatch_ne idle s n l HI Hq) as [Hne _].
  exists n, l. unfold chSchDoReschedule. cbn zeta.
  assert (exists s' k, chSchDoRescheduleAhead s = Suspend AtSwitch s' k /\
    k_curr s' = n /\ KInv idle None s' /\ HP s' /\
    k_q s' QReady = Lst.ahead_ins (k_prio s) (k_curr s) l /\
    p_preempt (k_thd s' (k_curr s)) = p_preempt (k_thd s (k_curr s)))
    as (s' & k & E & Ec & HI' & Hhp & E1 & E2).
  { exists (ahead_res s n l), (fun s' => Done tt s').
    destruct (ahead_res_queue s n l Hne). split_and!; try done.
    - by apply (chSchDoRescheduleAhead_eq idle).
    - by apply ahead_res_inv.
    - by apply (ahead_res_HP idle). }
  destruct (Z.ltb_spec 0 CH_TIME_QUANTUM), (Z.eqb_spec (p_preempt (k_thd s (k_curr s))) 0);
    cbn [andb]; try (exists s', k; by split_and!).
  exists (behind_res s n l), (fun s' => Done tt s').
  destruct (behind_res_queue s n l Hne); [done|]. split_and!; try done.
  - by apply (chSchDoRescheduleBehind_eq idle).
  - unfold behind_res, ready_st, renew. by destruct (0 <? CH_TIME_QUANTUM).
  - by apply behind_res_inv.
  - by apply (behind_res_HP idle).
Qed.

(** The main thread has used up its quantum and thread 7 has its priority. *)
Definition demo_tick : scenario := {|
  sc_curr := 1;
  sc_thd :=
    [ (0, mk_thd 1 1 THD_STATE_READY (U_msg 0) []);
      (1, set_p_preempt 0 (mk_thd 64 64 THD_STATE_CURRENT (U_msg 0) []));
      (7, mk_thd 64 64 THD_STATE_READY (U_msg 0) []) ];
  sc_q := [ (QReady, [7; 0]) ];
  sc_sem := []; sc_mtx := []; sc_data := blank
|}.

Lemma preemption_witness :
  exists n l s' k, @chSchDoReschedule app_config (sc_state demo_tick) = Suspend AtSwitch s' k /\
    k_curr s' = n /\ k_q s' QReady = Lst.prio_ins (k_prio (sc_state demo_tick)) 1 l.
Proof.
  destruct (@preemption app_config 0 (sc_state demo_tick)) as (n & l & s' & k & _ & E & Ec & _ & _ & Eq & _).
  - intros ?. discriminate.
  - apply sc_KInv. apply (bool_decide_unpack _). by vm_compute.
  - reflexivity.
  - exists n, l, s', k. by split_and!.
Defined.

(** [chSchRescheduleS()] leaves the caller running with the highest
    priority: it returns at once if no ready thread has more, and otherwise
    when the caller is scheduled again. *)
Theorem reschedule_safe `{Config} idle J t ml s :
  Mst idle J t ml s ->
  osafe (grd idle J) (rely idle J t) (fun _ s' => Sst idle J t ml s') (chSchRescheduleS s).
Proof. intros HM. by apply (chSchRescheduleS_rule idle J t ml). Qed.

Lemma reschedule_safe_witness :
  osafe (@grd debug_config 0 (fun _ => True)) (@rely debug_config 0 (fun _ => True) 1)
    (fun _ s' => @Sst debug_config 0 (fun _ => True) 1 [5] s')
    (@chSchRescheduleS debug_config (@with_lock debug_config 1 (sc_state demo))).
Proof. apply reschedule_safe. apply demo_Sst. Defined.
