(* ===== verification/SyncThm.v ===== *)
(** * Theorems: semaphores, mutexes, condition variables, events, messages *)
From S2P Require Import Prelude Monad Types ThdLists VT Sched Sem Mtx.
From S2P Require Import Evt Inv InvPrim InvSched Rules Scenario Wake SemOK.
From S2P Require Import MtxOK EvtOK MsgOK.

(** What is shown of an API function called by thread [t]: whatever other
    threads and handlers do within [rely] where it is switched out, it never
    panics, faults or loops, leaves every state it exposes in [grd], and
    returns in [Q]. *)
Abbreviation safe_call idle J t Q o := (osafe (grd idle J) (rely idle J t) Q o).

(** The example system, with every debug option enabled. *)
#[local] Existing Instance debug_config.
Local Abbreviation D := debug_config.
Local Abbreviation s0 := (sc_state demo).
Local Abbreviation s1 := (@with_lock D 1 s0).
Local Abbreviation J0 := (fun _ : kdata_t => True).

(** ** Semaphores *)

(** C28: [chSemWaitTimeout()] is safe for every timeout, zero and infinite
    included, and returns to the caller outside the kernel with its mutexes as
    they were. *)
Theorem sem_wait_timeout_safe `{Config} idle J t ml sp time s :
  Ust idle J t ml s -> t <> idle -> -2^31 < k_sem s sp -> 0 <= time < 2^32 ->
  safe_call idle J t (fun _ s' => Ust idle J t ml s') (chSemWaitTimeout sp time s) /\
  safe_call idle J t (fun _ s' => Ust idle J t ml s') (chSemWait sp s).
Proof. intros. split; [by apply chSemWaitTimeout_safe|by apply chSemWait_safe]. Qed.

Lemma sem_wait_timeout_safe_witness :
  safe_call 0 J0 1 (fun _ s' => @Ust D 0 J0 1 [5] s') (@chSemWait D 7 s0).
Proof.
  apply (@sem_wait_timeout_safe D 0 J0 1 [5] 7 10 s0 demo_Ust).
  - done.
  - by vm_compute.
  - lia.
Defined.

(** [chSemSignalI()] adds one to the counter and wakes exactly the first
    waiting thread, with the message [RDY_OK]; nothing else changes. *)
Theorem sem_signal_wakes_first `{Config} idle s sp w l :
  locked_I s -> KInv idle None s -> k_q s (QSem sp) = w :: l ->
  exists s', chSemSignalI sp s = Done tt s' /\ KInv idle None s' /\
    k_sem s' sp = k_sem s sp + 1 /\ k_q s' (QSem sp) = l /\
    p_state (k_thd s' w) = THD_STATE_READY /\ p_u (k_thd s' w) = U_msg RDY_OK /\
    (forall u, u <> w -> k_thd s' u = k_thd s u).
Proof.
  intros HL HI Hq. destruct (sem_len idle None s sp HI) as [Hs Hl]. rewrite Hq in Hl.
  cbn [length] in Hl. destruct (chSemSignalI_eq idle s sp HL HI) as [E Hi]; [lia|].
  exists (signal_st sp s). split_and!; [done|apply Hi|apply signal_st_sem| |..].
  - by rewrite signal_st_q, Hq.
  - unfold signal_st. rewrite Hq, wake_st_thd. by rewrite decide_True.
  - unfold signal_st. rewrite Hq, wake_st_thd. by rewrite decide_True.
  - intros u Hu. unfold signal_st. rewrite Hq, wake_st_thd. by rewrite decide_False.
Qed.

Lemma sem_signal_wakes_first_witness :
  exists s', @chSemSignalI D 7 s1 = Done tt s' /\ k_sem s' 7 = 0 /\
    p_state (k_thd s' 2) = THD_STATE_READY.
Proof.
  destruct demo_I as [HL HI].
  destruct (@sem_signal_wakes_first D 0 s1 7 2 [] HL HI) as (s' & E & _ & En & _ & Es & _).
  - reflexivity.
  - exists s'. split_and!; [done| |done]. rewrite En. reflexivity.
Defined.

(** [chSemSignal()] and [chSemSignalWait()] are safe: they switch to the
    thread they wake if it has more priority and come back with the highest
    priority. *)
Theorem sem_signal_safe `{Config} idle J t ml sps spw s :
  Ust idle J t ml s -> t <> idle -> k_sem s sps < 2^31 - 1 -> -2^31 < k_sem s spw ->
  safe_call idle J t (fun _ s' => Ust idle J t ml s') (chSemSignal sps s) /\
  safe_call idle J t (fun _ s' => Ust idle J t ml s') (chSemSignalWait sps spw s).
Proof. intros. split; [by apply chSemSignal_safe|by apply chSemSignalWait_safe]. Qed.

Lemma sem_signal_safe_witness :
  safe_call 0 J0 1 (fun _ s' => @Ust D 0 J0 1 [5] s') (@chSemSignalWait D 7 8 s0).
Proof. apply (@sem_signal_safe D 0 J0 1 [5] 7 8 s0 demo_Ust); by vm_compute. Defined.

(** C29: [chSemAddCounterI(sp, n)] terminates after [n] rounds, adds [n] to the
    counter and wakes the first [n] waiting threads. *)
Theorem sem_add_counter `{Config} idle n s sp :
  locked_I s -> KInv idle None s -> 0 < n -> k_sem s sp + n < 2^31 ->
  exists s', chSemAddCounterI sp n s = Done tt s' /\ KInv idle None s' /\
    k_sem s' sp = k_sem s sp + n /\ k_q s' (QSem sp) = drop (Z.to_nat n) (k_q s (QSem sp)).
Proof.
  intros HL HI Hn Hm. destruct (chSemAddCounterI_eq idle n s sp HL HI Hn Hm) as (s' & E & Hi & E1 & E2).
  exists s'. split_and!; try done. apply Hi.
Qed.

Lemma sem_add_counter_witness :
  exists s', @chSemAddCounterI D 7 3 s1 = Done tt s' /\ k_sem s' 7 = 2 /\ k_q s' (QSem 7) = [].
Proof.
  destruct demo_I as [HL HI].
  destruct (@sem_add_counter D 0 3 s1 7 HL HI) as (s' & E & _ & En & Eq).
  - lia.
  - by vm_compute.
  - exists s'. split_and!; [done|rewrite En; reflexivity|rewrite Eq; reflexivity].
Defined.

(** [chSemResetI()] sets the counter and releases every waiting thread
    with the message [RDY_RESET], and only those. *)
Theorem sem_reset `{Config} idle n s sp :
  locked_I s -> KInv idle None s -> 0 <= n < 2^31 ->
  exists s', chSemResetI sp n s = Done tt s' /\ KInv idle None s' /\
    k_sem s' sp = n /\ k_q s' (QSem sp) = [] /\
    (forall u, k_thd s' u =
      if decide (u ∈ k_q s (QSem sp))
      then set_p_state THD_STATE_READY (set_p_u (U_msg RDY_RESET) (k_thd s u))
      else k_thd s u).
Proof.
  intros HL HI Hn. destruct (chSemResetI_eq idle s sp n HL HI Hn) as (s' & E & Hi & E1 & E2 & E3).
  exists s'. split_and!; try done. apply Hi.
Qed.

Lemma sem_reset_witness :
  exists s', @chSemResetI D 7 4 s1 = Done tt s' /\ k_sem s' 7 = 4 /\ k_q s' (QSem 7) = [].
Proof.
  destruct demo_I as [HL HI].
  destruct (@sem_reset D 0 4 s1 7 HL HI) as (s' & E & _ & En & Eq & _).
  - lia.
  - exists s'. by split_and!.
Defined.

(** ** Mutexes *)

(** C1: [chMtxLockS()] on a mutex owned by another thread blocks the caller on
    the queue of the mutex; the loop that follows the owners terminates, the
    owner gets at least the priority of the caller, and if every owner had the
    priority of every thread waiting for it, so it is again. *)
Theorem mutex_lock_inherits `{Config} idle J t ml mp o s :
  Sst idle J t ml s -> t <> idle -> k_mtx s mp = Some o ->
  exists s' k, chMtxLockS mp s = Suspend AtSwitch s' k /\
    t ∈ k_q s' (QMtx mp) /\ p_state (k_thd s' t) = THD_STATE_WTMTX /\
    k_prio s t <= k_prio s' o /\ (PI s -> PI s').
Proof.
  intros HS Hid Hm. destruct (chMtxLockS_blocks idle J t ml mp o s HS Hid Hm) as (s' & k & E & H1 & H2 & H3 & H4 & _).
  by exists s', k.
Qed.

Lemma mutex_lock_inherits_witness :
  exists s' k, @chMtxLockS D 6 s1 = Suspend AtSwitch s' k /\ 1 ∈ k_q s' (QMtx 6) /\
    k_prio s1 1 <= k_prio s' 3.
Proof.
  destruct (@mutex_lock_inherits D 0 J0 1 [5] 6 3 s1 demo_Sst) as (s' & k & E & Hq & _ & Hp & _).
  - done.
  - reflexivity.
  - exists s', k. by split_and!.
Defined.

(** C30: [chMtxLockS()] takes a free mutex at once.  For a mutex with an owner
    the caller waits on its queue and does not own it; when some owner releases
    it with [chMtxUnlockS()] and the caller is the first of the queue, the mutex
    and its place on top of the mutexes of the caller are given to it, the
    caller is made ready, and no third thread gains or loses a mutex; and from
    every state in which it still has what it was given, [chMtxLockS()] returns
    without changing anything. *)
Theorem mutex_lock_granted `{Config} idle J t ml mp s :
  Sst idle J t ml s -> t <> idle ->
  match k_mtx s mp with
  | None => exists s', chMtxLockS mp s = Done tt s' /\ Sst idle J t (mp :: ml) s' /\ k_mtx s' mp = Some t
  | Some _ => exists s1 k, chMtxLockS mp s = Suspend AtSwitch s1 k /\
      t ∈ k_q s1 (QMtx mp) /\ k_mtx s1 = k_mtx s /\ p_mtxlist (k_thd s1 t) = ml /\
      forall o l q u, Mst idle J o (mp :: l) u -> k_q u (QMtx mp) = t :: q ->
      exists u', chMtxUnlockS u = Done mp u' /\ t ∈ k_q u' QReady /\
        k_mtx u' mp = Some t /\ p_mtxlist (k_thd u' t) = mp :: p_mtxlist (k_thd u t) /\
        (forall w, w <> o -> w <> t -> p_mtxlist (k_thd u' w) = p_mtxlist (k_thd u w)) /\
        forall v, k_mtx v mp = k_mtx u' mp -> p_mtxlist (k_thd v t) = p_mtxlist (k_thd u' t) -> k v = Done tt v
  end.
Proof.
  intros HS Hid. pose proof (chMtxLockS_takes idle J t ml mp tt s HS Hid) as HT. unfold takes in HT.
  destruct (k_mtx s mp) as [p|] eqn:Hm.
  - clear HT. destruct (chMtxLockS_blocks idle J t ml mp p s HS Hid Hm) as (s1 & k & E & Hq & _ & _ & _ & Em & El & Hk).
    exists s1, k. split_and!; try done. intros o l q u HM Hu.
    destruct (chMtxUnlockS_eq idle J o mp l u HM) as (u' & Eu & _ & _ & Ho & _ & Hl & Hr). rewrite Hu in Ho, Hl, Hr.
    destruct (Hr t eq_refl) as [Hto Hrt]. exists u'. split_and!; try done.
    + rewrite Hl by done. by rewrite decide_True.
    + intros w Hwo Hwt. rewrite Hl by done. rewrite decide_False; [done|]. simpl. congruence.
    + intros v Ev Ew. apply Hk; [by rewrite Ev|]. rewrite Ew, Hl by done. by rewrite decide_True.
  - destruct HT as (s' & E & Hs' & Ho). exists s'. split_and!; try done. unfold bind in E.
    by destruct (chMtxLockS mp s) as [[] ?| |] eqn:E1; simplify_eq/=.
Qed.

(** Thread 1 asks for mutex 6 of thread 3; then thread 3 runs, with the
    priority of thread 1. *)
Definition relay (curr prio3 : Z) (st1 st3 : tstate) (u1 : punion) (ready wait : list tid) : scenario := {|
  sc_curr := curr;
  sc_thd := [ (0, mk_thd 1 1 THD_STATE_READY (U_msg 0) []); (1, mk_thd 64 64 st1 u1 []);
              (3, mk_thd prio3 40 st3 (U_msg 0) [6]) ];
  sc_q := [ (QReady, ready); (QMtx 6, wait) ];
  sc_sem := []; sc_mtx := [ (6, Some 3) ]; sc_data := blank
|}.
Definition relay_asks : scenario := relay 1 40 THD_STATE_CURRENT THD_STATE_READY (U_msg 0) [3; 0] [].
Definition relay_gives : scenario := relay 3 64 THD_STATE_WTMTX THD_STATE_CURRENT (U_wtobjp (QMtx 6)) [0] [1].

Lemma relay_Sst d t ml :
  sc_ok (H := D) 0 d -> sc_UB d -> firstprio (sc_state d) <= currprio (sc_state d) -> sc_data d = blank ->
  sc_curr d = t -> p_mtxlist (k_thd (sc_state d) t) = ml -> @Sst D 0 J0 t ml (@with_lock D 1 (sc_state d)).
Proof.
  intros H1 H2 H3 H4 H5 H6. destruct (@chSysLock_rule D 0 J0 t ml (sc_state d)) as (s' & _ & -> & HS); [|done].
  by apply sc_Ust.
Qed.

Lemma mutex_lock_granted_witness :
  exists s' k u', @chMtxLockS D 6 (@with_lock D 1 (sc_state relay_asks)) = Suspend AtSwitch s' k /\
    @chMtxUnlockS D (@with_lock D 1 (sc_state relay_gives)) = Done 6 u' /\ k_mtx u' 6 = Some 1 /\
    p_mtxlist (k_thd u' 1) = [6] /\ k u' = Done tt u'.
Proof.
  destruct (@mutex_lock_granted D 0 J0 1 [] 6 (@with_lock D 1 (sc_state relay_asks))) as (s' & k & E & _ & _ & _ & Hk).
  - apply relay_Sst; try done; apply (bool_decide_unpack _); by vm_compute.
  - done.
  - destruct (Hk 3 [] [] (@with_lock D 1 (sc_state relay_gives))) as (u' & Eu & _ & Eo & El & _ & Hv).
    + apply relay_Sst; try done; apply (bool_decide_unpack _); by vm_compute.
    + reflexivity.
    + exists s', k, u'. split_and!; [exact E|exact Eu|exact Eo|exact El|]. by apply Hv.
Defined.

(** [chMtxLock()] is safe; when it returns the caller owns the mutex, on
    top of those it had. *)
Theorem mutex_lock_safe `{Config} idle J t ml mp s :
  Ust idle J t ml s -> t <> idle ->
  safe_call idle J t (fun _ s' => Ust idle J t (mp :: ml) s') (chMtxLock mp s).
Proof. apply chMtxLock_safe. Qed.

Lemma mutex_lock_safe_witness :
  safe_call 0 J0 1 (fun _ s' => @Ust D 0 J0 1 [6; 5] s') (@chMtxLock D 6 s0).
Proof. apply (@mutex_lock_safe D 0 J0 1 [5] 6 s0 demo_Ust). done. Defined.

(** C2: [chMtxUnlockS()] releases the last mutex locked: its first waiter
    becomes the owner, the caller falls back to the highest priority it still
    owns or inherits, and priority inheritance is kept. *)
Theorem mutex_unlock_hands_over `{Config} idle J t mp l s :
  Mst idle J t (mp :: l) s ->
  exists s', chMtxUnlockS s = Done mp s' /\ Mst idle J t l s' /\
    k_mtx s' mp = head (k_q s (QMtx mp)) /\
    (forall w q, k_q s (QMtx mp) = w :: q -> k_prio s' t = left_prio t l s) /\
    (PI s -> PI s').
Proof.
  intros HM. destruct (chMtxUnlockS_eq idle J t mp l s HM) as (s' & E & HM' & Ep & Em & HP & _).
  exists s'. split_and!; try done. intros w q Hq. by rewrite Ep, Hq.
Qed.

Lemma mutex_unlock_hands_over_witness :
  exists s', @chMtxUnlockS D s1 = Done 5 s' /\ k_mtx s' 5 = Some 3 /\ k_prio s' 1 = 64.
Proof.
  destruct (@mutex_unlock_hands_over D 0 J0 1 5 [] s1 (proj1 demo_Sst)) as (s' & E & _ & Em & Ep & _).
  exists s'. split_and!; [done|by rewrite Em|]. rewrite (Ep 3 []); reflexivity.
Defined.

(** [chMtxUnlock()] and [chMtxUnlockAll()] are safe; the first gives back
    the last mutex locked, the second all of them. *)
Theorem mutex_unlock_safe `{Config} idle J t mp l s :
  Ust idle J t (mp :: l) s ->
  safe_call idle J t (fun ump s' => ump = mp /\ Ust idle J t l s') (chMtxUnlock s) /\
  safe_call idle J t (fun _ s' => Ust idle J t [] s') (chMtxUnlockAll s).
Proof. intros HU. split; [by apply chMtxUnlock_safe|by eapply chMtxUnlockAll_safe]. Qed.

Lemma mutex_unlock_safe_witness :
  safe_call 0 J0 1 (fun _ s' => @Ust D 0 J0 1 [] s') (@chMtxUnlockAll D s0).
Proof. apply (@mutex_unlock_safe D 0 J0 1 5 [] s0 demo_Ust). Defined.

(** ** Condition variables *)

(** [chCondWaitS()] and [chCondWaitTimeoutS()] are safe. *)
Theorem cond_wait_safe `{Config} idle J t mp l cp time s :
  Sst idle J t (mp :: l) s -> t <> idle -> 0 < time < 2^32 ->
  safe_call idle J t (fun msg s' => Sst idle J t (if msg =? RDY_TIMEOUT then l else mp :: l) s')
    (chCondWaitTimeoutS cp time s) /\
  safe_call idle J t (fun _ s' => Sst idle J t (mp :: l) s') (chCondWaitS cp s).
Proof. intros. split; [by apply chCondWaitTimeoutS_safe|by apply chCondWaitS_safe]. Qed.

Lemma cond_wait_safe_witness :
  safe_call 0 J0 1 (fun _ s' => @Sst D 0 J0 1 [5] s') (@chCondWaitS D 9 s1).
Proof. apply (@cond_wait_safe D 0 J0 1 5 [] 9 10 s1 demo_Sst); [done|lia]. Defined.

(** C31: [chCondWaitS()] and [chCondWaitTimeoutS()] with a finite timeout.
    Where the caller is switched out it waits for the condition, no longer owns
    the mutex it had locked last, and the first thread that waited for that
    mutex owns it, or nobody does.  Switched in again without the mutex, the
    caller returns at once and without the mutex when a wait with a timeout ends
    by [RDY_TIMEOUT]; in every other case it locks the same mutex: it takes it
    if it is free, else it waits on the queue of the mutex, and it returns the
    wake-up message from every state in which the mutex has been given to it. *)
Theorem cond_wait_releases `{Config} idle J t mp l cp time s :
  Sst idle J t (mp :: l) s -> t <> idle -> 0 < time < TIME_INFINITE ->
  (exists s' k, chCondWaitS cp s = Suspend AtSwitch s' k /\ gave_up t mp l cp s s' /\
    forall v, Sst idle J t l v -> takes idle J t l mp (u_rdymsg (p_u (k_thd v t))) v (k v)) /\
  (exists s' k, chCondWaitTimeoutS cp time s = Suspend AtSwitch s' k /\ gave_up t mp l cp s s' /\
    forall v, KInv idle None v -> HP v -> DU J v -> k_curr v = t -> locked_S v -> p_mtxlist (k_thd v t) = l ->
    exists v', Sst idle J t l v' /\ k_mtx v' = k_mtx v /\
      let msg := u_rdymsg (p_u (k_thd v t)) in
      if msg =? RDY_TIMEOUT then k v = Done msg v' else takes idle J t l mp msg v' (k v)).
Proof. intros. split; [by apply chCondWaitS_waits|by apply chCondWaitTimeoutS_waits]. Qed.

(** Thread 1 waits for condition 9 and thread 3 gets its mutex; woken when the
    mutex is free, it takes it again. *)
Lemma cond_wait_releases_witness :
  exists s' k, @chCondWaitS D 9 s1 = Suspend AtSwitch s' k /\ k_mtx s' 5 = Some 3 /\
    exists v', k (@with_lock D 1 (sc_state relay_asks)) = Done 0 v' /\ k_mtx v' 5 = Some 1.
Proof.
  destruct (@cond_wait_releases D 0 J0 1 5 [] 9 10 s1 demo_Sst) as [(s' & k & E & (Em & _) & Hk) _].
  - done.
  - unfold TIME_INFINITE. lia.
  - exists s', k. split_and!; [exact E|by rewrite Em|].
    destruct (Hk (@with_lock D 1 (sc_state relay_asks))) as (v' & Ev & _ & Eo).
    + apply relay_Sst; try done; apply (bool_decide_unpack _); by vm_compute.
    + exists v'. by split.
Defined.

(** [chCondBroadcastI()] empties the queue of the condition variable and
    releases every thread that was on it with [RDY_RESET]. *)
Theorem cond_broadcast_releases `{Config} idle cp s :
  locked_I s -> KInv idle None s ->
  exists s', chCondBroadcastI cp s = Done tt s' /\ KInv idle None s' /\ k_q s' (QCond cp) = [] /\
    (forall u, k_thd s' u =
      if decide (u ∈ k_q s (QCond cp))
      then set_p_state THD_STATE_READY (set_p_u (U_msg RDY_RESET) (k_thd s u))
      else k_thd s u).
Proof.
  intros HL HI. destruct (chCondBroadcastI_eq idle cp s HL HI) as (s' & E & Hi & Eq & Et).
  exists s'. split_and!; try done. apply Hi.
Qed.

Lemma cond_broadcast_releases_witness :
  exists s', @chCondBroadcastI D 9 s1 = Done tt s' /\ k_q s' (QCond 9) = [].
Proof.
  destruct demo_I as [HL HI].
  destruct (@cond_broadcast_releases D 0 9 s1 HL HI) as (s' & E & _ & Eq & _). eauto.
Defined.

(** ** Events *)

(** [chEvtSignalI()] adds the events to those pending for the thread and
    wakes it exactly when they satisfy the condition it waits for, any of the
    events or all of them; no other thread changes. *)
Theorem evt_signal `{Config} idle s tp mask :
  locked_I s -> KInv idle None s -> tp <> 0 ->
  exists s', chEvtSignalI tp mask s = Done tt s' /\ KInv idle None s' /\
    p_epending (k_thd s' tp) = Z.lor (p_epending (k_thd s tp)) mask /\
    p_state (k_thd s' tp) =
      (if evt_ready (set_p_epending (Z.lor (p_epending (k_thd s tp)) mask) (k_thd s tp))
       then THD_STATE_READY else p_state (k_thd s tp)) /\
    (forall u, u <> tp -> k_thd s' u = k_thd s u).
Proof.
  intros HL HI Htp. destruct (chEvtSignalI_eq idle s tp mask HL HI Htp) as [E Hi].
  exists (signalled tp mask s). split_and!; [done|apply Hi|..].
  - rewrite signalled_thd, decide_True by done. cbn zeta. by destruct (evt_ready _).
  - rewrite signalled_thd, decide_True by done. cbn zeta. by destruct (evt_ready _).
  - intros u Hu. by rewrite signalled_thd, decide_False by done.
Qed.

Lemma evt_signal_witness :
  exists s', @chEvtSignalI D 6 2 s1 = Done tt s' /\ p_state (k_thd s' 6) = THD_STATE_READY.
Proof.
  destruct demo_I as [HL HI].
  destruct (@evt_signal D 0 s1 6 2 HL HI) as (s' & E & _ & _ & Es & _).
  - done.
  - exists s'. split; [done|]. rewrite Es. reflexivity.
Defined.

(** [chEvtBroadcastFlagsI()] serves every listener of the source once: its
    flags are added to, its thread gets the events of its mask, and threads
    are only ever made ready. *)
Theorem evt_broadcast `{Config} idle s esp flags :
  locked_I s -> KInv idle None s -> esp <> 0 -> NoDup (k_es s esp) ->
  (forall elp, elp ∈ k_es s esp -> el_listener (k_el s elp) <> 0) ->
  exists s', chEvtBroadcastFlagsI esp flags s = Done tt s' /\ KInv idle None s' /\
    (forall elp, k_el s' elp = if decide (elp ∈ k_es s esp)
       then set_el_flags (Z.lor (el_flags (k_el s elp)) flags) (k_el s elp) else k_el s elp) /\
    (forall u, p_epending (k_thd s' u) = heard s (k_es s esp) u (p_epending (k_thd s u))) /\
    (forall u, p_state (k_thd s' u) = p_state (k_thd s u) \/
               p_state (k_thd s' u) = THD_STATE_READY).
Proof.
  intros HL HI Hesp Hnd Hl.
  destruct (broadcast_loop_eq idle (k_es s esp) s flags HL HI Hnd Hl) as (s' & E & Hi & E1 & E2 & E3).
  exists s'. split_and!; try done.
  - unfold chEvtBroadcastFlagsI. rewrite classI_bind by done.
    by rewrite check_bind by (by rewrite (proj2 (Z.eqb_neq _ _))).
  - by apply (set_k_el_inv idle None s' (k_el s)), Hi.
Qed.

(** Two listeners of source 1, threads 6 and 7. *)
Definition demo_evt : scenario :=
  {| sc_curr := sc_curr demo; sc_thd := sc_thd demo; sc_q := sc_q demo; sc_sem := sc_sem demo;
     sc_mtx := sc_mtx demo;
     sc_data := set_k_es (fun p => if decide (p = 1) then [21; 20] else [])
                  (set_k_el (get_assoc [(20, mkEL 6 1 0); (21, mkEL 7 4 0)] (mkEL 0 0 0)) blank) |}.

Lemma evt_broadcast_witness :
  exists s', @chEvtBroadcastFlagsI app_config 1 8 (sc_state demo_evt) = Done tt s' /\
    el_flags (k_el s' 20) = 8 /\ p_epending (k_thd s' 7) = 4.
Proof.
  destruct (@evt_broadcast app_config 0 (sc_state demo_evt) 1 8) as (s' & E & _ & E1 & E2 & _).
  - intros ?. discriminate.
  - apply sc_KInv. apply (bool_decide_unpack _). by vm_compute.
  - done.
  - apply (bool_decide_unpack _). by vm_compute.
  - intros elp Hin. change (elp ∈ [21; 20]) in Hin. repeat (apply elem_of_cons in Hin as [->|Hin]; [done|]).
    by apply elem_of_nil in Hin.
  - exists s'. split_and!; [done|rewrite E1; reflexivity|rewrite E2; reflexivity].
Defined.

(** [chEvtDispatch()] calls the handler of each event of the mask once, in
    increasing order of identifier, and stops after the last of the 32. *)
Theorem evt_dispatch `{Config} `{App} handlers mask s :
  0 <= mask < 2^32 ->
  (forall i, Z.testbit mask i = true -> exists fn, handlers !! Z.to_nat i = Some (Some fn)) ->
  oeq (chEvtDispatch handlers mask s) (run_handlers handlers (event_ids 32 0 mask) s).
Proof. intros Hm Hh. apply dispatch_loop_eq; try done; lia. Qed.

(** An application whose handlers count their calls in the system time. *)
Definition demo_app : App := {|
  user_memget := fun _ _ => mret' 0;
  user_vtfunc := fun _ _ => mret' tt;
  user_qnotify := fun _ _ => mret' tt;
  user_evhandler := fun fn eid => modify (fun s => set_k_systime (100 * k_systime s + fn + eid) s);
  default_heap := 0x1000; mainthread := 1; _idle_thread_wa := 0; ch_debug := 0; idle_name := 0
|}.

Lemma evt_dispatch_witness :
  event_ids 32 0 5 = [0; 2] /\
  oeq (@chEvtDispatch D demo_app [Some 10; None; Some 10] 5 s0)
      (@run_handlers demo_app [Some 10; None; Some 10] (event_ids 32 0 5) s0).
Proof.
  split; [by vm_compute|]. apply (@evt_dispatch D demo_app [Some 10; None; Some 10] 5 s0).
  - lia.
  - intros i Hi. assert (i = 0 \/ i = 2) as [-> | ->]; [|eexists; reflexivity..].
    destruct (decide (0 <= i)) as [Hp|Hn]; [|rewrite Z.testbit_neg_r in Hi by lia; done].
    destruct (decide (i < 3)); [assert (i = 0 \/ i = 1 \/ i = 2) as [->|[->| ->]] by lia; auto; discriminate|].
    rewrite Z.bits_above_log2 in Hi; [done|lia|]. change (Z.log2 5) with 2. lia.
Defined.

(** The event wait functions are safe.  [chEvtWaitOne()] returns one event
    of the mask, [chEvtWaitAny()] some of them, [chEvtWaitAll()] all of them,
    and the events returned are no longer pending. *)
Theorem evt_wait_safe `{Config} idle J t ml mask s :
  Ust idle J t ml s -> t <> idle -> 0 <= mask < 2^32 ->
  safe_call idle J t (fun m s' => Ust idle J t ml s' /\
    exists i, 0 <= i < 32 /\ m = 2^i /\ Z.testbit mask i = true) (chEvtWaitOne mask s) /\
  safe_call idle J t (fun m s' => Ust idle J t ml s' /\ m <> 0 /\ Z.land m mask = m)
    (chEvtWaitAny mask s) /\
  safe_call idle J t (fun m s' => Ust idle J t ml s' /\ m = mask) (chEvtWaitAll mask s).
Proof.
  intros. split_and!; [by apply chEvtWaitOne_safe|by apply chEvtWaitAny_safe|by apply chEvtWaitAll_safe].
Qed.

Lemma evt_wait_safe_witness :
  safe_call 0 J0 1 (fun m s' => @Ust D 0 J0 1 [5] s' /\ m <> 0 /\ Z.land m 6 = m)
    (@chEvtWaitAny D 6 s0).
Proof.
  destruct (@evt_wait_safe D 0 J0 1 [5] 6 s0 demo_Ust) as (_ & Hw & _); [done|lia|exact Hw].
Defined.

(** ** Messages *)

(** [chMsgSend()] puts the sender on the message queue of the receiver with
    its message stored, last in the queue if it is not kept by priority, makes
    a receiver that waits for a message ready, and is safe. *)
Theorem msg_send `{Config} idle J t ml tp msg s :
  Ust idle J t ml s -> t <> idle -> tp <> 0 -> tp <> t ->
  safe_call idle J t (fun _ s' => Ust idle J t ml s') (chMsgSend tp msg s) /\
  exists s1 k, chMsgSend tp msg s = Suspend AtSwitch s1 k /\
    t ∈ k_q s1 (QMsg tp) /\
    (CH_USE_MESSAGES_PRIORITY = false -> k_q s1 (QMsg tp) = k_q s (QMsg tp) ++ [t]) /\
    p_state (k_thd s1 t) = THD_STATE_SNDMSGQ /\ chMsgGet s1 t = msg /\
    (p_state (k_thd s tp) = THD_STATE_WTMSG ->
       p_state (k_thd s1 tp) = THD_STATE_READY \/ k_curr s1 = tp).
Proof. intros. split; [by apply chMsgSend_safe|by eapply chMsgSend_blocks]. Qed.

Lemma msg_send_witness :
  exists s1 k, @chMsgSend D 5 77 s0 = Suspend AtSwitch s1 k /\ k_q s1 (QMsg 5) = [1] /\
    chMsgGet s1 1 = 77.
Proof.
  destruct (@msg_send D 0 J0 1 [5] 5 77 s0 demo_Ust) as (_ & s1 & k & E & _ & Eq & _ & Em & _);
    [done..|].
  exists s1, k. split_and!; [done| |done]. rewrite Eq; reflexivity.
Defined.

(** [chMsgWait()] is safe and, when a message is pending, returns its sender
    without waiting; the sender stays suspended with its message until
    [chMsgRelease()], which is safe too. *)
Theorem msg_wait_release `{Config} idle J t ml s tp msg :
  Ust idle J t ml s -> t <> idle -> p_state (k_thd s tp) = THD_STATE_SNDMSG ->
  safe_call idle J t (fun _ s' => Ust idle J t ml s') (chMsgWait s) /\
  safe_call idle J t (fun _ s' => Ust idle J t ml s') (chMsgRelease tp msg s) /\
  (forall w l, k_q s (QMsg t) = w :: l ->
     exists s1 k, chMsgWait s = Suspend AtUnlock s1 k /\ (forall s2, k s2 = Done w s2) /\
       k_q s1 (QMsg t) = l /\ p_state (k_thd s1 w) = THD_STATE_SNDMSG /\
       chMsgGet s1 w = chMsgGet s w).
Proof.
  intros. split_and!; [by apply chMsgWait_safe|by apply chMsgRelease_safe|].
  intros w l Hq. by apply (chMsgWait_pending idle J t ml).
Qed.

(** Thread 1 serves thread 2; thread 3 is next. *)
Definition demo_msg : scenario := {|
  sc_curr := 1;
  sc_thd :=
    [ (0, mk_thd 1 1 THD_STATE_READY (U_msg 0) []);
      (1, mk_thd 64 64 THD_STATE_CURRENT (U_msg 0) []);
      (2, mk_thd 70 70 THD_STATE_SNDMSG (U_msg 0) []);
      (3, mk_thd 80 80 THD_STATE_SNDMSGQ (U_wtobjp (QMsg 1)) []) ];
  sc_q := [ (QReady, [0]); (QMsg 1, [3]) ];
  sc_sem := []; sc_mtx := []; sc_data := blank
|}.

Lemma msg_wait_release_witness :
  exists s1 k, @chMsgWait D (sc_state demo_msg) = Suspend AtUnlock s1 k /\
    p_state (k_thd s1 3) = THD_STATE_SNDMSG.
Proof.
  destruct (@msg_wait_release D 0 J0 1 [] (sc_state demo_msg) 2 5) as (_ & _ & Hw).
  - apply sc_Ust; try done; apply (bool_decide_unpack _); by vm_compute.
  - done.
  - reflexivity.
  - destruct (Hw 3 [] eq_refl) as (s1 & k & E & _ & _ & Es & _). eauto.
Defined.
