(* ===== verification/DataThm.v ===== *)
(** * Theorems: mailboxes and I/O queues *)
From S2P Require Import Prelude Monad Types ThdLists VT Sched Sem Mtx.
From S2P Require Import Mbox IOQ Ring Inv InvPrim InvSched Rules Scenario.
From S2P Require Import Wake SemOK MboxOK IOQOK SyncThm.

Local Abbreviation D := debug_config.

(** ** Mailboxes *)

(** C3: any sequence of [chMBPostI()], [chMBPostAheadI()] and [chMBFetchI()] on
    a mailbox nobody waits on gives the results of a bounded sequence of
    messages: posts fail exactly when it is full and fetches when it is empty,
    messages come out in order, and the buffer and the two counters represent
    the sequence all along. *)
Theorem mailbox_refines `{Config} idle mbp ops s l :
  locked_I s -> KInv idle None s -> mbp <> 0 -> mb_idle s mbp l ->
  len (mb_buffer (k_mb s mbp)) < 2^31 ->
  let '(rs, l') := spec_run (len (mb_buffer (k_mb s mbp))) ops l in
  exists s', impl_run mbp ops s = Done rs s' /\ mb_idle s' mbp l' /\ KInv idle None s'.
Proof. apply impl_run_refines. Qed.

(** Mailbox 3 with two slots, on semaphores 11 and 12. *)
Definition demo_mbox : scenario := {|
  sc_curr := 1;
  sc_thd := [ (0, mk_thd 1 1 THD_STATE_READY (U_msg 0) []);
              (1, mk_thd 64 64 THD_STATE_CURRENT (U_msg 0) []) ];
  sc_q := [ (QReady, [0]) ];
  sc_sem := [ (12, 2) ]; sc_mtx := [];
  sc_data := set_k_mb (fun _ => mkMB [0; 0] 0 0 11 12) blank
|}.

Lemma mailbox_refines_witness :
  exists s', @impl_run app_config 3 [OpPost 5; OpPostAhead 6; OpPost 7; OpFetch; OpFetch; OpFetch]
    (sc_state demo_mbox) =
    Done [(RDY_OK, None); (RDY_OK, None); (RDY_TIMEOUT, None);
          (RDY_OK, Some 6); (RDY_OK, Some 5); (RDY_TIMEOUT, None)] s' /\ mb_idle s' 3 [].
Proof.
  destruct (@mailbox_refines app_config 0 3
    [OpPost 5; OpPostAhead 6; OpPost 7; OpFetch; OpFetch; OpFetch] (sc_state demo_mbox) [])
    as (s' & E & HR & _).
  - intros ?. discriminate.
  - apply sc_KInv. apply (bool_decide_unpack _). by vm_compute.
  - done.
  - split; [|done]. split; [by apply ring_reset|by vm_compute..].
  - by vm_compute.
  - exists s'. by split.
Defined.

(** ** I/O queues *)

(** [chIQPutI()] on a full input queue returns [Q_FULL] and changes
    nothing; otherwise the byte is last in the queue and the first waiting
    reader, if any, is made ready. *)
Theorem ioq_put `{Config} idle s iqp b l :
  locked_I s -> KInv idle None s -> iq_rep (k_ioq s iqp) l -> is_u8 b ->
  (len l = len (q_buffer (k_ioq s iqp)) -> chIQPutI iqp b s = Done Q_FULL s) /\
  (len l < len (q_buffer (k_ioq s iqp)) -> exists s',
     chIQPutI iqp b s = Done Q_OK s' /\ iq_rep (k_ioq s' iqp) (l ++ [b]) /\
     KInv idle None s' /\ k_q s' (QIO iqp) = tail (k_q s (QIO iqp))).
Proof.
  intros HL HI HR Hb. destruct (chIQPutI_eq idle s iqp b l HL HI HR Hb) as [H1 H2].
  split; [done|]. intros Hlt. destruct (H2 Hlt) as (s' & E & HR' & Hi & Eq).
  exists s'. split_and!; try done. by apply (set_k_ioq_inv idle None s' (k_ioq s)), Hi.
Qed.

(** Queue 4 with three bytes of room, empty; thread 2 reads from it. *)
Definition demo_ioq : scenario := {|
  sc_curr := 1;
  sc_thd := [ (0, mk_thd 1 1 THD_STATE_READY (U_msg 0) []);
              (1, mk_thd 64 64 THD_STATE_CURRENT (U_msg 0) []);
              (2, mk_thd 70 70 THD_STATE_WTQUEUE (U_wtobjp (QIO 4)) []) ];
  sc_q := [ (QReady, [0]); (QIO 4, [2]) ];
  sc_sem := []; sc_mtx := [];
  sc_data := set_k_ioq (fun _ => mkIOQ 0 [0; 0; 0] 0 0 None 0) blank
|}.

Lemma demo_iq_rep : iq_rep (k_ioq (sc_state demo_ioq) 4) [].
Proof.
  split; [|done]. split; [by apply ring_reset|by vm_compute|].
  repeat (constructor; [by split|]). constructor.
Qed.

Lemma ioq_put_witness :
  exists s', @chIQPutI app_config 4 65 (sc_state demo_ioq) = Done Q_OK s' /\
    iq_rep (k_ioq s' 4) [65] /\ k_q s' (QIO 4) = [].
Proof.
  destruct (@ioq_put app_config 0 (sc_state demo_ioq) 4 65 []) as [_ Hp].
  - intros ?. discriminate.
  - apply sc_KInv. apply (bool_decide_unpack _). by vm_compute.
  - exact demo_iq_rep.
  - by split.
  - destruct Hp as (s' & E & HR & _ & Eq); [by vm_compute|]. exists s'. by split_and!.
Defined.

(** [chOQGetI()] on an empty output queue returns [Q_EMPTY] and changes
    nothing; otherwise it returns the first byte, and the first waiting
    writer, if any, is made ready. *)
Theorem ioq_get `{Config} idle s oqp l :
  locked_I s -> KInv idle None s -> oq_rep (k_ioq s oqp) l ->
  match l with
  | [] => chOQGetI oqp s = Done Q_EMPTY s
  | b :: l' => exists s',
      chOQGetI oqp s = Done b s' /\ is_u8 b /\ oq_rep (k_ioq s' oqp) l' /\
      KInv idle None s' /\ k_q s' (QIO oqp) = tail (k_q s (QIO oqp))
  end.
Proof.
  intros HL HI HR. pose proof (chOQGetI_eq idle s oqp l HL HI HR) as Hg.
  destruct l as [|b l]; [done|]. destruct Hg as (s' & E & Hb & HR' & Hi & Eq).
  exists s'. split_and!; try done. by apply (set_k_ioq_inv idle None s' (k_ioq s)), Hi.
Qed.

Definition demo_oq : scenario :=
  {| sc_curr := sc_curr demo_ioq; sc_thd := sc_thd demo_ioq; sc_q := sc_q demo_ioq;
     sc_sem := []; sc_mtx := [];
     sc_data := set_k_ioq (fun _ => mkIOQ 1 [9; 8; 7] 0 1 None 0) blank |}.

Lemma ioq_get_witness :
  exists s', @chOQGetI app_config 4 (sc_state demo_oq) = Done 8 s' /\
    oq_rep (k_ioq s' 4) [7].
Proof.
  destruct (@ioq_get app_config 0 (sc_state demo_oq) 4 [8; 7]) as (s' & E & _ & HR & _).
  - intros ?. discriminate.
  - apply sc_KInv. apply (bool_decide_unpack _). by vm_compute.
  - split; [|done]. split.
    + split; try done. intros [|[|i]] x Hx; simpl in Hx; [by injection Hx as <-..|].
      by rewrite lookup_nil in Hx.
    + by vm_compute.
    + repeat (constructor; [by split|]). constructor.
  - exists s'. by split.
Defined.

#[local] Existing Instance debug_config.
#[local] Existing Instance demo_app.

#[local] Instance demo_notify idle J : NotifyOK idle J.
Proof. intros t ml fn qp s HS. exact HS. Qed.

(** C37: the reading functions are safe whatever the other users of the queue do
    to it while the reader waits, as long as it stays an input queue: they
    return bytes, at most as many as asked for, or the message that ended the
    wait, and the queue is an input queue after them. *)
Theorem ioq_read_safe `{Config} `{App} idle J `{!NotifyOK idle J} iqp `{!QueueInv J iqp iq_ok}
    t ml rounds n time s :
  Ust idle J t ml s -> t <> idle -> 0 <= time < 2^32 -> 0 < n ->
  safe_call idle J t (fun r s' => Ust idle J t ml s' /\ (is_u8 r \/ r < Q_OK))
    (chIQGetTimeout rounds iqp time s) /\
  safe_call idle J t (fun r s' => Ust idle J t ml s' /\ Forall is_u8 r /\ len r <= n)
    (chIQReadTimeout rounds iqp n time s).
Proof. intros. split; [by apply chIQGetTimeout_safe|by apply chIQReadTimeout_safe]. Qed.

Lemma ioq_read_safe_witness :
  safe_call 0 (only_queue 4 iq_ok) 1
    (fun r s' => Ust 0 (only_queue 4 iq_ok) 1 [] s' /\ Forall is_u8 r /\ len r <= 2)
    (chIQReadTimeout 10 4 2 100 (sc_state demo_ioq)).
Proof.
  destruct (@ioq_read_safe D demo_app 0 (only_queue 4 iq_ok) _ 4 _ 1 [] 10 2 100 (sc_state demo_ioq))
    as [_ Hr]; [|done|lia|lia|exact Hr].
  apply sc_Ust; try done; try (apply (bool_decide_unpack _); by vm_compute).
  exists []. exact demo_iq_rep.
Defined.

(** The writing functions are safe in the same way, and the number of bytes
    written is at most the number given. *)
Theorem ioq_write_safe `{Config} `{App} idle J `{!NotifyOK idle J} oqp `{!QueueInv J oqp oq_ok}
    t ml rounds b bs time s :
  Ust idle J t ml s -> t <> idle -> 0 <= time < 2^32 -> is_u8 b -> Forall is_u8 bs ->
  safe_call idle J t (fun r s' => Ust idle J t ml s' /\ r <= Q_OK)
    (chOQPutTimeout rounds oqp b time s) /\
  safe_call idle J t (fun r s' => Ust idle J t ml s' /\ 0 <= r <= len (b :: bs))
    (chOQWriteTimeout rounds oqp (b :: bs) time s).
Proof.
  intros. split; [by apply chOQPutTimeout_safe|].
  apply chOQWriteTimeout_safe; try done. by constructor.
Qed.

Lemma demo_oq_rep : oq_rep (mkIOQ 3 [0; 0; 0] 0 0 None 0) [].
Proof.
  split; [|done]. split; [by apply ring_reset|by vm_compute|].
  repeat (constructor; [by split|]). constructor.
Qed.

Definition demo_out : scenario :=
  {| sc_curr := sc_curr demo_ioq; sc_thd := sc_thd demo_ioq; sc_q := sc_q demo_ioq;
     sc_sem := []; sc_mtx := [];
     sc_data := set_k_ioq (fun _ => mkIOQ 3 [0; 0; 0] 0 0 None 0) blank |}.

Lemma ioq_write_safe_witness :
  safe_call 0 (only_queue 4 oq_ok) 1
    (fun r s' => Ust 0 (only_queue 4 oq_ok) 1 [] s' /\ r <= Q_OK)
    (chOQPutTimeout 10 4 65 100 (sc_state demo_out)).
Proof.
  destruct (@ioq_write_safe D demo_app 0 (only_queue 4 oq_ok) _ 4 _ 1 [] 10 65 [66] 100 (sc_state demo_out))
    as [Hr _]; [|done|lia|by split|by repeat constructor|exact Hr].
  apply sc_Ust; try done; try (apply (bool_decide_unpack _); by vm_compute).
  exists []. exact demo_oq_rep.
Defined.
