(* ===== verification/MemThm.v ===== *)
(** * Theorems: the memory allocators *)
From S2P Require Import Prelude Monad Types ThdLists VT Sched Sem Mtx Mem.
From S2P Require Import Inv InvPrim InvSched Rules Scenario Wake SemOK MtxOK.
From S2P Require Import HeapOK HeapRep SyncThm.

Implicit Types (s : kstate) (L A : list fblock) (b : fblock) (t : tid).

Local Abbreviation D := debug_config.

(** ** Sizes *)

Lemma align_prev_eq p : is_u32 p -> MEM_ALIGN_PREV p = 8 * (p / 8).
Proof.
  intros Hp. unfold MEM_ALIGN_PREV. rewrite (u32_small p Hp).
  assert (u32 (Z.lnot MEM_ALIGN_MASK) = Z.shiftl (Z.ones 29) 3) as -> by done.
  assert (8 * (p / 8) = Z.shiftl (Z.shiftr p 3) 3) as ->
    by (rewrite Z.shiftl_mul_pow2, Z.shiftr_div_pow2 by lia; change (2^3) with 8; lia).
  apply Z.bits_inj'. intros i Hi. rewrite Z.land_spec.
  destruct (Z.lt_ge_cases i 3); [by rewrite !Z.shiftl_spec_low, andb_false_r by lia|].
  rewrite !Z.shiftl_spec, Z.shiftr_spec by lia. replace (i - 3 + 3) with i by lia.
  destruct (Z.lt_ge_cases (i - 3) 29).
  - by rewrite Z.ones_spec_low, andb_true_r by lia.
  - rewrite Z.ones_spec_high, andb_false_r by lia. symmetry. apply Z.testbit_false; [lia|].
    rewrite Z.div_small; [done|]. destruct Hp as [? Hp]. split; [done|].
    eapply Z.lt_le_trans; [exact Hp|]. apply Z.pow_le_mono_r; lia.
Qed.

Lemma align_next_eq size : 0 <= size <= 2^32 - 8 -> MEM_ALIGN_NEXT size = 8 * ((size + 7) / 8).
Proof.
  intros Hs. unfold MEM_ALIGN_NEXT. change MEM_ALIGN_MASK with 7.
  rewrite u32_small by (unfold is_u32; lia). apply align_prev_eq. unfold is_u32. lia.
Qed.

Lemma align_next_wrap size : 2^32 - 8 < size < 2^32 -> MEM_ALIGN_NEXT size = 0.
Proof.
  intros Hs. unfold MEM_ALIGN_NEXT. change MEM_ALIGN_MASK with 7.
  assert (u32 (size + 7) = size + 7 - 2^32) as ->.
  { unfold u32. symmetry. apply (Z.mod_unique_pos _ _ 1); lia. }
  rewrite align_prev_eq by (unfold is_u32; lia). rewrite Z.div_small; lia.
Qed.

(** The memory not yet handed out. *)
Record core_ok s : Prop := {
  co_next : 0 < k_nextmem s /\ k_nextmem s `mod` 8 = 0;
  co_end : k_nextmem s <= k_endmem s < 2^32 /\ k_endmem s `mod` 8 = 0
}.

(** ** The heap *)



(** C13: [chHeapFree()] of a block handed out, with any number of threads
    sharing the heap, takes the mutex of the heap the block's header names,
    and puts the block in the free list in address order, joined with the
    free blocks that touch it on either side; neither the assertion nor the
    search for its place can fail. *)
Theorem heap_free_coalesces `{Config} `{App} idle t ml pr A heapp b s :
  Ust idle (heap_own pr heapp (b :: A)) t ml s -> t <> idle ->
  chHeapFree (b.1 + HDR) s = (H_LOCK heapp ;;; free_locked heapp b.1) s /\
  osafe (grd idle (heap_own pr heapp (b :: A))) (rely idle (heap_own pr heapp (b :: A)) t)
    (fun _ s1 => exists L, heap_rep (k_mem s1) heapp (b :: A) L /\
       exists s2, free_locked heapp b.1 s1 = H_UNLOCK heapp s2 /\
         heap_rep (k_mem s2) heapp A (fl_free b L) /\
         osafe (grd idle (heap_own pr heapp A)) (rely idle (heap_own pr heapp A) t)
           (fun _ s' => Ust idle (heap_own pr heapp A) t ml s') (free_locked heapp b.1 s1))
    (H_LOCK heapp s).
Proof.
  intros HU Ht. split.
  { pose proof HU as (_ & _ & [HJ _] & _). apply heap_own_at in HJ as (_ & L & [_ HB _ _ HH]).
    destruct (HH b ltac:(set_solver)) as [E _]. change (k_mem s b.1 = heapp) in E.
    pose proof (bo_ok _ _ _ (HB b ltac:(set_solver))) as (Hb & _).
    unfold chHeapFree, bind at 1. rewrite chDbgCheck_ok by (unfold HDR, NULL; lia).
    unfold HDR. rewrite Z.add_simpl_r. unfold bind, gets, hnext. cbn [obind]. by rewrite E. }
  eapply osafe_mono; [|by apply (H_LOCK_safe idle _ heapp t ml)]. intros ? s1 HU1.
  pose proof HU1 as (_ & _ & [HJ _] & _). apply heap_own_at in HJ as (_ & L & HR).
  exists L. split; [done|].
  destruct (free_locked_ok idle pr heapp t ml s1 A L b HU1 HR) as (s2 & E & HR2 & HU2).
  exists s2. split_and!; [done|done|]. rewrite E. by apply (H_UNLOCK_end idle _ heapp t ml).
Qed.

(** C15: a block allocated and released again, with the heap locked each time
    and no other change to it in between, leaves the free list exactly as it
    was: the rest split off is joined back, and no fragment is left. *)
Theorem heap_roundtrip `{Config} `{App} idle t t' ml ml' pr A L heapp size s b L' :
  Ust idle (heap_own pr heapp A) t (h_mtx heapp :: ml) s -> heap_rep (k_mem s) heapp A L ->
  fl_alloc (MEM_ALIGN_NEXT size) L = Some (b, L') ->
  exists s1,
    alloc_locked heapp (MEM_ALIGN_NEXT size) s = (H_UNLOCK heapp ;;; mret' (b.1 + HDR)) s1 /\
    forall s2, Ust idle (heap_own pr heapp (b :: A)) t' (h_mtx heapp :: ml') s2 ->
      k_mem s2 = k_mem s1 ->
      exists s3, free_locked heapp b.1 s2 = H_UNLOCK heapp s3 /\ heap_rep (k_mem s3) heapp A L.
Proof.
  intros HU HR Ea. destruct (align_next_ok size) as [H1 H2].
  destruct (alloc_locked_found idle pr heapp _ t ml s A L b L' HU HR H1 H2 Ea) as (s1 & E & HR1 & _).
  exists s1. split; [done|]. intros s2 HU2 Em. rewrite <-Em in HR1.
  destruct (free_locked_ok idle pr heapp t' ml' s2 A L' b HU2 HR1) as (s3 & E3 & HR3 & _).
  exists s3. split; [done|].
  by rewrite (fl_free_alloc 0 _ L b L' (fl_wf _ _ _ (hr_list _ _ _ _ HR)) H1 Ea) in HR3.
Qed.

(** A heap at 64 with a buffer of 256 bytes at 128: as initialized, and with
    a block of 8 bytes handed out.  Thread 1 owns nothing, or the mutex of the
    heap. *)
Definition heap_mem (used : bool) : Z -> Z :=
  if used then
    <[148 := 232]> (<[144 := 0]> (<[132 := 8]> (<[128 := 64]>
      (<[76 := 0]> (<[72 := 144]> (fun _ => 0))))))
  else <[132 := 248]> (<[128 := 0]> (<[76 := 0]> (<[72 := 128]> (fun _ => 0)))).
Definition demo_heap (owned used : bool) : scenario := {|
  sc_curr := 1;
  sc_thd := [ (0, mk_thd 1 1 THD_STATE_READY (U_msg 0) []);
              (1, mk_thd 64 64 THD_STATE_CURRENT (U_msg 0) (if owned then [80] else [])) ];
  sc_q := [ (QReady, [0]) ]; sc_sem := [];
  sc_mtx := if owned then [ (80, Some 1) ] else [];
  sc_data := set_k_mem (heap_mem used) blank
|}.

Lemma demo_heap_rep (used : bool) :
  heap_rep (heap_mem used) 64 (if used then [(128, 8)] else [])
    [if used then (144, 232) else (128, 248)].
Proof.
  destruct used; [|by apply one_block_rep; try done; left; vm_compute].
  destruct (one_block_rep (heap_mem true) 64 (144, 232)) as [HL _ _ _ _]; try done;
    [left; by vm_compute|].
  split; [done|..].
  - intros b ->%list_elem_of_singleton. split; [done| |left; by vm_compute].
    constructor; [left; by vm_compute|constructor].
  - apply NoDup_singleton.
  - by intros b c ->%list_elem_of_singleton ->%list_elem_of_singleton.
  - by intros b ->%list_elem_of_singleton.
Qed.

Lemma demo_heap_Ust (owned used : bool) :
  @Ust D 0 (heap_own None 64 (if used then [(128, 8)] else [])) 1 (if owned then [80] else [])
    (sc_state (demo_heap owned used)).
Proof.
  apply sc_Ust; [..|split; [done|]; eexists; apply (demo_heap_rep used)].
  1-2: apply (bool_decide_unpack _); by destruct owned, used; vm_compute.
  all: by destruct owned, used; vm_compute.
Qed.


Lemma heap_free_coalesces_witness :
  fl_free (128, 8) [(144, 232)] = [(128, 248)] /\
  @chHeapFree D 136 (sc_state (demo_heap false true)) =
  bind (@H_LOCK D 64) (fun _ => @free_locked D 64 128) (sc_state (demo_heap false true)).
Proof.
  split; [by vm_compute|].
  by apply (@heap_free_coalesces D demo_app 0 1 [] None [] 64 (128, 8) _ (demo_heap_Ust false true)).
Defined.

Lemma heap_roundtrip_witness :
  exists s1,
    @alloc_locked D demo_app 64 8 (sc_state (demo_heap true false)) =
      bind (@H_UNLOCK D 64) (fun _ => mret' 136) s1 /\
    forall s2, @Ust D 0 (heap_own None 64 [(128, 8)]) 1 [80] s2 -> k_mem s2 = k_mem s1 ->
      exists s3, @free_locked D 64 128 s2 = @H_UNLOCK D 64 s3 /\
                 heap_rep (k_mem s3) 64 [] [(128, 248)].
Proof.
  destruct (@heap_roundtrip D demo_app 0 1 1 [] [] None [] [(128, 248)] 64 8 _ (128, 8) [(144, 232)]
    (demo_heap_Ust true false) (demo_heap_rep false)) as (s1 & E & Hf); [by vm_compute|].
  exists s1. split; [exact E|exact Hf].
Defined.

(** ** The core allocator *)

(** [chCoreAllocI()] for a size that does not wrap returns a null pointer,
    and changes nothing, exactly when the aligned size is more than what is
    left; otherwise it returns the start of the free memory, aligned, which
    now begins after the block and still ends where it did, and the block
    is less than eight bytes larger than asked.  A size within seven of
    [2^32] wraps to zero when it is aligned: the caller gets a pointer to no
    memory at all, and no error. *)
Theorem core_alloc_bounds `{Config} size s :
  locked_I s -> core_ok s ->
  (0 <= size <= 2^32 - 8 -> exists p s', chCoreAllocI size s = Done p s' /\ core_ok s' /\
     k_endmem s' = k_endmem s /\
     (p = NULL /\ s' = s /\ k_endmem s - k_nextmem s < size \/
      p = k_nextmem s /\ p <> NULL /\ MEM_IS_ALIGNED p = true /\
      size <= k_nextmem s' - p < size + 8)) /\
  (2^32 - 8 < size < 2^32 -> chCoreAllocI size s = Done (k_nextmem s) s).
Proof.
  intros HL [[Hn1 Hn2] [He1 He2]].
  assert (u32 (k_endmem s - k_nextmem s) = k_endmem s - k_nextmem s) as Eu
    by (apply u32_small; unfold is_u32; lia).
  unfold chCoreAllocI, bind. rewrite chDbgCheckClassI_ok by done. cbn [obind]. rewrite Eu. split.
  - intros Hs. rewrite align_next_eq by done.
    pose proof (Z.div_mod (size + 7) 8 ltac:(lia)) as Ed.
    pose proof (Z.mod_pos_bound (size + 7) 8 ltac:(lia)).
    destruct (Z.ltb_spec (k_endmem s - k_nextmem s) (8 * ((size + 7) / 8))) as [Hlt|Hge].
    + eexists _, s. split_and!; [done|by split|done|]. left. split_and!; [done|done|].
      apply Z.mod_divide in Hn2 as [k1 E1], He2 as [k2 E2]; [|done..]. lia.
    + eexists _, _. split_and!; [done| |done|].
      * split; simpl; (split; [lia|]); [|done]. apply aligned_add; [done|].
        rewrite Z.mul_comm. apply Z.mod_mul. lia.
      * right. simpl. unfold NULL, MEM_IS_ALIGNED. split_and!; [done|lia| |lia|lia].
        rewrite u32_small by (unfold is_u32; lia). change MEM_ALIGN_MASK with (Z.ones 3).
        rewrite Z.land_ones by lia. by apply Z.eqb_eq.
  - intros Hs. rewrite align_next_wrap by done.
    destruct (Z.ltb_spec (k_endmem s - k_nextmem s) 0); [lia|].
    rewrite Z.add_0_r. by destruct s.
Qed.

Lemma core_alloc_bounds_witness :
  @chCoreAllocI app_config (2^32 - 1) (set_k_nextmem 64 (set_k_endmem 1024 blank)) =
    Done 64 (set_k_nextmem 64 (set_k_endmem 1024 blank)) /\
  exists p s', @chCoreAllocI app_config 5 (set_k_nextmem 64 (set_k_endmem 1024 blank)) = Done p s' /\
    k_endmem s' = 1024.
Proof.
  destruct (fun sz => @core_alloc_bounds app_config sz (set_k_nextmem 64 (set_k_endmem 1024 blank)))
    with (sz := 2^32 - 1) as [_ Hw]; [by intros ?|by split|].
  destruct (fun sz => @core_alloc_bounds app_config sz (set_k_nextmem 64 (set_k_endmem 1024 blank)))
    with (sz := 5) as [Ha _]; [by intros ?|by split|].
  split; [apply Hw; lia|]. destruct Ha as (p & s' & E & _ & Ee & _); [lia|]. by exists p, s'.
Defined.
