(* ===== verification/EvTimer.v ===== *)
(** * Event timers ([evtimer.c], [evtimer.h])

    An event timer is a virtual timer and an event source: each time the
    timer fires it broadcasts the source and is armed again.  The two objects
    are given by their identifiers; [fn] stands for the address of the
    callback [tmrcb()] and [par] for that of the [EvTimer]. *)
From S2P Require Import Prelude Monad Types ThdLists VT Sched Evt.
From S2P Require Import Inv InvPrim InvSched Rules Total Wake EvtOK TickOK TickRun.

Record EvTimer := mkEvt {
  et_vt : vtid;
  et_es : Z;
  et_interval : Z
}.

Section EvTimer.
Context `{Config}.
Context (etp : EvTimer) (fn par : Z).

Definition tmrcb : KM unit :=
  chSysLockFromIsr ;;;
  chEvtBroadcastI (et_es etp) ;;;
  chVTSetI (et_vt etp) (et_interval etp) (VF_user fn) par ;;;
  chSysUnlockFromIsr.

(** [evtInit(etp, time)]: the source is empty and the timer is not armed. *)
Definition evtInit : KM unit :=
  chEvtInit (et_es etp) ;;;
  modify (upd_vt (et_vt etp) (set_vt_func None)).

Definition evtStart : KM unit :=
  chSysLock ;;;
  (fun s => (if negb (chVTIsArmedI s (et_vt etp))
             then chVTSetI (et_vt etp) (et_interval etp) (VF_user fn) par else mret' tt) s) ;;;
  chSysUnlock.

Definition evtStop : KM unit := chVTReset (et_vt etp).

(** ** The callback *)

Context (idle : tid).

(** Timers of the application armed in another way. *)
Lemma user_timer_inv s (n : Z) L V :
  KInv idle None s -> vt_wf (set_k_vtl L (set_k_vt V s)) ->
  (forall u, u <> VTUser n -> vt_func (V u) = vt_func (k_vt s u) /\ vt_par (V u) = vt_par (k_vt s u)) ->
  KInv idle None (set_k_vtl L (set_k_vt V s)).
Proof.
  intros HI Hwf Hu. kinv_open HI. split; kinv_same. intros t Ht.
  destruct (Hu (VTStack t) ltac:(done)) as [E1 E2]. simpl in *. rewrite E1, E2 in *. auto.
Qed.

Lemma heard_el s s' l u (e : Z) : k_el s = k_el s' -> heard s l u e = heard s' l u e.
Proof. intros E. revert e. induction l as [|p l IH]; intros e; [done|]. simpl. rewrite E. apply IH. Qed.

Lemma broadcast_ok s esp flags :
  locked_I s -> KInv idle None s -> esp <> 0 -> NoDup (k_es s esp) ->
  (forall elp, elp ∈ k_es s esp -> el_listener (k_el s elp) <> 0) ->
  exists s', chEvtBroadcastFlagsI esp flags s = Done tt s' /\ istep idle s (set_k_el (k_el s) s') /\
    (forall u, p_epending (k_thd s' u) = heard s (k_es s esp) u (p_epending (k_thd s u))) /\
    (forall elp, el_listener (k_el s' elp) = el_listener (k_el s elp)) /\
    (forall u, p_state (k_thd s' u) = p_state (k_thd s u) \/ p_state (k_thd s' u) = THD_STATE_READY).
Proof.
  intros HL HI Hesp Hnd Hl.
  destruct (broadcast_loop_eq idle (k_es s esp) s flags HL HI Hnd Hl) as (s' & E & Hi & E1 & E2 & E3).
  exists s'. split_and!; try done.
  - unfold chEvtBroadcastFlagsI. rewrite classI_bind by done.
    by rewrite check_bind by (by rewrite (proj2 (Z.eqb_neq _ _))).
  - intros elp. rewrite E1. by case_decide.
Qed.

(** The listeners of the source are registered threads. *)
Definition listeners_ok (d : kdata_t) : Prop :=
  let '(es, el, _, _, _, _, _, _, _) := d in
  NoDup (es (et_es etp)) /\ forall elp, elp ∈ es (et_es etp) -> el_listener (el elp) <> 0.

(** The callback releases the lock once, as its last action: then the source
    has been broadcast and the timer is armed again. *)
Lemma tmrcb_ok s (n : Z) :
  isr_out s -> KInv idle None s -> et_vt etp = VTUser n -> remaining s (VTUser n) = None ->
  0 < et_interval etp < 2^32 -> et_es etp <> 0 -> listeners_ok (kdata s) ->
  exists s', tmrcb s = Suspend AtUnlock s' (fun y => Done tt y) /\ isr_out s' /\
    isr_step idle listeners_ok (eq n) s s' /\
    remaining s' (VTUser n) = Some (et_interval etp) /\ vt_func (k_vt s' (VTUser n)) = Some (VF_user fn) /\
    (forall u, p_epending (k_thd s' u) = heard s (k_es s (et_es etp)) u (p_epending (k_thd s u))).
Proof.
  intros Ho HI Hvt Hv Hti Hes [Hnd Hl]. destruct (lock_isr s Ho) as [El Hin]. unfold tmrcb.
  apply (remaining_none _ _ (i_vt _ _ _ HI)) in Hv. set (s0 := with_lock 1 s) in *.
  assert (KInv idle None s0) as HI0 by (by apply KInv_lock).
  assert (k_es s0 = k_es s /\ k_el s0 = k_el s /\ k_thd s0 = k_thd s /\ k_vt s0 = k_vt s /\ k_vtl s0 = k_vtl s)
    as (Ees & Eel & Ethd & Evt & Evtl) by (unfold s0, with_lock; by destruct CH_DBG_SYSTEM_STATE_CHECK).
  destruct (broadcast_ok s0 (et_es etp) 0) as (s1 & E1 & Hi1 & Hp1 & Hl1 & Hst1);
    [by apply isr_in_I|done|done|by rewrite Ees|by rewrite Ees, Eel|].
  assert (KInv idle None s1) as HI1 by (apply (set_k_el_inv idle None s1 (k_el s0)), (is_inv _ _ _ Hi1)).
  pose proof (is_vt _ _ _ Hi1) as Ev1. pose proof (is_vtl _ _ _ Hi1) as El1.
  pose proof (is_lock _ _ _ Hi1) as Ek1. pose proof (is_isr _ _ _ Hi1) as Ei1. simpl in Ev1, El1, Ek1, Ei1.
  assert (isr_in s1) as Hin1 by (unfold isr_in in *; by rewrite Ek1, Ei1).
  destruct (chVTSetI_spec s1 (VTUser n) (et_interval etp) (VF_user fn) par) as
    (L & V & E2 & W & _ & Ef & Ep & Eu & Er & Eo); [by apply isr_in_I|apply HI1|by rewrite Ev1, Evt|done|].
  set (s2 := set_k_vtl L (set_k_vt V s1)) in *. assert (isr_in s2) as Hin2 by done.
  assert (KInv idle None s2) as HI2 by (by apply (user_timer_inv s1 n)).
  unfold bind at 1. rewrite El. cbn [obind]. unfold bind at 1, chEvtBroadcastI. rewrite E1. cbn [obind].
  rewrite Hvt. unfold bind at 1. rewrite E2. cbn [obind]. rewrite unlock_isr_eq by done.
  assert (k_thd (with_lock 0 s2) = k_thd s1 /\ k_vt (with_lock 0 s2) = V /\
    (forall v, remaining (with_lock 0 s2) v = remaining s2 v)) as (Et & Ev & Erm)
    by (unfold with_lock; by destruct CH_DBG_SYSTEM_STATE_CHECK).
  assert (forall v, v <> VTUser n -> remaining s2 v = remaining s v) as Er2.
  { intros v Hv'. rewrite Eo by done. unfold remaining. by rewrite Ev1, El1, Evt, Evtl. }
  exists (with_lock 0 s2). destruct (unlock_isr s2 Hin2) as [_ Ho2].
  split_and!; [done|done| |by rewrite Erm|by rewrite Ev|].
  - assert (k_es s1 = k_es s) as Ees1.
    { pose proof (is_data _ _ _ Hi1) as Ed. unfold kdata in Ed. simpl in Ed. injection Ed. congruence. }
    assert (k_lock_cnt (with_lock 0 s2) = k_lock_cnt s /\ k_isr_cnt (with_lock 0 s2) = k_isr_cnt s) as [Elk Eis].
    { unfold isr_out, s0, with_lock in *. destruct CH_DBG_SYSTEM_STATE_CHECK; [|done]. destruct (Ho eq_refl) as [_ E0]. done. }
    split; [by apply KInv_lock| | |done|done| | | |].
    + intros _. rewrite kdata_lock. change (kdata s2) with (kdata s1). cbn. rewrite Ees1. split; [done|].
      intros elp Help. rewrite Hl1, Eel. by apply Hl.
    + destruct (with_lock_fields 0 s2) as (_ & _ & -> & _). cbn. pose proof (is_curr _ _ _ Hi1) as Ec. simpl in Ec. rewrite Ec.
      unfold s0. by destruct (with_lock_fields 1 s) as (_ & _ & -> & _).
    + destruct (with_lock_thd 0 s2) as [_ ->]. cbn. pose proof (is_systime _ _ _ Hi1) as Ec. simpl in Ec. rewrite Ec.
      unfold s0. by destruct (with_lock_thd 1 s) as [_ ->].
    + intros u. rewrite Et, <-Ethd. apply Hst1.
    + intros v r Hr. assert (v <> VTUser n) as Hne.
      { intros ->. apply (remaining_none _ _ (i_vt _ _ _ HI)) in Hv. congruence. }
      rewrite Erm, Er2, Ev by done. destruct (Eu v Hne) as [-> ->]. by rewrite Ev1, Evt.
    + intros v r Hn. rewrite Erm, Ev. intros Hr. destruct (decide (v = VTUser n)) as [->|Hne]; [|rewrite Er2 in Hr by done; congruence].
      rewrite Er in Hr. injection Hr as <-. split; [lia|]. by exists n, fn.
  - intros u. rewrite Et, Hp1, Ees, Ethd. by apply heard_el.
Qed.

(** The callback of an event timer is one that the tick may call. *)
Lemma tmrcb_callback `{App} mine rearm n :
  et_vt etp = VTUser n -> 0 < et_interval etp < 2^32 -> et_es etp <> 0 ->
  (forall s, user_vtfunc fn par s = tmrcb s) -> rearm n = Some (et_interval etp) ->
  callback_ok idle listeners_ok mine rearm n fn par.
Proof.
  intros Hvt Hti Hes Hcb Hre s Ho HI HJ Hn. rewrite Hcb, Hre.
  destruct (tmrcb_ok s n Ho HI Hvt Hn Hti Hes HJ) as (s1 & -> & Ho1 & H1 & Hr1 & _). cbn [ototal].
  split; [split_and!; [done|done|apply H1]|]. intros s2 H2. split.
  - apply (isr_step_trans idle listeners_ok (eq n) (fun m => ~ mine m) _ s s1); [auto|auto|done|done].
  - apply (ir_armed _ _ _ _ _ H2 _ _ Hr1).
Qed.
End EvTimer.
