(* ===== verification/SysThm.v ===== *)
(** * Theorems: the system tick *)
From S2P Require Import Prelude Monad Types ThdLists VT Sched Sem Mtx Mem.
From S2P Require Import Threads Sys Inv InvPrim InvSched Rules Scenario Wake.
From S2P Require Import SemOK MtxOK Total TickOK TickRun Evt EvTimer SyncThm.

Implicit Types (s : kstate) (t u : tid) (v : vtid).

(** C14: every tick takes one tick from each armed timer and returns, whatever
    the number of timers.  The timers with one tick left are disarmed and their
    callbacks called; the others keep their callbacks.  Around each callback
    the lock is free: other interrupts may run there, and they and the
    callbacks may wake threads, change data within the invariant [J] and arm
    timers for one tick or more, but neither reset armed timers nor arm those of
    other callbacks ([isr_step]); event timers are such callbacks
    ([EvTimer.tmrcb_callback]).  Under these conditions a timer of the
    application that was due is afterwards as its callback leaves it, armed for
    the time it asked for or not, and the threads whose sleep or wait has run
    out are ready.  If no timer of the application is due and no other interrupt
    comes, each of those threads that was not ready gets [RDY_TIMEOUT] and no
    other thread changes.  The invariant of the kernel is kept, and so is the
    absence of timers with no ticks left, which the next tick needs. *)
Theorem timer_tick `{Config} `{App} idle J rearm s :
  tick_st idle s -> J (kdata s) -> (forall v, remaining s v <> Some 0) ->
  let mine n := remaining s (VTUser n) <> None in
  (forall n f, remaining s (VTUser n) = Some 1 -> vt_func (k_vt s (VTUser n)) = Some (VF_user f) ->
     callback_ok idle J mine rearm n f (vt_par (k_vt s (VTUser n)))) ->
  ototal (tick_grd idle) (tick_rely idle J mine) (fun _ s' =>
      tick_st idle s' /\ J (kdata s') /\ k_systime s' = u32 (k_systime s + 1) /\ (forall v, remaining s' v <> Some 0) /\
      (forall v r, remaining s v = Some r -> r <> 1 ->
         remaining s' v = Some (r - 1) /\ vt_func (k_vt s' v) = vt_func (k_vt s v)) /\
      (forall t, remaining s (VTStack t) = Some 1 ->
         vt_func (k_vt s' (VTStack t)) = None /\ p_state (k_thd s' t) = THD_STATE_READY) /\
      (forall n, remaining s (VTUser n) = Some 1 -> remaining s' (VTUser n) = rearm n))
    (chVTDoTickI s) /\
  ((forall k, remaining s (VTUser k) <> Some 1) ->
   exists s', settle (chVTDoTickI s) = Done tt s' /\
     forall u, k_thd s' u = if decide (remaining s (VTStack u) = Some 1) then expire (k_thd s u) else k_thd s u).
Proof.
  intros HT HJ Hpos mine Hcb. destruct (ticked_ok idle s HT Hpos) as [_ Htk]. split.
  - eapply ototal_mono; [apply (tick_run idle J mine rearm s HT HJ Hpos)|].
    { intros n f Hn Hf. split; [|by apply Hcb]. unfold mine. congruence. }
    intros [] s' [A1 A2 A3 A4 A5 A6 A7 A8 A9].
    assert (forall v, remaining s v = Some 1 -> remaining (ticked s) v = Some 0) as Hdue
      by (intros v Hv; by rewrite (proj1 (Htk v)), Hv).
    split_and!; [done|done|done|done| | |by intros n Hn; apply A9, Hdue].
    + intros v r Hr Hne. rewrite <-(proj2 (Htk v)). apply A6; [by rewrite (proj1 (Htk v)), Hr|lia].
    + intros t Ht. destruct (A8 t (Hdue _ Ht)) as [E1 E2]. split; [|done].
      by apply (remaining_none s' _ (i_vt _ _ _ (tk_inv _ _ A1))).
  - intros Hk. destruct (tick_ok idle s HT Hpos Hk) as (s' & E & _ & _ & _ & _ & _ & _ & Hu). by exists s'.
Qed.

(** The invariant with other timers. *)
Lemma timers_inv `{Config} idle s (L : list vtid) V (a b : Z) :
  KInv idle None s -> vt_wf (set_k_vtl L (set_k_vt V s)) ->
  (forall t, vt_func (V (VTStack t)) <> None -> vt_func (V (VTStack t)) = Some VF_wakeup /\
     vt_par (V (VTStack t)) = t /\ timed_state (p_state (k_thd s t))) ->
  KInv idle None (set_k_vtl L (set_k_vt V (set_k_lock_cnt a (set_k_isr_cnt b s)))).
Proof. intros HI Hwf Ht. kinv_open HI. split; kinv_same. Qed.

(** Thread 2 sleeps for one more tick; an event timer of five ticks has one left,
    another timer three. *)
Definition demo_sleep : scenario := {|
  sc_curr := 1;
  sc_thd := [ (0, mk_thd 1 1 THD_STATE_READY (U_msg 0) []);
              (1, mk_thd 64 64 THD_STATE_CURRENT (U_msg 0) []);
              (2, mk_thd 70 70 THD_STATE_SLEEPING (U_msg 0) []) ];
  sc_q := [ (QReady, [0]) ]; sc_sem := []; sc_mtx := []; sc_data := blank
|}.
Definition demo_et : EvTimer := mkEvt (VTUser 8) 40 5.
Definition evt_app : App := {|
  user_memget := fun _ _ => mret' 0;
  user_vtfunc := fun fn par => @tmrcb debug_config demo_et fn par;
  user_qnotify := fun _ _ => mret' tt;
  user_evhandler := fun _ _ => mret' tt;
  default_heap := 0x1000; mainthread := 1; _idle_thread_wa := 0; ch_debug := 0; idle_name := 0
|}.
Definition demo_vt (v : vtid) : VirtualTimer :=
  if decide (v = VTStack 2) then mkVT 1 (Some VF_wakeup) 2
  else if decide (v = VTUser 8) then mkVT 0 (Some (VF_user 4)) 0
  else if decide (v = VTUser 9) then mkVT 2 (Some (VF_user 4)) 0 else mkVT 0 None 0.
Definition demo_tick : kstate :=
  set_k_vtl [VTStack 2; VTUser 8; VTUser 9] (set_k_vt demo_vt
    (set_k_lock_cnt 1 (set_k_isr_cnt 1 (sc_state demo_sleep)))).

Lemma demo_tick_st : @tick_st debug_config 0 demo_tick.
Proof.
  assert (@KInv debug_config 0 None (sc_state demo_sleep)) as HI
    by (apply sc_KInv, (bool_decide_unpack _); by vm_compute).
  split; [done| |done|].
  - apply timers_inv; [done| |].
    + split; [|..|by vm_compute|by vm_compute|].
      * apply (bool_decide_unpack _). by vm_compute.
      * intros v Hv. cbn [k_vt set_k_vtl set_k_vt]. unfold demo_vt. by repeat case_decide.
      * intros v. cbn [k_vt k_vtl set_k_vtl set_k_vt]. unfold demo_vt.
        repeat case_decide; subst; split; set_solver.
    + intros t. unfold demo_vt. repeat case_decide; simplify_eq; done.
  - intros n f. simpl. unfold demo_vt. repeat case_decide; simplify_eq; try done; intros [= <-]; by exists 4.
Qed.

Lemma timer_tick_witness :
  ototal (@tick_grd debug_config 0) (@tick_rely debug_config 0 (listeners_ok demo_et) (fun n => remaining demo_tick (VTUser n) <> None))
    (fun _ s' => remaining s' (VTUser 8) = Some 5 /\ remaining s' (VTUser 9) = Some 2 /\ vt_func (k_vt s' (VTStack 2)) = None /\
       p_state (k_thd s' 2) = THD_STATE_READY)
    (@chVTDoTickI debug_config evt_app demo_tick).
Proof.
  destruct (@timer_tick debug_config evt_app 0 (listeners_ok demo_et) (fun _ => Some 5) demo_tick) as [Ht _].
  - apply demo_tick_st.
  - split; [constructor|set_solver].
  - intros v. unfold remaining. simpl. unfold demo_vt. by repeat case_decide.
  - intros n f Hn Hf. assert (n = 8 /\ f = 4) as [-> ->].
    { revert Hn Hf. unfold remaining. simpl. unfold demo_vt. repeat case_decide; simplify_eq; try done. by intros _ [= <-]. }
    by apply (@tmrcb_callback debug_config demo_et 4 0 0 evt_app).
  - eapply ototal_mono; [exact Ht|]. intros [] s' (_ & _ & _ & _ & Hr & Hs & Hu).
    split_and!; [by apply (Hu 8)|by apply (Hr (VTUser 9) 3)|by apply (Hs 2)|by apply (Hs 2)].
Defined.
