(* ===== verification/Stream.v ===== *)
(** * Streams and formatted output ([chstreams.h], [memstreams.c],
    [chprintf.c])

    A [BaseSequentialStream] is a type of stream states with its four
    methods; [chprintf()] runs on any of them.  The memory stream is one.

    A format string is the list of its characters, without the terminator:
    the pointer [fmt] is [Some l] while [l] is still to be read ([*fmt] is 0
    when [l] is empty), and [None] once the terminator has been passed, from
    where no character can be read.  The variable arguments are 32-bit words
    and strings ([None] is a null pointer).  [CHPRINTF_USE_FLOAT] is off, and
    [int] and [long] have the same width. *)
From S2P Require Import Prelude Monad Types.

Class BaseSequentialStream (S : Type) := {
  ss_write : list Z -> M S Z;
  ss_read : Z -> M S (Z * list Z);
  ss_put : Z -> M S Z;
  ss_get : M S Z
}.

Section Api.
Context {S : Type} `{BaseSequentialStream S}.
Definition chSequentialStreamWrite := ss_write.
Definition chSequentialStreamRead := ss_read.
Definition chSequentialStreamPut := ss_put.
Definition chSequentialStreamGet := ss_get.
End Api.

(** ** Memory streams *)

Record MemoryStream := mkMS {
  ms_buffer : list Z;
  ms_size : Z;
  ms_eos : Z;
  ms_offset : Z
}.

(** [memcpy(buffer + pos, bp, n)]: out of the buffer it is an error. *)
Definition buf_store (buffer : list Z) (pos : Z) (bp : list Z) : option (list Z) :=
  if (0 <=? pos) && (pos + Z.of_nat (length bp) <=? Z.of_nat (length buffer))
  then Some (take (Z.to_nat pos) buffer ++ bp ++ drop (Z.to_nat pos + length bp) buffer)
  else None.

Definition buf_load (buffer : list Z) (pos n : Z) : option (list Z) :=
  if (0 <=? pos) && (0 <=? n) && (pos + n <=? Z.of_nat (length buffer))
  then Some (take (Z.to_nat n) (drop (Z.to_nat pos) buffer)) else None.

(** [n] is the number of bytes in [bp]. *)
Definition writes (bp : list Z) : M MemoryStream Z := fun msp =>
  let n := Z.of_nat (length bp) in
  let n := if u32 (ms_size msp - ms_eos msp) <? n then u32 (ms_size msp - ms_eos msp) else n in
  match buf_store (ms_buffer msp) (ms_eos msp) (take (Z.to_nat n) bp) with
  | Some b => Done n (mkMS b (ms_size msp) (u32 (ms_eos msp + n)) (ms_offset msp))
  | None => Stuck (Fault "writes")
  end.

Definition reads (n : Z) : M MemoryStream (Z * list Z) := fun msp =>
  let n := if u32 (ms_eos msp - ms_offset msp) <? n then u32 (ms_eos msp - ms_offset msp) else n in
  match buf_load (ms_buffer msp) (ms_offset msp) n with
  | Some l => Done (n, l) (mkMS (ms_buffer msp) (ms_size msp) (ms_eos msp) (u32 (ms_offset msp + n)))
  | None => Stuck (Fault "reads")
  end.

Definition put (b : Z) : M MemoryStream Z := fun msp =>
  if u32 (ms_size msp - ms_eos msp) <=? 0 then Done RDY_RESET msp
  else
    match buf_store (ms_buffer msp) (ms_eos msp) [b] with
    | Some bf => Done RDY_OK (mkMS bf (ms_size msp) (u32 (ms_eos msp + 1)) (ms_offset msp))
    | None => Stuck (Fault "put")
    end.

Definition get : M MemoryStream Z := fun msp =>
  if u32 (ms_eos msp - ms_offset msp) <=? 0 then Done RDY_RESET msp
  else
    match buf_load (ms_buffer msp) (ms_offset msp) 1 with
    | Some [b] => Done b (mkMS (ms_buffer msp) (ms_size msp) (ms_eos msp) (u32 (ms_offset msp + 1)))
    | _ => Stuck (Fault "get")
    end.

#[export] Instance vmt : BaseSequentialStream MemoryStream := {|
  ss_write := writes; ss_read := reads; ss_put := put; ss_get := get
|}.

Definition msObjectInit (buffer : list Z) (size eos : Z) : MemoryStream :=
  mkMS buffer size eos 0.

(** ** Conversion of integers *)

Definition MAX_FILLER : Z := 11.

(** [tmpbuf[MAX_FILLER + 1]] *)
Definition tmpbuf0 : list Z := replicate 12 0.

(** [*p = c] in the array. *)
Definition buf_set (buf : list Z) (p c : Z) : option (list Z) :=
  if (0 <=? p) && (p <? Z.of_nat (length buf)) then Some (<[Z.to_nat p := c]> buf) else None.
Definition buf_get (buf : list Z) (p : Z) : option Z :=
  if 0 <=? p then buf !! Z.to_nat p else None.

Definition digit_char (i : Z) : Z :=
  let i := i + 48 in
  if 57 <? i then i + (65 - 48 - 10) else i.

Section Printf.
Context {S : Type} `{BaseSequentialStream S}.

(** The first loop: the digits go below [q], least significant first.  A
    [long] and an [unsigned] give an [unsigned long]. *)
Fixpoint digits_loop (fuel : nat) (radix : Z) (buf : list Z) (q l ll : Z) : M S (list Z * Z) :=
  match fuel with
  | O => diverge
  | Datatypes.S fuel =>
      match buf_set buf (q - 1) (u8 (digit_char (u32 l mod radix))) with
      | None => fault "long_to_string_with_divisor"
      | Some buf =>
          let l := s32 (u32 l / radix) in
          let ll := s32 (u32 ll / radix) in
          if negb (ll =? 0) then digits_loop fuel radix buf (q - 1) l ll
          else mret' (buf, q - 1)
      end
  end.

(** The second loop copies [i] characters from [q] down to [p]. *)
Fixpoint copy_loop (i : nat) (buf : list Z) (p q : Z) : M S (list Z * Z) :=
  match i with
  | O => mret' (buf, p)
  | Datatypes.S i =>
      match buf_get buf q with
      | None => fault "long_to_string_with_divisor"
      | Some c =>
          match buf_set buf p c with
          | None => fault "long_to_string_with_divisor"
          | Some buf => copy_loop i buf (p + 1) (q + 1)
          end
      end
  end.

Definition long_to_string_with_divisor (buf : list Z) (p num radix divisor : Z) : M S (list Z * Z) :=
  let ll := if divisor =? 0 then num else divisor in
  let! r := digits_loop 32 radix buf (p + MAX_FILLER) num ll in
  copy_loop (Z.to_nat (p + MAX_FILLER - r.2)) r.1 p r.2.

Definition ltoa (buf : list Z) (p num radix : Z) : M S (list Z * Z) :=
  long_to_string_with_divisor buf p num radix 0.

(** ** Arguments and format *)

Inductive va := VWord (w : Z) | VStr (s : option (list Z)).

Definition va_word (ap : list va) : M S (Z * list va) :=
  match ap with
  | VWord w :: ap => mret' (w, ap)
  | _ => fault "va_arg"
  end.
Definition va_string (ap : list va) : M S (option (list Z) * list va) :=
  match ap with
  | VStr s :: ap => mret' (s, ap)
  | _ => fault "va_arg"
  end.

Definition fmtp : Type := option (list Z).

(** [*fmt] and [*fmt++] *)
Definition peek (fmt : fmtp) : M S Z :=
  match fmt with
  | Some (c :: _) => mret' c
  | Some [] => mret' 0
  | None => fault "fmt"
  end.
Definition next (fmt : fmtp) : M S (Z * fmtp) :=
  match fmt with
  | Some (c :: l) => mret' (c, Some l)
  | Some [] => mret' (0, None)
  | None => fault "fmt"
  end.

Definition is_digit (c : Z) : bool := (48 <=? c) && (c <=? 57).

(** The loop that reads a width or a precision, from the characters left:
    the character that ends it, what follows, and the number. *)
Fixpoint num_loop (l : list Z) (ap : list va) (n : Z) : M S (Z * fmtp * list va * Z) :=
  match l with
  | [] => mret' (0, None, ap, n)
  | c :: l =>
      if is_digit c then num_loop l ap (s32 (n * 10 + (c - 48)))
      else if c =? 42 then
        let! a := va_word ap in
        num_loop l a.2 (s32 (n * 10 + u8 a.1))
      else mret' (c, Some l, ap, n)
  end.
Definition read_num (fmt : fmtp) (ap : list va) : M S (Z * fmtp * list va * Z) :=
  match fmt with
  | Some l => num_loop l ap 0
  | None => fault "fmt"
  end.

(** ** Output of a field *)

Fixpoint put_all (l : list Z) : M S unit :=
  match l with
  | [] => mret' tt
  | c :: l => chSequentialStreamPut (u8 c) ;;; put_all l
  end.

Fixpoint fill (n : nat) (filler : Z) : M S unit :=
  match n with
  | O => mret' tt
  | Datatypes.S n => chSequentialStreamPut (u8 filler) ;;; fill n filler
  end.

(** From [i = (int)(p - s)] on; [body] is what is between [s] and [p]. *)
Definition put_field (body : list Z) (width : Z) (left_align : bool) (filler : Z) : M S unit :=
  let i := Z.of_nat (length body) in
  let width := if width - i <? 0 then 0 else width - i in
  let width := if left_align then width else - width in
  let! body' :=
    (if width <? 0 then
       let! body' :=
         match body with
         | c :: b => if (c =? 45) && (filler =? 48) then chSequentialStreamPut (u8 c) ;;; mret' b
                     else mret' body
         | [] => mret' body
         end in
       fill (Z.to_nat (- width)) filler ;;; mret' body'
     else mret' body) in
  put_all body' ;;;
  fill (Z.to_nat width) filler.

(** The characters of a string up to the precision. *)
Fixpoint str_scan (s : list Z) (precision : Z) : list Z :=
  match s with
  | [] => []
  | c :: s => if 0 <=? precision - 1 then c :: str_scan s (precision - 1) else []
  end.
Definition null_string : list Z := [40; 110; 117; 108; 108; 41].

(** The switch: the characters to print, the filler and the arguments left. *)
Definition convert (c : Z) (ap : list va) (filler precision : Z) : M S (list Z * Z * list va) :=
  let unsigned_common radix :=
    let! a := va_word ap in
    let! r := ltoa tmpbuf0 0 (s32 a.1) radix in
    mret' (take (Z.to_nat r.2) r.1, filler, a.2) in
  if c =? 99 then                                                     (* c *)
    let! a := va_word ap in mret' ([u8 a.1], 32, a.2)
  else if c =? 115 then                                               (* s *)
    let! a := va_string ap in
    let s := match a.1 with Some s => s | None => null_string end in
    let precision := if precision =? 0 then 32767 else precision in
    mret' (str_scan s precision, 32, a.2)
  else if (c =? 68) || (c =? 100) || (c =? 73) || (c =? 105) then     (* D d I i *)
    let! a := va_word ap in
    let l := s32 a.1 in
    let! r :=
      (if l <? 0 then
         match buf_set tmpbuf0 0 45 with
         | Some buf => ltoa buf 1 (s32 (- l)) 10
         | None => fault "chprintf"
         end
       else ltoa tmpbuf0 0 l 10) in
    mret' (take (Z.to_nat r.2) r.1, filler, a.2)
  else if (c =? 88) || (c =? 120) then unsigned_common 16             (* X x *)
  else if (c =? 85) || (c =? 117) then unsigned_common 10             (* U u *)
  else if (c =? 79) || (c =? 111) then unsigned_common 8              (* O o *)
  else mret' ([c], filler, ap).

(** The conversion and the output of its field. *)
Definition print_conv (left_align : bool) (filler width c : Z) (fmt : fmtp) (precision : Z)
    (ap : list va) : M S (fmtp * list va) :=
  let! r := convert c ap filler precision in
  let '(body, filler, ap) := r in
  put_field body width left_align filler ;;;
  mret' (fmt, ap).

(** The long modifier. *)
Definition read_modifier (c : Z) (fmt : fmtp) : M S (Z * fmtp) :=
  if (c =? 108) || (c =? 76) then
    let! nx := peek fmt in
    if negb (nx =? 0) then next fmt else mret' (c, fmt)
  else mret' (c, fmt).

(** A directive from the width on. *)
Definition read_conv (left_align : bool) (filler : Z) (fmt : fmtp) (ap : list va)
    : M S (fmtp * list va) :=
  let! w := read_num fmt ap in
  let '(c, fmt, ap, width) := w in
  let! p := (if c =? 46 then read_num fmt ap else mret' (c, fmt, ap, 0)) in
  let '(c, fmt, ap, precision) := p in
  let! cl := read_modifier c fmt in
  print_conv left_align filler width cl.1 cl.2 precision ap.

(** A directive, from the character after the per cent sign on. *)
Definition directive (fmt : fmtp) (ap : list va) : M S (fmtp * list va) :=
  let! c := peek fmt in
  let! f1 := (if c =? 45 then next fmt else mret' (c, fmt)) in
  let left_align := c =? 45 in
  let! c := peek f1.2 in
  let! f2 := (if (c =? 46) || (c =? 48) then next f1.2 else mret' (c, f1.2)) in
  let filler := if (c =? 46) || (c =? 48) then 48 else 32 in
  read_conv left_align filler f2.2 ap.

(** The main loop; each round reads at least one character of the format. *)
Fixpoint printf_loop (fuel : nat) (fmt : fmtp) (ap : list va) : M S unit :=
  match fuel with
  | O => diverge
  | Datatypes.S fuel =>
      let! f := next fmt in
      if f.1 =? 0 then mret' tt
      else if negb (f.1 =? 37) then
        chSequentialStreamPut (u8 f.1) ;;; printf_loop fuel f.2 ap
      else
        let! r := directive f.2 ap in printf_loop fuel r.1 r.2
  end.

Definition chprintf (fmt : list Z) (ap : list va) : M S unit :=
  printf_loop (Datatypes.S (Datatypes.S (length fmt))) (Some fmt) ap.
End Printf.
