(* ===== verification/StreamOK.v ===== *)
(** * Formatted output: correctness

    A format is described by a list of items, each a character or a
    directive; [fmt_text] writes it as the string given to [chprintf()] and
    [render] is the text the items and arguments stand for.  [chprintf()] on
    the string puts exactly that text on the stream, whatever the stream.

    The text of a number is its positional representation without leading
    zeros, from which [text_value] reads the number back. *)
From S2P Require Import Prelude Monad Types Stream.

(** ** Numbers as text *)

(** The digits of [n], with [k] a bound on their number. *)
Fixpoint num_text (k : nat) (radix n : Z) : list Z :=
  match k with
  | O => []
  | S k =>
      if n / radix =? 0 then [digit_char (n mod radix)]
      else num_text k radix (n / radix) ++ [digit_char (n mod radix)]
  end.

Definition text (radix n : Z) : list Z := num_text 32 radix n.

Definition digit_value (c : Z) : Z := if c <=? 57 then c - 48 else c - 55.
Definition text_value (radix : Z) (l : list Z) : Z :=
  foldl (fun acc c => acc * radix + digit_value c) 0 l.

Lemma digit_char_range d : 0 <= d < 16 ->
  digit_value (digit_char d) = d /\ 48 <= digit_char d < 71 /\ (d < 10 -> digit_char d <= 57).
Proof.
  intros Hd. unfold digit_char, digit_value. destruct (Z.ltb_spec 57 (d + 48)).
  - destruct (Z.leb_spec (d + 48 + (65 - 48 - 10)) 57); lia.
  - destruct (Z.leb_spec (d + 48) 57); lia.
Qed.

Section Text.
Variable radix : Z.
Hypothesis Hr : 8 <= radix <= 16.

Lemma num_text_value k n :
  0 <= n < radix ^ Z.of_nat k -> (0 < k)%nat -> text_value radix (num_text k radix n) = n.
Proof.
  revert n. induction k as [|k IH]; intros n Hn Hk; [lia|]. cbn [num_text].
  pose proof (Z.div_mod n radix ltac:(lia)) as Ed. pose proof (Z.mod_pos_bound n radix ltac:(lia)).
  destruct (digit_char_range (n mod radix) ltac:(lia)) as [Ev _].
  destruct (Z.eqb_spec (n / radix) 0) as [E|E].
  - unfold text_value. simpl. rewrite Ev. lia.
  - unfold text_value in *. rewrite foldl_snoc. destruct k as [|k].
    { rewrite Z.pow_1_r in Hn. rewrite Z.div_small in E by lia. done. }
    rewrite IH, Ev; [lia| |lia]. rewrite Nat2Z.inj_succ, Z.pow_succ_r in Hn by lia.
    split; [apply Z.div_pos; lia|]. apply Z.div_lt_upper_bound; lia.
Qed.

(** The number of digits. *)
Lemma num_text_length k n (j : nat) :
  0 <= n < radix ^ Z.of_nat j -> (0 < j)%nat -> (length (num_text k radix n) <= j)%nat.
Proof.
  revert n j. induction k as [|k IH]; intros n j Hn Hj; cbn [num_text]; [simpl; lia|].
  destruct (Z.eqb_spec (n / radix) 0) as [E|E]; [simpl; lia|]. rewrite length_app. simpl.
  destruct j as [|[|j]]; [lia| |].
  { rewrite Z.pow_1_r in Hn. rewrite Z.div_small in E by lia. done. }
  rewrite (Nat2Z.inj_succ (S j)), Z.pow_succ_r in Hn by lia.
  specialize (IH (n / radix) (S j)). rewrite Nat.add_1_r. apply le_n_S, IH; [|lia].
  split; [apply Z.div_pos; lia|]. apply Z.div_lt_upper_bound; lia.
Qed.

Lemma num_text_nonempty k n : (0 < k)%nat -> (0 < length (num_text k radix n))%nat.
Proof.
  destruct k; [lia|]. intros _. cbn [num_text]. destruct (_ =? 0); [simpl; lia|].
  rewrite length_app. simpl. lia.
Qed.

Lemma num_text_chars k n c : 0 <= n -> c ∈ num_text k radix n -> 48 <= c < 71 /\ (radix <= 10 -> c <= 57).
Proof.
  revert n. induction k as [|k IH]; intros n Hn; cbn [num_text]; [set_solver|].
  pose proof (Z.mod_pos_bound n radix ltac:(lia)).
  destruct (digit_char_range (n mod radix) ltac:(lia)) as (_ & H1 & H2).
  assert (48 <= digit_char (n mod radix) < 71 /\ (radix <= 10 -> digit_char (n mod radix) <= 57)) as Hd
    by (split; [done|]; intros; apply H2; lia).
  destruct (_ =? 0).
  - by intros ->%list_elem_of_singleton.
  - rewrite elem_of_app. intros [Hc| ->%list_elem_of_singleton]; [|done].
    eapply IH; [|done]. apply Z.div_pos; lia.
Qed.
End Text.

(** ** The conversion in the buffer *)

Section Buffer.
Context {S : Type} `{BaseSequentialStream S}.
Implicit Types (buf : list Z) (p q : nat).

Lemma buf_set_nat buf p c :
  (p < length buf)%nat -> buf_set buf (Z.of_nat p) c = Some (<[p := c]> buf).
Proof.
  intros Hp. unfold buf_set. rewrite Nat2Z.id.
  by destruct (Z.leb_spec 0 (Z.of_nat p)), (Z.ltb_spec (Z.of_nat p) (Z.of_nat (length buf)));
    simpl; try lia.
Qed.

Lemma buf_get_nat buf p : buf_get buf (Z.of_nat p) = buf !! p.
Proof. unfold buf_get. rewrite Nat2Z.id. by destruct (Z.leb_spec 0 (Z.of_nat p)); [|lia]. Qed.

Lemma digits_loop_ok fuel radix buf q n (st : S) :
  8 <= radix <= 16 -> 0 <= n < 2^32 -> n < radix ^ Z.of_nat fuel -> (0 < fuel)%nat ->
  (length (num_text fuel radix n) <= q <= length buf)%nat ->
  let k := length (num_text fuel radix n) in
  digits_loop fuel radix buf (Z.of_nat q) (s32 n) (s32 n) st =
    Done (take (q - k) buf ++ num_text fuel radix n ++ drop q buf, Z.of_nat (q - k)) st.
Proof.
  intros Hr. revert buf q n. induction fuel as [|fuel IH]; intros buf q n Hn Hf H0 Hq k; [lia|].
  cbn [digits_loop]. assert (u32 (s32 n) = n) as ->.
  { unfold u32, s32. rewrite Zminus_mod_idemp_l. rewrite Z.add_simpl_r. apply Z.mod_small. lia. }
  pose proof (Z.mod_pos_bound n radix ltac:(lia)).
  destruct (digit_char_range (n mod radix) ltac:(lia)) as (_ & Hd & _).
  rewrite u8_small by (unfold is_u8; lia).
  assert (0 <= n / radix < 2^32) as Hdiv.
  { split; [apply Z.div_pos; lia|]. apply Z.div_lt_upper_bound; [lia|]. nia. }
  pose proof (num_text_nonempty radix (Datatypes.S fuel) n ltac:(lia)) as Hne. fold k in Hne, Hq.
  replace (Z.of_nat q - 1) with (Z.of_nat (q - 1)) by lia.
  rewrite buf_set_nat by lia.
  assert (s32 (n / radix) = 0 <-> n / radix = 0) as Hz.
  { split; intros E; [|by rewrite E]. unfold s32 in E.
    destruct (Z.lt_ge_cases (n / radix) (2^31)); [rewrite Z.mod_small in E; lia|].
    rewrite <-(Z_mod_plus_full _ (-1)), Z.mod_small in E; lia. }
  unfold k. cbn [num_text]. destruct (Z.eqb_spec (n / radix) 0) as [E|E].
  - rewrite (proj2 (Z.eqb_eq _ _)) by by apply Hz. simpl. f_equal. f_equal.
    rewrite insert_take_drop by lia. f_equal. simpl. do 3 f_equal. lia.
  - rewrite (proj2 (Z.eqb_neq _ _)) by by rewrite Hz. cbn [negb].
    assert (k = length (num_text fuel radix (n / radix)) + 1)%nat as Ek.
    { unfold k. cbn [num_text]. rewrite (proj2 (Z.eqb_neq _ _) E), length_app. done. }
    rewrite length_app. simpl (length [_]).
    destruct fuel as [|fuel]; [rewrite Z.pow_1_r in Hf; rewrite Z.div_small in E by lia; done|].
    rewrite IH; [|lia| |lia|rewrite length_insert; lia].
    2:{ rewrite (Nat2Z.inj_succ (Datatypes.S fuel)), Z.pow_succ_r in Hf by lia.
        apply Z.div_lt_upper_bound; lia. }
    f_equal. f_equal; [|lia]. rewrite insert_take_drop by lia.
    rewrite drop_app_length' by (rewrite length_take; lia).
    rewrite take_app_le, take_take by (rewrite length_take; lia).
    rewrite <-!app_assoc. simpl. f_equal; [f_equal; lia|]. do 3 f_equal. lia.
Qed.

Lemma copy_loop_ok i buf p q (st : S) :
  (p <= q)%nat -> (q + i <= length buf)%nat ->
  exists buf', copy_loop i buf (Z.of_nat p) (Z.of_nat q) st = Done (buf', Z.of_nat (p + i)) st /\
    take (p + i) buf' = take p buf ++ take i (drop q buf) /\ length buf' = length buf.
Proof.
  revert buf p q. induction i as [|i IH]; intros buf p q Hpq Hl.
  - exists buf. rewrite Nat.add_0_r, app_nil_r. by split_and!.
  - cbn [copy_loop]. rewrite buf_get_nat.
    destruct (lookup_lt_is_Some_2 buf q) as [c Hc]; [lia|]. rewrite Hc, buf_set_nat by lia.
    replace (Z.of_nat p + 1) with (Z.of_nat (Datatypes.S p)) by lia.
    replace (Z.of_nat q + 1) with (Z.of_nat (Datatypes.S q)) by lia.
    destruct (IH (<[p := c]> buf) (Datatypes.S p) (Datatypes.S q)) as (buf' & E & Et & El);
      [lia|rewrite length_insert; lia|].
    exists buf'. rewrite length_insert in El. split_and!; [|rewrite <-Nat.add_succ_comm, Et|done].
    + rewrite E. do 3 f_equal. lia.
    + rewrite drop_insert_lt by lia. rewrite (drop_S _ _ _ Hc).
      rewrite (take_S_r _ p c) by (rewrite list_lookup_insert_eq; [done|lia]).
      rewrite take_insert_ge by lia. by rewrite <-app_assoc.
Qed.

(** [ltoa()] appends the text of the number; it stays in the buffer. *)
Lemma ltoa_ok buf p radix n (st : S) :
  8 <= radix <= 16 -> 0 <= n < 2^32 -> (p + 11 <= length buf)%nat ->
  exists buf', ltoa buf (Z.of_nat p) (s32 n) radix st =
      Done (buf', Z.of_nat (p + length (text radix n))) st /\
    take (p + length (text radix n)) buf' = take p buf ++ text radix n.
Proof.
  intros Hr Hn Hl. set (k := length (text radix n)).
  assert (k <= 11)%nat as Hk.
  { apply num_text_length; [lia| |lia]. split; [lia|].
    apply Z.lt_le_trans with (8 ^ 11); [simpl; lia|]. apply Z.pow_le_mono_l. lia. }
  unfold ltoa, long_to_string_with_divisor, MAX_FILLER. cbn [Z.eqb].
  replace (Z.of_nat p + 11) with (Z.of_nat (p + 11)) by lia.
  unfold bind. rewrite digits_loop_ok; [|lia|lia| |lia|unfold text in k; lia].
  2:{ apply Z.lt_le_trans with (8 ^ 32); [lia|]. apply Z.pow_le_mono_l. lia. }
  cbn [obind fst snd]. fold (text radix n). fold k.
  set (buf1 := take (p + 11 - k) buf ++ text radix n ++ drop (p + 11) buf).
  assert (length buf1 = length buf) as El1.
  { unfold buf1. rewrite !length_app, length_take, length_drop. fold k. lia. }
  replace (Z.to_nat (Z.of_nat (p + 11) - Z.of_nat (p + 11 - k))) with k by lia.
  destruct (copy_loop_ok k buf1 p (p + 11 - k) st) as (buf' & E & Et & _); [lia..|].
  exists buf'. split; [done|]. rewrite Et. f_equal.
  - unfold buf1. rewrite take_app_le by (rewrite length_take; lia). rewrite take_take. f_equal. lia.
  - unfold buf1. rewrite drop_app_length' by (rewrite length_take; lia).
    by rewrite take_app_length' by done.
Qed.
End Buffer.

(** ** Formats and their meaning *)

Inductive conv := CvD | CvU | CvX | CvO | CvC | CvS (precision : Z).

Record dir := mkDir {
  d_left : bool;
  d_zero : bool;
  d_width : Z;
  d_long : bool;
  d_conv : conv
}.

Inductive item := Lit (c : Z) | Pct | Dir (d : dir).

Definition opt_num (n : Z) : list Z := if n =? 0 then [] else text 10 n.
Definition conv_char (cv : conv) : Z :=
  match cv with CvD => 100 | CvU => 117 | CvX => 120 | CvO => 111 | CvC => 99 | CvS _ => 115 end.
Definition conv_prec (cv : conv) : Z := match cv with CvS p => p | _ => 0 end.
Definition prec_text (p : Z) : list Z := if p =? 0 then [] else 46 :: text 10 p.

(** What follows the flags, and the whole directive after the per cent. *)
Definition tail_text (d : dir) : list Z :=
  prec_text (conv_prec (d_conv d)) ++ (if d_long d then [108] else []) ++ [conv_char (d_conv d)].
Definition dir_text (d : dir) : list Z :=
  (if d_left d then [45] else []) ++ (if d_zero d then [48] else []) ++
  opt_num (d_width d) ++ tail_text d.
Definition item_text (it : item) : list Z :=
  match it with Lit c => [c] | Pct => [37; 37] | Dir d => 37 :: dir_text d end.
Definition fmt_text (l : list item) : list Z := concat (map item_text l).

(** A precision can follow a width or the zero flag only, and the flags for
    left alignment and for zeros do not come together. *)
Definition item_ok (it : item) : Prop :=
  match it with
  | Lit c => 0 < c < 256 /\ c <> 37
  | Pct => True
  | Dir d => 0 <= d_width d < 2^31 /\ 0 <= conv_prec (d_conv d) < 2^31 /\
      (conv_prec (d_conv d) <> 0 -> d_zero d = true \/ d_width d <> 0) /\
      d_left d && d_zero d = false
  end.

Definition field (left : bool) (filler width : Z) (body : list Z) : list Z :=
  let pad := replicate (Z.to_nat (width - Z.of_nat (length body))) filler in
  if left then body ++ pad
  else
    match body with
    | c :: b => if (c =? 45) && (filler =? 48) then c :: pad ++ b else pad ++ body
    | [] => pad
    end.

Definition signed_text (n : Z) : list Z := if n <? 0 then 45 :: text 10 (- n) else text 10 n.

Definition render_dir (d : dir) (ap : list va) : option (list Z * list va) :=
  let f filler body := field (d_left d) filler (d_width d) body in
  let num := if d_zero d then 48 else 32 in
  match d_conv d, ap with
  | CvD, VWord w :: ap => Some (f num (signed_text (s32 w)), ap)
  | CvU, VWord w :: ap => Some (f num (text 10 (u32 w)), ap)
  | CvX, VWord w :: ap => Some (f num (text 16 (u32 w)), ap)
  | CvO, VWord w :: ap => Some (f num (text 8 (u32 w)), ap)
  | CvC, VWord w :: ap => Some (f 32 [u8 w], ap)
  | CvS p, VStr o :: ap =>
      Some (f 32 (take (Z.to_nat (if p =? 0 then 32767 else p))
                    (match o with Some l => l | None => null_string end)), ap)
  | _, _ => None
  end.

Fixpoint render (l : list item) (ap : list va) : option (list Z) :=
  match l with
  | [] => Some []
  | Lit c :: l => (fun r => c :: r) <$> render l ap
  | Pct :: l => (fun r => 37 :: r) <$> render l ap
  | Dir d :: l =>
      match render_dir d ap with
      | Some (out, ap) => (fun r => out ++ r) <$> render l ap
      | None => None
      end
  end.

Section Render.
Context {S : Type} `{BaseSequentialStream S}.
Implicit Types (st : S) (ap : list va).

(** ** Output *)

Lemma oeq_bind {A B} (m : M S A) (f g : A -> M S B) st :
  (forall a st, oeq (f a st) (g a st)) -> oeq (bind m f st) (bind m g st).
Proof. intros Hf. unfold bind. apply obind_proper; [reflexivity|]. intros a x. apply Hf. Qed.

Lemma put_all_app l1 l2 st : oeq (put_all (l1 ++ l2) st) ((put_all l1 ;;; put_all l2) st).
Proof.
  revert st. induction l1 as [|c l1 IH]; intros st; [reflexivity|]. cbn [app put_all].
  rewrite (bind_assoc (chSequentialStreamPut (u8 c))). apply oeq_bind. intros a st'. apply IH.
Qed.

Lemma fill_eq (n : nat) c st : oeq (fill n c st) (put_all (replicate n c) st).
Proof.
  revert st. induction n as [|n IH]; intros st; [reflexivity|]. cbn [fill replicate put_all].
  apply oeq_bind. intros a st'. apply IH.
Qed.

Lemma bind_unit (m : M S unit) st : oeq ((m ;;; mret' tt) st) (m st).
Proof.
  unfold bind. generalize (m st). intros o. induction o as [[] x|w x k IH|e]; simpl;
    [reflexivity|constructor; auto|constructor].
Qed.

(** The filler, then what is left of the field. *)
Lemma fill_body (n : nat) filler b st :
  oeq ((let! body' := (fill n filler ;;; mret' b) in put_all body' ;;; fill 0 filler) st)
      (put_all (replicate n filler ++ b) st).
Proof.
  rewrite bind_assoc, put_all_app. etransitivity.
  - apply oeq_bind. intros a st'. unfold bind at 1. cbn [mret' obind]. apply bind_unit.
  - unfold bind. apply obind_proper; [apply fill_eq|]. intros a st'. reflexivity.
Qed.

Lemma put_field_eq body width left filler st :
  oeq (put_field body width left filler st) (put_all (field left filler width body) st).
Proof.
  unfold put_field, field. set (n := Z.to_nat (width - Z.of_nat (length body))).
  assert (Z.to_nat (if width - Z.of_nat (length body) <? 0 then 0
                    else width - Z.of_nat (length body)) = n) as En.
  { unfold n. destruct (Z.ltb_spec (width - Z.of_nat (length body)) 0); lia. }
  set (w := if width - Z.of_nat (length body) <? 0 then 0 else width - Z.of_nat (length body)) in *.
  assert (0 <= w) as Hw.
  { unfold w. destruct (Z.ltb_spec (width - Z.of_nat (length body)) 0); lia. }
  clearbody w. destruct left.
  - destruct (Z.ltb_spec w 0); [lia|]. rewrite En, put_all_app.
    unfold bind at 1. cbn [mret' obind]. apply oeq_bind. intros a st'. apply fill_eq.
  - destruct (Z.ltb_spec (- w) 0).
    + rewrite Z.opp_involutive, En. replace (Z.to_nat (- w)) with 0%nat by lia.
      destruct body as [|c b]; [unfold bind at 2; cbn [mret' obind]; rewrite fill_body; by rewrite app_nil_r|].
      destruct ((c =? 45) && (filler =? 48)).
      * rewrite bind_assoc. cbn [put_all]. rewrite bind_assoc. apply oeq_bind. intros a st'.
        unfold bind at 1. cbn [mret' obind]. apply fill_body.
      * unfold bind at 2. cbn [mret' obind]. apply fill_body.
    + assert (n = 0%nat) as -> by lia. replace (Z.to_nat (- w)) with 0%nat by lia.
      unfold bind at 1. cbn [mret' obind replicate app fill]. rewrite bind_unit.
      destruct body; [done|]. by destruct (_ && _).
Qed.
(** ** Numbers in the format *)

Lemma foldl_ge (ds : list Z) acc :
  0 <= acc -> Forall (fun c => 48 <= c <= 57) ds ->
  acc <= foldl (fun acc c => acc * 10 + digit_value c) acc ds.
Proof.
  intros H0 HF. revert acc H0. induction HF as [|c ds Hc _ IH]; intros acc H0; simpl; [lia|].
  unfold digit_value in *. destruct (Z.leb_spec c 57); [|lia].
  specialize (IH (acc * 10 + (c - 48)) ltac:(lia)). lia.
Qed.

Lemma num_loop_ok ds c r ap n st :
  Forall (fun c => 48 <= c <= 57) ds -> is_digit c = false -> c <> 42 -> 0 <= n ->
  foldl (fun acc c => acc * 10 + digit_value c) n ds < 2^31 ->
  num_loop (ds ++ c :: r) ap n st =
    Done (c, Some r, ap, foldl (fun acc c => acc * 10 + digit_value c) n ds) st.
Proof.
  intros HF Hc H42 Hn Hlt. revert n Hn Hlt. induction HF as [|d ds Hd HF IH]; intros n Hn Hlt; simpl.
  - rewrite Hc. by rewrite (proj2 (Z.eqb_neq _ _) H42).
  - assert (is_digit d = true) as -> by (unfold is_digit; lia).
    assert (digit_value d = d - 48) as Ev by (unfold digit_value; destruct (Z.leb_spec d 57); lia).
    simpl in Hlt. rewrite Ev in *. pose proof (foldl_ge ds (n * 10 + (d - 48)) ltac:(lia) HF).
    rewrite s32_small by (unfold is_s32; lia). apply IH; [lia|done].
Qed.

Lemma text10_ok n : 0 <= n < 2^31 ->
  Forall (fun c => 48 <= c <= 57) (text 10 n) /\ text_value 10 (text 10 n) = n.
Proof.
  intros Hn. split.
  - apply List.Forall_forall. intros c Hc%list_elem_of_In.
    apply (num_text_chars 10 ltac:(lia)) in Hc; lia.
  - apply num_text_value; [lia| |lia]. split; [lia|]. apply Z.lt_le_trans with (10 ^ 32); [lia|].
    done.
Qed.

Lemma read_opt_num n c r ap st :
  0 <= n < 2^31 -> is_digit c = false -> c <> 42 ->
  read_num (Some (opt_num n ++ c :: r)) ap st = Done (c, Some r, ap, n) st.
Proof.
  intros Hn Hc H42. unfold read_num, opt_num. destruct (Z.eqb_spec n 0) as [->|Hne].
  - apply (num_loop_ok []); try done. 
  - destruct (text10_ok n Hn) as [HF Hv]. unfold text_value in Hv.
    rewrite (num_loop_ok (text 10 n)); [by rewrite Hv|done..|lia].
Qed.

(** The first digit is not zero. *)
Lemma text10_head n : 0 < n < 2^31 -> exists c l, text 10 n = c :: l /\ 49 <= c <= 57.
Proof.
  intros Hn. assert (n < 10 ^ Z.of_nat 32) as Hb by (apply Z.lt_le_trans with (2^31); [lia|done]).
  unfold text. revert n Hn Hb. generalize 32%nat. induction n as [|k IH]; intros n Hn Hb.
  { simpl in Hb. lia. }
  cbn [num_text]. pose proof (Z.mod_pos_bound n 10 ltac:(lia)).
  pose proof (Z.div_mod n 10 ltac:(lia)) as Ed.
  destruct (Z.eqb_spec (n / 10) 0) as [E|E].
  - exists (digit_char (n mod 10)), []. split; [done|]. unfold digit_char.
    destruct (Z.ltb_spec 57 (n mod 10 + 48)); lia.
  - destruct (IH (n / 10)) as (c & l & -> & Hc).
    + pose proof (Z.div_pos n 10). split; [lia|]. apply Z.div_lt_upper_bound; lia.
    + rewrite Nat2Z.inj_succ, Z.pow_succ_r in Hb by lia. apply Z.div_lt_upper_bound; lia.
    + by exists c, (l ++ [digit_char (n mod 10)]).
Qed.

(** ** Conversions *)

Lemma s32_u32 w : s32 (u32 w) = s32 w.
Proof. unfold s32, u32. by rewrite Zplus_mod_idemp_l. Qed.

Lemma str_scan_take (l : list Z) p : 0 <= p -> str_scan l p = take (Z.to_nat p) l.
Proof.
  revert p. induction l as [|c l IH]; intros p Hp; [by rewrite take_nil|]. simpl.
  destruct (Z.leb_spec 0 (p - 1)).
  - rewrite IH by lia. replace (Z.to_nat p) with (Datatypes.S (Z.to_nat (p - 1))) by lia. done.
  - by replace (Z.to_nat p) with 0%nat by lia.
Qed.

Lemma ltoa_take radix n st :
  8 <= radix <= 16 -> 0 <= n < 2^32 ->
  exists r, ltoa tmpbuf0 0 (s32 n) radix st = Done r st /\ take (Z.to_nat r.2) r.1 = text radix n.
Proof.
  intros Hr Hn. destruct (ltoa_ok tmpbuf0 0 radix n st Hr Hn) as (buf & E & Et); [simpl; lia|].
  eexists. split; [exact E|]. cbn [fst snd]. rewrite Nat2Z.id. exact Et.
Qed.

Lemma convert_ok d ap out ap' st :
  item_ok (Dir d) -> render_dir d ap = Some (out, ap') ->
  exists body filler, convert (conv_char (d_conv d)) ap (if d_zero d then 48 else 32)
      (conv_prec (d_conv d)) st = Done (body, filler, ap') st /\
    out = field (d_left d) filler (d_width d) body.
Proof.
  intros (_ & Hp & _) E. unfold render_dir in E.
  assert (forall radix w, 8 <= radix <= 16 -> exists r,
    ltoa tmpbuf0 0 (s32 w) radix st = Done r st /\ take (Z.to_nat r.2) r.1 = text radix (u32 w)) as Hu.
  { intros radix w Hr. rewrite <-s32_u32. apply ltoa_take; [done|]. apply u32_range. }
  destruct (d_conv d) as [| | | | |p]; destruct ap as [|[w|o] ap]; try done; injection E as <- <-.
  - unfold convert, conv_char. cbn -[s32 ltoa take text tmpbuf0 buf_set].
    unfold bind. cbn [va_word mret' obind fst snd]. unfold signed_text.
    pose proof (s32_range w) as Hs. destruct (Z.ltb_spec (s32 w) 0).
    + destruct (ltoa_ok (45 :: replicate 11 0) 1 10 (- s32 w) st) as (buf & Er & Et);
        [lia|unfold is_s32 in Hs; lia|simpl; lia|].
      change (buf_set tmpbuf0 0 45) with (Some (45 :: replicate 11 0)).
      change (Z.of_nat 1) with 1 in Er. cbv iota. rewrite Er. cbn [obind fst snd mret']. rewrite Nat2Z.id.
      eexists _, _. split; [done|]. by rewrite Et.
    + destruct (ltoa_take 10 (s32 w) st) as (r & Er & Et); [lia|unfold is_s32 in Hs; lia|].
      rewrite (s32_small (s32 w)) in Er by done. rewrite Er. cbn [obind].
      eexists _, _. split; [done|]. by rewrite Et.
  - destruct (Hu 10 w ltac:(lia)) as (r & Er & Et). eexists _, _. split; [|by rewrite <-Et].
    unfold convert, bind. cbn [conv_char Z.eqb Pos.eqb orb va_word mret' obind fst snd].
    by rewrite Er.
  - destruct (Hu 16 w ltac:(lia)) as (r & Er & Et). eexists _, _. split; [|by rewrite <-Et].
    unfold convert, bind. cbn [conv_char Z.eqb Pos.eqb orb va_word mret' obind fst snd].
    by rewrite Er.
  - destruct (Hu 8 w ltac:(lia)) as (r & Er & Et). eexists _, _. split; [|by rewrite <-Et].
    unfold convert, bind. cbn [conv_char Z.eqb Pos.eqb orb va_word mret' obind fst snd].
    by rewrite Er.
  - eexists _, _. by split.
  - eexists _, _. split; [done|]. simpl in Hp. cbn [conv_prec]. rewrite str_scan_take; [done|].
    destruct (p =? 0); lia.
Qed.
(** ** Directives *)

Lemma step_bind {A B} (m : M S A) (f : A -> M S B) a st st' :
  m st = Done a st' -> bind m f st = f a st'.
Proof. intros E. unfold bind. by rewrite E. Qed.

Lemma conv_char_range cv : 99 <= conv_char cv <= 120 /\ conv_char cv <> 108.
Proof. destruct cv; simpl; lia. Qed.

(** What comes after the flags does not look like one. *)
Lemma after_flags d rest :
  item_ok (Dir d) -> exists h l, opt_num (d_width d) ++ tail_text d ++ rest = h :: l /\
    h <> 45 /\ (d_zero d = false -> h <> 46 /\ h <> 48).
Proof.
  intros (Hw & Hp & Hwp & _). unfold opt_num, tail_text, prec_text.
  destruct (Z.eqb_spec (d_width d) 0) as [E|E].
  - destruct (Z.eqb_spec (conv_prec (d_conv d)) 0) as [E'|E'].
    + pose proof (conv_char_range (d_conv d)).
      destruct (d_long d); eexists _, _; (split; [reflexivity|]); lia.
    + eexists 46, _. split; [reflexivity|]. split; [lia|]. intros Ez.
      destruct (Hwp E') as [?|?]; congruence.
  - destruct (text10_head (d_width d)) as (c & l & -> & Hc); [lia|].
    eexists _, _. split; [reflexivity|]. lia.
Qed.

Lemma read_modifier_ok d rest st :
  let cv := conv_char (d_conv d) in
  exists c r, (if d_long d then [108] else []) ++ [cv] ++ rest = c :: r /\
    is_digit c = false /\ c <> 42 /\ c <> 46 /\ read_modifier c (Some r) st = Done (cv, Some rest) st.
Proof.
  intros cv. pose proof (conv_char_range (d_conv d)) as [Hcc Hcl]. fold cv in Hcc, Hcl.
  unfold read_modifier, is_digit. destruct (d_long d); eexists _, _; (split; [reflexivity|]).
  - split_and!; [done|lia|lia|]. unfold bind. cbn [Z.eqb Pos.eqb orb peek mret' obind next app].
    by rewrite (proj2 (Z.eqb_neq cv 0)) by lia.
  - split_and!; [lia..|]. destruct (Z.eqb_spec cv 108), (Z.eqb_spec cv 76); simpl; try lia. done.
Qed.

Lemma read_conv_ok d rest left filler ap st :
  item_ok (Dir d) ->
  read_conv left filler (Some (opt_num (d_width d) ++ tail_text d ++ rest)) ap st =
  print_conv left filler (d_width d) (conv_char (d_conv d)) (Some rest) (conv_prec (d_conv d)) ap st.
Proof.
  intros (Hw & Hp & Hwp & _). destruct (read_modifier_ok d rest st) as (c & r & E & C1 & C2 & C3 & Em).
  unfold read_conv, tail_text, prec_text. rewrite <-!app_assoc.
  destruct (Z.eqb_spec (conv_prec (d_conv d)) 0) as [E0|E0].
  - cbn [app] in *. rewrite E, (step_bind _ _ _ _ _ (read_opt_num _ _ _ _ _ Hw C1 C2)).
    rewrite (proj2 (Z.eqb_neq _ _) C3), E0. unfold bind at 1. cbn [mret' obind].
    by rewrite (step_bind _ _ _ _ _ Em).
  - cbn [app] in *. rewrite E.
    rewrite (step_bind _ _ _ _ _ (read_opt_num _ 46 _ ap st Hw eq_refl ltac:(lia))).
    cbn [Z.eqb Pos.eqb].
    pose proof (read_opt_num (conv_prec (d_conv d)) c r ap st Hp C1 C2) as Hrd.
    unfold opt_num in Hrd. rewrite (proj2 (Z.eqb_neq _ _) E0) in Hrd.
    rewrite (step_bind _ _ _ _ _ Hrd). by rewrite (step_bind _ _ _ _ _ Em).
Qed.

(** The flags. *)
Lemma directive_eq d rest ap st :
  item_ok (Dir d) ->
  directive (Some (dir_text d ++ rest)) ap st =
  read_conv (d_left d) (if d_zero d then 48 else 32)
    (Some (opt_num (d_width d) ++ tail_text d ++ rest)) ap st.
Proof.
  intros Hok. destruct (after_flags d rest Hok) as (h & l & El & Hh & Hz).
  unfold directive, dir_text. rewrite <-!app_assoc, El.
  assert (d_zero d = false -> (h =? 46) || (h =? 48) = false) as Hz'
    by (intros E; destruct (Hz E); lia).
  assert ((h =? 45) = false) as Hh' by lia.
  destruct (d_left d), (d_zero d); unfold bind;
    cbn [app peek next mret' obind fst snd Z.eqb Pos.eqb orb];
    rewrite ?Hh'; cbn [mret' obind peek next fst snd]; rewrite ?Hz' by done; done.
Qed.

Lemma directive_ok d rest ap out ap' st :
  item_ok (Dir d) -> render_dir d ap = Some (out, ap') ->
  oeq (directive (Some (dir_text d ++ rest)) ap st) ((put_all out ;;; mret' (Some rest, ap')) st).
Proof.
  intros Hok Hr. rewrite directive_eq, read_conv_ok by done.
  destruct (convert_ok d ap out ap' st Hok Hr) as (body & filler & E & ->).
  unfold print_conv. rewrite (step_bind _ _ _ _ _ E).
  unfold bind. apply obind_proper; [apply put_field_eq|]. intros a st'. reflexivity.
Qed.

Lemma percent_eq rest ap st :
  directive (Some (37 :: rest)) ap st = (put_field [37] 0 false 32 ;;; mret' (Some rest, ap)) st.
Proof. reflexivity. Qed.

Lemma bind_at {A B} (m m' : M S A) (f : A -> M S B) st : m st = m' st -> bind m f st = bind m' f st.
Proof. intros E. unfold bind. by rewrite E. Qed.

(** ** The whole format *)

Lemma printf_loop_ok l ap out (fuel : nat) st :
  Forall item_ok l -> render l ap = Some out -> (length (fmt_text l) < fuel)%nat ->
  oeq (printf_loop fuel (Some (fmt_text l)) ap st) (put_all out st).
Proof.
  intros HF. revert ap out fuel st. induction HF as [|it l Hit _ IH]; intros ap out fuel st Hr Hf.
  - injection Hr as <-. destruct fuel; [simpl in Hf; lia|]. reflexivity.
  - destruct fuel as [|fuel]; [lia|].
    change (fmt_text (it :: l)) with (item_text it ++ fmt_text l) in *. rewrite length_app in Hf.
    destruct it as [c| |d]; cbn [item_text app printf_loop length] in *.
    + simpl in Hr. destruct (render l ap) as [r|] eqn:Er; [|done]. injection Hr as <-.
      unfold bind at 1. cbn [next mret' obind fst snd].
      destruct Hit as [Hc H37]. destruct (Z.eqb_spec c 0), (Z.eqb_spec c 37); try lia.
      cbn [negb put_all]. apply oeq_bind. intros a st'. apply IH; [done|lia].
    + simpl in Hr. destruct (render l ap) as [r|] eqn:Er; [|done]. injection Hr as <-.
      unfold bind at 1. cbn [next mret' obind fst snd Z.eqb Pos.eqb negb].
      rewrite (bind_at _ _ _ _ (percent_eq (fmt_text l) ap st)), bind_assoc.
      transitivity (bind (put_all [37]) (fun _ => put_all r) st);
        [|symmetry; apply (put_all_app [37] r)].
      unfold bind at 1 3. apply obind_proper; [apply (put_field_eq [37] 0 false 32)|].
      intros a st'. unfold bind. cbn [mret' obind fst snd]. apply IH; [done|lia].
    + simpl in Hr. destruct (render_dir d ap) as [[o ap']|] eqn:Ed; [|done].
      destruct (render l ap') as [r|] eqn:Er; [|done]. injection Hr as <-.
      unfold bind at 1. cbn [next mret' obind fst snd Z.eqb Pos.eqb negb].
      transitivity (bind (put_all o ;;; mret' (Some (fmt_text l), ap'))
        (fun r => printf_loop fuel r.1 r.2) st).
      { unfold bind at 1 2. apply obind_proper; [by apply directive_ok|]. intros x st'. reflexivity. }
      rewrite put_all_app, bind_assoc. apply oeq_bind. intros a st'. unfold bind.
      cbn [mret' obind fst snd]. apply IH; [done|]. simpl in Hf. lia.
Qed.
End Render.

(** ** Memory streams *)

Record ms_ok (m : MemoryStream) : Prop := {
  mo_size : ms_size m = Z.of_nat (length (ms_buffer m)) /\ ms_size m < 2^32;
  mo_offset : 0 <= ms_offset m <= ms_eos m;
  mo_eos : ms_eos m <= ms_size m
}.

(** What has been written, and what is left to read. *)
Definition ms_data (m : MemoryStream) : list Z := take (Z.to_nat (ms_eos m)) (ms_buffer m).
Definition ms_left (m : MemoryStream) : list Z := drop (Z.to_nat (ms_offset m)) (ms_data m).

Section Memory.
Implicit Types (m : MemoryStream).

Lemma writes_ok bp m :
  ms_ok m ->
  let n := Z.min (Z.of_nat (length bp)) (ms_size m - ms_eos m) in
  exists m', writes bp m = Done n m' /\ ms_ok m' /\
    ms_data m' = ms_data m ++ take (Z.to_nat n) bp /\ ms_offset m' = ms_offset m.
Proof.
  intros [[Hs1 Hs2] Ho He] n. unfold writes.
  rewrite u32_small by (unfold is_u32; lia).
  assert ((if ms_size m - ms_eos m <? Z.of_nat (length bp) then ms_size m - ms_eos m
           else Z.of_nat (length bp)) = n) as ->
    by (unfold n; destruct (Z.ltb_spec (ms_size m - ms_eos m) (Z.of_nat (length bp))); lia).
  assert (length (take (Z.to_nat n) bp) = Z.to_nat n) as Hl by (rewrite length_take; lia).
  unfold buf_store. rewrite Hl.
  destruct (Z.leb_spec 0 (ms_eos m)); [|lia].
  destruct (Z.leb_spec (ms_eos m + Z.of_nat (Z.to_nat n)) (Z.of_nat (length (ms_buffer m)))); [|lia].
  cbn [andb]. eexists. split; [reflexivity|]. rewrite u32_small by (unfold is_u32; lia).
  split_and!; [split|..]; cbn [ms_size ms_buffer ms_eos ms_offset]; try lia.
  - rewrite !length_app, length_take, length_drop, Hl. split; [|done]. lia.
  - unfold ms_data. cbn [ms_buffer ms_eos]. rewrite app_assoc, take_app_le.
    + rewrite take_ge; [done|]. rewrite length_app, length_take, Hl. lia.
    + rewrite length_app, length_take, Hl. lia.
Qed.

Lemma put_ok b m :
  ms_ok m ->
  (ms_eos m = ms_size m -> put b m = Done RDY_RESET m) /\
  (ms_eos m < ms_size m -> exists m', put b m = Done RDY_OK m' /\ ms_ok m' /\
     ms_data m' = ms_data m ++ [b] /\ ms_offset m' = ms_offset m /\ ms_size m' = ms_size m).
Proof.
  intros HO. pose proof HO as [[Hs1 Hs2] Ho He]. unfold put. split.
  - intros ->. by rewrite Z.sub_diag.
  - intros Hlt. rewrite u32_small by (unfold is_u32; lia).
    destruct (Z.leb_spec (ms_size m - ms_eos m) 0); [lia|].
    destruct (writes_ok [b] m HO) as (m' & E & HO' & Ed & Eo). unfold writes in E.
    rewrite u32_small in E by (unfold is_u32; lia).
    destruct (Z.ltb_spec (ms_size m - ms_eos m) (Z.of_nat (length [b]))) as [|_]; [simpl in *; lia|].
    change (take (Z.to_nat (Z.of_nat (length [b]))) [b]) with [b] in E.
    destruct (buf_store (ms_buffer m) (ms_eos m) [b]) as [bf|]; [|done].
    injection E as _ <-. eexists. split; [reflexivity|]. change (Z.of_nat (length [b])) with 1 in *.
    replace (Z.min 1 (ms_size m - ms_eos m)) with 1 in Ed by lia. by split_and!.
Qed.

Lemma put_all_ms l m :
  ms_ok m -> exists m', put_all l m = Done tt m' /\ ms_ok m' /\
    ms_data m' = take (Z.to_nat (ms_size m)) (ms_data m ++ map u8 l) /\ ms_size m' = ms_size m.
Proof.
  revert m. induction l as [|c l IH]; intros m HO; pose proof HO as [[Hs1 Hs2] Ho He];
    assert (length (ms_data m) = Z.to_nat (ms_eos m)) as Hl by (unfold ms_data; rewrite length_take; lia).
  - exists m. split_and!; try done. rewrite app_nil_r, take_ge; [done|lia].
  - cbn [put_all map]. unfold chSequentialStreamPut. simpl ss_put. unfold bind at 1.
    destruct (put_ok (u8 c) m HO) as [Hfull Hroom].
    destruct (Z.eq_dec (ms_eos m) (ms_size m)) as [E|E].
    + rewrite Hfull by done. cbn [obind].
      destruct (IH m HO) as (m' & Em & HO' & Ed & Es). exists m'. split_and!; try done.
      rewrite Ed. rewrite !take_app_le by lia. done.
    + destruct (Hroom ltac:(lia)) as (m1 & -> & HO1 & Ed1 & _ & Es1). cbn [obind].
      destruct (IH m1 HO1) as (m' & Em & HO' & Ed & Es). exists m'.
      rewrite Ed1, Es1, <-app_assoc in Ed. split_and!; try done. congruence.
Qed.

Lemma reads_ok k m :
  ms_ok m -> 0 <= k ->
  let n := Z.min k (ms_eos m - ms_offset m) in
  exists m', reads k m = Done (n, take (Z.to_nat n) (ms_left m)) m' /\ ms_ok m' /\
    ms_data m' = ms_data m /\ ms_left m' = drop (Z.to_nat n) (ms_left m).
Proof.
  intros [[Hs1 Hs2] Ho He] Hk n. unfold reads. rewrite u32_small by (unfold is_u32; lia).
  assert ((if ms_eos m - ms_offset m <? k then ms_eos m - ms_offset m else k) = n) as ->
    by (unfold n; destruct (Z.ltb_spec (ms_eos m - ms_offset m) k); lia).
  unfold buf_load. destruct (Z.leb_spec 0 (ms_offset m)); [|lia].
  destruct (Z.leb_spec 0 n); [|lia].
  destruct (Z.leb_spec (ms_offset m + n) (Z.of_nat (length (ms_buffer m)))); [|lia].
  cbn [andb]. rewrite u32_small by (unfold is_u32; lia). eexists. split_and!.
  - do 2 f_equal. unfold ms_left, ms_data. rewrite skipn_firstn_comm, take_take. f_equal. lia.
  - split; cbn [ms_size ms_buffer ms_eos ms_offset]; lia.
  - done.
  - unfold ms_left. cbn [ms_offset]. change (ms_data _) with (ms_data m) at 1.
    rewrite drop_drop. f_equal. lia.
Qed.
End Memory.
