(* ===== verification/StreamThm.v ===== *)
(** * Theorems: formatted output *)
From S2P Require Import Prelude Monad Types Stream StreamOK.

(** C40: [chprintf()] on the text of a format, whatever the stream, puts on it
    exactly the characters the items of the format and the arguments stand
    for: numbers in radix 8, 10 and 16 with their sign and without leading
    zeros, strings cut to the precision, each padded to its width on the
    side asked.  The formats are those in which a precision follows a width or
    the flag for zeros, and left alignment is not combined with the flag for
    zeros; a lone precision and the two flags together, which the code gets
    wrong, are excluded.  It returns, reads nothing past the end of the
    format and writes nothing outside its buffer of 12 characters; and the text
    of a number reads back as the number. *)
Theorem chprintf_renders {S : Type} `{BaseSequentialStream S} l ap out (st : S) :
  Forall item_ok l -> render l ap = Some out ->
  oeq (chprintf (fmt_text l) ap st) (put_all out st) /\
  forall radix n, 8 <= radix <= 16 -> 0 <= n < 2^32 -> text_value radix (text radix n) = n.
Proof.
  intros HF Hr. split; [by apply printf_loop_ok; [..|lia]|].
  intros radix n Hx Hn. apply num_text_value; [done| |lia]. split; [lia|].
  apply Z.lt_le_trans with (8 ^ 32); [lia|]. apply Z.pow_le_mono_l. lia.
Qed.

(** ["<%05d|%-4x>"] with -42 and 255, on a memory stream of 16 bytes. *)
Definition demo_items : list item :=
  [ Lit 60; Dir (mkDir false true 5 false CvD); Lit 124; Dir (mkDir true false 4 false CvX); Lit 62 ].
Definition demo_stream : MemoryStream := msObjectInit (replicate 16 0) 16 0.

Lemma chprintf_renders_witness :
  fmt_text demo_items = [60; 37; 48; 53; 100; 124; 37; 45; 52; 120; 62] /\
  oeq (chprintf (fmt_text demo_items) [VWord (-42); VWord 255] demo_stream)
      (put_all [60; 45; 48; 48; 52; 50; 124; 70; 70; 32; 32; 62] demo_stream).
Proof.
  split; [by vm_compute|].
  apply (chprintf_renders demo_items [VWord (-42); VWord 255]
    [60; 45; 48; 48; 52; 50; 124; 70; 70; 32; 32; 62] demo_stream); [|by vm_compute].
  repeat constructor; simpl; lia.
Defined.

(** ** What the code makes of other formats *)

(** The characters left in the buffer of a memory stream. *)
Definition printed (o : outcome MemoryStream unit) : option (list Z) :=
  match o with Done _ m => Some (ms_data m) | _ => None end.

(** A format that ends in the middle of a directive: the terminator is taken
    for the conversion, and the loop goes on with the characters after it. *)
Example printf_reads_past_end :
  chprintf [37] [] demo_stream = Stuck (Fault "fmt").
Proof. reflexivity. Qed.

(** A precision without a width is read as a width filled with zeros: the
    string is not cut. *)
Example printf_lone_precision :
  printed (chprintf [37; 46; 51; 115] [VStr (Some [97; 98; 99; 100; 101])] demo_stream) =
  Some [97; 98; 99; 100; 101].
Proof. by vm_compute. Qed.

(** Left alignment with zeros puts the zeros after the digits: 42 in a field
    of five is printed as 42000. *)
Example printf_left_zeros :
  printed (chprintf [37; 45; 48; 53; 100] [VWord 42] demo_stream) = Some [52; 50; 48; 48; 48].
Proof. by vm_compute. Qed.
