(* ===== verification/RdLine.v ===== *)
(** * Line editor ([rdline.c], [rdline.h])

    The functions of [rdline_io_t] are the two ends of a channel: [get] takes
    the next character typed, or returns -1 when there is none, and [put]
    appends to what has been sent to the terminal.

    The line buffer is the list of its [buf_size] characters, and the history
    arena the list of its [history_size] entries, each a header and a line of
    [buf_size] characters: an access outside of either is an error. *)
From S2P Require Import Prelude Monad Types Stream.

(** An entry of the history: [rdline_history_header_t] and its line. *)
Record hentry := mkH { e_pos : Z; e_len : Z; e_line : list Z }.

(** [rdline_ctx_t] and the buffers its configuration names. *)
Record rdline := mkRd {
  r_buf : list Z;            (* cfg->buf *)
  r_size : Z;                (* cfg->buf_size *)
  r_pos : Z;                 (* edit.pos *)
  r_len : Z;                 (* edit.len *)
  r_hcurr : Z;               (* history.curr *)
  r_hlen : Z;                (* history.len *)
  r_arena : list hentry;     (* cfg->history_arena *)
  r_in : list Z;             (* to be returned by io->get() *)
  r_out : list Z             (* given to io->put() *)
}.

Definition set_r_buf (v : list Z) (r : rdline) : rdline :=
  mkRd v (r_size r) (r_pos r) (r_len r) (r_hcurr r) (r_hlen r) (r_arena r) (r_in r) (r_out r).
Definition set_r_pos (v : Z) (r : rdline) : rdline :=
  mkRd (r_buf r) (r_size r) v (r_len r) (r_hcurr r) (r_hlen r) (r_arena r) (r_in r) (r_out r).
Definition set_r_len (v : Z) (r : rdline) : rdline :=
  mkRd (r_buf r) (r_size r) (r_pos r) v (r_hcurr r) (r_hlen r) (r_arena r) (r_in r) (r_out r).
Definition set_r_hcurr (v : Z) (r : rdline) : rdline :=
  mkRd (r_buf r) (r_size r) (r_pos r) (r_len r) v (r_hlen r) (r_arena r) (r_in r) (r_out r).
Definition set_r_hlen (v : Z) (r : rdline) : rdline :=
  mkRd (r_buf r) (r_size r) (r_pos r) (r_len r) (r_hcurr r) v (r_arena r) (r_in r) (r_out r).
Definition set_r_arena (v : list hentry) (r : rdline) : rdline :=
  mkRd (r_buf r) (r_size r) (r_pos r) (r_len r) (r_hcurr r) (r_hlen r) v (r_in r) (r_out r).
Definition set_r_in (v : list Z) (r : rdline) : rdline :=
  mkRd (r_buf r) (r_size r) (r_pos r) (r_len r) (r_hcurr r) (r_hlen r) (r_arena r) v (r_out r).
Definition set_r_out (v : list Z) (r : rdline) : rdline :=
  mkRd (r_buf r) (r_size r) (r_pos r) (r_len r) (r_hcurr r) (r_hlen r) (r_arena r) (r_in r) v.

Definition RM (A : Type) : Type := M rdline A.

Definition io_put (c : Z) : RM unit := modify (fun r => set_r_out (r_out r ++ [c]) r).
Definition io_get : RM Z := fun r =>
  match r_in r with
  | [] => Done (-1) r
  | c :: l => Done c (set_r_in l r)
  end.

(** ** Numbers in escape sequences *)

(** [swp(a, b)] on two positions of an array. *)
Definition swp (buf : list Z) (a b : Z) : option (list Z) :=
  match buf_get buf a, buf_get buf b with
  | Some x, Some y =>
      match buf_set buf a y with Some buf => buf_set buf b x | None => None end
  | _, _ => None
  end.

(** [while (a < b) swp(a++, b--)]: each round narrows the interval by two. *)
Fixpoint rev_loop (fuel : nat) (buf : list Z) (a b : Z) : option (list Z) :=
  if a <? b then
    match fuel with
    | O => None
    | S fuel =>
        match swp buf a b with
        | Some buf => rev_loop fuel buf (a + 1) (b - 1)
        | None => None
        end
    end
  else Some buf.
Definition rev (buf : list Z) (s1 s2 : Z) : option (list Z) :=
  rev_loop (length buf) buf s1 s2.

Definition DIGIT (n : Z) : Z := 48 + n.

(** The digits of [n], least significant first, from [ptr + cnt] on: the
    buffer and the count. *)
Fixpoint convascii_loop (fuel : nat) (buf : list Z) (ptr cnt n : Z) : option (list Z * Z) :=
  if 10 <=? n then
    match fuel with
    | O => None
    | S fuel =>
        match buf_set buf (ptr + cnt) (DIGIT (n mod 10)) with
        | Some buf => convascii_loop fuel buf ptr (cnt + 1) (n / 10)
        | None => None
        end
    end
  else
    match buf_set buf (ptr + cnt) (DIGIT (n mod 10)) with
    | Some buf => Some (buf, cnt + 1)
    | None => None
    end.

(** A 32-bit number has at most ten digits. *)
Definition convascii (buf : list Z) (ptr n : Z) : option (list Z * Z) :=
  match convascii_loop 10 buf ptr 0 n with
  | Some (buf, cnt) =>
      match rev buf ptr (ptr + cnt - 1) with
      | Some buf => Some (buf, cnt)
      | None => None
      end
  | None => None
  end.

(** [while (z--) *dst++ = c], from position [i]. *)
Fixpoint mset (z : nat) (buf : list Z) (i c : Z) : option (list Z) :=
  match z with
  | O => Some buf
  | S z => match buf_set buf i c with Some buf => mset z buf (i + 1) c | None => None end
  end.

(** [char] is unsigned on the target. *)
Definition is_printable (c : Z) : bool := (31 <? c) && (c <? 128).

(** ** Output *)

(** The first [len] characters of an array. *)
Fixpoint rdline_write (ptr : list Z) (len : nat) {struct len} : RM unit :=
  match len with
  | O => mret' tt
  | S len =>
      match ptr with
      | c :: ptr => io_put c ;;; rdline_write ptr len
      | [] => fault "rdline_write"
      end
  end.

(** The characters up to the terminator, and their number. *)
Fixpoint rdline_print (ptr : list Z) : RM Z :=
  match ptr with
  | [] => fault "rdline_print"
  | c :: ptr =>
      if c =? 0 then mret' 0
      else io_put c ;;; let! n := rdline_print ptr in mret' (n + 1)
  end.

(** [char buf[15]], with the escape and the bracket at its start. *)
Definition move_buf : list Z := 27 :: 91 :: replicate 13 0.

Definition do_move (n dir : Z) : RM unit :=
  match convascii move_buf 2 (u32 n) with
  | Some (buf, cnt) =>
      let l := 2 + cnt in
      match buf_set buf l dir with
      | Some buf => rdline_write buf (Z.to_nat (l + 1))
      | None => fault "do_move"
      end
  | None => fault "do_move"
  end.

Definition move_left (n : Z) : RM unit := whenb 0 <? n then do_move n 68.
Definition move_right (n : Z) : RM unit := whenb 0 <? n then do_move n 67.
Definition print_str := rdline_print.
Definition clear_line : RM unit := print_str [27; 91; 75; 0] ;;; mret' tt.

(** ** The line *)

(** [while (max >= pos) { buf[max + 1] = buf[max]; max--; }] *)
Fixpoint shift_loop (fuel : nat) (buf : list Z) (max pos : Z) : option (list Z) :=
  if pos <=? max then
    match fuel with
    | O => None
    | S fuel =>
        match buf_get buf max with
        | Some c =>
            match buf_set buf (max + 1) c with
            | Some buf => shift_loop fuel buf (max - 1) pos
            | None => None
            end
        | None => None
        end
    end
  else Some buf.

Definition insert_char (c : Z) : RM unit := fun r =>
  match shift_loop (length (r_buf r)) (r_buf r) (r_len r) (r_pos r) with
  | Some buf =>
      match buf_set buf (r_pos r) c with
      | Some buf => Done tt (set_r_buf buf r)
      | None => Stuck (Fault "insert_char")
      end
  | None => Stuck (Fault "insert_char")
  end.

(** [while (pos < len) { buf[pos] = buf[pos + 1]; pos++; } buf[pos] = 0;] *)
Fixpoint unshift_loop (fuel : nat) (buf : list Z) (pos len : Z) : option (list Z) :=
  if pos <? len then
    match fuel with
    | O => None
    | S fuel =>
        match buf_get buf (pos + 1) with
        | Some c =>
            match buf_set buf pos c with
            | Some buf => unshift_loop fuel buf (pos + 1) len
            | None => None
            end
        | None => None
        end
    end
  else buf_set buf pos 0.

Definition remove_char : RM unit := fun r =>
  match unshift_loop (length (r_buf r)) (r_buf r) (r_pos r) (r_len r) with
  | Some buf => Done tt (set_r_buf buf r)
  | None => Stuck (Fault "remove_char")
  end.

(** From the cursor to the end, and back. *)
Definition print_line : RM Z := fun r =>
  (let! len := print_str (drop (Z.to_nat (r_pos r)) (r_buf r)) in
   (whenb 0 <? len then move_left len) ;;;
   mret' len) r.

(** ** History *)

(** [for (i = 0; src[i] && (i < max - 1); i++) dst[i] = src[i]; dst[i] = 0;]
    from [i] on, with the characters of [src] from there. *)
Fixpoint ncpy_loop (dst src : list Z) (i max : Z) : option (list Z) :=
  match src with
  | [] => None
  | c :: src =>
      if negb (c =? 0) && (i <? u32 (max - 1)) then
        match buf_set dst i c with
        | Some dst => ncpy_loop dst src (i + 1) max
        | None => None
        end
      else buf_set dst i 0
  end.
Definition ncpy (dst src : list Z) (max : Z) : option (list Z) := ncpy_loop dst src 0 max.

Definition get_entry (r : rdline) (n : Z) : option hentry :=
  if 0 <=? n then r_arena r !! Z.to_nat n else None.

Definition history_insert : RM unit := fun r =>
  match get_entry r (r_hlen r) with
  | Some e =>
      match ncpy (e_line e) (r_buf r) (r_size r) with
      | Some line =>
          let e := mkH (r_pos r) (r_len r) line in
          Done tt (set_r_hlen (r_hlen r + 1)
                     (set_r_arena (<[Z.to_nat (r_hlen r) := e]> (r_arena r)) r))
      | None => Stuck (Fault "ncpy")
      end
  | None => Stuck (Fault "history_insert")
  end.

Definition history_get : RM unit := fun r =>
  match get_entry r (r_hcurr r) with
  | Some e =>
      match ncpy (r_buf r) (e_line e) (r_size r) with
      | Some buf => Done tt (set_r_len (e_len e) (set_r_pos (e_pos e) (set_r_buf buf r)))
      | None => Stuck (Fault "ncpy")
      end
  | None => Stuck (Fault "history_get")
  end.

Definition redraw_line : RM unit :=
  clear_line ;;;
  (fun r => (rdline_write (r_buf r) (Z.to_nat (r_len r)) ;;; move_left (r_len r - r_pos r)) r).

(** ** Keys *)

Definition rdline_backspace : RM unit := fun r =>
  (if 0 <? r_pos r then
     modify (set_r_pos (r_pos r - 1)) ;;;
     remove_char ;;;
     move_left 1 ;;;
     clear_line ;;;
     print_line ;;;
     modify (fun r => set_r_len (r_len r - 1) r)
   else mret' tt) r.

Definition move_home : RM unit := fun r =>
  (move_left (r_pos r) ;;; modify (set_r_pos 0)) r.

Definition rdline_clear : RM unit := fun r =>
  match mset (Z.to_nat (r_size r)) (r_buf r) 0 0 with
  | Some buf => Done tt (set_r_len 0 (set_r_pos 0 (set_r_buf buf r)))
  | None => Stuck (Fault "mset")
  end.

Inductive rdline_status_t :=
  | RDLINE_ON_EOF | RDLINE_ON_ENTER | RDLINE_ON_UP | RDLINE_ON_DOWN
  | RDLINE_ON_CTRLC | RDLINE_ON_CTRLD.

Definition key_right : RM unit := fun r =>
  (if r_pos r <? r_len r then modify (set_r_pos (r_pos r + 1)) ;;; move_right 1 else mret' tt) r.
Definition key_left : RM unit := fun r =>
  (if 0 <? r_pos r then modify (set_r_pos (r_pos r - 1)) ;;; move_left 1 else mret' tt) r.
Definition key_end : RM unit := fun r =>
  (move_right (r_len r - r_pos r) ;;; modify (fun r => set_r_pos (r_len r) r)) r.
Definition del_char : RM unit := fun r =>
  (if r_pos r <? r_len r then
     remove_char ;;;
     clear_line ;;;
     print_line ;;;
     modify (fun r => set_r_len (r_len r - 1) r)
   else mret' tt) r.
Definition key_del : RM unit := io_get ;;; del_char.

(** After an escape: the key, or the status the loop returns with. *)
Definition escape : RM (option rdline_status_t) :=
  let! c := io_get in
  if c =? 91 then
    let! c := io_get in
    if c =? 66 then mret' (Some RDLINE_ON_DOWN)
    else if c =? 65 then mret' (Some RDLINE_ON_UP)
    else
      (if c =? 67 then key_right
       else if c =? 68 then key_left
       else if c =? 72 then move_home
       else if c =? 70 then key_end
       else if c =? 51 then key_del
       else mret' tt) ;;;
      mret' None
  else mret' None.

Definition key_char (c : Z) : RM unit := fun r =>
  (if (r_len r <? r_size r - 1) && is_printable (u8 c) then
     insert_char (u8 c) ;;;
     print_line ;;;
     move_right 1 ;;;
     modify (fun r => set_r_len (r_len r + 1) (set_r_pos (r_pos r + 1) r))
   else mret' tt) r.

(** One round of the loop of [rdline_input()]. *)
Definition input_step : RM (option rdline_status_t) :=
  let! c := io_get in
  if c =? -1 then mret' (Some RDLINE_ON_EOF)
  else if (c =? 13) || (c =? 10) then mret' (Some RDLINE_ON_ENTER)
  else if (c =? 8) || (c =? 127) then rdline_backspace ;;; mret' None
  else if c =? 27 then escape
  else key_char c ;;; mret' None.

(** Each round takes a character, and the end of the input ends the loop. *)
Fixpoint input_loop (fuel : nat) : RM rdline_status_t :=
  match fuel with
  | O => diverge
  | S fuel =>
      let! st := input_step in
      match st with
      | Some st => mret' st
      | None => input_loop fuel
      end
  end.
Definition rdline_input : RM rdline_status_t := fun r => input_loop (S (length (r_in r))) r.

(** [pos] and [len] are what the memory of the editor holds: [rdline_init()] does
    not set them, [rdline_read()] does. *)
Definition rdline_init (buf : list Z) (buf_size : Z) (arena : list hentry) (pos len : Z) (inp : list Z) : rdline :=
  mkRd buf buf_size pos len 0 0 arena inp [].

(** ** Reading a line *)

Definition on_up : RM unit := fun r =>
  (if 0 <? r_hcurr r then
     move_home ;;;
     modify (fun r => set_r_hcurr (r_hcurr r - 1) r) ;;;
     history_get ;;;
     redraw_line
   else mret' tt) r.

Definition on_down : RM unit :=
  move_home ;;;
  (fun r =>
     (if r_hcurr r <? r_hlen r then
        modify (fun r => set_r_hcurr (r_hcurr r + 1) r) ;;; history_get
      else rdline_clear) r) ;;;
  redraw_line.

Definition on_enter : RM unit :=
  rdline_print [13; 10; 0] ;;;
  fun r => (whenb 0 <? r_len r then history_insert) r.

Fixpoint read_loop (fuel : nat) : RM unit :=
  match fuel with
  | O => diverge
  | S fuel =>
      let! st := rdline_input in
      match st with
      | RDLINE_ON_ENTER => on_enter
      | RDLINE_ON_UP => on_up ;;; read_loop fuel
      | RDLINE_ON_DOWN => on_down ;;; read_loop fuel
      | _ => mret' tt
      end
  end.

Definition rdline_read : RM unit :=
  rdline_clear ;;;
  modify (fun r => set_r_hcurr (r_hlen r) r) ;;;
  fun r => read_loop (S (length (r_in r))) r.
