(* ===== verification/RdLineOK.v ===== *)
(** * Line editor: correctness

    A line being edited is the text before the cursor and the text from the
    cursor on.  The buffer, the position and the length represent it
    ([rep]), and so does what the characters sent so far make a terminal
    show: [term] is a terminal row, with the control sequences the editor
    uses.  Every key keeps both in step ([view]). *)
From S2P Require Import Prelude Monad Types Stream StreamOK RdLine.

Implicit Types (r : rdline) (p l s x : list Z).

(** ** Arrays *)

Abbreviation lenz l := (Z.of_nat (length l)).

Lemma buf_get_mid p c s : buf_get (p ++ c :: s) (lenz p) = Some c.
Proof. rewrite buf_get_nat. by apply list_lookup_middle. Qed.

Lemma buf_set_mid p c s d : buf_set (p ++ c :: s) (lenz p) d = Some (p ++ d :: s).
Proof.
  rewrite buf_set_nat by (rewrite length_app; simpl; lia). f_equal.
  by rewrite insert_app_r_alt, Nat.sub_diag by lia.
Qed.

(** The same, at a position written otherwise. *)
Lemma buf_get_at p c s i : i = lenz p -> buf_get (p ++ c :: s) i = Some c.
Proof. intros ->. apply buf_get_mid. Qed.
Lemma buf_set_at p c s d i : i = lenz p -> buf_set (p ++ c :: s) i d = Some (p ++ d :: s).
Proof. intros ->. apply buf_set_mid. Qed.

Lemma lenz_app p s : lenz (p ++ s) = lenz p + lenz s.
Proof. rewrite length_app. lia. Qed.

Lemma swp_ok p l s (c d : Z) :
  swp (p ++ c :: l ++ d :: s) (lenz p) (lenz p + 1 + lenz l) = Some (p ++ d :: l ++ c :: s).
Proof.
  unfold swp. rewrite buf_get_mid.
  replace (p ++ c :: l ++ d :: s) with ((p ++ c :: l) ++ d :: s) by (by rewrite <-app_assoc).
  rewrite buf_get_at by (rewrite lenz_app; simpl; lia).
  rewrite <-app_assoc. cbn [app]. rewrite buf_set_mid.
  replace (p ++ d :: l ++ d :: s) with ((p ++ d :: l) ++ d :: s) by (by rewrite <-app_assoc).
  rewrite buf_set_at by (rewrite lenz_app; simpl; lia). by rewrite <-app_assoc.
Qed.

(** Reversal in place. *)
Lemma rev_loop_ok (fuel : nat) l p s :
  (length l <= fuel)%nat ->
  rev_loop fuel (p ++ l ++ s) (lenz p) (lenz p + lenz l - 1) = Some (p ++ reverse l ++ s).
Proof.
  revert l p s. induction fuel as [|fuel IH]; intros l p s Hl.
  { destruct l; [|simpl in Hl; lia]. cbn [rev_loop].
    by rewrite (proj2 (Z.ltb_ge _ _)) by (simpl; lia). }
  destruct l as [|c l]; [cbn [rev_loop]; by rewrite (proj2 (Z.ltb_ge _ _)) by (simpl; lia)|].
  destruct l as [|d l _] using rev_ind.
  { cbn [rev_loop]. by rewrite (proj2 (Z.ltb_ge _ _)) by (simpl; lia). }
  assert (lenz (c :: l ++ [d]) = lenz l + 2) as El by (simpl; rewrite length_app; simpl; lia).
  assert (p ++ (c :: l ++ [d]) ++ s = p ++ c :: l ++ d :: s) as Eb by (simpl; by rewrite <-app_assoc).
  rewrite El, Eb. cbn [rev_loop]. rewrite (proj2 (Z.ltb_lt _ _)) by lia.
  replace (lenz p + (lenz l + 2) - 1) with (lenz p + 1 + lenz l) by lia. rewrite swp_ok.
  simpl in Hl. rewrite length_app in Hl. simpl in Hl.
  specialize (IH l (p ++ [d]) (c :: s) ltac:(lia)). rewrite lenz_app, <-app_assoc in IH.
  change (lenz [d]) with 1 in IH. cbn [app] in IH. rewrite IH. f_equal.
  rewrite reverse_cons, reverse_snoc, <-!app_assoc. done.
Qed.

(** ** Escape sequences *)

Lemma conv_loop_ok (fuel : nat) n p x (cnt ptr : Z) :
  0 <= n < 10 ^ Z.of_nat (S fuel) -> (length (num_text (S fuel) 10 n) <= length x)%nat ->
  ptr + cnt = lenz p ->
  let t := num_text (S fuel) 10 n in
  convascii_loop fuel (p ++ x) ptr cnt n =
    Some (p ++ reverse t ++ drop (length t) x, cnt + lenz t).
Proof.
  revert n p x cnt. induction fuel as [|fuel IH]; intros n p x cnt Hn Hx Hp t; cbn [convascii_loop].
  - rewrite Z.pow_1_r in Hn. destruct (Z.leb_spec 10 n); [lia|].
    unfold t in *. cbn [num_text] in *. rewrite Z.div_small in * by lia. simpl in Hx |- *.
    destruct x as [|y x]; [simpl in Hx; lia|]. rewrite buf_set_at by done. simpl.
    unfold DIGIT, digit_char. rewrite Z.mod_small by lia.
    destruct (Z.ltb_spec 57 (n + 48)); [lia|]. by rewrite (Z.add_comm 48).
  - assert ((10 <=? n) = negb (n / 10 =? 0)) as ->.
    { pose proof (Z.div_mod n 10 ltac:(lia)). pose proof (Z.mod_pos_bound n 10 ltac:(lia)).
      destruct (Z.leb_spec 10 n), (Z.eqb_spec (n / 10) 0); simpl; lia. }
    assert (DIGIT (n mod 10) = digit_char (n mod 10)) as ->.
    { pose proof (Z.mod_pos_bound n 10 ltac:(lia)). unfold DIGIT, digit_char.
      destruct (Z.ltb_spec 57 (n mod 10 + 48)); lia. }
    unfold t in *. clear t. remember (S fuel) as k. cbn [num_text] in *.
    destruct x as [|y x]; [destruct (n / 10 =? 0); rewrite ?length_app in Hx; simpl in Hx; lia|].
    rewrite buf_set_at by done. destruct (Z.eqb_spec (n / 10) 0) as [E|E]; cbn [negb].
    + done.
    + rewrite length_app in Hx. simpl in Hx. subst k.
      replace (p ++ digit_char (n mod 10) :: x) with ((p ++ [digit_char (n mod 10)]) ++ x)
        by (by rewrite <-app_assoc).
      rewrite IH; [|..|lia|rewrite lenz_app; simpl; lia].
      * rewrite reverse_snoc, length_app, <-!app_assoc. simpl. rewrite Nat.add_1_r. simpl.
        do 2 f_equal. lia.
      * rewrite (Nat2Z.inj_succ (S fuel)), Z.pow_succ_r in Hn by lia.
        split; [apply Z.div_pos; lia|]. apply Z.div_lt_upper_bound; lia.
Qed.

Lemma num_text_fuel (k k' : nat) n :
  0 <= n < 10 ^ Z.of_nat k -> 0 <= n < 10 ^ Z.of_nat k' -> (0 < k)%nat -> (0 < k')%nat ->
  num_text k 10 n = num_text k' 10 n.
Proof.
  revert k' n. induction k as [|k IH]; intros [|k'] n Hn Hn' Hk Hk'; try lia. cbn [num_text].
  destruct (Z.eqb_spec (n / 10) 0) as [E|E]; [done|]. f_equal.
  destruct k as [|k]; [rewrite Z.pow_1_r in Hn; rewrite Z.div_small in E by lia; done|].
  destruct k' as [|k']; [rewrite Z.pow_1_r in Hn'; rewrite Z.div_small in E by lia; done|].
  rewrite (Nat2Z.inj_succ (S k)), Z.pow_succ_r in Hn by lia.
  rewrite (Nat2Z.inj_succ (S k')), Z.pow_succ_r in Hn' by lia.
  pose proof (Z.div_pos n 10).
  apply IH; try lia; (split; [lia|]; apply Z.div_lt_upper_bound; lia).
Qed.

Lemma convascii_ok p x n :
  0 <= n < 2^32 -> (10 <= length x)%nat ->
  convascii (p ++ x) (lenz p) n =
    Some (p ++ text 10 n ++ drop (length (text 10 n)) x, lenz (text 10 n)).
Proof.
  intros Hn Hx. unfold convascii.
  assert (num_text 11 10 n = text 10 n) as Et.
  { apply num_text_fuel; try lia; (split; [lia|]); apply Z.lt_trans with (2^32); (lia || exact eq_refl). }
  assert (length (text 10 n) <= 10)%nat as Hl.
  { apply num_text_length; [lia| |lia]. split; [lia|]. apply Z.lt_trans with (2^32); (lia || exact eq_refl). }
  rewrite conv_loop_ok; [|split; [lia|]; apply Z.lt_trans with (2^32); (lia || exact eq_refl)|
                          rewrite Et; lia|lia].
  rewrite Et. unfold rev. rewrite Z.add_0_l.
  rewrite <-(length_reverse (text 10 n)) at 3.
  rewrite rev_loop_ok; [|rewrite !length_app; lia]. by rewrite reverse_involutive.
Qed.

Definition put_out l r : rdline := set_r_out (r_out r ++ l) r.

Lemma put_out_out l l' r : put_out l' (put_out l r) = put_out (l ++ l') r.
Proof. unfold put_out. destruct r. simpl. by rewrite app_assoc. Qed.

Lemma rdline_write_ok l (n : nat) r :
  (n <= length l)%nat -> rdline_write l n r = Done tt (put_out (take n l) r).
Proof.
  revert l r. induction n as [|n IH]; intros l r Hn.
  - unfold put_out. simpl. rewrite app_nil_r. by destruct r.
  - destruct l as [|c l]; [simpl in Hn; lia|]. cbn [rdline_write]. unfold bind at 1.
    cbn [io_put modify obind]. rewrite IH by (simpl in Hn; lia).
    change (set_r_out (r_out r ++ [c]) r) with (put_out [c] r). by rewrite put_out_out.
Qed.

Lemma rdline_print_ok l x r :
  Forall (fun c => c <> 0) l -> rdline_print (l ++ 0 :: x) r = Done (lenz l) (put_out l r).
Proof.
  intros HF. revert r. induction HF as [|c l Hc _ IH]; intros r; cbn [app rdline_print].
  - unfold put_out. simpl. rewrite app_nil_r. by destruct r.
  - rewrite (proj2 (Z.eqb_neq _ _) Hc). unfold bind at 1. cbn [io_put modify obind].
    unfold bind. rewrite IH. cbn [obind mret'].
    change (set_r_out (r_out r ++ [c]) r) with (put_out [c] r). rewrite put_out_out.
    do 2 f_equal. rewrite length_cons. lia.
Qed.

(** The control sequence that moves the cursor by [n]. *)
Definition move_seq (n dir : Z) : list Z := if 0 <? n then 27 :: 91 :: text 10 n ++ [dir] else [].

Lemma do_move_ok n dir r :
  0 < n < 2^31 -> do_move n dir r = Done tt (put_out (27 :: 91 :: text 10 n ++ [dir]) r).
Proof.
  intros Hn. unfold do_move. rewrite u32_small by (unfold is_u32; lia).
  change move_buf with ([27; 91] ++ replicate 13 0). change 2 with (lenz [27; 91]) at 1.
  rewrite convascii_ok by (simpl; lia).
  assert (length (text 10 n) <= 10)%nat as Hl.
  { apply num_text_length; [lia| |lia]. split; [lia|]. apply Z.lt_trans with (2^31); (lia || exact eq_refl). }
  assert (exists y x', drop (length (text 10 n)) (replicate 13 0) = y :: x') as (y & x' & Ex).
  { destruct (drop _ (replicate 13 0)) as [|y x'] eqn:E; [|by eexists _, _].
    apply (f_equal length) in E. rewrite length_drop, length_replicate in E. simpl in E. lia. }
  rewrite Ex. change ([27; 91] ++ text 10 n ++ y :: x') with ((27 :: 91 :: text 10 n) ++ y :: x').
  rewrite buf_set_at by (rewrite !length_cons; lia).
  replace (Z.to_nat (2 + lenz (text 10 n) + 1)) with (length (27%Z :: 91%Z :: text 10%Z n) + 1)%nat
    by (rewrite !length_cons; lia).
  rewrite rdline_write_ok by (rewrite length_app; simpl; lia).
  do 2 f_equal. rewrite take_app_add. done.
Qed.

Lemma move_left_ok n r : n < 2^31 -> move_left n r = Done tt (put_out (move_seq n 68) r).
Proof.
  intros Hn. unfold move_left, move_seq. destruct (Z.ltb_spec 0 n); [by apply do_move_ok|].
  unfold put_out. rewrite app_nil_r. by destruct r.
Qed.
Lemma move_right_ok n r : n < 2^31 -> move_right n r = Done tt (put_out (move_seq n 67) r).
Proof.
  intros Hn. unfold move_right, move_seq. destruct (Z.ltb_spec 0 n); [by apply do_move_ok|].
  unfold put_out. rewrite app_nil_r. by destruct r.
Qed.
Lemma clear_line_ok r : clear_line r = Done tt (put_out [27; 91; 75] r).
Proof.
  unfold clear_line, bind, print_str. rewrite (rdline_print_ok [27; 91; 75] []); [done|].
  by repeat constructor.
Qed.

(** ** The buffer *)

Lemma shift_ok (fuel : nat) l p y x :
  (length l <= fuel)%nat ->
  shift_loop fuel (p ++ l ++ y :: x) (lenz p + lenz l - 1) (lenz p) =
    Some (p ++ take 1 l ++ match l with [] => y :: x | _ => l ++ x end).
Proof.
  revert l y x. induction fuel as [|fuel IH]; intros l y x Hl.
  - destruct l; [|simpl in Hl; lia]. cbn [shift_loop]. by rewrite (proj2 (Z.leb_gt _ _)) by (simpl; lia).
  - destruct l as [|z l _] using rev_ind.
    { cbn [shift_loop]. by rewrite (proj2 (Z.leb_gt _ _)) by (simpl; lia). }
    rewrite length_app in Hl. simpl in Hl. cbn [shift_loop]. rewrite lenz_app. change (lenz [z]) with 1.
    rewrite (proj2 (Z.leb_le _ _)) by lia.
    replace (p ++ (l ++ [z]) ++ y :: x) with ((p ++ l) ++ z :: y :: x) by (by rewrite <-!app_assoc).
    rewrite buf_get_at by (rewrite lenz_app; lia).
    replace ((p ++ l) ++ z :: y :: x) with ((p ++ l ++ [z]) ++ y :: x) by (by rewrite <-!app_assoc).
    rewrite buf_set_at by (rewrite !lenz_app; simpl; lia).
    replace ((p ++ l ++ [z]) ++ z :: x) with (p ++ l ++ z :: z :: x) by (by rewrite <-!app_assoc).
    replace (lenz p + (lenz l + 1) - 1 - 1) with (lenz p + lenz l - 1) by lia.
    rewrite IH by lia. f_equal. f_equal. destruct l as [|c l]; [done|]. simpl. by rewrite <-app_assoc.
Qed.

Lemma unshift_ok (fuel : nat) l p (c : Z) x :
  (length l < fuel)%nat ->
  unshift_loop fuel (p ++ c :: l ++ 0 :: x) (lenz p) (lenz p + 1 + lenz l) = Some (p ++ l ++ 0 :: 0 :: x).
Proof.
  revert l p c. induction fuel as [|fuel IH]; intros l p c Hl; [lia|]. cbn [unshift_loop].
  rewrite (proj2 (Z.ltb_lt _ _)) by lia. destruct l as [|d l].
  - change (p ++ c :: [] ++ 0 :: x) with (p ++ [c] ++ 0 :: x).
    rewrite (app_assoc p [c]), buf_get_at by (rewrite lenz_app; simpl; lia).
    rewrite <-app_assoc. cbn [app]. rewrite buf_set_mid.
    assert (lenz p + 1 + lenz ([] : list Z) = lenz (p ++ [0])) as E by (rewrite lenz_app; simpl; lia).
    rewrite E. replace (p ++ 0 :: 0 :: x) with ((p ++ [0]) ++ 0 :: x) by (by rewrite <-app_assoc).
    replace (lenz p + 1) with (lenz (p ++ [0])) by (rewrite lenz_app; simpl; lia).
    destruct fuel; cbn [unshift_loop]; rewrite (proj2 (Z.ltb_ge _ _)) by lia; by rewrite buf_set_mid.
  - change (p ++ c :: (d :: l) ++ 0 :: x) with (p ++ [c] ++ d :: l ++ 0 :: x).
    rewrite (app_assoc p [c]), buf_get_at by (rewrite lenz_app; simpl; lia).
    rewrite <-app_assoc. cbn [app]. rewrite buf_set_mid.
    replace (p ++ d :: d :: l ++ 0 :: x) with ((p ++ [d]) ++ d :: l ++ 0 :: x) by (by rewrite <-app_assoc).
    replace (lenz p + 1) with (lenz (p ++ [d])) by (rewrite lenz_app; simpl; lia).
    replace (lenz (p ++ [d]) + lenz (d :: l)) with (lenz (p ++ [d]) + 1 + lenz l)
      by (cbn [length]; lia).
    rewrite IH by (simpl in Hl; lia). by rewrite <-app_assoc.
Qed.

Lemma mset_ok (z : nat) (c : Z) p x :
  (z <= length x)%nat -> mset z (p ++ x) (lenz p) c = Some (p ++ replicate z c ++ drop z x).
Proof.
  revert p x. induction z as [|z IH]; intros p x Hz; [done|].
  destruct x as [|y x]; [simpl in Hz; lia|]. cbn [mset]. rewrite buf_set_mid.
  replace (p ++ c :: x) with ((p ++ [c]) ++ x) by (by rewrite <-app_assoc).
  replace (lenz p + 1) with (lenz (p ++ [c])) by (rewrite lenz_app; simpl; lia).
  rewrite IH by (simpl in Hz; lia). by rewrite <-app_assoc.
Qed.

Lemma ncpy_ok l x (max : Z) p d :
  Forall (fun c => c <> 0) l -> lenz p + lenz l < max -> max < 2^32 -> (length l < length d)%nat ->
  ncpy_loop (p ++ d) (l ++ 0 :: x) (lenz p) max = Some (p ++ l ++ 0 :: drop (S (length l)) d).
Proof.
  intros HF. revert p d. induction HF as [|c l Hc _ IH]; intros p d Hl Hm Hd; cbn [app ncpy_loop].
  - destruct d as [|y d]; [simpl in Hd; lia|]. simpl. by rewrite buf_set_mid.
  - rewrite (proj2 (Z.eqb_neq _ _) Hc). rewrite length_cons in Hl.
    rewrite u32_small by (unfold is_u32; lia). rewrite (proj2 (Z.ltb_lt _ _)) by lia. cbn [negb andb].
    destruct d as [|y d]; [simpl in Hd; lia|]. rewrite buf_set_mid.
    replace (p ++ c :: d) with ((p ++ [c]) ++ d) by (by rewrite <-app_assoc).
    replace (lenz p + 1) with (lenz (p ++ [c])) by (rewrite lenz_app; simpl; lia).
    rewrite IH; [by rewrite <-app_assoc|rewrite lenz_app; simpl; lia|done|simpl in Hd; lia].
Qed.

(** ** The terminal *)

Inductive tmode := TText | TEsc | TCsi (n : Z).
Record term := mkT { t_row : list Z; t_col : nat; t_mode : tmode }.

Definition term_put (t : term) (c : Z) : term :=
  match t_mode t with
  | TText =>
      if c =? 27 then mkT (t_row t) (t_col t) TEsc
      else if c =? 13 then mkT (t_row t) 0 TText
      else if c =? 10 then mkT [] (t_col t) TText
      else mkT (take (t_col t) (t_row t) ++ c :: drop (S (t_col t)) (t_row t)) (S (t_col t)) TText
  | TEsc => mkT (t_row t) (t_col t) (if c =? 91 then TCsi 0 else TText)
  | TCsi n =>
      if is_digit c then mkT (t_row t) (t_col t) (TCsi (n * 10 + (c - 48)))
      else if c =? 68 then mkT (t_row t) (t_col t - Z.to_nat n) TText
      else if c =? 67 then mkT (t_row t) (t_col t + Z.to_nat n) TText
      else if c =? 75 then mkT (take (t_col t) (t_row t)) (t_col t) TText
      else mkT (t_row t) (t_col t) TText
  end.

Definition term_run (t : term) (l : list Z) : term := foldl term_put t l.

Lemma term_run_app t l l' : term_run t (l ++ l') = term_run (term_run t l) l'.
Proof. apply foldl_app. Qed.

(** Characters that are shown. *)
Definition shown (c : Z) : Prop := 32 <= c < 128.

Lemma shown_nz l : Forall shown l -> Forall (fun c => c <> 0) l.
Proof. apply Forall_impl. unfold shown. intros. lia. Qed.

Lemma put_shown row col (c : Z) :
  shown c -> term_put (mkT row col TText) c = mkT (take col row ++ c :: drop (S col) row) (S col) TText.
Proof.
  intros Hc. unfold shown in Hc. unfold term_put. cbn [t_mode t_row t_col].
  by rewrite !(proj2 (Z.eqb_neq _ _)) by lia.
Qed.

(** Typing over what is right of the cursor. *)
Lemma run_text l p x :
  Forall shown l ->
  term_run (mkT (p ++ x) (length p) TText) l =
    mkT (p ++ l ++ drop (length l) x) (length p + length l) TText.
Proof.
  intros HF. revert p x. induction HF as [|c l Hc _ IH]; intros p x.
  - simpl. by rewrite Nat.add_0_r.
  - change (term_run ?t (c :: l)) with (term_run (term_put t c) l). rewrite put_shown by done.
    rewrite take_app_length. replace (drop (S (length p)) (p ++ x)) with (drop 1 x)
      by (rewrite <-(drop_app_add p x 1); f_equal; lia).
    replace (S (length p)) with (length (p ++ [c])) by (rewrite length_app; simpl; lia).
    replace (p ++ c :: drop 1 x) with ((p ++ [c]) ++ drop 1 x) by (by rewrite <-app_assoc).
    rewrite IH, <-!app_assoc, drop_drop, length_app. simpl. f_equal. lia.
Qed.

Lemma run_digits l row col (n : Z) :
  Forall (fun c => 48 <= c <= 57) l ->
  term_run (mkT row col (TCsi n)) l =
    mkT row col (TCsi (foldl (fun acc c => acc * 10 + digit_value c) n l)).
Proof.
  intros HF. revert n. induction HF as [|c l Hc _ IH]; intros n; [done|].
  change (term_run ?t (c :: l)) with (term_run (term_put t c) l).
  unfold term_put. cbn [t_mode t_row t_col].
  assert (is_digit c = true) as -> by (unfold is_digit; lia).
  rewrite IH. cbn [foldl]. unfold digit_value. by destruct (Z.leb_spec c 57); [|lia].
Qed.

Lemma run_move row (col : nat) (n dir : Z) :
  0 <= n < 2^31 -> dir = 68 \/ dir = 67 ->
  term_run (mkT row col TText) (move_seq n dir) =
    mkT row (if dir =? 68 then col - Z.to_nat n else col + Z.to_nat n) TText.
Proof.
  intros Hn Hd. unfold move_seq. destruct (Z.ltb_spec 0 n).
  - rewrite !app_comm_cons, term_run_app.
    change (term_run (mkT row col TText) (27 :: 91 :: text 10 n)) with
      (term_run (mkT row col (TCsi 0)) (text 10 n)).
    destruct (text10_ok n Hn) as [HF Hv]. unfold text_value in Hv.
    rewrite run_digits by done. rewrite Hv.
    change (term_run ?t [dir]) with (term_put t dir). unfold term_put. cbn [t_mode t_row t_col]. by destruct Hd as [-> | ->].
  - assert (n = 0) as -> by lia. simpl. f_equal. destruct (dir =? 68); lia.
Qed.

Lemma run_clear p x :
  term_run (mkT (p ++ x) (length p) TText) [27; 91; 75] = mkT p (length p) TText.
Proof. cbn. by rewrite take_app_length. Qed.

(** ** The line and what is shown *)

(** The text before the cursor is [b], the text from the cursor on is [a]. *)
Definition rep r (b a : list Z) : Prop :=
  (exists x, r_buf r = b ++ a ++ 0 :: x) /\ r_pos r = lenz b /\ r_len r = lenz b + lenz a /\
  Forall shown b /\ Forall shown a /\ lenz (r_buf r) = r_size r /\ r_size r < 2^31.

Definition shows (t : term) r (row : list Z) (col : nat) : Prop :=
  term_run t (r_out r) = mkT row col TText.

Definition view (t : term) (pre : list Z) r (b a : list Z) : Prop :=
  rep r b a /\ shows t r (pre ++ b ++ a) (length pre + length b).

Lemma shows_put t r row col l row' col' :
  shows t r row col -> term_run (mkT row col TText) l = mkT row' col' TText ->
  shows t (put_out l r) row' col'.
Proof. intros H1 H2. unfold shows. cbn. by rewrite term_run_app, H1. Qed.

Lemma shows_left t r row col (n : Z) :
  shows t r row col -> 0 <= n < 2^31 -> shows t (put_out (move_seq n 68) r) row (col - Z.to_nat n).
Proof. intros H Hn. eapply shows_put; [done|]. by rewrite run_move by auto. Qed.
Lemma shows_right t r row col (n : Z) :
  shows t r row col -> 0 <= n < 2^31 -> shows t (put_out (move_seq n 67) r) row (col + Z.to_nat n).
Proof. intros H Hn. eapply shows_put; [done|]. by rewrite run_move by auto. Qed.
Lemma shows_clear t r p x :
  shows t r (p ++ x) (length p) -> shows t (put_out [27; 91; 75] r) p (length p).
Proof. intros H. eapply shows_put; [done|]. apply run_clear. Qed.

(** Printing over the end of the line and moving back. *)
Lemma shows_print t r p x l :
  shows t r (p ++ x) (length p) -> (length x <= length l)%nat -> Forall shown l -> lenz l < 2^31 ->
  shows t (put_out (l ++ move_seq (lenz l) 68) r) (p ++ l) (length p).
Proof.
  intros H Hx HF Hl. eapply shows_put; [done|]. rewrite term_run_app, run_text by done.
  rewrite run_move by (auto; lia). rewrite drop_ge, app_nil_r by lia. cbn. f_equal. lia.
Qed.

Lemma print_line_ok r p l x :
  r_buf r = p ++ l ++ 0 :: x -> r_pos r = lenz p -> Forall shown l -> lenz l < 2^31 ->
  print_line r = Done (lenz l) (put_out (l ++ move_seq (lenz l) 68) r).
Proof.
  intros Hb Hp HF Hl. unfold print_line, print_str, bind.
  rewrite Hb, Hp, Nat2Z.id, drop_app_length, rdline_print_ok by (by apply shown_nz). cbn [obind].
  unfold move_seq. destruct (Z.ltb_spec 0 (lenz l)) as [H0|H0].
  - rewrite move_left_ok by done. unfold move_seq. rewrite (proj2 (Z.ltb_lt _ _)) by done.
    cbn [obind]. by rewrite put_out_out.
  - cbn. by rewrite app_nil_r.
Qed.

(** ** Keys *)

(** What the keys leave alone. *)
Definition frame r r' : Prop :=
  r_size r' = r_size r /\ r_arena r' = r_arena r /\ r_hcurr r' = r_hcurr r /\ r_hlen r' = r_hlen r.

Definition edits (t : term) (pre : list Z) (m : RM unit) r (b a : list Z) : Prop :=
  exists r', m r = Done tt r' /\ view t pre r' b a /\ r_in r' = r_in r /\ frame r r'.

(** Lengths of concatenations. *)
Ltac len_tac := repeat (rewrite !length_app || rewrite !length_cons || cbn [app]); cbn [length]; lia.

Section keys.
Context (t : term) (pre : list Z).

Lemma rep_bound r b a : rep r b a -> lenz b + lenz a + 1 <= r_size r /\ r_size r < 2^31.
Proof.
  intros ((x & Hb) & _ & _ & _ & _ & Hs & Hm). rewrite Hb, !lenz_app, length_cons in Hs. lia.
Qed.

Lemma insert_char_ok r b a y x (c : Z) :
  r_buf r = b ++ a ++ 0 :: y :: x -> r_pos r = lenz b -> r_len r = lenz b + lenz a ->
  insert_char c r = Done tt (set_r_buf (b ++ c :: a ++ 0 :: x) r).
Proof.
  intros Hb Hp Hl. unfold insert_char. rewrite Hb, Hp, Hl.
  replace (b ++ a ++ 0 :: y :: x) with (b ++ (a ++ [0]) ++ y :: x) by (by rewrite <-!app_assoc).
  replace (lenz b + lenz a) with (lenz b + lenz (a ++ [0]) - 1) by (rewrite lenz_app; simpl; lia).
  rewrite shift_ok by (rewrite !length_app; simpl; lia).
  replace (match a ++ [0] with [] => y :: x | _ => (a ++ [0]) ++ x end) with ((a ++ [0]) ++ x)
    by (by destruct a).
  assert (exists z, take 1 (a ++ [0]) = [z]) as [z ->] by (destruct a; by eexists).
  cbn [app]. rewrite buf_set_mid. by rewrite <-app_assoc.
Qed.

Lemma key_char_ok r b a (c : Z) :
  view t pre r b a -> is_u8 c ->
  edits t pre (key_char c) r (if is_printable c && (lenz b + lenz a + 1 <? r_size r) then b ++ [c] else b) a.
Proof.
  intros [HR Hsh] Hc. pose proof (rep_bound _ _ _ HR) as Hbd.
  destruct HR as ((x & Hb) & Hp & Hl & Fb & Fa & Hs & Hm). unfold edits, key_char.
  rewrite u8_small by done.
  replace (r_len r <? r_size r - 1) with (lenz b + lenz a + 1 <? r_size r) by (rewrite Hl; lia).
  rewrite andb_comm.
  destruct (is_printable c) eqn:Hpr, (Z.ltb_spec (lenz b + lenz a + 1) (r_size r)); cbn [andb].
  2-4: exists r; repeat split; try done; by eexists.
  assert (shown c) as Hsc by (unfold is_printable in Hpr; unfold shown; lia).
  destruct x as [|y x]. { exfalso. rewrite Hb, !lenz_app in Hs. simpl in Hs. lia. }
  assert (Forall shown (c :: a)) as Fca by (by constructor).
  unfold bind. rewrite (insert_char_ok r b a y x) by done. cbn [obind].
  rewrite (print_line_ok _ b (c :: a) x) by (done || cbn [length]; lia). cbn [obind].
  rewrite move_right_ok by done. cbn [obind modify].
  eexists; split; [done|].
  assert (shows t (put_out (c :: a ++ move_seq (lenz (c :: a)) 68) (set_r_buf (b ++ c :: a ++ 0 :: x) r))
            ((pre ++ b) ++ c :: a) (length (pre ++ b))) as H1.
  { apply (shows_print _ _ (pre ++ b) a (c :: a)); [|simpl; lia|done|cbn [length]; lia].
    unfold shows. cbn. rewrite length_app, <-app_assoc. done. }
  apply (shows_right _ _ _ _ 1) in H1; [|lia].
  split; [|done]. split.
  - repeat split; cbn; try done.
    + exists x. by rewrite <-!app_assoc.
    + rewrite lenz_app. simpl. lia.
    + rewrite lenz_app. simpl. lia.
    + apply Forall_app. by split; [|constructor].
    + rewrite <-Hs, Hb. len_tac.
  - unfold shows in *. rewrite !length_app in *. simpl in *.
    replace (length pre + (length b + 1))%nat with (length pre + length b + 1)%nat by lia.
    rewrite <-!app_assoc in *. done.
Qed.

Lemma remove_char_ok r b a (c : Z) x :
  r_buf r = b ++ c :: a ++ 0 :: x -> r_pos r = lenz b -> r_len r = lenz b + 1 + lenz a ->
  remove_char r = Done tt (set_r_buf (b ++ a ++ 0 :: 0 :: x) r).
Proof.
  intros Hb Hp Hl. unfold remove_char. rewrite Hb, Hp, Hl. by rewrite unshift_ok by len_tac.
Qed.

(** Removing the character at the cursor, and showing the line without it. *)
Lemma erase_ok r b a (c : Z) x :
  r_buf r = b ++ a ++ 0 :: 0 :: x -> r_pos r = lenz b -> r_len r = lenz b + 1 + lenz a ->
  Forall shown b -> Forall shown a -> lenz (r_buf r) = r_size r -> r_size r < 2^31 ->
  shows t r ((pre ++ b) ++ c :: a) (length (pre ++ b)) ->
  edits t pre (clear_line ;;; print_line ;;; modify (fun r => set_r_len (r_len r - 1) r)) r b a.
Proof.
  intros Hb Hp Hl Fb Fa Hs Hm Hsh. assert (lenz a < 2^31) as Ha by (rewrite Hb in Hs; revert Hs; len_tac).
  unfold edits, bind. rewrite clear_line_ok. cbn [obind].
  rewrite (print_line_ok _ b a (0 :: x)) by done. cbn [obind modify].
  eexists; split; [done|]. split; [|done]. apply shows_clear in Hsh.
  rewrite <-(app_nil_r (pre ++ b)) in Hsh at 1.
  apply (shows_print _ _ (pre ++ b) [] a) in Hsh; [|simpl; lia|done|done].
  split.
  - repeat split; cbn; try done; [by eexists|lia].
  - unfold shows in *. by rewrite app_assoc, <-length_app.
Qed.

Lemma edits_from (m m1 : RM unit) r r1 b a :
  edits t pre m1 r1 b a -> m r = m1 r1 -> r_in r1 = r_in r -> frame r r1 -> edits t pre m r b a.
Proof.
  intros (r' & E & HV & Hi & HF) Em Hi1 HF1. exists r'. rewrite Em. unfold frame in *.
  repeat split; try apply HV; (done || intuition congruence).
Qed.

Lemma backspace_ok r b a : view t pre r b a -> edits t pre rdline_backspace r (removelast b) a.
Proof.
  intros [HR Hsh]. pose proof (rep_bound _ _ _ HR) as Hbd.
  destruct HR as ((x & Hb) & Hp & Hl & Fb & Fa & Hs & Hm). unfold rdline_backspace.
  destruct b as [|c b _] using rev_ind.
  { unfold edits. rewrite Hp. exists r. repeat split; try done. by eexists. }
  rewrite removelast_last. rewrite Forall_app in Fb. destruct Fb as [Fb Fc].
  rewrite <-app_assoc in Hb. rewrite length_app in *. simpl in *.
  eapply edits_from.
  2: { rewrite (proj2 (Z.ltb_lt _ _)) by lia. unfold bind at 1. cbn [modify obind].
    unfold bind at 1. rewrite (remove_char_ok _ b a c x) by (done || cbn; lia). cbn [obind].
    unfold bind at 1. rewrite move_left_ok by done. by cbn [obind]. }
  2-3: done.
  apply (erase_ok _ b a c x); try done; cbn; try lia.
  - rewrite <-Hs, Hb. len_tac.
  - apply (shows_left _ _ _ _ 1) in Hsh; [|lia]. unfold shows in *. cbn in *. rewrite Hsh.
    rewrite <-!app_assoc, length_app. f_equal. lia.
Qed.

Lemma del_char_ok r b a : view t pre r b a -> edits t pre del_char r b (tail a).
Proof.
  intros [HR Hsh]. pose proof (rep_bound _ _ _ HR) as Hbd.
  destruct HR as ((x & Hb) & Hp & Hl & Fb & Fa & Hs & Hm). unfold del_char. destruct a as [|c a].
  { unfold edits. rewrite (proj2 (Z.ltb_ge _ _)) by (simpl in *; lia). exists r.
    repeat split; try done. by exists x. }
  cbn [tail length] in *. apply Forall_cons_1 in Fa as [_ Fa]. eapply edits_from.
  2: { rewrite (proj2 (Z.ltb_lt _ _)) by lia. unfold bind at 1.
    rewrite (remove_char_ok _ b a c x) by (done || lia). by cbn [obind]. }
  2-3: done.
  apply (erase_ok _ b a c x); try done; cbn; try lia.
  - rewrite <-Hs, Hb. len_tac.
  - unfold shows in *. cbn [r_out set_r_buf]. rewrite Hsh. by rewrite <-app_assoc, length_app.
Qed.

(** Moving the cursor to another place of the line. *)
Lemma rep_moved r b a b' a' :
  rep r b a -> b ++ a = b' ++ a' -> rep (set_r_pos (lenz b') r) b' a'.
Proof.
  intros ((x & Hb) & Hp & Hl & Fb & Fa & Hs & Hm) E.
  assert (Forall shown (b' ++ a')) as F by (rewrite <-E; by apply Forall_app).
  apply Forall_app in F as [Fb' Fa']. apply (f_equal length) in E as El. rewrite !length_app in El.
  repeat split; cbn; try done; [|lia]. exists x. by rewrite Hb, !app_assoc, E.
Qed.

Lemma left_ok r b a (b1 a1 : list Z) :
  view t pre r (b ++ b1) a -> a1 = b1 ++ a ->
  edits t pre (modify (set_r_pos (lenz b)) ;;; move_left (lenz b1)) r b a1.
Proof.
  intros [HR Hsh] ->. pose proof (rep_bound _ _ _ HR) as Hbd. rewrite lenz_app in Hbd.
  unfold edits, bind. cbn [modify obind]. rewrite move_left_ok by lia.
  eexists; split; [done|]. split; [|done]. split.
  - apply (rep_moved _ _ _ b (b1 ++ a)) in HR; [done|by rewrite app_assoc].
  - apply (shows_left _ _ _ _ (lenz b1)) in Hsh; [|lia]. unfold shows in *. cbn in *. rewrite Hsh.
    f_equal; [by rewrite <-!app_assoc|rewrite length_app; lia].
Qed.

Lemma right_ok r b a (a1 : list Z) :
  view t pre r b (a1 ++ a) ->
  edits t pre (modify (set_r_pos (lenz (b ++ a1))) ;;; move_right (lenz a1)) r (b ++ a1) a.
Proof.
  intros [HR Hsh]. pose proof (rep_bound _ _ _ HR) as Hbd. rewrite lenz_app in Hbd.
  unfold edits, bind. cbn [modify obind]. rewrite move_right_ok by lia.
  eexists; split; [done|]. split; [|done]. split.
  - apply (rep_moved _ _ _ (b ++ a1) a) in HR; [done|by rewrite app_assoc].
  - apply (shows_right _ _ _ _ (lenz a1)) in Hsh; [|lia]. unfold shows in *. cbn in *. rewrite Hsh.
    f_equal; [by rewrite <-!app_assoc|rewrite length_app; lia].
Qed.

Lemma key_left_ok r b a :
  view t pre r b a ->
  edits t pre key_left r (removelast b) (match b with [] => a | _ => List.last b 0 :: a end).
Proof.
  intros HV. pose proof (proj1 HV) as (_ & Hp & _). unfold key_left. destruct b as [|c b _] using rev_ind.
  { unfold edits. rewrite Hp. exists r. by repeat split; try apply HV. }
  rewrite removelast_last, last_last. rewrite lenz_app in Hp. change (lenz [c]) with 1 in Hp.
  replace (match b ++ [c] with [] => a | _ :: _ => c :: a end) with (c :: a) by (by destruct b).
  eapply edits_from; [apply (left_ok r b a [c]); done| |done|by repeat split].
  rewrite (proj2 (Z.ltb_lt _ _)) by lia. by replace (r_pos r - 1) with (lenz b) by lia.
Qed.

Lemma key_right_ok r b a :
  view t pre r b a -> edits t pre key_right r (b ++ take 1 a) (drop 1 a).
Proof.
  intros HV. pose proof (proj1 HV) as (_ & Hp & Hl & _). unfold key_right. destruct a as [|c a].
  { unfold edits. rewrite (proj2 (Z.ltb_ge _ _)) by (simpl in Hl; lia). exists r. cbn.
    rewrite app_nil_r. by repeat split; try apply HV. }
  cbn [take drop]. eapply edits_from; [apply (right_ok r b a [c]); done| |done|by repeat split].
  rewrite length_cons in Hl. rewrite (proj2 (Z.ltb_lt _ _)) by lia.
  replace (r_pos r + 1) with (lenz (b ++ [c])) by len_tac. by cbn [length].
Qed.

Lemma move_home_ok r b a : view t pre r b a -> edits t pre move_home r [] (b ++ a).
Proof.
  intros HV. pose proof (proj1 HV) as (_ & Hp & _). pose proof (rep_bound _ _ _ (proj1 HV)).
  eapply edits_from; [apply (left_ok r [] a b); done| |done|by repeat split].
  unfold move_home, bind. rewrite Hp. cbn [modify obind]. by rewrite !move_left_ok by lia.
Qed.

Lemma key_end_ok r b a : view t pre r b a -> edits t pre key_end r (b ++ a) [].
Proof.
  intros HV. pose proof (proj1 HV) as (_ & Hp & Hl & _). pose proof (rep_bound _ _ _ (proj1 HV)).
  eapply edits_from; [apply (right_ok r b [] a); by rewrite app_nil_r| |done|by repeat split].
  unfold key_end, bind. replace (r_len r - r_pos r) with (lenz a) by lia. cbn [modify obind].
  rewrite !move_right_ok by lia. by replace (lenz (b ++ a)) with (r_len r) by (rewrite lenz_app; lia).
Qed.

(** ** One character of the input *)

Lemma io_get_ok r (c : Z) l : r_in r = c :: l -> io_get r = Done c (set_r_in l r).
Proof. unfold io_get. by intros ->. Qed.

Lemma view_in r b a l : view t pre r b a -> view t pre (set_r_in l r) b a.
Proof. done. Qed.

End keys.

(** ** The abstract editor *)

(** A key takes one or more characters. *)
Inductive key :=
  | KChar (c : Z) | KBack | KDel | KLeft | KRight | KHome | KEnd | KNone
  | KStatus (st : rdline_status_t).

(** After the escape and the bracket. *)
Definition decode_arrow (l : list Z) : key * list Z :=
  match l with
  | [] => (KNone, [])
  | c :: l =>
      if c =? 66 then (KStatus RDLINE_ON_DOWN, l)
      else if c =? 65 then (KStatus RDLINE_ON_UP, l)
      else if c =? 67 then (KRight, l)
      else if c =? 68 then (KLeft, l)
      else if c =? 72 then (KHome, l)
      else if c =? 70 then (KEnd, l)
      else if c =? 51 then (KDel, tail l)
      else (KNone, l)
  end.

Definition decode (l : list Z) : key * list Z :=
  match l with
  | [] => (KStatus RDLINE_ON_EOF, [])
  | c :: l =>
      if (c =? 13) || (c =? 10) then (KStatus RDLINE_ON_ENTER, l)
      else if (c =? 8) || (c =? 127) then (KBack, l)
      else if c =? 27 then
        match l with
        | [] => (KNone, [])
        | c :: l => if c =? 91 then decode_arrow l else (KNone, l)
        end
      else if (32 <=? c) && (c <? 127) then (KChar c, l)
      else (KNone, l)
  end.

(** The text before the cursor and from it on, in a buffer of [size]. *)
Definition edit (size : Z) (k : key) (ba : list Z * list Z) : list Z * list Z :=
  let '(b, a) := ba in
  match k with
  | KChar c => if lenz b + lenz a + 1 <? size then (b ++ [c], a) else (b, a)
  | KBack => (removelast b, a)
  | KDel => (b, tail a)
  | KLeft => (removelast b, match b with [] => a | _ => List.last b 0 :: a end)
  | KRight => (b ++ take 1 a, drop 1 a)
  | KHome => ([], b ++ a)
  | KEnd => (b ++ a, [])
  | KNone | KStatus _ => (b, a)
  end.

Definition status (k : key) : option rdline_status_t :=
  match k with KStatus st => Some st | _ => None end.

(** The keys take characters off the front of the input. *)
Lemma decode_suffix l : exists p, l = p ++ (decode l).2.
Proof.
  assert (forall l l' : list Z, (exists p, l = p ++ l') -> forall c, exists p, c :: l = p ++ l') as Hc.
  { intros ? ? [p ->] c. by exists (c :: p). }
  assert (forall l : list Z, exists p, l = p ++ l) as H0 by (intros; by exists []).
  assert (forall l : list Z, exists p, l = p ++ tail l) as Ht by (intros [|c ?]; [by exists []|by exists [c]]).
  unfold decode, decode_arrow. repeat case_match; simplify_eq; cbn [snd]; auto 6.
Qed.

Lemma decode_shorter l : l <> [] -> (length (decode l).2 < length l)%nat.
Proof.
  destruct l as [|c l]; [done|]. intros _. unfold decode, decode_arrow.
  assert (forall l : list Z, length (tail l) <= length l)%nat as Ht by (intros []; simpl; lia).
  repeat (case_match; simplify_eq; simpl; try lia); match goal with |- (length (tail ?l) < _)%nat => specialize (Ht l); lia end.
Qed.

Section step.
Context (t : term) (pre : list Z).

(** [m] ends with [st], having taken the input up to [l] and left the line at
    the view [ba]. *)
Definition gives {A} (m : RM A) r (st : A) (ba : list Z * list Z) (l : list Z) : Prop :=
  exists r', m r = Done st r' /\ view t pre r' ba.1 ba.2 /\ r_in r' = l /\ frame r r'.

Lemma gives_none m r ba l :
  gives m r tt ba l -> gives (m ;;; mret' None) r (@None rdline_status_t) ba l.
Proof. intros (r' & E & ?). exists r'. unfold bind. by rewrite E. Qed.

Lemma edits_gives m r b a : edits t pre m r b a -> gives m r tt (b, a) (r_in r).
Proof. done. Qed.

Lemma gives_get {A} (m : Z -> RM A) r (c : Z) l st ba l' :
  r_in r = c :: l -> gives (m c) (set_r_in l r) st ba l' -> gives (let! c := io_get in m c) r st ba l'.
Proof. intros Hi (r' & E & ?). exists r'. unfold bind. by rewrite (io_get_ok r c l). Qed.

Lemma gives_ret {A} (st : A) r b a : view t pre r b a -> gives (mret' st) r st (b, a) (r_in r).
Proof. intros. by exists r. Qed.

Lemma gives_eof {A} (m : Z -> RM A) r st ba l :
  r_in r = [] -> gives (m (-1)) r st ba l -> gives (let! c := io_get in m c) r st ba l.
Proof. intros Hi (r' & E & ?). exists r'. unfold bind, io_get. by rewrite Hi. Qed.

Lemma key_del_ok r b a : view t pre r b a -> gives key_del r tt (b, tail a) (tail (r_in r)).
Proof.
  intros HV. unfold key_del. destruct (r_in r) as [|c l] eqn:Hi.
  - apply (gives_eof (fun _ => del_char)); [done|]. cbn. rewrite <-Hi. by apply edits_gives, del_char_ok.
  - apply (gives_get (fun _ => del_char) r c l); [done|].
    apply (edits_gives del_char (set_r_in l r)). by apply del_char_ok.
Qed.

Lemma escape_ok r b a :
  view t pre r b a ->
  let k := match r_in r with
           | [] => (KNone, [])
           | c :: l => if c =? 91 then decode_arrow l else (KNone, l)
           end in
  gives escape r (status k.1) (edit (r_size r) k.1 (b, a)) k.2.
Proof.
  intros HV. unfold escape. destruct (r_in r) as [|c l] eqn:Hi; cbn zeta.
  { apply gives_eof; [done|]. cbn. rewrite <-Hi. by apply gives_ret. }
  eapply gives_get; [done|]. destruct (c =? 91); [|by apply (gives_ret None (set_r_in l r))].
  destruct l as [|d l].
  { apply gives_eof; [done|]. by apply (gives_ret None (set_r_in [] r)). }
  eapply gives_get; [done|]. unfold decode_arrow.
  destruct (d =? 66); [by apply (gives_ret _ (set_r_in l _))|].
  destruct (d =? 65); [by apply (gives_ret _ (set_r_in l _))|].
  set (r1 := set_r_in l _). assert (view t pre r1 b a) as HV1 by done.
  change (edit (r_size r)) with (edit (r_size r1)). change l with (r_in r1).
  destruct (d =? 67); [by apply gives_none, key_right_ok|].
  destruct (d =? 68); [by apply gives_none, key_left_ok|].
  destruct (d =? 72); [by apply gives_none, move_home_ok|].
  destruct (d =? 70); [by apply gives_none, key_end_ok|].
  destruct (d =? 51); [by apply gives_none, key_del_ok|].
  by apply gives_none, gives_ret.
Qed.

Lemma input_step_ok r b a :
  view t pre r b a -> Forall is_u8 (r_in r) ->
  gives input_step r (status (decode (r_in r)).1) (edit (r_size r) (decode (r_in r)).1 (b, a)) (decode (r_in r)).2.
Proof.
  intros HV HF. unfold input_step. destruct (r_in r) as [|c l] eqn:Hi.
  { apply gives_eof; [done|]. cbn. rewrite <-Hi. by apply gives_ret. }
  apply Forall_cons_1 in HF as [Hc HF]. eapply gives_get; [done|].
  set (r1 := set_r_in l r). assert (view t pre r1 b a) as HV1 by done.
  change (edit (r_size r)) with (edit (r_size r1)). change (c :: l) with (c :: r_in r1). cbn [decode].
  rewrite (proj2 (Z.eqb_neq c (-1))) by (unfold is_u8 in Hc; lia).
  destruct ((c =? 13) || (c =? 10)) eqn:E1; [by apply gives_ret|].
  destruct ((c =? 8) || (c =? 127)) eqn:E2; [by apply gives_none, backspace_ok|].
  destruct (c =? 27) eqn:E3; [by apply escape_ok|].
  replace ((32 <=? c) && (c <? 127)) with (is_printable c) by (unfold is_printable; lia).
  pose proof (key_char_ok t pre r1 b a c HV1 Hc) as H.
  destruct (is_printable c); cbn [andb status fst snd edit] in *; apply gives_none; [|done]. by case_match.
Qed.

(** The keys up to one that ends the loop: its status, the line and the rest of
    the input. *)
Fixpoint edit_line (fuel : nat) (size : Z) (ba : list Z * list Z) (l : list Z) :
    rdline_status_t * (list Z * list Z) * list Z :=
  match fuel with
  | O => (RDLINE_ON_EOF, ba, l)
  | S fuel =>
      let k := decode l in
      match status k.1 with
      | Some st => (st, edit size k.1 ba, k.2)
      | None => edit_line fuel size (edit size k.1 ba) k.2
      end
  end.

(** The loop takes characters off the front of the input. *)
Lemma edit_line_suffix (fuel : nat) size ba l : exists p, l = p ++ (edit_line fuel size ba l).2.
Proof.
  revert ba l. induction fuel as [|fuel IH]; intros ba l; cbn [edit_line]; [by exists []|]. cbn zeta.
  destruct (decode_suffix l) as [p Hp]. destruct (status (decode l).1); cbn [snd]; [by exists p|].
  destruct (IH (edit size (decode l).1 ba) (decode l).2) as [p' Hp'].
  exists (p ++ p'). by rewrite <-app_assoc, <-Hp', <-Hp.
Qed.

Lemma edit_line_shorter (fuel : nat) size ba l :
  (edit_line fuel size ba l).1.1 <> RDLINE_ON_EOF -> (length (edit_line fuel size ba l).2 < length l)%nat.
Proof.
  revert ba l. induction fuel as [|fuel IH]; intros ba l; cbn [edit_line]; [done|]. cbn zeta.
  destruct l as [|c l]; [done|]. pose proof (decode_shorter (c :: l)) as Hd.
  specialize (Hd ltac:(done)). destruct (status _); cbn [fst snd]; [done|].
  intros H. specialize (IH _ _ H). lia.
Qed.

Lemma input_loop_ok (fuel : nat) r b a :
  view t pre r b a -> Forall is_u8 (r_in r) -> (length (r_in r) < fuel)%nat ->
  let e := edit_line fuel (r_size r) (b, a) (r_in r) in
  gives (input_loop fuel) r e.1.1 e.1.2 e.2.
Proof.
  revert r b a. induction fuel as [|fuel IH]; intros r b a HV HF Hf; [lia|].
  destruct (input_step_ok r b a HV HF) as (r1 & E & HV1 & Hi1 & HF1).
  cbn [edit_line input_loop]. cbn zeta. destruct (status (decode (r_in r)).1) as [st|] eqn:Est.
  - exists r1. unfold bind. by rewrite E.
  - assert (r_in r <> []) as Hne by (intros Hn; by rewrite Hn in Est).
    pose proof (decode_shorter _ Hne) as Hsh.
    destruct (edit (r_size r) (decode (r_in r)).1 (b, a)) as [b1 a1] eqn:Ee. cbn [fst snd] in HV1.
    rewrite <-Hi1, <-(proj1 HF1).
    destruct (IH r1 b1 a1 HV1) as (r2 & E2 & HV2 & Hi2 & HF2); [|rewrite Hi1; lia|].
    + rewrite Hi1. destruct (decode_suffix (r_in r)) as [p Hp]. rewrite Hp in HF. by apply Forall_app in HF as [_ HF].
    + exists r2. unfold bind. rewrite E. cbn [obind]. repeat split; try done; try apply HV2.
      all: unfold frame in *; intuition congruence.
Qed.
End step.
