(* ===== verification/RdHist.v ===== *)
(** * Line editor: the history and whole lines

    The entries of the history are lines too, each with its cursor.  The
    abstract editor of [RdLineOK] extended with the list of these
    ([read_spec]) describes [rdline_read()] on every input. *)
From S2P Require Import Prelude Monad Types Stream StreamOK RdLine RdLineOK.

Implicit Types (r : rdline) (p l s x : list Z).

(** An entry holds the line [ba]. *)
Definition entry (size : Z) (e : hentry) (ba : list Z * list Z) : Prop :=
  (exists x, e_line e = ba.1 ++ ba.2 ++ 0 :: x) /\ e_pos e = lenz ba.1 /\ e_len e = lenz ba.1 + lenz ba.2 /\
  Forall shown ba.1 /\ Forall shown ba.2 /\ lenz (e_line e) = size.

Lemma get_entry_ok r hs (n : nat) :
  Forall2 (entry (r_size r)) (r_arena r) hs -> (n < length hs)%nat ->
  exists e ba, get_entry r (Z.of_nat n) = Some e /\ hs !! n = Some ba /\ entry (r_size r) e ba.
Proof.
  intros HA Hn. destruct (lookup_lt_is_Some_2 hs n Hn) as [ba Hba].
  destruct (Forall2_lookup_r _ _ _ _ _ HA Hba) as (e & He & Hen).
  exists e, ba. unfold get_entry. by rewrite (proj2 (Z.leb_le _ _)), Nat2Z.id by lia.
Qed.

(** Copying a line between buffers of the same size. *)
Lemma ncpy_line p d x (max : Z) :
  Forall shown p -> lenz d = max -> lenz (p ++ 0 :: x) = max -> max < 2^31 ->
  exists y, ncpy d (p ++ 0 :: x) max = Some (p ++ 0 :: y) /\ lenz (p ++ 0 :: y) = max.
Proof.
  intros HF Hd Hx Hm. rewrite lenz_app, length_cons in Hx. eexists. split.
  - unfold ncpy. apply (ncpy_ok p x max [] d); [by apply shown_nz|simpl; lia|lia|lia].
  - rewrite lenz_app, length_cons, length_drop. lia.
Qed.

Definition sized r : Prop := lenz (r_buf r) = r_size r /\ 1 <= r_size r < 2^31.

Lemma rep_sized r b a : rep r b a -> sized r.
Proof. intros HR. pose proof (rep_bound _ _ _ HR). unfold sized. destruct HR as (_ & _ & _ & _ & _ & ? & ?). lia. Qed.

Section history.
Context (t : term) (pre : list Z).

Lemma history_get_ok r e ba :
  sized r -> get_entry r (r_hcurr r) = Some e -> entry (r_size r) e ba ->
  exists r', history_get r = Done tt r' /\ rep r' ba.1 ba.2 /\
    r_out r' = r_out r /\ r_in r' = r_in r /\ frame r r'.
Proof.
  intros [Hs Hm] Hg ((x & Hl) & Hp & Hn & Fb & Fa & Hsz).
  unfold history_get. rewrite Hg. rewrite Hl, app_assoc in Hsz |- *.
  destruct (ncpy_line (ba.1 ++ ba.2) (r_buf r) x (r_size r)) as (y & Hy & Hly);
    [by apply Forall_app|done|done|lia|].
  rewrite Hy. eexists. split; [done|]. split; [|done]. repeat split; cbn; try done.
  - exists y. by rewrite app_assoc.
  - lia.
Qed.

Lemma redraw_ok r b a row :
  rep r b a -> shows t r (pre ++ row) (length pre) -> edits t pre redraw_line r b a.
Proof.
  intros HR Hsh. pose proof (rep_bound _ _ _ HR) as Hbd.
  pose proof HR as ((x & Hb) & Hp & Hl & Fb & Fa & Hs & Hm).
  unfold edits, redraw_line, bind. rewrite clear_line_ok. cbn [obind].
  rewrite rdline_write_ok by (cbn; rewrite Hl, Hb; len_tac). cbn [obind].
  change (r_buf (put_out _ r)) with (r_buf r). change (r_len (put_out _ r)) with (r_len r).
  change (r_pos (put_out _ r)) with (r_pos r).
  rewrite move_left_ok by lia. eexists. split; [done|]. split; [|done]. split; [done|].
  replace (take (Z.to_nat (r_len r)) (r_buf r)) with (b ++ a)
    by (rewrite Hl, Hb, app_assoc, <-(take_app_length (b ++ a) (0 :: x)) at 1; f_equal; rewrite length_app; lia).
  apply shows_clear in Hsh. rewrite <-(app_nil_r pre) in Hsh at 1.
  assert (Forall shown (b ++ a)) as F by (by apply Forall_app).
  assert (shows t (put_out (b ++ a) (put_out [27; 91; 75] r)) (pre ++ b ++ a) (length pre + length (b ++ a))) as H1.
  { eapply shows_put; [done|]. rewrite run_text by done. by rewrite drop_nil, app_nil_r. }
  apply (shows_left _ _ _ _ (r_len r - r_pos r)) in H1; [|lia].
  unfold shows in *. rewrite H1. f_equal. rewrite length_app. lia.
Qed.

Lemma rdline_clear_ok r :
  sized r -> exists r', rdline_clear r = Done tt r' /\ rep r' [] [] /\
    r_out r' = r_out r /\ r_in r' = r_in r /\ frame r r'.
Proof.
  intros [Hs Hm]. unfold rdline_clear. pose proof (mset_ok (Z.to_nat (r_size r)) 0 [] (r_buf r)) as H.
  cbn [app length] in H. change (Z.of_nat 0) with 0 in H. rewrite H by lia.
  rewrite drop_ge, app_nil_r by lia. eexists. split; [done|]. split; [|done].
  repeat split; cbn; try done; [| |lia].
  - destruct (Z.to_nat (r_size r)) as [|n] eqn:E; [lia|]. by exists (replicate n 0).
  - rewrite length_replicate. lia.
Qed.

(** ** The keys of the history *)

(** The history holds [hs], of which [hlen] lines were entered, and the one
    shown is the [hcurr]th. *)
Definition hview r (hs : list (list Z * list Z)) (hlen hcurr : nat) : Prop :=
  Forall2 (entry (r_size r)) (r_arena r) hs /\ r_hlen r = Z.of_nat hlen /\ r_hcurr r = Z.of_nat hcurr /\
  (hcurr <= hlen < length hs)%nat.

Definition line_at (hs : list (list Z * list Z)) (n : nat) : list Z * list Z := default ([], []) (hs !! n).

(** [m] changes the line and the place in the history. *)
Definition recalls (m : RM unit) r hs (hlen hcurr : nat) (ba : list Z * list Z) : Prop :=
  exists r', m r = Done tt r' /\ view t pre r' ba.1 ba.2 /\ hview r' hs hlen hcurr /\
    r_in r' = r_in r /\ r_size r' = r_size r.

(** From an empty line on: the entry [n] is copied and drawn. *)
Lemma recall_ok r hs hlen hcurr (n : nat) a :
  view t pre r [] a -> hview r hs hlen hcurr -> (n <= hlen)%nat ->
  recalls (modify (set_r_hcurr (Z.of_nat n)) ;;; history_get ;;; redraw_line) r hs hlen n (line_at hs n).
Proof.
  intros [HR Hsh] (HA & Hhl & Hhc & Hh) Hn. destruct (get_entry_ok r hs n HA) as (e & ba & He & Hba & Hen); [lia|].
  unfold line_at. rewrite Hba. cbn [default]. set (r1 := set_r_hcurr (Z.of_nat n) r).
  destruct (history_get_ok r1 e ba) as (r2 & E2 & HR2 & Ho2 & Hi2 & HF2); [by apply (rep_sized r [] a)|done|done|].
  destruct (redraw_ok r2 ba.1 ba.2 a HR2) as (r3 & E3 & HV3 & Hi3 & HF3).
  { unfold shows in *. rewrite Ho2. cbn in Hsh |- *. by rewrite Nat.add_0_r in Hsh. }
  exists r3. unfold bind. cbn [modify obind]. change (set_r_hcurr (Z.of_nat n) r) with r1. rewrite E2. cbn [obind]. split; [done|]. split; [done|].
  destruct HF2 as (Hs2 & Ha2 & Hc2 & Hn2), HF3 as (Hs3 & Ha3 & Hc3 & Hn3). unfold hview.
  rewrite Hs3, Hs2, Ha3, Ha2, Hc3, Hc2, Hn3, Hn2. repeat split; try done; [lia..|]. by rewrite Hi3, Hi2.
Qed.

Lemma hview_frame r r' hs hlen hcurr : hview r hs hlen hcurr -> frame r r' -> hview r' hs hlen hcurr.
Proof. intros H (E1 & E2 & E3 & E4). unfold hview. by rewrite E1, E2, E3, E4. Qed.

Lemma recalls_from (m m1 : RM unit) r r1 hs hlen hcurr ba :
  recalls m1 r1 hs hlen hcurr ba -> m r = m1 r1 -> r_in r1 = r_in r -> frame r r1 -> recalls m r hs hlen hcurr ba.
Proof.
  intros (r' & E & HV & HH & Hi & Hs) Em Hi1 HF. exists r'. destruct HF as [Hs1 _].
  repeat split; try apply HV; try apply HH; congruence.
Qed.

Lemma on_up_ok r b a hs hlen hcurr :
  view t pre r b a -> hview r hs hlen hcurr ->
  recalls on_up r hs hlen (pred hcurr) (match hcurr with O => (b, a) | S n => line_at hs n end).
Proof.
  intros HV HH. pose proof HH as (HA & Hhl & Hhc & Hh). unfold on_up. destruct hcurr as [|n].
  { exists r. rewrite Hhc. by repeat split; try apply HV; try apply HH. }
  destruct (move_home_ok t pre r b a HV) as (r1 & E1 & HV1 & Hi1 & HF1).
  pose proof (hview_frame _ _ _ _ _ HH HF1) as HH1.
  eapply recalls_from; [apply (recall_ok r1 hs hlen (S n) n (b ++ a)); [done|done|lia]| |done|done].
  rewrite Hhc. rewrite (proj2 (Z.ltb_lt _ _)) by lia. unfold bind. rewrite E1. cbn [obind modify].
  destruct HH1 as (_ & _ & -> & _). by replace (Z.of_nat (S n) - 1) with (Z.of_nat n) by lia.
Qed.

Lemma on_down_ok r b a hs hlen hcurr :
  view t pre r b a -> hview r hs hlen hcurr ->
  recalls on_down r hs hlen (if decide (hcurr < hlen)%nat then S hcurr else hcurr)
    (if decide (hcurr < hlen)%nat then line_at hs (S hcurr) else ([], [])).
Proof.
  intros HV HH. unfold on_down.
  destruct (move_home_ok t pre r b a HV) as (r1 & E1 & HV1 & Hi1 & HF1).
  pose proof (hview_frame _ _ _ _ _ HH HF1) as HH1. pose proof HH1 as (HA & Hhl & Hhc & Hh).
  case_decide.
  - eapply recalls_from; [apply (recall_ok r1 hs hlen hcurr (S hcurr) (b ++ a)); [done|done|lia]| |done|done].
    unfold bind. rewrite E1. cbn [obind]. rewrite Hhc, Hhl, (proj2 (Z.ltb_lt _ _)) by lia. cbn [modify obind].
    rewrite Hhc. by replace (Z.of_nat hcurr + 1) with (Z.of_nat (S hcurr)) by lia.
  - destruct HV1 as [HR1 Hsh1].
    destruct (rdline_clear_ok r1) as (r2 & E2 & HR2 & Ho2 & Hi2 & HF2); [by apply (rep_sized r1 [] (b ++ a))|].
    destruct (redraw_ok r2 [] [] (b ++ a) HR2) as (r3 & E3 & HV3 & Hi3 & HF3).
    { unfold shows in *. rewrite Ho2. cbn in Hsh1 |- *. by rewrite Nat.add_0_r in Hsh1. }
    exists r3. unfold bind. rewrite E1. cbn [obind]. rewrite Hhc, Hhl, (proj2 (Z.ltb_ge _ _)) by lia.
    rewrite E2. cbn [obind]. split; [done|]. split; [done|]. split.
    + by eapply hview_frame; [eapply hview_frame|].
    + destruct HF1, HF2, HF3. split; congruence.
Qed.

(** ** The end of a line *)

(** The line is entered in the history, unless it is empty. *)
Definition entered (hs : list (list Z * list Z)) (hlen : nat) (ba : list Z * list Z) :
    list (list Z * list Z) * nat :=
  match ba.1 ++ ba.2 with [] => (hs, hlen) | _ => (<[hlen := ba]> hs, S hlen) end.

(** The history of a line that has been read. *)
Definition hdone r (h : list (list Z * list Z) * nat) : Prop :=
  Forall2 (entry (r_size r)) (r_arena r) h.1 /\ r_hlen r = Z.of_nat h.2.

Lemma history_insert_ok r b a hs hlen hcurr :
  rep r b a -> hview r hs hlen hcurr ->
  exists r', history_insert r = Done tt r' /\ rep r' b a /\ hdone r' (<[hlen := (b, a)]> hs, S hlen) /\
    r_in r' = r_in r /\ r_out r' = r_out r /\ r_size r' = r_size r.
Proof.
  intros HR (HA & Hhl & Hhc & Hh). pose proof HR as ((x & Hb) & Hp & Hl & Fb & Fa & Hs & Hm).
  destruct (get_entry_ok r hs hlen HA) as (e & ba & He & Hba & Hen); [lia|].
  unfold history_insert. rewrite Hhl, He. destruct Hen as (_ & _ & _ & _ & _ & Hsz).
  destruct (ncpy_line (b ++ a) (e_line e) x (r_size r)) as (y & Hy & Hly);
    [by apply Forall_app|done|by rewrite <-app_assoc, <-Hb|done|].
  rewrite <-!(app_assoc b a (_ :: _)) in Hy. rewrite <-app_assoc in Hly. rewrite Hb, Hy. eexists. split; [done|]. split; [|split; [|done]].
  - repeat split; cbn; try done. by exists x.
  - split; cbn; [|lia]. rewrite Nat2Z.id. apply Forall2_insert; [done|].
    repeat split; cbn; try done. by exists y.
Qed.

Lemma on_enter_ok r b a hs hlen hcurr :
  view t pre r b a -> hview r hs hlen hcurr ->
  exists r', on_enter r = Done tt r' /\ rep r' b a /\ hdone r' (entered hs hlen (b, a)) /\
    r_in r' = r_in r /\ shows t r' [] 0 /\ r_size r' = r_size r.
Proof.
  intros [HR Hsh] HH. pose proof HR as (_ & Hp & Hl & _). unfold on_enter, bind.
  rewrite (rdline_print_ok [13; 10] []) by (by repeat constructor). cbn [obind].
  set (r1 := put_out [13; 10] r).
  assert (shows t r1 [] 0) as Hsh1 by (by eapply shows_put).
  change (r_len r1) with (r_len r). rewrite Hl. unfold entered. cbn [fst snd].
  destruct (b ++ a) as [|c l] eqn:E.
  - apply app_eq_nil in E as [-> ->]. exists r1. by destruct HH as (? & ? & _).
  - apply (f_equal length) in E. rewrite length_app, length_cons in E.
    rewrite (proj2 (Z.ltb_lt _ _)) by lia.
    destruct (history_insert_ok r1 b a hs hlen hcurr HR HH) as (r2 & E2 & HR2 & HD2 & Hi2 & Ho2 & Hs2).
    exists r2. split; [done|]. split; [done|]. split; [done|]. split; [done|]. split; [|done].
    unfold shows in *. by rewrite Ho2.
Qed.

(** Whether the line was ended with the enter key, the line, the history after
    it and the rest of the input. *)
Record outcome := mkO {
  o_enter : bool; o_line : list Z * list Z; o_hist : list (list Z * list Z) * nat; o_rest : list Z }.

Fixpoint read_spec (fuel : nat) (size : Z) hs (hlen hcurr : nat) (ba : list Z * list Z) (l : list Z) : outcome :=
  match fuel with
  | O => mkO false ba (hs, hlen) l
  | S fuel =>
      let e := edit_line (S (length l)) size ba l in
      match e.1.1 with
      | RDLINE_ON_ENTER => mkO true e.1.2 (entered hs hlen e.1.2) e.2
      | RDLINE_ON_UP =>
          read_spec fuel size hs hlen (pred hcurr) (match hcurr with O => e.1.2 | S n => line_at hs n end) e.2
      | RDLINE_ON_DOWN =>
          if decide (hcurr < hlen)%nat then read_spec fuel size hs hlen (S hcurr) (line_at hs (S hcurr)) e.2
          else read_spec fuel size hs hlen hcurr ([], []) e.2
      | _ => mkO false e.1.2 (hs, hlen) e.2
      end
  end.

Definition reads (m : RM unit) r (o : outcome) : Prop :=
  exists r', m r = Done tt r' /\ rep r' (o_line o).1 (o_line o).2 /\ hdone r' (o_hist o) /\ r_in r' = o_rest o /\
    (o_enter o = true -> shows t r' [] 0) /\ r_size r' = r_size r.

Lemma reads_bind {A} (m : RM A) (f : A -> RM unit) r (v : A) r1 o :
  m r = Done v r1 -> r_size r1 = r_size r -> reads (f v) r1 o -> reads (let! x := m in f x) r o.
Proof. intros E Es (r' & E' & H). exists r'. unfold bind. rewrite E, <-Es. done. Qed.

Lemma read_loop_ok (fuel : nat) r ba hs hlen hcurr :
  view t pre r ba.1 ba.2 -> hview r hs hlen hcurr -> Forall is_u8 (r_in r) -> (length (r_in r) < fuel)%nat ->
  reads (read_loop fuel) r (read_spec fuel (r_size r) hs hlen hcurr ba (r_in r)).
Proof.
  revert r ba hcurr. induction fuel as [|fuel IH]; intros r ba hcurr HV HH HF Hf; [lia|].
  destruct (input_loop_ok t pre (S (length (r_in r))) r ba.1 ba.2 HV HF) as (r1 & E & HV1 & Hi1 & HF1); [lia|].
  cbn [read_loop read_spec]. cbn zeta.
  replace (ba.1, ba.2) with ba in * by (by destruct ba).
  pose proof (edit_line_shorter (S (length (r_in r))) (r_size r) ba (r_in r)) as Hsh.
  destruct (edit_line_suffix (S (length (r_in r))) (r_size r) ba (r_in r)) as [p Hp].
  destruct (edit_line (S (length (r_in r))) (r_size r) ba (r_in r)) as [[st [b1 a1]] l1]. cbn [fst snd] in *.
  assert (Forall is_u8 (r_in r1)) as HF'.
  { rewrite Hi1. rewrite Hp in HF. by apply Forall_app in HF as [_ HF]. }
  pose proof (hview_frame _ _ _ _ _ HH HF1) as HH1. pose proof HH1 as HH1'. destruct HF1 as [Hs1 _].
  assert (forall m hc ba', recalls m r1 hs hlen hc ba' -> (length l1 < length (r_in r))%nat ->
    reads (m ;;; read_loop fuel) r1 (read_spec fuel (r_size r) hs hlen hc ba' l1)) as Hrec.
  { intros m hc ba' (r2 & E2 & HV2 & HH2 & Hi2 & Hs2) Hlt.
    destruct (IH r2 ba' hc HV2 HH2) as (r3 & E3 & H3); [by rewrite Hi2|rewrite Hi2, Hi1; lia|].
    exists r3. unfold bind. rewrite E2. split; [done|]. rewrite Hs2, Hs1, Hi2, Hi1 in H3. by rewrite Hs1. }
  apply (reads_bind rdline_input _ r st r1); [done|done|]. destruct HH as (HA & Hhl & _), HH1' as (HA1 & Hhl1 & _). destruct st.
  - exists r1. split; [done|]. split; [apply HV1|]. done.
  - destruct (on_enter_ok r1 b1 a1 hs hlen hcurr HV1 HH1) as (r2 & E2 & HR2 & HD2 & Hi2 & Hsh2 & Hs2).
    exists r2. rewrite Hi2, Hs2. done.
  - apply Hrec; [by apply on_up_ok|by apply Hsh].
  - pose proof (on_down_ok r1 b1 a1 hs hlen hcurr HV1 HH1) as Hd.
    case_decide; (apply Hrec; [done|by apply Hsh]).
  - exists r1. split; [done|]. split; [apply HV1|]. done.
  - exists r1. split; [done|]. split; [apply HV1|]. done.
Qed.

Lemma rdline_read_ok r hs (hlen : nat) :
  sized r -> Forall2 (entry (r_size r)) (r_arena r) hs -> r_hlen r = Z.of_nat hlen -> (hlen < length hs)%nat ->
  Forall is_u8 (r_in r) -> shows t r pre (length pre) ->
  reads rdline_read r (read_spec (S (length (r_in r))) (r_size r) hs hlen hlen ([], []) (r_in r)).
Proof.
  intros HS HA Hhl Hh HF Hsh.
  destruct (rdline_clear_ok r HS) as (r1 & E1 & HR1 & Ho1 & Hi1 & HF1). set (r2 := set_r_hcurr (r_hlen r1) r1).
  destruct HF1 as (Hs1 & Ha1 & Hc1 & Hl1).
  destruct (read_loop_ok (S (length (r_in r2))) r2 ([], []) hs hlen hlen) as (r3 & E3 & H3).
  - split; [done|]. unfold shows in *. cbn. by rewrite Ho1, Nat.add_0_r, app_nil_r.
  - unfold hview. cbn. rewrite Hs1, Ha1, Hl1. by repeat split; try lia.
  - cbn. by rewrite Hi1.
  - lia.
  - exists r3. unfold rdline_read, bind. rewrite E1. cbn [obind modify]. split; [done|].
    change (r_in r2) with (r_in r1) in H3. change (r_size r2) with (r_size r1) in H3. by rewrite Hi1, Hs1 in H3.
Qed.
End history.
