(* ===== verification/RdThm.v ===== *)
(** * Line editor: properties *)
From S2P Require Import Prelude Monad Types Stream StreamOK RdLine RdLineOK RdHist.

(** A line of characters, then enter. *)
Lemma edit_line_typed (fuel : nat) size b a l rest :
  Forall (fun c => 32 <= c < 127) l -> lenz b + lenz a + lenz l < size -> (length l <= fuel)%nat ->
  edit_line (S fuel) size (b, a) (l ++ 13 :: rest) = (RDLINE_ON_ENTER, (b ++ l, a), rest).
Proof.
  intros HF. revert fuel b. induction HF as [|c l Hc _ IH]; intros fuel b Hs Hf.
  { cbn. by rewrite app_nil_r. }
  rewrite length_cons in Hs, Hf. destruct fuel as [|fuel]; [lia|].
  assert (decode ((c :: l) ++ 13 :: rest) = (KChar c, l ++ 13 :: rest)) as Hd.
  { cbn. rewrite !(proj2 (Z.eqb_neq _ _)) by lia. cbn [orb].
    by rewrite (proj2 (Z.leb_le _ _)), (proj2 (Z.ltb_lt _ _)) by lia. }
  change (edit_line (S (S fuel)) size (b, a) ((c :: l) ++ 13 :: rest)) with
    (let k := decode ((c :: l) ++ 13 :: rest) in
     match status k.1 with
     | Some st => (st, edit size k.1 (b, a), k.2)
     | None => edit_line (S fuel) size (edit size k.1 (b, a)) k.2
     end).
  rewrite Hd. cbn [fst snd status edit]. rewrite (proj2 (Z.ltb_lt _ _)) by lia.
  rewrite IH; [|rewrite length_app; simpl; lia|lia]. by rewrite <-app_assoc.
Qed.

Lemma read_spec_typed (fuel : nat) size hs (hlen hcurr : nat) l rest :
  Forall (fun c => 32 <= c < 127) l -> lenz l < size ->
  read_spec (S fuel) size hs hlen hcurr ([], []) (l ++ 13 :: rest) =
    mkO true (l, []) (entered hs hlen (l, [])) rest.
Proof.
  intros HF Hs. cbn [read_spec]. rewrite edit_line_typed; [done|done|simpl; lia|rewrite length_app; lia].
Qed.

(** What a reader of the buffer gets, as a string. *)
Definition line_of (r : rdline) : list Z := take (Z.to_nat (r_len r)) (r_buf r).

Lemma line_of_rep r b a : rep r b a -> line_of r = b ++ a.
Proof.
  intros ((x & Hb) & _ & Hl & _). unfold line_of. rewrite Hl, Hb, app_assoc.
  replace (Z.to_nat (lenz b + lenz a)) with (length (b ++ a)) by (rewrite length_app; lia).
  by rewrite take_app_length.
Qed.

(** C19: whatever is typed, [rdline_input()] returns, and the line, its length,
    the cursor and what the terminal shows after the characters sent to it
    are those of the abstract editor: the keys insert, delete and move in the
    line with the text before the cursor [b] and the text from it on [a], up to
    the key that ends the loop. *)
Theorem rdline_input_refines t pre r b a :
  view t pre r b a -> Forall is_u8 (r_in r) ->
  let e := edit_line (S (length (r_in r))) (r_size r) (b, a) (r_in r) in
  exists r', rdline_input r = Done e.1.1 r' /\ view t pre r' e.1.2.1 e.1.2.2 /\ r_in r' = e.2 /\ frame r r'.
Proof. intros HV HF. apply (input_loop_ok t pre); [done|done|lia]. Qed.

(** C22: in a history with room for two more lines, a line that is typed and
    entered is in the buffer, and is in the buffer again when the next call is
    given the up key and enter; the line is one or more printable characters,
    fewer than the size of the buffer. *)
Theorem rdline_recalls t r l hs (hlen : nat) :
  sized r -> Forall2 (entry (r_size r)) (r_arena r) hs -> r_hlen r = Z.of_nat hlen ->
  (hlen + 1 < length hs)%nat -> shows t r [] 0 ->
  l <> [] -> Forall (fun c => 32 <= c < 127) l -> lenz l < r_size r ->
  r_in r = l ++ [13; 27; 91; 65; 13] ->
  exists r1 r2, rdline_read r = Done tt r1 /\ line_of r1 = l /\ rdline_read r1 = Done tt r2 /\ line_of r2 = l.
Proof.
  intros HS HA Hhl Hh Hsh Hl HF Hsz Hi.
  assert (Forall is_u8 (r_in r)) as Hu.
  { rewrite Hi. apply Forall_app. split; [|by repeat constructor].
    eapply Forall_impl; [|exact HF]. unfold is_u8. intros z Hz. cbn beta in Hz. lia. }
  destruct (rdline_read_ok t [] r hs hlen) as (r1 & E1 & HR1 & HD1 & Hi1 & Hsh1 & Hs1); [done|done|done|lia|done|done|].
  rewrite Hi, read_spec_typed in HR1, HD1, Hi1, Hsh1 by done. cbn [o_enter o_line o_hist o_rest] in *.
  unfold entered in HD1. cbn [fst snd] in *. rewrite app_nil_r in HD1. destruct l as [|c l]; [done|].
  destruct HD1 as [HA1 Hl1]. cbn [fst snd] in *.
  destruct (rdline_read_ok t [] r1 (<[hlen := (c :: l, [])]> hs) (S hlen))
    as (r2 & E2 & HR2 & _); [by eapply rep_sized|done|done|rewrite length_insert; lia| |by apply Hsh1|].
  { rewrite Hi1. by repeat constructor. }
  rewrite Hi1 in HR2. unfold read_spec in HR2. cbn in HR2.
  unfold line_at in HR2. rewrite list_lookup_insert_eq in HR2 by lia. cbn in HR2.
  exists r1, r2. apply line_of_rep in HR1, HR2. rewrite app_nil_r in HR1, HR2. done.
Qed.

(** The end of a line: what has been sent to the terminal. *)
Lemma on_enter_out r r' : on_enter r = Done tt r' -> r_out r' = r_out r ++ [13; 10].
Proof.
  unfold on_enter, bind. cbn. destruct (0 <? r_len r).
  - unfold history_insert. destruct (get_entry _ _) as [e|]; [|done]. destruct (ncpy _ _ _); [|done].
    intros [= <-]. cbn. by rewrite <-app_assoc.
  - intros [= <-]. cbn. by rewrite <-app_assoc.
Qed.

(** A typed line is shown after what was there before the editor was called. *)
Lemma rdline_read_shows t pre r r' l rest :
  sized r -> shows t r pre (length pre) -> Forall is_u8 (r_in r) ->
  Forall (fun c => 32 <= c < 127) l -> lenz l < r_size r -> r_in r = l ++ 13 :: rest -> rdline_read r = Done tt r' ->
  exists w, r_out r' = w ++ [13; 10] /\ term_run t w = mkT (pre ++ l) (length pre + length l) TText.
Proof.
  intros HS Hsh Hu HF Hsz Hi. destruct (rdline_clear_ok r HS) as (r1 & E1 & HR1 & Ho1 & Hi1 & (Hs1 & _)).
  set (r2 := set_r_hcurr (r_hlen r1) r1).
  assert (view t pre r2 [] []) as HV by (split; [done|]; unfold shows in *; cbn; by rewrite Ho1, Nat.add_0_r, app_nil_r).
  destruct (input_loop_ok t pre (S (length (r_in r2))) r2 [] []) as (r3 & E3 & HV3 & _); [done|cbn; by rewrite Hi1|lia|].
  change (r_in r2) with (r_in r1) in E3, HV3. change (r_size r2) with (r_size r1) in E3, HV3.
  rewrite Hi1, Hs1, Hi, edit_line_typed in E3, HV3 by (cbn; done || lia || (rewrite length_app; lia)).
  unfold rdline_read, bind. rewrite E1. cbn [obind modify]. fold r2. cbn [read_loop]. unfold bind, rdline_input.
  change (r_in r2) with (r_in r1). rewrite Hi1, Hi. rewrite E3. cbn [obind fst]. intros E%on_enter_out.
  exists (r_out r3). split; [done|]. destruct HV3 as [_ Hv]. cbn [fst snd app] in Hv. by rewrite app_nil_r in Hv.
Qed.

(** ** A concrete editor: a buffer of eight characters, a history of [n] blank
    entries and a prompt on the terminal. *)
Definition blank : hentry := mkH 0 0 (replicate 8 0).
Definition demo (arena : list hentry) (inp : list Z) : rdline := rdline_init (replicate 8 0) 8 arena 0 0 inp.
Definition prompt : list Z := [62; 32].

Lemma demo_rep arena inp : rep (demo arena inp) [] [].
Proof. split; [by exists (replicate 7 0)|]. by repeat split; constructor. Qed.

(** ["ab"], left, ["c"], enter: the line is ["acb"], with the cursor on the
    last character. *)
Lemma rdline_input_refines_witness :
  exists r', rdline_input (demo [] [97; 98; 27; 91; 68; 99; 13]) = Done RDLINE_ON_ENTER r' /\
    view (mkT prompt 2 TText) prompt r' [97; 99] [98].
Proof.
  destruct (rdline_input_refines (mkT prompt 2 TText) prompt (demo [] [97; 98; 27; 91; 68; 99; 13]) [] [])
    as (r' & E & HV & _).
  - split; [apply demo_rep|]. reflexivity.
  - repeat constructor; unfold is_u8; lia.
  - exists r'. split; [exact E|exact HV].
Defined.

Lemma rdline_recalls_witness :
  exists r1 r2, rdline_read (demo [blank; blank] [104; 105; 13; 27; 91; 65; 13]) = Done tt r1 /\
    line_of r1 = [104; 105] /\ rdline_read r1 = Done tt r2 /\ line_of r2 = [104; 105].
Proof.
  apply (rdline_recalls (mkT [] 0 TText) _ [104; 105] [([], []); ([], [])] 0).
  - split; [reflexivity|]. simpl. lia.
  - repeat constructor; by exists (replicate 7 0).
  - reflexivity.
  - simpl. lia.
  - reflexivity.
  - discriminate.
  - repeat constructor; simpl; lia.
  - simpl. lia.
  - reflexivity.
Defined.

(** ** What the code does at the ends of the history *)

(** [history_insert()] does not look at [history_size]: the line entered when
    the history is full is written past the arena. *)
Theorem rdline_history_overflow :
  match rdline_read (demo [blank] [97; 13; 98; 13]) with
  | Done _ r1 => rdline_read r1 = Stuck (Fault "history_insert")
  | _ => False
  end.
Proof. vm_compute. reflexivity. Qed.

(** Down on the last line of the history loads the entry after it, which was
    never written: here its bytes say that it has 100 characters, and the line
    is redrawn past the end of the buffer. *)
Theorem rdline_down_past_end :
  match rdline_read (demo [blank; mkH 0 100 (replicate 8 0)] [97; 13; 27; 91; 65; 27; 91; 66; 13]) with
  | Done _ r1 => rdline_read r1 = Stuck (Fault "rdline_write")
  | _ => False
  end.
Proof. vm_compute. reflexivity. Qed.
