(* ===== verification/Shell.v ===== *)
(** * Command shell ([shell.c], [shell.h])

    The shell runs on any stream ([Stream.BaseSequentialStream]).  The array
    [line] is the list of its characters, and a [char *] into it is a
    position; an access outside of the array is an error.  A command gets the
    strings its argument pointers point to. *)
From S2P Require Import Prelude Monad Types Mem Threads Evt Stream.

(** The characters of a literal. *)
Definition str (s : string) : list Z := map (fun a => Z.of_nat (Ascii.nat_of_ascii a)) (list_ascii_of_string s).
Definition crlf : list Z := [13; 10].

Definition SHELL_MAX_LINE_LENGTH : Z := 64.
Definition SHELL_MAX_ARGUMENTS : Z := 4.

(** ** Strings in an array *)

Definition in_delim (delim : list Z) (c : Z) : bool := existsb (Z.eqb c) delim.

(** [strspn()] and [strpbrk()] on the string at the head of [l]; [None] when
    they run off the array.  The position [strpbrk()] finds is relative. *)
Fixpoint strspn (l delim : list Z) : option Z :=
  match l with
  | [] => None
  | c :: l => if in_delim delim c then match strspn l delim with Some n => Some (n + 1) | None => None end
              else Some 0
  end.
Fixpoint strpbrk (l delim : list Z) : option (option Z) :=
  match l with
  | [] => None
  | c :: l =>
      if c =? 0 then Some None
      else if in_delim delim c then Some (Some 0)
      else match strpbrk l delim with
           | Some (Some n) => Some (Some (n + 1))
           | o => o
           end
  end.

(** The string at the head of [l]. *)
Fixpoint cstr (l : list Z) : option (list Z) :=
  match l with
  | [] => None
  | c :: l => if c =? 0 then Some [] else match cstr l with Some s => Some (c :: s) | None => None end
  end.
Definition string_at (buf : list Z) (p : Z) : option (list Z) :=
  if 0 <=? p then cstr (drop (Z.to_nat p) buf) else None.

Definition tolower (c : Z) : Z := if (65 <=? c) && (c <=? 90) then c + 32 else c.
(** [strcasecmp(a, b) == 0] *)
Definition strcasecmp_eq (a b : list Z) : bool := bool_decide (map tolower a = map tolower b).

(** [_strtok(str, delim, saveptr)]: the array, [*saveptr] and the token. *)
Definition _strtok (line : list Z) (str : option Z) (delim : list Z) (saveptr : option Z) :
    option (list Z * option Z * option Z) :=
  let saveptr := match str with Some p => Some p | None => saveptr end in
  match saveptr with
  | None => Some (line, None, None)
  | Some token =>
      match strspn (drop (Z.to_nat token) line) delim with
      | None => None
      | Some n =>
          let token := token + n in
          match strpbrk (drop (Z.to_nat token) line) delim with
          | None => None
          | Some None =>
              match buf_get line token with
              | Some c => Some (line, None, if c =? 0 then None else Some token)
              | None => None
              end
          | Some (Some m) =>
              match buf_set line (token + m) 0 with
              | Some line =>
                  match buf_get line token with
                  | Some c => Some (line, Some (token + m + 1), if c =? 0 then None else Some token)
                  | None => None
                  end
              | None => None
              end
          end
      end
  end.

Section Shell.
Context {S : Type} `{BaseSequentialStream S}.

Record ShellCommand := mkCmd {
  sc_name : list Z;
  sc_function : Z -> list (list Z) -> M S unit
}.

(** ** Reading a line *)

Definition line_store (line : list Z) (idx c : Z) : M S (list Z) :=
  match buf_set line idx c with Some line => mret' line | None => fault "shellGetLine" end.

(** One round: the line, the index, and the result once it is known. *)
Definition getline_step (line : list Z) (size idx : Z) : M S (list Z * Z * option bool) :=
  let! rd := chSequentialStreamRead 1 in
  if rd.1 =? 0 then mret' (line, idx, Some true)
  else
    let c := default 0 (head rd.2) in
    if c =? 4 then chprintf (str "^D") [] ;;; mret' (line, idx, Some false)
    else if (c =? 8) || (c =? 127) then
      if 0 <? idx then
        chSequentialStreamPut c ;;; chSequentialStreamPut 32 ;;; chSequentialStreamPut c ;;;
        mret' (line, idx - 1, None)
      else chSequentialStreamPut 7 ;;; mret' (line, idx, None)
    else if (c =? 13) || (c =? 10) then
      chprintf crlf [] ;;;
      let! line := line_store line idx 0 in
      mret' (line, idx, Some false)
    else if 32 <=? c then
      if idx <? u32 (size - 1) then
        chSequentialStreamPut c ;;;
        let! line := line_store line idx c in
        mret' (line, idx + 1, None)
      else chSequentialStreamPut 7 ;;; mret' (line, idx, None)
    else mret' (line, idx, None).

(** [rounds] bounds the characters read. *)
Fixpoint getline_loop (rounds : nat) (line : list Z) (size idx : Z) : M S (list Z * bool) :=
  match rounds with
  | O => fun _ => Stuck Rounds
  | Datatypes.S rounds =>
      let! r := getline_step line size idx in
      match r.2 with
      | Some b => mret' (r.1.1, b)
      | None => getline_loop rounds r.1.1 size r.1.2
      end
  end.

Definition shellGetLine (rounds : nat) (line : list Z) (size : Z) : M S (list Z * bool) :=
  let! line := line_store line 0 0 in
  getline_loop rounds line size 0.

(** ** Commands *)

Definition usage (p : list Z) : M S unit := chprintf (str "Usage: %s" ++ crlf) [VStr (Some p)].

Fixpoint list_commands (scp : list ShellCommand) : M S unit :=
  match scp with
  | [] => mret' tt
  | c :: scp => chprintf (str "%s ") [VStr (Some (sc_name c))] ;;; list_commands scp
  end.

(** What the compiler puts in [__VERSION__], [__DATE__] and [__TIME__], the
    names the board and the platform files define, and the clock. *)
Context (compiler platform board date time : list Z) (timeNow : M S Z).

Definition cmd_info (argc : Z) (argv : list (list Z)) : M S unit :=
  if 0 <? argc then usage (str "info")
  else
    chprintf (str "Kernel:       %s" ++ crlf) [VStr (Some (str "2.6.0"))] ;;;
    chprintf (str "Compiler:     %s" ++ crlf) [VStr (Some (str "GCC " ++ compiler))] ;;;
    chprintf (str "Architecture: %s" ++ crlf) [VStr (Some (str "ARMv7-ME"))] ;;;
    chprintf (str "Core Variant: %s" ++ crlf) [VStr (Some (str "Cortex-M4F"))] ;;;
    chprintf (str "Port Info:    %s" ++ crlf) [VStr (Some (str "Advanced kernel mode"))] ;;;
    chprintf (str "Platform:     %s" ++ crlf) [VStr (Some platform)] ;;;
    chprintf (str "Board:        %s" ++ crlf) [VStr (Some board)] ;;;
    chprintf (str "Build time:   %s%s%s" ++ crlf)
      [VStr (Some date); VStr (Some (str " - ")); VStr (Some time)].

Definition cmd_systime (argc : Z) (argv : list (list Z)) : M S unit :=
  if 0 <? argc then usage (str "systime")
  else let! now := timeNow in chprintf (str "%lu" ++ crlf) [VWord now].

Definition local_commands : list ShellCommand :=
  [ mkCmd (str "info") cmd_info; mkCmd (str "systime") cmd_systime ].

(** Whether no command of the table has the name. *)
Fixpoint cmdexec (scp : list ShellCommand) (name : list Z) (argc : Z) (argv : list (list Z)) : M S bool :=
  match scp with
  | [] => mret' true
  | c :: scp =>
      if strcasecmp_eq (sc_name c) name then sc_function c argc argv ;;; mret' false
      else cmdexec scp name argc argv
  end.

(** ** The thread *)

Definition blanks : list Z := [32; 9].

(** The arguments of the line: the array, the command (null when there are too
    many) and the positions of the arguments. *)
Fixpoint args_loop (fuel : nat) (line : list Z) (tokp : option Z) (cmd : option Z) (args : list Z) :
    M S (list Z * option Z * list Z) :=
  match fuel with
  | O => diverge
  | Datatypes.S fuel =>
      match _strtok line None blanks tokp with
      | None => fault "_strtok"
      | Some (line, tokp, None) => mret' (line, cmd, args)
      | Some (line, tokp, Some lp) =>
          if SHELL_MAX_ARGUMENTS <=? Z.of_nat (length args) then
            chprintf (str "too many arguments" ++ crlf) [] ;;; mret' (line, None, args)
          else args_loop fuel line tokp cmd (args ++ [lp])
      end
  end.

(** Each token is at least one character long. *)
Definition split_line (line : list Z) : M S (list Z * option Z * list Z) :=
  match _strtok line (Some 0) blanks None with
  | None => fault "_strtok"
  | Some (line, tokp, cmd) => args_loop (Datatypes.S (length line)) line tokp cmd []
  end.

(** The strings that pointers point to. *)
Fixpoint strings (line : list Z) (ps : list Z) : M S (list (list Z)) :=
  match ps with
  | [] => mret' []
  | p :: ps =>
      match string_at line p with
      | Some s => let! l := strings line ps in mret' (s :: l)
      | None => fault "argv"
      end
  end.

(** Whether the command ends the shell.  [scp] is the table of the
    configuration, [None] for a null pointer. *)
Definition execute (scp : option (list ShellCommand)) (cmd : list Z) (n : Z) (args : list (list Z)) : M S bool :=
  if strcasecmp_eq cmd (str "exit") then
    if 0 <? n then usage (str "exit") ;;; mret' false else mret' true
  else if strcasecmp_eq cmd (str "help") then
    if 0 <? n then usage (str "help") ;;; mret' false
    else
      chprintf (str "Commands: help exit ") [] ;;;
      list_commands local_commands ;;;
      (match scp with Some scp => list_commands scp | None => mret' tt end) ;;;
      chprintf crlf [] ;;;
      mret' false
  else
    let! nf := cmdexec local_commands cmd n args in
    let! nf := (if nf then match scp with
                           | Some scp => cmdexec scp cmd n args
                           | None => mret' true
                           end
                else mret' false) in
    (if nf then chprintf (str "%s") [VStr (Some cmd)] ;;; chprintf (str " ?" ++ crlf) [] else mret' tt) ;;;
    mret' false.

(** What the shell does with a line: whether it ends. *)
Definition run_line (scp : option (list ShellCommand)) (line : list Z) : M S bool :=
  let! r := split_line line in
  match r.1.2 with
  | None => mret' false
  | Some cmd =>
      match string_at r.1.1 cmd with
      | None => fault "cmd"
      | Some name =>
          let! argv := strings r.1.1 r.2 in
          execute scp name (Z.of_nat (length r.2)) argv
      end
  end.

(** [rounds] bounds the lines, and the characters of each. *)
Fixpoint shell_loop (rounds : nat) (scp : option (list ShellCommand)) (line : list Z) : M S unit :=
  match rounds with
  | O => fun _ => Stuck Rounds
  | Datatypes.S rounds' =>
      chprintf (str "ch> ") [] ;;;
      let! r := shellGetLine rounds line SHELL_MAX_LINE_LENGTH in
      if r.2 then chprintf (crlf ++ str "logout") []
      else
        let! quit := run_line scp r.1 in
        if quit then mret' tt else shell_loop rounds' scp r.1
  end.

(** Up to the end of the loop. *)
Definition shell_session (rounds : nat) (scp : option (list ShellCommand)) (line : list Z) : M S unit :=
  chprintf (crlf ++ str "ChibiOS/RT Shell" ++ crlf) [] ;;;
  shell_loop rounds scp line.
End Shell.

(** ** Threads *)

Section Thread.
Context `{Config} `{App} (shell_terminated shell_thread : Z).

(** The end of [shell_thread()]: there is no unlock. *)
Definition shell_exit (msg : Z) : KM unit :=
  chSysLock ;;; chEvtBroadcastI shell_terminated ;;; chThdExitS msg.

Definition shellInit : KM unit := chEvtInit shell_terminated.
Definition shellCreate (size prio : Z) : KM tid := chThdCreateFromHeap NULL size prio shell_thread.
Definition shellCreateStatic (wsp : tid) (size prio : Z) : KM tid := chThdCreateStatic wsp size prio shell_thread.
End Thread.
