(* ===== verification/ShellOK.v ===== *)
(** * Command shell: correctness

    A line is the list of its words ([words]).  The tokenizer cuts the line
    in place: a pointer into the array stands for the word it points to
    ([at_word]).  What the shell does with a line depends on its words only
    ([run_words]). *)
From S2P Require Import Prelude Monad Types Stream StreamOK RdLineOK Shell.

Implicit Types (l w s x y : list Z).

(** ** Words *)

(** The words of [w ++ l], where [w] is the word being read. *)
Fixpoint words_from (sep : Z -> bool) w l : list (list Z) :=
  match l with
  | [] => match w with [] => [] | _ => [w] end
  | c :: l =>
      if sep c then match w with [] => words_from sep [] l | _ => w :: words_from sep [] l end
      else words_from sep (w ++ [c]) l
  end.
Definition words (sep : Z -> bool) l : list (list Z) := words_from sep [] l.

(** Blanks before a word, a word, and what is after it. *)
Inductive cut (sep : Z -> bool) : list Z -> list Z -> list Z -> list Z -> Prop :=
  | cut_end bl : Forall (fun c => sep c = true) bl -> cut sep bl bl [] []
  | cut_last bl w :
      Forall (fun c => sep c = true) bl -> Forall (fun c => sep c = false) w -> w <> [] ->
      cut sep (bl ++ w) bl w []
  | cut_word bl w d l :
      Forall (fun c => sep c = true) bl -> Forall (fun c => sep c = false) w -> w <> [] -> sep d = true ->
      cut sep (bl ++ w ++ d :: l) bl w (d :: l).

Section words.
Context (sep : Z -> bool).

Lemma words_from_app w l l' :
  Forall (fun c => sep c = false) l -> words_from sep w (l ++ l') = words_from sep (w ++ l) l'.
Proof.
  intros HF. revert w. induction HF as [|c l Hc _ IH]; intros w; [by rewrite app_nil_r|].
  cbn [app words_from]. by rewrite Hc, IH, <-app_assoc.
Qed.
Lemma words_blanks bl l : Forall (fun c => sep c = true) bl -> words sep (bl ++ l) = words sep l.
Proof. unfold words. intros HF. induction HF as [|c bl Hc _ IH]; [done|]. cbn [app words_from]. by rewrite Hc. Qed.

Lemma words_cut l bl w tl :
  cut sep l bl w tl -> words sep l = match w with [] => [] | _ => w :: words sep (tail tl) end.
Proof.
  destruct 1 as [bl Hb|bl w Hb Hw Hn|bl w d l Hb Hw Hn Hd].
  - rewrite <-(app_nil_r bl). by rewrite words_blanks.
  - rewrite words_blanks by done. unfold words. rewrite <-(app_nil_r w) at 1. rewrite words_from_app by done. by destruct w.
  - rewrite words_blanks by done. unfold words. rewrite words_from_app by done. cbn [app words_from]. rewrite Hd.
    by destruct w.
Qed.

Lemma cut_exists l : exists bl w tl, cut sep l bl w tl.
Proof.
  assert (forall l, exists w tl, l = w ++ tl /\ Forall (fun c => sep c = false) w /\
    (tl = [] \/ exists d tl', tl = d :: tl' /\ sep d = true)) as Hw.
  { clear l. induction l as [|c l (w & tl & -> & HF & Ht)]; [by exists [], []; auto|].
    destruct (sep c) eqn:E; [by exists [], (c :: w ++ tl); eauto 8|]. exists (c :: w), tl. by repeat split; [constructor|]. }
  induction l as [|c l (bl & w & tl & HC)]; [by exists [], [], []; constructor|].
  destruct (sep c) eqn:E.
  - exists (c :: bl), w, tl.
    destruct HC; rewrite ?app_comm_cons; constructor; (done || by constructor).
  - destruct (Hw l) as (w' & tl' & -> & HF & [->|(d & tl'' & -> & Hd)]).
    + exists [], (c :: w'), []. rewrite app_nil_r. apply (cut_last sep [] (c :: w')); [done|by constructor|done].
    + exists [], (c :: w'), (d :: tl''). apply (cut_word sep [] (c :: w')); [done|by constructor|done|done].
Qed.

(** Words with something between them. *)
Lemma words_join (ws : list (list Z)) (c : Z) :
  sep c = true -> Forall (fun w => w <> [] /\ Forall (fun c => sep c = false) w) ws ->
  words sep (concat (map (fun w => w ++ [c]) ws)) = ws.
Proof.
  intros Hc HF. induction HF as [|w ws [Hn Hw] _ IH]; [done|]. cbn [map concat]. rewrite <-app_assoc. cbn [app].
  rewrite (words_cut _ [] w (c :: concat (map (fun w => w ++ [c]) ws))).
  - cbn [tail]. rewrite IH. by destruct w.
  - by apply (cut_word sep [] w).
Qed.
End words.

(** ** Pointers into the line *)

Definition nonzero l : Prop := Forall (fun c => c <> 0) l.

(** At [p] in the array is the string [w]. *)
Definition at_word (buf : list Z) (p : Z) (w : list Z) : Prop :=
  exists pre y, buf = pre ++ w ++ 0 :: y /\ p = lenz pre /\ nonzero w.

Lemma at_word_app buf z p w : at_word buf p w -> at_word (buf ++ z) p w.
Proof. intros (pre & y & -> & Hp & Hw). exists pre, (y ++ z). by rewrite <-!app_assoc. Qed.

Lemma cstr_ok w y : nonzero w -> cstr (w ++ 0 :: y) = Some w.
Proof. induction 1 as [|c w Hc _ IH]; [done|]. cbn. by rewrite (proj2 (Z.eqb_neq _ _) Hc), IH. Qed.

Lemma string_at_word buf p w : at_word buf p w -> string_at buf p = Some w.
Proof.
  intros (pre & y & -> & -> & Hw). unfold string_at. rewrite (proj2 (Z.leb_le _ _)) by lia.
  rewrite Nat2Z.id, drop_app_length. by apply cstr_ok.
Qed.

Section strtok.
Context (delim : list Z) (Hd0 : in_delim delim 0 = false).
Abbreviation sep := (in_delim delim).

Lemma strspn_ok bl c y : Forall (fun c => sep c = true) bl -> sep c = false -> strspn (bl ++ c :: y) delim = Some (lenz bl).
Proof.
  intros HF Hc. induction HF as [|d bl Hd _ IH]; cbn [app strspn]; [by rewrite Hc|].
  rewrite Hd, IH, length_cons. f_equal. lia.
Qed.
Lemma strpbrk_none w y : nonzero w -> Forall (fun c => sep c = false) w -> strpbrk (w ++ 0 :: y) delim = Some None.
Proof.
  intros Hn HF. induction HF as [|d w Hd _ IH]; cbn [app strpbrk]; [done|].
  apply Forall_cons_1 in Hn as [Hd0' Hn]. by rewrite (proj2 (Z.eqb_neq _ _) Hd0'), Hd, IH.
Qed.
Lemma strpbrk_some w d y :
  nonzero w -> Forall (fun c => sep c = false) w -> sep d = true -> strpbrk (w ++ d :: y) delim = Some (Some (lenz w)).
Proof.
  intros Hn HF Hd. induction HF as [|c w Hc _ IH]; cbn [app strpbrk].
  - destruct (Z.eqb_spec d 0) as [->|_]; [congruence|]. by rewrite Hd.
  - apply Forall_cons_1 in Hn as [Hc0 Hn]. rewrite (proj2 (Z.eqb_neq _ _) Hc0), Hc, IH by done.
    rewrite length_cons. do 2 f_equal. lia.
Qed.

(** A call of the tokenizer, from the characters [l] of the line on. *)
Lemma strtok_ok str saveptr dn l x bl w tl :
  match str with Some p => Some p | None => saveptr end = Some (lenz dn) ->
  nonzero l -> cut sep l bl w tl ->
  _strtok (dn ++ l ++ 0 :: x) str delim saveptr =
    match w, tl with
    | [], _ => Some (dn ++ l ++ 0 :: x, None, None)
    | _, [] => Some (dn ++ l ++ 0 :: x, None, Some (lenz dn + lenz bl))
    | _, d :: l' => Some ((dn ++ bl ++ w ++ [0]) ++ l' ++ 0 :: x, Some (lenz (dn ++ bl ++ w ++ [0])), Some (lenz dn + lenz bl))
    end.
Proof.
  intros Hp Hn HC. unfold _strtok. rewrite Hp, Nat2Z.id, drop_app_length.
  destruct HC as [bl Hb|bl w Hb Hw Hne|bl w d l Hb Hw Hne Hd].
  - rewrite strspn_ok by done. rewrite <-lenz_app, Nat2Z.id, app_assoc, drop_app_length.
    cbn [strpbrk]. by rewrite buf_get_mid.
  - apply Forall_app in Hn as [_ Hn]. destruct w as [|c w]; [done|]. rewrite <-(app_assoc bl). cbn [app].
    rewrite strspn_ok by (done || by apply Forall_cons_1 in Hw as [? _]).
    rewrite <-lenz_app, Nat2Z.id, app_assoc, drop_app_length, buf_get_mid.
    change (c :: w ++ 0 :: x) with ((c :: w) ++ 0 :: x). rewrite strpbrk_none by done.
    apply Forall_cons_1 in Hn as [Hc _]. by rewrite (proj2 (Z.eqb_neq _ _) Hc).
  - apply Forall_app in Hn as [_ Hn]. apply Forall_app in Hn as [Hn _]. destruct w as [|c w]; [done|].
    rewrite <-!(app_assoc bl). cbn [app]. rewrite <-!(app_assoc w). cbn [app].
    rewrite strspn_ok by (done || by apply Forall_cons_1 in Hw as [? _]).
    rewrite <-lenz_app, Nat2Z.id, app_assoc, drop_app_length.
    change (c :: w ++ d :: l ++ 0 :: x) with ((c :: w) ++ d :: l ++ 0 :: x). rewrite strpbrk_some by done.
    rewrite app_assoc. rewrite buf_set_at by (rewrite !lenz_app; lia).
    rewrite <-app_assoc. cbn [app]. rewrite buf_get_mid.
    apply Forall_cons_1 in Hn as [Hc _]. rewrite (proj2 (Z.eqb_neq _ _) Hc).
    replace ((dn ++ bl) ++ c :: w ++ 0 :: l ++ 0 :: x) with ((dn ++ bl ++ c :: w ++ [0]) ++ l ++ 0 :: x)
      by (rewrite <-!app_assoc; cbn [app]; by rewrite <-app_assoc).
    by replace (lenz (dn ++ bl) + lenz (c :: w) + 1) with (lenz (dn ++ bl ++ c :: w ++ [0])) by len_tac.
Qed.
End strtok.

Lemma blanks0 : in_delim blanks 0 = false.
Proof. done. Qed.

Section run.
Context {S : Type} `{BaseSequentialStream S}.
Implicit Types (st : S).

Definition too_many : M S unit := chprintf (str "too many arguments" ++ crlf) [].

(** ** The arguments *)

Lemma at_words_app dn z args (ws : list (list Z)) :
  Forall2 (at_word dn) args ws -> Forall2 (at_word (dn ++ z)) args ws.
Proof. intros HF. eapply Forall2_impl; [|exact HF]. intros p w. apply at_word_app. Qed.

(** The outcome of the loop: the words are the arguments, or there are too
    many of them. *)
Definition args_done (o : outcome S (list Z * option Z * list Z)) (dn : list Z) (cmd : option Z)
    (ws : list (list Z)) st : Prop :=
  if (length ws <=? 4)%nat then
    exists z args, o = Done (dn ++ z, cmd, args) st /\ Forall2 (at_word (dn ++ z)) args ws
  else exists buf args, o = (too_many ;;; mret' (buf, None, args)) st.

Lemma args_done_app o dn y cmd ws st : args_done o (dn ++ y) cmd ws st -> args_done o dn cmd ws st.
Proof.
  unfold args_done. destruct (_ <=? _)%nat; [|done]. intros (z & args & E & HF).
  exists (y ++ z), args. by rewrite app_assoc.
Qed.

Lemma args_loop_ok (fuel : nat) dn l x cmd args (ws : list (list Z)) st :
  nonzero l -> (length l < fuel)%nat -> Forall2 (at_word dn) args ws -> (length ws <= 4)%nat ->
  args_done (args_loop fuel (dn ++ l ++ 0 :: x) (Some (lenz dn)) cmd args st) dn cmd (ws ++ words (in_delim blanks) l) st.
Proof.
  revert dn l args ws. induction fuel as [|fuel IH]; intros dn l args ws Hn Hf HF H4; [lia|]. cbn [args_loop].
  destruct (cut_exists (in_delim blanks) l) as (bl & w & tl & HC).
  rewrite (strtok_ok blanks blanks0 None (Some (lenz dn)) dn l x bl w tl) by done.
  pose proof (words_cut _ _ _ _ _ HC) as Hw. destruct w as [|c w].
  { rewrite Hw, app_nil_r. unfold args_done. rewrite (proj2 (Nat.leb_le _ _)) by lia.
    exists (l ++ 0 :: x), args. by split; [|apply at_words_app]. }
  assert ((SHELL_MAX_ARGUMENTS <=? lenz args) = negb (length ws <? 4)%nat) as ->.
  { rewrite (Forall2_length HF). unfold SHELL_MAX_ARGUMENTS.
    destruct (Nat.ltb_spec (length ws) 4), (Z.leb_spec 4 (lenz ws)); (done || lia). }
  rewrite Hw. inversion HC as [|? ? Hb Hw' Hne|? ? d l' Hb Hw' Hne Hd]; subst.
  - cbn [tail]. destruct (Nat.ltb_spec (length ws) 4) as [Hlt|Hge]; cbn [negb].
    + destruct fuel as [|fuel]; [rewrite length_app, length_cons in Hf; lia|]. cbn [args_loop _strtok].
      unfold args_done. change (words (in_delim blanks) []) with (@nil (list Z)).
      rewrite (proj2 (Nat.leb_le _ _)) by (rewrite length_app; simpl; lia).
      eexists _, _. split; [done|]. apply Forall2_app; [by apply at_words_app|]. constructor; [|done].
      exists (dn ++ bl), x. rewrite lenz_app. apply Forall_app in Hn as [_ Hn].
      split; [by rewrite <-!app_assoc|by split].
    + unfold args_done. rewrite (proj2 (Nat.leb_gt _ _)) by (rewrite length_app; simpl; lia). by eexists _, _.
  - cbn [tail]. destruct (Nat.ltb_spec (length ws) 4) as [Hlt|Hge]; cbn [negb].
    + set (dn' := dn ++ bl ++ (c :: w) ++ [0]).
      replace (ws ++ (c :: w) :: words (in_delim blanks) l') with ((ws ++ [c :: w]) ++ words (in_delim blanks) l')
        by (by rewrite <-app_assoc).
      apply Forall_app in Hn as [_ Hn]. apply Forall_app in Hn as [Hnw Hn]. apply Forall_cons_1 in Hn as [_ Hn].
      apply (args_done_app _ dn (bl ++ (c :: w) ++ [0])). fold dn'. apply IH; [done| | |].
      * rewrite !length_app, !length_cons in Hf. lia.
      * apply Forall2_app; [by apply at_words_app|]. constructor; [|done].
        exists (dn ++ bl), []. rewrite lenz_app. split; [|by split].
        unfold dn'. by rewrite <-app_assoc.
      * rewrite length_app. simpl. lia.
    + unfold args_done. rewrite (proj2 (Nat.leb_gt _ _)) by (rewrite length_app; simpl; lia). by eexists _, _.
Qed.

Lemma strings_ok buf ps (ws : list (list Z)) st :
  Forall2 (at_word buf) ps ws -> strings buf ps st = Done ws st.
Proof.
  induction 1 as [|p w ps ws Hp _ IH]; [done|]. cbn [strings]. rewrite (string_at_word _ _ _ Hp).
  unfold bind. by rewrite IH.
Qed.

(** ** A whole line *)

Context (compiler platform board date time : list Z) (timeNow : M S Z).
Abbreviation execute := (Shell.execute compiler platform board date time timeNow).
Abbreviation run_line := (Shell.run_line compiler platform board date time timeNow).

(** What the words of a line mean. *)
Definition run_words (scp : option (list ShellCommand)) (ws : list (list Z)) : M S bool :=
  match ws with
  | [] => mret' false
  | cmd :: args =>
      if (length args <=? 4)%nat then execute scp cmd (lenz args) args
      else too_many ;;; mret' false
  end.

Lemma run_line_ok scp l x st :
  nonzero l -> oeq (run_line scp (l ++ 0 :: x) st) (run_words scp (words (in_delim blanks) l) st).
Proof.
  intros Hn. unfold Shell.run_line, split_line. destruct (cut_exists (in_delim blanks) l) as (bl & w & tl & HC).
  pose proof (words_cut _ _ _ _ _ HC) as Hw.
  pose proof (strtok_ok blanks blanks0 (Some 0) None [] l x bl w tl eq_refl Hn HC) as Hs.
  cbn [app] in Hs. rewrite Hs. clear Hs. destruct w as [|c w]; [by rewrite Hw|]. rewrite Hw. cbn [length] in *.
  inversion HC as [|? ? Hb Hw' Hne|? ? d l' Hb Hw' Hne Hd]; subst.
  - cbn [tail]. change (words (in_delim blanks) []) with (@nil (list Z)). cbn [run_words length Nat.leb].
    cbn [args_loop _strtok]. unfold bind. cbn [mret' obind fst snd].
    rewrite (string_at_word _ _ (c :: w)); [reflexivity|].
    apply Forall_app in Hn as [_ Hn]. exists bl, x. by rewrite <-app_assoc.
  - cbn [tail]. set (dn := bl ++ (c :: w) ++ [0]).
    apply Forall_app in Hn as [_ Hn]. apply Forall_app in Hn as [Hnw Hn]. apply Forall_cons_1 in Hn as [_ Hn].
    assert (at_word dn (lenz bl) (c :: w)) as Hcmd by (by exists bl, []).
    pose proof (args_loop_ok (Datatypes.S (length (dn ++ l' ++ 0 :: x))) dn l' x (Some (lenz bl)) [] [] st Hn) as Hargs.
    unfold args_done in Hargs. cbn [app] in Hargs. cbn [run_words].
    destruct (length (words (in_delim blanks) l') <=? 4)%nat.
    + destruct Hargs as (z & args & E & HF); [rewrite !length_app; lia|done|simpl; lia|].
      unfold bind. change (Z.of_nat 0 + lenz bl) with (lenz bl). rewrite E. cbn [obind fst snd].
      rewrite (string_at_word _ _ (c :: w)) by (by apply at_word_app).
      rewrite (strings_ok _ _ _ st HF). cbn [obind]. by rewrite (Forall2_length HF).
    + destruct Hargs as (buf & args & E); [rewrite !length_app; lia|done|simpl; lia|].
      unfold bind at 1. change (Z.of_nat 0 + lenz bl) with (lenz bl). rewrite E.
      etransitivity; [apply (bind_assoc too_many (fun _ => mret' (buf, None, args)) _ st)|]. reflexivity.
Qed.
End run.

(** ** A line from a channel *)

(** A channel with the other end of which characters are exchanged in order:
    what is still to be received and what was sent, and the two operations. *)
Class Channel (S : Type) `{BaseSequentialStream S} := {
  ch_in : S -> list Z;
  ch_out : S -> list Z;
  ch_recv : S -> S;
  ch_send : Z -> S -> S;
  ch_recv_in st : ch_in (ch_recv st) = tail (ch_in st);
  ch_recv_out st : ch_out (ch_recv st) = ch_out st;
  ch_send_in c st : ch_in (ch_send c st) = ch_in st;
  ch_send_out c st : ch_out (ch_send c st) = ch_out st ++ [c];
  ch_read st : ss_read 1 st = match ch_in st with [] => Done (0, []) st | c :: _ => Done (1, [c]) (ch_recv st) end;
  ch_put c st : ss_put c st = Done RDY_OK (ch_send c st)
}.

Lemma buf_set_head (y : Z) line c : buf_set (y :: line) 0 c = Some (c :: line).
Proof. apply (buf_set_mid [] y line c). Qed.

Section getline.
Context {S : Type} `{Channel S}.
Implicit Types (st : S).

(** Sending a text. *)
Definition ch_text l st : S := foldl (fun st c => ch_send (u8 c) st) st l.

Lemma put_all_text l st : put_all l st = Done tt (ch_text l st).
Proof.
  revert st. induction l as [|c l IH]; intros st; [done|]. cbn [put_all]. unfold bind, chSequentialStreamPut.
  rewrite ch_put. cbn [obind]. apply IH.
Qed.
Lemma ch_text_in l st : ch_in (ch_text l st) = ch_in st.
Proof. revert st. induction l as [|c l IH]; intros st; [done|].
  change (ch_text (c :: l) st) with (ch_text l (ch_send (u8 c) st)). by rewrite IH, ch_send_in.
Qed.

Lemma oeq_done {A} (o : outcome S A) a st : oeq o (Done a st) -> o = Done a st.
Proof. by inversion 1. Qed.

(** A literal without directives. *)
Lemma fmt_lits l : fmt_text (map Lit l) = l.
Proof. unfold fmt_text. induction l as [|c l IH]; [done|]. cbn. by f_equal. Qed.
Lemma render_lits l : render (map Lit l) [] = Some l.
Proof. induction l as [|c l IH]; [done|]. cbn. by rewrite IH. Qed.

Lemma printf_lit l st :
  forallb (fun c => (0 <? c) && (c <? 256) && negb (c =? 37)) l = true ->
  chprintf l [] st = Done tt (ch_text l st).
Proof.
  intros HF. apply oeq_done. rewrite <-put_all_text, <-(fmt_lits l). unfold chprintf. rewrite fmt_lits.
  rewrite <-(fmt_lits l) at 2. apply printf_loop_ok; [|apply render_lits|rewrite fmt_lits; lia].
  clear st. induction l as [|c l IH]; [constructor|]. cbn [forallb map] in *.
  apply andb_true_iff in HF as [Hc HF]. constructor; [cbn; lia|auto].
Qed.

(** The text of the line after the key [c]. *)
Definition gl_key (size : Z) l (c : Z) : list Z :=
  if (c =? 8) || (c =? 127) then removelast l
  else if (32 <=? c) && (lenz l + 1 <? size) then l ++ [c]
  else l.
Definition gl_text (size : Z) (ks : list Z) : list Z := foldl (gl_key size) [] ks.

(** The characters that do not end the line. *)
Definition plain (c : Z) : Prop := is_u8 c /\ c <> 4 /\ c <> 10 /\ c <> 13.

(** The array holds the text [l]. *)
Definition holds (line : list Z) (n : nat) l : Prop :=
  exists x, line = l ++ x /\ length line = n /\ nonzero l.

Lemma getline_plain line (size : Z) l (c : Z) ks st :
  holds line (Z.to_nat size) l -> lenz l < size -> size < 2^31 -> plain c -> ch_in st = c :: ks ->
  exists line' st', getline_step line size (lenz l) st = Done (line', lenz (gl_key size l c), None) st' /\
    holds line' (Z.to_nat size) (gl_key size l c) /\ lenz (gl_key size l c) < size /\ ch_in st' = ks.
Proof.
  intros (x & -> & Hln & Hnz) Hl Hs (Hu & H4 & H10 & H13) Hi. unfold is_u8 in Hu.
  unfold getline_step, bind at 1, chSequentialStreamRead. rewrite ch_read, Hi. cbn [obind fst snd Z.eqb].
  change (default 0 (head [c])) with c. unfold gl_key.
  rewrite (proj2 (Z.eqb_neq c 4)), (proj2 (Z.eqb_neq c 13)), (proj2 (Z.eqb_neq c 10)) by done. cbn [orb].
  assert (ch_in (ch_recv st) = ks) as Hr by (by rewrite ch_recv_in, Hi).
  destruct ((c =? 8) || (c =? 127)) eqn:E8.
  - destruct l as [|d l _] using rev_ind.
    + change (lenz []) with 0. cbn [Z.ltb Z.compare]. unfold bind, chSequentialStreamPut. rewrite ch_put.
      cbn [obind mret']. eexists _, _. split; [done|]. split; [by exists x|]. by rewrite ch_send_in.
    + rewrite removelast_last. rewrite lenz_app in *. change (lenz [d]) with 1 in *.
      rewrite (proj2 (Z.ltb_lt _ _)) by lia. unfold bind, chSequentialStreamPut. rewrite ch_put. cbn [obind].
      rewrite ch_put. cbn [obind]. rewrite ch_put. cbn [obind mret'].
      apply Forall_app in Hnz as [Hnz _]. replace (lenz l + 1 - 1) with (lenz l) by lia.
      eexists _, _. split; [done|]. split; [|split; [lia|by rewrite !ch_send_in]].
      exists ([d] ++ x). by rewrite <-app_assoc in *.
  - rewrite u32_small by (unfold is_u32; lia).
    replace (lenz l <? size - 1) with (lenz l + 1 <? size) by lia.
    destruct (Z.leb_spec 32 c); cbn [andb]; [|eexists _, _; split; [done|by split; [exists x|]]].
    destruct (Z.ltb_spec (lenz l + 1) size).
    + unfold bind, chSequentialStreamPut. rewrite ch_put. cbn [obind]. unfold line_store.
      destruct x as [|y x]; [rewrite app_nil_r in Hln; lia|]. rewrite buf_set_mid. cbn [obind mret'].
      eexists _, _. rewrite lenz_app. change (lenz [c]) with 1. split; [done|].
      split; [|split; [lia|by rewrite ch_send_in]]. exists x.
      split; [by rewrite <-app_assoc|]. split; [rewrite <-Hln; len_tac|].
      apply Forall_app. split; [done|]. constructor; [lia|done].
    + unfold bind, chSequentialStreamPut. rewrite ch_put. cbn [obind mret'].
      eexists _, _. split; [done|]. split; [by exists x|]. by rewrite ch_send_in.
Qed.

(** The enter key. *)
Lemma getline_enter line (size : Z) l (c : Z) ks st :
  holds line (Z.to_nat size) l -> lenz l < size -> c = 13 \/ c = 10 -> ch_in st = c :: ks ->
  exists x st', getline_step line size (lenz l) st = Done (l ++ 0 :: x, lenz l, Some false) st' /\
    holds (l ++ 0 :: x) (Z.to_nat size) l /\ ch_in st' = ks.
Proof.
  intros (x & -> & Hln & Hnz) Hl Hc Hi.
  unfold getline_step, bind at 1, chSequentialStreamRead. rewrite ch_read, Hi. cbn [obind fst snd Z.eqb].
  change (default 0 (head [c])) with c. assert (ch_in (ch_recv st) = ks) as Hr by (by rewrite ch_recv_in, Hi).
  destruct x as [|y x]; [rewrite app_nil_r in Hln; lia|].
  assert (Done (l ++ 0 :: x, lenz l, Some false) (ch_text crlf (ch_recv st)) =
    (chprintf crlf [] ;;; let! line := line_store (l ++ y :: x) (lenz l) 0 in mret' (line, lenz l, Some false)) (ch_recv st)) as E.
  { unfold bind. rewrite printf_lit by reflexivity. cbn [obind]. unfold line_store.
    by rewrite buf_set_mid. }
  exists x, (ch_text crlf (ch_recv st)).
  split; [|split; [exists (0 :: x); split; [done|]; split; [rewrite <-Hln; len_tac|done]|by rewrite ch_text_in]].
  rewrite E. by destruct Hc as [-> | ->].
Qed.

Lemma getline_loop_ok (rounds : nat) line (size : Z) l ks (c : Z) rest st :
  holds line (Z.to_nat size) l -> lenz l < size -> size < 2^31 -> Forall plain ks -> c = 13 \/ c = 10 ->
  ch_in st = ks ++ c :: rest -> (length ks < rounds)%nat ->
  exists x st', getline_loop rounds line size (lenz l) st =
      Done (foldl (gl_key size) l ks ++ 0 :: x, false) st' /\
    holds (foldl (gl_key size) l ks ++ 0 :: x) (Z.to_nat size) (foldl (gl_key size) l ks) /\ ch_in st' = rest.
Proof.
  intros HH Hl Hs HF Hc. revert rounds line l st HH Hl.
  induction HF as [|k ks Hk _ IH]; intros rounds line l st HH Hl Hi Hr; (destruct rounds as [|rounds]; [lia|]);
    cbn [getline_loop]; unfold bind at 1.
  - destruct (getline_enter line size l c rest st HH Hl Hc Hi) as (x & st' & E & HH' & Hi').
    rewrite E. cbn. eauto 6.
  - destruct (getline_plain line size l k (ks ++ c :: rest) st HH Hl Hs Hk Hi) as (line' & st' & E & HH' & Hl' & Hi').
    rewrite E. cbn [obind fst snd foldl]. apply IH; [done|done|done|simpl in Hr; lia].
Qed.

(** The whole function. *)
Lemma shellGetLine_ok (rounds : nat) line (size : Z) ks (c : Z) rest st :
  lenz line = size -> 0 < size < 2^31 -> Forall plain ks -> c = 13 \/ c = 10 ->
  ch_in st = ks ++ c :: rest -> (length ks < rounds)%nat ->
  exists x st', shellGetLine rounds line size st = Done (gl_text size ks ++ 0 :: x, false) st' /\
    lenz (gl_text size ks ++ 0 :: x) = size /\ nonzero (gl_text size ks) /\ ch_in st' = rest.
Proof.
  intros Hln Hs HF Hc Hi Hr. unfold shellGetLine, line_store, bind.
  destruct line as [|y line]; [simpl in Hln; lia|]. rewrite buf_set_head.
  cbn [app mret' obind].
  destruct (getline_loop_ok rounds (0 :: line) size [] ks c rest st) as (x & st' & E & (z & Ez & Hz & Hnz) & Hi'); try done.
  - exists (0 :: line). split; [done|]. split; [|constructor]. rewrite length_cons in *. lia.
  - simpl. lia.
  - lia.
  - exists x, st'. split; [done|]. split; [|done]. unfold gl_text. lia.
Qed.

(** The end of the channel. *)
Lemma shellGetLine_eof (rounds : nat) line (size : Z) ks st :
  lenz line = size -> 0 < size < 2^31 -> Forall plain ks -> ch_in st = ks -> (length ks < rounds)%nat ->
  exists line' st', shellGetLine rounds line size st = Done (line', true) st' /\ lenz line' = size.
Proof.
  intros Hln Hs HF Hi Hr. unfold shellGetLine, line_store, bind.
  destruct line as [|y line]; [simpl in Hln; lia|]. rewrite buf_set_head. cbn [app mret' obind].
  assert (forall rounds line l st, holds line (Z.to_nat size) l -> lenz l < size -> ch_in st = ks ->
    (length ks < rounds)%nat ->
    exists line' st', getline_loop rounds line size (lenz l) st = Done (line', true) st' /\ lenz line' = size) as HL.
  { clear -HF Hs. induction HF as [|k ks Hk _ IH]; intros rounds line l st HH Hl Hi Hr;
      (destruct rounds as [|rounds]; [lia|]); cbn [getline_loop]; unfold bind at 1.
    - unfold getline_step, bind, chSequentialStreamRead. rewrite ch_read, Hi. cbn.
      destruct HH as (x & _ & Hx & _). eexists _, _. split; [done|]. lia.
    - destruct (getline_plain line size l k ks st HH Hl ltac:(lia) Hk Hi) as (line' & st' & E & HH' & Hl' & Hi').
      rewrite E. cbn [obind fst snd]. apply IH; [done|done|done|simpl in Hr; lia]. }
  apply (HL rounds (0 :: line) []); [|simpl; lia|done|done].
  exists (0 :: line). split; [done|]. split; [|constructor]. rewrite length_cons in *. lia.
Qed.

(** ** The session *)

Context (compiler platform board date time : list Z) (timeNow : M S Z).
Abbreviation shell_loop := (Shell.shell_loop compiler platform board date time timeNow).
Abbreviation run_words := (run_words compiler platform board date time timeNow).

Lemma shell_loop_ok (rounds : nat) scp line ks (c : Z) rest st :
  lenz line = SHELL_MAX_LINE_LENGTH -> Forall plain ks -> c = 13 \/ c = 10 ->
  ch_in st = ks ++ c :: rest -> (length ks <= rounds)%nat ->
  exists line' st',
    oeq (shell_loop (Datatypes.S rounds) scp line st)
        ((let! quit := run_words scp (words (in_delim blanks) (gl_text SHELL_MAX_LINE_LENGTH ks)) in
          if quit then mret' tt else shell_loop rounds scp line') st') /\
    lenz line' = SHELL_MAX_LINE_LENGTH /\ ch_in st' = rest.
Proof.
  intros Hln HF Hc Hi Hr. cbn [Shell.shell_loop]. unfold bind at 1.
  rewrite printf_lit by reflexivity. cbn [obind].
  destruct (shellGetLine_ok (Datatypes.S rounds) line SHELL_MAX_LINE_LENGTH ks c rest (ch_text (str "ch> ") st))
    as (x & st' & E & Hx & Hnz & Hi'); [done|done|done|done|by rewrite ch_text_in|lia|].
  exists (gl_text SHELL_MAX_LINE_LENGTH ks ++ 0 :: x), st'. split; [|done].
  unfold bind at 1. rewrite E. cbn [obind fst snd]. unfold bind.
  apply obind_proper; [by apply run_line_ok|]. intros q st1. reflexivity.
Qed.
End getline.
