(* ===== verification/NgShell.v ===== *)
(** * Shell on the line editor ([ngshell.c], [ngshell.h])

    The shell reads its lines with [rdline_read()] and cuts them in place in
    the buffer of the editor.  A [char *] into the buffer is a position.  A
    command gets the strings its arguments point to. *)
From S2P Require Import Prelude Monad Types Threads Stream RdLine Shell.

Definition NGSHELL_MAXARGV : Z := 10.

Record ngshell_cmd_t := mkNg {
  command : list Z;
  function : Z -> list (list Z) -> RM Z
}.

(** [isspace()] of the C locale. *)
Definition isspace (c : Z) : bool := (c =? 32) || ((9 <=? c) && (c <=? 13)).

(** The number of characters skipped at the head of [l]; [None] when there is
    no terminator in the array. *)
Fixpoint skipblanks (l : list Z) : option Z :=
  match l with
  | [] => None
  | c :: l =>
      if negb (c =? 0) && isspace c then match skipblanks l with Some n => Some (n + 1) | None => None end
      else Some 0
  end.
Fixpoint skiptoken (l : list Z) : option Z :=
  match l with
  | [] => None
  | c :: l =>
      if negb (c =? 0) && negb (isspace c) then match skiptoken l with Some n => Some (n + 1) | None => None end
      else Some 0
  end.

(** [argv[argc++] = token], in the array of the shell. *)
Definition push_arg (argv : list Z) (token : Z) : option (list Z) :=
  if Z.of_nat (length argv) <? NGSHELL_MAXARGV then Some (argv ++ [token]) else None.

(** The buffer and the arguments.  Each round moves [ptr] past a token. *)
Fixpoint parse_loop (fuel : nat) (buf : list Z) (ptr : Z) (argv : list Z) : option (list Z * list Z) :=
  match buf_get buf ptr with
  | None => None
  | Some c =>
      if c =? 0 then Some (buf, argv)
      else
        match fuel with
        | O => None
        | S fuel =>
            match skipblanks (drop (Z.to_nat ptr) buf) with
            | None => None
            | Some n =>
                let token := ptr + n in
                match buf_get buf token with
                | None => None
                | Some c =>
                    if negb (c =? 0) then
                      match push_arg argv token, skiptoken (drop (Z.to_nat token) buf) with
                      | Some argv, Some m =>
                          let ptr := token + m in
                          match buf_get buf ptr with
                          | None => None
                          | Some c =>
                              if negb (c =? 0) then
                                match buf_set buf ptr 0 with
                                | Some buf => parse_loop fuel buf (ptr + 1) argv
                                | None => None
                                end
                              else parse_loop fuel buf ptr argv
                          end
                      | _, _ => None
                      end
                    else Some (buf, argv)
                end
            end
        end
  end.
Definition ngshell_parse (buffer : list Z) : option (list Z * list Z) :=
  parse_loop (length buffer) buffer 0 [].

Fixpoint self_puts (s : list Z) : RM unit :=
  match s with
  | [] => mret' tt
  | c :: s => io_put c ;;; self_puts s
  end.

Definition print_cmd (name : list Z) : RM unit :=
  self_puts [62; 32] ;;; self_puts name ;;; self_puts [10].

Fixpoint print_cmds (cmds : list ngshell_cmd_t) : RM unit :=
  match cmds with
  | [] => mret' tt
  | c :: cmds => print_cmd (command c) ;;; print_cmds cmds
  end.

Section NgShell.
(** The commands of [ngshell_t]. *)
Context (commands : list ngshell_cmd_t).

Definition builtin_help (argc : Z) (argv : list (list Z)) : RM Z :=
  self_puts (str "Commands:" ++ [10]) ;;;
  print_cmd (str "help") ;;;
  print_cmds commands ;;;
  mret' 0.
Definition builtins : list ngshell_cmd_t := [ mkNg (str "help") builtin_help ].

(** The first command of the table with the name. *)
Fixpoint find_cmd (cmds : list ngshell_cmd_t) (name : list Z) : option ngshell_cmd_t :=
  match cmds with
  | [] => None
  | c :: cmds => if bool_decide (command c = name) then Some c else find_cmd cmds name
  end.

Definition ngshell_exec (name : list Z) (argc : Z) (argv : list (list Z)) : RM Z :=
  match find_cmd builtins name with
  | Some c => function c argc argv
  | None =>
      match find_cmd commands name with
      | Some c => function c argc argv
      | None =>
          self_puts (str "Command " ++ [34]) ;;;
          self_puts name ;;;
          self_puts ([34] ++ str " not found" ++ [10]) ;;;
          mret' (-1)
      end
  end.

(** What the loop of [ngshell_entry()] does with the line in the buffer. *)
Definition run_buffer : RM unit := fun r =>
  match ngshell_parse (r_buf r) with
  | None => Stuck (Fault "ngshell_parse")
  | Some (buf, argv) =>
      (modify (set_r_buf buf) ;;;
       match argv with
       | [] => mret' tt
       | p :: _ =>
           let! args := strings buf argv in
           match args with
           | name :: _ => ngshell_exec name (Z.of_nat (length argv)) args ;;; mret' tt
           | [] => mret' tt
           end
       end) r
  end.

(** One round of the loop. *)
Definition ngshell_round (promt : list Z) : RM unit :=
  self_puts promt ;;; rdline_read ;;; run_buffer.
End NgShell.

(** The thread of the shell; [ngshell_entry] is the address of its function. *)
Definition ngshell_init `{Config} (ngshell_entry : Z) (wsp : tid) (size pr : Z) : KM tid :=
  chThdCreateStatic wsp size pr ngshell_entry.
