(* ===== verification/NgShellOK.v ===== *)
(** * Shell on the line editor: correctness

    The parser leaves in the buffer, at the positions it returns, the words
    of the line ([ShellOK.words]). *)
From S2P Require Import Prelude Monad Types Stream StreamOK RdLine RdLineOK RdHist Shell ShellOK NgShell.

Implicit Types (l w x y : list Z).

Lemma skipblanks_ok bl c y :
  Forall (fun c => isspace c = true) bl -> isspace c = false -> skipblanks (bl ++ c :: y) = Some (lenz bl).
Proof.
  intros HF Hc. induction HF as [|d bl Hd _ IH]; cbn [app skipblanks].
  - by rewrite Hc, andb_false_r.
  - assert (d <> 0) as Hd0 by (intros ->; by compute in Hd).
    rewrite (proj2 (Z.eqb_neq _ _) Hd0), Hd, IH, length_cons. cbn [negb andb]. f_equal. lia.
Qed.

Lemma skiptoken_ok w c y :
  nonzero w -> Forall (fun c => isspace c = false) w -> c = 0 \/ isspace c = true ->
  skiptoken (w ++ c :: y) = Some (lenz w).
Proof.
  intros Hn HF Hc. induction HF as [|d w Hd _ IH]; cbn [app skiptoken].
  - destruct Hc as [-> | ->]; [done|]. by rewrite andb_false_r.
  - apply Forall_cons_1 in Hn as [Hd0 Hn].
    rewrite (proj2 (Z.eqb_neq _ _) Hd0), Hd, IH, length_cons by done. cbn [negb andb]. f_equal. lia.
Qed.

Lemma space_nonzero (d : Z) : isspace d = true -> d <> 0.
Proof. by intros Hd ->. Qed.

(** The positions of the words, unless there are more than the array holds. *)
Definition parsed (o : option (list Z * list Z)) (dn : list Z) (ws : list (list Z)) : Prop :=
  if (length ws <=? 10)%nat then
    exists z argv, o = Some (dn ++ z, argv) /\ Forall2 (at_word (dn ++ z)) argv ws
  else o = None.

Lemma parsed_app o dn y ws : parsed o (dn ++ y) ws -> parsed o dn ws.
Proof.
  unfold parsed. destruct (_ <=? _)%nat; [|done]. intros (z & argv & E & HF). exists (y ++ z), argv.
  by rewrite app_assoc.
Qed.

Lemma push_arg_ok dn argv (ws : list (list Z)) p :
  Forall2 (at_word dn) argv ws ->
  push_arg argv p = if (length ws <? 10)%nat then Some (argv ++ [p]) else None.
Proof.
  intros HF. unfold push_arg, NGSHELL_MAXARGV. rewrite (Forall2_length HF).
  destruct (Nat.ltb_spec (length ws) 10), (Z.ltb_spec (lenz ws) 10); (done || lia).
Qed.

Lemma parse_end (fuel : nat) dn x argv :
  parse_loop fuel (dn ++ 0 :: x) (lenz dn) argv = Some (dn ++ 0 :: x, argv).
Proof. destruct fuel; cbn [parse_loop]; by rewrite buf_get_mid. Qed.

Lemma parse_loop_ok (fuel : nat) dn l x argv (ws : list (list Z)) :
  nonzero l -> (length l <= fuel)%nat -> Forall2 (at_word dn) argv ws -> (length ws <= 10)%nat ->
  parsed (parse_loop fuel (dn ++ l ++ 0 :: x) (lenz dn) argv) dn (ws ++ words isspace l).
Proof.
  revert dn l argv ws. induction fuel as [|fuel IH]; intros dn l argv ws Hn Hf HF H10.
  { destruct l; [|simpl in Hf; lia]. cbn [app]. rewrite parse_end, app_nil_r. unfold parsed.
    rewrite (proj2 (Nat.leb_le _ _)) by lia. eexists _, _. split; [done|]. by apply at_words_app. }
  destruct (cut_exists isspace l) as (bl & w & tl & HC). pose proof (words_cut _ _ _ _ _ HC) as Hw.
  destruct l as [|c l].
  { cbn [app]. rewrite parse_end. rewrite app_nil_r. unfold parsed.
    rewrite (proj2 (Nat.leb_le _ _)) by lia. eexists _, _. split; [done|]. by apply at_words_app. }
  cbn [parse_loop]. change ((c :: l) ++ 0 :: x) with (c :: l ++ 0 :: x). rewrite buf_get_mid.
  assert (c <> 0) as Hc by (by apply Forall_cons_1 in Hn as [? _]). rewrite (proj2 (Z.eqb_neq _ _) Hc).
  rewrite Nat2Z.id, drop_app_length. change (c :: l ++ 0 :: x) with ((c :: l) ++ 0 :: x).
  generalize dependent (c :: l). clear c l Hc. intros l Hn Hf HC Hw. rewrite Hw. clear Hw.
  destruct HC as [bl Hb|bl w Hb Hw' Hne|bl w d l Hb Hw' Hne Hd].
  - rewrite skipblanks_ok by done. rewrite app_assoc, buf_get_at by (rewrite lenz_app; lia). cbn [negb Z.eqb].
    rewrite app_nil_r. unfold parsed. rewrite (proj2 (Nat.leb_le _ _)) by lia.
    rewrite <-app_assoc. eexists _, _. split; [done|]. by apply at_words_app.
  - apply Forall_app in Hn as [_ Hn]. destruct w as [|c w]; [done|].
    rewrite <-(app_assoc bl). cbn [app].
    rewrite skipblanks_ok by (done || by apply Forall_cons_1 in Hw' as [? _]).
    rewrite <-lenz_app. rewrite (app_assoc dn bl), buf_get_mid.
    assert (c <> 0) as Hc by (by apply Forall_cons_1 in Hn as [? _]). rewrite (proj2 (Z.eqb_neq _ _) Hc). cbn [negb].
    rewrite Nat2Z.id, drop_app_length. change (c :: w ++ 0 :: x) with ((c :: w) ++ 0 :: x).
    rewrite (push_arg_ok dn argv ws) by done. rewrite skiptoken_ok by auto.
    unfold parsed. rewrite length_app. cbn [tail]. change (length ((c :: w) :: words isspace [])) with 1%nat.
    change (words isspace []) with (@nil (list Z)).
    destruct (Nat.ltb_spec (length ws) 10) as [Hlt|Hge].
    + rewrite (proj2 (Nat.leb_le _ _)) by lia.
      rewrite (app_assoc (dn ++ bl) (c :: w) (0 :: x)), buf_get_at by len_tac.
      cbn [negb Z.eqb]. replace (lenz (dn ++ bl) + lenz (c :: w)) with (lenz ((dn ++ bl) ++ c :: w)) by len_tac.
      rewrite parse_end. rewrite <-!app_assoc. cbn [app]. eexists _, _. split; [done|].
      apply Forall2_app; [by apply at_words_app|]. constructor; [|done].
      exists (dn ++ bl), x. by rewrite <-!app_assoc.
    + by rewrite (proj2 (Nat.leb_gt _ _)) by lia.
  - apply Forall_app in Hn as [_ Hn]. apply Forall_app in Hn as [Hn Hn']. apply Forall_cons_1 in Hn' as [_ Hn'].
    destruct w as [|c w]; [done|]. rewrite <-!(app_assoc bl). cbn [app]. rewrite <-!(app_assoc w). cbn [app].
    rewrite skipblanks_ok by (done || by apply Forall_cons_1 in Hw' as [? _]).
    rewrite <-lenz_app. rewrite (app_assoc dn bl), buf_get_mid.
    assert (c <> 0) as Hc by (by apply Forall_cons_1 in Hn as [? _]). rewrite (proj2 (Z.eqb_neq _ _) Hc). cbn [negb].
    rewrite Nat2Z.id, drop_app_length. change (c :: w ++ d :: l ++ 0 :: x) with ((c :: w) ++ d :: l ++ 0 :: x).
    rewrite (push_arg_ok dn argv ws) by done. rewrite skiptoken_ok by auto.
    destruct (Nat.ltb_spec (length ws) 10) as [Hlt|Hge].
    + rewrite (app_assoc (dn ++ bl) (c :: w) (d :: _)), buf_get_at by len_tac.
      rewrite (proj2 (Z.eqb_neq d 0)) by (by apply space_nonzero). cbn [negb].
      rewrite buf_set_at by len_tac.
      set (dn' := dn ++ bl ++ (c :: w) ++ [0]).
      replace (((dn ++ bl) ++ c :: w) ++ 0 :: l ++ 0 :: x) with (dn' ++ l ++ 0 :: x)
        by (unfold dn'; by rewrite <-!app_assoc).
      replace (lenz (dn ++ bl) + lenz (c :: w) + 1) with (lenz dn') by (unfold dn'; len_tac).
      replace (ws ++ (c :: w) :: words isspace (tail (d :: l))) with ((ws ++ [c :: w]) ++ words isspace l)
        by (by rewrite <-app_assoc).
      apply (parsed_app _ dn (bl ++ (c :: w) ++ [0])). fold dn'. apply IH; [done| | |].
      * rewrite !length_app, !length_cons in Hf. lia.
      * apply Forall2_app; [by apply at_words_app|]. constructor; [|done].
        exists (dn ++ bl), []. split; [|done]. unfold dn'. by rewrite <-app_assoc.
      * rewrite length_app. simpl. lia.
    + unfold parsed. rewrite (proj2 (Nat.leb_gt _ _)) by (rewrite length_app; simpl; lia). done.
Qed.

Lemma ngshell_parse_ok l x :
  nonzero l -> parsed (ngshell_parse (l ++ 0 :: x)) [] (words isspace l).
Proof.
  intros Hn. apply (parse_loop_ok _ [] l x [] []); [done|rewrite length_app; lia|constructor|simpl; lia].
Qed.

Section run.
Context (commands : list ngshell_cmd_t).

(** What the words of a line mean. *)
Definition ng_run_words (ws : list (list Z)) : RM unit :=
  match ws with
  | [] => mret' tt
  | name :: _ => ngshell_exec commands name (Z.of_nat (length ws)) ws ;;; mret' tt
  end.

Lemma run_buffer_ok r l x :
  r_buf r = l ++ 0 :: x -> nonzero l -> (length (words isspace l) <= 10)%nat ->
  exists buf, run_buffer commands r = ng_run_words (words isspace l) (set_r_buf buf r).
Proof.
  intros Hb Hn H10. pose proof (ngshell_parse_ok l x Hn) as Hp. unfold parsed in Hp.
  rewrite (proj2 (Nat.leb_le _ _) H10) in Hp. destruct Hp as (buf & argv & E & HF). cbn [app] in *.
  exists buf. unfold run_buffer. rewrite Hb, E. unfold bind at 1. cbn [modify obind].
  pose proof (strings_ok buf argv (words isspace l) (set_r_buf buf r) HF) as Hs.
  destruct HF as [|p w argv ws Hp HF]; [done|]. unfold bind at 1. rewrite Hs. cbn [obind ng_run_words length].
  by rewrite (Forall2_length HF).
Qed.

Lemma self_puts_ok l r : self_puts l r = Done tt (put_out l r).
Proof.
  revert r. induction l as [|c l IH]; intros r.
  - unfold put_out. cbn. rewrite app_nil_r. by destruct r.
  - cbn [self_puts]. unfold bind. cbn [io_put modify obind]. rewrite IH.
    change (set_r_out (r_out r ++ [c]) r) with (put_out [c] r). by rewrite put_out_out.
Qed.
End run.
