(* ===== verification/ShellThm.v ===== *)
(** * Shells: properties *)
From S2P Require Import Prelude Monad Types Stream StreamOK RdLine RdLineOK RdHist RdThm Shell ShellOK NgShell NgShellOK.

(** C21: a round of the shell, on any channel: the characters received up to
    enter make the text of the line (backspace removes the last one, and those
    that would not fit in the line are refused), and what the shell does then
    is what the words of that text mean, in order: nothing without words, an
    error with more than four arguments, and otherwise the command named by the
    first word, whatever the case of its letters, with the others as arguments.
    The round reads up to enter and stays inside the line. *)
Theorem shell_runs_line {S : Type} `{Channel S} (compiler platform board date time : list Z) (timeNow : M S Z)
    (rounds : nat) scp line ks (c : Z) rest (st : S) :
  lenz line = SHELL_MAX_LINE_LENGTH -> Forall plain ks -> c = 13 \/ c = 10 ->
  ch_in st = ks ++ c :: rest -> (length ks <= rounds)%nat ->
  exists line' st',
    oeq (shell_loop compiler platform board date time timeNow (Datatypes.S rounds) scp line st)
        ((let! quit := run_words compiler platform board date time timeNow scp
                         (words (in_delim blanks) (gl_text SHELL_MAX_LINE_LENGTH ks)) in
          if quit then mret' tt
          else shell_loop compiler platform board date time timeNow rounds scp line') st') /\
    lenz line' = SHELL_MAX_LINE_LENGTH /\ ch_in st' = rest.
Proof. apply shell_loop_ok. Qed.

(** A channel made of two lists of characters. *)
Record console := mkConsole { c_in : list Z; c_out : list Z }.

#[export] Instance console_stream : BaseSequentialStream console := {|
  ss_write l := fun st => Done (lenz l) (mkConsole (c_in st) (c_out st ++ l));
  ss_read n := fun st =>
    let l := take (Z.to_nat n) (c_in st) in Done (lenz l, l) (mkConsole (drop (Z.to_nat n) (c_in st)) (c_out st));
  ss_put c := fun st => Done RDY_OK (mkConsole (c_in st) (c_out st ++ [c]));
  ss_get := fun st =>
    match c_in st with [] => Done RDY_RESET st | c :: l => Done c (mkConsole l (c_out st)) end
|}.

#[export] Instance console_channel : Channel console.
Proof.
  refine (Build_Channel console _ c_in c_out (fun st => mkConsole (tail (c_in st)) (c_out st))
            (fun c st => mkConsole (c_in st) (c_out st ++ [c])) _ _ _ _ _ _); try done.
  by intros [[|c l] out].
Defined.

(** The characters typed are an unknown command with its arguments. *)
Lemma shell_runs_line_witness :
  exists line' st',
    oeq (shell_loop [] [] [] [] [] (mret' 0) 9 None (replicate 64 0) (mkConsole (str "foo  bar" ++ [13]) []))
        ((let! quit := run_words [] [] [] [] [] (mret' 0) None [str "foo"; str "bar"] in
          if quit then mret' tt else shell_loop [] [] [] [] [] (mret' 0) 8 None line') st') /\
    lenz line' = 64 /\ ch_in st' = [].
Proof.
  apply (shell_runs_line [] [] [] [] [] (mret' 0) 8 None (replicate 64 0) (str "foo  bar") 13 []
           (mkConsole (str "foo  bar" ++ [13]) [])).
  - reflexivity.
  - change (str "foo  bar") with [102; 111; 111; 32; 32; 98; 97; 114].
    repeat constructor; unfold is_u8; lia.
  - left. reflexivity.
  - reflexivity.
  - cbn. lia.
Defined.

(** C23: a round of the shell on the line editor, with room for a line in the
    history: a line of printable characters shorter than the buffer is typed,
    and when enter is received the terminal shows the prompt and the line after
    it.  The line is then entered in the history, unless it is empty, and the
    shell does what the words of the line mean, when they are at most as many as
    its array of arguments holds. *)
Theorem ngshell_runs_line t r l rest commands promt hs (hlen : nat) :
  sized r -> Forall2 (entry (r_size r)) (r_arena r) hs -> r_hlen r = Z.of_nat hlen ->
  (hlen < length hs)%nat -> shows t r [] 0 -> Forall shown promt ->
  Forall (fun c => 32 <= c < 127) l -> lenz l < r_size r -> (length (words isspace l) <= 10)%nat ->
  Forall is_u8 rest -> r_in r = l ++ 13 :: rest ->
  exists r', ngshell_round commands promt r = ng_run_words commands (words isspace l) r' /\
    r_in r' = rest /\ hdone r' (entered hs hlen (l, [])) /\ shows t r' [] 0 /\
    exists w, r_out r' = w ++ [13; 10] /\ term_run t w = mkT (promt ++ l) (length promt + length l) TText.
Proof.
  intros HS HA Hhl Hh Hsh Hpr HF Hsz H10 Hrest Hi. unfold ngshell_round, bind.
  rewrite self_puts_ok. cbn [obind]. set (r0 := put_out promt r).
  assert (shows t r0 promt (length promt)) as Hsh0.
  { eapply shows_put; [done|]. pose proof (run_text promt [] [] Hpr) as E. cbn in E. rewrite drop_nil, app_nil_r in E. done. }
  assert (Forall is_u8 (l ++ 13 :: rest)) as Hu.
  { apply Forall_app. split; [|by constructor].
    eapply Forall_impl; [|exact HF]. unfold is_u8. intros z Hz. cbn beta in Hz. lia. }
  destruct (rdline_read_ok t promt r0 hs hlen) as (r1 & E1 & HR1 & HD1 & Hi1 & Hsh1 & Hs1);
    [done|done|done|done|by rewrite <-Hi in Hu|done|].
  assert (exists w, r_out r1 = w ++ [13; 10] /\ term_run t w = mkT (promt ++ l) (length promt + length l) TText) as Hw.
  { apply (rdline_read_shows t promt r0 r1 l rest); try done. change (r_in r0) with (r_in r). by rewrite Hi. }
  change (r_in r0) with (r_in r) in HR1, HD1, Hi1, Hsh1. change (r_size r0) with (r_size r) in HR1, HD1, Hi1, Hsh1.
  rewrite Hi, read_spec_typed in HR1, HD1, Hi1, Hsh1 by done. cbn [o_enter o_line o_hist o_rest fst snd] in *.
  rewrite E1. cbn [obind]. destruct HR1 as ((x & Hb) & _ & _ & Hsl & _). cbn [app] in Hb.
  destruct (run_buffer_ok commands r1 l x Hb) as [buf Hrun]; [by apply shown_nz|done|].
  exists (set_r_buf buf r1). split_and!; [done|done|done|by apply Hsh1|exact Hw].
Qed.

(** ["hi you"] and enter, after a prompt. *)
Lemma ngshell_runs_line_witness :
  exists r', ngshell_round [] prompt (demo [blank] [104; 105; 32; 121; 111; 13]) =
      ng_run_words [] [[104; 105]; [121; 111]] r' /\
    r_in r' = [] /\ hdone r' ([([104; 105; 32; 121; 111], [])], 1%nat) /\ shows (mkT [] 0 TText) r' [] 0 /\
    exists w, r_out r' = w ++ [13; 10] /\ term_run (mkT [] 0 TText) w = mkT [62; 32; 104; 105; 32; 121; 111] 7 TText.
Proof.
  apply (ngshell_runs_line (mkT [] 0 TText) _ [104; 105; 32; 121; 111] [] [] prompt [([], [])] 0).
  - split; [reflexivity|]. simpl. lia.
  - repeat constructor; by exists (replicate 7 0).
  - reflexivity.
  - simpl. lia.
  - reflexivity.
  - repeat constructor; simpl; lia.
  - repeat constructor; simpl; lia.
  - simpl. lia.
  - vm_compute. lia.
  - constructor.
  - reflexivity.
Defined.

(** ** Where the code does not do what it means to *)

(** More words than [argvbuf] holds are written past its end. *)
Theorem ngshell_argv_overflow l x :
  nonzero l -> (10 < length (words isspace l))%nat -> ngshell_parse (l ++ 0 :: x) = None.
Proof.
  intros Hn H10. pose proof (ngshell_parse_ok l x Hn) as Hp. unfold parsed in Hp.
  by rewrite (proj2 (Nat.leb_gt _ _) H10) in Hp.
Qed.

(** Control-D makes [shellGetLine()] return FALSE, with the line not
    terminated: here the rest of the array is what it was before. *)
Theorem shell_ctrl_d :
  shellGetLine 9 (replicate 8 122) 8 (mkConsole [97; 98; 4] []) =
    Done ([97; 98; 122; 122; 122; 122; 122; 122], false) (mkConsole [] [97; 98; 94; 68]).
Proof. vm_compute. reflexivity. Qed.
