(* ===== verification/USBTypes.v ===== *)
(** * USB driver: data and state ([os/hal/include/usb.h],
    [os/hal/platforms/STM32/OTGv1/usb_lld.h])

    The structures of the USB driver model and the world its functions run in:
    the kernel state, the [USBDriver] object, the endpoint state structures,
    the setup packet buffers and the registers of the OTG peripheral.  A
    callback is designated by the function the driver installs itself or by
    the address the application stored; the application's functions are the
    class [UsbApp]. *)
From S2P Require Import Prelude Monad Types.

(** ** Constants *)

Definition USB_RTYPE_DIR_MASK : Z := 0x80.
Definition USB_RTYPE_DIR_DEV2HOST : Z := 0x80.
Definition USB_RTYPE_TYPE_MASK : Z := 0x60.
Definition USB_RTYPE_TYPE_STD : Z := 0x00.
Definition USB_RTYPE_RECIPIENT_MASK : Z := 0x1F.
Definition USB_RTYPE_RECIPIENT_DEVICE : Z := 0x00.
Definition USB_RTYPE_RECIPIENT_INTERFACE : Z := 0x01.
Definition USB_RTYPE_RECIPIENT_ENDPOINT : Z := 0x02.

Definition USB_REQ_GET_STATUS : Z := 0.
Definition USB_REQ_CLEAR_FEATURE : Z := 1.
Definition USB_REQ_SET_FEATURE : Z := 3.
Definition USB_REQ_SET_ADDRESS : Z := 5.
Definition USB_REQ_GET_DESCRIPTOR : Z := 6.
Definition USB_REQ_SET_DESCRIPTOR : Z := 7.
Definition USB_REQ_GET_CONFIGURATION : Z := 8.
Definition USB_REQ_SET_CONFIGURATION : Z := 9.
Definition USB_REQ_SYNCH_FRAME : Z := 12.

Definition USB_FEATURE_ENDPOINT_HALT : Z := 0.
Definition USB_FEATURE_DEVICE_REMOTE_WAKEUP : Z := 1.

Definition USB_MAX_ENDPOINTS : Z := 3.

Definition USB_EP_MODE_TYPE : Z := 0x0003.
Definition USB_EP_MODE_TYPE_CTRL : Z := 0x0000.
Definition USB_EP_MODE_TYPE_ISOC : Z := 0x0001.
Definition USB_EP_MODE_TYPE_BULK : Z := 0x0002.
Definition USB_EP_MODE_TYPE_INTR : Z := 0x0003.

(** ** Enumerations *)

Inductive usbstate_t := USB_UNINIT | USB_STOP | USB_READY | USB_SELECTED | USB_ACTIVE.
Inductive usbepstatus_t := EP_STATUS_DISABLED | EP_STATUS_STALLED | EP_STATUS_ACTIVE.

Inductive usbep0state_t :=
  | USB_EP0_WAITING_SETUP
  | USB_EP0_TX
  | USB_EP0_WAITING_TX0
  | USB_EP0_WAITING_STS
  | USB_EP0_RX
  | USB_EP0_SENDING_STS
  | USB_EP0_ERROR.

Inductive usbevent_t :=
  | USB_EVENT_RESET | USB_EVENT_ADDRESS | USB_EVENT_CONFIGURED
  | USB_EVENT_SUSPEND | USB_EVENT_WAKEUP | USB_EVENT_STALLED.

#[export] Instance usbstate_eq_dec : EqDecision usbstate_t.
Proof. solve_decision. Defined.
#[export] Instance usbep0state_eq_dec : EqDecision usbep0state_t.
Proof. solve_decision. Defined.

(** ** Buffers and callbacks

    What a data pointer of the driver can designate: two fields of the driver
    itself, a constant array, or a buffer of the application. *)

Inductive usbbuf :=
  | UB_null
  | UB_status
  | UB_configuration
  | UB_const (bytes : list Z)
  | UB_user (addr : Z).

Inductive usbcallback_t := CB_set_address | CB_user (fn : Z).
Inductive usbepcallback_t := ECB_ep0setup | ECB_ep0in | ECB_ep0out | ECB_user (fn : Z).

Record USBDescriptor := mkUD { ud_size : Z; ud_string : list Z }.

Record USBConfig := mkUC {
  event_cb : option Z;
  get_descriptor_cb : Z;
  requests_hook_cb : option Z;
  sof_cb : option Z
}.

(** ** Endpoints

    [USBInEndpointState] and [USBOutEndpointState] have the same layout, and
    the two states of endpoint 0 are members of one union, so both are this
    structure and a state is designated by its address. *)

(** A linear buffer is a pointer into an object: the object and an offset. *)
Inductive epmode := EM_linear (buf : usbbuf) (off : Z) | EM_queue (q : Z).

Record USBEndpointState := mkEpS {
  ep_queued : bool;
  ep_size : Z;
  ep_cnt : Z;
  ep_mode : epmode
}.

Definition set_ep_queued (v : bool) (e : USBEndpointState) : USBEndpointState :=
  mkEpS v (ep_size e) (ep_cnt e) (ep_mode e).
Definition set_ep_size (v : Z) (e : USBEndpointState) : USBEndpointState :=
  mkEpS (ep_queued e) v (ep_cnt e) (ep_mode e).
Definition set_ep_cnt (v : Z) (e : USBEndpointState) : USBEndpointState :=
  mkEpS (ep_queued e) (ep_size e) v (ep_mode e).
Definition set_ep_mode (v : epmode) (e : USBEndpointState) : USBEndpointState :=
  mkEpS (ep_queued e) (ep_size e) (ep_cnt e) v.

Record USBEndpointConfig := mkEpC {
  epc_mode : Z;
  epc_setup_cb : option usbepcallback_t;
  epc_in_cb : option usbepcallback_t;
  epc_out_cb : option usbepcallback_t;
  epc_in_maxsize : Z;
  epc_out_maxsize : Z;
  epc_in_state : option Z;
  epc_out_state : option Z;
  epc_in_multiplier : Z;
  epc_setup_buf : option Z
}.

(** ** The driver *)

Record USBDriver := mkUSB {
  usb_state : usbstate_t;
  usb_config : option USBConfig;
  usb_transmitting : Z;
  usb_receiving : Z;
  usb_epc : Z -> option USBEndpointConfig;
  usb_in_params : Z -> Z;
  usb_out_params : Z -> Z;
  usb_ep0state : usbep0state_t;
  usb_ep0next : usbbuf;
  usb_ep0n : Z;
  usb_ep0endcb : option usbcallback_t;
  usb_setup : list Z;
  usb_status : Z;
  usb_address : Z;
  usb_configuration : Z;
  usb_pmnext : Z
}.

Definition set_usb_state (v : usbstate_t) (d : USBDriver) : USBDriver :=
  mkUSB v (usb_config d) (usb_transmitting d) (usb_receiving d) (usb_epc d)
    (usb_in_params d) (usb_out_params d) (usb_ep0state d) (usb_ep0next d) (usb_ep0n d)
    (usb_ep0endcb d) (usb_setup d) (usb_status d) (usb_address d) (usb_configuration d)
    (usb_pmnext d).
Definition set_usb_config (v : option USBConfig) (d : USBDriver) : USBDriver :=
  mkUSB (usb_state d) v (usb_transmitting d) (usb_receiving d) (usb_epc d)
    (usb_in_params d) (usb_out_params d) (usb_ep0state d) (usb_ep0next d) (usb_ep0n d)
    (usb_ep0endcb d) (usb_setup d) (usb_status d) (usb_address d) (usb_configuration d)
    (usb_pmnext d).
Definition set_usb_transmitting (v : Z) (d : USBDriver) : USBDriver :=
  mkUSB (usb_state d) (usb_config d) v (usb_receiving d) (usb_epc d) (usb_in_params d)
    (usb_out_params d) (usb_ep0state d) (usb_ep0next d) (usb_ep0n d) (usb_ep0endcb d)
    (usb_setup d) (usb_status d) (usb_address d) (usb_configuration d) (usb_pmnext d).
Definition set_usb_receiving (v : Z) (d : USBDriver) : USBDriver :=
  mkUSB (usb_state d) (usb_config d) (usb_transmitting d) v (usb_epc d)
    (usb_in_params d) (usb_out_params d) (usb_ep0state d) (usb_ep0next d) (usb_ep0n d)
    (usb_ep0endcb d) (usb_setup d) (usb_status d) (usb_address d) (usb_configuration d)
    (usb_pmnext d).
Definition set_usb_epc (v : Z -> option USBEndpointConfig) (d : USBDriver) : USBDriver :=
  mkUSB (usb_state d) (usb_config d) (usb_transmitting d) (usb_receiving d) v
    (usb_in_params d) (usb_out_params d) (usb_ep0state d) (usb_ep0next d) (usb_ep0n d)
    (usb_ep0endcb d) (usb_setup d) (usb_status d) (usb_address d) (usb_configuration d)
    (usb_pmnext d).
Definition set_usb_in_params (v : Z -> Z) (d : USBDriver) : USBDriver :=
  mkUSB (usb_state d) (usb_config d) (usb_transmitting d) (usb_receiving d) (usb_epc d)
    v (usb_out_params d) (usb_ep0state d) (usb_ep0next d) (usb_ep0n d) (usb_ep0endcb d)
    (usb_setup d) (usb_status d) (usb_address d) (usb_configuration d) (usb_pmnext d).
Definition set_usb_out_params (v : Z -> Z) (d : USBDriver) : USBDriver :=
  mkUSB (usb_state d) (usb_config d) (usb_transmitting d) (usb_receiving d) (usb_epc d)
    (usb_in_params d) v (usb_ep0state d) (usb_ep0next d) (usb_ep0n d) (usb_ep0endcb d)
    (usb_setup d) (usb_status d) (usb_address d) (usb_configuration d) (usb_pmnext d).
Definition set_usb_ep0state (v : usbep0state_t) (d : USBDriver) : USBDriver :=
  mkUSB (usb_state d) (usb_config d) (usb_transmitting d) (usb_receiving d) (usb_epc d)
    (usb_in_params d) (usb_out_params d) v (usb_ep0next d) (usb_ep0n d) (usb_ep0endcb d)
    (usb_setup d) (usb_status d) (usb_address d) (usb_configuration d) (usb_pmnext d).
Definition set_usb_ep0next (v : usbbuf) (d : USBDriver) : USBDriver :=
  mkUSB (usb_state d) (usb_config d) (usb_transmitting d) (usb_receiving d) (usb_epc d)
    (usb_in_params d) (usb_out_params d) (usb_ep0state d) v (usb_ep0n d)
    (usb_ep0endcb d) (usb_setup d) (usb_status d) (usb_address d) (usb_configuration d)
    (usb_pmnext d).
Definition set_usb_ep0n (v : Z) (d : USBDriver) : USBDriver :=
  mkUSB (usb_state d) (usb_config d) (usb_transmitting d) (usb_receiving d) (usb_epc d)
    (usb_in_params d) (usb_out_params d) (usb_ep0state d) (usb_ep0next d) v
    (usb_ep0endcb d) (usb_setup d) (usb_status d) (usb_address d) (usb_configuration d)
    (usb_pmnext d).
Definition set_usb_ep0endcb (v : option usbcallback_t) (d : USBDriver) : USBDriver :=
  mkUSB (usb_state d) (usb_config d) (usb_transmitting d) (usb_receiving d) (usb_epc d)
    (usb_in_params d) (usb_out_params d) (usb_ep0state d) (usb_ep0next d) (usb_ep0n d) v
    (usb_setup d) (usb_status d) (usb_address d) (usb_configuration d) (usb_pmnext d).
Definition set_usb_setup (v : list Z) (d : USBDriver) : USBDriver :=
  mkUSB (usb_state d) (usb_config d) (usb_transmitting d) (usb_receiving d) (usb_epc d)
    (usb_in_params d) (usb_out_params d) (usb_ep0state d) (usb_ep0next d) (usb_ep0n d)
    (usb_ep0endcb d) v (usb_status d) (usb_address d) (usb_configuration d)
    (usb_pmnext d).
Definition set_usb_status (v : Z) (d : USBDriver) : USBDriver :=
  mkUSB (usb_state d) (usb_config d) (usb_transmitting d) (usb_receiving d) (usb_epc d)
    (usb_in_params d) (usb_out_params d) (usb_ep0state d) (usb_ep0next d) (usb_ep0n d)
    (usb_ep0endcb d) (usb_setup d) v (usb_address d) (usb_configuration d)
    (usb_pmnext d).
Definition set_usb_address (v : Z) (d : USBDriver) : USBDriver :=
  mkUSB (usb_state d) (usb_config d) (usb_transmitting d) (usb_receiving d) (usb_epc d)
    (usb_in_params d) (usb_out_params d) (usb_ep0state d) (usb_ep0next d) (usb_ep0n d)
    (usb_ep0endcb d) (usb_setup d) (usb_status d) v (usb_configuration d) (usb_pmnext d).
Definition set_usb_configuration (v : Z) (d : USBDriver) : USBDriver :=
  mkUSB (usb_state d) (usb_config d) (usb_transmitting d) (usb_receiving d) (usb_epc d)
    (usb_in_params d) (usb_out_params d) (usb_ep0state d) (usb_ep0next d) (usb_ep0n d)
    (usb_ep0endcb d) (usb_setup d) (usb_status d) (usb_address d) v (usb_pmnext d).
Definition set_usb_pmnext (v : Z) (d : USBDriver) : USBDriver :=
  mkUSB (usb_state d) (usb_config d) (usb_transmitting d) (usb_receiving d) (usb_epc d)
    (usb_in_params d) (usb_out_params d) (usb_ep0state d) (usb_ep0next d) (usb_ep0n d)
    (usb_ep0endcb d) (usb_setup d) (usb_status d) (usb_address d) (usb_configuration d)
    v.

(** ** The registers of the peripheral used by the driver *)

Inductive otgreg :=
  | GAHBCFG | GINTSTS | GRXFSIZ | GINTMSK | DCFG | DIEPMSK | DOEPMSK | DAINT | DAINTMSK | DIEPEMPMSK
  | DIEPTXF0 | DIEPTXF (n : Z)
  | DIEPCTL (ep : Z) | DIEPINT (ep : Z) | DIEPTSIZ (ep : Z)
  | DOEPCTL (ep : Z) | DOEPINT (ep : Z) | DOEPTSIZ (ep : Z).
#[export] Instance otgreg_eq_dec : EqDecision otgreg.
Proof. solve_decision. Defined.

(** ** The world *)

Record usbw := mkW {
  w_k : kstate;
  w_usb : USBDriver;
  w_ep : Z -> USBEndpointState;
  w_setup : Z -> list Z;
  w_otg : otgreg -> Z
}.

Definition set_w_k (v : kstate) (w : usbw) : usbw :=
  mkW v (w_usb w) (w_ep w) (w_setup w) (w_otg w).
Definition set_w_usb (v : USBDriver) (w : usbw) : usbw :=
  mkW (w_k w) v (w_ep w) (w_setup w) (w_otg w).
Definition set_w_ep (v : Z -> USBEndpointState) (w : usbw) : usbw :=
  mkW (w_k w) (w_usb w) v (w_setup w) (w_otg w).
Definition set_w_setup (v : Z -> list Z) (w : usbw) : usbw :=
  mkW (w_k w) (w_usb w) (w_ep w) v (w_otg w).
Definition set_w_otg (v : otgreg -> Z) (w : usbw) : usbw :=
  mkW (w_k w) (w_usb w) (w_ep w) (w_setup w) v.

Abbreviation UM := (M usbw) (only parsing).

(** A kernel function called by the driver. *)
Fixpoint kern_o {A} (w : usbw) (o : outcome kstate A) : outcome usbw A :=
  match o with
  | Done a s => Done a (set_w_k s w)
  | Suspend p s k => Suspend p (set_w_k s w) (fun w' => kern_o w' (k (w_k w')))
  | Stuck e => Stuck e
  end.
Definition kern {A} (m : M kstate A) : UM A := fun w => kern_o w (m (w_k w)).

Definition upd_usb (f : USBDriver -> USBDriver) (w : usbw) : usbw := set_w_usb (f (w_usb w)) w.
Definition set_usb (f : USBDriver -> USBDriver) : UM unit := modify (upd_usb f).
Definition drv {A} (f : USBDriver -> A) : UM A := gets (fun w => f (w_usb w)).
Definition upd_ep (a : Z) (f : USBEndpointState -> USBEndpointState) (w : usbw) : usbw :=
  set_w_ep (<[a := f (w_ep w a)]> (w_ep w)) w.
Definition upd_reg (r : otgreg) (v : Z) (w : usbw) : usbw :=
  set_w_otg (<[r := v]> (w_otg w)) w.

(** The application: the functions its configuration structures point to. *)
Class UsbApp := {
  user_event : Z -> usbevent_t -> UM unit;
  user_get_descriptor : Z -> Z -> Z -> Z -> UM (option USBDescriptor);
  user_hook : Z -> UM bool;
  user_callback : Z -> UM unit;
  user_epcallback : Z -> Z -> UM unit
}.

(** [setup[i]] *)
Definition setup_byte (d : USBDriver) (i : nat) : Z := nth i (usb_setup d) 0.

(** [usbp->epc[ep]], which must designate a configuration to be used. *)
Definition get_epc (ep : Z) : UM USBEndpointConfig := fun w =>
  if (0 <=? ep) && (ep <=? USB_MAX_ENDPOINTS) then
    match usb_epc (w_usb w) ep with
    | Some c => Done c w
    | None => Stuck (Fault "epc")
    end
  else Stuck (Fault "epc").
Definition deref {A} (p : option A) (msg : string) : UM A :=
  match p with Some a => mret' a | None => fault msg end.

Ltac ucbn :=
  cbn [set_usb_state set_usb_config set_usb_transmitting set_usb_receiving set_usb_epc
    set_usb_in_params set_usb_out_params set_usb_ep0state set_usb_ep0next set_usb_ep0n
    set_usb_ep0endcb set_usb_setup set_usb_status set_usb_address set_usb_configuration
    set_usb_pmnext set_w_k set_w_usb set_w_ep set_w_setup set_w_otg set_ep_queued
    set_ep_size set_ep_cnt set_ep_mode usb_state usb_config usb_transmitting
    usb_receiving usb_epc usb_in_params usb_out_params usb_ep0state usb_ep0next usb_ep0n
    usb_ep0endcb usb_setup usb_status usb_address usb_configuration usb_pmnext w_k w_usb
    w_ep w_setup w_otg ep_queued ep_size ep_cnt ep_mode
    upd_usb upd_ep upd_reg].
Ltac usimpl := repeat (progress (ucbn; fn_simpl)).
