(* ===== verification/USBLld.v ===== *)
(** * USB low level driver ([os/hal/platforms/STM32/OTGv1/usb_lld.c])

    The endpoint operations of the OTG driver on the registers of the
    peripheral.  The functions that wait on the peripheral (FIFO flush,
    endpoint disable) and the start and stop of the peripheral (clocks, pump
    thread) are the class [OtgHw]. *)
From S2P Require Import Prelude Monad Types USBTypes.

Class OtgHw := {
  otg_txfifo_flush : Z -> (otgreg -> Z) -> otgreg -> Z;
  otg_rxfifo_flush : (otgreg -> Z) -> otgreg -> Z;
  otg_disable_ep : (otgreg -> Z) -> otgreg -> Z;
  usb_lld_start : UM unit;
  usb_lld_stop : UM unit
}.

(** ** Register fields *)

Definition bitn (n : Z) : Z := Z.shiftl 1 n.
Definition DIEPCTL_EPENA : Z := bitn 31.
Definition DIEPCTL_SD0PID : Z := bitn 28.
Definition DIEPCTL_SNAK : Z := bitn 27.
Definition DIEPCTL_CNAK : Z := bitn 26.
Definition DIEPCTL_TXFNUM (n : Z) : Z := Z.shiftl n 22.
Definition DIEPCTL_STALL : Z := bitn 21.
Definition DIEPCTL_EPTYP_CTRL : Z := 0.
Definition DIEPCTL_EPTYP_ISO : Z := bitn 18.
Definition DIEPCTL_EPTYP_BULK : Z := Z.shiftl 2 18.
Definition DIEPCTL_EPTYP_INTR : Z := Z.shiftl 3 18.
Definition DIEPCTL_USBAEP : Z := bitn 15.
Definition DIEPCTL_MPSIZ (n : Z) : Z := n.
Definition DOEPCTL_SD0PID : Z := bitn 28.
Definition DOEPCTL_SNAK : Z := bitn 27.
Definition DOEPCTL_CNAK : Z := bitn 26.
Definition DOEPCTL_STALL : Z := bitn 21.
Definition DOEPCTL_EPTYP_CTRL : Z := 0.
Definition DOEPCTL_USBAEP : Z := bitn 15.
Definition DOEPCTL_MPSIZ (n : Z) : Z := n.
Definition DCFG_DAD_MASK : Z := Z.shiftl 0x7F 4.
Definition DCFG_DAD (n : Z) : Z := Z.shiftl n 4.
Definition DAINTMSK_OEPM (n : Z) : Z := bitn (16 + n).
Definition DAINTMSK_IEPM (n : Z) : Z := bitn n.
Definition DIEPEMPMSK_INEPTXFEM (n : Z) : Z := bitn n.
Definition DIEPTXF_INEPTXFD (n : Z) : Z := Z.shiftl n 16.
Definition DIEPTXF_INEPTXSA (n : Z) : Z := n.
Definition DIEPTSIZ_PKTCNT (n : Z) : Z := Z.shiftl n 19.
Definition DIEPTSIZ_XFRSIZ (n : Z) : Z := n.
Definition DOEPTSIZ_STUPCNT (n : Z) : Z := Z.shiftl n 29.
Definition DOEPTSIZ_PKTCNT (n : Z) : Z := Z.shiftl n 19.
Definition DOEPTSIZ_XFRSIZ (n : Z) : Z := n.
Definition GINTMSK_RXFLVLM : Z := bitn 4.
Definition GINTMSK_OEPM : Z := bitn 19.
Definition GINTMSK_IEPM : Z := bitn 18.
Definition DIEPMSK_TOCM : Z := bitn 3.
Definition DIEPMSK_XFRCM : Z := bitn 0.
Definition DOEPMSK_STUPM : Z := bitn 3.
Definition DOEPMSK_XFRCM : Z := bitn 0.

Notation "a '.|' b" := (Z.lor a b) (at level 52, left associativity) : chibi_scope.
Notation "a '.&' b" := (Z.land a b) (at level 51, left associativity) : chibi_scope.
Open Scope chibi_scope.

(** The address of [ep0_state], of [ep0setup_buffer], and the parameters of
    the OTG1 peripheral. *)
Definition EP0_STATE : Z := 0.
Definition EP0_SETUP : Z := 0.
Definition otg_num_endpoints : Z := 3.
Definition otg_rx_fifo_size : Z := 512 / 4.
Definition otg_ram_size : Z := 384.

Definition ep0config : USBEndpointConfig := {|
  epc_mode := USB_EP_MODE_TYPE_CTRL;
  epc_setup_cb := Some ECB_ep0setup;
  epc_in_cb := Some ECB_ep0in;
  epc_out_cb := Some ECB_ep0out;
  epc_in_maxsize := 0x40;
  epc_out_maxsize := 0x40;
  epc_in_state := Some EP0_STATE;
  epc_out_state := Some EP0_STATE;
  epc_in_multiplier := 1;
  epc_setup_buf := Some EP0_SETUP
|}.

Definition rd (r : otgreg) : UM Z := gets (fun w => w_otg w r).
Definition wr (r : otgreg) (v : Z) : UM unit := modify (upd_reg r (u32 v)).
Definition wr_or (r : otgreg) (v : Z) : UM unit := let! x := rd r in wr r (x .| v).
Definition wr_clear (r : otgreg) (v : Z) : UM unit := let! x := rd r in wr r (x .& Z.lnot v).
Definition on_regs (f : (otgreg -> Z) -> otgreg -> Z) : UM unit :=
  modify (fun w => set_w_otg (f (w_otg w)) w).

Section Defs.
Context `{Config}.

(** ** Packet memory *)

Definition otg_ram_reset : UM unit := set_usb (set_usb_pmnext otg_rx_fifo_size).

Definition otg_ram_alloc (size : Z) : UM Z :=
  let! next := drv usb_pmnext in
  set_usb (set_usb_pmnext (u32 (next + size))) ;;;
  let! pm := drv usb_pmnext in
  kern (chDbgAssert (pm <=? otg_ram_size) "otg_fifo_alloc(), #1") ;;;
  mret' next.

(** ** Endpoints *)

Definition usb_lld_set_address : UM unit :=
  let! a := drv usb_address in
  let! x := rd DCFG in
  wr DCFG (x .& Z.lnot DCFG_DAD_MASK .| DCFG_DAD a).

Definition ctl_status (ctl : Z) : usbepstatus_t :=
  if ctl .& DIEPCTL_USBAEP =? 0 then EP_STATUS_DISABLED
  else if negb (ctl .& DIEPCTL_STALL =? 0) then EP_STATUS_STALLED
  else EP_STATUS_ACTIVE.
Definition usb_lld_get_status_out (ep : Z) : UM usbepstatus_t :=
  let! ctl := rd (DOEPCTL ep) in mret' (ctl_status ctl).
Definition usb_lld_get_status_in (ep : Z) : UM usbepstatus_t :=
  let! ctl := rd (DIEPCTL ep) in mret' (ctl_status ctl).

(** [memcpy(buf, usbp->epc[ep]->setup_buf, 8)], [buf] being [usbp->setup]. *)
Definition usb_lld_read_setup (ep : Z) : UM unit :=
  let! c := get_epc ep in
  let! a := deref (epc_setup_buf c) "setup_buf" in
  let! bytes := gets (fun w => w_setup w a) in
  set_usb (set_usb_setup bytes).

(** The number of packets; a zero packet size is a division by zero. *)
Definition packets (size maxsize : Z) : UM Z :=
  if maxsize =? 0 then fault "division by zero"
  else mret' (u32 (u32 (size + maxsize - 1) / maxsize)).

Definition usb_lld_prepare_receive (ep : Z) : UM unit :=
  let! c := get_epc ep in
  let! osp := deref (epc_out_state c) "out_state" in
  let! e := gets (fun w => w_ep w osp) in
  let! pcnt := packets (ep_size e) (epc_out_maxsize c) in
  wr (DOEPTSIZ ep) (DOEPTSIZ_STUPCNT 3 .| DOEPTSIZ_PKTCNT pcnt
                    .| DOEPTSIZ_XFRSIZ (epc_out_maxsize c)).

Definition usb_lld_prepare_transmit (ep : Z) : UM unit :=
  let! c := get_epc ep in
  let! isp := deref (epc_in_state c) "in_state" in
  let! e := gets (fun w => w_ep w isp) in
  if ep_size e =? 0 then wr (DIEPTSIZ ep) (DIEPTSIZ_PKTCNT 1 .| DIEPTSIZ_XFRSIZ 0)
  else
    let! pcnt := packets (ep_size e) (epc_in_maxsize c) in
    wr (DIEPTSIZ ep) (DIEPTSIZ_PKTCNT pcnt .| DIEPTSIZ_XFRSIZ (ep_size e)).

Definition usb_lld_start_out (ep : Z) : UM unit := wr_or (DOEPCTL ep) DOEPCTL_CNAK.
Definition usb_lld_start_in (ep : Z) : UM unit :=
  wr_or (DIEPCTL ep) (DIEPCTL_EPENA .| DIEPCTL_CNAK) ;;;
  wr_or DIEPEMPMSK (DIEPEMPMSK_INEPTXFEM ep).
Definition usb_lld_stall_out (ep : Z) : UM unit := wr_or (DOEPCTL ep) DOEPCTL_STALL.
Definition usb_lld_stall_in (ep : Z) : UM unit := wr_or (DIEPCTL ep) DIEPCTL_STALL.
Definition usb_lld_clear_out (ep : Z) : UM unit := wr_clear (DOEPCTL ep) DOEPCTL_STALL.
Definition usb_lld_clear_in (ep : Z) : UM unit := wr_clear (DIEPCTL ep) DIEPCTL_STALL.

(** [usb_lld_get_transaction_size()] *)
Definition usb_lld_get_transaction_size (ep : Z) : UM Z :=
  let! c := get_epc ep in
  let! osp := deref (epc_out_state c) "out_state" in
  gets (fun w => ep_cnt (w_ep w osp)).

Context `{OtgHw}.

Definition usb_lld_disable_endpoints : UM unit :=
  otg_ram_reset ;;; on_regs otg_disable_ep.

Definition ep_type (mode : Z) : option Z :=
  let m := mode .& USB_EP_MODE_TYPE in
  if m =? USB_EP_MODE_TYPE_CTRL then Some DIEPCTL_EPTYP_CTRL
  else if m =? USB_EP_MODE_TYPE_ISOC then Some DIEPCTL_EPTYP_ISO
  else if m =? USB_EP_MODE_TYPE_BULK then Some DIEPCTL_EPTYP_BULK
  else if m =? USB_EP_MODE_TYPE_INTR then Some DIEPCTL_EPTYP_INTR
  else None.

Definition usb_lld_init_endpoint (ep : Z) : UM unit :=
  let! c := get_epc ep in
  match ep_type (epc_mode c) with
  | None => mret' tt
  | Some ty =>
      let ctl := DIEPCTL_SD0PID .| DIEPCTL_USBAEP .| ty in
      wr (DOEPTSIZ ep) 0 ;;;
      match epc_out_cb c with
      | Some _ =>
          wr (DOEPCTL ep) (ctl .| DOEPCTL_MPSIZ (epc_out_maxsize c)) ;;;
          wr_or DAINTMSK (DAINTMSK_OEPM ep)
      | None =>
          wr_clear (DOEPCTL ep) DOEPCTL_USBAEP ;;;
          wr_clear DAINTMSK (DAINTMSK_OEPM ep)
      end ;;;
      wr (DIEPTSIZ ep) 0 ;;;
      match epc_in_cb c with
      | Some _ =>
          let f := epc_in_maxsize c / 4 in
          let fsize := if 1 <? epc_in_multiplier c then u32 (f * epc_in_multiplier c) else f in
          let! a := otg_ram_alloc fsize in
          wr (DIEPTXF (ep - 1)) (DIEPTXF_INEPTXFD fsize .| DIEPTXF_INEPTXSA a) ;;;
          on_regs (otg_txfifo_flush ep) ;;;
          wr (DIEPCTL ep) (ctl .| DIEPCTL_TXFNUM ep .| DIEPCTL_MPSIZ (epc_in_maxsize c)) ;;;
          wr_or DAINTMSK (DAINTMSK_IEPM ep)
      | None =>
          wr (DIEPTXF (ep - 1)) 0x02000400 ;;;
          on_regs (otg_txfifo_flush ep) ;;;
          wr_clear (DIEPCTL ep) DIEPCTL_USBAEP ;;;
          wr_clear DAINTMSK (DAINTMSK_IEPM ep)
      end
  end.

(** [for (i = 0; i <= num_endpoints; i++)]: every endpoint in NAK mode. *)
Definition reset_ep (i : Z) : UM unit :=
  wr (DIEPCTL i) DIEPCTL_SNAK ;;;
  wr (DOEPCTL i) DOEPCTL_SNAK ;;;
  wr (DIEPINT i) 0xFF ;;;
  wr (DOEPINT i) 0xFF.
Fixpoint reset_eps (n : nat) (i : Z) : UM unit :=
  match n with
  | O => mret' tt
  | S n => reset_ep i ;;; reset_eps n (i + 1)
  end.

Definition usb_lld_reset : UM unit :=
  on_regs (otg_txfifo_flush 0) ;;;
  reset_eps (Z.to_nat (otg_num_endpoints + 1)) 0 ;;;
  wr DAINT 0xFFFFFFFF ;;;
  wr DAINTMSK (DAINTMSK_OEPM 0 .| DAINTMSK_IEPM 0) ;;;
  otg_ram_reset ;;;
  wr GRXFSIZ otg_rx_fifo_size ;;;
  on_regs otg_rxfifo_flush ;;;
  (let! x := rd DCFG in wr DCFG (x .& Z.lnot DCFG_DAD_MASK .| DCFG_DAD 0)) ;;;
  wr_or GINTMSK (GINTMSK_RXFLVLM .| GINTMSK_OEPM .| GINTMSK_IEPM) ;;;
  wr DIEPMSK (DIEPMSK_TOCM .| DIEPMSK_XFRCM) ;;;
  wr DOEPMSK (DOEPMSK_STUPM .| DOEPMSK_XFRCM) ;;;
  set_usb (fun d => set_usb_epc (<[0 := Some ep0config]> (usb_epc d)) d) ;;;
  wr (DOEPTSIZ 0) 0 ;;;
  wr (DOEPCTL 0) (DOEPCTL_SD0PID .| DOEPCTL_USBAEP .| DOEPCTL_EPTYP_CTRL
                  .| DOEPCTL_MPSIZ (epc_out_maxsize ep0config)) ;;;
  wr (DIEPTSIZ 0) 0 ;;;
  wr (DIEPCTL 0) (DIEPCTL_SD0PID .| DIEPCTL_USBAEP .| DIEPCTL_EPTYP_CTRL
                  .| DIEPCTL_TXFNUM 0 .| DIEPCTL_MPSIZ (epc_in_maxsize ep0config)) ;;;
  let! a := otg_ram_alloc (epc_in_maxsize ep0config / 4) in
  wr DIEPTXF0 (DIEPTXF_INEPTXFD (epc_in_maxsize ep0config / 4) .| DIEPTXF_INEPTXSA a).
End Defs.
