(* ===== verification/USB.v ===== *)
(** * USB driver ([os/hal/src/usb.c], [os/hal/include/usb.h])

    The device controller state, the endpoint API and the control endpoint
    state machine with the standard requests. *)
From S2P Require Import Prelude Monad Types USBTypes USBLld.

Section Defs.
Context `{Config} `{OtgHw} `{UsbApp}.

Definition zero_status : list Z := [0x00; 0x00].
Definition active_status : list Z := [0x00; 0x00].
Definition halted_status : list Z := [0x01; 0x00].

(** ** Macros of [usb.h] *)

Definition usbGetDriverStateI (d : USBDriver) : usbstate_t := usb_state d.

(** [usbFetchWord(&usbp->setup[i])] *)
Definition usbFetchWord (d : USBDriver) (i : nat) : Z :=
  setup_byte d i .| Z.shiftl (setup_byte d (S i)) 8.

Definition usbGetTransmitStatusI (d : USBDriver) (ep : Z) : bool :=
  negb (usb_transmitting d .& Z.shiftl 1 ep =? 0).
Definition usbGetReceiveStatusI (d : USBDriver) (ep : Z) : bool :=
  negb (usb_receiving d .& Z.shiftl 1 ep =? 0).
Definition usbGetReceiveTransactionSizeI := usb_lld_get_transaction_size.

Definition usbSetupTransfer (buf : usbbuf) (n : Z) (endcb : option usbcallback_t) : UM unit :=
  set_usb (fun d => set_usb_ep0endcb endcb (set_usb_ep0n n (set_usb_ep0next buf d))).

Definition usbReadSetup := usb_lld_read_setup.

Definition _usb_isr_invoke_event_cb (evt : usbevent_t) : UM unit :=
  let! c := drv usb_config in
  let! c := deref c "config" in
  match event_cb c with
  | Some fn => user_event fn evt
  | None => mret' tt
  end.

Definition _usb_isr_invoke_sof_cb : UM unit :=
  let! c := drv usb_config in
  let! c := deref c "config" in
  match sof_cb c with
  | Some fn => user_callback fn
  | None => mret' tt
  end.

(** ** Initialization *)

Definition usbObjectInit (d : USBDriver) : USBDriver :=
  let clear (f : Z -> Z) (i : Z) := if (0 <=? i) && (i <? USB_MAX_ENDPOINTS) then 0 else f i in
  set_usb_receiving 0 (set_usb_transmitting 0
    (set_usb_out_params (clear (usb_out_params d))
      (set_usb_in_params (clear (usb_in_params d))
        (set_usb_config None (set_usb_state USB_STOP d))))).

(** [for (i = first; i <= USB_MAX_ENDPOINTS; i++) usbp->epc[i] = NULL] *)
Definition clear_epc (first : Z) (d : USBDriver) : USBDriver :=
  set_usb_epc (fun i => if (first <=? i) && (i <=? USB_MAX_ENDPOINTS) then None
                        else usb_epc d i) d.

Definition usbStart (config : USBConfig) : UM unit :=
  kern chSysLock ;;;
  let! st := drv usb_state in
  kern (chDbgAssert (bool_decide (st = USB_STOP) || bool_decide (st = USB_READY))
          "usbStart(), #1") ;;;
  set_usb (set_usb_config (Some config)) ;;;
  set_usb (clear_epc 0) ;;;
  usb_lld_start ;;;
  set_usb (set_usb_state USB_READY) ;;;
  kern chSysUnlock.

Definition usbStop : UM unit :=
  kern chSysLock ;;;
  let! st := drv usb_state in
  kern (chDbgAssert (bool_decide (st = USB_STOP) || bool_decide (st = USB_READY)
                     || bool_decide (st = USB_SELECTED) || bool_decide (st = USB_ACTIVE))
          "usbStop(), #1") ;;;
  usb_lld_stop ;;;
  set_usb (set_usb_state USB_STOP) ;;;
  kern chSysUnlock.

(** ** Endpoints *)

Definition zero_state (p : option Z) : UM unit :=
  match p with
  | Some a => modify (upd_ep a (fun _ => mkEpS false 0 0 (EM_linear UB_null 0)))
  | None => mret' tt
  end.

Definition usbInitEndpointI (ep : Z) (epcp : USBEndpointConfig) : UM unit :=
  kern chDbgCheckClassI ;;;
  let! d := drv id in
  kern (chDbgAssert (bool_decide (usb_state d = USB_ACTIVE)) "usbEnableEndpointI(), #1") ;;;
  kern (chDbgAssert (match usb_epc d ep with None => true | _ => false end)
          "usbEnableEndpointI(), #2") ;;;
  zero_state (epc_in_state epcp) ;;;
  zero_state (epc_out_state epcp) ;;;
  (if (0 <=? ep) && (ep <=? USB_MAX_ENDPOINTS)
   then set_usb (fun d => set_usb_epc (<[ep := Some epcp]> (usb_epc d)) d)
   else fault "epc") ;;;
  usb_lld_init_endpoint ep.

Definition usbDisableEndpointsI : UM unit :=
  kern chDbgCheckClassI ;;;
  let! st := drv usb_state in
  kern (chDbgAssert (bool_decide (st = USB_SELECTED)) "usbDisableEndpointsI(), #1") ;;;
  set_usb (fun d => set_usb_transmitting (u16 (usb_transmitting d .& Z.lnot 1)) d) ;;;
  set_usb (fun d => set_usb_receiving (u16 (usb_receiving d .& Z.lnot 1)) d) ;;;
  set_usb (clear_epc 1) ;;;
  usb_lld_disable_endpoints.

Definition usbPrepareReceive (ep : Z) (buf : usbbuf) (n : Z) : UM unit :=
  let! c := get_epc ep in
  let! osp := deref (epc_out_state c) "out_state" in
  modify (upd_ep osp (fun _ => mkEpS false n 0 (EM_linear buf 0))) ;;;
  usb_lld_prepare_receive ep.

Definition usbPrepareTransmit (ep : Z) (buf : usbbuf) (n : Z) : UM unit :=
  let! c := get_epc ep in
  let! isp := deref (epc_in_state c) "in_state" in
  modify (upd_ep isp (fun _ => mkEpS false n 0 (EM_linear buf 0))) ;;;
  usb_lld_prepare_transmit ep.

Definition usbPrepareQueuedReceive (ep iqp n : Z) : UM unit :=
  let! c := get_epc ep in
  let! osp := deref (epc_out_state c) "out_state" in
  modify (upd_ep osp (fun _ => mkEpS true n 0 (EM_queue iqp))) ;;;
  usb_lld_prepare_receive ep.

Definition usbPrepareQueuedTransmit (ep oqp n : Z) : UM unit :=
  let! c := get_epc ep in
  let! isp := deref (epc_in_state c) "in_state" in
  modify (upd_ep isp (fun _ => mkEpS true n 0 (EM_queue oqp))) ;;;
  usb_lld_prepare_transmit ep.

(** [TRUE] if the endpoint is busy. *)
Definition usbStartReceiveI (ep : Z) : UM bool :=
  kern chDbgCheckClassI ;;;
  let! d := drv id in
  if usbGetReceiveStatusI d ep then mret' true
  else
    set_usb (fun d => set_usb_receiving (u16 (usb_receiving d .| Z.shiftl 1 ep)) d) ;;;
    usb_lld_start_out ep ;;;
    mret' false.

Definition usbStartTransmitI (ep : Z) : UM bool :=
  kern chDbgCheckClassI ;;;
  let! d := drv id in
  if usbGetTransmitStatusI d ep then mret' true
  else
    set_usb (fun d => set_usb_transmitting (u16 (usb_transmitting d .| Z.shiftl 1 ep)) d) ;;;
    usb_lld_start_in ep ;;;
    mret' false.

Definition usbStallReceiveI (ep : Z) : UM bool :=
  kern chDbgCheckClassI ;;;
  let! d := drv id in
  if usbGetReceiveStatusI d ep then mret' true
  else usb_lld_stall_out ep ;;; mret' false.

Definition usbStallTransmitI (ep : Z) : UM bool :=
  kern chDbgCheckClassI ;;;
  let! d := drv id in
  if usbGetTransmitStatusI d ep then mret' true
  else usb_lld_stall_in ep ;;; mret' false.

(** ** Bus reset *)

Definition _usb_reset : UM unit :=
  set_usb (fun d =>
    set_usb_receiving 0 (set_usb_transmitting 0 (set_usb_configuration 0
      (set_usb_address 0 (set_usb_status 0 (set_usb_state USB_READY d)))))) ;;;
  set_usb (clear_epc 0) ;;;
  set_usb (set_usb_ep0state USB_EP0_WAITING_SETUP) ;;;
  usb_lld_reset.

(** ** Standard requests *)

Definition set_address : UM unit :=
  set_usb (fun d => set_usb_address (setup_byte d 2) d) ;;;
  usb_lld_set_address ;;;
  _usb_isr_invoke_event_cb USB_EVENT_ADDRESS ;;;
  set_usb (set_usb_state USB_SELECTED).

Definition rtype (recipient req : Z) : Z := recipient .| Z.shiftl req 8.

Definition answer_status (st : usbepstatus_t) : UM bool :=
  match st with
  | EP_STATUS_STALLED => usbSetupTransfer (UB_const halted_status) 2 None ;;; mret' true
  | EP_STATUS_ACTIVE => usbSetupTransfer (UB_const active_status) 2 None ;;; mret' true
  | EP_STATUS_DISABLED => mret' false
  end.

Definition default_handler : UM bool :=
  let! d := drv id in
  let s i := setup_byte d i in
  let rq := s 0%nat .& (USB_RTYPE_RECIPIENT_MASK .| USB_RTYPE_TYPE_MASK)
            .| Z.shiftl (s 1%nat) 8 in
  if rq =? rtype USB_RTYPE_RECIPIENT_DEVICE USB_REQ_GET_STATUS then
    usbSetupTransfer UB_status 2 None ;;; mret' true
  else if rq =? rtype USB_RTYPE_RECIPIENT_DEVICE USB_REQ_CLEAR_FEATURE then
    if s 2%nat =? USB_FEATURE_DEVICE_REMOTE_WAKEUP then
      set_usb (fun d => set_usb_status (u16 (usb_status d .& Z.lnot 2)) d) ;;;
      usbSetupTransfer UB_null 0 None ;;; mret' true
    else mret' false
  else if rq =? rtype USB_RTYPE_RECIPIENT_DEVICE USB_REQ_SET_FEATURE then
    if s 2%nat =? USB_FEATURE_DEVICE_REMOTE_WAKEUP then
      set_usb (fun d => set_usb_status (u16 (usb_status d .| 2)) d) ;;;
      usbSetupTransfer UB_null 0 None ;;; mret' true
    else mret' false
  else if rq =? rtype USB_RTYPE_RECIPIENT_DEVICE USB_REQ_SET_ADDRESS then
    (if (s 0%nat =? USB_RTYPE_RECIPIENT_DEVICE) && (s 1%nat =? USB_REQ_SET_ADDRESS)
     then set_address else mret' tt) ;;;
    usbSetupTransfer UB_null 0 None ;;; mret' true
  else if rq =? rtype USB_RTYPE_RECIPIENT_DEVICE USB_REQ_GET_DESCRIPTOR then
    let! c := deref (usb_config d) "config" in
    let! dp := user_get_descriptor (get_descriptor_cb c) (s 3%nat) (s 2%nat) (usbFetchWord d 4) in
    match dp with
    | None => mret' false
    | Some dp => usbSetupTransfer (UB_const (ud_string dp)) (ud_size dp) None ;;; mret' true
    end
  else if rq =? rtype USB_RTYPE_RECIPIENT_DEVICE USB_REQ_GET_CONFIGURATION then
    usbSetupTransfer UB_configuration 1 None ;;; mret' true
  else if rq =? rtype USB_RTYPE_RECIPIENT_DEVICE USB_REQ_SET_CONFIGURATION then
    set_usb (fun d => set_usb_configuration (setup_byte d 2) d) ;;;
    set_usb (fun d => set_usb_state (if usb_configuration d =? 0 then USB_SELECTED
                                     else USB_ACTIVE) d) ;;;
    _usb_isr_invoke_event_cb USB_EVENT_CONFIGURED ;;;
    usbSetupTransfer UB_null 0 None ;;; mret' true
  else if (rq =? rtype USB_RTYPE_RECIPIENT_INTERFACE USB_REQ_GET_STATUS)
       || (rq =? rtype USB_RTYPE_RECIPIENT_ENDPOINT USB_REQ_SYNCH_FRAME) then
    usbSetupTransfer (UB_const zero_status) 2 None ;;; mret' true
  else if rq =? rtype USB_RTYPE_RECIPIENT_ENDPOINT USB_REQ_GET_STATUS then
    let! st := (if negb (s 4%nat .& 0x80 =? 0) then usb_lld_get_status_in (s 4%nat .& 0x0F)
                else usb_lld_get_status_out (s 4%nat .& 0x0F)) in
    answer_status st
  else if rq =? rtype USB_RTYPE_RECIPIENT_ENDPOINT USB_REQ_CLEAR_FEATURE then
    if negb (s 2%nat =? USB_FEATURE_ENDPOINT_HALT) then mret' false
    else
      (if 0 <? s 4%nat .& 0x0F then
         if negb (s 4%nat .& 0x80 =? 0) then usb_lld_clear_in (s 4%nat .& 0x0F)
         else usb_lld_clear_out (s 4%nat .& 0x0F)
       else mret' tt) ;;;
      usbSetupTransfer UB_null 0 None ;;; mret' true
  else if rq =? rtype USB_RTYPE_RECIPIENT_ENDPOINT USB_REQ_SET_FEATURE then
    if negb (s 2%nat =? USB_FEATURE_ENDPOINT_HALT) then mret' false
    else
      (if 0 <? s 4%nat .& 0x0F then
         if negb (s 4%nat .& 0x80 =? 0) then usb_lld_stall_in (s 4%nat .& 0x0F)
         else usb_lld_stall_out (s 4%nat .& 0x0F)
       else mret' tt) ;;;
      usbSetupTransfer UB_null 0 None ;;; mret' true
  else mret' false.

(** ** The control endpoint *)

(** The error response that ends the three callbacks. *)
Definition ep0_error : UM unit :=
  usb_lld_stall_in 0 ;;;
  usb_lld_stall_out 0 ;;;
  _usb_isr_invoke_event_cb USB_EVENT_STALLED ;;;
  set_usb (set_usb_ep0state USB_EP0_ERROR).

Definition ep0_start_tx (buf : usbbuf) (n : Z) : UM unit :=
  usbPrepareTransmit 0 buf n ;;;
  kern chSysLockFromIsr ;;;
  usbStartTransmitI 0 ;;;
  kern chSysUnlockFromIsr.

Definition ep0_start_rx (buf : usbbuf) (n : Z) : UM unit :=
  usbPrepareReceive 0 buf n ;;;
  kern chSysLockFromIsr ;;;
  usbStartReceiveI 0 ;;;
  kern chSysUnlockFromIsr.

Definition run_hook : UM bool :=
  let! c := drv usb_config in
  let! c := deref c "config" in
  match requests_hook_cb c with
  | Some fn => user_hook fn
  | None => mret' false
  end.

Definition handle_request : UM bool :=
  let! handled := run_hook in
  if handled then mret' true
  else
    let! d := drv id in
    if negb (setup_byte d 0 .& USB_RTYPE_TYPE_MASK =? USB_RTYPE_TYPE_STD) then mret' false
    else default_handler.

Definition _usb_ep0setup (ep : Z) : UM unit :=
  set_usb (set_usb_ep0state USB_EP0_WAITING_SETUP) ;;;
  usbReadSetup ep ;;;
  let! ok := handle_request in
  if negb ok then ep0_error
  else
    let! d := drv id in
    let max := usbFetchWord d 6 in
    (if max <? usb_ep0n d then set_usb (set_usb_ep0n max) else mret' tt) ;;;
    let! d := drv id in
    if setup_byte d 0 .& USB_RTYPE_DIR_MASK =? USB_RTYPE_DIR_DEV2HOST then
      if 0 <? usb_ep0n d then
        set_usb (set_usb_ep0state USB_EP0_TX) ;;;
        ep0_start_tx (usb_ep0next d) (usb_ep0n d)
      else
        set_usb (set_usb_ep0state USB_EP0_WAITING_STS) ;;;
        ep0_start_rx UB_null 0
    else
      if 0 <? usb_ep0n d then
        set_usb (set_usb_ep0state USB_EP0_RX) ;;;
        ep0_start_rx (usb_ep0next d) (usb_ep0n d)
      else
        set_usb (set_usb_ep0state USB_EP0_SENDING_STS) ;;;
        ep0_start_tx UB_null 0.

Definition run_endcb : UM unit :=
  let! cb := drv usb_ep0endcb in
  match cb with
  | None => mret' tt
  | Some CB_set_address => set_address
  | Some (CB_user fn) => user_callback fn
  end.

(** Receiving the zero sized status packet. *)
Definition ep0_wait_status : UM unit :=
  set_usb (set_usb_ep0state USB_EP0_WAITING_STS) ;;; ep0_start_rx UB_null 0.

Definition ep0_done : UM unit :=
  run_endcb ;;; set_usb (set_usb_ep0state USB_EP0_WAITING_SETUP).

(** A zero size packet ends a transfer that is shorter than requested and a
    multiple of the packet size. *)
Definition needs_zlp (n max maxsize : Z) : UM bool :=
  if n <? max then
    if maxsize =? 0 then fault "division by zero" else mret' (n `mod` maxsize =? 0)
  else mret' false.

Definition _usb_ep0in (ep : Z) : UM unit :=
  let! d := drv id in
  match usb_ep0state d with
  | USB_EP0_TX =>
      let! c := get_epc 0 in
      let! z := needs_zlp (usb_ep0n d) (usbFetchWord d 6) (epc_in_maxsize c) in
      if z then
        ep0_start_tx UB_null 0 ;;;
        set_usb (set_usb_ep0state USB_EP0_WAITING_TX0)
      else ep0_wait_status
  | USB_EP0_WAITING_TX0 => ep0_wait_status
  | USB_EP0_SENDING_STS => ep0_done
  | _ => ep0_error
  end.

Definition _usb_ep0out (ep : Z) : UM unit :=
  let! d := drv id in
  match usb_ep0state d with
  | USB_EP0_RX =>
      set_usb (set_usb_ep0state USB_EP0_SENDING_STS) ;;;
      ep0_start_tx UB_null 0
  | USB_EP0_WAITING_STS =>
      let! n := usbGetReceiveTransactionSizeI 0 in
      if negb (n =? 0) then ep0_error else ep0_done
  | _ => ep0_error
  end.

(** ** Endpoint callbacks, called by the interrupt handler *)

Definition epcallback (cb : option usbepcallback_t) (ep : Z) : UM unit :=
  match cb with
  | None => fault "callback"
  | Some ECB_ep0setup => _usb_ep0setup ep
  | Some ECB_ep0in => _usb_ep0in ep
  | Some ECB_ep0out => _usb_ep0out ep
  | Some (ECB_user fn) => user_epcallback fn ep
  end.

Definition _usb_isr_invoke_setup_cb (ep : Z) : UM unit :=
  let! c := get_epc ep in epcallback (epc_setup_cb c) ep.

Definition _usb_isr_invoke_in_cb (ep : Z) : UM unit :=
  set_usb (fun d => set_usb_transmitting
    (u16 (usb_transmitting d .& Z.lnot (Z.shiftl 1 ep))) d) ;;;
  let! c := get_epc ep in epcallback (epc_in_cb c) ep.

Definition _usb_isr_invoke_out_cb (ep : Z) : UM unit :=
  set_usb (fun d => set_usb_receiving
    (u16 (usb_receiving d .& Z.lnot (Z.shiftl 1 ep))) d) ;;;
  let! c := get_epc ep in epcallback (epc_out_cb c) ep.
End Defs.
