(* ===== verification/USBOK.v ===== *)
(** * USB driver: the control endpoint

    The invariant of the control endpoint state machine and the proof that
    every event keeps it, whatever the host sends and whatever other
    interrupt handlers do to the kernel while a handler has the lock
    released. *)
From S2P Require Import Prelude Monad Types USBTypes USBLld USB.

Implicit Types (w : usbw) (d : USBDriver) (ep n : Z).

(** ** Handler context *)

Section Ctx.
Context `{Config}.

(** In an interrupt handler, outside of the lock, and inside of it. *)
Definition in_isr w : Prop :=
  CH_DBG_SYSTEM_STATE_CHECK = true -> 0 < k_isr_cnt (w_k w) /\ k_lock_cnt (w_k w) = 0.
Definition in_isr_locked w : Prop :=
  CH_DBG_SYSTEM_STATE_CHECK = true -> 0 < k_isr_cnt (w_k w) /\ 0 < k_lock_cnt (w_k w).

(** What can happen to the world where a handler has released the lock: only
    handlers of higher priority run, which do not use the driver; the
    peripheral can change its registers. *)
Definition usb_rely (p : susp) w w' : Prop :=
  w_usb w' = w_usb w /\ w_ep w' = w_ep w /\ w_setup w' = w_setup w /\
  (in_isr w -> in_isr w').

Definition usb_grd (p : susp) w : Prop := in_isr w.

Abbreviation usafe Q o := (osafe usb_grd usb_rely Q o).

Lemma lock_from_isr w :
  in_isr w -> exists k, kern chSysLockFromIsr w = Done tt (set_w_k k w) /\
                        in_isr_locked (set_w_k k w).
Proof.
  unfold in_isr, in_isr_locked, kern, chSysLockFromIsr, dbg_check_lock_from_isr, dbg_check,
    dbg_enter_lock, bind. intros HI.
  destruct CH_DBG_SYSTEM_STATE_CHECK; simpl; [|eexists; split; [reflexivity|done]].
  destruct HI as [H1 H2]; [done|]. rewrite H2, (proj2 (Z.leb_gt _ _)) by done. simpl.
  eexists. split; [reflexivity|]. simpl. intros _. lia.
Qed.

(** The lock is released in a state of the handler; whatever runs then leaves
    its own. *)
Lemma unlock_isr_suspends w :
  in_isr_locked w -> exists k,
    oeq (kern chSysUnlockFromIsr w) (Suspend AtUnlock (set_w_k k w) (fun w' => Done tt w')) /\ in_isr (set_w_k k w).
Proof.
  unfold in_isr_locked, in_isr, kern, chSysUnlockFromIsr, dbg_check_unlock_from_isr, dbg_check,
    dbg_leave_lock, bind. intros HI.
  destruct CH_DBG_SYSTEM_STATE_CHECK; simpl.
  - destruct HI as [H1 H2]; [done|].
    rewrite (proj2 (Z.leb_gt (k_isr_cnt _) _)), (proj2 (Z.leb_gt (k_lock_cnt _) _)) by done. simpl.
    eexists. split; [constructor; intros w'; by destruct w'|]. simpl. intros _. lia.
  - eexists. split; [constructor; intros w'; by destruct w'|done].
Qed.

Lemma unlock_from_isr w (Q : unit -> usbw -> Prop) :
  in_isr_locked w ->
  (forall w', w_usb w' = w_usb w -> w_ep w' = w_ep w -> w_setup w' = w_setup w ->
     in_isr w' -> Q tt w') ->
  usafe Q (kern chSysUnlockFromIsr w).
Proof.
  intros HI HQ. destruct (unlock_isr_suspends w HI) as (k & -> & Hk).
  split; [exact Hk|]. intros w' (Hu & He & Hs & Hi). apply HQ; auto.
Qed.

Lemma class_I_isr {A} (k : unit -> M usbw A) w :
  in_isr_locked w -> (let! x := kern chDbgCheckClassI in k x) w = k tt w.
Proof.
  intros HI. unfold bind, kern. rewrite chDbgCheckClassI_ok.
  - simpl. by destruct w.
  - intros Hc. destruct (HI Hc). lia.
Qed.
End Ctx.

Abbreviation usafe Q o := (osafe usb_grd usb_rely Q o).

(** ** Busy bits *)

Lemma testbit_0_land t : negb (t .& 1 =? 0) = Z.testbit t 0.
Proof.
  change 1 with (Z.ones 1). rewrite Z.land_ones by lia.
  change (2 ^ 1) with 2. rewrite <- Z.bit0_mod. by destruct (Z.testbit t 0).
Qed.

Lemma lor_1_id t : Z.testbit t 0 = true -> t .| 1 = t.
Proof.
  intros Ht. apply Z.bits_inj'. intros i Hi. rewrite Z.lor_spec.
  destruct (Z.eq_dec i 0) as [->|Hne]; [by rewrite Ht|].
  rewrite (Z.bits_above_log2 1 i), orb_false_r by (simpl; lia). done.
Qed.

Lemma lor_range n a b : 0 <= n -> 0 <= a < 2^n -> 0 <= b < 2^n -> 0 <= a .| b < 2^n.
Proof.
  intros Hn Ha Hb. assert (a .| b = (a .| b) `mod` 2^n) as ->.
  { by rewrite <- Z.land_ones, Z.land_lor_distr_l, !Z.land_ones, !Z.mod_small by done. }
  apply Z.mod_pos_bound. lia.
Qed.

(** ** Operations that only write registers *)

Definition only_regs (m : M usbw unit) : Prop :=
  forall w, exists r, m w = Done tt (set_w_otg r w).

Lemma only_regs_bind m1 m2 : only_regs m1 -> only_regs m2 -> only_regs (m1 ;;; m2).
Proof.
  intros H1 H2 w. destruct (H1 w) as [r1 E1]. destruct (H2 (set_w_otg r1 w)) as [r2 E2].
  exists r2. unfold bind. rewrite E1. simpl. rewrite E2. by destruct w.
Qed.

Lemma only_regs_wr r v : only_regs (wr r v).
Proof. intros w. by eexists. Qed.
Lemma only_regs_wr_or r v : only_regs (wr_or r v).
Proof. intros w. by eexists. Qed.
Lemma only_regs_wr_clear r v : only_regs (wr_clear r v).
Proof. intros w. by eexists. Qed.
Lemma only_regs_on f : only_regs (on_regs f).
Proof. intros w. by eexists. Qed.
Lemma only_regs_ret : only_regs (mret' tt).
Proof. intros w. exists (w_otg w). by destruct w. Qed.
#[export] Hint Resolve only_regs_bind only_regs_wr only_regs_wr_or only_regs_wr_clear
  only_regs_on only_regs_ret : chibi.

Lemma regs_bind {A} m (k : unit -> M usbw A) w :
  only_regs m -> exists r, (let! x := m in k x) w = k tt (set_w_otg r w).
Proof. intros Hm. destruct (Hm w) as [r E]. exists r. unfold bind. by rewrite E. Qed.

(** [get_epc 0] once the peripheral has been reset. *)
Lemma epc0_bind {A} (k : USBEndpointConfig -> M usbw A) w :
  usb_epc (w_usb w) 0 = Some ep0config -> (let! c := get_epc 0 in k c) w = k ep0config w.
Proof. intros E. unfold bind, get_epc. simpl. by rewrite E. Qed.

Lemma prepare_receive_0 w :
  usb_epc (w_usb w) 0 = Some ep0config ->
  exists r, usb_lld_prepare_receive 0 w = Done tt (set_w_otg r w).
Proof. intros E. unfold usb_lld_prepare_receive. rewrite epc0_bind by done. by eexists. Qed.

Lemma prepare_transmit_0 w :
  usb_epc (w_usb w) 0 = Some ep0config ->
  exists r, usb_lld_prepare_transmit 0 w = Done tt (set_w_otg r w).
Proof.
  intros E. unfold usb_lld_prepare_transmit. rewrite epc0_bind by done.
  unfold bind, deref, gets. simpl. destruct (ep_size _ =? 0); by eexists.
Qed.

Section Start.
Context `{Config}.

Lemma bit_busy t : negb (t .& Z.shiftl 1 0 =? 0) = Z.testbit t 0.
Proof. apply testbit_0_land. Qed.

Lemma u16_lor_1 t : 0 <= t < 2^16 -> u16 (t .| Z.shiftl 1 0) = t .| 1.
Proof. intros Ht. apply Z.mod_small, lor_range; simpl; lia. Qed.

(** Starting a transfer on endpoint 0 sets its busy bit; a transfer already
    started goes on. *)
Lemma start_transmit_0 w :
  in_isr_locked w -> 0 <= usb_transmitting (w_usb w) < 2^16 ->
  exists b r, usbStartTransmitI 0 w = Done b (set_w_otg r
    (set_w_usb (set_usb_transmitting (usb_transmitting (w_usb w) .| 1) (w_usb w)) w)).
Proof.
  intros HL Ht. unfold usbStartTransmitI. rewrite class_I_isr by done.
  unfold bind at 1, drv, gets. simpl. unfold usbGetTransmitStatusI. rewrite bit_busy.
  destruct (Z.testbit _ 0) eqn:Eb.
  - exists true, (w_otg w). rewrite lor_1_id by done. by destruct w as [? []].
  - unfold bind at 1, set_usb, modify, upd_usb. cbn [obind]. cbn [id].
    rewrite u16_lor_1 by done.
    edestruct (regs_bind (usb_lld_start_in 0) (fun _ => mret' false)) as [r E];
      [apply only_regs_bind; auto with chibi|].
    exists false, r. exact E.
Qed.

Lemma start_receive_0 w :
  in_isr_locked w -> 0 <= usb_receiving (w_usb w) < 2^16 ->
  exists b r, usbStartReceiveI 0 w = Done b (set_w_otg r
    (set_w_usb (set_usb_receiving (usb_receiving (w_usb w) .| 1) (w_usb w)) w)).
Proof.
  intros HL Ht. unfold usbStartReceiveI. rewrite class_I_isr by done.
  unfold bind at 1, drv, gets. simpl. unfold usbGetReceiveStatusI. rewrite bit_busy.
  destruct (Z.testbit _ 0) eqn:Eb.
  - exists true, (w_otg w). rewrite lor_1_id by done. by destruct w as [? []].
  - unfold bind at 1, set_usb, modify, upd_usb. cbn [obind]. cbn [id].
    rewrite u16_lor_1 by done.
    edestruct (regs_bind (usb_lld_start_out 0) (fun _ => mret' false)) as [r E];
      [unfold usb_lld_start_out; auto with chibi|].
    exists false, r. exact E.
Qed.

Lemma ep0_start_tx_safe buf n w (Q : unit -> usbw -> Prop) :
  in_isr w -> usb_epc (w_usb w) 0 = Some ep0config ->
  0 <= usb_transmitting (w_usb w) < 2^16 ->
  (forall w', in_isr w' ->
     w_usb w' = set_usb_transmitting (usb_transmitting (w_usb w) .| 1) (w_usb w) ->
     w_ep w' EP0_STATE = mkEpS false n 0 (EM_linear buf 0) -> w_setup w' = w_setup w ->
     Q tt w') ->
  usafe Q (ep0_start_tx buf n w).
Proof.
  intros HI He Ht HQ. unfold ep0_start_tx, usbPrepareTransmit. unfold bind at 1.
  rewrite epc0_bind by done. unfold bind at 1. simpl. unfold bind at 1, modify. cbn [obind].
  edestruct (prepare_transmit_0
    (upd_ep EP0_STATE (fun _ => mkEpS false n 0 (EM_linear buf 0)) w)) as [r ->]; [done|].
  cbn [obind]. unfold bind at 1.
  edestruct lock_from_isr as (k & -> & HL); [|cbn [obind]].
  { intros Hc. by apply HI. }
  unfold bind. edestruct start_transmit_0 as (b & r' & ->); [exact HL|done|]. cbn [obind].
  apply unlock_from_isr; [exact HL|]. simpl. intros w' Hu Hep Hs Hi.
  apply HQ; [done|exact Hu| |exact Hs]. rewrite Hep. unfold upd_ep. simpl. by fn_simpl.
Qed.

Lemma u32_or_bit v m i : 0 <= i < 32 -> Z.testbit m i = true -> Z.testbit (u32 (v .| m)) i = true.
Proof. intros Hi Hm. unfold u32. by rewrite Z.mod_pow2_bits_low, Z.lor_spec, Hm, orb_true_r by lia. Qed.

(** The registers of endpoint 0 of a transmission of [n] bytes that has been
    started: the sizes are set, the endpoint is enabled and answers, and the
    interrupt that asks for the data is enabled. *)
Record in_started (n : Z) w : Prop := {
  is_size : w_otg w (DIEPTSIZ 0) = u32 (Z.shiftl ((n + 63) / 64) 19 .| n);
  is_enabled : Z.testbit (w_otg w (DIEPCTL 0)) 31 = true;
  is_nak : Z.testbit (w_otg w (DIEPCTL 0)) 26 = true;
  is_mask : Z.testbit (w_otg w DIEPEMPMSK) 0 = true
}.

(** On an endpoint that is not transmitting, up to the release of the lock. *)
Lemma ep0_start_tx_starts buf n w :
  in_isr w -> usb_epc (w_usb w) 0 = Some ep0config ->
  0 <= usb_transmitting (w_usb w) < 2^16 -> Z.testbit (usb_transmitting (w_usb w)) 0 = false -> 0 < n < 2^16 ->
  exists y, oeq (ep0_start_tx buf n w) (Suspend AtUnlock y (fun w' => Done tt w')) /\ in_isr y /\
    w_usb y = set_usb_transmitting (usb_transmitting (w_usb w) .| 1) (w_usb w) /\
    w_ep y EP0_STATE = mkEpS false n 0 (EM_linear buf 0) /\ w_setup y = w_setup w /\ in_started n y.
Proof.
  intros HI He Ht Hb Hn. unfold ep0_start_tx, usbPrepareTransmit. unfold bind at 1.
  rewrite epc0_bind by done. unfold bind at 1. simpl. unfold bind at 1, modify. cbn [obind].
  set (w1 := upd_ep EP0_STATE (fun _ => mkEpS false n 0 (EM_linear buf 0)) w).
  set (w2 := upd_reg (DIEPTSIZ 0) (u32 (Z.shiftl ((n + 63) / 64) 19 .| n)) w1).
  assert (usb_lld_prepare_transmit 0 w1 = Done tt w2) as ->.
  { unfold usb_lld_prepare_transmit. rewrite epc0_bind by done. unfold bind, deref, gets. simpl. fn_simpl. simpl.
    rewrite (proj2 (Z.eqb_neq n 0)) by lia. unfold packets. simpl. unfold wr, modify, w2, DIEPTSIZ_PKTCNT, DIEPTSIZ_XFRSIZ.
    replace (n + 64 - 1) with (n + 63) by lia. rewrite (u32_small (n + 63)) by (unfold is_u32; lia).
    rewrite (u32_small ((n + 63) / 64)); [done|]. unfold is_u32. pose proof (Z.div_mod (n + 63) 64 ltac:(lia)).
    pose proof (Z.mod_pos_bound (n + 63) 64 ltac:(lia)). lia. }
  cbn [obind]. unfold bind at 1.
  destruct (lock_from_isr w2) as (k & -> & HL); [intros Hc; by apply HI|]. cbn [obind]. set (w3 := set_w_k k w2) in *.
  unfold bind at 1.
  set (w4 := set_w_usb (set_usb_transmitting (usb_transmitting (w_usb w) .| 1) (w_usb w)) w3).
  set (w5 := upd_reg (DIEPCTL 0) (u32 (w_otg w4 (DIEPCTL 0) .| (DIEPCTL_EPENA .| DIEPCTL_CNAK))) w4).
  set (w6 := upd_reg DIEPEMPMSK (u32 (w_otg w5 DIEPEMPMSK .| DIEPEMPMSK_INEPTXFEM 0)) w5).
  assert (usbStartTransmitI 0 w3 = Done false w6) as ->.
  { unfold usbStartTransmitI. rewrite class_I_isr by exact HL. unfold bind at 1, drv, gets. cbn [obind id].
    unfold usbGetTransmitStatusI. rewrite bit_busy. change (w_usb w3) with (w_usb w). rewrite Hb.
    unfold bind at 1, set_usb, modify, upd_usb. cbn [obind]. change (w_usb w3) with (w_usb w).
    by rewrite u16_lor_1 by done. }
  cbn [obind]. destruct (unlock_isr_suspends w6) as (k' & E & Hk); [exact HL|].
  exists (set_w_k k' w6). split; [exact E|]. split_and!; try done.
  split; unfold w6, w5; cbn [w_otg set_w_k upd_reg set_w_otg].
  - rewrite !fn_insert_ne by done. unfold w4, w3, w2. cbn [w_otg set_w_k set_w_usb upd_reg set_w_otg]. by rewrite fn_insert_eq.
  - rewrite fn_insert_ne, fn_insert_eq by done. by apply u32_or_bit.
  - rewrite fn_insert_ne, fn_insert_eq by done. by apply u32_or_bit.
  - rewrite fn_insert_eq. by apply u32_or_bit.
Qed.

Lemma ep0_start_rx_safe buf n w (Q : unit -> usbw -> Prop) :
  in_isr w -> usb_epc (w_usb w) 0 = Some ep0config ->
  0 <= usb_receiving (w_usb w) < 2^16 ->
  (forall w', in_isr w' ->
     w_usb w' = set_usb_receiving (usb_receiving (w_usb w) .| 1) (w_usb w) ->
     w_ep w' EP0_STATE = mkEpS false n 0 (EM_linear buf 0) -> w_setup w' = w_setup w ->
     Q tt w') ->
  usafe Q (ep0_start_rx buf n w).
Proof.
  intros HI He Ht HQ. unfold ep0_start_rx, usbPrepareReceive. unfold bind at 1.
  rewrite epc0_bind by done. unfold bind at 1. simpl. unfold bind at 1, modify. cbn [obind].
  edestruct (prepare_receive_0
    (upd_ep EP0_STATE (fun _ => mkEpS false n 0 (EM_linear buf 0)) w)) as [r ->]; [done|].
  cbn [obind]. unfold bind at 1.
  edestruct lock_from_isr as (k & -> & HL); [|cbn [obind]].
  { intros Hc. by apply HI. }
  unfold bind. edestruct start_receive_0 as (b & r' & ->); [exact HL|done|]. cbn [obind].
  apply unlock_from_isr; [exact HL|]. simpl. intros w' Hu Hep Hs Hi.
  apply HQ; [done|exact Hu| |exact Hs]. rewrite Hep. unfold upd_ep. simpl. by fn_simpl.
Qed.
End Start.

(** ** Well-formed driver states *)

Section Inv.
Context `{Config}.

Definition wLength d : Z := usbFetchWord d 6.
Definition dev2host d : Prop := setup_byte d 0 .& USB_RTYPE_DIR_MASK = USB_RTYPE_DIR_DEV2HOST.

(** What the handlers rely on: they run in a handler, the driver has been
    started and reset, and its fields are in range. *)
Record uctx w : Prop := {
  ux_isr : in_isr w;
  ux_config : is_Some (usb_config (w_usb w));
  ux_epc0 : usb_epc (w_usb w) 0 = Some ep0config;
  ux_setup : length (usb_setup (w_usb w)) = 8%nat /\ Forall is_u8 (usb_setup (w_usb w));
  ux_tx : 0 <= usb_transmitting (w_usb w) < 2^16;
  ux_rx : 0 <= usb_receiving (w_usb w) < 2^16;
  ux_n : 0 <= usb_ep0n (w_usb w)
}.

Definition dev_ok d : Prop :=
  usb_state d <> USB_UNINIT /\ usb_state d <> USB_STOP /\
  (usb_state d = USB_ACTIVE -> usb_configuration d <> 0).

(** The stage of the control transfer agrees with the direction of the
    request, the endpoint is busy with it, and the data stage moves at most
    [wLength] bytes. *)
Definition ep0_ok w : Prop :=
  let d := w_usb w in
  let size := ep_size (w_ep w EP0_STATE) in
  match usb_ep0state d with
  | USB_EP0_TX => usbGetTransmitStatusI d 0 = true /\ dev2host d /\
                  0 < usb_ep0n d <= wLength d /\ size = usb_ep0n d
  | USB_EP0_WAITING_TX0 => usbGetTransmitStatusI d 0 = true /\ dev2host d /\ size = 0
  | USB_EP0_WAITING_STS => usbGetReceiveStatusI d 0 = true /\ dev2host d /\ size = 0
  | USB_EP0_RX => usbGetReceiveStatusI d 0 = true /\ ~ dev2host d /\
                  0 < usb_ep0n d <= wLength d /\ size = usb_ep0n d
  | USB_EP0_SENDING_STS => usbGetTransmitStatusI d 0 = true /\ ~ dev2host d /\ size = 0
  | USB_EP0_WAITING_SETUP | USB_EP0_ERROR => True
  end.

Record usb_inv w : Prop := {
  ui_ctx : uctx w;
  ui_dev : dev_ok (w_usb w);
  ui_ep0 : ep0_ok w
}.

(** What a callback of the application leaves alone: the control transfer in
    progress (but for the transfer it may set up) and the device state. *)
Definition ctl_same d d' : Prop :=
  usb_config d' = usb_config d /\ usb_setup d' = usb_setup d /\
  usb_state d' = usb_state d /\ usb_configuration d' = usb_configuration d /\
  usb_ep0state d' = usb_ep0state d.
Definition cb_post w w' : Prop := uctx w' /\ ctl_same (w_usb w) (w_usb w').

Class UsbAppOK `{UsbApp} : Prop := {
  event_ok fn e w : uctx w -> usafe (fun _ w' => cb_post w w') (user_event fn e w);
  descriptor_ok fn t i l w : uctx w ->
    usafe (fun r w' => cb_post w w' /\
      (forall dp, r = Some dp -> 0 <= ud_size dp)) (user_get_descriptor fn t i l w);
  hook_ok fn w : uctx w -> usafe (fun _ w' => cb_post w w') (user_hook fn w);
  callback_ok fn w : uctx w -> usafe (fun _ w' => cb_post w w') (user_callback fn w)
}.

Context `{UsbApp} `{!UsbAppOK}.

Lemma uctx_usb f w :
  uctx w ->
  usb_config (f (w_usb w)) = usb_config (w_usb w) ->
  usb_epc (f (w_usb w)) = usb_epc (w_usb w) ->
  usb_setup (f (w_usb w)) = usb_setup (w_usb w) ->
  0 <= usb_transmitting (f (w_usb w)) < 2^16 ->
  0 <= usb_receiving (f (w_usb w)) < 2^16 ->
  0 <= usb_ep0n (f (w_usb w)) ->
  uctx (upd_usb f w).
Proof.
  intros [] E1 E2 E3 ???. split; unfold upd_usb; simpl; rewrite ?E1, ?E2, ?E3; try done.
Qed.

Lemma uctx_regs r w : uctx w -> uctx (set_w_otg r w).
Proof. intros []. by split. Qed.

Lemma fetch_range d i : 0 <= usbFetchWord d i \/ ~ Forall is_u8 (usb_setup d).
Proof.
  destruct (decide (Forall (fun x => 0 <= x < 2^8) (usb_setup d))) as [Hf|Hf]; [left|by right].
  assert (forall j, 0 <= setup_byte d j) as Hb.
  { intros j. unfold setup_byte. destruct (nth_in_or_default j (usb_setup d) 0) as [Hin| ->];
      [|lia]. rewrite List.Forall_forall in Hf. apply Hf in Hin. lia. }
  unfold usbFetchWord. apply Z.lor_nonneg. split; [apply Hb|].
  apply Z.shiftl_nonneg, Hb.
Qed.

Lemma wLength_nonneg w : uctx w -> 0 <= wLength (w_usb w).
Proof. intros []. destruct (fetch_range (w_usb w) 6); tauto. Qed.

Lemma event_cb_safe e w :
  uctx w -> usafe (fun _ w' => cb_post w w') (_usb_isr_invoke_event_cb e w).
Proof.
  intros Hw. unfold _usb_isr_invoke_event_cb, bind, drv, gets. cbn [obind].
  destruct (ux_config _ Hw) as [c ->]. simpl. destruct (event_cb c); simpl.
  - by apply event_ok.
  - by split.
Qed.

(** The state after the request has been handled. *)
Definition req_post w w' : Prop :=
  uctx w' /\ dev_ok (w_usb w') /\ usb_setup (w_usb w') = usb_setup (w_usb w) /\
  usb_config (w_usb w') = usb_config (w_usb w).

Lemma setup_transfer_post w0 w buf n cb (Q : bool -> usbw -> Prop) :
  req_post w0 w -> 0 <= n -> (forall w', req_post w0 w' -> Q true w') ->
  usafe Q ((usbSetupTransfer buf n cb ;;; mret' true) w).
Proof.
  intros (Hc & Hd & Hs & Hf) Hn HQ. simpl. apply HQ. destruct Hc.
  split_and!; [|exact Hd|exact Hs|exact Hf]. apply uctx_usb; simpl; try done.
Qed.

Lemma dev_ok_same d d' : ctl_same d d' -> dev_ok d -> dev_ok d'.
Proof. intros (_ & _ & E1 & E2 & _). unfold dev_ok. by rewrite E1, E2. Qed.

Lemma cb_post_req w0 w w' : req_post w0 w -> cb_post w w' -> req_post w0 w'.
Proof.
  intros (Hc & Hd & Hs & Hf) [Hc' Hsame]. split_and!; [done|by eapply dev_ok_same| |].
  - destruct Hsame as (_ & -> & _). done.
  - destruct Hsame as (-> & _). done.
Qed.

Lemma req_post_usb f w0 w :
  req_post w0 w ->
  usb_config (f (w_usb w)) = usb_config (w_usb w) ->
  usb_epc (f (w_usb w)) = usb_epc (w_usb w) ->
  usb_setup (f (w_usb w)) = usb_setup (w_usb w) ->
  usb_transmitting (f (w_usb w)) = usb_transmitting (w_usb w) ->
  usb_receiving (f (w_usb w)) = usb_receiving (w_usb w) ->
  usb_ep0n (f (w_usb w)) = usb_ep0n (w_usb w) ->
  dev_ok (f (w_usb w)) ->
  req_post w0 (upd_usb f w).
Proof.
  intros (Hc & Hd & Hs & Hf) E1 E2 E3 E4 E5 E6 Hd'. split_and!.
  - destruct Hc. apply uctx_usb; rewrite ?E4, ?E5, ?E6; done.
  - exact Hd'.
  - unfold upd_usb. simpl. congruence.
  - unfold upd_usb. simpl. congruence.
Qed.

Lemma req_post_regs r w0 w : req_post w0 w -> req_post w0 (set_w_otg r w).
Proof. intros (Hc & ?). split; [by apply uctx_regs|done]. Qed.

Lemma regs_transfer m w0 w buf n cb (Q : bool -> usbw -> Prop) :
  only_regs m -> req_post w0 w -> 0 <= n -> (forall w', req_post w0 w' -> Q true w') ->
  usafe Q ((m ;;; usbSetupTransfer buf n cb ;;; mret' true) w).
Proof.
  intros Hm Hw Hn HQ. destruct (regs_bind m (fun _ => usbSetupTransfer buf n cb ;;; mret' true) w Hm) as [r ->].
  eapply setup_transfer_post; [|done|done]. by apply req_post_regs.
Qed.

(** ** Requests *)

Context `{OtgHw}.

Lemma set_address_safe w0 w :
  req_post w0 w -> usafe (fun _ w' => req_post w0 w') (set_address w).
Proof.
  intros Hw. unfold set_address. unfold bind at 1, set_usb, modify. cbn [obind].
  match goal with |- usafe _ (_ ?x) => set (w1 := x) end.
  assert (req_post w0 w1) as P1.
  { destruct Hw as (Hc & Hd & ?). apply req_post_usb; try done. }
  clearbody w1. clear Hw. unfold bind at 1.
  assert (only_regs (usb_lld_set_address)) as Hr by (intros x; by eexists).
  destruct (Hr w1) as [r ->]. cbn [obind]. apply osafe_bind.
  eapply osafe_mono; [|apply event_cb_safe; eapply uctx_regs, P1].
  intros ? w2 P2. simpl. eapply cb_post_req in P2; [|by apply req_post_regs].
  destruct P2 as (Hc & Hd & ?). apply req_post_usb; try done.
Qed.

Lemma default_handler_safe w :
  uctx w -> dev_ok (w_usb w) -> usafe (fun _ w' => req_post w w') (default_handler w).
Proof.
  intros Hc Hd. assert (req_post w w) as Hw by done.
  unfold default_handler. unfold bind at 1, drv, gets. cbn [obind]. cbn zeta.
  repeat match goal with
  | |- usafe _ ((if ?b then _ else _) _) => destruct b
  | |- usafe _ (mret' false _) => exact Hw
  | |- usafe _ ((usbSetupTransfer _ _ _ ;;; mret' true) _) =>
      apply (setup_transfer_post w); [exact Hw|lia|auto]
  end.
  - unfold bind at 1, set_usb, modify. cbn [obind].
    apply (setup_transfer_post w); [|lia|auto]. by apply req_post_usb.
  - unfold bind at 1, set_usb, modify. cbn [obind].
    apply (setup_transfer_post w); [|lia|auto]. by apply req_post_usb.
  - apply osafe_bind. apply (osafe_mono _ _ (fun _ w' => req_post w w')).
    + intros ? w1 P1. by apply (setup_transfer_post w).
    + destruct (_ && _); [by apply set_address_safe|exact Hw].
  - destruct (ux_config _ Hc) as [c Ec]. simpl. unfold id. rewrite Ec.
    unfold bind at 1, deref, mret'. cbn [obind]. apply osafe_bind.
    eapply osafe_mono; [|by apply descriptor_ok]. intros [dp|] w1 [P1 Hn].
    + apply (setup_transfer_post w); [by eapply cb_post_req|by apply Hn|auto].
    + simpl. by eapply cb_post_req.
  - unfold bind at 1, set_usb, modify. cbn [obind].
    unfold bind at 1. cbn [obind]. apply osafe_bind.
    match goal with |- usafe _ (_ ?x) => set (w1 := x) end.
    assert (req_post w w1) as P1.
    { change (req_post w (upd_usb (fun d => set_usb_state
        (if usb_configuration (set_usb_configuration (setup_byte d 2) d) =? 0
         then USB_SELECTED else USB_ACTIVE) (set_usb_configuration (setup_byte d 2) d)) w)).
      apply req_post_usb; try done. unfold dev_ok. simpl.
      destruct (setup_byte (w_usb w) 2 =? 0) eqn:E; split_and!; try done.
      intros _. by apply Z.eqb_neq. }
    eapply osafe_mono; [|apply event_cb_safe, P1]. intros ? w2 P2.
    apply (setup_transfer_post w); [by eapply cb_post_req|lia|auto].
  - apply osafe_bind. destruct (negb _); simpl; (destruct (ctl_status _); [exact Hw| |]);
      by apply (setup_transfer_post w).
  - apply (regs_transfer _ w); [|exact Hw|lia|auto].
    repeat case_match; unfold usb_lld_clear_in, usb_lld_clear_out; auto with chibi.
  - apply (regs_transfer _ w); [|exact Hw|lia|auto].
    repeat case_match; unfold usb_lld_stall_in, usb_lld_stall_out; auto with chibi.
Qed.

(** ** The callbacks of the control endpoint *)

Lemma inv_idle w : uctx w -> dev_ok (w_usb w) ->
  usb_ep0state (w_usb w) = USB_EP0_WAITING_SETUP \/ usb_ep0state (w_usb w) = USB_EP0_ERROR ->
  usb_inv w.
Proof. intros Hc Hd Hs. split; [done|done|]. unfold ep0_ok. by destruct Hs as [-> | ->]. Qed.

Lemma uctx_st st w : uctx w -> uctx (upd_usb (set_usb_ep0state st) w).
Proof. intros Hw. apply uctx_usb; try done; apply Hw. Qed.

Lemma ep0_error_safe w :
  uctx w -> dev_ok (w_usb w) ->
  usafe (fun _ w' => usb_inv w' /\ usb_ep0state (w_usb w') = USB_EP0_ERROR) (ep0_error w).
Proof.
  intros Hc Hd. unfold ep0_error. unfold bind at 1.
  destruct (only_regs_wr_or (DIEPCTL 0) DIEPCTL_STALL w) as [r1 E1].
  unfold usb_lld_stall_in. rewrite E1. cbn [obind]. unfold bind at 1.
  destruct (only_regs_wr_or (DOEPCTL 0) DOEPCTL_STALL (set_w_otg r1 w)) as [r2 E2].
  unfold usb_lld_stall_out. rewrite E2. cbn [obind]. apply osafe_bind.
  eapply osafe_mono; [|apply event_cb_safe; by apply uctx_regs, uctx_regs].
  intros ? w' [Hc' Hs']. simpl. split; [|done].
  assert (dev_ok (w_usb w')) as Hd' by (eapply dev_ok_same; [exact Hs'|exact Hd]).
  apply inv_idle; [by apply uctx_st|exact Hd'|by right].
Qed.

Lemma bit0_lor t : negb ((t .| 1) .& Z.shiftl 1 0 =? 0) = true.
Proof. rewrite bit_busy, Z.lor_spec. simpl. apply orb_true_r. Qed.

Lemma uctx_tx t w w' :
  uctx w -> in_isr w' -> w_usb w' = set_usb_transmitting t (w_usb w) -> 0 <= t < 2^16 -> uctx w'.
Proof. intros [] HI E Ht. split; rewrite ?E; done. Qed.
Lemma uctx_rx t w w' :
  uctx w -> in_isr w' -> w_usb w' = set_usb_receiving t (w_usb w) -> 0 <= t < 2^16 -> uctx w'.
Proof. intros [] HI E Ht. split; rewrite ?E; done. Qed.
Lemma range_1 t : 0 <= t < 2^16 -> 0 <= t .| 1 < 2^16.
Proof. intros Ht. apply lor_range; lia. Qed.


(** Each stage, started from a state in which the previous one is over. *)
Lemma stage_tx st buf n w :
  uctx w -> dev_ok (w_usb w) ->
  (forall w', w_usb w' = set_usb_transmitting (usb_transmitting (w_usb w) .| 1)
                (set_usb_ep0state st (w_usb w)) ->
     w_ep w' EP0_STATE = mkEpS false n 0 (EM_linear buf 0) -> ep0_ok w') ->
  usafe (fun _ w' => usb_inv w') ((set_usb (set_usb_ep0state st) ;;; ep0_start_tx buf n) w).
Proof.
  intros Hc Hd HQ. unfold bind, set_usb, modify. cbn [obind].
  pose proof (uctx_st st w Hc) as Hc'. apply ep0_start_tx_safe; try apply Hc'.
  intros w' HI Hu He _. split.
  - eapply uctx_tx; [exact Hc'|done|exact Hu|]. apply range_1, Hc.
  - rewrite Hu. done.
  - apply HQ; [exact Hu|exact He].
Qed.

Lemma stage_rx st buf n w :
  uctx w -> dev_ok (w_usb w) ->
  (forall w', w_usb w' = set_usb_receiving (usb_receiving (w_usb w) .| 1)
                (set_usb_ep0state st (w_usb w)) ->
     w_ep w' EP0_STATE = mkEpS false n 0 (EM_linear buf 0) -> ep0_ok w') ->
  usafe (fun _ w' => usb_inv w') ((set_usb (set_usb_ep0state st) ;;; ep0_start_rx buf n) w).
Proof.
  intros Hc Hd HQ. unfold bind, set_usb, modify. cbn [obind].
  pose proof (uctx_st st w Hc) as Hc'. apply ep0_start_rx_safe; try apply Hc'.
  intros w' HI Hu He _. split.
  - eapply uctx_rx; [exact Hc'|done|exact Hu|]. apply range_1, Hc.
  - rewrite Hu. done.
  - apply HQ; [exact Hu|exact He].
Qed.

Lemma handle_request_safe w :
  uctx w -> dev_ok (w_usb w) -> usafe (fun _ w' => req_post w w') (handle_request w).
Proof.
  intros Hc Hd. unfold handle_request, run_hook. apply osafe_bind.
  apply (osafe_mono _ _ (fun _ w' => req_post w w')).
  - intros [] w1 (Hc1 & Hd1 & Es & Ec); [done|]. unfold bind, drv, gets. cbn [obind].
    destruct (negb _); [done|]. eapply osafe_mono; [|by apply default_handler_safe].
    intros ? w2 (Hc2 & Hd2 & Es2 & Ec2). split_and!; [done|done|congruence|congruence].
  - unfold bind, drv, gets. cbn [obind]. destruct (ux_config _ Hc) as [c ->]. simpl.
    destruct (requests_hook_cb c); [|done].
    eapply osafe_mono; [|by apply hook_ok]. intros ? w' P. by apply (cb_post_req w w).
Qed.

Lemma ep0setup_safe w :
  uctx w -> dev_ok (w_usb w) ->
  length (w_setup w EP0_SETUP) = 8%nat -> Forall is_u8 (w_setup w EP0_SETUP) ->
  usafe (fun _ w' => usb_inv w') (_usb_ep0setup 0 w).
Proof.
  intros Hc Hd Hl Hf. unfold _usb_ep0setup. unfold bind at 1, set_usb, modify. cbn [obind].
  unfold bind at 1, usbReadSetup, usb_lld_read_setup. rewrite epc0_bind by apply Hc.
  unfold bind at 1 2, deref, gets, mret', set_usb, modify. cbn [obind ep0config epc_setup_buf].
  match goal with |- usafe _ (_ ?x) => set (w1 := x) end.
  assert (uctx w1) as Hc1 by (destruct Hc; by split).
  assert (dev_ok (w_usb w1)) as Hd1 by exact Hd. clearbody w1. clear w Hc Hd Hl Hf.
  apply osafe_bind. eapply osafe_mono; [|by apply handle_request_safe].
  intros [] w2 (Hc2 & Hd2 & _); cbn [negb].
  2:{ eapply osafe_mono; [|by apply ep0_error_safe]. by intros ? ? []. }
  unfold bind at 1, drv at 1, gets. cbn [obind]. unfold id.
  set (m := if _ <? _ then _ else _).
  assert (exists w3, m w2 = Done tt w3 /\ uctx w3 /\ dev_ok (w_usb w3) /\
            0 <= usb_ep0n (w_usb w3) <= wLength (w_usb w3)) as (w3 & E3 & Hc3 & Hd3 & Hn).
  { subst m. pose proof (wLength_nonneg _ Hc2) as Hw. pose proof (ux_n _ Hc2).
    fold (wLength (w_usb w2)). destruct (wLength (w_usb w2) <? usb_ep0n (w_usb w2)) eqn:E.
    - eexists. split; [reflexivity|]. split; [apply uctx_usb; try done; apply Hc2|].
      split; [done|]. simpl. unfold wLength, usbFetchWord, setup_byte in *. simpl. lia.
    - exists w2. split; [done|]. apply Z.ltb_ge in E. auto. }
  unfold bind at 1. rewrite E3. cbn [obind]. clear m E3 w2 Hc2 Hd2.
  unfold bind at 1, drv, gets. cbn [obind]. unfold id.
  destruct (_ =? USB_RTYPE_DIR_DEV2HOST) eqn:Edir; [apply Z.eqb_eq in Edir|apply Z.eqb_neq in Edir];
    (destruct (0 <? usb_ep0n (w_usb w3)) eqn:En; [apply Z.ltb_lt in En|]).
  - apply stage_tx; try done. intros w' Hu He. unfold ep0_ok. rewrite Hu, He. simpl.
    split_and!; try done; [apply bit0_lor|apply Hn].
  - apply stage_rx; try done. intros w' Hu He. unfold ep0_ok. rewrite Hu, He. simpl.
    split_and!; try done. apply bit0_lor.
  - apply stage_rx; try done. intros w' Hu He. unfold ep0_ok. rewrite Hu, He. simpl.
    split_and!; try done; [apply bit0_lor|apply Hn].
  - apply stage_tx; try done. intros w' Hu He. unfold ep0_ok. rewrite Hu, He. simpl.
    split_and!; try done. apply bit0_lor.
Qed.

Lemma ep0_done_safe w :
  uctx w -> dev_ok (w_usb w) -> usafe (fun _ w' => usb_inv w') (ep0_done w).
Proof.
  intros Hc Hd. unfold ep0_done, run_endcb. apply osafe_bind.
  apply (osafe_mono _ _ (fun _ w' => req_post w w')).
  - intros ? w' (Hc' & Hd' & _). simpl. apply inv_idle; [by apply uctx_st|done|by left].
  - unfold bind, drv, gets. cbn [obind]. destruct (usb_ep0endcb _) as [[|fn]|]; [| |done].
    + by apply set_address_safe.
    + eapply osafe_mono; [|by apply callback_ok]. intros ? w' P. by apply (cb_post_req w w).
Qed.

Lemma ep0_wait_status_safe w :
  uctx w -> dev_ok (w_usb w) -> dev2host (w_usb w) ->
  usafe (fun _ w' => usb_inv w') (ep0_wait_status w).
Proof.
  intros Hc Hd Hdir. apply stage_rx; try done. intros w' Hu He.
  unfold ep0_ok. rewrite Hu, He. simpl. split_and!; try done. apply bit0_lor.
Qed.

Lemma u16_range x : 0 <= u16 x < 2^16.
Proof. apply Z.mod_pos_bound. lia. Qed.

Lemma in_cb_safe w : usb_inv w -> usafe (fun _ w' => usb_inv w') (_usb_isr_invoke_in_cb 0 w).
Proof.
  intros [Hc Hd He]. unfold _usb_isr_invoke_in_cb. unfold bind at 1, set_usb, modify. cbn [obind].
  match goal with |- usafe _ (_ ?x) => set (w1 := x) end.
  assert (uctx w1) as Hc1.
  { apply uctx_usb; try done; try apply Hc. apply u16_range. }
  rewrite epc0_bind by apply Hc1. cbn [epcallback ep0config epc_in_cb].
  unfold _usb_ep0in. unfold bind at 1, drv, gets. cbn [obind]. unfold id.
  change (usb_ep0state (w_usb w1)) with (usb_ep0state (w_usb w)). unfold ep0_ok in He.
  assert (dev_ok (w_usb w1)) as Hd1 by exact Hd.
  assert (usafe (fun _ w' => usb_inv w') (ep0_error w1)) as Herr.
  { eapply osafe_mono; [|by apply ep0_error_safe]. by intros ? ? []. }
  destruct (usb_ep0state (w_usb w)); try exact Herr.
  - destruct He as (_ & Hdir & _). rewrite epc0_bind by apply Hc1. unfold needs_zlp.
    destruct (_ <? _); cbn [ep0config epc_in_maxsize]; unfold bind at 1, mret'; cbn [obind];
      [|by apply ep0_wait_status_safe].
    destruct (_ `mod` _ =? 0); [|by apply ep0_wait_status_safe].
    apply osafe_bind. apply ep0_start_tx_safe; try apply Hc1. intros w' HI Hu Hep _. simpl.
    assert (uctx w') as Hc' by (eapply uctx_tx; [exact Hc1|done|exact Hu|apply range_1, Hc1]).
    split; [by apply uctx_st| |].
    + change (dev_ok (w_usb w')). by rewrite Hu.
    + unfold ep0_ok. simpl. rewrite Hu, Hep. split_and!; [apply bit0_lor|exact Hdir|done].
  - apply ep0_wait_status_safe; [done|done|apply He].
  - by apply ep0_done_safe.
Qed.

Lemma out_cb_safe w : usb_inv w -> usafe (fun _ w' => usb_inv w') (_usb_isr_invoke_out_cb 0 w).
Proof.
  intros [Hc Hd He]. unfold _usb_isr_invoke_out_cb. unfold bind at 1, set_usb, modify. cbn [obind].
  match goal with |- usafe _ (_ ?x) => set (w1 := x) end.
  assert (uctx w1) as Hc1.
  { apply uctx_usb; try done; try apply Hc. apply u16_range. }
  rewrite epc0_bind by apply Hc1. cbn [epcallback ep0config epc_out_cb].
  unfold _usb_ep0out. unfold bind at 1, drv, gets. cbn [obind]. unfold id.
  change (usb_ep0state (w_usb w1)) with (usb_ep0state (w_usb w)). unfold ep0_ok in He.
  assert (dev_ok (w_usb w1)) as Hd1 by exact Hd.
  assert (usafe (fun _ w' => usb_inv w') (ep0_error w1)) as Herr.
  { eapply osafe_mono; [|by apply ep0_error_safe]. by intros ? ? []. }
  destruct (usb_ep0state (w_usb w)); try exact Herr.
  - unfold usbGetReceiveTransactionSizeI, usb_lld_get_transaction_size. unfold bind at 1.
    rewrite epc0_bind by apply Hc1. unfold bind at 1, deref, mret', gets.
    cbn [obind ep0config epc_out_state]. destruct (negb _); [exact Herr|by apply ep0_done_safe].
  - destruct He as (_ & Hdir & _). apply stage_tx; try done. intros w' Hu Hep.
    unfold ep0_ok. rewrite Hu, Hep. simpl. split_and!; [apply bit0_lor|exact Hdir|done].
Qed.

Lemma setup_cb_safe w :
  usb_inv w -> length (w_setup w EP0_SETUP) = 8%nat -> Forall is_u8 (w_setup w EP0_SETUP) ->
  usafe (fun _ w' => usb_inv w') (_usb_isr_invoke_setup_cb 0 w).
Proof.
  intros [Hc Hd _] Hl Hf. unfold _usb_isr_invoke_setup_cb. rewrite epc0_bind by apply Hc.
  by apply ep0setup_safe.
Qed.

(** ** Bus reset *)

Lemma reset_eps_regs (n : nat) i : only_regs (reset_eps n i).
Proof.
  revert i. induction n as [|n IH]; intros i; simpl; [apply only_regs_ret|].
  apply only_regs_bind; [|apply IH]. unfold reset_ep. auto with chibi.
Qed.

Ltac regs_step :=
  match goal with
  | |- context [bind ?m ?k ?w] =>
      let r := fresh "r" in
      let E := fresh "E" in
      destruct (regs_bind m (fun x => k x) w) as [r E];
      [solve [auto using reset_eps_regs with chibi]|rewrite E; clear E]
  end.

Lemma usb_lld_reset_eq w : exists r,
  usb_lld_reset w = Done tt (set_w_otg r (upd_usb (fun d =>
    set_usb_pmnext 144 (set_usb_epc (<[0 := Some ep0config]> (usb_epc d)) d)) w)).
Proof.
  unfold usb_lld_reset. do 4 regs_step.
  unfold bind at 1, otg_ram_reset, set_usb, modify. cbn [obind].
  do 2 regs_step. unfold bind at 1, bind at 1. cbn [rd gets obind wr modify].
  do 3 regs_step. unfold bind at 1. cbn [obind].
  do 4 regs_step. unfold otg_ram_alloc, drv, gets, set_usb, modify, kern, bind.
  cbn [obind]. rewrite chDbgAssert_ok by reflexivity. by eexists.
Qed.

Definition started w : Prop :=
  in_isr w /\ is_Some (usb_config (w_usb w)) /\ length (usb_setup (w_usb w)) = 8%nat /\
  Forall is_u8 (usb_setup (w_usb w)) /\ 0 <= usb_ep0n (w_usb w).

Lemma usb_reset_safe w :
  started w ->
  exists w', _usb_reset w = Done tt w' /\ usb_inv w' /\ usb_state (w_usb w') = USB_READY /\
    usb_ep0state (w_usb w') = USB_EP0_WAITING_SETUP.
Proof.
  intros (HI & Hc & Hl & Hf & Hn). unfold _usb_reset, bind, set_usb, modify. cbn [obind].
  destruct (usb_lld_reset_eq (upd_usb (set_usb_ep0state USB_EP0_WAITING_SETUP)
    (upd_usb (clear_epc 0) (upd_usb (fun d => set_usb_receiving 0 (set_usb_transmitting 0
      (set_usb_configuration 0 (set_usb_address 0 (set_usb_status 0
        (set_usb_state USB_READY d)))))) w)))) as [r ->].
  eexists. split; [reflexivity|]. split; [|done]. split; [|done|done].
  split; simpl; try done; lia.
Qed.

Lemma inv_started w : usb_inv w -> started w.
Proof. intros [[] _ _]. unfold started. tauto. Qed.

(** ** The driver as a state machine

    An event is what the interrupt handler [usb_lld_serve_interrupt()] does
    on a bus reset, a setup packet, and the end of an IN or OUT transfer on
    endpoint 0.  Between events the pump thread, other threads and the
    peripheral work: a setup packet is stored in its buffer, data is moved,
    and transfers of the other endpoints are started and completed. *)

Definition reset_event : M usbw unit := _usb_reset ;;; _usb_isr_invoke_event_cb USB_EVENT_RESET.

Record between w w' : Prop := {
  bt_isr : in_isr w';
  bt_usb : exists t r, 0 <= t < 2^16 /\ 0 <= r < 2^16 /\
    Z.testbit t 0 = Z.testbit (usb_transmitting (w_usb w)) 0 /\
    Z.testbit r 0 = Z.testbit (usb_receiving (w_usb w)) 0 /\
    w_usb w' = set_usb_transmitting t (set_usb_receiving r (w_usb w));
  bt_ep : ep_size (w_ep w' EP0_STATE) = ep_size (w_ep w EP0_STATE);
  bt_setup : length (w_setup w' EP0_SETUP) = 8%nat /\ Forall is_u8 (w_setup w' EP0_SETUP)
}.

Inductive usb_event : M usbw unit -> Prop :=
  | ev_reset : usb_event reset_event
  | ev_setup : usb_event (_usb_isr_invoke_setup_cb 0)
  | ev_in : usb_event (_usb_isr_invoke_in_cb 0)
  | ev_out : usb_event (_usb_isr_invoke_out_cb 0).

(** A run of a handler to its end, with whatever happens where the lock is
    released. *)
Inductive runs {A} : outcome usbw A -> usbw -> Prop :=
  | runs_done a w : runs (Done a w) w
  | runs_suspend p w k w1 w2 : usb_rely p w w1 -> runs (k w1) w2 -> runs (Suspend p w k) w2.

Inductive usb_step : usbw -> usbw -> Prop :=
  | usb_step_event w w1 w2 ev :
      between w w1 -> usb_event ev -> runs (ev w1) w2 -> usb_step w w2.

Lemma runs_safe {A} (Q : usbw -> Prop) (o : outcome usbw A) w :
  usafe (fun _ w' => Q w') o -> runs o w -> Q w.
Proof.
  intros Ho Hr. induction Hr as [a w|p w k w1 w2 HR _ IH]; [done|].
  simpl in Ho. apply IH, Ho, HR.
Qed.

Lemma between_inv w w' : usb_inv w -> between w w' -> usb_inv w'.
Proof.
  intros [Hc Hd He] [HI (t & r & Ht & Hr & Et & Er & Eu) Es _]. split.
  - destruct Hc. split; rewrite ?Eu; done.
  - by rewrite Eu.
  - unfold ep0_ok, usbGetTransmitStatusI, usbGetReceiveStatusI in *. rewrite Eu, Es. ucbn.
    rewrite !bit_busy in *. rewrite Et, Er. exact He.
Qed.

Lemma reset_event_safe w : started w -> usafe (fun _ w' => usb_inv w') (reset_event w).
Proof.
  intros Hs. unfold reset_event, bind. destruct (usb_reset_safe w Hs) as (w' & -> & Hi & _ & Hr).
  cbn [obind]. eapply osafe_mono; [|apply event_cb_safe, Hi].
  intros ? w2 [Hc Hsame]. apply inv_idle; [done|by eapply dev_ok_same, Hi|].
  left. destruct Hsame as (_ & _ & _ & _ & ->). done.
Qed.

Lemma event_safe ev w :
  usb_event ev -> usb_inv w -> length (w_setup w EP0_SETUP) = 8%nat ->
  Forall is_u8 (w_setup w EP0_SETUP) -> usafe (fun _ w' => usb_inv w') (ev w).
Proof.
  intros [] Hi Hl Hf.
  - by apply reset_event_safe, inv_started.
  - by apply setup_cb_safe.
  - by apply in_cb_safe.
  - by apply out_cb_safe.
Qed.

Lemma usb_step_inv w w' : usb_inv w -> usb_step w w' -> usb_inv w'.
Proof.
  intros Hi Hs. destruct Hs as [w w1 w2 ev Hb Hev Hr].
  apply (runs_safe _ (ev w1)); [|done].
  apply event_safe; [done|by eapply between_inv|apply Hb..].
Qed.
End Inv.
