(* ===== verification/USBThm.v ===== *)
(** * Theorems: the USB driver *)
From stdpp Require Import relations.
From S2P Require Import Prelude Monad Types USBTypes USBLld USB USBOK.
From S2P Require Import Scenario.

Section Descriptor.
Context `{Config} `{UsbApp}.

(** A GET_DESCRIPTOR request: the type byte, and the fields of the packet. *)
Definition get_descriptor (b0 index type l0 l1 n0 n1 : Z) : list Z :=
  [b0; USB_REQ_GET_DESCRIPTOR; index; type; l0; l1; n0; n1].

(** The device has the descriptor [dp] for the request and installs no hook. *)
Record has_descriptor w (b0 index type l0 l1 : Z) dp : Prop := {
  hd_config : exists c, usb_config (w_usb w) = Some c /\ requests_hook_cb c = None /\
    forall w', user_get_descriptor (get_descriptor_cb c) type index (l0 .| Z.shiftl l1 8) w' =
                 Done (Some dp) w';
  hd_std : b0 .& 0x7F = 0;
  hd_size : 0 < ud_size dp
}.

Lemma handle_get_descriptor w dp b0 index type l0 l1 n0 n1 :
  has_descriptor w b0 index type l0 l1 dp ->
  usb_setup (w_usb w) = get_descriptor b0 index type l0 l1 n0 n1 ->
  handle_request w =
    Done true (upd_usb (fun d => set_usb_ep0endcb None (set_usb_ep0n (ud_size dp)
                 (set_usb_ep0next (UB_const (ud_string dp)) d))) w).
Proof.
  intros [(c & Ec & Eh & Hd) Eb Hsz] Es.
  assert (b0 .& 0x60 = 0) as Eb'.
  { change 0x60 with (0x7F .& 0x60). by rewrite Z.land_assoc, Eb. }
  unfold handle_request, run_hook, bind, drv, gets. cbn [obind]. rewrite Ec.
  unfold deref, mret'. cbn [obind]. rewrite Eh. cbn [obind]. unfold id, setup_byte.
  rewrite Es. cbn [nth get_descriptor]. change USB_RTYPE_TYPE_MASK with 0x60. rewrite Eb'.
  cbn [negb Z.eqb USB_RTYPE_TYPE_STD].
  unfold default_handler, bind, drv, gets. cbn [obind]. unfold id, usbFetchWord, setup_byte.
  rewrite Es. cbn [nth get_descriptor].
  change (USB_RTYPE_RECIPIENT_MASK .| USB_RTYPE_TYPE_MASK) with 0x7F. rewrite Eb, Ec.
  simpl. by rewrite Hd.
Qed.

(** The handler up to the start of the data stage. *)
Lemma descriptor_request w dp b0 index type l0 l1 n0 n1 :
  uctx w -> has_descriptor w b0 index type l0 l1 dp ->
  w_setup w EP0_SETUP = get_descriptor b0 index type l0 l1 n0 n1 ->
  Forall is_u8 (w_setup w EP0_SETUP) -> 0 < n0 .| Z.shiftl n1 8 ->
  let n := Z.min (ud_size dp) (n0 .| Z.shiftl n1 8) in
  exists w3, uctx w3 /\ usb_setup (w_usb w3) = get_descriptor b0 index type l0 l1 n0 n1 /\
    usb_state (w_usb w3) = usb_state (w_usb w) /\
    usb_configuration (w_usb w3) = usb_configuration (w_usb w) /\
    usb_ep0n (w_usb w3) = n /\ usb_transmitting (w_usb w3) = usb_transmitting (w_usb w) /\
    _usb_ep0setup 0 w =
      (if b0 .& 0x80 =? 0x80
       then set_usb (set_usb_ep0state USB_EP0_TX) ;;; ep0_start_tx (UB_const (ud_string dp)) n
       else set_usb (set_usb_ep0state USB_EP0_RX) ;;; ep0_start_rx (UB_const (ud_string dp)) n) w3.
Proof.
  intros Hc Hd Es Hf Hmax n.
  unfold _usb_ep0setup. unfold bind at 1, set_usb at 1, modify. cbn [obind].
  unfold bind at 1, usbReadSetup, usb_lld_read_setup. rewrite epc0_bind by apply Hc.
  unfold bind at 1 2, deref, gets, mret', set_usb at 1, modify.
  cbn [obind ep0config epc_setup_buf].
  match goal with |- context [bind handle_request _ ?x] => set (w1 := x) end.
  assert (usb_setup (w_usb w1) = get_descriptor b0 index type l0 l1 n0 n1) as Es1 by exact Es.
  assert (has_descriptor w1 b0 index type l0 l1 dp) as Hd1 by (destruct Hd; by split).
  assert (uctx w1) as Hc1 by (destruct Hc; split; rewrite ?Es1; try done; split; [done|by rewrite <- Es]).
  unfold bind at 1. rewrite (handle_get_descriptor w1 dp b0 index type l0 l1 n0 n1) by done.
  pose proof (hd_size _ _ _ _ _ _ _ Hd) as Hsz.
  cbn [obind negb]. unfold bind at 1, drv at 1, gets. cbn [obind]. unfold id, usbFetchWord,
    setup_byte. ucbn. rewrite Es1. cbn [nth get_descriptor].
  set (m := if _ <? _ then _ else _).
  match goal with |- context [bind m _ ?x] => set (w2 := x) end.
  assert (uctx w2) as Hc2 by (apply uctx_usb; try done; try apply Hc1; ucbn; lia).
  assert (exists w3, m w2 = Done tt w3 /\ uctx w3 /\ usb_ep0n (w_usb w3) = n /\
    usb_setup (w_usb w3) = usb_setup (w_usb w1) /\
    usb_ep0next (w_usb w3) = UB_const (ud_string dp) /\
    usb_state (w_usb w3) = usb_state (w_usb w) /\
    usb_configuration (w_usb w3) = usb_configuration (w_usb w) /\
    usb_transmitting (w_usb w3) = usb_transmitting (w_usb w)) as (w3 & E3 & Hc3 & En & E4 & E5 & E6 & E7 & E8).
  { subst m. destruct (_ <? _) eqn:E.
    - eexists. split; [reflexivity|]. split_and!; try done.
      + apply uctx_usb; try done; try apply Hc2. ucbn. lia.
      + subst w2 n. ucbn. apply Z.ltb_lt in E. lia.
    - exists w2. split; [done|]. split_and!; try done. subst w2 n. ucbn. apply Z.ltb_ge in E. lia. }
  exists w3. split_and!; [done|congruence|done|done|done|done|].
  unfold bind at 1. rewrite E3. cbn [obind]. unfold bind at 1, drv, gets. cbn [obind].
  rewrite E4, Es1, En, E5. cbn [nth get_descriptor].
  change USB_RTYPE_DIR_MASK with 0x80. change USB_RTYPE_DIR_DEV2HOST with 0x80.
  assert (0 < n) as Hn by (subst n; lia). rewrite (proj2 (Z.ltb_lt _ _) Hn).
  by destruct (_ =? _).
Qed.
End Descriptor.

(** ** The control endpoint as a state machine *)

(** C38: whatever sequence of bus resets, setup packets and transfer
    completions follows a bus reset, the stage of the control transfer agrees
    with the direction of the request, endpoint 0 is busy in every stage that
    waits for the host, the data stage moves at most [wLength] bytes, and no
    event makes the driver fail. *)
Theorem usb_ep0_invariant `{Config} `{OtgHw} `{UsbApp} `{!UsbAppOK} w w0 w1 :
  started w -> _usb_reset w = Done tt w0 -> rtc usb_step w0 w1 ->
  usb_inv w1 /\
  (forall ev w2, between w1 w2 -> usb_event ev -> usafe (fun _ w' => usb_inv w') (ev w2)).
Proof.
  intros Hs E Hr. assert (usb_inv w0) as Hi.
  { destruct (usb_reset_safe w Hs) as (w' & E' & Hi & _). rewrite E in E'. by simplify_eq. }
  clear w Hs E. assert (usb_inv w1) as Hi1.
  { induction Hr as [|x y z Hxy _ IH]; [done|]. by eapply IH, usb_step_inv. }
  split; [done|]. intros ev w2 Hb Hev.
  apply event_safe; [done|by eapply between_inv|apply Hb..].
Qed.

(** An application without callbacks, and a peripheral whose waits end at
    once. *)
Definition demo_dev : UsbApp := {|
  user_event := fun _ _ => mret' tt;
  user_get_descriptor := fun _ _ _ _ => mret' (Some (mkUD 18 (List.repeat 1 18)));
  user_hook := fun _ => mret' false;
  user_callback := fun _ => mret' tt;
  user_epcallback := fun _ _ => mret' tt
|}.
Definition demo_otg : OtgHw := {|
  otg_txfifo_flush := fun _ r => r; otg_rxfifo_flush := fun r => r;
  otg_disable_ep := fun r => r; usb_lld_start := mret' tt; usb_lld_stop := mret' tt
|}.

Lemma demo_dev_ok `{Config} : @UsbAppOK _ demo_dev.
Proof. split; simpl; intros; by split_and?; intros; simplify_eq/=. Qed.

(** A run in which nothing happens while the lock is released. *)
Lemma settle_runs `{Config} {A} (a : A) o w : settle o = Done a w -> runs o w.
Proof.
  induction o as [b w1|[] w1 k IH|e]; simpl; intros E; simplify_eq/=; [constructor|].
  eapply runs_suspend; [|by apply IH]. by split_and!.
Qed.

(** A setup packet arrives. *)
Lemma between_setup `{Config} w bytes :
  uctx w -> length bytes = 8%nat -> Forall is_u8 bytes ->
  between w (set_w_setup (fun _ => bytes) w).
Proof.
  intros Hc Hl Hf. split; [apply Hc| |done|done].
  exists (usb_transmitting (w_usb w)), (usb_receiving (w_usb w)).
  split_and!; try done; try apply Hc. by destruct w as [? []].
Qed.

(** The started driver of the example. *)
Definition demo_usb : usbw :=
  mkW blank
    (mkUSB USB_READY (Some (mkUC None 0 None None)) 0 0 (fun _ => None) (fun _ => 0) (fun _ => 0)
       USB_EP0_WAITING_SETUP UB_null 0 None [0; 0; 0; 0; 0; 0; 0; 0] 0 0 0 0)
    (fun _ => mkEpS false 0 0 (EM_linear UB_null 0)) (fun _ => [0; 0; 0; 0; 0; 0; 0; 0])
    (fun _ => 0).
Definition final {A} (o : outcome usbw A) : usbw :=
  match settle o with Done _ w => w | _ => demo_usb end.
Definition ends {A} (o : outcome usbw A) : bool :=
  match settle o with Done _ _ => true | _ => false end.

Lemma final_runs `{Config} {A} (o : outcome usbw A) : ends o = true -> runs o (final o).
Proof.
  unfold ends, final. intros E. destruct (settle o) as [a w| |] eqn:Eo; try done.
  by eapply settle_runs.
Qed.

Definition demo_usb0 : usbw := final (@_usb_reset app_config demo_otg demo_usb).
Definition demo_usb1 : usbw :=
  set_w_setup (fun _ => get_descriptor 0x80 0 1 0 0 64 0) demo_usb0.
Definition demo_usb2 : usbw :=
  final (@_usb_isr_invoke_setup_cb app_config demo_dev 0 demo_usb1).

Lemma demo_started : @started app_config demo_usb.
Proof. split_and!; try done. repeat constructor; done. Qed.

Lemma demo_usb0_inv :
  @_usb_reset app_config demo_otg demo_usb = Done tt demo_usb0 /\ @usb_inv app_config demo_usb0.
Proof.
  destruct (@usb_reset_safe app_config demo_otg demo_usb demo_started) as (w' & E & Hi & _).
  assert (demo_usb0 = w') as ->.
  { unfold demo_usb0. rewrite E. reflexivity. }
  done.
Qed.

Lemma usb_ep0_invariant_witness :
  @usb_inv app_config demo_usb2 /\ usb_ep0state (w_usb demo_usb2) = USB_EP0_TX /\
  usb_ep0n (w_usb demo_usb2) = 18.
Proof.
  split; [|split; vm_compute; reflexivity].
  pose proof (@demo_dev_ok app_config) as Hok. destruct demo_usb0_inv as [E Hi].
  destruct (@usb_ep0_invariant app_config demo_otg demo_dev Hok demo_usb demo_usb0 demo_usb2
    demo_started E) as [Hi2 _].
  - eapply rtc_l; [|apply rtc_refl].
    apply (@usb_step_event app_config demo_dev demo_otg _ demo_usb1 _
      (@_usb_isr_invoke_setup_cb app_config demo_dev 0)).
    + apply between_setup; [apply Hi|done|repeat constructor; done].
    + apply ev_setup.
    + exact (@final_runs app_config _ (@_usb_isr_invoke_setup_cb app_config demo_dev 0 demo_usb1)
               ltac:(vm_compute; reflexivity)).
  - exact Hi2.
Defined.

(** ** A control transfer *)

(** Endpoint 0 is busy after the start of a transfer. *)
Lemma busy_tx w d t : w_usb w = set_usb_transmitting (t .| 1) d -> usbGetTransmitStatusI (w_usb w) 0 = true.
Proof. intros ->. unfold usbGetTransmitStatusI. ucbn. by rewrite bit_busy, Z.lor_spec, orb_true_r. Qed.
Lemma busy_rx w d t : w_usb w = set_usb_receiving (t .| 1) d -> usbGetReceiveStatusI (w_usb w) 0 = true.
Proof. intros ->. unfold usbGetReceiveStatusI. ucbn. by rewrite bit_busy, Z.lor_spec, orb_true_r. Qed.

Lemma in_cb_tx `{Config} `{UsbApp} w :
  uctx w -> usb_ep0state (w_usb w) = USB_EP0_TX ->
  let n := usb_ep0n (w_usb w) in
  usafe (fun _ w' =>
    if (n <? wLength (w_usb w)) && (n `mod` 64 =? 0)
    then usb_ep0state (w_usb w') = USB_EP0_WAITING_TX0 /\
         w_ep w' EP0_STATE = mkEpS false 0 0 (EM_linear UB_null 0) /\ usbGetTransmitStatusI (w_usb w') 0 = true
    else usb_ep0state (w_usb w') = USB_EP0_WAITING_STS /\ usbGetReceiveStatusI (w_usb w') 0 = true)
    (_usb_isr_invoke_in_cb 0 w).
Proof.
  intros Hc Hst n. unfold _usb_isr_invoke_in_cb. unfold bind at 1, set_usb, modify. cbn [obind].
  match goal with |- usafe _ (_ ?x) => set (w1 := x) end.
  assert (uctx w1) as Hc1.
  { apply uctx_usb; try done; try apply Hc. apply u16_range. }
  rewrite epc0_bind by apply Hc1. cbn [epcallback ep0config epc_in_cb].
  unfold _usb_ep0in. unfold bind at 1, drv, gets. cbn [obind]. unfold id.
  change (usb_ep0state (w_usb w1)) with (usb_ep0state (w_usb w)). rewrite Hst.
  rewrite epc0_bind by apply Hc1. unfold needs_zlp.
  change (usb_ep0n (w_usb w1)) with n. change (usbFetchWord (w_usb w1) 6) with (wLength (w_usb w)).
  cbn [ep0config epc_in_maxsize]. unfold ep0_wait_status.
  destruct (n <? wLength (w_usb w)); cbn [andb]; unfold bind at 1, mret'; cbn [obind];
    [destruct (n `mod` 64 =? 0)|].
  - apply osafe_bind, ep0_start_tx_safe; try apply Hc1. intros w' _ Hu He _.
    split; [done|]. split; [done|]. exact (busy_tx _ _ _ Hu).
  - unfold bind, set_usb, modify. cbn [obind].
    apply ep0_start_rx_safe; try apply (uctx_st USB_EP0_WAITING_STS w1 Hc1).
    intros w' _ Hu _ _. split; [by rewrite Hu|by eapply busy_rx].
  - unfold bind, set_usb, modify. cbn [obind].
    apply ep0_start_rx_safe; try apply (uctx_st USB_EP0_WAITING_STS w1 Hc1).
    intros w' _ Hu _ _. split; [by rewrite Hu|by eapply busy_rx].
Qed.

Lemma between_uctx `{Config} w w' : uctx w -> between w w' -> uctx w'.
Proof.
  intros Hc [HI (t & r & Ht & Hr & _ & _ & Eu) _ _]. destruct Hc. split; rewrite ?Eu; done.
Qed.

(** C39: a standard GET_DESCRIPTOR request with [wLength] above 0, for a
    descriptor of at least one byte that the application has, without a hook
    for the requests and with no transmission on the control endpoint: the
    handler starts a transmission of the descriptor from its first byte, of the
    size asked for or of the whole descriptor if that is smaller.  When it
    releases the lock the endpoint is busy, its registers hold the size and the
    number of packets, and it is enabled.  When the transmission is over, a zero
    size packet is started exactly if less than asked for was sent and the last
    packet was full; otherwise the reception of the status packet is. *)
Theorem usb_get_descriptor `{Config} `{UsbApp} w dp index type l0 l1 n0 n1 :
  uctx w -> has_descriptor w 0x80 index type l0 l1 dp ->
  w_setup w EP0_SETUP = get_descriptor 0x80 index type l0 l1 n0 n1 ->
  Forall is_u8 (w_setup w EP0_SETUP) -> 0 < n0 .| Z.shiftl n1 8 ->
  usbGetTransmitStatusI (w_usb w) 0 = false ->
  let max := n0 .| Z.shiftl n1 8 in
  let n := Z.min (ud_size dp) max in
  exists y, oeq (_usb_isr_invoke_setup_cb 0 w) (Suspend AtUnlock y (fun w' => Done tt w')) /\ in_isr y /\
    usb_ep0state (w_usb y) = USB_EP0_TX /\
    w_ep y EP0_STATE = mkEpS false n 0 (EM_linear (UB_const (ud_string dp)) 0) /\
    usbGetTransmitStatusI (w_usb y) 0 = true /\ in_started n y /\
    forall w1 w2, usb_rely AtUnlock y w1 -> between w1 w2 ->
      usafe (fun _ w3 =>
        if (n <? max) && (n `mod` 64 =? 0)
        then usb_ep0state (w_usb w3) = USB_EP0_WAITING_TX0 /\
             w_ep w3 EP0_STATE = mkEpS false 0 0 (EM_linear UB_null 0) /\ usbGetTransmitStatusI (w_usb w3) 0 = true
        else usb_ep0state (w_usb w3) = USB_EP0_WAITING_STS /\ usbGetReceiveStatusI (w_usb w3) 0 = true)
      (_usb_isr_invoke_in_cb 0 w2).
Proof.
  intros Hc Hd Es Hf Hmax Hidle max n. unfold _usb_isr_invoke_setup_cb. rewrite epc0_bind by apply Hc.
  cbn [epcallback ep0config epc_setup_cb].
  destruct (descriptor_request w dp 0x80 index type l0 l1 n0 n1 Hc Hd Es Hf Hmax)
    as (w3 & Hc3 & Es3 & _ & _ & En & Et & ->).
  cbn [Z.land Pos.land Z.eqb Pos.eqb Z.of_N]. unfold bind, set_usb, modify. cbn [obind].
  pose proof (uctx_st USB_EP0_TX w3 Hc3) as Hc4. unfold usbGetTransmitStatusI in Hidle. rewrite bit_busy in Hidle.
  pose proof (hd_size _ _ _ _ _ _ _ Hd) as Hsz.
  assert (max < 2^16) as Hm16.
  { rewrite Es in Hf. unfold get_descriptor in Hf. rewrite !list.Forall_cons in Hf. destruct_and! Hf.
    apply (lor_range 16); [lia|unfold is_u8 in *; lia|]. rewrite Z.shiftl_mul_pow2 by lia. unfold is_u8 in *. lia. }
  edestruct (ep0_start_tx_starts (UB_const (ud_string dp)) n) as (y & E & HI & Hu & He & _ & Hst);
    [apply Hc4|apply Hc4|apply Hc4|ucbn; by rewrite Et|lia|].
  exists y. split; [exact E|]. split_and!; [done|by rewrite Hu|exact He|by eapply busy_tx|done|].
  intros w1 w2 (Ru & _ & _ & Ri) Hb. rewrite <-Ru in Hu.
  assert (uctx w1) as Hc1 by (eapply uctx_tx; [exact Hc4|by apply Ri|exact Hu|apply range_1, Hc4]).
  assert (uctx w2) as Hc2 by (by eapply between_uctx).
  destruct Hb as [_ (t & r & _ & _ & _ & _ & Eu) _ _].
  assert (usb_ep0state (w_usb w2) = USB_EP0_TX) as E2 by (by rewrite Eu, Hu).
  assert (usb_ep0n (w_usb w2) = n) as E2n by (by rewrite Eu, Hu).
  assert (wLength (w_usb w2) = max) as E2m.
  { unfold wLength, usbFetchWord, setup_byte. rewrite Eu, Hu. ucbn. by rewrite Es3. }
  pose proof (in_cb_tx w2 Hc2 E2) as Hin. by rewrite E2n, E2m in Hin.
Qed.

Lemma demo_has_descriptor f b0 :
  b0 .& 0x7F = 0 ->
  @has_descriptor demo_dev (set_w_setup f demo_usb0) b0 0 1 0 0 (mkUD 18 (List.repeat 1 18)).
Proof.
  intros Hb. split; [|done|done]. exists (mkUC None 0 None None).
  split; [vm_compute; reflexivity|done].
Qed.

Lemma uctx_set_setup `{Config} f w : uctx w -> uctx (set_w_setup f w).
Proof. intros []. by split. Qed.

Lemma usb_get_descriptor_witness :
  exists y, oeq (@_usb_isr_invoke_setup_cb app_config demo_dev 0 demo_usb1) (Suspend AtUnlock y (fun w' => Done tt w')) /\
    ep_size (w_ep y EP0_STATE) = 18 /\ w_otg y (DIEPTSIZ 0) = 0x80012.
Proof.
  destruct (@usb_get_descriptor app_config demo_dev demo_usb1 (mkUD 18 (List.repeat 1 18)) 0 1 0 0 64 0)
    as (y & E & _ & _ & Ee & _ & [Er _ _ _] & _).
  - apply uctx_set_setup, demo_usb0_inv.
  - by apply demo_has_descriptor.
  - reflexivity.
  - repeat constructor; done.
  - done.
  - reflexivity.
  - exists y. split; [exact E|]. rewrite Ee, Er. by split.
Defined.

(** The direction bit of a GET_DESCRIPTOR request is not checked: a host
    that clears it makes the driver receive the data stage into the
    descriptor. *)
Theorem usb_descriptor_overwrite `{Config} `{UsbApp} w dp index type l0 l1 n0 n1 :
  uctx w -> has_descriptor w 0x00 index type l0 l1 dp ->
  w_setup w EP0_SETUP = get_descriptor 0x00 index type l0 l1 n0 n1 ->
  Forall is_u8 (w_setup w EP0_SETUP) -> 0 < n0 .| Z.shiftl n1 8 ->
  usafe (fun _ w1 =>
    usb_ep0state (w_usb w1) = USB_EP0_RX /\ usbGetReceiveStatusI (w_usb w1) 0 = true /\
    w_ep w1 EP0_STATE = mkEpS false (Z.min (ud_size dp) (n0 .| Z.shiftl n1 8)) 0
                          (EM_linear (UB_const (ud_string dp)) 0))
  (_usb_isr_invoke_setup_cb 0 w).
Proof.
  intros Hc Hd Es Hf Hmax. unfold _usb_isr_invoke_setup_cb. rewrite epc0_bind by apply Hc.
  cbn [epcallback ep0config epc_setup_cb].
  destruct (descriptor_request w dp 0x00 index type l0 l1 n0 n1 Hc Hd Es Hf Hmax)
    as (w3 & Hc3 & Es3 & _ & _ & En & _ & ->).
  cbn [Z.land Z.eqb]. unfold bind, set_usb, modify. cbn [obind].
  pose proof (uctx_st USB_EP0_RX w3 Hc3) as Hc4.
  apply ep0_start_rx_safe; try apply Hc4. intros w1 HI Hu He _.
  split_and!; [by rewrite Hu| |exact He]. unfold usbGetReceiveStatusI. rewrite Hu. ucbn.
  apply bit0_lor.
Qed.

Lemma usb_descriptor_overwrite_witness :
  osafe (@usb_grd app_config) (@usb_rely app_config)
    (fun _ w1 => w_ep w1 EP0_STATE =
       mkEpS false 18 0 (EM_linear (UB_const (List.repeat 1 18)) 0))
    (@_usb_isr_invoke_setup_cb app_config demo_dev 0
       (set_w_setup (fun _ => get_descriptor 0x00 0 1 0 0 64 0) demo_usb0)).
Proof.
  eapply osafe_mono; [|apply (@usb_descriptor_overwrite app_config demo_dev
    (set_w_setup (fun _ => get_descriptor 0x00 0 1 0 0 64 0) demo_usb0)
    (mkUD 18 (List.repeat 1 18)) 0 1 0 0 64 0)].
  - intros ? w1 (_ & _ & ->). reflexivity.
  - apply uctx_set_setup, demo_usb0_inv.
  - by apply demo_has_descriptor.
  - reflexivity.
  - repeat constructor; done.
  - done.
Defined.

(** ** Endpoint requests *)

Section Halt.
Context `{UsbApp}.

(** A standard request to endpoint [a], a number and the direction bit. *)
Definition ep_request (b0 req a : Z) (w : usbw) : usbw :=
  set_w_usb (set_usb_setup [b0; req; USB_FEATURE_ENDPOINT_HALT; 0; a; 0; 0; 0] (w_usb w)) w.
Definition ep_ctl (a : Z) : otgreg :=
  if negb (a .& 0x80 =? 0) then DIEPCTL (a .& 0x0F) else DOEPCTL (a .& 0x0F).

Lemma set_feature_eq a w :
  0 < a .& 0x0F ->
  default_handler (ep_request 0x02 USB_REQ_SET_FEATURE a w) =
    Done true (upd_usb (fun d => set_usb_ep0endcb None (set_usb_ep0n 0 (set_usb_ep0next UB_null d)))
      (upd_reg (ep_ctl a) (u32 (w_otg w (ep_ctl a) .| DIEPCTL_STALL))
         (ep_request 0x02 USB_REQ_SET_FEATURE a w))).
Proof.
  intros Ha. unfold default_handler, ep_ctl, bind, drv, gets. cbn [obind].
  unfold id, setup_byte, ep_request. ucbn. cbn [nth].
  rewrite (proj2 (Z.ltb_lt _ _) Ha). by destruct (a .& 0x80 =? 0).
Qed.

Lemma clear_feature_eq a w :
  0 < a .& 0x0F ->
  default_handler (ep_request 0x02 USB_REQ_CLEAR_FEATURE a w) =
    Done true (upd_usb (fun d => set_usb_ep0endcb None (set_usb_ep0n 0 (set_usb_ep0next UB_null d)))
      (upd_reg (ep_ctl a) (u32 (w_otg w (ep_ctl a) .& Z.lnot DIEPCTL_STALL))
         (ep_request 0x02 USB_REQ_CLEAR_FEATURE a w))).
Proof.
  intros Ha. unfold default_handler, ep_ctl, bind, drv, gets. cbn [obind].
  unfold id, setup_byte, ep_request. ucbn. cbn [nth].
  rewrite (proj2 (Z.ltb_lt _ _) Ha). by destruct (a .& 0x80 =? 0).
Qed.

Lemma get_status_eq a w :
  default_handler (ep_request 0x82 USB_REQ_GET_STATUS a w) =
    answer_status (ctl_status (w_otg w (ep_ctl a))) (ep_request 0x82 USB_REQ_GET_STATUS a w).
Proof.
  unfold default_handler, ep_ctl, bind, drv, gets. cbn [obind].
  unfold id, setup_byte, ep_request. ucbn. cbn [nth]. by destruct (a .& 0x80 =? 0).
Qed.

Lemma bit_test x n : 0 <= n -> (x .& bitn n =? 0) = negb (Z.testbit x n).
Proof.
  intros Hn. unfold bitn. rewrite Z.shiftl_1_l. destruct (Z.testbit x n) eqn:E; simpl.
  - apply Z.eqb_neq. intros Hz. assert (Z.testbit (x .& 2^n) n = false) as Hb.
    { rewrite Hz. apply Z.bits_0. }
    rewrite Z.land_spec, E, Z.pow2_bits_true in Hb by lia. done.
  - apply Z.eqb_eq, Z.bits_inj'. intros i Hi.
    rewrite Z.land_spec, Z.bits_0, Z.pow2_bits_eqb by lia.
    destruct (Z.eqb_spec n i) as [<-|]; [by rewrite E|apply andb_false_r].
Qed.

Lemma u32_testbit x n : 0 <= n < 32 -> Z.testbit (u32 x) n = Z.testbit x n.
Proof. intros Hn. apply Z.mod_pow2_bits_low. lia. Qed.

Lemma ctl_status_stall x :
  Z.testbit x 15 = true ->
  ctl_status (u32 (x .| DIEPCTL_STALL)) = EP_STATUS_STALLED /\
  ctl_status (u32 (x .& Z.lnot DIEPCTL_STALL)) = EP_STATUS_ACTIVE.
Proof.
  intros Hx. unfold ctl_status, DIEPCTL_USBAEP, DIEPCTL_STALL.
  rewrite !bit_test, !u32_testbit, !Z.lor_spec, !Z.land_spec, !Z.lnot_spec, Hx by lia.
  unfold bitn. rewrite !Z.shiftl_1_l, !Z.pow2_bits_eqb by lia. simpl.
  by rewrite orb_true_r, andb_false_r.
Qed.
End Halt.

(** After SET_FEATURE(ENDPOINT_HALT) on an active endpoint other than 0, in
    either direction, GET_STATUS answers that the endpoint is halted, and
    after CLEAR_FEATURE(ENDPOINT_HALT) that it is not. *)
Theorem usb_endpoint_halt `{UsbApp} a w :
  0 < a .& 0x0F -> Z.testbit (w_otg w (ep_ctl a)) 15 = true ->
  exists w1 w2 w3 w4,
    default_handler (ep_request 0x02 USB_REQ_SET_FEATURE a w) = Done true w1 /\
    default_handler (ep_request 0x82 USB_REQ_GET_STATUS a w1) = Done true w2 /\
    usb_ep0next (w_usb w2) = UB_const halted_status /\ usb_ep0n (w_usb w2) = 2 /\
    default_handler (ep_request 0x02 USB_REQ_CLEAR_FEATURE a w2) = Done true w3 /\
    default_handler (ep_request 0x82 USB_REQ_GET_STATUS a w3) = Done true w4 /\
    usb_ep0next (w_usb w4) = UB_const active_status /\ usb_ep0n (w_usb w4) = 2.
Proof.
  intros Ha Hb. destruct (ctl_status_stall _ Hb) as [E1 _].
  eexists _, _, _, _. split; [by apply set_feature_eq|]. split.
  { rewrite get_status_eq. unfold upd_usb, upd_reg. ucbn. rewrite fn_insert_eq, E1. reflexivity. }
  split; [done|]. split; [done|]. split; [by apply clear_feature_eq|]. split.
  { rewrite get_status_eq. unfold upd_usb, upd_reg, ep_request. ucbn. rewrite !fn_insert_eq.
    destruct (ctl_status_stall (u32 (w_otg w (ep_ctl a) .| DIEPCTL_STALL))) as [_ ->];
      [|reflexivity].
    rewrite u32_testbit, Z.lor_spec, Hb by lia. done. }
  done.
Qed.

Lemma usb_endpoint_halt_witness :
  exists w1 w2,
    @default_handler demo_dev (ep_request 0x02 USB_REQ_SET_FEATURE 0x81
      (upd_reg (DIEPCTL 1) 0x8040 demo_usb)) = Done true w1 /\
    @default_handler demo_dev (ep_request 0x82 USB_REQ_GET_STATUS 0x81 w1) = Done true w2 /\
    usb_ep0next (w_usb w2) = UB_const halted_status.
Proof.
  destruct (@usb_endpoint_halt demo_dev 0x81 (upd_reg (DIEPCTL 1) 0x8040 demo_usb))
    as (w1 & w2 & _ & _ & E1 & E2 & E3 & _); [vm_compute; reflexivity..|]. eauto.
Defined.

(** [usbDisableEndpointsI()] removes the configuration of every endpoint
    but 0 and leaves their busy bits: an endpoint that was transmitting is
    refused every later transmission, although it has been disabled. *)
Theorem usb_disable_endpoints `{Config} `{OtgHw} ep w :
  in_isr_locked w -> usb_state (w_usb w) = USB_SELECTED -> 1 <= ep <= USB_MAX_ENDPOINTS ->
  0 <= usb_transmitting (w_usb w) < 2^16 -> usbGetTransmitStatusI (w_usb w) ep = true ->
  exists w1, usbDisableEndpointsI w = Done tt w1 /\
    usb_epc (w_usb w1) ep = None /\ usb_epc (w_usb w1) 0 = usb_epc (w_usb w) 0 /\
    usbGetTransmitStatusI (w_usb w1) 0 = false /\
    usbStartTransmitI ep w1 = Done true w1.
Proof.
  intros HL Hst Hep Ht Hb. unfold usbDisableEndpointsI. rewrite class_I_isr by done.
  unfold bind, drv, gets. cbn [obind]. rewrite Hst. unfold kern.
  rewrite chDbgAssert_ok by reflexivity. cbn [obind kern_o].
  unfold usb_lld_disable_endpoints, otg_ram_reset, set_usb, modify, on_regs, bind. cbn [obind].
  eexists. split; [reflexivity|]. ucbn. split_and!.
  - unfold clear_epc. ucbn. by rewrite (proj2 (Z.leb_le _ _)), (proj2 (Z.leb_le _ _)) by lia.
  - done.
  - unfold usbGetTransmitStatusI, clear_epc. ucbn. rewrite bit_busy. unfold u16.
    rewrite Z.mod_pow2_bits_low, Z.land_spec by lia. simpl. apply andb_false_r.
  - unfold usbStartTransmitI. rewrite class_I_isr by exact HL.
    unfold bind, drv, gets. cbn [obind]. unfold id, usbGetTransmitStatusI, clear_epc. ucbn.
    assert (forall x, negb (x .& Z.shiftl 1 ep =? 0) = Z.testbit x ep) as Ebit.
    { intros x. fold (bitn ep). rewrite bit_test by lia. apply negb_involutive. }
    unfold usbGetTransmitStatusI in Hb. rewrite Ebit in *. unfold u16.
    rewrite Z.mod_pow2_bits_low, Z.land_spec, Hb, Z.lnot_spec by (unfold USB_MAX_ENDPOINTS in *; lia).
    change 1 with (2^0). rewrite Z.pow2_bits_eqb by lia.
    rewrite (proj2 (Z.eqb_neq 0 ep)) by lia. done.
Qed.

Lemma usb_disable_endpoints_witness :
  exists w1, @usbDisableEndpointsI app_config demo_otg (set_w_usb (set_usb_state USB_SELECTED
      (set_usb_transmitting 2 (w_usb demo_usb))) demo_usb) = Done tt w1 /\
    @usbStartTransmitI app_config 1 w1 = Done true w1.
Proof.
  destruct (@usb_disable_endpoints app_config demo_otg 1 (set_w_usb (set_usb_state USB_SELECTED
    (set_usb_transmitting 2 (w_usb demo_usb))) demo_usb)) as (w1 & E1 & _ & _ & _ & E2);
    try done; [vm_compute; intuition congruence..|]. eauto.
Defined.
