(* ===== verification/SerialUSB.v ===== *)
(** * Serial over USB ([serial_usb.c], [serial_usb.h])

    The driver moves bytes between two kernel queues and two endpoints of the
    USB driver.  A [SerialUSBDriver] is designated by its address; it holds
    the identifiers of its event source and of its queues.  The world is that
    of the USB driver with the objects of this one beside it.  Kernel and USB
    functions are called with [kernel] and [usb]. *)
From S2P Require Import Prelude Monad Types ThdLists Sched Evt IOQ USBTypes USBLld USB.

Definition CDC_SET_LINE_CODING : Z := 0x20.
Definition CDC_GET_LINE_CODING : Z := 0x21.
Definition CDC_SET_CONTROL_LINE_STATE : Z := 0x22.
Definition USB_RTYPE_TYPE_CLASS : Z := 0x20.
Definition SERIAL_USB_BUFFERS_SIZE : Z := 256.

Definition CHN_CONNECTED : Z := 1.
Definition CHN_DISCONNECTED : Z := 2.
Definition CHN_INPUT_AVAILABLE : Z := 4.
Definition CHN_OUTPUT_EMPTY : Z := 8.

Inductive sdustate_t := SDU_UNINIT | SDU_STOP | SDU_READY.
#[export] Instance sdustate_eq_dec : EqDecision sdustate_t.
Proof. solve_decision. Defined.

(** The configuration, for the USB driver of the world. *)
Record SerialUSBConfig := mkSC { bulk_in : Z; bulk_out : Z; int_in : Z }.

Record SerialUSBDriver := mkSDU {
  sdu_event : Z;
  sdu_state : sdustate_t;
  sdu_iqueue : Z;
  sdu_oqueue : Z;
  sdu_config : option SerialUSBConfig
}.

Definition set_sdu_state (v : sdustate_t) (d : SerialUSBDriver) : SerialUSBDriver :=
  mkSDU (sdu_event d) v (sdu_iqueue d) (sdu_oqueue d) (sdu_config d).
Definition set_sdu_config (v : option SerialUSBConfig) (d : SerialUSBDriver) : SerialUSBDriver :=
  mkSDU (sdu_event d) (sdu_state d) (sdu_iqueue d) (sdu_oqueue d) v.

Record sduw := mkSW { s_w : usbw; s_sdu : Z -> SerialUSBDriver }.

Abbreviation SM := (M sduw) (only parsing).

(** A function of the USB driver, called by this one. *)
Fixpoint usb_o {A} (x : sduw) (o : outcome usbw A) : outcome sduw A :=
  match o with
  | Done a w => Done a (mkSW w (s_sdu x))
  | Suspend p w k => Suspend p (mkSW w (s_sdu x)) (fun x' => usb_o x' (k (s_w x')))
  | Stuck e => Stuck e
  end.
Definition usb {A} (m : M usbw A) : SM A := fun x => usb_o x (m (s_w x)).
Definition kernel {A} (m : M kstate A) : SM A := usb (kern m).

Definition the_sdu (sdup : Z) : SM SerialUSBDriver := gets (fun x => s_sdu x sdup).
Definition upd_sdu (sdup : Z) (f : SerialUSBDriver -> SerialUSBDriver) : SM unit :=
  modify (fun x => mkSW (s_w x) (<[sdup := f (s_sdu x sdup)]> (s_sdu x))).
Definition config_of (d : SerialUSBDriver) : SM SerialUSBConfig :=
  match sdu_config d with Some c => mret' c | None => fault "config" end.
Definition the_queue (qp : Z) : SM IOQueue := gets (fun x => k_ioq (w_k (s_w x)) qp).

Section Sdu.
Context `{Config} `{App}.

Definition chnAddFlagsI (d : SerialUSBDriver) (flags : Z) : SM unit :=
  kernel (chEvtBroadcastFlagsI (sdu_event d) flags).

(** ** The channel interface *)

Definition write (rounds : nat) (ip : Z) (bp : list Z) : SM Z :=
  let! d := the_sdu ip in kernel (chOQWriteTimeout rounds (sdu_oqueue d) bp TIME_INFINITE).
Definition read (rounds : nat) (ip n : Z) : SM (list Z) :=
  let! d := the_sdu ip in kernel (chIQReadTimeout rounds (sdu_iqueue d) n TIME_INFINITE).
Definition put (rounds : nat) (ip b : Z) : SM Z :=
  let! d := the_sdu ip in kernel (chOQPutTimeout rounds (sdu_oqueue d) b TIME_INFINITE).
Definition get (rounds : nat) (ip : Z) : SM Z :=
  let! d := the_sdu ip in kernel (chIQGetTimeout rounds (sdu_iqueue d) TIME_INFINITE).
Definition putt (rounds : nat) (ip b timeout : Z) : SM Z :=
  let! d := the_sdu ip in kernel (chOQPutTimeout rounds (sdu_oqueue d) b timeout).
Definition gett (rounds : nat) (ip timeout : Z) : SM Z :=
  let! d := the_sdu ip in kernel (chIQGetTimeout rounds (sdu_iqueue d) timeout).
Definition writet (rounds : nat) (ip : Z) (bp : list Z) (time : Z) : SM Z :=
  let! d := the_sdu ip in kernel (chOQWriteTimeout rounds (sdu_oqueue d) bp time).
Definition readt (rounds : nat) (ip n time : Z) : SM (list Z) :=
  let! d := the_sdu ip in kernel (chIQReadTimeout rounds (sdu_iqueue d) n time).

(** ** Notifications of the queues *)

(** Whether a transaction can be started. *)
Definition sdu_active (d : SerialUSBDriver) : SM bool :=
  let! u := usb (drv id) in
  mret' (bool_decide (usbGetDriverStateI u = USB_ACTIVE) && bool_decide (sdu_state d = SDU_READY)).

(** [n / maxsize], an error without packets. *)
Definition whole_packets (n maxsize : Z) : SM Z :=
  if maxsize =? 0 then fault "division by zero" else mret' (n / maxsize * maxsize).

Definition inotify (qp : Z) : SM unit :=
  let! q := the_queue qp in
  let! d := the_sdu (chQGetLink q) in
  let! ok := sdu_active d in
  if negb ok then mret' tt
  else
    let! cf := config_of d in
    let! c := usb (get_epc (bulk_out cf)) in
    let maxsize := epc_out_maxsize c in
    let! u := usb (drv id) in
    if usbGetReceiveStatusI u (bulk_out cf) then mret' tt
    else
      let! iq := the_queue (sdu_iqueue d) in
      let n := chIQGetEmptyI iq in
      if maxsize <=? n then
        kernel chSysUnlock ;;;
        let! n := whole_packets n maxsize in
        usb (usbPrepareQueuedReceive (bulk_out cf) (sdu_iqueue d) n) ;;;
        kernel chSysLock ;;;
        usb (usbStartReceiveI (bulk_out cf)) ;;;
        mret' tt
      else mret' tt.

Definition onotify (qp : Z) : SM unit :=
  let! q := the_queue qp in
  let! d := the_sdu (chQGetLink q) in
  let! ok := sdu_active d in
  if negb ok then mret' tt
  else
    let! cf := config_of d in
    let! u := usb (drv id) in
    if usbGetTransmitStatusI u (bulk_in cf) then mret' tt
    else
      let! oq := the_queue (sdu_oqueue d) in
      let n := chOQGetFullI oq in
      if 0 <? n then
        kernel chSysUnlock ;;;
        usb (usbPrepareQueuedTransmit (bulk_in cf) (sdu_oqueue d) n) ;;;
        kernel chSysLock ;;;
        usb (usbStartTransmitI (bulk_in cf)) ;;;
        mret' tt
      else mret' tt.

(** ** Life of the driver *)

Definition sduInit : SM unit := mret' tt.

(** [infy] and [onfy] are the addresses of [inotify()] and [onotify()]. *)
Definition sduObjectInit (infy onfy sdup : Z) (ib ob : list Z) : SM unit :=
  let! d := the_sdu sdup in
  kernel (chEvtInit (sdu_event d)) ;;;
  upd_sdu sdup (set_sdu_state SDU_STOP) ;;;
  kernel (chIQInit (sdu_iqueue d) ib (Some infy) sdup) ;;;
  kernel (chOQInit (sdu_oqueue d) ob (Some onfy) sdup).

Definition set_param (i v : Z) (f : Z -> Z) : Z -> Z := <[i := v]> f.

(** The parameters of the three endpoints. *)
Definition sdu_params (cf : SerialUSBConfig) (v : Z) : SM unit :=
  usb (set_usb (fun d => set_usb_in_params (set_param (bulk_in cf - 1) v (usb_in_params d)) d)) ;;;
  usb (set_usb (fun d => set_usb_out_params (set_param (bulk_out cf - 1) v (usb_out_params d)) d)) ;;;
  usb (set_usb (fun d => set_usb_in_params (set_param (int_in cf - 1) v (usb_in_params d)) d)).

Definition sduStart (sdup : Z) (cf : SerialUSBConfig) : SM unit :=
  kernel (chDbgCheck (negb (sdup =? 0)) "sduStart") ;;;
  kernel chSysLock ;;;
  let! d := the_sdu sdup in
  kernel (chDbgAssert (bool_decide (sdu_state d = SDU_STOP) || bool_decide (sdu_state d = SDU_READY))
            "sduStart(), #1") ;;;
  sdu_params cf sdup ;;;
  upd_sdu sdup (set_sdu_config (Some cf)) ;;;
  upd_sdu sdup (set_sdu_state SDU_READY) ;;;
  kernel chSysUnlock.

Definition sduStop (sdup : Z) : SM unit :=
  let! d := the_sdu sdup in
  let! cf := config_of d in
  kernel (chDbgCheck (negb (sdup =? 0)) "sdStop") ;;;
  kernel chSysLock ;;;
  let! d := the_sdu sdup in
  kernel (chDbgAssert (bool_decide (sdu_state d = SDU_STOP) || bool_decide (sdu_state d = SDU_READY))
            "sduStop(), #1") ;;;
  sdu_params cf 0 ;;;
  upd_sdu sdup (set_sdu_state SDU_STOP) ;;;
  chnAddFlagsI d CHN_DISCONNECTED ;;;
  kernel (chIQResetI (sdu_iqueue d)) ;;;
  kernel (chOQResetI (sdu_oqueue d)) ;;;
  kernel chSchRescheduleS ;;;
  kernel chSysUnlock.

Definition sduConfigureHookI (sdup : Z) : SM unit :=
  let! d := the_sdu sdup in
  let! cf := config_of d in
  kernel (chIQResetI (sdu_iqueue d)) ;;;
  kernel (chOQResetI (sdu_oqueue d)) ;;;
  chnAddFlagsI d CHN_CONNECTED ;;;
  let! c := usb (get_epc (bulk_out cf)) in
  usb (usbPrepareQueuedReceive (bulk_out cf) (sdu_iqueue d) (epc_out_maxsize c)) ;;;
  usb (usbStartReceiveI (bulk_out cf)) ;;;
  mret' tt.

(** [linecoding] is the address of the structure, of seven bytes. *)
Definition sduRequestsHook (linecoding : Z) : SM bool :=
  let! u := usb (drv id) in
  if setup_byte u 0 .& USB_RTYPE_TYPE_MASK =? USB_RTYPE_TYPE_CLASS then
    let r := setup_byte u 1 in
    if (r =? CDC_GET_LINE_CODING) || (r =? CDC_SET_LINE_CODING) then
      usb (usbSetupTransfer (UB_user linecoding) 7 None) ;;; mret' true
    else if r =? CDC_SET_CONTROL_LINE_STATE then
      usb (usbSetupTransfer UB_null 0 None) ;;; mret' true
    else mret' false
  else mret' false.

(** ** Endpoint callbacks, in the interrupt handler *)

Definition start_tx (ep qp n : Z) : SM unit :=
  kernel chSysUnlockFromIsr ;;;
  usb (usbPrepareQueuedTransmit ep qp n) ;;;
  kernel chSysLockFromIsr ;;;
  usb (usbStartTransmitI ep) ;;;
  mret' tt.

Definition sduDataTransmitted (ep : Z) : SM unit :=
  let! u := usb (drv id) in
  let sdup := usb_in_params u (ep - 1) in
  if sdup =? 0 then mret' tt
  else
    let! d := the_sdu sdup in
    kernel chSysLockFromIsr ;;;
    chnAddFlagsI d CHN_OUTPUT_EMPTY ;;;
    let! oq := the_queue (sdu_oqueue d) in
    let n := chOQGetFullI oq in
    (if 0 <? n then start_tx ep (sdu_oqueue d) n
     else
       let! c := usb (get_epc ep) in
       let! isp := usb (deref (epc_in_state c) "in_state") in
       let! e := gets (fun x => w_ep (s_w x) isp) in
       if (0 <? ep_size e) && (ep_size e .& (epc_in_maxsize c - 1) =? 0)
       then start_tx ep (sdu_oqueue d) 0 else mret' tt) ;;;
    kernel chSysUnlockFromIsr.

Definition sduDataReceived (ep : Z) : SM unit :=
  let! u := usb (drv id) in
  let sdup := usb_out_params u (ep - 1) in
  if sdup =? 0 then mret' tt
  else
    let! d := the_sdu sdup in
    kernel chSysLockFromIsr ;;;
    chnAddFlagsI d CHN_INPUT_AVAILABLE ;;;
    let! c := usb (get_epc ep) in
    let maxsize := epc_out_maxsize c in
    let! iq := the_queue (sdu_iqueue d) in
    let n := chIQGetEmptyI iq in
    (if maxsize <=? n then
       kernel chSysUnlockFromIsr ;;;
       let! n := whole_packets n maxsize in
       usb (usbPrepareQueuedReceive ep (sdu_iqueue d) n) ;;;
       kernel chSysLockFromIsr ;;;
       usb (usbStartReceiveI ep) ;;;
       mret' tt
     else mret' tt) ;;;
    kernel chSysUnlockFromIsr.

Definition sduInterruptTransmitted (ep : Z) : SM unit := mret' tt.
End Sdu.
