(* ===== verification/SerialUSBOK.v ===== *)
(** * Serial over USB: the endpoint callbacks

    The callbacks run in the interrupt handler of the USB driver, with no
    nested interrupt ([settle]).  Each lifts lemmas of the components it
    calls: the broadcast of the event source, the counters of the queues and
    the transactions of the USB driver. *)
From S2P Require Import Prelude Monad Types ThdLists VT Sched Evt IOQ.
From S2P Require Import Inv InvPrim InvSched Rules Wake EvtOK TickOK EvTimer.
From S2P Require Import USBTypes USBLld USB SerialUSB.

Implicit Types (w : usbw) (x : sduw) (ep n : Z).

(** ** Calls of other components *)

Lemma settle_kern {A} (m : M kstate A) w (a : A) s :
  settle (m (w_k w)) = Done a s -> settle (kern m w) = Done a (set_w_k s w).
Proof.
  unfold kern. generalize (m (w_k w)). intros o. revert w.
  induction o as [b x1|[|] x1 k IH|e]; intros w; simpl; try done.
  - by intros [= -> ->].
  - intros E. cbn. rewrite (IH x1 (set_w_k x1 w)) by done. by destruct w.
Qed.

Lemma settle_usb {A} (m : M usbw A) x (a : A) w :
  settle (m (s_w x)) = Done a w -> settle (usb m x) = Done a (mkSW w (s_sdu x)).
Proof.
  unfold usb. generalize (m (s_w x)). intros o. revert x.
  induction o as [b x1|[|] x1 k IH|e]; intros x; simpl; try done.
  - by intros [= -> ->].
  - intros E. by rewrite (IH x1 (mkSW x1 (s_sdu x))).
Qed.

(** The world with another kernel state. *)
Definition with_k (s : kstate) x : sduw := mkSW (set_w_k s (s_w x)) (s_sdu x).

Lemma settle_kernel {A} (m : M kstate A) x (a : A) s :
  settle (m (w_k (s_w x))) = Done a s -> settle (kernel m x) = Done a (with_k s x).
Proof. intros E. apply settle_usb. by apply settle_kern. Qed.

Section Ok.
Context `{Config} `{App}.

Lemma get_epc_ok ep w c :
  0 <= ep <= USB_MAX_ENDPOINTS -> usb_epc (w_usb w) ep = Some c -> get_epc ep w = Done c w.
Proof.
  intros He Hc. unfold get_epc. rewrite !(proj2 (Z.leb_le _ _)) by lia. cbn [andb]. by rewrite Hc.
Qed.

(** ** Transactions *)

(** A transaction on the queue [qp] with [n] bytes. *)
Definition queued (qp n : Z) : USBEndpointState := mkEpS true n 0 (EM_queue qp).

Lemma prepare_rx ep qp n w c (osp : Z) :
  0 <= ep <= USB_MAX_ENDPOINTS -> usb_epc (w_usb w) ep = Some c -> epc_out_state c = Some osp ->
  epc_out_maxsize c <> 0 ->
  exists r, usbPrepareQueuedReceive ep qp n w = Done tt (set_w_otg r (upd_ep osp (fun _ => queued qp n) w)).
Proof.
  intros He Hc Ho Hm. eexists. unfold usbPrepareQueuedReceive, bind at 1.
  rewrite (get_epc_ok ep w c) by done. cbn [obind]. rewrite Ho. unfold bind at 1. cbn [deref mret' obind].
  unfold bind at 1. cbn [modify obind]. unfold usb_lld_prepare_receive, bind at 1.
  rewrite (get_epc_ok ep _ c) by done. cbn [obind]. rewrite Ho. unfold bind. cbn [deref mret' obind gets].
  unfold packets. by rewrite (proj2 (Z.eqb_neq _ _) Hm).
Qed.

Lemma prepare_tx ep qp n w c (isp : Z) :
  0 <= ep <= USB_MAX_ENDPOINTS -> usb_epc (w_usb w) ep = Some c -> epc_in_state c = Some isp ->
  epc_in_maxsize c <> 0 ->
  exists r, usbPrepareQueuedTransmit ep qp n w = Done tt (set_w_otg r (upd_ep isp (fun _ => queued qp n) w)).
Proof.
  intros He Hc Ho Hm. unfold usbPrepareQueuedTransmit, bind at 1.
  rewrite (get_epc_ok ep w c) by done. cbn [obind]. rewrite Ho. unfold bind at 1. cbn [deref mret' obind].
  unfold bind at 1. cbn [modify obind]. unfold usb_lld_prepare_transmit, bind at 1.
  rewrite (get_epc_ok ep _ c) by done. cbn [obind]. rewrite Ho. unfold bind. cbn [deref mret' obind gets].
  destruct (_ =? 0); [by eexists|]. unfold packets. rewrite (proj2 (Z.eqb_neq _ _) Hm). by eexists.
Qed.

Lemma start_rx ep w :
  isr_in (w_k w) -> usbGetReceiveStatusI (w_usb w) ep = false ->
  exists r, usbStartReceiveI ep w = Done false (set_w_otg r
    (upd_usb (fun d => set_usb_receiving (u16 (usb_receiving d .| Z.shiftl 1 ep)) d) w)).
Proof.
  intros Hi Hb. unfold usbStartReceiveI, bind at 1. unfold kern at 1.
  rewrite chDbgCheckClassI_ok by (by apply isr_in_I). cbn [kern_o obind].
  replace (set_w_k (w_k w) w) with w by (by destruct w).
  unfold bind. cbn [drv gets obind id]. rewrite Hb. by eexists.
Qed.
Lemma start_tx_ok ep w :
  isr_in (w_k w) -> usbGetTransmitStatusI (w_usb w) ep = false ->
  exists r, usbStartTransmitI ep w = Done false (set_w_otg r
    (upd_usb (fun d => set_usb_transmitting (u16 (usb_transmitting d .| Z.shiftl 1 ep)) d) w)).
Proof.
  intros Hi Hb. unfold usbStartTransmitI, bind at 1. unfold kern at 1.
  rewrite chDbgCheckClassI_ok by (by apply isr_in_I). cbn [kern_o obind].
  replace (set_w_k (w_k w) w) with w by (by destruct w).
  unfold bind. cbn [drv gets obind id]. rewrite Hb. by eexists.
Qed.

Lemma started_bit t ep : 0 <= ep <= USB_MAX_ENDPOINTS -> Z.testbit (u16 (t .| Z.shiftl 1 ep)) ep = true.
Proof.
  unfold USB_MAX_ENDPOINTS. intros He. unfold u16. rewrite Z.mod_pow2_bits_low by lia.
  rewrite Z.lor_spec, Z.shiftl_spec, Z.sub_diag by lia. by rewrite orb_true_r.
Qed.

(** ** The callbacks *)

Context (idle : tid).

Lemma u_drv {A} (f : USBDriver -> M sduw A) x : bind (usb (drv id)) f x = f (w_usb (s_w x)) x.
Proof. by destruct x. Qed.
Lemma u_epc {A} ep c (f : USBEndpointConfig -> M sduw A) x :
  0 <= ep <= USB_MAX_ENDPOINTS -> usb_epc (w_usb (s_w x)) ep = Some c -> bind (usb (get_epc ep)) f x = f c x.
Proof. intros He Hc. unfold bind, usb. rewrite (get_epc_ok ep _ c) by done. by destruct x. Qed.

(** The kernel in the handler, and the event source of the driver. *)
Record kready (es : Z) (s : kstate) : Prop := {
  kr_isr : isr_out s;
  kr_inv : KInv idle None s;
  kr_es : es <> 0;
  kr_nodup : NoDup (k_es s es);
  kr_listen : forall elp, elp ∈ k_es s es -> el_listener (k_el s elp) <> 0
}.

Lemma with_lock_data (k : Z) s :
  k_ioq (with_lock k s) = k_ioq s /\ k_es (with_lock k s) = k_es s /\ k_el (with_lock k s) = k_el s /\
  k_thd (with_lock k s) = k_thd s.
Proof. unfold with_lock. by destruct CH_DBG_SYSTEM_STATE_CHECK. Qed.

(** Taking the lock and adding flags to the source. *)
Lemma flags_ok es flags s :
  kready es s ->
  exists s1, chSysLockFromIsr s = Done tt (with_lock 1 s) /\
    chEvtBroadcastFlagsI es flags (with_lock 1 s) = Done tt s1 /\
    isr_in s1 /\ KInv idle None s1 /\ k_ioq s1 = k_ioq s /\
    (forall u, p_epending (k_thd s1 u) = heard s (k_es s es) u (p_epending (k_thd s u))).
Proof.
  intros [Ho HI Hes Hnd Hl]. destruct (lock_isr s Ho) as [El Hin].
  destruct (with_lock_data 1 s) as (Eq & Ees & Eel & Eth).
  destruct (broadcast_ok idle (with_lock 1 s) es flags) as (s1 & E1 & Hi1 & Hp1 & _);
    [by apply isr_in_I|by apply KInv_lock|done|by rewrite Ees|by rewrite Ees, Eel|].
  exists s1. split_and!; [done|done| | | |].
  - unfold isr_in in *. pose proof (is_lock _ _ _ Hi1) as E2. pose proof (is_isr _ _ _ Hi1) as E3.
    simpl in E2, E3. by rewrite E2, E3.
  - apply (set_k_el_inv idle None s1 (k_el (with_lock 1 s))), (is_inv _ _ _ Hi1).
  - pose proof (is_data _ _ _ Hi1) as Ed. unfold kdata in Ed. simpl in Ed. rewrite <-Eq. by simplify_eq.
  - intros u. rewrite Hp1, Ees, Eth. by apply heard_el.
Qed.

(** Releasing the lock and taking it again. *)
Lemma unlock_lock s :
  isr_in s -> exists s1, settle (chSysUnlockFromIsr s) = Done tt (with_lock 0 s) /\
    chSysLockFromIsr (with_lock 0 s) = Done tt s1 /\ isr_in s1 /\ s1 = with_lock 1 (with_lock 0 s).
Proof.
  intros Hi. destruct (unlock_isr s Hi) as [E Ho]. destruct (lock_isr _ Ho) as [E' Hi']. by eexists.
Qed.

Lemma with_lock_twice s : with_lock 1 (with_lock 0 s) = with_lock 1 s /\ with_lock 0 (with_lock 1 s) = with_lock 0 s.
Proof. unfold with_lock. by destruct CH_DBG_SYSTEM_STATE_CHECK. Qed.

(** The part of the callbacks that starts a transaction, with the lock
    released while it is prepared. *)
Lemma rx_start x ep c (osp : Z) qp n :
  isr_in (w_k (s_w x)) -> 0 <= ep <= USB_MAX_ENDPOINTS -> usb_epc (w_usb (s_w x)) ep = Some c ->
  epc_out_state c = Some osp -> 0 < epc_out_maxsize c -> usbGetReceiveStatusI (w_usb (s_w x)) ep = false ->
  exists x', settle ((kernel chSysUnlockFromIsr ;;;
      let! n := whole_packets n (epc_out_maxsize c) in
      usb (usbPrepareQueuedReceive ep qp n) ;;;
      kernel chSysLockFromIsr ;;; usb (usbStartReceiveI ep) ;;; mret' tt) x) = Done tt x' /\
    w_k (s_w x') = with_lock 1 (w_k (s_w x)) /\ isr_in (w_k (s_w x')) /\ s_sdu x' = s_sdu x /\
    w_ep (s_w x') = <[osp := queued qp (n / epc_out_maxsize c * epc_out_maxsize c)]> (w_ep (s_w x)) /\
    w_usb (s_w x') = (fun d => set_usb_receiving (u16 (usb_receiving d .| Z.shiftl 1 ep)) d) (w_usb (s_w x)).
Proof.
  intros Hi He Hc Ho Hm Hb. destruct (unlock_lock _ Hi) as (s1 & E1 & E2 & Hi1 & Es1).
  rewrite (proj1 (with_lock_twice _)) in Es1. subst s1.
  erewrite settle_bind by (apply settle_kernel; by rewrite E1).
  unfold whole_packets. rewrite (proj2 (Z.eqb_neq (epc_out_maxsize c) 0)) by lia.
  unfold bind at 1. cbn [mret' obind]. set (k := n / epc_out_maxsize c * epc_out_maxsize c).
  set (x1 := with_k (with_lock 0 (w_k (s_w x))) x).
  destruct (prepare_rx ep qp k (s_w x1) c osp) as [r E3]; [done|done|done|lia|].
  erewrite settle_bind by (apply settle_usb; by rewrite E3).
  erewrite settle_bind by (apply settle_kernel; cbn; by rewrite E2).
  match goal with |- context [settle (_ ?y)] => set (x2 := y) end.
  destruct (start_rx ep (s_w x2)) as [r' E4]; [done|done|].
  erewrite settle_bind by (apply settle_usb; by rewrite E4).
  by eexists.
Qed.

Lemma tx_start x ep c (isp : Z) qp n :
  isr_in (w_k (s_w x)) -> 0 <= ep <= USB_MAX_ENDPOINTS -> usb_epc (w_usb (s_w x)) ep = Some c ->
  epc_in_state c = Some isp -> 0 < epc_in_maxsize c -> usbGetTransmitStatusI (w_usb (s_w x)) ep = false ->
  exists x', settle (start_tx ep qp n x) = Done tt x' /\
    w_k (s_w x') = with_lock 1 (w_k (s_w x)) /\ isr_in (w_k (s_w x')) /\ s_sdu x' = s_sdu x /\
    w_ep (s_w x') = <[isp := queued qp n]> (w_ep (s_w x)) /\
    w_usb (s_w x') = (fun d => set_usb_transmitting (u16 (usb_transmitting d .| Z.shiftl 1 ep)) d) (w_usb (s_w x)).
Proof.
  intros Hi He Hc Ho Hm Hb. destruct (unlock_lock _ Hi) as (s1 & E1 & E2 & Hi1 & Es1).
  rewrite (proj1 (with_lock_twice _)) in Es1. subst s1. unfold start_tx.
  erewrite settle_bind by (apply settle_kernel; by rewrite E1).
  set (x1 := with_k (with_lock 0 (w_k (s_w x))) x).
  destruct (prepare_tx ep qp n (s_w x1) c isp) as [r E3]; [done|done|done|lia|].
  erewrite settle_bind by (apply settle_usb; by rewrite E3).
  erewrite settle_bind by (apply settle_kernel; cbn; by rewrite E2).
  match goal with |- context [settle (_ ?y)] => set (x2 := y) end.
  destruct (start_tx_ok ep (s_w x2)) as [r' E4]; [done|done|].
  erewrite settle_bind by (apply settle_usb; by rewrite E4).
  by eexists.
Qed.

(** The world after a handler: events for the listeners of the source, the
    queues and the objects of this driver as they were. *)
Definition handled (es : Z) x x' : Prop :=
  isr_out (w_k (s_w x')) /\ KInv idle None (w_k (s_w x')) /\ s_sdu x' = s_sdu x /\
  k_ioq (w_k (s_w x')) = k_ioq (w_k (s_w x)) /\
  (forall u, p_epending (k_thd (w_k (s_w x')) u) =
     heard (w_k (s_w x)) (k_es (w_k (s_w x)) es) u (p_epending (k_thd (w_k (s_w x)) u))).

(** The end of a handler. *)
Lemma handled_end es x x1 (s1 : kstate) :
  KInv idle None s1 -> k_ioq s1 = k_ioq (w_k (s_w x)) ->
  (forall u, p_epending (k_thd s1 u) = heard (w_k (s_w x)) (k_es (w_k (s_w x)) es) u (p_epending (k_thd (w_k (s_w x)) u))) ->
  isr_in (w_k (s_w x1)) -> s_sdu x1 = s_sdu x ->
  w_k (s_w x1) = s1 \/ w_k (s_w x1) = with_lock 1 s1 ->
  exists x', settle (kernel chSysUnlockFromIsr x1) = Done tt x' /\ handled es x x' /\
    w_usb (s_w x') = w_usb (s_w x1) /\ w_ep (s_w x') = w_ep (s_w x1).
Proof.
  intros HI Hq Hp Hi Hd Hs1. destruct (unlock_isr _ Hi) as [E Ho].
  assert (with_lock 0 (w_k (s_w x1)) = with_lock 0 s1) as Ek.
  { destruct Hs1 as [-> | ->]; [done|]. apply with_lock_twice. }
  exists (with_k (with_lock 0 (w_k (s_w x1))) x1). split; [by apply settle_kernel|]. split; [|done].
  destruct (with_lock_data 0 s1) as (Eq & _ & _ & Eth).
  unfold handled. cbn. rewrite Ek in *. split_and!; [done|by apply KInv_lock|done|by rewrite Eq|].
  intros u. by rewrite Eth.
Qed.

Lemma sdu_received_ok x ep c (osp : Z) (d := s_sdu x (usb_out_params (w_usb (s_w x)) (ep - 1)))
    (free := chIQGetEmptyI (k_ioq (w_k (s_w x)) (sdu_iqueue d))) :
  kready (sdu_event d) (w_k (s_w x)) -> usb_out_params (w_usb (s_w x)) (ep - 1) <> 0 ->
  0 <= ep <= USB_MAX_ENDPOINTS -> usb_epc (w_usb (s_w x)) ep = Some c -> epc_out_state c = Some osp ->
  0 < epc_out_maxsize c -> usbGetReceiveStatusI (w_usb (s_w x)) ep = false ->
  exists x', settle (sduDataReceived ep x) = Done tt x' /\ handled (sdu_event d) x x' /\
    if epc_out_maxsize c <=? free then
      exists n, w_ep (s_w x') = <[osp := queued (sdu_iqueue d) n]> (w_ep (s_w x)) /\
        Z.testbit (usb_receiving (w_usb (s_w x'))) ep = true /\
        0 < n <= free /\ n mod epc_out_maxsize c = 0 /\ free < n + epc_out_maxsize c
    else w_ep (s_w x') = w_ep (s_w x) /\ w_usb (s_w x') = w_usb (s_w x).
Proof.
  intros HK Hp He Hc Ho Hm Hb.
  destruct (flags_ok _ CHN_INPUT_AVAILABLE _ HK) as (s1 & E0 & E1 & Hi1 & HI1 & Hq1 & Hp1).
  unfold sduDataReceived. rewrite u_drv. rewrite (proj2 (Z.eqb_neq _ _) Hp).
  unfold bind at 1. cbn [the_sdu gets obind]. fold d.
  erewrite settle_bind by (apply settle_kernel; by rewrite E0).
  unfold chnAddFlagsI. erewrite settle_bind by (apply settle_kernel; cbn; by rewrite E1).
  rewrite (u_epc ep c) by done. unfold bind at 1. cbn [the_queue gets obind].
  set (x1 := with_k s1 _). assert (k_ioq (w_k (s_w x1)) (sdu_iqueue d) = k_ioq (w_k (s_w x)) (sdu_iqueue d)) as ->
    by (cbn; by rewrite Hq1). fold free.
  destruct (Z.leb_spec (epc_out_maxsize c) free) as [Hle|Hgt].
  - destruct (rx_start x1 ep c osp (sdu_iqueue d) free) as (x2 & E2 & Ek2 & Hi2 & Hd2 & Hep2 & Hu2); [done..|].
    erewrite settle_bind by exact E2.
    destruct (handled_end (sdu_event d) x x2 s1) as (x3 & E3 & Hh & Hu3 & Hep3); [done|done|done|done|done|by right|].
    exists x3. split; [done|]. split; [done|]. rewrite Hu3, Hep3, Hep2, Hu2.
    eexists. split; [done|]. split; [cbn; by apply started_bit|].
    pose proof (Z.div_mod free (epc_out_maxsize c) ltac:(lia)) as Hdm.
    pose proof (Z.mod_pos_bound free (epc_out_maxsize c) Hm) as Hmb.
    pose proof (Z.div_le_lower_bound free (epc_out_maxsize c) 1 Hm ltac:(lia)) as H1.
    split; [nia|]. split; [apply Z.mod_mul; lia|nia].
  - unfold bind at 1. cbn [mret' obind].
    destruct (handled_end (sdu_event d) x x1 s1) as (x3 & E3 & Hh & Hu3 & Hep3); [done|done|done|done|done|by left|].
    exists x3. split; [done|]. split; [done|]. by rewrite Hu3, Hep3.
Qed.

Lemma mask_mod (a k : Z) : 0 <= k -> a .& (2 ^ k - 1) = a mod 2 ^ k.
Proof. intros Hk. rewrite <-Z.land_ones by done. by rewrite Z.ones_equiv, Z.sub_1_r. Qed.

(** The test for a zero sized packet. *)
Lemma zlp_eq x ep c (isp k qp : Z) :
  0 <= ep <= USB_MAX_ENDPOINTS -> usb_epc (w_usb (s_w x)) ep = Some c -> epc_in_state c = Some isp ->
  epc_in_maxsize c = 2 ^ k -> 0 <= k ->
  (let! c := usb (get_epc ep) in
   let! isp := usb (deref (epc_in_state c) "in_state") in
   let! e := gets (fun x => w_ep (s_w x) isp) in
   if (0 <? ep_size e) && (ep_size e .& (epc_in_maxsize c - 1) =? 0) then start_tx ep qp 0 else mret' tt) x =
  (let last := ep_size (w_ep (s_w x) isp) in
   if (0 <? last) && (last mod epc_in_maxsize c =? 0) then start_tx ep qp 0 else mret' tt) x.
Proof.
  intros He Hc Ho Hmk Hk. rewrite (u_epc ep c) by done. rewrite Ho. destruct x as [w f].
  unfold bind, usb. cbn [deref mret' usb_o obind gets s_w s_sdu]. by rewrite Hmk, mask_mod.
Qed.

Lemma sdu_transmitted_ok x ep c (isp k : Z) (d := s_sdu x (usb_in_params (w_usb (s_w x)) (ep - 1)))
    (full := chOQGetFullI (k_ioq (w_k (s_w x)) (sdu_oqueue d))) (last := ep_size (w_ep (s_w x) isp)) :
  kready (sdu_event d) (w_k (s_w x)) -> usb_in_params (w_usb (s_w x)) (ep - 1) <> 0 ->
  0 <= ep <= USB_MAX_ENDPOINTS -> usb_epc (w_usb (s_w x)) ep = Some c -> epc_in_state c = Some isp ->
  epc_in_maxsize c = 2 ^ k -> 0 <= k -> usbGetTransmitStatusI (w_usb (s_w x)) ep = false ->
  exists x', settle (sduDataTransmitted ep x) = Done tt x' /\ handled (sdu_event d) x x' /\
    if (0 <? full) || (0 <? last) && (last mod epc_in_maxsize c =? 0) then
      w_ep (s_w x') = <[isp := queued (sdu_oqueue d) full]> (w_ep (s_w x)) /\
      Z.testbit (usb_transmitting (w_usb (s_w x'))) ep = true
    else w_ep (s_w x') = w_ep (s_w x) /\ w_usb (s_w x') = w_usb (s_w x).
Proof.
  intros HK Hp He Hc Ho Hmk Hk Hb. assert (0 < epc_in_maxsize c) as Hm by (rewrite Hmk; by apply Z.pow_pos_nonneg).
  destruct (flags_ok _ CHN_OUTPUT_EMPTY _ HK) as (s1 & E0 & E1 & Hi1 & HI1 & Hq1 & Hp1).
  unfold sduDataTransmitted. rewrite u_drv. rewrite (proj2 (Z.eqb_neq _ _) Hp).
  unfold bind at 1. cbn [the_sdu gets obind]. fold d.
  erewrite settle_bind by (apply settle_kernel; by rewrite E0).
  unfold chnAddFlagsI. erewrite settle_bind by (apply settle_kernel; cbn; by rewrite E1).
  unfold bind at 1. cbn [the_queue gets obind].
  set (x1 := with_k s1 _). assert (k_ioq (w_k (s_w x1)) (sdu_oqueue d) = k_ioq (w_k (s_w x)) (sdu_oqueue d)) as ->
    by (cbn; by rewrite Hq1). fold full.
  assert (forall n, exists x', settle ((start_tx ep (sdu_oqueue d) n ;;; kernel chSysUnlockFromIsr) x1) = Done tt x' /\
    handled (sdu_event d) x x' /\ w_ep (s_w x') = <[isp := queued (sdu_oqueue d) n]> (w_ep (s_w x)) /\
    Z.testbit (usb_transmitting (w_usb (s_w x'))) ep = true) as Htx.
  { intros n. destruct (tx_start x1 ep c isp (sdu_oqueue d) n) as (x2 & E2 & Ek2 & Hi2 & Hd2 & Hep2 & Hu2); [done..|].
    erewrite settle_bind by exact E2.
    destruct (handled_end (sdu_event d) x x2 s1) as (x3 & E3 & Hh & Hu3 & Hep3); [done|done|done|done|done|by right|].
    exists x3. split; [done|]. split; [done|]. rewrite Hu3, Hep3, Hep2, Hu2. split; [done|]. cbn. by apply started_bit. }
  destruct (Z.ltb_spec 0 full) as [Hf|Hf]; [apply Htx|]. cbn [orb].
  assert (full = 0) as Hf0 by (pose proof (u32_range (chQSizeI (k_ioq (w_k (s_w x)) (sdu_oqueue d)) -
    chQSpaceI (k_ioq (w_k (s_w x)) (sdu_oqueue d)))) as Hr; fold full in Hr; unfold is_u32 in Hr; unfold full in *;
    unfold chOQGetFullI in *; lia).
  unfold bind at 1. rewrite (zlp_eq x1 ep c isp k) by done. cbn zeta.
  change (ep_size (w_ep (s_w x1) isp)) with last.
  destruct ((0 <? last) && (last mod epc_in_maxsize c =? 0)); [rewrite Hf0; apply Htx|].
  cbn [mret' obind].
  destruct (handled_end (sdu_event d) x x1 s1) as (x3 & E3 & Hh & Hu3 & Hep3); [done|done|done|done|done|by left|].
  exists x3. split; [done|]. split; [done|]. by rewrite Hu3, Hep3.
Qed.
End Ok.
