(* ===== verification/SerialUSBThm.v ===== *)
(** * Theorems: serial over USB *)
From S2P Require Import Prelude Monad Types ThdLists VT Sched Evt IOQ.
From S2P Require Import Inv InvPrim InvSched Rules Scenario Wake EvtOK TickOK EvTimer SyncThm.
From S2P Require Import USBTypes USBLld USB SerialUSB SerialUSBOK.

(** C20: when data has been received, the callback tells the listeners of the
    channel, and starts the next transaction exactly when the input queue has
    room for a packet: as large as the room allows, in whole packets, so that
    what it brings always fits in the queue.  With less room nothing is
    started, and the host has to wait. *)
Theorem sdu_received_fits `{Config} idle x ep c (osp : Z)
    (d := s_sdu x (usb_out_params (w_usb (s_w x)) (ep - 1)))
    (free := chIQGetEmptyI (k_ioq (w_k (s_w x)) (sdu_iqueue d))) :
  kready idle (sdu_event d) (w_k (s_w x)) -> usb_out_params (w_usb (s_w x)) (ep - 1) <> 0 ->
  0 <= ep <= USB_MAX_ENDPOINTS -> usb_epc (w_usb (s_w x)) ep = Some c -> epc_out_state c = Some osp ->
  0 < epc_out_maxsize c -> usbGetReceiveStatusI (w_usb (s_w x)) ep = false ->
  exists x', settle (sduDataReceived ep x) = Done tt x' /\ handled idle (sdu_event d) x x' /\
    if epc_out_maxsize c <=? free then
      exists n, w_ep (s_w x') = <[osp := queued (sdu_iqueue d) n]> (w_ep (s_w x)) /\
        Z.testbit (usb_receiving (w_usb (s_w x'))) ep = true /\
        0 < n <= free /\ n mod epc_out_maxsize c = 0 /\ free < n + epc_out_maxsize c
    else w_ep (s_w x') = w_ep (s_w x) /\ w_usb (s_w x') = w_usb (s_w x).
Proof. apply sdu_received_ok. Qed.

(** When a transaction has been sent, the callback tells the listeners and
    sends all that is in the output queue by then; when that is empty, it sends
    a packet without data exactly if the last transaction was a whole number of
    packets, and otherwise leaves the endpoint idle. *)
Theorem sdu_transmitted_next `{Config} idle x ep c (isp k : Z)
    (d := s_sdu x (usb_in_params (w_usb (s_w x)) (ep - 1)))
    (full := chOQGetFullI (k_ioq (w_k (s_w x)) (sdu_oqueue d))) (last := ep_size (w_ep (s_w x) isp)) :
  kready idle (sdu_event d) (w_k (s_w x)) -> usb_in_params (w_usb (s_w x)) (ep - 1) <> 0 ->
  0 <= ep <= USB_MAX_ENDPOINTS -> usb_epc (w_usb (s_w x)) ep = Some c -> epc_in_state c = Some isp ->
  epc_in_maxsize c = 2 ^ k -> 0 <= k -> usbGetTransmitStatusI (w_usb (s_w x)) ep = false ->
  exists x', settle (sduDataTransmitted ep x) = Done tt x' /\ handled idle (sdu_event d) x x' /\
    if (0 <? full) || (0 <? last) && (last mod epc_in_maxsize c =? 0) then
      w_ep (s_w x') = <[isp := queued (sdu_oqueue d) full]> (w_ep (s_w x)) /\
      Z.testbit (usb_transmitting (w_usb (s_w x'))) ep = true
    else w_ep (s_w x') = w_ep (s_w x) /\ w_usb (s_w x') = w_usb (s_w x).
Proof. apply sdu_transmitted_ok. Qed.

(** ** A driver at address 9, on endpoint 1 with packets of 64 bytes; its input
    queue is empty and its output queue has no byte either. *)
Definition sdu_kernel : scenario :=
  {| sc_curr := sc_curr demo_evt; sc_thd := sc_thd demo_evt; sc_q := sc_q demo_evt; sc_sem := sc_sem demo_evt;
     sc_mtx := sc_mtx demo_evt;
     sc_data := set_k_ioq (fun q => if decide (q = 3) then mkIOQ 0 (replicate 256 0) 0 0 None 9
                                    else mkIOQ 256 (replicate 256 0) 0 0 None 9) (sc_data demo_evt) |}.

Definition sdu_epc : USBEndpointConfig := mkEpC 2 None None None 64 64 (Some 50) (Some 60) 1 None.
Definition sdu_usb : USBDriver :=
  mkUSB USB_ACTIVE None 0 0 (fun ep => if decide (ep = 1) then Some sdu_epc else None)
    (fun _ => 9) (fun _ => 9) USB_EP0_WAITING_SETUP UB_null 0 None [] 0 0 1 0.
Definition sdu_world (last : Z) : sduw :=
  mkSW (mkW (sc_state sdu_kernel) sdu_usb (fun _ => mkEpS true last last (EM_queue 4)) (fun _ => []) (fun _ => 0))
    (fun _ => mkSDU 1 SDU_READY 3 4 (Some (mkSC 1 1 2))).

Lemma sdu_kready last : @kready app_config 0 1 (w_k (s_w (sdu_world last))).
Proof.
  split.
  - intros ?. discriminate.
  - apply sc_KInv. apply (bool_decide_unpack _). by vm_compute.
  - done.
  - apply (bool_decide_unpack _). by vm_compute.
  - intros elp Help. change (elp ∈ [21; 20]) in Help. repeat (apply elem_of_cons in Help as [->|Help]; [done|]).
    by apply elem_of_nil in Help.
Qed.

Lemma sdu_received_fits_witness :
  exists x', settle (@sduDataReceived app_config 1 (sdu_world 0)) = Done tt x' /\
    exists n, w_ep (s_w x') 60 = queued 3 n /\ 0 < n <= 256 /\ n mod 64 = 0 /\ 256 < n + 64.
Proof.
  destruct (@sdu_received_fits app_config 0 (sdu_world 0) 1 sdu_epc 60)
    as (x' & E & _ & n & Hep & _ & Hn); [apply sdu_kready|done|done|done|done|done|done|].
  exists x'. split; [exact E|]. exists n. split; [|exact Hn]. rewrite Hep. apply fn_lookup_insert.
Defined.

Lemma sdu_transmitted_next_witness :
  exists x', settle (@sduDataTransmitted app_config 1 (sdu_world 128)) = Done tt x' /\ w_ep (s_w x') 50 = queued 4 0.
Proof.
  destruct (@sdu_transmitted_next app_config 0 (sdu_world 128) 1 sdu_epc 50 6)
    as (x' & E & _ & Hep & _); [apply sdu_kready|done|done|done|done|done|done|done|].
  exists x'. split; [exact E|]. rewrite Hep. apply fn_lookup_insert.
Defined.
