(* ===== verification/OtgQueue.v ===== *)
(** * USB packets and I/O queues ([usb_lld.c], FIFO transfers)

    A FIFO of the OTG peripheral is a register that takes or gives one word
    per access, the first byte in the low bits.  These are the transfers
    between a FIFO and the circular buffer of a queue, on the fields of the
    queue that the pump thread owns: the read position of an output queue, the
    write position of an input queue.  They run without the lock; the counter
    and the waiting threads follow under it ([fifo_update]).  A function that
    writes to a FIFO gives the words written; one that reads has the words to
    come in its state. *)
From S2P Require Import Prelude Monad Types ThdLists Sched Sem IOQ.

(** The word of up to four bytes, the first one in the low bits. *)
Fixpoint le_word (bs : list Z) : Z :=
  match bs with
  | [] => 0
  | b :: bs => b + 2^8 * le_word bs
  end.

(** [*((uint32_t * )p)], by the bytes of the object [p] points into. *)
Definition word_at (byte : Z -> option Z) (p : Z) : option Z :=
  b0 ← byte p; b1 ← byte (p + 1); b2 ← byte (p + 2); b3 ← byte (p + 3);
  Some (le_word [b0; b1; b2; b3]).

(** The words pushed and the pointer after the last one. *)
Fixpoint otg_do_push (byte : Z -> option Z) (p : Z) (n : nat) : option (list Z * Z) :=
  match n with
  | O => Some ([], p)
  | S n =>
      w ← word_at byte p;
      r ← otg_do_push byte (p + 4) n;
      Some (w :: fst r, snd r)
  end.

(** [(uint8_t)(w >> (i * 8))] *)
Definition word_byte (w i : Z) : Z := u8 (Z.shiftr w (i * 8)).

(** [*((uint32_t * )p) = w] in an array; past its end is an error. *)
Definition store_word (buf : list Z) (p w : Z) : option (list Z) :=
  if (0 <=? p) && (p + 4 <=? Z.of_nat (length buf)) then
    Some (<[Z.to_nat (p + 3) := word_byte w 3]> (<[Z.to_nat (p + 2) := word_byte w 2]>
         (<[Z.to_nat (p + 1) := word_byte w 1]> (<[Z.to_nat p := word_byte w 0]> buf))))
  else None.

(** ** From an output queue to a transmit FIFO *)

Definition q_byte (q : IOQueue) (i : Z) : option Z := q_buffer q !! Z.to_nat i.

(** The streak of whole words up to the end of the buffer: the words, the
    bytes left to go, and whether the position wrapped ([continue]). *)
Definition push_streak (ntogo : Z) : M IOQueue (list Z * Z * bool) := fun q =>
  let nw := ntogo / 4 in
  let nw2end := (chQSizeI q - q_rdptr q) / 4 in
  let streak := if nw <=? nw2end then nw else nw2end in
  match otg_do_push (q_byte q) (q_rdptr q) (Z.to_nat streak) with
  | None => Stuck (Fault "q_rdptr")
  | Some (ws, p) =>
      let q := set_q_rdptr p q in
      if chQSizeI q <=? q_rdptr q then Done (ws, ntogo - streak * 4, true) (set_q_rdptr 0 q)
      else Done (ws, ntogo - streak * 4, false) q
  end.

(** [*oqp->q_rdptr++] *)
Definition q_next : M IOQueue Z := fun q =>
  match q_peek q with
  | None => Stuck (Fault "q_rdptr")
  | Some b => Done b (q_advance q)
  end.

(** [while ((ntogo > 0) && (i < 4))], with [k] for [4 - i]: the word and the
    bytes left to go. *)
Fixpoint gather (k : nat) (i ntogo w : Z) : M IOQueue (Z * Z) :=
  match k with
  | O => mret' (w, ntogo)
  | S k =>
      if 0 <? ntogo then
        let! b := q_next in
        gather k (i + 1) (ntogo - 1) (Z.lor w (u32 (Z.shiftl b (i * 8))))
      else mret' (w, ntogo)
  end.

Definition write_round (ntogo : Z) : M IOQueue (list Z * Z) :=
  let! r := (if 0 <? ntogo / 4 then push_streak ntogo else mret' ([], ntogo, false)) in
  let ws := r.1.1 in
  let ntogo := r.1.2 in
  let again := r.2 in
  if again || (ntogo <=? 0) then mret' (ws, ntogo)
  else
    let! g := gather 4 0 ntogo 0 in
    mret' (ws ++ [g.1], g.2).

Fixpoint write_loop (fuel : nat) (ntogo : Z) : M IOQueue (list Z) :=
  if 0 <? ntogo then
    match fuel with
    | O => diverge
    | S fuel =>
        let! r := write_round ntogo in
        let! ws := write_loop fuel r.2 in
        mret' (r.1 ++ ws)
    end
  else mret' [].

(** ** From the receive FIFO to an input queue

    The state is the queue and the words to come. *)

Abbreviation RxM := (M (IOQueue * list Z)) (only parsing).

Definition pop_word : RxM Z := fun x =>
  match x with
  | (_, []) => Stuck (Fault "rx fifo")
  | (q, w :: f) => Done w (q, f)
  end.

Fixpoint otg_do_pop (p : Z) (n : nat) : RxM Z :=
  match n with
  | O => mret' p
  | S n =>
      let! w := pop_word in
      (fun x => match store_word (q_buffer x.1) p w with
                | None => Stuck (Fault "q_wrptr")
                | Some buf => Done tt (set_q_buffer buf x.1, x.2)
                end) ;;;
      otg_do_pop (p + 4) n
  end.

(** The streak of whole words; the distance to the end is computed from the
    write position to itself. *)
Definition pop_streak (ntogo : Z) : RxM (Z * bool) :=
  let! wrptr := gets (fun x => q_wrptr x.1) in
  let nw := ntogo / 4 in
  let nw2end := (wrptr - wrptr) / 4 in
  let streak := if nw <=? nw2end then nw else nw2end in
  let! p := otg_do_pop wrptr (Z.to_nat streak) in
  fun x =>
    let q := set_q_wrptr p x.1 in
    if chQSizeI q <=? q_wrptr q then Done (ntogo - streak * 4, true) (set_q_wrptr 0 q, x.2)
    else Done (ntogo - streak * 4, false) (q, x.2).

(** [while ((ntogo > 0) && (i < 4))] *)
Fixpoint scatter (k : nat) (i ntogo w : Z) : RxM Z :=
  match k with
  | O => mret' ntogo
  | S k =>
      if 0 <? ntogo then
        modify (fun x => (q_write (word_byte w i) x.1, x.2)) ;;;
        scatter k (i + 1) (ntogo - 1) w
      else mret' ntogo
  end.

Definition read_round (ntogo : Z) : RxM Z :=
  let! r := (if 0 <? ntogo / 4 then pop_streak ntogo else mret' (ntogo, false)) in
  let ntogo := r.1 in
  let again := r.2 in
  if again || (ntogo <=? 0) then mret' ntogo
  else
    let! w := pop_word in
    scatter 4 0 ntogo w.

Fixpoint read_loop (fuel : nat) (ntogo : Z) : RxM unit :=
  if 0 <? ntogo then
    match fuel with
    | O => diverge
    | S fuel => let! ntogo := read_round ntogo in read_loop fuel ntogo
    end
  else mret' tt.

(** ** The transfers in the kernel *)

Section Defs.
Context `{Config}.

(** A transfer on the queue [qp]. *)
Definition on_ioq {A} (qp : Z) (m : M IOQueue A) : KM A := fun s =>
  match m (k_ioq s qp) with
  | Done a q => Done a (upd_ioq qp (fun _ => q) s)
  | Suspend _ _ _ => Stuck (Fault "queue")
  | Stuck e => Stuck e
  end.

(** The words written to the FIFO. *)
Definition write_from_queue (oqp n : Z) : KM (list Z) := on_ioq oqp (write_loop (Z.to_nat n) n).

(** The words left in the FIFO. *)
Definition read_to_queue (iqp n : Z) (fifo : list Z) : KM (list Z) := fun s =>
  match read_loop (Z.to_nat n) n (k_ioq s iqp, fifo) with
  | Done _ (q, f) => Done f (upd_ioq iqp (fun _ => q) s)
  | Suspend _ _ _ => Stuck (Fault "queue")
  | Stuck e => Stuck e
  end.

(** Updating queue: the part under the lock, and the whole. *)
Definition fifo_count (qp n : Z) : KM unit :=
  modify (upd_ioq qp (q_count n)) ;;;
  wake_all qp Q_OK.

Definition fifo_update (qp n : Z) : KM unit :=
  chSysLock ;;;
  fifo_count qp n ;;;
  chSchRescheduleS ;;;
  chSysUnlock.
End Defs.
