(* ===== verification/OtgQueueOK.v ===== *)
(** * USB packets and I/O queues: correctness

    A packet is the sequence of its bytes; the FIFO holds it as words, the
    last one padded.  Sending takes the bytes from the front of the queue and
    receiving puts them at its back, wherever the positions are in the
    circular buffer. *)
From S2P Require Import Prelude Monad Types ThdLists Sched Sem IOQ Ring.
From S2P Require Import Inv InvPrim InvSched Rules Wake IOQOK OtgQueue.

Implicit Types (q : IOQueue) (l bs : list Z) (b w p : Z).

(** ** Bytes and words *)

(** The words of a packet. *)
Fixpoint pack (bs : list Z) : list Z :=
  match bs with
  | b0 :: b1 :: b2 :: b3 :: r => le_word [b0; b1; b2; b3] :: pack r
  | [] => []
  | bs => [le_word bs]
  end.

Lemma pack_short bs : (0 < length bs <= 4)%nat -> pack bs = [le_word bs].
Proof. destruct bs as [|? [|? [|? [|? [|]]]]]; simpl; intros; try lia; done. Qed.

Lemma pack_app : forall k bs r, length bs = (4 * k)%nat -> pack (bs ++ r) = pack bs ++ pack r.
Proof.
  induction k as [|k IH]; intros bs r Hk.
  { apply nil_length_inv in Hk. by subst. }
  destruct bs as [|b0 [|b1 [|b2 [|b3 bs]]]]; simpl in Hk; try lia. cbn [app pack].
  rewrite IH; [done|lia].
Qed.

Lemma le_word_range bs : Forall is_u8 bs -> 0 <= le_word bs < 2 ^ (8 * Z.of_nat (length bs)).
Proof.
  induction 1 as [|b bs Hb _ IH]; [by cbn|]. unfold is_u8 in Hb. cbn [le_word length].
  replace (8 * Z.of_nat (S (length bs))) with (8 + 8 * Z.of_nat (length bs)) by lia.
  rewrite Z.pow_add_r by lia. lia.
Qed.

Lemma lor_add w (n : Z) b : 0 <= n -> 0 <= w < 2^n -> Z.lor w (Z.shiftl b n) = w + b * 2^n.
Proof.
  intros Hn Hw. rewrite <-Z.shiftl_mul_pow2 by done.
  assert (Z.land w (Z.shiftl b n) = 0) as E.
  { apply Z.bits_inj'. intros i Hi. rewrite Z.land_spec, Z.bits_0.
    destruct (Z.lt_ge_cases i n).
    - by rewrite Z.shiftl_spec_low, andb_false_r.
    - rewrite <-(Z.mod_small w (2^n)), Z.mod_pow2_bits_high by lia. done. }
  by rewrite <-Z.lxor_lor, <-Z.add_nocarry_lxor.
Qed.

(** A byte of a word, whatever follows it. *)
Lemma word_byte_ok : forall bs i b, Forall is_u8 (take (S i) bs) -> bs !! i = Some b ->
  word_byte (le_word bs) (Z.of_nat i) = b.
Proof.
  induction bs as [|c bs IH]; intros i b HF Hi; [done|]. cbn [take] in HF.
  apply list.Forall_cons in HF as [Hc HF].
  unfold is_u8 in Hc. unfold word_byte, u8 in *. cbn [le_word]. destruct i as [|i].
  - injection Hi as <-. cbn [Z.of_nat Z.mul]. rewrite Z.shiftr_0_r.
    rewrite (Z.mul_comm (2^8)), Z.mod_add by lia. by apply Z.mod_small.
  - rewrite <-(IH i b HF Hi). f_equal.
    replace (Z.of_nat (S i) * 8) with (8 + Z.of_nat i * 8) by lia.
    rewrite <-Z.shiftr_shiftr by lia. f_equal.
    rewrite Z.shiftr_div_pow2 by lia. rewrite (Z.mul_comm (2^8)), Z.div_add by lia.
    rewrite Z.div_small by lia. done.
Qed.

(** The bytes of the words of a FIFO. *)
Definition bytes_of (ws : list Z) : list Z :=
  flat_map (fun w => [word_byte w 0; word_byte w 1; word_byte w 2; word_byte w 3]) ws.

(** The words carry the packet [bs]: as many as it takes, the last one padded
    with anything. *)
Definition carries (ws bs : list Z) : Prop :=
  Z.of_nat (length ws) = (len bs + 3) / 4 /\ take (length bs) (bytes_of ws) = bs.

Lemma take_min l (n m : nat) : (n <= m)%nat -> take n (take m l) = take n l.
Proof. intros. rewrite take_take. f_equal. lia. Qed.

Lemma word_byte_first bs n i b :
  Forall is_u8 (take n bs) -> (i < n)%nat -> bs !! i = Some b -> word_byte (le_word bs) (Z.of_nat i) = b.
Proof.
  intros HF Hi Hb. apply word_byte_ok; [|done]. rewrite <-(take_min bs (S i) n) by lia.
  by apply Forall_take.
Qed.

Lemma bytes_pack : forall k n l, length l = (4 * k)%nat -> (n <= 4 * k)%nat -> Forall is_u8 (take n l) ->
  take n (bytes_of (pack l)) = take n l.
Proof.
  induction k as [|k IH]; intros n l Hl Hn HF.
  { apply nil_length_inv in Hl. by subst. }
  destruct l as [|b0 [|b1 [|b2 [|b3 l]]]]; simpl in Hl; try lia. cbn [pack bytes_of flat_map].
  assert (forall i b, (i < n)%nat -> [b0; b1; b2; b3] !! i = Some b ->
    word_byte (le_word [b0; b1; b2; b3]) (Z.of_nat i) = b) as Hw.
  { intros i b Hi Hb. apply (word_byte_first _ (Nat.min n 4)); [| |done].
    - replace (take (Nat.min n 4) [b0; b1; b2; b3]) with (take (Nat.min n 4) (b0 :: b1 :: b2 :: b3 :: l)).
      + rewrite <-(take_min _ (Nat.min n 4) n) by lia. by apply Forall_take.
      + destruct n as [|[|[|[|n]]]]; try done. by rewrite Nat.min_r by lia.
    - apply lookup_lt_Some in Hb. simpl in Hb. lia. }
  pose proof (fun H => Hw 0%nat b0 H eq_refl) as W0. pose proof (fun H => Hw 1%nat b1 H eq_refl) as W1.
  pose proof (fun H => Hw 2%nat b2 H eq_refl) as W2. pose proof (fun H => Hw 3%nat b3 H eq_refl) as W3.
  change (Z.of_nat 0) with 0 in W0. change (Z.of_nat 1) with 1 in W1.
  change (Z.of_nat 2) with 2 in W2. change (Z.of_nat 3) with 3 in W3. destruct n as [|[|[|[|n]]]]; cbn [app take].
  - done.
  - by rewrite W0 by lia.
  - by rewrite W0, W1 by lia.
  - by rewrite W0, W1, W2 by lia.
  - rewrite W0, W1, W2, W3 by lia.
    do 4 f_equal. apply IH; [lia..|]. cbn [take] in HF. by do 4 (apply list.Forall_cons in HF as [_ HF]).
Qed.

Lemma length_pack : forall k l, length l = (4 * k)%nat -> length (pack l) = k.
Proof.
  induction k as [|k IH]; intros l Hl; [by apply nil_length_inv in Hl as ->|].
  destruct l as [|b0 [|b1 [|b2 [|b3 l]]]]; simpl in Hl; try lia. cbn [pack length]. by rewrite IH by lia.
Qed.

(** ** Contiguous bytes *)

Lemma otg_do_push_ok byte : forall k p l,
  length l = (4 * k)%nat -> (forall i x, l !! i = Some x -> byte (p + Z.of_nat i) = Some x) ->
  otg_do_push byte p k = Some (pack l, p + 4 * Z.of_nat k).
Proof.
  induction k as [|k IH]; intros p l Hl Hb.
  { apply nil_length_inv in Hl. subst. cbn. do 2 f_equal. lia. }
  destruct l as [|b0 [|b1 [|b2 [|b3 l]]]]; simpl in Hl; try lia. cbn [otg_do_push].
  unfold word_at.
  pose proof (Hb 0%nat b0 eq_refl) as B0. pose proof (Hb 1%nat b1 eq_refl) as B1.
  pose proof (Hb 2%nat b2 eq_refl) as B2. pose proof (Hb 3%nat b3 eq_refl) as B3.
  rewrite Z.add_0_r in B0. change (Z.of_nat 1) with 1 in B1. change (Z.of_nat 2) with 2 in B2.
  change (Z.of_nat 3) with 3 in B3. rewrite B0. cbn [mbind option_bind]. rewrite B1. cbn [mbind option_bind].
  rewrite B2. cbn [mbind option_bind]. rewrite B3. cbn [mbind option_bind].
  rewrite (IH (p + 4) l); [|lia|].
  - cbn. do 2 f_equal. lia.
  - intros i x Hi. replace (p + 4 + Z.of_nat i) with (p + Z.of_nat (4 + i)) by lia. by apply Hb.
Qed.

Lemma len_drop (n : nat) l : (n <= length l)%nat -> len (drop n l) = len l - Z.of_nat n.
Proof. intros. unfold len. rewrite length_drop. lia. Qed.

(** The part of a ring before the end of the buffer. *)
Lemma ring_front buf rd wr l (n i : nat) x :
  ring buf rd wr l -> rd + Z.of_nat n <= len buf -> take n l !! i = Some x ->
  buf !! Z.to_nat (rd + Z.of_nat i) = Some x.
Proof.
  intros [Hr Hl Hw Hg] Hn Hi. apply lookup_take_Some in Hi as [Hi Hlt].
  rewrite <-(Hg i x Hi). by rewrite Z.mod_small by lia.
Qed.

Lemma ring_skip buf rd wr l (n : nat) :
  ring buf rd wr l -> (n <= length l)%nat -> rd + Z.of_nat n <= len buf ->
  ring buf (if len buf <=? rd + Z.of_nat n then 0 else rd + Z.of_nat n) wr (drop n l).
Proof.
  intros HR. revert rd l HR. induction n as [|n IH]; intros rd l HR Hl Hn.
  - rewrite drop_0, Z.add_0_r. rewrite (proj2 (Z.leb_gt _ _)); [done|]. destruct HR. lia.
  - destruct l as [|x l]; [simpl in Hl; lia|]. destruct (ring_read _ _ _ _ _ HR) as [_ HR'].
    unfold nxt in HR'. cbn [drop]. destruct n as [|n].
    { by rewrite drop_0. }
    rewrite (proj2 (Z.leb_gt _ _)) in HR' by lia.
    replace (rd + Z.of_nat (S (S n))) with (rd + 1 + Z.of_nat (S n)) by lia.
    apply IH; [done|simpl in *; lia|lia].
Qed.

(** ** Sending *)

Lemma set_rdptr_twice p p' q : set_q_rdptr p (set_q_rdptr p' q) = set_q_rdptr p q.
Proof. by destruct q. Qed.
Lemma set_rdptr_id q : set_q_rdptr (q_rdptr q) q = q.
Proof. by destruct q. Qed.

(** Only the read position has moved, past [n] bytes. *)
Definition q_skipped q l (n : nat) q' : Prop := (exists p, q' = set_q_rdptr p q) /\ q_rep q' (drop n l).

Lemma skip_one q b l : q_rep q (b :: l) -> q_peek q = Some b /\ q_skipped q (b :: l) 1 (q_advance q).
Proof.
  intros HR. destruct (q_read_rep q l b HR) as (E & _ & HR' & _). split; [done|]. split; [|by rewrite skipn_cons, drop_0].
  unfold q_advance. destruct (_ <=? _); [exists 0; apply set_rdptr_twice|by exists (q_rdptr q + 1)].
Qed.

Lemma skip_trans q l n q1 m q2 :
  q_skipped q l n q1 -> q_skipped q1 (drop n l) m q2 -> q_skipped q l (n + m) q2.
Proof.
  intros [[p1 ->] _] [[p2 ->] HR]. split; [exists p2; apply set_rdptr_twice|]. by rewrite <-drop_drop.
Qed.

Lemma gather_ok : forall k i ntogo w q l,
  q_rep q l -> 0 <= ntogo <= len l -> 0 <= i -> i + Z.of_nat k = 4 -> 0 <= w < 2 ^ (i * 8) ->
  let m := Nat.min k (Z.to_nat ntogo) in
  exists q', gather k i ntogo w q = Done (w + 2 ^ (i * 8) * le_word (take m l), ntogo - Z.of_nat m) q' /\
    q_skipped q l m q'.
Proof.
  induction k as [|k IH]; intros i ntogo w q l HR Hn Hi Hk Hw m.
  { exists q. subst m. rewrite Nat.min_0_l, firstn_O. cbn. split; [by rewrite Z.mul_0_r, Z.add_0_r, Z.sub_0_r|].
    split; [|by rewrite drop_0]. exists (q_rdptr q). by rewrite set_rdptr_id. }
  cbn [gather]. destruct (Z.ltb_spec 0 ntogo) as [Hpos|Hz].
  - destruct l as [|b l]; [unfold len in Hn; simpl in Hn; lia|].
    destruct (q_read_rep q l b HR) as (_ & Hb & _). destruct (skip_one q b l HR) as [Ep HS].
    unfold bind at 1, q_next. rewrite Ep. cbn [obind].
    unfold is_u8 in Hb. assert (2 ^ ((i + 1) * 8) = 2 ^ (i * 8) * 2^8) as E8
      by (rewrite <-Z.pow_add_r by lia; f_equal; lia).
    assert (2 ^ (i * 8) * 2^8 <= 2^32) by (rewrite <-E8; apply Z.pow_le_mono_r; lia).
    rewrite u32_small by (unfold is_u32; rewrite Z.shiftl_mul_pow2 by lia; nia).
    rewrite lor_add by lia. destruct (IH (i + 1) (ntogo - 1) (w + b * 2 ^ (i * 8)) (q_advance q) l) as (q' & E & HS').
    + destruct HS as [_ HS]. by rewrite skipn_cons, drop_0 in HS.
    + unfold len in *. cbn [length] in Hn. lia.
    + lia.
    + lia.
    + rewrite E8. nia.
    + exists q'. rewrite E. assert (m = S (Nat.min k (Z.to_nat (ntogo - 1)))) as -> by lia. split.
      * cbn [take le_word]. rewrite E8. do 2 f_equal; [lia|lia].
      * change (S ?x) with (1 + x)%nat. apply (skip_trans q _ 1 (q_advance q)); [done|]. by rewrite skipn_cons, drop_0.
  - assert (m = 0%nat) as -> by lia. exists q. rewrite firstn_O. cbn. split; [do 2 f_equal; lia|].
    split; [|by rewrite drop_0]. exists (q_rdptr q). by rewrite set_rdptr_id.
Qed.

Lemma take_drop_add (n m : nat) l : take (n + m) l = take n l ++ take m (drop n l).
Proof.
  revert l. induction n as [|n IH]; intros l; [by rewrite drop_0, firstn_O|].
  destruct l as [|x l]; simpl; [by rewrite take_nil|]. by rewrite IH.
Qed.

Lemma push_streak_ok q l ntogo :
  q_rep q l -> 4 <= ntogo <= len l ->
  exists (k : nat) again q', push_streak ntogo q = Done (pack (take (4 * k) l), ntogo - 4 * Z.of_nat k, again) q' /\
    q_skipped q l (4 * k) q' /\ 4 * Z.of_nat k <= ntogo /\ (again = true -> (0 < k)%nat).
Proof.
  intros [HR Hs Hb] Hn. unfold push_streak. pose proof (r_rd _ _ _ _ HR) as Hr.
  change (chQSizeI q) with (len (q_buffer q)).
  set (end_ := (len (q_buffer q) - q_rdptr q) / 4). set (streak := if _ <=? _ then _ else _).
  pose proof (Z.div_mod (len (q_buffer q) - q_rdptr q) 4 ltac:(lia)) as D1.
  pose proof (Z.mod_pos_bound (len (q_buffer q) - q_rdptr q) 4 ltac:(lia)).
  pose proof (Z.div_mod ntogo 4 ltac:(lia)) as D2. pose proof (Z.mod_pos_bound ntogo 4 ltac:(lia)).
  assert (0 <= streak /\ 4 * streak <= ntogo /\ q_rdptr q + 4 * streak <= len (q_buffer q)) as (S1 & S2 & S3).
  { unfold streak, end_ in *. destruct (Z.leb_spec (ntogo / 4) ((len (q_buffer q) - q_rdptr q) / 4)); lia. }
  set (k := Z.to_nat streak). assert (streak = Z.of_nat k) as Ek by lia. clearbody streak.
  assert (4 * k <= length l)%nat as Hk by (unfold len in Hn; lia).
  rewrite (otg_do_push_ok _ k _ (take (4 * k) l)).
  2: { rewrite length_take. lia. }
  2: { intros i x Hi. unfold q_byte. apply (ring_front _ _ _ _ _ _ _ HR) in Hi; [done|]. lia. }
  pose proof (ring_skip _ _ _ _ (4 * k) HR Hk ltac:(lia)) as HR'.
  replace (q_rdptr q + Z.of_nat (4 * k)) with (q_rdptr q + 4 * Z.of_nat k) in HR' by lia.
  change (chQSizeI _) with (len (q_buffer q)). cbn [set_q_rdptr q_rdptr].
  replace (ntogo - streak * 4) with (ntogo - 4 * Z.of_nat k) by lia.
  exists k. destruct (Z.leb_spec (len (q_buffer q)) (q_rdptr q + 4 * Z.of_nat k)); do 2 eexists;
    (split; [reflexivity|]); (split; [split; [by eexists|by split]|]); (split; [lia|]); [lia|done].
Qed.

Lemma write_round_ok q l ntogo :
  q_rep q l -> 0 < ntogo <= len l ->
  exists (m : nat) q', write_round ntogo q = Done (pack (take m l), ntogo - Z.of_nat m) q' /\
    q_skipped q l m q' /\ (0 < m)%nat /\ Z.of_nat m <= ntogo /\
    (Z.of_nat m = ntogo \/ exists k, m = (4 * k)%nat).
Proof.
  intros HR Hn. unfold write_round.
  assert (exists (k : nat) again q1,
    (if 0 <? ntogo / 4 then push_streak ntogo else mret' ([], ntogo, false)) q =
      Done (pack (take (4 * k) l), ntogo - 4 * Z.of_nat k, again) q1 /\
    q_skipped q l (4 * k) q1 /\ 4 * Z.of_nat k <= ntogo /\ (again = true -> (0 < k)%nat))
    as (k & again & q1 & E & HS & Hk & Ha).
  { destruct (Z.ltb_spec 0 (ntogo / 4)) as [Hp|Hp].
    - apply push_streak_ok; [done|]. pose proof (Z.div_mod ntogo 4 ltac:(lia)). pose proof (Z.mod_pos_bound ntogo 4 ltac:(lia)). lia.
    - exists 0%nat, false, q. cbn [Nat.mul]. rewrite firstn_O. split; [cbn; by rewrite Z.sub_0_r|].
      split; [|lia]. split; [exists (q_rdptr q); by rewrite set_rdptr_id|by rewrite drop_0]. }
  unfold bind at 1. rewrite E. cbn [obind fst snd].
  destruct (again || (ntogo - 4 * Z.of_nat k <=? 0)) eqn:Hbr.
  - exists (4 * k)%nat, q1. split; [cbn; by repeat f_equal; lia|]. split; [done|].
    apply orb_true_iff in Hbr as [->|Hz]; [specialize (Ha eq_refl)|]; split_and!; try lia; right; by exists k.
  - apply orb_false_iff in Hbr as [_ Hz]. apply Z.leb_gt in Hz.
    destruct (gather_ok 4 0 (ntogo - 4 * Z.of_nat k) 0 q1 (drop (4 * k) l)) as (q2 & E2 & HS2).
    + apply HS.
    + rewrite len_drop by (unfold len in Hn; lia). lia.
    + lia.
    + done.
    + done.
    + unfold bind. rewrite E2. cbn [obind mret' fst snd].
      set (m := Nat.min 4 (Z.to_nat (ntogo - 4 * Z.of_nat k))) in *.
      exists (4 * k + m)%nat, q2. split_and!; try lia.
      * assert (length (take (4 * k) l) = (4 * k)%nat) as L1 by (rewrite length_take; unfold len in Hn; lia).
        rewrite take_drop_add, (pack_app k), (pack_short (take m _)).
        -- change (2 ^ (0 * 8)) with 1. rewrite Z.mul_1_l, Z.add_0_l. f_equal. f_equal. lia.
        -- rewrite length_take, length_drop. unfold len in Hn. lia.
        -- done.
      * by apply (skip_trans q l (4 * k) q1).
      * destruct (Nat.le_gt_cases 4 (Z.to_nat (ntogo - 4 * Z.of_nat k))); [right|left]; [exists (S k)|]; lia.
Qed.

(** The words of the first [n] bytes of the queue. *)
Lemma fifo_write_loop_ok : forall fuel n q l,
  q_rep q l -> 0 <= n <= len l -> n <= Z.of_nat fuel ->
  exists q', write_loop fuel n q = Done (pack (take (Z.to_nat n) l)) q' /\ q_skipped q l (Z.to_nat n) q'.
Proof.
  induction fuel as [|fuel IH]; intros n q l HR Hn Hf; cbn [write_loop].
  - assert (n = 0) as -> by lia. exists q. rewrite firstn_O. split; [done|].
    split; [exists (q_rdptr q); by rewrite set_rdptr_id|by rewrite drop_0].
  - destruct (Z.ltb_spec 0 n) as [Hp|Hz].
    2: { assert (n = 0) as -> by lia. exists q. rewrite firstn_O. split; [done|].
         split; [exists (q_rdptr q); by rewrite set_rdptr_id|by rewrite drop_0]. }
    destruct (write_round_ok q l n HR ltac:(lia)) as (m & q1 & E & HS & H0 & Hm & Hd).
    destruct (IH (n - Z.of_nat m) q1 (drop m l)) as (q2 & E2 & HS2); [apply HS| |lia|].
    { rewrite len_drop by (unfold len in Hn; lia). lia. }
    unfold bind. rewrite E. cbn [obind fst snd]. rewrite E2. cbn [obind mret'].
    assert (Z.to_nat n = m + Z.to_nat (n - Z.of_nat m))%nat as -> by lia.
    exists q2. split; [|by apply (skip_trans q l m q1)]. rewrite take_drop_add. f_equal.
    destruct Hd as [Hd|[k Hd]].
    + replace (n - Z.of_nat m) with 0 by lia. by rewrite firstn_O, !app_nil_r.
    + rewrite (pack_app k); [done|]. rewrite length_take. unfold len in Hn. lia.
Qed.

(** ** Receiving *)

Lemma pack_cons bs : bs <> [] -> pack bs = le_word (take 4 bs) :: pack (drop 4 bs).
Proof. by destruct bs as [|? [|? [|? [|? ?]]]]. Qed.

(** [bs] was added at the back; only the buffer and the write position have changed. *)
Definition q_added q l bs q' : Prop :=
  q_rep q' (l ++ bs) /\ q_counter q' = q_counter q /\ len (q_buffer q') = len (q_buffer q) /\
  q_notify q' = q_notify q.

Lemma added_nil q l : q_rep q l -> q_added q l [] q.
Proof. intros HR. unfold q_added. by rewrite app_nil_r. Qed.

Lemma added_trans q l bs q1 bs' q2 :
  q_added q l bs q1 -> q_added q1 (l ++ bs) bs' q2 -> q_added q l (bs ++ bs') q2.
Proof.
  intros (_ & E1 & E2 & E3) (HR & F1 & F2 & F3). unfold q_added. rewrite app_assoc.
  split_and!; congruence.
Qed.

Lemma added_one q l b : q_rep q l -> len l < len (q_buffer q) -> is_u8 b -> q_added q l [b] (q_write b q).
Proof. intros HR Hl Hb. by destruct (q_write_rep q l b HR Hl Hb) as (? & ? & ? & ?). Qed.

Lemma scatter_ok f : forall k i ntogo w q l bs,
  q_rep q l -> 0 <= i -> length bs = Nat.min k (Z.to_nat ntogo) -> Forall is_u8 bs ->
  (forall j b, bs !! j = Some b -> word_byte w (i + Z.of_nat j) = b) ->
  len l + len bs <= len (q_buffer q) -> 0 <= ntogo ->
  exists q', scatter k i ntogo w (q, f) = Done (ntogo - len bs) (q', f) /\ q_added q l bs q'.
Proof.
  induction k as [|k IH]; intros i ntogo w q l bs HR Hi Hl HF Hw Hroom Hn; cbn [scatter].
  { rewrite Nat.min_0_l in Hl. apply nil_length_inv in Hl. subst. exists q. split; [|by apply added_nil].
    cbn. by rewrite Z.sub_0_r. }
  destruct (Z.ltb_spec 0 ntogo) as [Hp|Hz].
  2: { destruct bs; [|cbn [length] in Hl; lia]. exists q. split; [|by apply added_nil]. cbn. by rewrite Z.sub_0_r. }
  destruct bs as [|b bs]; [cbn [length] in Hl; lia|]. apply list.Forall_cons in HF as [Hb HF].
  pose proof (Hw 0%nat b eq_refl) as Eb. rewrite Z.add_0_r in Eb.
  unfold bind at 1, modify at 1. cbn [obind fst snd]. rewrite Eb.
  assert (len (b :: bs) = 1 + len bs) as Lb by (unfold len; simpl; lia). pose proof (len_nonneg bs).
  pose proof (added_one q l b HR ltac:(lia) Hb) as HA.
  destruct (IH (i + 1) (ntogo - 1) w (q_write b q) (l ++ [b]) bs) as (q' & E & HA').
  - apply HA.
  - lia.
  - cbn [length] in Hl. lia.
  - done.
  - intros j c Hj. replace (i + 1 + Z.of_nat j) with (i + Z.of_nat (S j)) by lia. by apply Hw.
  - destruct HA as (_ & _ & -> & _). rewrite len_app. change (len [b]) with 1. lia.
  - lia.
  - exists q'. rewrite E. split; [f_equal; lia|]. by apply (added_trans q l [b] (q_write b q)).
Qed.

(** No whole word is ever popped at once: the distance to the end is zero. *)
Lemma pop_streak_ok q l f ntogo :
  q_rep q l -> 0 < ntogo / 4 -> pop_streak ntogo (q, f) = Done (ntogo, false) (q, f).
Proof.
  intros [HR _ _] Hp. unfold pop_streak, bind at 1, gets. cbn [obind fst]. rewrite Z.sub_diag.
  change (0 / 4) with 0. rewrite (proj2 (Z.leb_gt (ntogo / 4) 0)) by done.
  change (Z.to_nat 0) with 0%nat. unfold bind. cbn [otg_do_pop mret' obind fst snd].
  assert (set_q_wrptr (q_wrptr q) q = q) as -> by (by destruct q).
  pose proof (ring_wr_range _ _ _ _ HR). change (chQSizeI q) with (len (q_buffer q)).
  rewrite (proj2 (Z.leb_gt _ _)) by lia. by rewrite Z.sub_0_r.
Qed.

Lemma read_round_ok q l bs f :
  q_rep q l -> bs <> [] -> Forall is_u8 bs -> len l + len bs <= len (q_buffer q) ->
  exists q', read_round (len bs) (q, pack bs ++ f) = Done (len (drop 4 bs)) (q', pack (drop 4 bs) ++ f) /\
    q_added q l (take 4 bs) q'.
Proof.
  intros HR Hne HF Hroom. unfold read_round. set (x := (q, pack bs ++ f)).
  assert ((if 0 <? len bs / 4 then pop_streak (len bs) else mret' (len bs, false)) x = Done (len bs, false) x) as E.
  { destruct (Z.ltb_spec 0 (len bs / 4)) as [Hp|]; [|done]. by apply (pop_streak_ok q l). }
  unfold bind at 1. rewrite E. cbn [obind fst snd orb].
  assert (0 < len bs) as Hpos by (unfold len; destruct bs; simpl; [done|lia]).
  rewrite (proj2 (Z.leb_gt _ _)) by done. unfold bind, pop_word, x. rewrite (pack_cons bs) by done. cbn [app obind].
  assert (length (take 4 bs) = Nat.min 4 (Z.to_nat (len bs))) as Lt by (rewrite length_take; unfold len; lia).
  assert (Forall is_u8 (take 4 bs)) as HF4 by (by apply Forall_take).
  destruct (scatter_ok (pack (drop 4 bs) ++ f) 4 0 (len bs) (le_word (take 4 bs)) q l (take 4 bs))
    as (q' & Es & HA); try done.
  - intros j b Hj. apply word_byte_ok; [by apply Forall_take|done].
  - unfold len in *. rewrite length_take. lia.
  - lia.
  - exists q'. rewrite Es. split; [|done]. f_equal. unfold len. rewrite length_take, length_drop. lia.
Qed.

(** The bytes of a packet go to the back of the queue, and its words out of the FIFO. *)
Lemma fifo_read_loop_ok : forall fuel bs q l f,
  q_rep q l -> Forall is_u8 bs -> len l + len bs <= len (q_buffer q) -> (length bs <= fuel)%nat ->
  exists q', read_loop fuel (len bs) (q, pack bs ++ f) = Done tt (q', f) /\ q_added q l bs q'.
Proof.
  induction fuel as [|fuel IH]; intros bs q l f HR HF Hroom Hf; cbn [read_loop].
  { destruct bs; [|simpl in Hf; lia]. exists q. split; [done|]. by apply added_nil. }
  destruct (Z.ltb_spec 0 (len bs)) as [Hp|Hz].
  2: { destruct bs; [|unfold len in Hz; simpl in Hz; lia]. exists q. split; [done|]. by apply added_nil. }
  destruct (read_round_ok q l bs f HR) as (q1 & E & HA); [by destruct bs|done..|].
  unfold bind. rewrite E. cbn [obind].
  destruct (IH (drop 4 bs) q1 (l ++ take 4 bs) f) as (q2 & E2 & HA2).
  - apply HA.
  - by apply Forall_drop.
  - destruct HA as (_ & _ & -> & _). rewrite len_app. unfold len in *. rewrite length_take, length_drop. lia.
  - rewrite length_drop. lia.
  - exists q2. split; [done|]. pose proof (added_trans _ _ _ _ _ _ HA HA2) as HH.
    by rewrite take_drop in HH.
Qed.

(** ** The queue as the threads see it *)

Lemma oq_skip_rep q l n q' :
  oq_rep q l -> 0 <= n <= len l -> q_skipped q l (Z.to_nat n) q' ->
  oq_rep (q_count n q') (drop (Z.to_nat n) l).
Proof.
  intros [HR Hc] Hn [[p ->] HR']. split; [by apply q_count_rep|].
  pose proof (r_len _ _ _ _ (qr_ring _ _ HR)). pose proof (qr_size _ _ HR).
  cbn [q_count set_q_counter q_counter set_q_rdptr q_buffer]. rewrite Hc.
  rewrite len_drop by (unfold len in Hn; lia). rewrite u32_small by (unfold is_u32; lia). lia.
Qed.

Lemma iq_added_rep q l bs q' :
  iq_rep q l -> len l + len bs <= len (q_buffer q) -> q_added q l bs q' ->
  iq_rep (q_count (len bs) q') (l ++ bs).
Proof.
  intros [HR Hc] Hroom (HR' & Ec & El & _). split; [by apply q_count_rep|].
  pose proof (qr_size _ _ HR). pose proof (len_nonneg l). pose proof (len_nonneg bs).
  cbn [q_count set_q_counter q_counter]. rewrite Ec, Hc, len_app. apply u32_small. unfold is_u32. lia.
Qed.

Section Kernel.
Context `{Config} (idle : tid).

Lemma write_from_queue_eq s oqp n l :
  oq_rep (k_ioq s oqp) l -> 0 <= n <= len l ->
  exists q', write_from_queue oqp n s = Done (pack (take (Z.to_nat n) l)) (upd_ioq oqp (fun _ => q') s) /\
    oq_rep (q_count n q') (drop (Z.to_nat n) l).
Proof.
  intros HR Hn. destruct (fifo_write_loop_ok (Z.to_nat n) n (k_ioq s oqp) l) as (q' & E & HS); [apply HR|done|lia|].
  exists q'. unfold write_from_queue, on_ioq. rewrite E. split; [done|]. by apply (oq_skip_rep (k_ioq s oqp)).
Qed.

Lemma read_to_queue_eq s iqp l bs f :
  iq_rep (k_ioq s iqp) l -> Forall is_u8 bs -> len l + len bs <= len (q_buffer (k_ioq s iqp)) ->
  exists q', read_to_queue iqp (len bs) (pack bs ++ f) s = Done f (upd_ioq iqp (fun _ => q') s) /\
    iq_rep (q_count (len bs) q') (l ++ bs).
Proof.
  intros HR HF Hroom.
  destruct (fifo_read_loop_ok (Z.to_nat (len bs)) bs (k_ioq s iqp) l f) as (q' & E & HA); try done;
    [apply HR|unfold len; lia|].
  exists q'. unfold read_to_queue. rewrite E. split; [done|]. by apply (iq_added_rep (k_ioq s iqp)).
Qed.

(** The count, and every waiting thread made ready with [Q_OK]. *)
Lemma fifo_count_eq s qp n :
  locked_I s -> KInv idle None s ->
  exists s', fifo_count qp n s = Done tt s' /\ istep idle (upd_ioq qp (q_count n) s) s' /\
    k_ioq s' qp = q_count n (k_ioq s qp) /\ k_q s' (QIO qp) = [] /\
    forall u, u ∈ k_q s (QIO qp) -> p_state (k_thd s' u) = THD_STATE_READY /\ p_u (k_thd s' u) = U_msg Q_OK.
Proof.
  intros HL HI. unfold fifo_count, bind at 1, modify at 1. cbn [obind]. set (s1 := upd_ioq qp _ s). unfold wake_all.
  destruct (wake_loop_eq idle (QIO qp) Q_OK eq_refl (k_q s1 (QIO qp)) s1)
    as (s' & E & Hi & Hq & Ht); [by apply set_k_ioq_inv|done|done|].
  exists s'. split_and!; try done.
  - pose proof (is_data _ _ _ Hi) as Hd. unfold kdata in Hd.
    assert (k_ioq s' = k_ioq s1) as -> by congruence. unfold s1. simpl. by rewrite fn_insert_eq.
  - intros u Hu. rewrite Ht. simpl. by rewrite decide_True.
Qed.

Variable J : kdata_t -> Prop.

Lemma fifo_count_locked t ml s qp n q' :
  Ust idle J t ml s ->
  exists s2, fifo_count qp n (with_lock 1 (upd_ioq qp (fun _ => q') s)) = Done tt s2 /\
    k_ioq s2 qp = q_count n q' /\ k_q s2 (QIO qp) = [] /\
    forall u, u ∈ k_q s (QIO qp) -> p_state (k_thd s2 u) = THD_STATE_READY /\ p_u (k_thd s2 u) = U_msg Q_OK.
Proof.
  intros (HI & _ & _ & _ & HU & _). set (s1 := upd_ioq qp (fun _ => q') s).
  assert (locked_I (with_lock 1 s1)) as HL by (assert (unlocked s1) by done; by auto with chibi).
  destruct (fifo_count_eq (with_lock 1 s1) qp n HL) as (s2 & E & _ & Eq & Ew & Hu).
  { apply KInv_lock. by apply (set_k_ioq_inv idle None s). }
  assert (k_ioq (with_lock 1 s1) = k_ioq s1) as E1 by (unfold with_lock; by destruct CH_DBG_SYSTEM_STATE_CHECK).
  destruct (with_lock_fields 1 s1) as (_ & E2 & _). rewrite E1 in Eq. rewrite E2 in Hu.
  exists s2. split_and!; try done. rewrite Eq. unfold s1. simpl. by rewrite fn_insert_eq.
Qed.

(** The update brings the queue back to a state the other threads may see. *)
Lemma fifo_update_safe t ml qp ok n q' s `{!QueueInv J qp ok} :
  Ust idle J t ml s -> ok (q_count n q') ->
  osafe (grd idle J) (rely idle J t) (fun _ s' => Ust idle J t ml s')
    (fifo_update qp n (upd_ioq qp (fun _ => q') s)).
Proof.
  intros HU Hok. destruct (chSysLock_rule idle J t ml s HU) as (sl & _ & -> & HS).
  pose proof HU as (_ & _ & _ & _ & Hun & _). set (s1 := upd_ioq qp (fun _ => q') s).
  assert (chSysLock s1 = Done tt (with_lock 1 s1)) as E by (by apply chSysLock_ok).
  unfold fifo_update. rewrite (done_bind _ _ _ _ _ E).
  set (s2 := upd_ioq qp (q_count n) (with_lock 1 s1)).
  assert (Sst idle J t ml s2) as HS2.
  { assert (s2 = set_k_ioq (k_ioq s2) (with_lock 1 s)) as ->.
    { unfold s2, s1, with_lock. destruct CH_DBG_SYSTEM_STATE_CHECK; by destruct s. }
    assert (k_ioq (with_lock 1 s) = k_ioq s /\ k_ioq (with_lock 1 s1) = k_ioq s1) as [Eq Eq1]
      by (unfold with_lock; by destruct CH_DBG_SYSTEM_STATE_CHECK).
    apply (set_ioq_Sst idle J qp ok t ml (k_ioq s2) (with_lock 1 s)); [done| |].
    - intros p Hp. unfold s2. simpl. rewrite Eq, Eq1. simpl. by rewrite !fn_insert_ne by congruence.
    - unfold s2. simpl. rewrite fn_insert_eq, Eq1. simpl. by rewrite fn_insert_eq. }
  pose proof HS2 as [HM2 _]. pose proof HM2 as (HI2 & _ & _ & HL2 & _).
  assert (locked_I (with_lock 1 s1)) as HL1 by (by apply locked_S_I).
  destruct (fifo_count_eq (with_lock 1 s1) qp n HL1) as (s3 & E3 & Hi & _); [by apply (set_k_ioq_inv idle None _ (k_ioq s2))|].
  rewrite (done_bind _ _ _ _ _ E3). apply osafe_bind.
  apply (chSchRescheduleS_rule idle J t ml); [by apply (istep_Mst idle J t ml s2)|].
  intros s4 HS4. by apply (chSysUnlock_rule idle J t ml).
Qed.
End Kernel.
