(* ===== verification/OtgFifo.v ===== *)
(** * USB low level driver: FIFO transfers, interrupts and the pump thread
    ([os/hal/platforms/STM32/OTGv1/usb_lld.c])

    The world is that of the USB driver, with the memory of the application,
    the FIFOs of the peripheral and the fields of [USBDriver] that only the
    low level driver uses.  A transmit FIFO is the words written to it; the
    receive FIFO gives one status word per packet through [GRXSTSP], and then
    the words of the packet.  What the peripheral does to the registers it
    owns is the class [OtgIrqHw]. *)
From S2P Require Import Prelude Monad Types ThdLists Sched Sem Threads IOQ.
From S2P Require Import USBTypes USBLld USB OtgQueue.

Definition GRXSTSP_PKTSTS_MASK : Z := Z.shiftl 15 17.
Definition GRXSTSP_PKTSTS (n : Z) : Z := Z.shiftl n 17.
Definition GRXSTSP_OUT_DATA : Z := GRXSTSP_PKTSTS 2.
Definition GRXSTSP_SETUP_COMP : Z := GRXSTSP_PKTSTS 4.
Definition GRXSTSP_SETUP_DATA : Z := GRXSTSP_PKTSTS 6.
Definition GRXSTSP_BCNT_MASK : Z := Z.shiftl 0x7FF 4.
Definition GRXSTSP_BCNT_OFF : Z := 4.
Definition GRXSTSP_EPNUM_MASK : Z := 15.
Definition GRXSTSP_EPNUM_OFF : Z := 0.
Definition DTXFSTS_INEPTFSAV_MASK : Z := 0xFFFF.
Definition DIEPINT_XFRC : Z := bitn 0.
Definition DIEPINT_TXFE : Z := bitn 7.
Definition DOEPINT_XFRC : Z := bitn 0.
Definition DOEPINT_STUP : Z := bitn 3.
Definition GINTSTS_USBRST : Z := bitn 12.
Definition GINTSTS_SOF : Z := bitn 3.
Definition GINTSTS_RXFLVL : Z := bitn 4.
Definition GINTSTS_IEPINT : Z := bitn 18.
Definition GINTSTS_OEPINT : Z := bitn 19.
Definition GAHBCFG_GINTMSK : Z := bitn 0.

Record otgw := mkO {
  o_w : usbw;
  o_mem : Z -> Z;          (* memory of the application, bytes *)
  o_tx : Z -> list Z;      (* words written to the transmit FIFOs *)
  o_sts : list Z;          (* status words of the receive FIFO *)
  o_rx : list Z;           (* words of the receive FIFO *)
  o_txpending : Z;
  o_thd_wait : option tid
}.

Definition set_o_w (v : usbw) (x : otgw) : otgw :=
  mkO v (o_mem x) (o_tx x) (o_sts x) (o_rx x) (o_txpending x) (o_thd_wait x).
Definition set_o_mem (v : Z -> Z) (x : otgw) : otgw :=
  mkO (o_w x) v (o_tx x) (o_sts x) (o_rx x) (o_txpending x) (o_thd_wait x).
Definition set_o_tx (v : Z -> list Z) (x : otgw) : otgw :=
  mkO (o_w x) (o_mem x) v (o_sts x) (o_rx x) (o_txpending x) (o_thd_wait x).
Definition set_o_sts (v : list Z) (x : otgw) : otgw :=
  mkO (o_w x) (o_mem x) (o_tx x) v (o_rx x) (o_txpending x) (o_thd_wait x).
Definition set_o_rx (v : list Z) (x : otgw) : otgw :=
  mkO (o_w x) (o_mem x) (o_tx x) (o_sts x) v (o_txpending x) (o_thd_wait x).
Definition set_o_txpending (v : Z) (x : otgw) : otgw :=
  mkO (o_w x) (o_mem x) (o_tx x) (o_sts x) (o_rx x) v (o_thd_wait x).
Definition set_o_thd_wait (v : option tid) (x : otgw) : otgw :=
  mkO (o_w x) (o_mem x) (o_tx x) (o_sts x) (o_rx x) (o_txpending x) v.

Abbreviation OM := (M otgw) (only parsing).

(** A function of the USB driver, or of the kernel. *)
Fixpoint udrv_o {A} (x : otgw) (o : outcome usbw A) : outcome otgw A :=
  match o with
  | Done a w => Done a (set_o_w w x)
  | Suspend p w k => Suspend p (set_o_w w x) (fun x' => udrv_o x' (k (o_w x')))
  | Stuck e => Stuck e
  end.
Definition udrv {A} (m : M usbw A) : OM A := fun x => udrv_o x (m (o_w x)).
Definition rtos {A} (m : M kstate A) : OM A := udrv (kern m).

(** The registers the peripheral owns: their value in a state, and the effect
    of a write, which acknowledges.  [beyond] is what lies after an object in
    memory. *)
Class OtgIrqHw := {
  hw_read : otgreg -> otgw -> Z;
  hw_ack : otgreg -> Z -> otgw -> otgw;
  hw_txspace : Z -> otgw -> Z;
  beyond : usbbuf -> Z -> Z
}.

Section Defs.
Context `{Config} `{OtgHw} `{UsbApp} `{OtgIrqHw}.

(** ** Buffers *)

(** The byte at an offset of an object. *)
Definition load (x : otgw) (b : usbbuf) (i : Z) : option Z :=
  let d := w_usb (o_w x) in
  match b with
  | UB_null => None
  | UB_status => Some (if i =? 0 then u8 (usb_status d)
                       else if i =? 1 then u8 (Z.shiftr (usb_status d) 8) else beyond b i)
  | UB_configuration => Some (if i =? 0 then usb_configuration d else beyond b i)
  | UB_const bytes => Some (default (beyond b i) (bytes !! Z.to_nat i))
  | UB_user a => Some (o_mem x (a + i))
  end.

(** [*((uint32_t * )buf) = w].  The status and the configuration of the driver are
    shorter than a word, and descriptors are constants: only a buffer of the
    application can be written. *)
Definition store (b : usbbuf) (i w : Z) : OM unit :=
  match b with
  | UB_user a =>
      modify (fun x => set_o_mem
        (<[a + i + 3 := word_byte w 3]> (<[a + i + 2 := word_byte w 2]>
        (<[a + i + 1 := word_byte w 1]> (<[a + i := word_byte w 0]> (o_mem x))))) x)
  | _ => fault "buffer"
  end.

Definition store_setup (a i w : Z) : OM unit := fun x =>
  match store_word (w_setup (o_w x) a) i w with
  | None => Stuck (Fault "setup_buf")
  | Some bytes => Done tt (set_o_w (set_w_setup (<[a := bytes]> (w_setup (o_w x))) (o_w x)) x)
  end.

(** ** FIFO transfers *)

Definition push_words (ep : Z) (ws : list Z) : OM unit :=
  modify (fun x => set_o_tx (<[ep := o_tx x ep ++ ws]> (o_tx x)) x).

Definition otg_fifo_write_from_buffer (ep : Z) (b : usbbuf) (off n : Z) : OM unit := fun x =>
  match otg_do_push (load x b) off (Z.to_nat ((n + 3) / 4)) with
  | None => Stuck (Fault "txbuf")
  | Some (ws, _) => push_words ep ws x
  end.

Definition otg_fifo_write_from_queue (ep oqp n : Z) : OM unit :=
  let! ws := rtos (write_from_queue oqp n) in
  push_words ep ws ;;;
  rtos (fifo_update oqp n).

(** [w = *fifop] *)
Definition rx_word : OM Z := fun x =>
  match o_rx x with
  | [] => Stuck (Fault "rx fifo")
  | w :: f => Done w (set_o_rx f x)
  end.

Fixpoint read_words (put : Z -> Z -> OM unit) (n max : nat) (off : Z) : OM unit :=
  match n with
  | O => mret' tt
  | S n =>
      let! w := rx_word in
      match max with
      | O => read_words put n O off
      | S max => put off w ;;; read_words put n max (off + 4)
      end
  end.

Definition otg_fifo_read_to_buffer (put : Z -> Z -> OM unit) (off n max : Z) : OM unit :=
  read_words put (Z.to_nat (u32 (n + 3) / 4)) (Z.to_nat (u32 (max + 3) / 4)) off.

Definition otg_fifo_read_to_queue (iqp n : Z) : OM unit :=
  let! f := gets o_rx in
  let! f := rtos (read_to_queue iqp n f) in
  modify (set_o_rx f) ;;;
  rtos (fifo_update iqp n).

(** ** Incoming packets *)

Definition rx_status : OM Z := fun x =>
  match o_sts x with
  | [] => Stuck (Fault "GRXSTSP")
  | sts :: l => Done sts (set_o_sts l x)
  end.

(** [usbp->epc[ep]->out_state] and [usbp->epc[ep]->in_state], read at every use. *)
Definition out_state (ep : Z) : OM Z :=
  let! c := udrv (get_epc ep) in udrv (deref (epc_out_state c) "out_state").
Definition in_state (ep : Z) : OM Z :=
  let! c := udrv (get_epc ep) in udrv (deref (epc_in_state c) "in_state").
Definition the_state (state : OM Z) : OM USBEndpointState :=
  let! a := state in gets (fun x => w_ep (o_w x) a).
Definition upd_state (state : OM Z) (f : USBEndpointState -> USBEndpointState) : OM unit :=
  let! a := state in udrv (modify (upd_ep a f)).

(** A packet of data for an endpoint. *)
Definition receive_data (ep cnt : Z) : OM unit :=
  let! e := the_state (out_state ep) in
  (if ep_queued e then
     match ep_mode e with
     | EM_queue iqp => otg_fifo_read_to_queue iqp cnt
     | EM_linear _ _ => fault "rxqueue"
     end
   else
     match ep_mode e with
     | EM_linear b off =>
         otg_fifo_read_to_buffer (store b) off cnt (u32 (ep_size e - ep_cnt e)) ;;;
         upd_state (out_state ep) (set_ep_mode (EM_linear b (off + cnt)))
     | EM_queue _ => fault "rxbuf"
     end) ;;;
  upd_state (out_state ep) (fun e => set_ep_cnt (u32 (ep_cnt e + cnt)) e).

Definition otg_rxfifo_handler : OM unit :=
  let! sts := rx_status in
  let cnt := Z.shiftr (sts .& GRXSTSP_BCNT_MASK) GRXSTSP_BCNT_OFF in
  let ep := Z.shiftr (sts .& GRXSTSP_EPNUM_MASK) GRXSTSP_EPNUM_OFF in
  let kind := sts .& GRXSTSP_PKTSTS_MASK in
  if kind =? GRXSTSP_SETUP_COMP then mret' tt
  else if kind =? GRXSTSP_SETUP_DATA then
    let! c := udrv (get_epc ep) in
    let! a := udrv (deref (epc_setup_buf c) "setup_buf") in
    otg_fifo_read_to_buffer (store_setup a) 0 cnt 8
  else if kind =? GRXSTSP_OUT_DATA then
    receive_data ep cnt
  else mret' tt.

(** ** Outgoing packets *)

(** One packet of [n] bytes. *)
Definition send_data (ep n : Z) : OM unit :=
  let! e := the_state (in_state ep) in
  (if ep_queued e then
     match ep_mode e with
     | EM_queue oqp => otg_fifo_write_from_queue ep oqp n
     | EM_linear _ _ => fault "txqueue"
     end
   else
     match ep_mode e with
     | EM_linear b off =>
         otg_fifo_write_from_buffer ep b off n ;;;
         upd_state (in_state ep) (set_ep_mode (EM_linear b (off + n)))
     | EM_queue _ => fault "txbuf"
     end) ;;;
  upd_state (in_state ep) (fun e => set_ep_cnt (u32 (ep_cnt e + n)) e).

(** [TRUE] when the whole transaction is in the FIFO, [FALSE] when the FIFO
    has no room for the next packet. *)
Fixpoint otg_txfifo_handler (rounds : nat) (ep : Z) : OM bool :=
  let! c := udrv (get_epc ep) in
  let! e := the_state (in_state ep) in
  if ep_size e <=? ep_cnt e then mret' true
  else
    let n := ep_size e - ep_cnt e in
    let n := if epc_in_maxsize c <? n then epc_in_maxsize c else n in
    let! sp := gets (hw_txspace ep) in
    if (sp .& DTXFSTS_INEPTFSAV_MASK) * 4 <? n then mret' false
    else
      match rounds with
      | O => fun _ => Stuck Rounds
      | S rounds => send_data ep n ;;; otg_txfifo_handler rounds ep
      end.

(** ** Interrupts *)

Definition usb_lld_wakeup_pump : OM unit :=
  let! t := gets o_thd_wait in
  match t with
  | None => mret' tt
  | Some tp => rtos (chThdResumeI tp) ;;; modify (set_o_thd_wait None)
  end.

Definition otg_epin_handler (ep : Z) : OM unit :=
  let! epint := gets (hw_read (DIEPINT ep)) in
  modify (hw_ack (DIEPINT ep) 0xFFFFFFFF) ;;;
  let! msk := udrv (rd DIEPMSK) in
  (whenb negb (epint .& DIEPINT_XFRC =? 0) && negb (msk .& DIEPMSK_XFRCM =? 0)
   then udrv (_usb_isr_invoke_in_cb ep)) ;;;
  let! emp := udrv (rd DIEPEMPMSK) in
  whenb negb (epint .& DIEPINT_TXFE =? 0) && negb (emp .& DIEPEMPMSK_INEPTXFEM ep =? 0) then (
    rtos chSysLockFromIsr ;;;
    modify (fun x => set_o_txpending (u32 (o_txpending x .| Z.shiftl 1 ep)) x) ;;;
    udrv (wr_clear DIEPEMPMSK (Z.shiftl 1 ep)) ;;;
    usb_lld_wakeup_pump ;;;
    rtos chSysUnlockFromIsr).

Definition otg_epout_handler (ep : Z) : OM unit :=
  let! epint := gets (hw_read (DOEPINT ep)) in
  modify (hw_ack (DOEPINT ep) 0xFFFFFFFF) ;;;
  let! msk := udrv (rd DOEPMSK) in
  (whenb negb (epint .& DOEPINT_STUP =? 0) && negb (msk .& DOEPMSK_STUPM =? 0)
   then udrv (_usb_isr_invoke_setup_cb ep)) ;;;
  let! msk := udrv (rd DOEPMSK) in
  whenb negb (epint .& DOEPINT_XFRC =? 0) && negb (msk .& DOEPMSK_XFRCM =? 0)
  then udrv (_usb_isr_invoke_out_cb ep).

(** [if (src & (1 << bit)) handler(ep)] *)
Definition serve_ep (src bit : Z) (handler : OM unit) : OM unit :=
  whenb negb (src .& Z.shiftl 1 bit =? 0) then handler.

(** The handler, with the configuration's single OTG1 peripheral. *)
Definition usb_lld_serve_interrupt : OM unit :=
  let! g := gets (hw_read GINTSTS) in
  let! m := udrv (rd GINTMSK) in
  let sts := g .& m in
  modify (hw_ack GINTSTS sts) ;;;
  (whenb negb (sts .& GINTSTS_USBRST =? 0) then
     (udrv _usb_reset ;;; udrv (_usb_isr_invoke_event_cb USB_EVENT_RESET))) ;;;
  (whenb negb (sts .& GINTSTS_SOF =? 0) then udrv _usb_isr_invoke_sof_cb) ;;;
  (whenb negb (sts .& GINTSTS_RXFLVL =? 0) then
     (rtos chSysLockFromIsr ;;;
      udrv (wr_clear GINTMSK GINTMSK_RXFLVLM) ;;;
      usb_lld_wakeup_pump ;;;
      rtos chSysUnlockFromIsr)) ;;;
  let! src := gets (hw_read DAINT) in
  (whenb negb (sts .& GINTSTS_IEPINT =? 0) then
     (serve_ep src 0 (otg_epin_handler 0) ;;; serve_ep src 1 (otg_epin_handler 1) ;;;
      serve_ep src 2 (otg_epin_handler 2) ;;; serve_ep src 3 (otg_epin_handler 3))) ;;;
  whenb negb (sts .& GINTSTS_OEPINT =? 0) then
    (serve_ep src 16 (otg_epout_handler 0) ;;; serve_ep src 17 (otg_epout_handler 1) ;;;
     serve_ep src 18 (otg_epout_handler 2) ;;; serve_ep src 19 (otg_epout_handler 3)).

(** ** The pump thread *)

Definition rx_pending (x : otgw) : bool := negb (hw_read GINTSTS x .& GINTSTS_RXFLVL =? 0).

(** Nothing to do, going to sleep; under the lock. *)
Definition pump_sleep : OM unit :=
  let! st := udrv (drv usb_state) in
  let! idle := gets (fun x => (o_txpending x =? 0) && negb (rx_pending x)) in
  whenb bool_decide (st = USB_STOP) || idle then (
    udrv (wr_or GINTMSK GINTMSK_RXFLVLM) ;;;
    let! me := rtos currp in
    modify (set_o_thd_wait (Some me)) ;;;
    rtos (chSchGoSleepS THD_STATE_SUSPENDED)).

(** Empties the RX FIFO. *)
Fixpoint pump_drain (rounds : nat) : OM unit :=
  let! more := gets rx_pending in
  if more then
    match rounds with
    | O => fun _ => Stuck Rounds
    | S rounds => otg_rxfifo_handler ;;; pump_drain rounds
    end
  else mret' tt.

Definition pump_fill (rounds : nat) (ep : Z) : OM unit :=
  let epmask := Z.shiftl 1 ep in
  let! pending := gets (fun x => o_txpending x .& epmask) in
  whenb negb (pending =? 0) then (
    rtos chSysLock ;;;
    udrv (wr_clear GAHBCFG GAHBCFG_GINTMSK) ;;;
    modify (fun x => set_o_txpending (o_txpending x .& Z.lnot epmask) x) ;;;
    rtos chSysUnlock ;;;
    let! done := otg_txfifo_handler rounds ep in
    rtos chSysLock ;;;
    udrv (wr_or GAHBCFG GAHBCFG_GINTMSK) ;;;
    (whenb negb done then udrv (wr_or DIEPEMPMSK epmask)) ;;;
    rtos chSysUnlock).

(** [for (ep = 0; ep <= num_endpoints; ep++)] *)
Fixpoint pump_eps (rounds n : nat) (ep : Z) : OM unit :=
  match n with
  | O => mret' tt
  | S n => pump_drain rounds ;;; pump_fill rounds ep ;;; pump_eps rounds n (ep + 1)
  end.

(** One round of the loop of the thread, from and to a state with the lock. *)
Definition usb_lld_pump_round (rounds : nat) : OM unit :=
  pump_sleep ;;;
  rtos chSysUnlock ;;;
  pump_eps rounds (Z.to_nat (otg_num_endpoints + 1)) 0 ;;;
  rtos chSysLock.

(** The thread runs until the rounds are over. *)
Fixpoint pump_loop (rounds iters : nat) : OM unit :=
  match iters with
  | O => fun _ => Stuck Rounds
  | S iters => usb_lld_pump_round rounds ;;; pump_loop rounds iters
  end.
Definition usb_lld_pump (name : Z) (rounds iters : nat) : OM unit :=
  rtos (chRegSetThreadName (Some name)) ;;; rtos chSysLock ;;; pump_loop rounds iters.
End Defs.
