(* ===== verification/OtgThm.v ===== *)
(** * USB packets through the FIFOs: main theorems

    A transaction leaves in packets of at most the packet size of the
    endpoint, whole and in order, from a buffer or from an output queue; a
    packet received goes to the buffer, within its size rounded to words, or to
    the input queue. *)
From S2P Require Import Prelude Monad Types ThdLists Sched Sem Threads IOQ Ring.
From S2P Require Import Inv InvPrim InvSched Rules Wake Scenario IOQOK TickOK USBTypes USBLld USB SerialUSBOK.
From S2P Require Import DataThm OtgQueue OtgQueueOK OtgFifo.

Implicit Types (x : otgw) (bs data : list Z).

(** ** Queues *)

(** C25: sending [n] bytes from an output queue writes to the FIFO the words of
    the first [n] bytes of the queue, also where they wrap around the end of
    its buffer; under the lock the bytes leave the queue and every waiting
    thread is made ready with [Q_OK]; and the update is safe whatever the
    other threads do when it gives up the processor. *)
Theorem otg_queue_transmit `{Config} idle J t ml s oqp n l `{!QueueInv J oqp oq_ok} :
  Ust idle J t ml s -> oq_rep (k_ioq s oqp) l -> 0 <= n <= len l ->
  exists s1, write_from_queue oqp n s = Done (pack (take (Z.to_nat n) l)) s1 /\
    (exists s2, fifo_count oqp n (with_lock 1 s1) = Done tt s2 /\
       oq_rep (k_ioq s2 oqp) (drop (Z.to_nat n) l) /\ k_q s2 (QIO oqp) = [] /\
       forall u, u ∈ k_q s (QIO oqp) -> p_state (k_thd s2 u) = THD_STATE_READY /\ p_u (k_thd s2 u) = U_msg Q_OK) /\
    osafe (grd idle J) (rely idle J t) (fun _ s' => Ust idle J t ml s') (fifo_update oqp n s1).
Proof.
  intros HU HR Hn. destruct (write_from_queue_eq s oqp n l HR Hn) as (q' & E & HR').
  eexists. split; [exact E|]. split.
  - destruct (fifo_count_locked idle J t ml s oqp n q' HU) as (s2 & E2 & Eq & Hq & Hu).
    exists s2. by rewrite Eq.
  - apply (fifo_update_safe idle J t ml oqp oq_ok n q' s); [done|]. by eexists.
Qed.

(** C26: a packet received for an input queue with room for it is taken out of the
    FIFO and its bytes, in order, become the last ones of the queue, also where
    they wrap around the end of its buffer; every waiting thread is made ready
    with [Q_OK], and the update is safe. *)
Theorem otg_queue_receive `{Config} idle J t ml s iqp l bs f `{!QueueInv J iqp iq_ok} :
  Ust idle J t ml s -> iq_rep (k_ioq s iqp) l -> Forall is_u8 bs ->
  len l + len bs <= len (q_buffer (k_ioq s iqp)) ->
  exists s1, read_to_queue iqp (len bs) (pack bs ++ f) s = Done f s1 /\
    (exists s2, fifo_count iqp (len bs) (with_lock 1 s1) = Done tt s2 /\
       iq_rep (k_ioq s2 iqp) (l ++ bs) /\ k_q s2 (QIO iqp) = [] /\
       forall u, u ∈ k_q s (QIO iqp) -> p_state (k_thd s2 u) = THD_STATE_READY /\ p_u (k_thd s2 u) = U_msg Q_OK) /\
    osafe (grd idle J) (rely idle J t) (fun _ s' => Ust idle J t ml s') (fifo_update iqp (len bs) s1).
Proof.
  intros HU HR HF Hroom. destruct (read_to_queue_eq s iqp l bs f HR HF Hroom) as (q' & E & HR').
  eexists. split; [exact E|]. split.
  - destruct (fifo_count_locked idle J t ml s iqp (len bs) q' HU) as (s2 & E2 & Eq & Hq & Hu).
    exists s2. by rewrite Eq.
  - apply (fifo_update_safe idle J t ml iqp iq_ok (len bs) q' s); [done|]. by eexists.
Qed.

(** An output queue whose five bytes go around the end of its buffer, and an
    input queue with two bytes before it. *)
Definition otg_kernel (q : IOQueue) : scenario :=
  {| sc_curr := sc_curr demo_ioq; sc_thd := sc_thd demo_ioq; sc_q := sc_q demo_ioq;
     sc_sem := []; sc_mtx := []; sc_data := set_k_ioq (fun _ => q) blank |}.
Definition otg_oq : IOQueue := mkIOQ 3 [14; 15; 0; 0; 0; 11; 12; 13] 2 5 None 0.
Definition otg_iq : IOQueue := mkIOQ 2 [0; 0; 0; 0; 0; 11; 12; 0] 7 5 None 0.

Lemma otg_oq_rep : oq_rep otg_oq [11; 12; 13; 14; 15].
Proof.
  split; [|done]. split; [|done|repeat (constructor; [by split|]); constructor]. split; try done.
  intros i y Hi. destruct i as [|[|[|[|[|i]]]]]; simplify_eq/=; done.
Qed.

Lemma otg_iq_rep : iq_rep otg_iq [11; 12].
Proof.
  split; [|done]. split; [|done|repeat (constructor; [by split|]); constructor]. split; try done.
  intros i y Hi. destruct i as [|[|i]]; simplify_eq/=; done.
Qed.

Lemma otg_queue_transmit_witness :
  exists s1, write_from_queue 4 4 (sc_state (otg_kernel otg_oq)) = Done [11 + 2^8 * (12 + 2^8 * (13 + 2^8 * 14))] s1 /\
    exists s2, @fifo_count app_config 4 4 (@with_lock app_config 1 s1) = Done tt s2 /\ oq_rep (k_ioq s2 4) [15].
Proof.
  destruct (@otg_queue_transmit app_config 0 (only_queue 4 oq_ok) 1 [] (sc_state (otg_kernel otg_oq)) 4 4
    [11; 12; 13; 14; 15] _) as (s1 & E & (s2 & E2 & HR & _) & _).
  - apply sc_Ust; try done; try (apply (bool_decide_unpack _); by vm_compute). exists [11; 12; 13; 14; 15]. exact otg_oq_rep.
  - exact otg_oq_rep.
  - done.
  - exists s1. split; [exact E|]. by exists s2.
Defined.

Lemma otg_queue_receive_witness :
  exists s1, read_to_queue 4 5 [le_word [65; 66; 67; 68]; 69] (sc_state (otg_kernel otg_iq)) = Done [] s1 /\
    exists s2, @fifo_count app_config 4 5 (@with_lock app_config 1 s1) = Done tt s2 /\
      iq_rep (k_ioq s2 4) [11; 12; 65; 66; 67; 68; 69].
Proof.
  destruct (@otg_queue_receive app_config 0 (only_queue 4 iq_ok) 1 [] (sc_state (otg_kernel otg_iq)) 4
    [11; 12] [65; 66; 67; 68; 69] [] _) as (s1 & E & (s2 & E2 & HR & _) & _).
  - apply sc_Ust; try done; try (apply (bool_decide_unpack _); by vm_compute). exists [11; 12]. exact otg_iq_rep.
  - exact otg_iq_rep.
  - repeat (constructor; [by split|]). constructor.
  - done.
  - exists s1. split; [exact E|]. by exists s2.
Defined.

(** The transfer to a queue does not look at its room: in a full queue the
    packet overwrites the bytes that were not read, and the counter is more than
    the size of the buffer. *)
Theorem otg_queue_overrun :
  exists q, read_loop 1 1 (mkIOQ 3 [1; 2; 3] 0 0 None 0, [9]) = Done tt (q, []) /\
    q_buffer q = [9; 2; 3] /\ q_counter (q_count 1 q) = 4.
Proof. eexists. by split. Qed.

(** ** Linear buffers *)

(** The packets of a transaction. *)
Fixpoint cut (fuel m : nat) bs : list (list Z) :=
  match fuel, bs with
  | S fuel, _ :: _ => take m bs :: cut fuel m (drop m bs)
  | _, _ => []
  end.
Definition packets_of (m : Z) bs : list (list Z) := cut (length bs) (Z.to_nat m) bs.

Lemma cut_more fuel fuel' m bs :
  (0 < m)%nat -> (length bs <= fuel)%nat -> (length bs <= fuel')%nat -> cut fuel m bs = cut fuel' m bs.
Proof.
  intros Hm. revert fuel' bs. induction fuel as [|fuel IH]; intros fuel' bs H1 H2.
  - destruct bs; [|simpl in H1; lia]. by destruct fuel'.
  - destruct bs as [|b bs]; [by destruct fuel'|]. destruct fuel' as [|fuel']; [simpl in H2; lia|].
    cbn [cut]. f_equal. apply IH; rewrite length_drop; simpl in *; lia.
Qed.

Lemma packets_cons m bs :
  0 < m -> bs <> [] -> packets_of m bs = take (Z.to_nat m) bs :: packets_of m (drop (Z.to_nat m) bs).
Proof.
  intros Hm Hne. unfold packets_of. destruct bs as [|b bs]; [done|]. cbn [length cut]. f_equal.
  apply cut_more; rewrite ?length_drop; cbn [length]; lia.
Qed.

Lemma packets_concat m : 0 < m -> forall bs, concat (packets_of m bs) = bs.
Proof.
  intros Hm bs. remember (length bs) as n eqn:En. revert bs En.
  induction n as [n IH] using lt_wf_ind. intros bs ->. destruct bs as [|b bs]; [done|].
  rewrite packets_cons by done. cbn [concat]. rewrite (IH (length (drop (Z.to_nat m) (b :: bs)))); [|  |done].
  - apply take_drop.
  - rewrite length_drop. cbn [length]. lia.
Qed.

(** What a transfer leaves alone. *)
Definition others x :=
  (w_k (o_w x), w_usb (o_w x), w_setup (o_w x), w_otg (o_w x), o_txpending x, o_thd_wait x).

Lemma set_o_w_id x : set_o_w (o_w x) x = x.
Proof. by destruct x. Qed.

Lemma udrv_done {A} (m : M usbw A) x a w : m (o_w x) = Done a w -> udrv m x = Done a (set_o_w w x).
Proof. intros E. unfold udrv. by rewrite E. Qed.

Lemma udrv_epc_ok ep c x :
  0 <= ep <= USB_MAX_ENDPOINTS -> usb_epc (w_usb (o_w x)) ep = Some c -> udrv (get_epc ep) x = Done c x.
Proof.
  intros Hep Hc. rewrite (udrv_done _ x c (o_w x)), set_o_w_id; [done|]. unfold get_epc.
  by rewrite !(proj2 (Z.leb_le _ _)), Hc by lia.
Qed.

Section Transmit.
Context `{OtgIrqHw} `{Config}.

Record in_endpoint ep c isp x : Prop := {
  ie_ep : 0 <= ep <= USB_MAX_ENDPOINTS;
  ie_epc : usb_epc (w_usb (o_w x)) ep = Some c;
  ie_state : epc_in_state c = Some isp
}.

Lemma in_state_ok ep c isp x : in_endpoint ep c isp x -> in_state ep x = Done isp x.
Proof.
  intros [Hep Hc Hs]. unfold in_state, bind. rewrite (udrv_epc_ok ep c) by done. cbn [obind]. rewrite Hs.
  unfold udrv. cbn. by rewrite set_o_w_id.
Qed.

Lemma load_same x x' b i : w_usb (o_w x') = w_usb (o_w x) -> o_mem x' = o_mem x -> load x' b i = load x b i.
Proof. intros E1 E2. unfold load. by rewrite E1, E2. Qed.

Lemma load_some x b i : b <> UB_null -> is_Some (load x b i).
Proof. intros Hb. destruct b; try done; by eexists. Qed.

(** The words of a packet that is in a buffer; what is read past the end of the
    packet only pads the last one. *)
Lemma push_buffer x b off p :
  b <> UB_null -> Forall is_u8 p -> (forall i v, p !! i = Some v -> load x b (off + Z.of_nat i) = Some v) ->
  exists ws e, otg_do_push (load x b) off (Z.to_nat ((len p + 3) / 4)) = Some (ws, e) /\ carries ws p.
Proof.
  intros Hb HF Hp. set (k := Z.to_nat ((len p + 3) / 4)).
  pose proof (Z.div_mod (len p + 3) 4 ltac:(lia)). pose proof (Z.mod_pos_bound (len p + 3) 4 ltac:(lia)).
  pose proof (len_nonneg p). assert (Z.of_nat k = (len p + 3) / 4) as Ek by lia.
  assert (length p <= 4 * k)%nat as Hk by (unfold len in *; lia).
  set (l := map (fun i => default 0 (load x b (off + Z.of_nat i))) (seq 0 (4 * k))).
  assert (length l = (4 * k)%nat) as Hl by (unfold l; by rewrite length_map, length_seq).
  assert (forall i v, l !! i = Some v -> load x b (off + Z.of_nat i) = Some v) as HL.
  { intros i v Hi. unfold l in Hi. change (map ?f ?s) with (f <$> s) in Hi.
    apply list_lookup_fmap_Some in Hi as (j & -> & Hj). apply lookup_seq in Hj as [-> _]. cbn [Nat.add].
    by destruct (load_some x b (off + Z.of_nat i) Hb) as [y ->]. }
  assert (take (length p) l = p) as Hpre.
  { apply list_eq_same_length with (n := length p); [done|rewrite length_take; lia|].
    intros i v v' Hi Hv Hv'. apply lookup_take_Some in Hv as [Hv _]. apply HL in Hv. apply Hp in Hv'. congruence. }
  eexists _, _. split; [by apply (otg_do_push_ok (load x b) k off l)|]. split.
  - by rewrite (length_pack k l).
  - by rewrite (bytes_pack k), Hpre by (done || by rewrite Hpre).
Qed.

(** The state after [k] bytes of a linear transaction were written as [ws]. *)
Record sent ep isp b size cnt off (k : Z) ws x x' : Prop := {
  st_tx : forall e, o_tx x' e = if decide (e = ep) then o_tx x ep ++ ws else o_tx x e;
  st_state : w_ep (o_w x') isp = mkEpS false size (cnt + k) (EM_linear b (off + k));
  st_states : forall a, a <> isp -> w_ep (o_w x') a = w_ep (o_w x) a;
  st_memory : o_mem x' = o_mem x /\ o_sts x' = o_sts x /\ o_rx x' = o_rx x;
  st_others : others x' = others x
}.

Lemma sent_none ep isp b size cnt off x :
  w_ep (o_w x) isp = mkEpS false size cnt (EM_linear b off) -> sent ep isp b size cnt off 0 [] x x.
Proof.
  intros Hs. split; try done.
  - intros e. case_decide; [subst; by rewrite app_nil_r|done].
  - by rewrite !Z.add_0_r.
Qed.

Lemma sent_trans ep isp b size cnt off k ws x x1 k' ws' x2 :
  sent ep isp b size cnt off k ws x x1 -> sent ep isp b size (cnt + k) (off + k) k' ws' x1 x2 ->
  sent ep isp b size cnt off (k + k') (ws ++ ws') x x2.
Proof.
  intros [A1 A2 A3 (A4 & A5 & A6) A7] [B1 B2 B3 (B4 & B5 & B6) B7]. split.
  - intros e. rewrite B1, !A1. repeat case_decide; try done. by rewrite app_assoc.
  - by rewrite B2, !Z.add_assoc.
  - intros a Ha. by rewrite B3, A3.
  - split_and!; congruence.
  - congruence.
Qed.

Lemma in_endpoint_same ep c isp x x' : others x' = others x -> in_endpoint ep c isp x -> in_endpoint ep c isp x'.
Proof. unfold others. intros E []. split; try done. by replace (w_usb (o_w x')) with (w_usb (o_w x)) by congruence. Qed.

Lemma send_linear ep c isp b size cnt off x p :
  in_endpoint ep c isp x -> w_ep (o_w x) isp = mkEpS false size cnt (EM_linear b off) ->
  b <> UB_null -> Forall is_u8 p -> (forall i v, p !! i = Some v -> load x b (off + Z.of_nat i) = Some v) ->
  0 <= cnt -> cnt + len p < 2^32 ->
  exists ws x', send_data ep (len p) x = Done tt x' /\ carries ws p /\ sent ep isp b size cnt off (len p) ws x x'.
Proof.
  intros Hie Hs Hb HF Hp Hc Hlt. destruct (push_buffer x b off p Hb HF Hp) as (ws & e & Ep & Hws).
  exists ws. set (x1 := set_o_tx (<[ep := o_tx x ep ++ ws]> (o_tx x)) x).
  set (x2 := set_o_w (upd_ep isp (set_ep_mode (EM_linear b (off + len p))) (o_w x1)) x1).
  set (x3 := set_o_w (upd_ep isp (fun e => set_ep_cnt (u32 (ep_cnt e + len p)) e) (o_w x2)) x2).
  assert (in_endpoint ep c isp x1) as Hie1 by (by apply (in_endpoint_same ep c isp x)).
  assert (in_endpoint ep c isp x2) as Hie2 by (by apply (in_endpoint_same ep c isp x)).
  exists x3. split_and!; [|done|].
  - unfold send_data, the_state, bind at 1, bind at 1. rewrite (in_state_ok ep c isp) by done. cbn [gets obind].
    rewrite Hs. cbn [ep_queued ep_mode]. unfold bind, otg_fifo_write_from_buffer. rewrite Ep. cbn [push_words modify obind].
    fold x1. unfold upd_state, bind. rewrite (in_state_ok ep c isp x1 Hie1). cbn [obind].
    unfold udrv at 1. cbn [modify udrv_o]. fold x2. cbn [obind]. by rewrite (in_state_ok ep c isp x2 Hie2).
  - pose proof (len_nonneg p). split; try done.
    + intros e'. cbn. rewrite fn_insert_dec. repeat case_decide; congruence.
    + cbn. fn_simpl. rewrite Hs. cbn. by rewrite u32_small by (unfold is_u32; lia).
    + intros a Ha. cbn. by fn_simpl.
Qed.

(** The transmit handler on a linear buffer: the FIFO gets the first packets
    of the data left, each of the packet size but the last, whole and in order;
    the handler answers [TRUE] when these are all of them, and [FALSE] only when
    there is no room for the next one; the position in the buffer and the
    count say how far it came, and nothing else changes. *)
Lemma otg_transmit x ep c isp b size cnt off data rounds :
  in_endpoint ep c isp x -> w_ep (o_w x) isp = mkEpS false size cnt (EM_linear b off) ->
  b <> UB_null -> 0 < epc_in_maxsize c -> 0 <= cnt -> size < 2^32 -> len data = size - cnt ->
  Forall is_u8 data -> (forall i v, data !! i = Some v -> load x b (off + Z.of_nat i) = Some v) ->
  (length data <= rounds)%nat ->
  exists r wss ps rest x', otg_txfifo_handler rounds ep x = Done r x' /\
    packets_of (epc_in_maxsize c) data = ps ++ rest /\ Forall2 carries wss ps /\
    sent ep isp b size cnt off (len (concat ps)) (concat wss) x x' /\
    match rest with
    | [] => r = true
    | p :: _ => r = false /\ (hw_txspace ep x' .& DTXFSTS_INEPTFSAV_MASK) * 4 < len p
    end.
Proof.
  intros Hie Hs Hb Hm Hcnt Hsz. revert x cnt off data Hie Hs Hcnt.
  induction rounds as [|rounds IH]; intros x cnt off data Hie Hs Hcnt Hlen HF Hp Hr;
    cbn [otg_txfifo_handler]; unfold bind at 1; rewrite (udrv_epc_ok ep c) by apply Hie; cbn [obind];
    unfold bind at 1, the_state, bind at 1; rewrite (in_state_ok ep c isp) by done; cbn [gets obind]; rewrite Hs;
    cbn [ep_size ep_cnt].
  { destruct data; [|simpl in Hr; lia]. change (len []) with 0 in Hlen. rewrite (proj2 (Z.leb_le _ _)) by lia.
    exists true, [], [], [], x. split_and!; try done. by apply sent_none. }
  destruct (Z.leb_spec size cnt) as [Hend|Hgo].
  { pose proof (len_nonneg data). destruct data; [|unfold len in *; simpl in *; lia].
    exists true, [], [], [], x. split_and!; try done. by apply sent_none. }
  assert (data <> []) as Hne by (destruct data; [change (len []) with 0 in Hlen; lia|done]).
  set (p := take (Z.to_nat (epc_in_maxsize c)) data).
  assert ((if epc_in_maxsize c <? size - cnt then epc_in_maxsize c else size - cnt) = len p) as ->.
  { unfold p, len in *. rewrite length_take. destruct (Z.ltb_spec (epc_in_maxsize c) (size - cnt)); lia. }
  unfold bind at 1. cbn [gets obind]. destruct (_ <? _) eqn:Hspace.
  { exists false, [], [], (packets_of (epc_in_maxsize c) data), x. split_and!; try done.
    - by apply sent_none.
    - rewrite packets_cons by done. fold p. split; [done|]. lia. }
  destruct (send_linear ep c isp b size cnt off x p) as (ws & x1 & E1 & Hws & HS1); try done.
  - by apply Forall_take.
  - intros i v Hi. apply Hp. by apply lookup_take_Some in Hi as [Hi _].
  - unfold p, len in *. rewrite length_take. lia.
  - unfold bind. rewrite E1. cbn [obind].
    destruct (IH x1 (cnt + len p) (off + len p) (drop (Z.to_nat (epc_in_maxsize c)) data))
      as (r & wss & ps & rest & x2 & E2 & Epk & HF2 & HS2 & Hrest).
    + by apply (in_endpoint_same ep c isp x); [apply HS1|].
    + apply HS1.
    + pose proof (len_nonneg p). lia.
    + unfold p, len in *. rewrite length_take, length_drop. lia.
    + by apply Forall_drop.
    + intros i v Hi. rewrite lookup_drop in Hi. pose proof (lookup_lt_Some _ _ _ Hi) as Hlt.
      destruct HS1 as [_ _ _ (Em & _) Eo]. unfold others in Eo.
      rewrite (load_same x x1) by (done || congruence).
      replace (off + len p + Z.of_nat i) with (off + Z.of_nat (Z.to_nat (epc_in_maxsize c) + i)); [by apply Hp|].
      unfold p, len. rewrite length_take. lia.
    + rewrite length_drop. assert (0 < length data)%nat by (destruct data; [done|simpl; lia]). lia.
    + exists r, (ws :: wss), (p :: ps), rest, x2. split_and!; try done.
      * rewrite packets_cons by done. fold p. by rewrite Epk.
      * by constructor.
      * cbn [concat]. rewrite len_app. by apply (sent_trans ep isp b size cnt off (len p) ws x x1).
Qed.
End Transmit.

Section Receive.
Context `{Config}.

Lemma bytes_length ws : length (bytes_of ws) = (4 * length ws)%nat.
Proof. induction ws as [|w ws IH]; [done|]. cbn [bytes_of flat_map app length]. fold (bytes_of ws). lia. Qed.

(** Reading the words of a packet into a buffer with room for [m] of them. *)
Lemma read_words_ok a : forall ws m off x f,
  o_rx x = ws ++ f ->
  exists x', read_words (store (UB_user a)) (length ws) m off x = Done tt x' /\ o_rx x' = f /\
    o_sts x' = o_sts x /\ o_tx x' = o_tx x /\ o_w x' = o_w x /\
    o_txpending x' = o_txpending x /\ o_thd_wait x' = o_thd_wait x /\
    (forall i v, bytes_of ws !! i = Some v -> (i < 4 * m)%nat -> o_mem x' (a + off + Z.of_nat i) = v) /\
    (forall p, p < a + off \/ a + off + 4 * Z.of_nat (Nat.min (length ws) m) <= p -> o_mem x' p = o_mem x p).
Proof.
  induction ws as [|w ws IH]; intros m off x f Hrx; cbn [length read_words].
  { exists x. split_and!; try done. }
  unfold bind at 1, rx_word. rewrite Hrx. cbn [app obind]. destruct m as [|m].
  { destruct (IH 0%nat off (set_o_rx (ws ++ f) x) f eq_refl)
      as (x' & E & E1 & E2 & E3 & E4 & E5 & E6 & _ & Ho).
    exists x'. split_and!; try done; [lia|]. intros p Hp. rewrite Ho; [done|lia]. }
  unfold bind at 1. cbn [store modify obind]. set (x1 := set_o_mem _ _).
  destruct (IH m (off + 4) x1 f eq_refl) as (x' & E & E1 & E2 & E3 & E4 & E5 & E6 & Hi & Ho).
  exists x'. split_and!; try done.
  - intros i v Hv Hlt. cbn [bytes_of flat_map app] in Hv. fold (bytes_of ws) in Hv.
    destruct i as [|[|[|[|i]]]]; cbn in Hv.
    5: { replace (a + off + Z.of_nat (S (S (S (S i))))) with (a + (off + 4) + Z.of_nat i) by lia. apply Hi; [done|lia]. }
    all: rewrite Ho by lia; injection Hv as <-; unfold x1; cbn [set_o_mem o_mem].
    1: replace (a + off + Z.of_nat 0) with (a + off) by lia.
    2: replace (a + off + Z.of_nat 1) with (a + off + 1) by lia.
    3: replace (a + off + Z.of_nat 2) with (a + off + 2) by lia.
    4: replace (a + off + Z.of_nat 3) with (a + off + 3) by lia.
    all: rewrite !fn_insert_dec; repeat (case_decide; try lia); done.
  - intros p Hp. rewrite Ho by lia. unfold x1. cbn [set_o_mem o_mem]. by rewrite !fn_insert_ne by lia.
Qed.

Record out_endpoint ep c osp x : Prop := {
  oe_ep : 0 <= ep <= USB_MAX_ENDPOINTS;
  oe_epc : usb_epc (w_usb (o_w x)) ep = Some c;
  oe_state : epc_out_state c = Some osp
}.

Lemma out_state_ok ep c osp x : out_endpoint ep c osp x -> out_state ep x = Done osp x.
Proof.
  intros [Hep Hc Hs]. unfold out_state, bind. rewrite (udrv_epc_ok ep c) by done. cbn [obind]. rewrite Hs.
  unfold udrv. cbn. by rewrite set_o_w_id.
Qed.

(** The status word of a packet of [n] bytes of data for endpoint [ep]. *)
Definition data_status sts ep n : Prop :=
  sts .& GRXSTSP_PKTSTS_MASK = GRXSTSP_OUT_DATA /\
  Z.shiftr (sts .& GRXSTSP_EPNUM_MASK) GRXSTSP_EPNUM_OFF = ep /\
  Z.shiftr (sts .& GRXSTSP_BCNT_MASK) GRXSTSP_BCNT_OFF = n.

(** C27: a packet of data for a linear buffer of the application leaves the FIFO
    whole; of its bytes, those that the transaction still has room for are at
    their place in the buffer, and no memory changes outside of that place
    rounded up to whole words, at most three bytes more; the position and the
    count go on by the size of the packet. *)
Theorem otg_receive x ep c osp a size cnt off sts rest data ws f :
  o_sts x = sts :: rest -> data_status sts ep (len data) -> o_rx x = ws ++ f -> carries ws data ->
  out_endpoint ep c osp x -> w_ep (o_w x) osp = mkEpS false size cnt (EM_linear (UB_user a) off) ->
  0 <= cnt <= size -> size < 2^32 - 3 -> cnt + len data < 2^32 - 3 ->
  exists x', otg_rxfifo_handler x = Done tt x' /\ o_sts x' = rest /\ o_rx x' = f /\
    (forall i v, data !! i = Some v -> Z.of_nat i < size - cnt -> o_mem x' (a + off + Z.of_nat i) = v) /\
    (forall p, p < a + off \/ a + off + Z.min (len data) (size - cnt) + 3 <= p -> o_mem x' p = o_mem x p) /\
    w_ep (o_w x') osp = mkEpS false size (cnt + len data) (EM_linear (UB_user a) (off + len data)) /\
    (forall e, e <> osp -> w_ep (o_w x') e = w_ep (o_w x) e) /\ o_tx x' = o_tx x /\ others x' = others x.
Proof.
  intros Hsts (Hk & He & Hn) Hrx [Lw Hdata] Hoe Hs Hcnt Hsz Hlt. pose proof (len_nonneg data).
  set (x0 := set_o_sts rest x). set (room := u32 (size - cnt)).
  assert (room = size - cnt) as Er by (apply u32_small; unfold is_u32; lia).
  destruct (read_words_ok a ws (Z.to_nat (u32 (room + 3) / 4)) off x0 f) as
    (x1 & E & E1 & E2 & E3 & E4 & E5 & E6 & Hin & Hout); [done|].
  rewrite u32_small in Hin, Hout by (unfold is_u32; lia).
  set (x2 := set_o_w (upd_ep osp (set_ep_mode (EM_linear (UB_user a) (off + len data))) (o_w x1)) x1).
  set (x3 := set_o_w (upd_ep osp (fun e => set_ep_cnt (u32 (ep_cnt e + len data)) e) (o_w x2)) x2).
  assert (forall y, w_usb (o_w y) = w_usb (o_w x) -> out_endpoint ep c osp y) as Hoe'.
  { intros y Ey. destruct Hoe. split; try done. by rewrite Ey. }
  assert (o_w x0 = o_w x) as Ew0 by done.
  exists x3. split_and!; try done.
  - unfold otg_rxfifo_handler, bind at 1, rx_status. rewrite Hsts. cbn [obind]. rewrite Hk, He, Hn.
    change (GRXSTSP_OUT_DATA =? GRXSTSP_SETUP_COMP) with false. change (GRXSTSP_OUT_DATA =? GRXSTSP_SETUP_DATA) with false.
    rewrite Z.eqb_refl. fold x0. unfold receive_data, the_state, bind at 1, bind at 1.
    rewrite (out_state_ok ep c osp) by (by apply Hoe'). cbn [gets obind]. rewrite Ew0, Hs.
    cbn [ep_queued ep_mode ep_size ep_cnt]. fold room. unfold bind, otg_fifo_read_to_buffer.
    replace (Z.to_nat (u32 (len data + 3) / 4)) with (length ws) by (rewrite u32_small by (unfold is_u32; lia); lia).
    rewrite E. cbn [obind]. unfold upd_state, bind. rewrite (out_state_ok ep c osp) by (apply Hoe'; by rewrite E4).
    cbn [obind]. unfold udrv at 1. cbn [modify udrv_o]. fold x2. cbn [obind].
    by rewrite (out_state_ok ep c osp) by (apply Hoe'; cbn; by rewrite E4).
  - intros i v Hi Hroom. apply Hin.
    + rewrite <-Hdata in Hi. by apply lookup_take_Some in Hi as [Hi _].
    + pose proof (Z.div_mod (room + 3) 4 ltac:(lia)). pose proof (Z.mod_pos_bound (room + 3) 4 ltac:(lia)). lia.
  - intros p Hp. apply Hout. destruct Hp as [Hp|Hp]; [by left|right].
    pose proof (Z.div_mod (room + 3) 4 ltac:(lia)). pose proof (Z.mod_pos_bound (room + 3) 4 ltac:(lia)).
    pose proof (Z.div_mod (len data + 3) 4 ltac:(lia)). pose proof (Z.mod_pos_bound (len data + 3) 4 ltac:(lia)). lia.
  - cbn. fn_simpl. rewrite E4, Ew0, Hs. cbn. by rewrite u32_small by (unfold is_u32; lia).
  - intros e Hne. cbn. fn_simpl. by rewrite E4.
  - unfold others. cbn. by rewrite E4, E5, E6.
Qed.
End Receive.

Section Pump.
Context `{OtgIrqHw} `{Config}.

Definition with_kernel s x : otgw := set_o_w (set_w_k s (o_w x)) x.

Lemma with_kernel_id x : with_kernel (w_k (o_w x)) x = x.
Proof. by destruct x as [[]]. Qed.

Lemma rtos_lock x :
  unlocked (w_k (o_w x)) -> rtos chSysLock x = Done tt (with_kernel (with_lock 1 (w_k (o_w x))) x).
Proof. intros HU. unfold rtos, udrv, kern. by rewrite chSysLock_ok. Qed.

(** The lock is given back, and whatever runs then leaves a state of its own. *)
Lemma rtos_unlock x :
  locked_S (w_k (o_w x)) ->
  rtos chSysUnlock x = Suspend AtUnlock (with_kernel (with_lock 0 (w_k (o_w x))) x)
                         (fun y => Done tt (with_kernel (w_k (o_w y)) y)).
Proof. intros HL. unfold rtos, udrv, kern. by rewrite chSysUnlock_ok. Qed.

Lemma unlocked_locked s : unlocked s -> locked_S (with_lock 1 s).
Proof.
  unfold unlocked, locked_S, with_lock. intros HU. destruct CH_DBG_SYSTEM_STATE_CHECK; [|done].
  destruct HU as [Hi Hl]; [done|]. intros _. by cbn.
Qed.

Lemma locked_unlocked s : locked_S s -> unlocked (with_lock 0 s).
Proof.
  unfold unlocked, locked_S, with_lock. intros HL. destruct CH_DBG_SYSTEM_STATE_CHECK; [|done].
  destruct HL as [Hi Hl]; [done|]. intros _. by cbn.
Qed.

(** A linear transaction on an endpoint, with the data that is left to send. *)
Record transaction ep c isp b size cnt off data x : Prop := {
  tr_endpoint : in_endpoint ep c isp x;
  tr_state : w_ep (o_w x) isp = mkEpS false size cnt (EM_linear b off);
  tr_buffer : b <> UB_null;
  tr_maxsize : 0 < epc_in_maxsize c;
  tr_cnt : 0 <= cnt;
  tr_size : size < 2^32;
  tr_left : len data = size - cnt;
  tr_bytes : Forall is_u8 data;
  tr_load : forall i v, data !! i = Some v -> load x b (off + Z.of_nat i) = Some v
}.

(** The second half of the work on an endpoint: the packets are written and the
    interrupts enabled again. *)
Lemma pump_writes y ep c isp b size cnt off data rounds :
  unlocked (w_k (o_w y)) -> transaction ep c isp b size cnt off data y -> (length data <= rounds)%nat ->
  exists wss ps rest z,
    (let! done := otg_txfifo_handler rounds ep in
     rtos chSysLock ;;;
     udrv (wr_or GAHBCFG GAHBCFG_GINTMSK) ;;;
     (whenb negb done then udrv (wr_or DIEPEMPMSK (Z.shiftl 1 ep))) ;;;
     rtos chSysUnlock) y = Suspend AtUnlock z (fun z' => Done tt (with_kernel (w_k (o_w z')) z')) /\
    packets_of (epc_in_maxsize c) data = ps ++ rest /\ Forall2 carries wss ps /\
    o_tx z ep = o_tx y ep ++ concat wss /\
    w_ep (o_w z) isp = mkEpS false size (cnt + len (concat ps)) (EM_linear b (off + len (concat ps))) /\
    unlocked (w_k (o_w z)) /\ o_txpending z = o_txpending y /\ Z.testbit (w_otg (o_w z) GAHBCFG) 0 = true /\
    match rest with
    | [] => w_otg (o_w z) DIEPEMPMSK = w_otg (o_w y) DIEPEMPMSK
    | p :: _ =>
        w_otg (o_w z) DIEPEMPMSK = u32 (w_otg (o_w y) DIEPEMPMSK .| Z.shiftl 1 ep) /\
        exists v, o_tx v = o_tx z /\ (hw_txspace ep v .& DTXFSTS_INEPTFSAV_MASK) * 4 < len p
    end.
Proof.
  intros HU [] Hr.
  destruct (otg_transmit y ep c isp b size cnt off data rounds) as (r & wss & ps & rest & x5 & E & Epk & HF2 & HS & Hrest);
    try done.
  destruct HS as [Htx Hst _ _ Ho]. unfold others in Ho.
  assert (w_k (o_w x5) = w_k (o_w y) /\ w_otg (o_w x5) = w_otg (o_w y) /\ o_txpending x5 = o_txpending y)
    as (Ek & Eo & Et) by (split_and!; congruence).
  unfold bind at 1. rewrite E. cbn [obind]. unfold bind at 1. rewrite rtos_lock by (by rewrite Ek). cbn [obind].
  set (x6 := with_kernel _ x5).
  assert (locked_S (w_k (o_w x6))) as HL6 by (apply unlocked_locked; by rewrite Ek).
  unfold bind at 1. set (x7 := set_o_w (upd_reg GAHBCFG (u32 (w_otg (o_w x6) GAHBCFG .| GAHBCFG_GINTMSK)) (o_w x6)) x6).
  replace (udrv (wr_or GAHBCFG GAHBCFG_GINTMSK) x6) with (Done tt x7 : outcome otgw unit) by done. cbn [obind].
  set (x8 := if r then x7 else set_o_w (upd_reg DIEPEMPMSK (u32 (w_otg (o_w x7) DIEPEMPMSK .| Z.shiftl 1 ep)) (o_w x7)) x7).
  unfold bind at 1.
  replace ((whenb negb r then udrv (wr_or DIEPEMPMSK (Z.shiftl 1 ep))) x7) with (Done tt x8 : outcome otgw unit)
    by (unfold x8; by destruct r). cbn [obind].
  assert (locked_S (w_k (o_w x8))) as HL8 by (unfold x8; by destruct r).
  exists wss, ps, rest. eexists. split; [by apply rtos_unlock|]. split_and!; try done.
  - specialize (Htx ep). rewrite decide_True in Htx by done. unfold x8. by destruct r.
  - rewrite <-Hst. unfold x8. by destruct r.
  - by apply locked_unlocked.
  - transitivity (o_txpending x5); [unfold x8; by destruct r|done].
  - transitivity (Z.testbit (u32 (w_otg (o_w x6) GAHBCFG .| GAHBCFG_GINTMSK)) 0).
    { unfold x8. destruct r; cbn; fn_simpl; done. }
    unfold u32. rewrite Z.mod_pow2_bits_low, Z.lor_spec by done. by rewrite orb_true_r.
  - assert (w_otg (o_w x7) DIEPEMPMSK = w_otg (o_w y) DIEPEMPMSK) as E7.
    { cbn. rewrite fn_insert_ne by done. by rewrite Eo. }
    destruct rest as [|q rest]; [unfold x8; by rewrite Hrest|]. destruct Hrest as [Er Hroom]. split.
    + unfold x8. rewrite Er. cbn. fn_simpl. by rewrite <-E7.
    + exists x5. split; [|done]. unfold x8. by rewrite Er.
Qed.

(** C24: the pump thread on an endpoint with a pending linear transaction.
    Before it gives the lock back it has masked the interrupts of the
    peripheral and cleared the pending bit, and written nothing.  Whatever
    runs then, as long as the transaction is kept and the lock is free again,
    the packets that the FIFO has room for are written whole and in order,
    after what the FIFO has by then; the interrupts of the peripheral are
    unmasked, and the one for an empty FIFO is enabled exactly when packets are
    left, which is only when the next one does not fit. *)
Theorem otg_pump_fills x ep c isp b size cnt off data rounds :
  unlocked (w_k (o_w x)) -> o_txpending x .& Z.shiftl 1 ep <> 0 ->
  transaction ep c isp b size cnt off data x -> (length data <= rounds)%nat ->
  exists y k, pump_fill rounds ep x = Suspend AtUnlock y k /\
    unlocked (w_k (o_w y)) /\ transaction ep c isp b size cnt off data y /\
    o_txpending y = o_txpending x .& Z.lnot (Z.shiftl 1 ep) /\
    Z.testbit (w_otg (o_w y) GAHBCFG) 0 = false /\ o_tx y = o_tx x /\
    forall y', unlocked (w_k (o_w y')) -> transaction ep c isp b size cnt off data y' ->
    exists wss ps rest z, oeq (k y') (Suspend AtUnlock z (fun z' => Done tt z')) /\
      packets_of (epc_in_maxsize c) data = ps ++ rest /\ Forall2 carries wss ps /\
      o_tx z ep = o_tx y' ep ++ concat wss /\
      w_ep (o_w z) isp = mkEpS false size (cnt + len (concat ps)) (EM_linear b (off + len (concat ps))) /\
      unlocked (w_k (o_w z)) /\ o_txpending z = o_txpending y' /\ Z.testbit (w_otg (o_w z) GAHBCFG) 0 = true /\
      match rest with
      | [] => w_otg (o_w z) DIEPEMPMSK = w_otg (o_w y') DIEPEMPMSK
      | p :: _ =>
          w_otg (o_w z) DIEPEMPMSK = u32 (w_otg (o_w y') DIEPEMPMSK .| Z.shiftl 1 ep) /\
          exists v, o_tx v = o_tx z /\ (hw_txspace ep v .& DTXFSTS_INEPTFSAV_MASK) * 4 < len p
      end.
Proof.
  intros HU Hpend Htr Hr. unfold pump_fill. unfold bind at 1. cbn [gets obind].
  rewrite (proj2 (Z.eqb_neq _ _)) by done. cbn [negb].
  unfold bind at 1. rewrite rtos_lock by done. cbn [obind]. set (x1 := with_kernel _ x).
  assert (locked_S (w_k (o_w x1))) as HL1 by (by apply unlocked_locked).
  unfold bind at 1. set (x2 := set_o_w (upd_reg GAHBCFG (u32 (w_otg (o_w x1) GAHBCFG .& Z.lnot GAHBCFG_GINTMSK)) (o_w x1)) x1).
  replace (udrv (wr_clear GAHBCFG GAHBCFG_GINTMSK) x1) with (Done tt x2 : outcome otgw unit) by done. cbn [obind].
  unfold bind at 1. cbn [modify obind]. set (x3 := set_o_txpending _ x2).
  unfold bind at 1. rewrite rtos_unlock by done. cbn [obind]. set (y := with_kernel _ x3).
  eexists y, _. split; [reflexivity|]. split_and!; try done.
  - by apply locked_unlocked.
  - destruct Htr as [Hie]. split; try done. by destruct Hie.
  - unfold y. cbn. fn_simpl.
    rewrite <-Z.bit0_odd. unfold u32. rewrite Z.mod_pow2_bits_low, Z.land_spec by done. by rewrite andb_false_r.
  - intros y' HU' Htr'. cbn [obind]. rewrite with_kernel_id.
    destruct (pump_writes y' ep c isp b size cnt off data rounds) as (wss & ps & rest & z & E & Hz); try done.
    exists wss, ps, rest, z. split; [|exact Hz]. rewrite E. constructor. intros z'. by rewrite with_kernel_id.
Qed.
End Pump.

(** ** An example: endpoint 1 sends and receives packets of 4 bytes *)

Definition otg_hw (space : Z) : OtgIrqHw :=
  {| hw_read := fun _ _ => 0; hw_ack := fun _ _ x => x;
     hw_txspace := fun ep x => space - Z.of_nat (length (o_tx x ep)); beyond := fun _ _ => 0 |}.

Definition otg_epc : USBEndpointConfig :=
  mkEpC 2 None (Some (ECB_user 1)) (Some (ECB_user 2)) 4 4 (Some 20) (Some 21) 1 None.

Definition otg_world : otgw :=
  mkO (mkW blank
         (mkUSB USB_ACTIVE None 0 0 (fun _ => Some otg_epc) (fun _ => 0) (fun _ => 0)
            USB_EP0_WAITING_SETUP UB_null 0 None [] 0 0 1 0)
         (fun a => if a =? 20 then mkEpS false 6 0 (EM_linear (UB_const [1; 2; 3; 4; 5; 6]) 0)
                   else mkEpS false 3 0 (EM_linear (UB_user 1000) 0))
         (fun _ => []) (fun _ => 0))
      (fun _ => 0) (fun _ => [])
      [GRXSTSP_OUT_DATA .| Z.shiftl 4 GRXSTSP_BCNT_OFF .| 1] [le_word [7; 8; 9; 10]] 2 None.

(** The FIFO has room for one packet of the two. *)
Lemma otg_pump_fills_witness :
  exists y k, @pump_fill app_config (otg_hw 1) 6 1 otg_world = Suspend AtUnlock y k /\ o_txpending y = 0 /\
    exists wss ps rest z, oeq (k y) (Suspend AtUnlock z (fun z' => Done tt z')) /\
      [[1; 2; 3; 4]; [5; 6]] = ps ++ rest /\ Forall2 carries wss ps /\ o_tx z 1 = concat wss.
Proof.
  destruct (@otg_pump_fills (otg_hw 1) app_config otg_world 1 otg_epc 20 (UB_const [1; 2; 3; 4; 5; 6]) 6 0 0
    [1; 2; 3; 4; 5; 6] 6) as (y & k & E & HU & Htr & Ep & _ & Etx & Hk).
  - intros ?. discriminate.
  - by vm_compute.
  - split; try done; try lia.
    + repeat (constructor; [by split|]). constructor.
    + intros i v Hi. destruct i as [|[|[|[|[|[|i]]]]]]; simplify_eq/=; done.
  - reflexivity.
  - exists y, k. split; [exact E|]. split; [exact Ep|].
    destruct (Hk y HU Htr) as (wss & ps & rest & z & Ez & Epk & HF & Ez' & _).
    rewrite Etx in Ez'. exists wss, ps, rest, z. split_and!; try done.
Defined.

(** A packet of four bytes for the three that are left: the fourth is stored as
    well. *)
Lemma otg_receive_witness :
  exists x', @otg_rxfifo_handler app_config otg_world = Done tt x' /\
    o_mem x' 1000 = 7 /\ o_mem x' 1001 = 8 /\ o_mem x' 1002 = 9 /\ o_mem x' 1006 = 0.
Proof.
  destruct (@otg_receive app_config otg_world 1 otg_epc 21 1000 3 0 0
    (GRXSTSP_OUT_DATA .| Z.shiftl 4 GRXSTSP_BCNT_OFF .| 1) [] [7; 8; 9; 10] [le_word [7; 8; 9; 10]] [])
    as (x' & E & _ & _ & Hin & Hout & _).
  - reflexivity.
  - by vm_compute.
  - reflexivity.
  - by vm_compute.
  - by split.
  - reflexivity.
  - lia.
  - lia.
  - by vm_compute.
  - exists x'. split_and!; [exact E|by apply (Hin 0%nat)|by apply (Hin 1%nat)|by apply (Hin 2%nat)|].
    rewrite Hout; [done|right; by vm_compute].
Defined.

(** The handler reads [epc[ep]] again after the queue was updated and the lock
    released: a bus reset served there has cleared it, and the count goes
    through a null pointer. *)
Definition otg_queued : otgw :=
  set_o_w (upd_ep 21 (fun _ => mkEpS true 4 0 (EM_queue 4))
    (set_w_k (sc_state (otg_kernel otg_iq)) (o_w otg_world))) otg_world.

Theorem otg_receive_race :
  match @otg_rxfifo_handler app_config otg_queued with
  | Suspend AtSwitch y k =>
      match k y with
      | Suspend AtUnlock y k => k (set_o_w (upd_usb (clear_epc 0) (o_w y)) y) = Stuck (Fault "epc")
      | _ => False
      end
  | _ => False
  end.
Proof. by vm_compute. Qed.
