(* ===== verification/Pal.v ===== *)
(** * I/O ports ([hal/src/pal.c], [hal/include/pal.h]) and their low level
    driver ([hal/platforms/STM32/GPIOv2/pal_lld.c], [pal_lld.h])

    The registers of the nine ports, groups of pads as buses, and the modes of
    the pads.  A port is designated by its index.  What a write to the BSRR
    register does to the output latch is the class [GpioHw]. *)
From S2P Require Import Prelude Monad Types.

(** ** Constants *)

Definition PAL_STM32_MODE_MASK : Z := 0x3.
Definition PAL_STM32_OTYPE_MASK : Z := 0x4.
Definition PAL_STM32_OSPEED_MASK : Z := 0x18.
Definition PAL_STM32_PUDR_MASK : Z := 0x60.
Definition PAL_STM32_ALTERNATE_MASK : Z := 0x780.
Definition PAL_IOPORTS_WIDTH : Z := 16.
Definition AHB1_EN_MASK : Z := 0x1FF.
Definition AHB1_LPEN_MASK : Z := AHB1_EN_MASK.
Definition PAL_PORT_BIT (n : Z) : Z := u32 (Z.shiftl 1 n).
Definition PAL_GROUP_MASK (width : Z) : Z := u32 (u32 (Z.shiftl 1 width) - 1).

(** ** State *)

(** BSRR is only written, through [write_bsrr]; the driver does not use LCKR. *)
Record GPIO := mkGPIO {
  MODER : Z;
  OTYPER : Z;
  OSPEEDR : Z;
  PUPDR : Z;
  IDR : Z;
  ODR : Z;
  AFRL : Z;
  AFRH : Z
}.
Definition set_ODR (v : Z) (p : GPIO) : GPIO :=
  mkGPIO (MODER p) (OTYPER p) (OSPEEDR p) (PUPDR p) (IDR p) v (AFRL p) (AFRH p).
Definition set_AFRL (v : Z) (p : GPIO) : GPIO :=
  mkGPIO (MODER p) (OTYPER p) (OSPEEDR p) (PUPDR p) (IDR p) (ODR p) v (AFRH p).
Definition set_AFRH (v : Z) (p : GPIO) : GPIO :=
  mkGPIO (MODER p) (OTYPER p) (OSPEEDR p) (PUPDR p) (IDR p) (ODR p) (AFRL p) v.
Definition set_modes (moder otyper ospeedr pupdr : Z) (p : GPIO) : GPIO :=
  mkGPIO moder otyper ospeedr pupdr (IDR p) (ODR p) (AFRL p) (AFRH p).

Record stm32_gpio_setup_t := mkSetup {
  moder : Z; otyper : Z; ospeedr : Z; pupdr : Z; odr : Z; afrl : Z; afrh : Z
}.
(** The setup of the ports, by their index. *)
Definition PALConfig : Type := Z -> stm32_gpio_setup_t.

Record IOBus := mkIOBus { portid : Z; mask : Z; offset : Z }.

Record gpiow := mkG { g_port : Z -> GPIO; g_ahb1enr : Z; g_ahb1lpenr : Z }.

(** A value written to BSRR, and the latch before and after. *)
Class GpioHw := { bsrr : Z -> Z -> Z }.

(** The low half sets outputs, the high half resets those that are not set. *)
Definition bsrr_law `{GpioHw} : Prop := forall w o i, 0 <= i < 16 ->
  Z.testbit (bsrr w o) i = Z.testbit w i || (Z.testbit o i && negb (Z.testbit w (i + 16))).

Section Defs.
Context `{Config} `{GpioHw}.
Local Abbreviation GM := (M gpiow).

Definition the_port (port : Z) : GM GPIO := gets (fun x => g_port x port).
Definition upd_port (port : Z) (f : GPIO -> GPIO) : GM unit :=
  modify (fun x => mkG (<[port := f (g_port x port)]> (g_port x)) (g_ahb1enr x) (g_ahb1lpenr x)).
Definition pal_check (c : bool) (func : string) : GM unit :=
  if CH_DBG_ENABLE_CHECKS && negb c then panic func else mret' tt.

(** ** Ports and pads *)

Definition pal_lld_readport (port : Z) : GM Z := let! p := the_port port in mret' (IDR p).
Definition pal_lld_readlatch (port : Z) : GM Z := let! p := the_port port in mret' (ODR p).
Definition pal_lld_writeport (port bits : Z) : GM unit := upd_port port (set_ODR bits).
(** [port->BSRR.W = w]; the halves are written alone with zero in the other. *)
Definition write_bsrr (port w : Z) : GM unit := upd_port port (fun p => set_ODR (bsrr w (ODR p)) p).
Definition pal_lld_setport (port bits : Z) : GM unit := write_bsrr port (u16 bits).
Definition pal_lld_clearport (port bits : Z) : GM unit := write_bsrr port (Z.shiftl (u16 bits) 16).
Definition pal_lld_writegroup (port mask offset bits : Z) : GM unit :=
  write_bsrr port (Z.lor (u32 (Z.shiftl (Z.ldiff mask bits) (16 + offset))) (u32 (Z.shiftl (Z.land bits mask) offset))).
Definition pal_lld_writepad (port pad bit : Z) : GM unit := pal_lld_writegroup port 1 pad bit.

Definition palReadPort (port : Z) : GM Z := pal_lld_readport port.
Definition palReadLatch (port : Z) : GM Z := pal_lld_readlatch port.
Definition palWritePort (port bits : Z) : GM unit := pal_lld_writeport port bits.
Definition palSetPort (port bits : Z) : GM unit := pal_lld_setport port bits.
Definition palClearPort (port bits : Z) : GM unit := pal_lld_clearport port bits.
Definition palTogglePort (port bits : Z) : GM unit :=
  let! o := palReadLatch port in palWritePort port (Z.lxor o bits).
Definition palReadGroup (port mask offset : Z) : GM Z :=
  let! v := palReadPort port in mret' (Z.land (Z.shiftr v offset) mask).
Definition palWriteGroup (port mask offset bits : Z) : GM unit := pal_lld_writegroup port mask offset bits.
Definition palReadPad (port pad : Z) : GM Z := let! v := palReadPort port in mret' (Z.land (Z.shiftr v pad) 1).
Definition palWritePad (port pad bit : Z) : GM unit := pal_lld_writepad port pad bit.
Definition palSetPad (port pad : Z) : GM unit := palSetPort port (PAL_PORT_BIT pad).
Definition palClearPad (port pad : Z) : GM unit := palClearPort port (PAL_PORT_BIT pad).
Definition palTogglePad (port pad : Z) : GM unit := palTogglePort port (PAL_PORT_BIT pad).

(** ** Modes *)

(** The local variables of the loop: the fields at the place of the pad. *)
Record modes := mkModes { l_moder : Z; l_otyper : Z; l_ospeedr : Z; l_pupdr : Z; l_altr : Z }.
Definition first_modes (mode : Z) : modes :=
  mkModes (Z.land mode PAL_STM32_MODE_MASK) (Z.shiftr (Z.land mode PAL_STM32_OTYPE_MASK) 2)
    (Z.shiftr (Z.land mode PAL_STM32_OSPEED_MASK) 3) (Z.shiftr (Z.land mode PAL_STM32_PUDR_MASK) 5)
    (Z.shiftr (Z.land mode PAL_STM32_ALTERNATE_MASK) 7).
Definition next_modes (l : modes) : modes :=
  mkModes (u32 (Z.shiftl (l_moder l) 2)) (u32 (Z.shiftl (l_otyper l) 1)) (u32 (Z.shiftl (l_ospeedr l) 2))
    (u32 (Z.shiftl (l_pupdr l) 2)) (l_altr l).

(** The registers of one pad. *)
Definition set_pad (bit : Z) (l : modes) (p : GPIO) : GPIO :=
  let altrmask := u32 (Z.shiftl (l_altr l) (Z.land bit 7 * 4)) in
  let m4 := Z.shiftl 15 (Z.land bit 7 * 4) in
  let p := if bit <? 8 then set_AFRL (Z.lor (Z.ldiff (AFRL p) m4) altrmask) p
           else set_AFRH (Z.lor (Z.ldiff (AFRH p) m4) altrmask) p in
  let m1 := Z.shiftl 1 bit in
  let m2 := Z.shiftl 3 (bit * 2) in
  set_modes (Z.lor (Z.ldiff (MODER p) m2) (l_moder l)) (Z.lor (Z.ldiff (OTYPER p) m1) (l_otyper l))
    (Z.lor (Z.ldiff (OSPEEDR p) m2) (l_ospeedr l)) (Z.lor (Z.ldiff (PUPDR p) m2) (l_pupdr l)) p.

(** [None] for a pad that the registers do not have: the shift by its place is
    too large for a word. *)
Fixpoint setmode_loop (rounds : nat) (bit mask : Z) (l : modes) (p : GPIO) : option GPIO :=
  match rounds with
  | O => None
  | S rounds =>
      p ← if negb (Z.land mask 1 =? 0) then (if bit <? 16 then Some (set_pad bit l p) else None) else Some p;
      let mask := Z.shiftr mask 1 in
      if mask =? 0 then Some p else setmode_loop rounds (bit + 1) mask (next_modes l) p
  end.

Definition _pal_lld_setgroupmode (port mask mode : Z) : GM unit := fun x =>
  match setmode_loop 32 0 mask (first_modes mode) (g_port x port) with
  | Some p => upd_port port (fun _ => p) x
  | None => Stuck (Fault "shift")
  end.
Definition pal_lld_setgroupmode (port mask offset mode : Z) : GM unit :=
  _pal_lld_setgroupmode port (u32 (Z.shiftl mask offset)) mode.
Definition palSetGroupMode (port mask offset mode : Z) : GM unit := pal_lld_setgroupmode port mask offset mode.
Definition palSetPadMode (port pad mode : Z) : GM unit := palSetGroupMode port (PAL_PORT_BIT pad) 0 mode.

(** ** Buses *)

Definition palReadBus (bus : IOBus) : GM Z :=
  pal_check (offset bus <? PAL_IOPORTS_WIDTH) "palReadBus" ;;;
  palReadGroup (portid bus) (mask bus) (offset bus).
Definition palWriteBus (bus : IOBus) (bits : Z) : GM unit :=
  pal_check (offset bus <? PAL_IOPORTS_WIDTH) "palWriteBus" ;;;
  palWriteGroup (portid bus) (mask bus) (offset bus) bits.
Definition palSetBusMode (bus : IOBus) (mode : Z) : GM unit :=
  pal_check (offset bus <? PAL_IOPORTS_WIDTH) "palSetBusMode" ;;;
  palSetGroupMode (portid bus) (mask bus) (offset bus) mode.

(** ** Initialization *)

Definition initgpio (port : Z) (config : stm32_gpio_setup_t) : GM unit :=
  upd_port port (fun p => mkGPIO (moder config) (otyper config) (ospeedr config) (pupdr config) (IDR p) (odr config) (afrl config) (afrh config)).

(** Ports A to I. *)
Definition _pal_lld_init (config : PALConfig) : GM unit :=
  modify (fun x => mkG (g_port x) (Z.lor (g_ahb1enr x) AHB1_EN_MASK) (Z.lor (g_ahb1lpenr x) AHB1_LPEN_MASK)) ;;;
  initgpio 0 (config 0) ;;; initgpio 1 (config 1) ;;; initgpio 2 (config 2) ;;; initgpio 3 (config 3) ;;;
  initgpio 4 (config 4) ;;; initgpio 5 (config 5) ;;; initgpio 6 (config 6) ;;; initgpio 7 (config 7) ;;;
  initgpio 8 (config 8).
Definition palInit (config : PALConfig) : GM unit := _pal_lld_init config.
End Defs.
