(* ===== verification/PalThm.v ===== *)
(** * I/O ports: main theorems

    The mode of a group of pads is set in every register and nowhere else; a
    bus of pads takes the bits written to it and leaves the other pads alone. *)
From S2P Require Import Prelude Monad Types Pal.

(** ** Fields of a register *)

(** The field [i] of [w] bits: its value, and another in its place. *)
Definition fld (w i r : Z) : Z := Z.land (Z.shiftr r (w * i)) (Z.ones w).
Definition put (w i v r : Z) : Z := Z.lor (Z.ldiff r (Z.shiftl (Z.ones w) (w * i))) (Z.shiftl v (w * i)).

Lemma fld_put w i k v r : 0 < w -> 0 <= i -> 0 <= k -> 0 <= v < 2^w ->
  fld w i (put w k v r) = if decide (i = k) then v else fld w i r.
Proof.
  intros Hw Hi Hk Hv. apply Z.bits_inj'. intros j Hj. unfold fld, put.
  rewrite Z.land_spec, Z.shiftr_spec, Z.lor_spec, Z.ldiff_spec, !Z.shiftl_spec by nia.
  assert (Z.testbit (Z.ones w) j = (j <? w)) as -> by (rewrite Z.testbit_ones_nonneg; lia || done).
  case_decide as E; [subst k|rewrite Z.land_spec, Z.shiftr_spec, (Z.testbit_ones_nonneg w j) by lia].
  - replace (j + w * i - w * i) with j by lia. rewrite Z.testbit_ones_nonneg by lia. destruct (Z.ltb_spec j w).
    + by rewrite andb_false_r, andb_true_r.
    + rewrite andb_false_r. symmetry. apply (testbit_above _ w); lia.
  - destruct (Z.ltb_spec j w); [|by rewrite !andb_false_r]. rewrite !andb_true_r.
    destruct (Z_lt_dec (j + w * i - w * k) 0) as [Hn|Hn].
    + rewrite !(Z.testbit_neg_r _ (j + w * i - w * k)) by done. by rewrite andb_true_r, orb_false_r.
    + assert (w <= j + w * i - w * k) by nia. rewrite Z.testbit_ones_nonneg by lia.
      rewrite (proj2 (Z.ltb_ge _ _)) by done. rewrite andb_true_r.
      rewrite (testbit_above v w) by lia. by rewrite orb_false_r.
Qed.

(** ** Modes *)

(** The mode of a pad, by the registers of its port. *)
Definition pad_modes (p : GPIO) (i : Z) : modes :=
  mkModes (fld 2 i (MODER p)) (fld 1 i (OTYPER p)) (fld 2 i (OSPEEDR p)) (fld 2 i (PUPDR p))
    (if i <? 8 then fld 4 i (AFRL p) else fld 4 (i - 8) (AFRH p)).

Record modes_ok (l : modes) : Prop := mkModesOK {
  mo_moder : 0 <= l_moder l < 4;
  mo_otyper : 0 <= l_otyper l < 2;
  mo_ospeedr : 0 <= l_ospeedr l < 4;
  mo_pupdr : 0 <= l_pupdr l < 4;
  mo_altr : 0 <= l_altr l < 16
}.

Lemma first_modes_ok mode : modes_ok (first_modes mode).
Proof.
  assert (forall k w, 0 <= k -> 0 <= w -> 0 <= Z.shiftr (Z.land mode (Z.shiftl (Z.ones w) k)) k < 2^w) as Hf.
  { intros k w Hk Hw. assert (Z.shiftr (Z.land mode (Z.shiftl (Z.ones w) k)) k = (Z.shiftr mode k) `mod` 2^w) as ->.
    { rewrite Z.shiftr_land, Z.shiftr_shiftl_l, Z.sub_diag, Z.shiftl_0_r, Z.land_ones by lia. done. }
    apply Z.mod_pos_bound. lia. }
  split; cbn.
  - rewrite <-(Z.shiftr_0_r (Z.land _ _)). by apply (Hf 0 2).
  - by apply (Hf 2 1).
  - by apply (Hf 3 2).
  - by apply (Hf 5 2).
  - by apply (Hf 7 4).
Qed.

(** The local variables of the loop at a pad. *)
Definition shifted (l : modes) (bit : Z) : modes :=
  mkModes (Z.shiftl (l_moder l) (2 * bit)) (Z.shiftl (l_otyper l) (1 * bit)) (Z.shiftl (l_ospeedr l) (2 * bit))
    (Z.shiftl (l_pupdr l) (2 * bit)) (l_altr l).

Lemma shift_next w v bit : 0 < w <= 2 -> 0 <= v < 2^w -> 0 <= bit < 15 ->
  u32 (Z.shiftl (Z.shiftl v (w * bit)) w) = Z.shiftl v (w * (bit + 1)).
Proof.
  intros Hw Hv Hb. rewrite Z.shiftl_shiftl by nia. replace (w * bit + w) with (w * (bit + 1)) by lia.
  apply u32_small. unfold is_u32. rewrite Z.shiftl_mul_pow2 by nia. assert (0 < 2^(w * (bit + 1))) by (apply Z.pow_pos_nonneg; nia).
  split; [nia|]. apply (Z.lt_le_trans _ (2^w * 2^(w * (bit + 1)))); [nia|]. rewrite <-Z.pow_add_r by nia. apply Z.pow_le_mono_r; nia.
Qed.

Lemma next_shifted l bit : modes_ok l -> 0 <= bit < 15 -> next_modes (shifted l bit) = shifted l (bit + 1).
Proof.
  intros [] Hb. unfold next_modes, shifted. cbn [l_moder l_otyper l_ospeedr l_pupdr l_altr].
  by rewrite !(shift_next 2), (shift_next 1) by (done || lia).
Qed.

Lemma set_pad_eq l bit p i :
  modes_ok l -> 0 <= bit < 16 -> 0 <= i < 16 ->
  pad_modes (set_pad bit (shifted l bit) p) i = if decide (i = bit) then l else pad_modes p i.
Proof.
  intros [M1 M2 M3 M4 M5] Hb Hi. destruct l as [mo ot os pu al]. cbn [l_moder l_otyper l_ospeedr l_pupdr l_altr] in *.
  set (k := if bit <? 8 then bit else bit - 8).
  assert (Z.land bit 7 = k /\ 0 <= k < 8) as [Ek Hk].
  { change 7 with (Z.ones 3). rewrite Z.land_ones by lia. change (2^3) with 8. unfold k. destruct (Z.ltb_spec bit 8).
    - rewrite Z.mod_small by lia. lia.
    - split; [|lia]. symmetry. apply (Z.mod_unique _ _ 1); lia. }
  unfold set_pad, shifted. cbn [l_moder l_otyper l_ospeedr l_pupdr l_altr]. rewrite Ek.
  rewrite u32_small by (unfold is_u32; rewrite Z.shiftl_mul_pow2 by lia; assert (2^(k * 4) <= 2^28) by (apply Z.pow_le_mono_r; lia);
    assert (0 < 2^(k * 4)) by (apply Z.pow_pos_nonneg; lia); change (2^28) with 268435456 in *; change (2^32) with 4294967296; nia).
  assert (forall r, Z.lor (Z.ldiff r (Z.shiftl 15 (k * 4))) (Z.shiftl al (k * 4)) = put 4 k al r) as Ea
    by (intros r; unfold put; by replace (4 * k) with (k * 4) by lia).
  assert (forall r v, Z.lor (Z.ldiff r (Z.shiftl 3 (bit * 2))) (Z.shiftl v (2 * bit)) = put 2 bit v r) as E2
    by (intros r v; unfold put; by replace (bit * 2) with (2 * bit) by lia).
  assert (forall r v, Z.lor (Z.ldiff r (Z.shiftl 1 bit)) (Z.shiftl v (1 * bit)) = put 1 bit v r) as E1
    by (intros r v; unfold put; by replace (1 * bit) with bit by lia).
  unfold pad_modes. cbn [MODER OTYPER OSPEEDR PUPDR AFRL AFRH set_modes].
  destruct (Z.ltb_spec bit 8) as [Hlt|Hge]; rewrite !Ea; cbn [MODER OTYPER OSPEEDR PUPDR AFRL AFRH set_AFRL set_AFRH];
    rewrite !E2, !E1, !(fld_put 2), (fld_put 1) by (lia || done); clear Ek Ea E2 E1; unfold k in *;
    (case_decide as E; [subst i|]); f_equal;
    (match goal with |- context [?a <? 8] => destruct (Z.ltb_spec a 8) end); rewrite ?fld_put by lia; try (case_decide; lia || done); done || lia.
Qed.

Lemma setmode_loop_ok l rounds : forall bit mask p,
  modes_ok l -> 0 <= bit < 16 -> 0 <= mask < 2^(16 - bit) -> 16 - bit <= Z.of_nat rounds ->
  exists p', setmode_loop rounds bit mask (shifted l bit) p = Some p' /\
    (forall i, 0 <= i < 16 -> pad_modes p' i = if (bit <=? i) && Z.testbit mask (i - bit) then l else pad_modes p i) /\
    IDR p' = IDR p /\ ODR p' = ODR p.
Proof.
  induction rounds as [|rounds IH]; intros bit mask p Hl Hb Hm Hr; [lia|]. cbn [setmode_loop].
  set (q := if negb (Z.land mask 1 =? 0) then set_pad bit (shifted l bit) p else p).
  assert ((if negb (Z.land mask 1 =? 0) then (if bit <? 16 then Some (set_pad bit (shifted l bit) p) else None) else Some p) = Some q) as ->.
  { unfold q. rewrite (proj2 (Z.ltb_lt bit 16)) by lia. by destruct (negb _). }
  assert (Z.land mask 1 = Z.b2z (Z.testbit mask 0)) as E0.
  { change 1 with (Z.ones 1). rewrite Z.land_ones, <-Z.bit0_mod by lia. done. }
  assert (forall i, 0 <= i < 16 -> pad_modes q i = if decide (i = bit) then (if Z.testbit mask 0 then l else pad_modes p i) else pad_modes p i) as Hq.
  { intros i Hi. unfold q. rewrite E0. destruct (Z.testbit mask 0); cbn [Z.b2z Z.eqb negb]; [by apply set_pad_eq|by case_decide]. }
  assert (IDR q = IDR p /\ ODR q = ODR p) as [Qi Qo].
  { unfold q. destruct (negb _); [|done]. unfold set_pad. by destruct (bit <? 8). }
  assert (forall j, 0 <= j -> Z.testbit (Z.shiftr mask 1) j = Z.testbit mask (j + 1)) as Hs by (intros; by apply Z.shiftr_spec).
  cbn [mbind option_bind]. destruct (Z.eqb_spec (Z.shiftr mask 1) 0) as [E|E].
  - exists q. split_and!; [done| |done|done]. intros i Hi. rewrite Hq by done. case_decide as Ei.
    + subst i. rewrite Z.leb_refl, Z.sub_diag. by destruct (Z.testbit mask 0).
    + destruct (Z.leb_spec bit i); [|done]. replace (i - bit) with ((i - bit - 1) + 1) by lia. rewrite <-Hs, E, Z.testbit_0_l by lia. done.
  - assert (0 <= Z.shiftr mask 1) by (apply Z.shiftr_nonneg; lia).
    assert (Z.shiftr mask 1 < 2^(16 - bit - 1)).
    { rewrite Z.shiftr_div_pow2 by lia. apply Z.div_lt_upper_bound; [lia|]. change (2^1) with 2.
      replace (2 * 2^(16 - bit - 1)) with (2^(16 - bit)); [lia|]. rewrite <-Z.pow_succ_r by lia. f_equal. lia. }
    assert (bit < 15) as Hlt by (destruct (Z_lt_dec bit 15); [done|]; replace (16 - bit - 1) with 0 in * by lia; change (2^0) with 1 in *; lia).
    rewrite next_shifted by (done || lia).
    destruct (IH (bit + 1) (Z.shiftr mask 1) q) as (p' & E' & Hp & Hi' & Ho'); [done|lia|split; [lia|]|lia|].
    { by replace (16 - (bit + 1)) with (16 - bit - 1) by lia. }
    exists p'. split_and!; [done| |congruence|congruence]. intros i Hi. rewrite Hp, Hq by done.
    destruct (Z.leb_spec (bit + 1) i); cbn [andb].
    + rewrite Hs by lia. replace (i - (bit + 1) + 1) with (i - bit) by lia. rewrite decide_False, (proj2 (Z.leb_le bit i)) by lia. done.
    + case_decide; [subst i; rewrite Z.leb_refl, Z.sub_diag; by destruct (Z.testbit mask 0)|].
      by rewrite (proj2 (Z.leb_gt bit i)) by lia.
Qed.

(** ** Buses *)

(** The pads of a bus are pads of its port. *)
Definition bus_ok (bus : IOBus) : Prop :=
  0 <= offset bus < 16 /\ 0 <= mask bus < 2^(16 - offset bus).
(** Pad [i] is one of the bus. *)
Definition in_bus (bus : IOBus) (i : Z) : bool := (offset bus <=? i) && Z.testbit (mask bus) (i - offset bus).
(** Only the port of the bus has changed. *)
Definition only_port (port : Z) (x x' : gpiow) : Prop :=
  (forall k, k <> port -> g_port x' k = g_port x k) /\ g_ahb1enr x' = g_ahb1enr x /\ g_ahb1lpenr x' = g_ahb1lpenr x.

Lemma upd_only port f x : exists x', upd_port port f x = Done tt x' /\ g_port x' port = f (g_port x port) /\ only_port port x x'.
Proof.
  eexists. split; [done|]. cbn. split; [by rewrite fn_lookup_insert|].
  split; [|done]. intros k Hk. cbn. by rewrite fn_lookup_insert_ne.
Qed.

Lemma bus_mask_range bus : bus_ok bus -> 0 <= Z.shiftl (mask bus) (offset bus) < 2^16.
Proof.
  intros [Ho Hm]. rewrite Z.shiftl_mul_pow2 by lia. assert (0 < 2^offset bus) by (apply Z.pow_pos_nonneg; lia).
  replace (2^16) with (2^(16 - offset bus) * 2^offset bus) by (rewrite <-Z.pow_add_r by lia; f_equal; lia). nia.
Qed.

Lemma pal_check_ok `{Config} func bus x : bus_ok bus -> pal_check (offset bus <? PAL_IOPORTS_WIDTH) func x = Done tt x.
Proof. intros [Ho _]. unfold pal_check, PAL_IOPORTS_WIDTH. rewrite (proj2 (Z.ltb_lt _ _)) by lia. by rewrite andb_false_r. Qed.

Lemma setgroupmode_ok port mask mode x :
  0 <= mask < 2^16 ->
  exists x', _pal_lld_setgroupmode port mask mode x = Done tt x' /\ only_port port x x' /\
    (forall i, 0 <= i < 16 -> pad_modes (g_port x' port) i = if Z.testbit mask i then first_modes mode else pad_modes (g_port x port) i) /\
    IDR (g_port x' port) = IDR (g_port x port) /\ ODR (g_port x' port) = ODR (g_port x port).
Proof.
  intros Hm. destruct (setmode_loop_ok (first_modes mode) 32 0 mask (g_port x port)) as (p & E & Hp & Hi & Ho);
    [apply first_modes_ok|lia|done|lia|].
  assert (shifted (first_modes mode) 0 = first_modes mode) as Es by (unfold shifted; by rewrite !Z.mul_0_r, !Z.shiftl_0_r).
  rewrite Es in E. unfold _pal_lld_setgroupmode. rewrite E.
  destruct (upd_only port (fun _ => p) x) as (x' & Ex & Ep & Hx). exists x'. rewrite Ep. split_and!; try done.
  intros i Hr. rewrite Hp by done. rewrite (proj2 (Z.leb_le 0 i)), Z.sub_0_r by lia. done.
Qed.

Lemma testbit_u32 v i : 0 <= i < 32 -> Z.testbit (u32 v) i = Z.testbit v i.
Proof. intros Hi. unfold u32. apply Z.mod_pow2_bits_low. lia. Qed.

(** What a write to a group leaves in the latch. *)
Lemma group_latch `{GpioHw} bus bits o i :
  bsrr_law -> bus_ok bus -> 0 <= i < 16 ->
  Z.testbit (bsrr (Z.lor (u32 (Z.shiftl (Z.ldiff (mask bus) bits) (16 + offset bus))) (u32 (Z.shiftl (Z.land bits (mask bus)) (offset bus)))) o) i =
  if in_bus bus i then Z.testbit bits (i - offset bus) else Z.testbit o i.
Proof.
  intros HL [Ho Hm] Hi. rewrite HL, !Z.lor_spec, !testbit_u32, !Z.shiftl_spec by lia.
  replace (i + 16 - (16 + offset bus)) with (i - offset bus) by lia.
  rewrite (Z.testbit_neg_r _ (i - (16 + offset bus))) by lia. rewrite !Z.land_spec.
  assert (Z.testbit (mask bus) (i + 16 - offset bus) = false) as -> by (apply (testbit_above _ (16 - offset bus)); lia).
  unfold in_bus. destruct (Z.leb_spec (offset bus) i).
  - rewrite Z.ldiff_spec. destruct (Z.testbit bits _), (Z.testbit (mask bus) _), (Z.testbit o i), (Z.testbit bits _); done.
  - rewrite !(Z.testbit_neg_r _ (i - offset bus)) by lia. rewrite !andb_false_r. by destruct (Z.testbit o i).
Qed.

(** C34: a bus within a port, with debug checks or without: [palSetBusMode()] gives
    every pad of the bus the mode, in all the registers, and leaves the modes
    of the other pads, the latch and the other ports alone; [palWriteBus()]
    puts the bits on the pads of the bus, those beyond its width lost, and
    leaves the other outputs and all modes alone, so that the latch read
    through the bus is what was written. *)
Theorem pal_bus `{Config} `{GpioHw} bus mode bits x :
  bsrr_law -> bus_ok bus ->
  (exists x', palSetBusMode bus mode x = Done tt x' /\ only_port (portid bus) x x' /\
     (forall i, 0 <= i < 16 -> pad_modes (g_port x' (portid bus)) i =
        if in_bus bus i then first_modes mode else pad_modes (g_port x (portid bus)) i) /\
     IDR (g_port x' (portid bus)) = IDR (g_port x (portid bus)) /\
     ODR (g_port x' (portid bus)) = ODR (g_port x (portid bus))) /\
  (exists x', palWriteBus bus bits x = Done tt x' /\ only_port (portid bus) x x' /\
     (forall i, pad_modes (g_port x' (portid bus)) i = pad_modes (g_port x (portid bus)) i) /\
     (forall i, 0 <= i < 16 -> Z.testbit (ODR (g_port x' (portid bus))) i =
        if in_bus bus i then Z.testbit bits (i - offset bus) else Z.testbit (ODR (g_port x (portid bus))) i) /\
     Z.land (Z.shiftr (ODR (g_port x' (portid bus))) (offset bus)) (mask bus) = Z.land bits (mask bus)).
Proof.
  intros HL Hb. pose proof (bus_mask_range bus Hb) as Hr. pose proof Hb as [Ho Hm]. split.
  - unfold palSetBusMode, bind. rewrite pal_check_ok by done. cbn [obind].
    unfold palSetGroupMode, pal_lld_setgroupmode. rewrite u32_small by (unfold is_u32; lia).
    destruct (setgroupmode_ok (portid bus) _ mode x Hr) as (x' & E & Hx & Hp & Hi & Hod).
    exists x'. split_and!; try done. intros i Hi'. rewrite Hp by done. rewrite Z.shiftl_spec by lia. unfold in_bus.
    destruct (Z.leb_spec (offset bus) i); [done|]. by rewrite Z.testbit_neg_r by lia.
  - unfold palWriteBus, bind. rewrite pal_check_ok by done. cbn [obind].
    unfold palWriteGroup, pal_lld_writegroup, write_bsrr.
    edestruct upd_only as (x' & E & Ep & Hx). exists x'. split; [exact E|]. rewrite Ep.
    cbn [ODR set_ODR]. split_and!; [done|done|intros i Hi; by apply group_latch|].
    apply Z.bits_inj'. intros j Hj. rewrite !Z.land_spec, Z.shiftr_spec by lia.
    destruct (Z_lt_dec (j + offset bus) 16) as [Hlt|Hge].
    + rewrite group_latch by (done || lia). unfold in_bus. rewrite (proj2 (Z.leb_le _ _)) by lia.
      replace (j + offset bus - offset bus) with j by lia. destruct (Z.testbit (mask bus) j); [done|by rewrite !andb_false_r].
    + rewrite (testbit_above (mask bus) (16 - offset bus) j) by lia. by rewrite !andb_false_r.
Qed.

(** The register of the reference manual, on a port of sixteen pads. *)
Instance gpio_plain : GpioHw := { bsrr w o := Z.lor (Z.ldiff o (Z.shiftr w 16)) (Z.land w 0xFFFF) }.
Lemma gpio_plain_law : bsrr_law.
Proof.
  intros w o i Hi. cbn. change 0xFFFF with (Z.ones 16).
  rewrite Z.lor_spec, Z.ldiff_spec, Z.shiftr_spec, Z.land_spec, Z.testbit_ones_nonneg, (proj2 (Z.ltb_lt i 16)) by lia.
  rewrite andb_true_r. apply orb_comm.
Qed.

Definition demo_bus : IOBus := mkIOBus 3 (PAL_GROUP_MASK 4) 6.
Definition demo_ports : gpiow := mkG (fun _ => mkGPIO 0xA800_0000 0 0 0x6400_0000 0 0x8421 0 0x1234) 0x1FF 0x1FF.

(** Pads 6 to 9 as fast outputs of an alternate function, then the bits 1010
    written with one bit too many. *)
Lemma pal_bus_witness :
  exists x, @palSetBusMode debug_config demo_bus 0x4AA demo_ports = Done tt x /\
    pad_modes (g_port x 3) 7 = mkModes 2 0 1 1 9 /\ pad_modes (g_port x 3) 5 = pad_modes (g_port demo_ports 3) 5 /\
    exists y, @palWriteBus debug_config gpio_plain demo_bus 0x1A x = Done tt y /\ Z.testbit (ODR (g_port y 3)) 7 = true.
Proof.
  assert (bus_ok demo_bus) as Hb by (by vm_compute).
  destruct (@pal_bus debug_config gpio_plain demo_bus 0x4AA 0x1A demo_ports gpio_plain_law Hb) as [(x & E & _ & Hp & _) _].
  exists x. split_and!; [exact E|exact (Hp 7 ltac:(lia))|exact (Hp 5 ltac:(lia))|].
  destruct (@pal_bus debug_config gpio_plain demo_bus 0x4AA 0x1A x gpio_plain_law Hb) as [_ (y & E' & _ & _ & Hy & _)].
  exists y. split; [exact E'|]. exact (Hy 7 ltac:(lia)).
Defined.
