(* ===== verification/MMCSD.v ===== *)
(** * Memory cards: fields of the CSD register ([mmcsd.c], [mmcsd.h])

    The register has 128 bits, in four words, the least significant first.  A
    field is given by its last and first bit.  A shift by the width of the
    type or more has no meaning in C, and is an error here. *)
From S2P Require Import Prelude Monad Types Scenario.

Definition MMCSD_CSD_10_C_SIZE_SLICE : Z * Z := (73, 62).
Definition MMCSD_CSD_10_C_SIZE_MULT_SLICE : Z * Z := (49, 47).
Definition MMCSD_CSD_10_READ_BL_LEN_SLICE : Z * Z := (83, 80).
Definition MMCSD_CSD_20_C_SIZE_SLICE : Z * Z := (69, 48).

Section Defs.
Context `{Config}.

(** [a << n] of 32 bits. *)
Definition shl32 (a n : Z) : KM Z :=
  if (0 <=? n) && (n <? 32) then mret' (u32 (Z.shiftl a n)) else fault "shift".

Definition word (data : list Z) (i : Z) : KM Z :=
  match data !! Z.to_nat i with Some w => mret' w | None => fault "data" end.

Definition mmcsd_get_slice (data : list Z) (last start : Z) : KM Z :=
  chDbgCheck ((start <=? last) && (u32 (last - start) <? 32)) "mmcsd_get_slice" ;;;
  let startidx := start / 32 in
  let startoff := start mod 32 in
  let endidx := last / 32 in
  let! m := shl32 1 (last mod 32 + 1) in
  let endmask := u32 (m - 1) in
  if startidx <? endidx then
    let! w0 := word data startidx in
    let! w1 := word data endidx in
    let! hi := shl32 (Z.land w1 endmask) (32 - startoff) in
    mret' (Z.lor (Z.shiftr w0 startoff) hi)
  else
    let! w := word data startidx in
    mret' (Z.shiftr (Z.land w endmask) startoff).

Definition mmcsdGetCapacity (csd : list Z) : KM Z :=
  let! w3 := word csd 3 in
  let v := Z.shiftr w3 30 in
  if v =? 0 then
    let! a := mmcsd_get_slice csd (fst MMCSD_CSD_10_C_SIZE_SLICE) (snd MMCSD_CSD_10_C_SIZE_SLICE) in
    let! b := mmcsd_get_slice csd (fst MMCSD_CSD_10_C_SIZE_MULT_SLICE) (snd MMCSD_CSD_10_C_SIZE_MULT_SLICE) in
    let! c := mmcsd_get_slice csd (fst MMCSD_CSD_10_READ_BL_LEN_SLICE) (snd MMCSD_CSD_10_READ_BL_LEN_SLICE) in
    let! n := shl32 (u32 (a + 1)) (b + 2) in
    shl32 n (u32 (c - 9))
  else if v =? 1 then
    let! c := mmcsd_get_slice csd (fst MMCSD_CSD_20_C_SIZE_SLICE) (snd MMCSD_CSD_20_C_SIZE_SLICE) in
    mret' (u32 (1024 * u32 (c + 1)))
  else mret' 0.

(** ** The register as a number *)

Fixpoint big (data : list Z) : Z :=
  match data with [] => 0 | w :: data => w + 2^32 * big data end.

(** The bits from [start] to [last]. *)
Definition field (n last start : Z) : Z := n / 2^start mod 2^(last - start + 1).

Lemma big_bits data i :
  Forall is_u32 data -> 0 <= i ->
  Z.testbit (big data) i = Z.testbit (nth (Z.to_nat (i / 32)) data 0) (i mod 32).
Proof.
  intros HF. revert i. induction HF as [|w data Hw _ IH]; intros i Hi.
  { cbn [big]. rewrite Z.bits_0. by destruct (Z.to_nat (i / 32)); rewrite Z.bits_0. }
  cbn [big]. unfold is_u32 in Hw. destruct (Z.lt_ge_cases i 32) as [Hlt|Hge].
  - rewrite Z.div_small, Z.mod_small by lia. cbn [Z.to_nat nth].
    rewrite <-(Z.mod_pow2_bits_low _ 32) by lia. rewrite (Z.mul_comm (2^32)), Z.mod_add by lia.
    by rewrite Z.mod_small by lia.
  - replace i with (i - 32 + 32) at 1 by lia. rewrite <-Z.div_pow2_bits by lia.
    replace ((w + 2^32 * big data) / 2^32) with (big data)
      by (rewrite (Z.mul_comm (2^32)), Z.div_add, Z.div_small by lia; lia).
    rewrite IH by lia. replace i with (i - 32 + 1 * 32) at 3 4 by lia.
    rewrite Z.div_add, Z.mod_add by lia.
    replace (Z.to_nat ((i - 32) / 32 + 1)) with (S (Z.to_nat ((i - 32) / 32))).
    { done. }
    assert (0 <= (i - 32) / 32) by (apply Z.div_pos; lia). lia.
Qed.

Lemma mask_bits a k i : 0 <= k -> 0 <= i -> Z.testbit (Z.land a (2^k - 1)) i = Z.testbit a i && (i <? k).
Proof.
  intros Hk Hi. replace (2^k - 1) with (Z.ones k) by (by rewrite Z.ones_equiv, Z.sub_1_r).
  rewrite Z.land_spec, Z.testbit_ones by done. by rewrite (proj2 (Z.leb_le _ _) Hi).
Qed.

Lemma field_bits n e b i :
  0 <= b <= e -> 0 <= i -> Z.testbit (field n e b) i = Z.testbit n (i + b) && (i <? e - b + 1).
Proof.
  intros Hb Hi. unfold field. destruct (Z.ltb_spec i (e - b + 1)).
  - by rewrite Z.mod_pow2_bits_low, Z.div_pow2_bits, andb_true_r by lia.
  - by rewrite Z.mod_pow2_bits_high, andb_false_r by lia.
Qed.

Lemma word_ok data i s :
  0 <= i -> i < Z.of_nat (length data) -> word data i s = Done (nth (Z.to_nat i) data 0) s.
Proof.
  intros Hi Hl. unfold word. destruct (lookup_lt_is_Some_2 data (Z.to_nat i)) as [w Hw]; [lia|].
  by rewrite Hw, (nth_lookup_Some _ _ _ _ Hw).
Qed.

(** A field in one word. *)
Lemma slice_one data e b :
  Forall is_u32 data -> 0 <= b <= e -> b / 32 = e / 32 ->
  Z.shiftr (Z.land (nth (Z.to_nat (b / 32)) data 0) (2 ^ (e mod 32 + 1) - 1)) (b mod 32) = field (big data) e b.
Proof.
  intros HF Hb Hw. apply Z.bits_inj'. intros i Hi.
  pose proof (Z.mod_pos_bound b 32 ltac:(lia)). pose proof (Z.mod_pos_bound e 32 ltac:(lia)).
  pose proof (Z.div_mod b 32 ltac:(lia)). pose proof (Z.div_mod e 32 ltac:(lia)).
  rewrite Z.shiftr_spec, mask_bits, field_bits by lia.
  replace (i + b mod 32 <? e mod 32 + 1) with (i <? e - b + 1) by lia.
  destruct (Z.ltb_spec i (e - b + 1)); [|by rewrite !andb_false_r]. rewrite !andb_true_r.
  rewrite big_bits by (done || lia). f_equal; [f_equal; f_equal|].
  - apply (Z.div_unique_pos _ 32 _ (i + b mod 32)); lia.
  - apply (Z.mod_unique_pos _ 32 (b / 32) _); lia.
Qed.

Lemma high_bits data (k : nat) j : Forall is_u32 data -> 32 <= j -> Z.testbit (nth k data 0) j = false.
Proof.
  intros HF Hj. assert (is_u32 (nth k data 0)) as Hk.
  { destruct (nth_in_or_default k data 0) as [Hin| ->]; [|done]. by apply (proj1 (List.Forall_forall is_u32 data)). }
  unfold is_u32 in Hk. rewrite <-(Z.mod_small (nth k data 0) (2^32)) by done. by apply Z.mod_pow2_bits_high.
Qed.

(** A field across two words. *)
Lemma slice_two data e b :
  Forall is_u32 data -> 0 <= b <= e -> e - b < 32 -> b / 32 < e / 32 ->
  Z.lor (Z.shiftr (nth (Z.to_nat (b / 32)) data 0) (b mod 32))
    (u32 (Z.shiftl (Z.land (nth (Z.to_nat (e / 32)) data 0) (2 ^ (e mod 32 + 1) - 1)) (32 - b mod 32))) =
  field (big data) e b.
Proof.
  intros HF Hb He Hw. apply Z.bits_inj'. intros i Hi.
  pose proof (Z.mod_pos_bound b 32 ltac:(lia)). pose proof (Z.mod_pos_bound e 32 ltac:(lia)).
  pose proof (Z.div_mod b 32 ltac:(lia)). pose proof (Z.div_mod e 32 ltac:(lia)).
  assert (e / 32 = b / 32 + 1) as Ee by lia.
  rewrite Z.lor_spec, Z.shiftr_spec, field_bits, big_bits by (done || lia). unfold u32.
  destruct (Z.lt_ge_cases (i + b mod 32) 32) as [Hlo|Hhi].
  - rewrite Z.mod_pow2_bits_low, Z.shiftl_spec_low, orb_false_r by lia.
    rewrite (proj2 (Z.ltb_lt i (e - b + 1))), andb_true_r by lia.
    f_equal; [f_equal; f_equal; apply (Z.div_unique_pos _ 32 _ (i + b mod 32))|apply (Z.mod_unique_pos _ 32 (b / 32) _)]; lia.
  - rewrite (high_bits data) by done. cbn [orb]. destruct (Z.lt_ge_cases i 32) as [Hi32|Hi32].
    + rewrite Z.mod_pow2_bits_low, Z.shiftl_spec, mask_bits by lia.
      replace (i - (32 - b mod 32) <? e mod 32 + 1) with (i <? e - b + 1) by lia. f_equal.
      f_equal; [f_equal; f_equal; apply (Z.div_unique_pos _ 32 _ (i + b mod 32 - 32))
               |apply (Z.mod_unique_pos _ 32 (b / 32 + 1) _)]; lia.
    + rewrite Z.mod_pow2_bits_high by lia. by rewrite (proj2 (Z.ltb_ge i (e - b + 1))), andb_false_r by lia.
Qed.

(** [mmcsd_get_slice()] takes any field of at most 32 bits that does not end at
    the top of a word. *)
Lemma get_slice_ok data e b s :
  Forall is_u32 data -> 0 <= b <= e -> e - b < 32 -> e < 32 * Z.of_nat (length data) -> e mod 32 <> 31 ->
  mmcsd_get_slice data e b s = Done (field (big data) e b) s.
Proof.
  intros HF Hb He Hl H31. unfold mmcsd_get_slice.
  pose proof (Z.mod_pos_bound b 32 ltac:(lia)). pose proof (Z.mod_pos_bound e 32 ltac:(lia)).
  pose proof (Z.div_mod b 32 ltac:(lia)). pose proof (Z.div_mod e 32 ltac:(lia)).
  assert (0 <= b / 32 <= e / 32) by (split; [apply Z.div_pos|apply Z.div_le_mono]; lia).
  rewrite check_bind by (apply andb_true_iff; split; [lia|]; rewrite u32_small; unfold is_u32; lia).
  unfold bind at 1, shl32 at 1. rewrite (proj2 (Z.leb_le _ _)), (proj2 (Z.ltb_lt (e mod 32 + 1) 32)) by lia.
  cbn [andb mret' obind]. rewrite Z.shiftl_1_l.
  assert (0 < 2 ^ (e mod 32 + 1) < 2^32) as Hp.
  { split; [by apply Z.pow_pos_nonneg; lia|]. apply Z.pow_lt_mono_r; lia. }
  rewrite (u32_small (2 ^ (e mod 32 + 1))), (u32_small (2 ^ (e mod 32 + 1) - 1)) by (unfold is_u32; lia).
  destruct (Z.ltb_spec (b / 32) (e / 32)) as [Hlt|Hge].
  - unfold bind. rewrite word_ok by lia. cbn [obind]. rewrite word_ok by lia. cbn [obind]. unfold shl32.
    assert (b mod 32 <> 0) by lia.
    rewrite (proj2 (Z.leb_le 0 (32 - b mod 32))), (proj2 (Z.ltb_lt (32 - b mod 32) 32)) by lia.
    cbn [andb mret' obind]. by rewrite slice_two.
  - unfold bind. rewrite word_ok by lia. cbn [obind mret']. by rewrite slice_one by (done || lia).
Qed.

Lemma field_range n e b : 0 <= b <= e -> 0 <= field n e b < 2 ^ (e - b + 1).
Proof. intros Hb. unfold field. apply Z.mod_pos_bound, Z.pow_pos_nonneg; lia. Qed.

(** The last word and the structure field. *)
Lemma structure_ok csd w0 w1 w2 w3 :
  csd = [w0; w1; w2; w3] -> Forall is_u32 csd -> Z.shiftr w3 30 = field (big csd) 127 126.
Proof.
  intros -> HF. change w3 with (nth (Z.to_nat (126 / 32)) [w0; w1; w2; w3] 0).
  rewrite <-slice_one by (done || lia). f_equal.
  change (126 mod 32) with 30. change (2 ^ (127 mod 32 + 1) - 1) with (Z.ones 32). rewrite Z.land_ones by done.
  symmetry. apply Z.mod_small. cbn. by do 3 (apply Forall_cons_1 in HF as [_ HF]); apply Forall_cons_1 in HF as [? _].
Qed.
End Defs.

(** The capacity of the card in bytes, by the fields of its register. *)
Definition capacity_10 (n : Z) : Z :=
  (field n 73 62 + 1) * 2 ^ (field n 49 47 + 2) * 2 ^ field n 83 80.
Definition capacity_20 (n : Z) : Z := (field n 69 48 + 1) * (512 * 1024).

Section capacity.
Context `{Config} (s : kstate).

Lemma shl32_ok a k :
  0 <= k < 32 -> 0 <= a -> a * 2^k < 2^32 -> shl32 a k s = Done (a * 2^k) s.
Proof.
  intros Hk Ha Hm. unfold shl32. rewrite (proj2 (Z.leb_le _ _)), (proj2 (Z.ltb_lt _ _)) by lia. cbn [andb].
  rewrite Z.shiftl_mul_pow2, u32_small by (unfold is_u32; lia). done.
Qed.

Lemma capacity_10_ok csd a b c :
  length csd = 4%nat -> Forall is_u32 csd -> field (big csd) 127 126 = 0 ->
  a = field (big csd) 73 62 -> b = field (big csd) 49 47 -> c = field (big csd) 83 80 -> 9 <= c ->
  mmcsdGetCapacity csd s = Done ((a + 1) * 2^(b + 2) * 2^(c - 9)) s.
Proof.
  intros Hl HF Hv Ha Hb Hc H9. pose proof (field_range (big csd) 73 62 ltac:(lia)) as Ra.
  pose proof (field_range (big csd) 49 47 ltac:(lia)) as Rb. pose proof (field_range (big csd) 83 80 ltac:(lia)) as Rc.
  rewrite <-Ha in Ra. rewrite <-Hb in Rb. rewrite <-Hc in Rc.
  change (2 ^ (73 - 62 + 1)) with 4096 in Ra. change (2 ^ (49 - 47 + 1)) with 8 in Rb. change (2 ^ (83 - 80 + 1)) with 16 in Rc.
  assert (1 <= 2^(b + 2) <= 2^9) as P1 by (split; [apply (Z.pow_le_mono_r 2 0)|apply Z.pow_le_mono_r]; lia).
  assert (1 <= 2^(c - 9) <= 2^6) as P2 by (split; [apply (Z.pow_le_mono_r 2 0)|apply Z.pow_le_mono_r]; lia).
  assert (0 <= (a + 1) * 2^(b + 2) <= 4096 * 512) as P3 by (change 512 with (2^9); nia).
  assert ((a + 1) * 2^(b + 2) * 2^(c - 9) <= 4096 * 512 * 64) as P4 by (change 64 with (2^6); nia).
  destruct csd as [|w0 [|w1 [|w2 [|w3 [|]]]]]; try done.
  pose proof (structure_ok _ w0 w1 w2 w3 eq_refl HF) as Hw. unfold mmcsdGetCapacity, bind.
  change (word [w0; w1; w2; w3] 3 s) with (Done w3 s : outcome kstate Z). cbn [obind]. rewrite Hw, Hv. cbn [Z.eqb].
  cbn [fst snd MMCSD_CSD_10_C_SIZE_SLICE MMCSD_CSD_10_C_SIZE_MULT_SLICE MMCSD_CSD_10_READ_BL_LEN_SLICE].
  rewrite get_slice_ok by (done || lia). cbn [obind]. rewrite get_slice_ok by (done || lia). cbn [obind].
  rewrite get_slice_ok by (done || lia). cbn [obind]. rewrite <-Ha, <-Hb, <-Hc.
  rewrite (u32_small (a + 1)), (u32_small (c - 9)) by (unfold is_u32; lia).
  rewrite shl32_ok by lia. cbn [obind]. by rewrite shl32_ok by lia.
Qed.

Lemma capacity_20_ok csd c :
  length csd = 4%nat -> Forall is_u32 csd -> field (big csd) 127 126 = 1 ->
  c = field (big csd) 69 48 -> mmcsdGetCapacity csd s = Done (u32 (1024 * (c + 1))) s.
Proof.
  intros Hl HF Hv Hc. pose proof (field_range (big csd) 69 48 ltac:(lia)) as Rc. rewrite <-Hc in Rc.
  change (2 ^ (69 - 48 + 1)) with 4194304 in Rc.
  destruct csd as [|w0 [|w1 [|w2 [|w3 [|]]]]]; try done.
  pose proof (structure_ok _ w0 w1 w2 w3 eq_refl HF) as Hw. unfold mmcsdGetCapacity, bind.
  change (word [w0; w1; w2; w3] 3 s) with (Done w3 s : outcome kstate Z). cbn [obind]. rewrite Hw, Hv. cbn [Z.eqb Pos.eqb fst snd MMCSD_CSD_20_C_SIZE_SLICE].
  rewrite get_slice_ok by (done || lia). cbn [obind mret']. rewrite <-Hc.
  by rewrite (u32_small (c + 1)) by (unfold is_u32; lia).
Qed.
End capacity.

(** C35: [mmcsdGetCapacity()] is the capacity of the card in blocks of 512 bytes, by
    the fields of the 128-bit register the version says, wherever they lie in
    its words, or 0 for a version it does not know.  The blocks of a card of
    version 1 have at least 512 bytes; a card of version 2 has less than 2^32
    blocks. *)
Theorem mmcsd_capacity `{Config} csd s :
  length csd = 4%nat -> Forall is_u32 csd ->
  let n := big csd in
  (field n 127 126 = 0 -> 9 <= field n 83 80 ->
     exists blocks, mmcsdGetCapacity csd s = Done blocks s /\ blocks * 512 = capacity_10 n) /\
  (field n 127 126 = 1 -> field n 69 48 < 2^22 - 1 ->
     exists blocks, mmcsdGetCapacity csd s = Done blocks s /\ blocks * 512 = capacity_20 n) /\
  (1 < field n 127 126 -> mmcsdGetCapacity csd s = Done 0 s).
Proof.
  intros Hl HF n. split_and!.
  - intros Hv H9. eexists. split; [by apply capacity_10_ok|]. unfold capacity_10.
    replace (2 ^ field n 83 80) with (2 ^ (field n 83 80 - 9) * 2^9) by (rewrite <-Z.pow_add_r by lia; f_equal; lia).
    fold n. lia.
  - intros Hv Hc. eexists. split; [by apply capacity_20_ok|]. unfold capacity_20. fold n.
    pose proof (field_range n 69 48 ltac:(lia)). rewrite u32_small by (unfold is_u32; lia). lia.
  - intros Hv. destruct csd as [|w0 [|w1 [|w2 [|w3 [|]]]]]; try done.
    pose proof (structure_ok _ w0 w1 w2 w3 eq_refl HF) as Hw. unfold mmcsdGetCapacity, bind.
    change (word [w0; w1; w2; w3] 3 s) with (Done w3 s : outcome kstate Z). cbn [obind]. rewrite Hw.
    fold n. by rewrite !(proj2 (Z.eqb_neq _ _)) by lia.
Qed.

(** A card of 8 GB: version 2, with a size field of 15159. *)
Lemma mmcsd_capacity_witness :
  exists blocks, @mmcsdGetCapacity app_config [0; 0x3B370000; 0; 0x40000000] blank = Done blocks blank /\
    blocks * 512 = 15160 * (512 * 1024).
Proof.
  destruct (@mmcsd_capacity app_config [0; 0x3B370000; 0; 0x40000000] blank) as (_ & Hv & _).
  - reflexivity.
  - repeat constructor; unfold is_u32; lia.
  - destruct Hv as (blocks & E & Hb); [vm_compute; reflexivity|vm_compute; reflexivity|].
    exists blocks. split; [exact E|]. rewrite Hb. vm_compute. reflexivity.
Defined.

(** A card of version 2 with the largest size has 2^32 blocks, which the function
    gives as 0, its answer to a register it does not understand. *)
Theorem mmcsd_capacity_wraps `{Config} s :
  mmcsdGetCapacity [0; 0xFFFF0000; 0x3F; 0x40000000] s = Done 0 s /\
  capacity_20 (big [0; 0xFFFF0000; 0x3F; 0x40000000]) = 2^32 * 512.
Proof.
  split; [|by vm_compute]. rewrite (capacity_20_ok s _ 4194303);
    [vm_compute; reflexivity|reflexivity| |vm_compute; reflexivity|vm_compute; reflexivity].
  repeat constructor; unfold is_u32; lia.
Qed.
