(* ===== verification/Serial.v ===== *)
(** * Serial driver ([hal/src/serial.c], [serial.h])

    The high level driver of a serial port: two kernel queues and an event
    source between the threads and the interrupt handlers of the low level
    driver.  The world is the kernel state and the driver objects, by their
    address; the low level driver is a parameter. *)
From S2P Require Import Prelude Monad Types ThdLists VT Sched Evt IOQ.
From S2P Require Import Inv InvPrim InvSched Rules Wake EvtOK Ring IOQOK EvTimer.

Definition CHN_INPUT_AVAILABLE : Z := 4.
Definition CHN_OUTPUT_EMPTY : Z := 8.
Definition SD_OVERRUN_ERROR : Z := 128.

Inductive sdstate_t := SD_UNINIT | SD_STOP | SD_READY.
#[export] Instance sdstate_eq_dec : EqDecision sdstate_t.
Proof. solve_decision. Defined.

Record SerialDriver := mkSD {
  sd_event : Z;
  sd_state : sdstate_t;
  sd_iqueue : Z;
  sd_oqueue : Z
}.
Definition set_sd_state (v : sdstate_t) (d : SerialDriver) : SerialDriver :=
  mkSD (sd_event d) v (sd_iqueue d) (sd_oqueue d).

Record sdw := mkSDW { sd_k : kstate; sd_drv : Z -> SerialDriver }.

(** A kernel function called by the driver. *)
Fixpoint kcall_o {A} (x : sdw) (o : outcome kstate A) : outcome sdw A :=
  match o with
  | Done a s => Done a (mkSDW s (sd_drv x))
  | Suspend p s k => Suspend p (mkSDW s (sd_drv x)) (fun x' => kcall_o x' (k (sd_k x')))
  | Stuck e => Stuck e
  end.
Definition kcall {A} (m : M kstate A) : M sdw A := fun x => kcall_o x (m (sd_k x)).
Definition the_sd (sdp : Z) : M sdw SerialDriver := gets (fun x => sd_drv x sdp).
Definition upd_sd (sdp : Z) (f : SerialDriver -> SerialDriver) : M sdw unit :=
  modify (fun x => mkSDW (sd_k x) (<[sdp := f (sd_drv x sdp)]> (sd_drv x))).

(** The low level driver. *)
Class SerialLld := {
  sd_lld_init : M sdw unit;
  sd_lld_start : Z -> Z -> M sdw unit;
  sd_lld_stop : Z -> M sdw unit
}.

Section Defs.
Context `{Config} `{App} `{SerialLld}.

Definition chnAddFlagsI (d : SerialDriver) (flags : Z) : KM unit := chEvtBroadcastFlagsI (sd_event d) flags.

(** ** The channel interface *)

Definition write (rounds : nat) (ip : Z) (bp : list Z) : M sdw Z :=
  let! d := the_sd ip in kcall (chOQWriteTimeout rounds (sd_oqueue d) bp TIME_INFINITE).
Definition read (rounds : nat) (ip n : Z) : M sdw (list Z) :=
  let! d := the_sd ip in kcall (chIQReadTimeout rounds (sd_iqueue d) n TIME_INFINITE).
Definition put (rounds : nat) (ip b : Z) : M sdw Z :=
  let! d := the_sd ip in kcall (chOQPutTimeout rounds (sd_oqueue d) b TIME_INFINITE).
Definition get (rounds : nat) (ip : Z) : M sdw Z :=
  let! d := the_sd ip in kcall (chIQGetTimeout rounds (sd_iqueue d) TIME_INFINITE).
Definition putt (rounds : nat) (ip b timeout : Z) : M sdw Z :=
  let! d := the_sd ip in kcall (chOQPutTimeout rounds (sd_oqueue d) b timeout).
Definition gett (rounds : nat) (ip timeout : Z) : M sdw Z :=
  let! d := the_sd ip in kcall (chIQGetTimeout rounds (sd_iqueue d) timeout).
Definition writet (rounds : nat) (ip : Z) (bp : list Z) (time : Z) : M sdw Z :=
  let! d := the_sd ip in kcall (chOQWriteTimeout rounds (sd_oqueue d) bp time).
Definition readt (rounds : nat) (ip n time : Z) : M sdw (list Z) :=
  let! d := the_sd ip in kcall (chIQReadTimeout rounds (sd_iqueue d) n time).

(** ** Life of the driver *)

Definition sdInit : M sdw unit := sd_lld_init.

Definition sdObjectInit (sdp : Z) (inotify onotify : option Z) (ib ob : list Z) : M sdw unit :=
  let! d := the_sd sdp in
  kcall (chEvtInit (sd_event d)) ;;;
  upd_sd sdp (set_sd_state SD_STOP) ;;;
  kcall (chIQInit (sd_iqueue d) ib inotify sdp) ;;;
  kcall (chOQInit (sd_oqueue d) ob onotify sdp).

Definition sdStart (sdp config : Z) : M sdw unit :=
  kcall (chDbgCheck (negb (sdp =? 0)) "sdStart") ;;;
  kcall chSysLock ;;;
  let! d := the_sd sdp in
  kcall (chDbgAssert (bool_decide (sd_state d = SD_STOP) || bool_decide (sd_state d = SD_READY)) "sdStart(), #1") ;;;
  sd_lld_start sdp config ;;;
  upd_sd sdp (set_sd_state SD_READY) ;;;
  kcall chSysUnlock.

Definition sdStop (sdp : Z) : M sdw unit :=
  kcall (chDbgCheck (negb (sdp =? 0)) "sdStop") ;;;
  kcall chSysLock ;;;
  let! d := the_sd sdp in
  kcall (chDbgAssert (bool_decide (sd_state d = SD_STOP) || bool_decide (sd_state d = SD_READY)) "sdStop(), #1") ;;;
  sd_lld_stop sdp ;;;
  upd_sd sdp (set_sd_state SD_STOP) ;;;
  kcall (chOQResetI (sd_oqueue d)) ;;;
  kcall (chIQResetI (sd_iqueue d)) ;;;
  kcall chSchRescheduleS ;;;
  kcall chSysUnlock.

(** ** Interrupt handlers; they touch the kernel objects of the driver only. *)

Definition sdIncomingDataI (sdp : Z) (d : SerialDriver) (b : Z) : KM unit :=
  chDbgCheckClassI ;;;
  chDbgCheck (negb (sdp =? 0)) "sdIncomingDataI" ;;;
  let! q := gets (fun s => k_ioq s (sd_iqueue d)) in
  (whenb chIQIsEmptyI q then chnAddFlagsI d CHN_INPUT_AVAILABLE) ;;;
  let! r := chIQPutI (sd_iqueue d) b in
  whenb r <? Q_OK then chnAddFlagsI d SD_OVERRUN_ERROR.

Definition sdRequestDataI (sdp : Z) (d : SerialDriver) : KM Z :=
  chDbgCheckClassI ;;;
  chDbgCheck (negb (sdp =? 0)) "sdRequestDataI" ;;;
  let! b := chOQGetI (sd_oqueue d) in
  (whenb b <? Q_OK then chnAddFlagsI d CHN_OUTPUT_EMPTY) ;;;
  mret' b.
End Defs.
