(* ===== verification/SerialThm.v ===== *)
(** * Serial driver: the interrupt side

    Bytes from the port go through the input queue, and bytes to it through
    the output queue, in order; the flags of the channel say when data comes
    in, when a byte was lost, and when there is nothing left to send. *)
From S2P Require Import Prelude Monad Types ThdLists VT Sched Evt IOQ.
From S2P Require Import Inv InvPrim InvSched Rules Scenario Wake EvtOK Ring IOQOK SyncThm EvTimer Serial.

Implicit Types (s : kstate) (l : list Z).

(** The listeners of the source after flags were added. *)
Definition flagged s (es flags elp : Z) : EventListener :=
  if decide (elp ∈ k_es s es) then set_el_flags (Z.lor (el_flags (k_el s elp)) flags) (k_el s elp) else k_el s elp.

(** The event source of the driver can be broadcast. *)
Record source_ok (es : Z) s : Prop := {
  so_es : es <> 0;
  so_nodup : NoDup (k_es s es);
  so_listen : forall elp, elp ∈ k_es s es -> el_listener (k_el s elp) <> 0
}.

Section handlers.
Context `{Config} (idle : tid).

Lemma broadcast_flags s es flags :
  locked_I s -> KInv idle None s -> source_ok es s ->
  exists s', chEvtBroadcastFlagsI es flags s = Done tt s' /\ locked_I s' /\ KInv idle None s' /\
    k_ioq s' = k_ioq s /\ k_es s' = k_es s /\ forall elp, k_el s' elp = flagged s es flags elp.
Proof.
  intros HL HI [Hes Hnd Hl].
  destruct (broadcast_loop_eq idle (k_es s es) s flags HL HI Hnd Hl) as (s' & E & Hi & E1 & _).
  pose proof (is_data _ _ _ Hi) as Ed. unfold kdata in Ed. simpl in Ed.
  exists s'. split_and!.
  - unfold chEvtBroadcastFlagsI. rewrite classI_bind by done.
    by rewrite check_bind by (by rewrite (proj2 (Z.eqb_neq _ _))).
  - by apply (istep_locked idle s (set_k_el (k_el s) s')).
  - by apply (set_k_el_inv idle None s' (k_el s)), Hi.
  - by simplify_eq.
  - by simplify_eq.
  - apply E1.
Qed.

Lemma step_data s s' :
  istep idle s (set_k_ioq (k_ioq s) s') -> k_es s' = k_es s /\ k_el s' = k_el s.
Proof. intros Hi. pose proof (is_data _ _ _ Hi) as Ed. unfold kdata in Ed. simpl in Ed. by simplify_eq. Qed.

(** C36: a byte from the serial port: with room in the input queue it becomes the
    last one there, and the listeners of the channel are told of input exactly
    when the queue was empty; without room the byte is lost, the queue is
    unchanged and the listeners are told of the overrun. *)
Theorem serial_incoming s sdp d b l :
  locked_I s -> KInv idle None s -> source_ok (sd_event d) s -> sdp <> 0 ->
  iq_rep (k_ioq s (sd_iqueue d)) l -> is_u8 b -> 0 < len (q_buffer (k_ioq s (sd_iqueue d))) ->
  exists s', sdIncomingDataI sdp d b s = Done tt s' /\ KInv idle None s' /\
    (len l < len (q_buffer (k_ioq s (sd_iqueue d))) ->
       iq_rep (k_ioq s' (sd_iqueue d)) (l ++ [b]) /\
       forall elp, k_el s' elp = if decide (l = []) then flagged s (sd_event d) CHN_INPUT_AVAILABLE elp else k_el s elp) /\
    (len l = len (q_buffer (k_ioq s (sd_iqueue d))) ->
       k_ioq s' = k_ioq s /\ forall elp, k_el s' elp = flagged s (sd_event d) SD_OVERRUN_ERROR elp).
Proof.
  intros HL HI HS Hp HR Hb Hsz. unfold sdIncomingDataI. rewrite classI_bind by done.
  rewrite check_bind by (by rewrite (proj2 (Z.eqb_neq _ _))).
  unfold bind at 1. cbn [gets obind].
  assert (chIQIsEmptyI (k_ioq s (sd_iqueue d)) = bool_decide (l = [])) as ->.
  { destruct HR as [_ Hc]. unfold chIQIsEmptyI, chQSpaceI. rewrite Hc. unfold len.
    destruct l; [done|]. rewrite bool_decide_false by done. apply Z.leb_gt. cbn [length]. lia. }
  destruct (decide (l = [])) as [->|Hne].
  - rewrite bool_decide_true by done.
    destruct (broadcast_flags s (sd_event d) CHN_INPUT_AVAILABLE HL HI HS) as (s1 & E1 & HL1 & HI1 & Eq1 & Ees1 & Eel1).
    unfold bind at 1, chnAddFlagsI at 1. rewrite E1. cbn [obind].
    destruct (chIQPutI_eq idle s1 (sd_iqueue d) b [] HL1 HI1) as [_ Hput]; [by rewrite Eq1|done|].
    destruct Hput as (s2 & E2 & HR2 & Hi2 & _); [by rewrite Eq1|].
    destruct (step_data _ _ Hi2) as [_ Eel2].
    unfold bind. rewrite E2. cbn. exists s2. split; [done|]. split; [by apply (set_k_ioq_inv idle None s2 (k_ioq s1)), Hi2|].
    split; [|intros E; change (len []) with 0 in E; lia]. intros _. split; [done|]. intros elp. by rewrite Eel2.
  - rewrite bool_decide_false by done. unfold bind at 1. cbn [mret' obind].
    destruct (chIQPutI_eq idle s (sd_iqueue d) b l HL HI HR Hb) as [Hfull Hput].
    destruct (Z.eq_dec (len l) (len (q_buffer (k_ioq s (sd_iqueue d))))) as [Hf|Hf].
    + unfold bind. rewrite Hfull by done. cbn [obind]. change (Q_FULL <? Q_OK) with true.
      destruct (broadcast_flags s (sd_event d) SD_OVERRUN_ERROR HL HI HS) as (s1 & E1 & HL1 & HI1 & Eq1 & Ees1 & Eel1).
      unfold chnAddFlagsI. exists s1. split; [done|]. split; [done|]. split; [lia|]. done.
    + assert (len l < len (q_buffer (k_ioq s (sd_iqueue d)))) as Hlt.
      { destruct HR as [Hr _]. destruct (qr_ring _ _ Hr). lia. }
      destruct (Hput Hlt) as (s2 & E2 & HR2 & Hi2 & _). destruct (step_data _ _ Hi2) as [_ Eel2].
      unfold bind. rewrite E2. cbn. exists s2. split; [done|].
      split; [by apply (set_k_ioq_inv idle None s2 (k_ioq s)), Hi2|]. split; [|lia].
      intros _. split; [done|]. intros elp. by rewrite Eel2.
Qed.

(** A byte for the port: the first of the output queue, or [Q_EMPTY], and then
    the listeners are told. *)
Theorem serial_request s sdp d l :
  locked_I s -> KInv idle None s -> source_ok (sd_event d) s -> sdp <> 0 ->
  oq_rep (k_ioq s (sd_oqueue d)) l ->
  exists s', sdRequestDataI sdp d s = Done (default Q_EMPTY (head l)) s' /\ KInv idle None s' /\
    oq_rep (k_ioq s' (sd_oqueue d)) (tail l) /\
    forall elp, k_el s' elp = if decide (l = []) then flagged s (sd_event d) CHN_OUTPUT_EMPTY elp else k_el s elp.
Proof.
  intros HL HI HS Hp HR. unfold sdRequestDataI. rewrite classI_bind by done.
  rewrite check_bind by (by rewrite (proj2 (Z.eqb_neq _ _))).
  pose proof (chOQGetI_eq idle s (sd_oqueue d) l HL HI HR) as Hg. destruct l as [|b l].
  - destruct (broadcast_flags s (sd_event d) CHN_OUTPUT_EMPTY HL HI HS) as (s1 & E1 & HL1 & HI1 & Eq1 & Ees1 & Eel1).
    unfold bind. rewrite Hg. cbn [obind]. change (Q_EMPTY <? Q_OK) with true. unfold chnAddFlagsI. rewrite E1.
    exists s1. cbn. by rewrite Eq1.
  - destruct Hg as (s1 & E1 & Hb & HR1 & Hi1 & _). destruct (step_data _ _ Hi1) as [_ Eel1].
    unfold bind. rewrite E1. cbn [obind]. rewrite (proj2 (Z.ltb_ge b Q_OK)) by (unfold is_u8 in Hb; unfold Q_OK, RDY_OK; lia).
    exists s1. cbn. split; [done|]. split; [by apply (set_k_ioq_inv idle None s1 (k_ioq s)), Hi1|]. split; [done|].
    intros elp. by rewrite Eel1.
Qed.
End handlers.

(** Source 1 has two listeners; queue 3 has room for eight bytes. *)
Definition sd_kernel : scenario :=
  {| sc_curr := sc_curr demo_evt; sc_thd := sc_thd demo_evt; sc_q := sc_q demo_evt; sc_sem := sc_sem demo_evt;
     sc_mtx := sc_mtx demo_evt;
     sc_data := set_k_ioq (fun q => mkIOQ 0 (replicate 8 0) 0 0 None 9) (sc_data demo_evt) |}.

Lemma serial_incoming_witness :
  exists s', @sdIncomingDataI app_config 9 (mkSD 1 SD_READY 3 4) 65 (sc_state sd_kernel) = Done tt s' /\
    iq_rep (k_ioq s' 3) [65] /\ el_flags (k_el s' 20) = 4.
Proof.
  destruct (@serial_incoming app_config 0 (sc_state sd_kernel) 9 (mkSD 1 SD_READY 3 4) 65 [])
    as (s' & E & _ & Hroom & _).
  - intros ?. discriminate.
  - apply sc_KInv. apply (bool_decide_unpack _). by vm_compute.
  - split; [done| |].
    + apply (bool_decide_unpack _). by vm_compute.
    + intros elp Hin. change (elp ∈ [21; 20]) in Hin. repeat (apply elem_of_cons in Hin as [->|Hin]; [done|]).
      by apply elem_of_nil in Hin.
  - done.
  - split; [|done]. split; [by apply ring_reset|done|]. repeat constructor; unfold is_u8; lia.
  - unfold is_u8. lia.
  - done.
  - destruct Hroom as [HR Hel]; [done|]. exists s'. split; [exact E|]. split; [exact HR|]. rewrite Hel. reflexivity.
Defined.
