(* ===== verification/Sdc.v ===== *)
(** * SD card driver ([os/hal/src/sdc.c], [os/hal/include/sdc.h])

    The driver of a card: connection, transfers, synchronization and erase, on
    the functions of the low level driver, which are the class [SdcLld].  These
    see the card and its bus, of any type [C], and the error flags of the
    driver; a function that stores an answer of the card gets what was there
    before and gives what is there after.  The driver object is that of the
    world.  [c_log] is the list of the commands sent, for the theorems only. *)
From S2P Require Import Prelude Monad Types Sched Threads Sys MMCSD.

(** ** Constants *)

Definition SDC_MODE_CARDTYPE_MASK : Z := 0xF.
Definition SDC_MODE_CARDTYPE_SDV11 : Z := 0.
Definition SDC_MODE_CARDTYPE_SDV20 : Z := 1.
Definition SDC_MODE_HIGH_CAPACITY : Z := 0x10.
Definition SDC_NO_ERROR : Z := 0.
Definition SDC_OVERFLOW_ERROR : Z := 128.
Definition SDC_INIT_RETRY : nat := 100.

Definition MMCSD_BLOCK_SIZE : Z := 512.
Definition MMCSD_R1_ERROR_MASK : Z := 0xFDFFE008.
Definition MMCSD_CMD8_PATTERN : Z := 0x000001AA.
Definition MMCSD_STS_TRAN : Z := 4.
Definition MMCSD_STS_DATA : Z := 5.
Definition MMCSD_STS_RCV : Z := 6.
Definition MMCSD_STS_PRG : Z := 7.
Definition MMCSD_CMD_GO_IDLE_STATE : Z := 0.
Definition MMCSD_CMD_ALL_SEND_CID : Z := 2.
Definition MMCSD_CMD_SEND_RELATIVE_ADDR : Z := 3.
Definition MMCSD_CMD_SET_BUS_WIDTH : Z := 6.
Definition MMCSD_CMD_SEL_DESEL_CARD : Z := 7.
Definition MMCSD_CMD_SEND_IF_COND : Z := 8.
Definition MMCSD_CMD_SEND_CSD : Z := 9.
Definition MMCSD_CMD_SEND_STATUS : Z := 13.
Definition MMCSD_CMD_SET_BLOCKLEN : Z := 16.
Definition MMCSD_CMD_ERASE_RW_BLK_START : Z := 32.
Definition MMCSD_CMD_ERASE_RW_BLK_END : Z := 33.
Definition MMCSD_CMD_ERASE : Z := 38.
Definition MMCSD_CMD_APP_OP_COND : Z := 41.
Definition MMCSD_CMD_APP_CMD : Z := 55.

Definition CH_SUCCESS : bool := false.
Definition CH_FAILED : bool := true.

Definition MMCSD_R1_ERROR (r1 : Z) : bool := negb (Z.land r1 MMCSD_R1_ERROR_MASK =? 0).
Definition MMCSD_R1_STS (r1 : Z) : Z := Z.land (Z.shiftr r1 9) 15.

Inductive blkstate_t :=
  | BLK_UNINIT | BLK_STOP | BLK_ACTIVE | BLK_CONNECTING | BLK_DISCONNECTING
  | BLK_READY | BLK_READING | BLK_WRITING | BLK_SYNCING.
#[export] Instance blkstate_eq_dec : EqDecision blkstate_t.
Proof. solve_decision. Defined.

Record BlockDeviceInfo := mkBDI { blk_size : Z; blk_num : Z }.

Record SDCDriver := mkSDC {
  sdc_state : blkstate_t;
  sdc_cid : list Z;
  sdc_csd : list Z;
  sdc_capacity : Z;
  sdc_config : option Z;
  sdc_cardmode : Z;
  sdc_errors : Z;
  sdc_rca : Z
}.

Definition set_sdc_state (v : blkstate_t) (d : SDCDriver) : SDCDriver :=
  mkSDC v (sdc_cid d) (sdc_csd d) (sdc_capacity d) (sdc_config d) (sdc_cardmode d) (sdc_errors d) (sdc_rca d).
Definition set_sdc_cid (v : list Z) (d : SDCDriver) : SDCDriver :=
  mkSDC (sdc_state d) v (sdc_csd d) (sdc_capacity d) (sdc_config d) (sdc_cardmode d) (sdc_errors d) (sdc_rca d).
Definition set_sdc_csd (v : list Z) (d : SDCDriver) : SDCDriver :=
  mkSDC (sdc_state d) (sdc_cid d) v (sdc_capacity d) (sdc_config d) (sdc_cardmode d) (sdc_errors d) (sdc_rca d).
Definition set_sdc_capacity (v : Z) (d : SDCDriver) : SDCDriver :=
  mkSDC (sdc_state d) (sdc_cid d) (sdc_csd d) v (sdc_config d) (sdc_cardmode d) (sdc_errors d) (sdc_rca d).
Definition set_sdc_config (v : option Z) (d : SDCDriver) : SDCDriver :=
  mkSDC (sdc_state d) (sdc_cid d) (sdc_csd d) (sdc_capacity d) v (sdc_cardmode d) (sdc_errors d) (sdc_rca d).
Definition set_sdc_cardmode (v : Z) (d : SDCDriver) : SDCDriver :=
  mkSDC (sdc_state d) (sdc_cid d) (sdc_csd d) (sdc_capacity d) (sdc_config d) v (sdc_errors d) (sdc_rca d).
Definition set_sdc_errors (v : Z) (d : SDCDriver) : SDCDriver :=
  mkSDC (sdc_state d) (sdc_cid d) (sdc_csd d) (sdc_capacity d) (sdc_config d) (sdc_cardmode d) v (sdc_rca d).
Definition set_sdc_rca (v : Z) (d : SDCDriver) : SDCDriver :=
  mkSDC (sdc_state d) (sdc_cid d) (sdc_csd d) (sdc_capacity d) (sdc_config d) (sdc_cardmode d) (sdc_errors d) v.

(** ** The low level driver *)

Class SdcLld (C : Type) := {
  sdc_lld_init : C -> C;
  sdc_lld_start : C -> C;
  sdc_lld_stop : C -> C;
  sdc_lld_start_clk : C -> C;
  sdc_lld_set_data_clk : C -> C;
  sdc_lld_stop_clk : C -> C;
  sdc_lld_set_bus_4bit : C -> C;
  sdc_lld_send_cmd_none : Z -> Z -> C -> C;
  sdc_lld_send_cmd_short : Z -> Z -> Z -> C * Z -> (bool * Z) * (C * Z);
  sdc_lld_send_cmd_short_crc : Z -> Z -> Z -> C * Z -> (bool * Z) * (C * Z);
  sdc_lld_send_cmd_long_crc : Z -> Z -> list Z -> C * Z -> (bool * list Z) * (C * Z);
  sdc_lld_read : Z -> Z -> Z -> C * Z -> (bool * list Z) * (C * Z);
  sdc_lld_write : Z -> Z -> Z -> list Z -> C * Z -> bool * (C * Z);
  sdc_lld_sync : C * Z -> bool * (C * Z)
}.

Record sdcw (C : Type) := mkC { c_k : kstate; c_sdc : SDCDriver; c_card : C; c_log : list (Z * Z) }.
Arguments mkC {C} _ _ _ _.
Arguments c_k {C} _.
Arguments c_sdc {C} _.
Arguments c_card {C} _.
Arguments c_log {C} _.

Section Defs.
Context `{Config} {C : Type} `{SdcLld C}.
Local Abbreviation CM := (M (sdcw C)).

(** A kernel function. *)
Fixpoint ck_o {A} (x : sdcw C) (o : outcome kstate A) : outcome (sdcw C) A :=
  match o with
  | Done a s => Done a (mkC s (c_sdc x) (c_card x) (c_log x))
  | Suspend p s k => Suspend p (mkC s (c_sdc x) (c_card x) (c_log x)) (fun x' => ck_o x' (k (c_k x')))
  | Stuck e => Stuck e
  end.
Definition ck {A} (m : M kstate A) : CM A := fun x => ck_o x (m (c_k x)).

Definition set_sdc (f : SDCDriver -> SDCDriver) : CM unit :=
  modify (fun x => mkC (c_k x) (f (c_sdc x)) (c_card x) (c_log x)).
Definition get_sdc {A} (f : SDCDriver -> A) : CM A := gets (fun x => f (c_sdc x)).
Definition on_card (f : C -> C) : CM unit :=
  modify (fun x => mkC (c_k x) (c_sdc x) (f (c_card x)) (c_log x)).
(** A function of the low level driver that can fail. *)
Definition on_bus {A} (f : C * Z -> A * (C * Z)) : CM A := fun x =>
  let r := f (c_card x, sdc_errors (c_sdc x)) in
  Done r.1 (mkC (c_k x) (set_sdc_errors r.2.2 (c_sdc x)) r.2.1 (c_log x)).
Definition logged (cmd arg : Z) : CM unit :=
  modify (fun x => mkC (c_k x) (c_sdc x) (c_card x) (c_log x ++ [(cmd, arg)])).

Definition send_cmd_none (cmd arg : Z) : CM unit := logged cmd arg ;;; on_card (sdc_lld_send_cmd_none cmd arg).
(** Whether the command failed, and the word of the answer. *)
Definition send_cmd_short (cmd arg : Z) : CM (bool * Z) :=
  logged cmd arg ;;; on_bus (sdc_lld_send_cmd_short cmd arg 0).
Definition send_cmd_short_crc (cmd arg : Z) : CM (bool * Z) :=
  logged cmd arg ;;; on_bus (sdc_lld_send_cmd_short_crc cmd arg 0).

(** [sdc_lld_send_cmd_short_crc(...) || MMCSD_R1_ERROR(resp[0])] *)
Definition send_cmd_r1 (cmd arg : Z) : CM bool :=
  let! r := send_cmd_short_crc cmd arg in mret' (r.1 || MMCSD_R1_ERROR r.2).

Definition chThdSleepMilliseconds (msec : Z) : CM unit := ck (chThdSleep (MS2ST msec)).

(** [CH_FAILED] when the step failed, or what the rest returns. *)
Definition or_fail (step : CM bool) (rest : CM bool) : CM bool :=
  let! failed := step in if failed then mret' CH_FAILED else rest.

(** ** Waiting for the card *)

Fixpoint _sdc_wait_for_transfer_state (rounds : nat) : CM bool :=
  let! rca := get_sdc sdc_rca in
  let! r := send_cmd_short_crc MMCSD_CMD_SEND_STATUS rca in
  if r.1 || MMCSD_R1_ERROR r.2 then mret' CH_FAILED
  else
    let sts := MMCSD_R1_STS r.2 in
    if sts =? MMCSD_STS_TRAN then mret' CH_SUCCESS
    else if (sts =? MMCSD_STS_DATA) || (sts =? MMCSD_STS_RCV) || (sts =? MMCSD_STS_PRG) then
      chThdSleepMilliseconds 1 ;;;
      match rounds with
      | O => fun _ => Stuck Rounds
      | S rounds => _sdc_wait_for_transfer_state rounds
      end
    else mret' CH_FAILED.

(** ** Life of the driver *)

Definition sdcInit : CM unit := on_card sdc_lld_init.

Definition sdcObjectInit : CM unit :=
  set_sdc (fun d => set_sdc_capacity 0 (set_sdc_config None (set_sdc_errors SDC_NO_ERROR (set_sdc_state BLK_STOP d)))).

Definition check_state (f : blkstate_t -> bool) (msg : string) : CM unit :=
  let! st := get_sdc sdc_state in ck (chDbgAssert (f st) msg).
Definition stopped_or_active (st : blkstate_t) : bool := bool_decide (st = BLK_STOP) || bool_decide (st = BLK_ACTIVE).
Definition active_or_ready (st : blkstate_t) : bool := bool_decide (st = BLK_ACTIVE) || bool_decide (st = BLK_READY).

Definition sdcStart (config : option Z) : CM unit :=
  ck chSysLock ;;;
  check_state stopped_or_active "sdcStart(), #1" ;;;
  set_sdc (set_sdc_config config) ;;;
  on_card sdc_lld_start ;;;
  set_sdc (set_sdc_state BLK_ACTIVE) ;;;
  ck chSysUnlock.

Definition sdcStop : CM unit :=
  ck chSysLock ;;;
  check_state stopped_or_active "sdcStop(), #1" ;;;
  on_card sdc_lld_stop ;;;
  set_sdc (set_sdc_state BLK_STOP) ;;;
  ck chSysUnlock.

(** ** Connection *)

(** V2.0 cards detection, and the voltage of such a card. *)
Definition detect_card : CM bool :=
  let! r := send_cmd_short_crc MMCSD_CMD_SEND_IF_COND MMCSD_CMD8_PATTERN in
  if negb r.1 then
    set_sdc (set_sdc_cardmode SDC_MODE_CARDTYPE_SDV20) ;;;
    if negb (Z.land (Z.shiftr r.2 8) 0xF =? 1) then mret' CH_FAILED
    else send_cmd_r1 MMCSD_CMD_APP_CMD 0
  else
    set_sdc (set_sdc_cardmode SDC_MODE_CARDTYPE_SDV11) ;;; mret' CH_SUCCESS.

(** SD-type initialization, with [tries] for [SDC_INIT_RETRY - i]. *)
Fixpoint init_loop (tries : nat) (ocr : Z) : CM bool :=
  or_fail (send_cmd_r1 MMCSD_CMD_APP_CMD 0) (
  let! r := send_cmd_short MMCSD_CMD_APP_OP_COND ocr in
  if r.1 then mret' CH_FAILED
  else if negb (Z.land r.2 0x80000000 =? 0) then
    (whenb negb (Z.land r.2 0x40000000 =? 0)
     then set_sdc (fun d => set_sdc_cardmode (Z.lor (sdc_cardmode d) SDC_MODE_HIGH_CAPACITY) d)) ;;;
    mret' CH_SUCCESS
  else
    match tries with
    | O | S O => mret' CH_FAILED
    | S tries => chThdSleepMilliseconds 10 ;;; init_loop tries ocr
    end).

Definition is_type (ty : Z) (d : SDCDriver) : bool := Z.land (sdc_cardmode d) SDC_MODE_CARDTYPE_MASK =? ty.

Definition sd_init : CM bool :=
  let! v20 := get_sdc (is_type SDC_MODE_CARDTYPE_SDV20) in
  init_loop SDC_INIT_RETRY (if v20 then 0xC0100000 else 0x80100000).

(** CID, RCA and CSD of the card. *)
Definition read_cid : CM bool :=
  let! old := get_sdc sdc_cid in
  logged MMCSD_CMD_ALL_SEND_CID 0 ;;;
  let! r := on_bus (sdc_lld_send_cmd_long_crc MMCSD_CMD_ALL_SEND_CID 0 old) in
  set_sdc (set_sdc_cid r.2) ;;; mret' r.1.

Definition read_rca : CM bool :=
  let! old := get_sdc sdc_rca in
  logged MMCSD_CMD_SEND_RELATIVE_ADDR 0 ;;;
  let! r := on_bus (sdc_lld_send_cmd_short_crc MMCSD_CMD_SEND_RELATIVE_ADDR 0 old) in
  set_sdc (set_sdc_rca r.2) ;;; mret' r.1.

Definition read_csd : CM bool :=
  let! rca := get_sdc sdc_rca in
  let! old := get_sdc sdc_csd in
  logged MMCSD_CMD_SEND_CSD rca ;;;
  let! r := on_bus (sdc_lld_send_cmd_long_crc MMCSD_CMD_SEND_CSD rca old) in
  set_sdc (set_sdc_csd r.2) ;;; mret' r.1.

(** Selects the card for operations; the answer is not looked at. *)
Definition select_card : CM bool :=
  on_card sdc_lld_set_data_clk ;;;
  let! rca := get_sdc sdc_rca in
  let! r := send_cmd_short_crc MMCSD_CMD_SEL_DESEL_CARD rca in
  mret' r.1.

Definition set_wide_bus : CM bool :=
  let! sd := get_sdc (fun d => is_type SDC_MODE_CARDTYPE_SDV11 d || is_type SDC_MODE_CARDTYPE_SDV20 d) in
  if sd then
    on_card sdc_lld_set_bus_4bit ;;;
    let! rca := get_sdc sdc_rca in
    or_fail (send_cmd_r1 MMCSD_CMD_APP_CMD rca)
            (send_cmd_r1 MMCSD_CMD_SET_BUS_WIDTH 2)
  else mret' CH_SUCCESS.

Definition read_capacity : CM bool :=
  let! csd := get_sdc sdc_csd in
  let! n := ck (mmcsdGetCapacity csd) in
  set_sdc (set_sdc_capacity n) ;;;
  mret' (n =? 0).

(** The part of [sdcConnect()] that leaves by [goto failed]. *)
Definition connect_card : CM bool :=
  or_fail detect_card (
  or_fail sd_init (
  or_fail read_cid (
  or_fail read_rca (
  or_fail read_csd (
  or_fail select_card (
  or_fail (send_cmd_r1 MMCSD_CMD_SET_BLOCKLEN MMCSD_BLOCK_SIZE) (
  or_fail set_wide_bus
    read_capacity))))))).

Definition sdcConnect : CM bool :=
  check_state active_or_ready "mmcConnect(), #1" ;;;
  set_sdc (set_sdc_state BLK_CONNECTING) ;;;
  on_card sdc_lld_start_clk ;;;
  send_cmd_none MMCSD_CMD_GO_IDLE_STATE 0 ;;;
  let! failed := connect_card in
  if failed then
    on_card sdc_lld_stop_clk ;;;
    set_sdc (set_sdc_state BLK_ACTIVE) ;;;
    mret' CH_FAILED
  else
    set_sdc (set_sdc_state BLK_READY) ;;;
    mret' CH_SUCCESS.

Definition sdcDisconnect (rounds : nat) : CM bool :=
  ck chSysLock ;;;
  check_state active_or_ready "sdcDisconnect(), #1" ;;;
  let! st := get_sdc sdc_state in
  if bool_decide (st = BLK_ACTIVE) then ck chSysUnlock ;;; mret' CH_SUCCESS
  else
    set_sdc (set_sdc_state BLK_DISCONNECTING) ;;;
    ck chSysUnlock ;;;
    let! failed := _sdc_wait_for_transfer_state rounds in
    on_card sdc_lld_stop_clk ;;;
    set_sdc (set_sdc_state BLK_ACTIVE) ;;;
    mret' failed.

(** ** Transfers *)

Definition is_ready (st : blkstate_t) : bool := bool_decide (st = BLK_READY).

(** [(startblk + n - 1) > sdcp->capacity] *)
Definition past_end (startblk n : Z) (d : SDCDriver) : bool := sdc_capacity d <? u32 (startblk + n - 1).

Definition overflow : CM unit :=
  set_sdc (fun d => set_sdc_errors (Z.lor (sdc_errors d) SDC_OVERFLOW_ERROR) d).

(** The status and the bytes read. *)
Definition sdcRead (startblk n : Z) : CM (bool * list Z) :=
  ck (chDbgCheck (0 <? n) "sdcRead") ;;;
  check_state is_ready "sdcRead(), #1" ;;;
  let! bad := get_sdc (past_end startblk n) in
  if bad then overflow ;;; mret' (CH_FAILED, [])
  else
    set_sdc (set_sdc_state BLK_READING) ;;;
    let! mode := get_sdc sdc_cardmode in
    let! r := on_bus (sdc_lld_read mode startblk n) in
    set_sdc (set_sdc_state BLK_READY) ;;;
    mret' r.

Definition sdcWrite (startblk n : Z) (buf : list Z) : CM bool :=
  ck (chDbgCheck (0 <? n) "sdcWrite") ;;;
  check_state is_ready "sdcWrite(), #1" ;;;
  let! bad := get_sdc (past_end startblk n) in
  if bad then overflow ;;; mret' CH_FAILED
  else
    set_sdc (set_sdc_state BLK_WRITING) ;;;
    let! mode := get_sdc sdc_cardmode in
    let! r := on_bus (sdc_lld_write mode startblk n buf) in
    set_sdc (set_sdc_state BLK_READY) ;;;
    mret' r.

Definition sdcGetAndClearErrors : CM Z :=
  check_state is_ready "sdcGetAndClearErrors(), #1" ;;;
  ck chSysLock ;;;
  let! flags := get_sdc sdc_errors in
  set_sdc (set_sdc_errors SDC_NO_ERROR) ;;;
  ck chSysUnlock ;;;
  mret' flags.

Definition sdcSync : CM bool :=
  let! st := get_sdc sdc_state in
  if negb (is_ready st) then mret' CH_FAILED
  else
    set_sdc (set_sdc_state BLK_SYNCING) ;;;
    let! r := on_bus sdc_lld_sync in
    set_sdc (set_sdc_state BLK_READY) ;;;
    mret' r.

Definition sdcGetInfo : CM (bool * option BlockDeviceInfo) :=
  let! d := get_sdc id in
  mret' (if negb (is_ready (sdc_state d)) then (CH_FAILED, None)
         else (CH_SUCCESS, Some (mkBDI MMCSD_BLOCK_SIZE (sdc_capacity d)))).

(** The three erase commands. *)
Definition erase_cmds (startblk endblk : Z) : CM bool :=
  or_fail (send_cmd_r1 MMCSD_CMD_ERASE_RW_BLK_START startblk) (
  or_fail (send_cmd_r1 MMCSD_CMD_ERASE_RW_BLK_END endblk)
          (send_cmd_r1 MMCSD_CMD_ERASE 0)).

Definition sdcErase (rounds : nat) (startblk endblk : Z) : CM bool :=
  check_state is_ready "sdcErase(), #1" ;;;
  set_sdc (set_sdc_state BLK_WRITING) ;;;
  let! mode := get_sdc sdc_cardmode in
  let hc := negb (Z.land mode SDC_MODE_HIGH_CAPACITY =? 0) in
  let startblk := if hc then startblk else u32 (startblk * MMCSD_BLOCK_SIZE) in
  let endblk := if hc then endblk else u32 (endblk * MMCSD_BLOCK_SIZE) in
  _sdc_wait_for_transfer_state rounds ;;;
  let! failed := erase_cmds startblk endblk in
  if failed then set_sdc (set_sdc_state BLK_READY) ;;; mret' CH_FAILED
  else
    _sdc_wait_for_transfer_state rounds ;;;
    set_sdc (set_sdc_state BLK_READY) ;;;
    mret' CH_SUCCESS.
End Defs.
