(* ===== verification/SdcThm.v ===== *)
(** * SD card driver: main theorems

    Connecting sends the commands of the identification sequence in order and
    leaves the driver ready only when all were answered, with the capacity of
    the card; erasing sends the commands of the erase in order, and fails at the
    first that is answered with an error; every operation leaves the driver in
    the state it documents, whatever the card answers and whatever the other
    threads do while it sleeps. *)
From S2P Require Import Prelude Monad Types Sched Threads Sys MMCSD Scenario.
From S2P Require Import Inv InvPrim InvSched Rules Wake Total DataThm Sdc.

(** ** Kernel calls of the driver

    The driver and the card belong to the thread that uses them: while it
    sleeps the others leave them alone. *)

Section Driver.
Context `{Config} {C : Type} `{SdcLld C} (idle : tid) (J : kdata_t -> Prop) (t : tid) (ml : list mid).
Implicit Types (x : sdcw C).

Definition cgrd (w : susp) x : Prop := grd idle J w (c_k x).
Definition crely (w : susp) x x' : Prop :=
  rely idle J t w (c_k x) (c_k x') /\ c_sdc x' = c_sdc x /\ c_card x' = c_card x /\ c_log x' = c_log x.
Abbreviation csafe := (osafe cgrd crely).

Lemma osafe_ck {A} (m : M kstate A) (Q : A -> kstate -> Prop) (Q' : A -> sdcw C -> Prop) x :
  osafe (grd idle J) (rely idle J t) Q (m (c_k x)) ->
  (forall a s, Q a s -> Q' a (mkC s (c_sdc x) (c_card x) (c_log x))) -> csafe Q' (ck m x).
Proof.
  unfold ck. generalize (m (c_k x)). intros o. revert x.
  induction o as [a s|w s k IH|e]; intros x Ho HQ; cbn in *; [by apply HQ| |by destruct e].
  destruct Ho as [HG Hk]. split; [done|]. intros x' (HR & E1 & E2 & E3). apply IH; [by apply Hk|].
  intros a s' Hs. rewrite E1, E2, E3. cbn. by apply HQ.
Qed.

Lemma ck_done {A} (m : M kstate A) x a s :
  m (c_k x) = Done a s -> ck m x = Done a (mkC s (c_sdc x) (c_card x) (c_log x)).
Proof. intros E. unfold ck. by rewrite E. Qed.

(** The thread runs, without the lock. *)
Definition running x : Prop := Ust idle J t ml (c_k x).

(** What a step needs, and what holds after it fails and after it succeeds. *)
Definition step (P : sdcw C -> Prop) (m : M (sdcw C) bool) (F S : sdcw C -> Prop) : Prop :=
  forall x, P x -> csafe (fun (failed : bool) x' => if failed then F x' else S x') (m x).

Lemma step_or_fail P m F S rest R : step P m F S -> step S rest F R -> step P (or_fail m rest) F R.
Proof.
  intros Hm Hr x Hx. apply osafe_bind. eapply osafe_mono; [|by apply Hm].
  intros [] x' Hx'; [done|]. by apply Hr.
Qed.

Lemma sleep_step ms (Q : unit -> sdcw C -> Prop) x :
  t <> idle -> 0 < MS2ST ms < 2^32 -> running x ->
  (forall s, Ust idle J t ml s -> Q tt (mkC s (c_sdc x) (c_card x) (c_log x))) ->
  csafe Q (chThdSleepMilliseconds ms x).
Proof.
  intros Hid Hms Hr HQ. apply (osafe_ck _ (fun _ s => Ust idle J t ml s)); [by apply chThdSleep_safe|].
  intros [] s Hs. by apply HQ.
Qed.

(** ** The commands of the connection *)

Definition op_round (v20 : bool) : list (Z * Z) :=
  [(MMCSD_CMD_APP_CMD, 0); (MMCSD_CMD_APP_OP_COND, if v20 then 0xC0100000 else 0x80100000)].

(** Reset, detection of the version, and [k] rounds of initialization. *)
Definition start_log (v20 : bool) (k : nat) : list (Z * Z) :=
  [(MMCSD_CMD_GO_IDLE_STATE, 0); (MMCSD_CMD_SEND_IF_COND, MMCSD_CMD8_PATTERN)] ++
  (if v20 then [(MMCSD_CMD_APP_CMD, 0)] else []) ++ concat (repeat (op_round v20) k).

(** Identification and selection of the card of address [rca]. *)
Definition ident_log (rca : Z) : list (Z * Z) :=
  [(MMCSD_CMD_ALL_SEND_CID, 0); (MMCSD_CMD_SEND_RELATIVE_ADDR, 0); (MMCSD_CMD_SEND_CSD, rca);
   (MMCSD_CMD_SEL_DESEL_CARD, rca); (MMCSD_CMD_SET_BLOCKLEN, 512); (MMCSD_CMD_APP_CMD, rca);
   (MMCSD_CMD_SET_BUS_WIDTH, 2)].

Definition connect_log (v20 : bool) (k : nat) (rca : Z) : list (Z * Z) := start_log v20 k ++ ident_log rca.

Lemma start_log_S v20 k : start_log v20 (S k) = start_log v20 k ++ op_round v20.
Proof.
  unfold start_log. cbn [repeat]. rewrite repeat_cons, concat_app. cbn [concat]. rewrite app_nil_r. by rewrite !app_assoc.
Qed.

(** A CSD record that the specification of the cards allows. *)
Definition csd_ok (csd : list Z) : Prop :=
  length csd = 4%nat /\ Forall is_u32 csd /\ (field (big csd) 127 126 = 0 -> 9 <= field (big csd) 83 80).

Lemma capacity_total csd : csd_ok csd -> exists n, forall s, mmcsdGetCapacity csd s = Done n s.
Proof.
  intros (Hl & HF & H9). pose proof (field_range (big csd) 127 126 ltac:(lia)) as Hr.
  destruct (Z.eq_dec (field (big csd) 127 126) 0) as [E0|N0].
  { eexists. intros s. apply capacity_10_ok; auto. }
  destruct (Z.eq_dec (field (big csd) 127 126) 1) as [E1|N1].
  { eexists. intros s. by apply capacity_20_ok. }
  exists 0. intros s. destruct csd as [|w0 [|w1 [|w2 [|w3 [|]]]]]; try done.
  pose proof (structure_ok _ w0 w1 w2 w3 eq_refl HF) as Hw. unfold mmcsdGetCapacity, bind.
  change (word [w0; w1; w2; w3] 3 s) with (Done w3 s : outcome kstate Z). cbn [obind]. rewrite Hw.
  by rewrite !(proj2 (Z.eqb_neq _ _)) by lia.
Qed.

Hypothesis csd_answer : forall arg old st,
  (sdc_lld_send_cmd_long_crc MMCSD_CMD_SEND_CSD arg old st).1.1 = false ->
  csd_ok (sdc_lld_send_cmd_long_crc MMCSD_CMD_SEND_CSD arg old st).1.2.
Hypothesis not_idle : t <> idle.
Hypothesis frequency : 0 < MS2ST 10 < 2^32.

Variable log0 : list (Z * Z).

(** The type of the card, with or without the flag of its capacity. *)
Definition mode_ok (v20 : bool) (mode : Z) : Prop :=
  let ty := if v20 then SDC_MODE_CARDTYPE_SDV20 else SDC_MODE_CARDTYPE_SDV11 in
  mode = ty \/ mode = Z.lor ty SDC_MODE_HIGH_CAPACITY.

Definition connecting x : Prop := running x /\ sdc_state (c_sdc x) = BLK_CONNECTING.

(** The connection failed on the way. *)
Definition aborted x : Prop :=
  connecting x /\ exists v20 k rca l, (k <= SDC_INIT_RETRY)%nat /\ c_log x = log0 ++ l /\
    l `prefix_of` connect_log v20 k rca.

(** [k] rounds of initialization were sent. *)
Definition started (v20 : bool) (k : nat) x : Prop :=
  connecting x /\ mode_ok v20 (sdc_cardmode (c_sdc x)) /\ c_log x = log0 ++ start_log v20 k.

(** The first [n] commands of the identification were sent. *)
Definition at_step (n : nat) x : Prop :=
  exists v20 k, (1 <= k <= SDC_INIT_RETRY)%nat /\ connecting x /\ mode_ok v20 (sdc_cardmode (c_sdc x)) /\
    c_log x = log0 ++ start_log v20 k ++ take n (ident_log (sdc_rca (c_sdc x))) /\
    ((3 <= n)%nat -> csd_ok (sdc_csd (c_sdc x))).

Lemma at_step_aborted n x : at_step n x -> aborted x.
Proof.
  intros (v20 & k & Hk & Hc & _ & Hl & _). split; [done|].
  exists v20, k, (sdc_rca (c_sdc x)), (start_log v20 k ++ take n (ident_log (sdc_rca (c_sdc x)))).
  split_and!; [lia|done|]. apply prefix_app. exists (drop n (ident_log (sdc_rca (c_sdc x)))). by rewrite take_drop.
Qed.

Lemma aborted_intro v20 k rca l x :
  connecting x -> (k <= SDC_INIT_RETRY)%nat -> c_log x = log0 ++ l -> l `prefix_of` connect_log v20 k rca -> aborted x.
Proof. intros Hc Hk Hl Hp. split; [done|]. by exists v20, k, rca, l. Qed.

Lemma detect_step :
  step (fun x => connecting x /\ c_log x = log0 ++ [(MMCSD_CMD_GO_IDLE_STATE, 0)]) detect_card aborted
    (fun x => exists v20, started v20 0 x).
Proof.
  intros x [[Hr Hs] Hl]. unfold detect_card, bind, send_cmd_short_crc, bind, on_bus, logged, modify. cbn [obind c_card c_sdc c_log].
  destruct (sdc_lld_send_cmd_short_crc _ _ _ _) as [[f r] [k e]]. cbn [obind fst snd]. destruct f; cbn.
  - exists false. split_and!; [by split|by left|]. cbn. by rewrite Hl, <-app_assoc.
  - destruct (Z.land (Z.shiftr r 8) 15 =? 1); cbn.
    + match goal with |- if ?b then _ else _ => destruct b end.
      * apply (aborted_intro true 0 0 (start_log true 0)); [by split|lia| |by apply prefix_app_r].
        cbn. by rewrite Hl, <-!app_assoc.
      * exists true. split_and!; [by split|by left|]. cbn. by rewrite Hl, <-!app_assoc.
    + apply (aborted_intro false 0 0 (start_log false 0)); [by split|lia| |by apply prefix_app_r].
      cbn. by rewrite Hl, <-!app_assoc.
Qed.

Lemma mode_ok_high v20 mode : mode_ok v20 mode -> mode_ok v20 (Z.lor mode SDC_MODE_HIGH_CAPACITY).
Proof. intros [-> | ->]; right; [done|]. by destruct v20. Qed.

Lemma init_loop_step v20 : forall tries k, (k + tries = SDC_INIT_RETRY)%nat -> (0 < tries)%nat ->
  step (started v20 k) (init_loop tries (if v20 then 0xC0100000 else 0x80100000)) aborted
    (fun x => exists k', (k < k' <= SDC_INIT_RETRY)%nat /\ started v20 k' x).
Proof.
  induction tries as [|tries IH]; intros k Hk Hpos; [lia|].
  intros x ([Hr Hs] & Hm & Hl). cbn [init_loop]. unfold or_fail, bind at 1, send_cmd_r1, send_cmd_short_crc, bind, on_bus, logged, modify.
  cbn [obind c_card c_sdc c_log c_k mret'].
  destruct (sdc_lld_send_cmd_short_crc _ _ _ _) as [[f r] [cd e]]. cbn [fst snd].
  destruct (f || MMCSD_R1_ERROR r).
  { apply (aborted_intro v20 (S k) 0 (start_log v20 k ++ [(MMCSD_CMD_APP_CMD, 0)])); [by split|lia| |].
    - cbn [c_log]. by rewrite Hl, <-app_assoc.
    - unfold connect_log. rewrite start_log_S. rewrite <-!app_assoc. apply prefix_app. by eexists. }
  unfold send_cmd_short, bind, on_bus, logged, modify. cbn [obind c_card c_sdc c_log c_k].
  destruct (sdc_lld_send_cmd_short _ _ _ _) as [[f2 r2] [cd2 e2]]. cbn [fst snd].
  match goal with |- context [mkC (c_k x) ?d cd2 ?l] => set (x2 := mkC (c_k x) d cd2 l) end.
  assert (connecting x2) as Hc2 by (by split).
  assert (c_log x2 = log0 ++ start_log v20 (S k)) as Hl2.
  { unfold x2. cbn [c_log]. rewrite Hl, start_log_S, <-!app_assoc. by destruct v20. }
  assert (aborted x2) as Ha.
  { apply (aborted_intro v20 (S k) 0 (start_log v20 (S k))); [done|lia|done|by apply prefix_app_r]. }
  destruct f2; [done|]. destruct (Z.land r2 0x80000000 =? 0); cbn [negb].
  - destruct tries as [|tries]; [done|].
    apply osafe_bind. apply sleep_step; [done|done|done|]. intros s Hs'.
    eapply osafe_mono; [|apply (IH (S k)); [lia|lia|]].
    + intros [] x' Hx'; [done|]. destruct Hx' as (k' & Hk' & Hx'). exists k'. split; [lia|done].
    + split_and!; [by split|done|done].
  - destruct (Z.land r2 0x40000000 =? 0); cbn.
    + exists (S k). split; [lia|]. by split.
    + exists (S k). split; [lia|]. split_and!; [done| |done]. cbn. by apply mode_ok_high.
Qed.

Lemma init_step : step (fun x => exists v20, started v20 0 x) sd_init aborted (at_step 0).
Proof.
  intros x (v20 & Hx). pose proof Hx as (_ & Hm & _). unfold sd_init, bind, get_sdc, gets. cbn [obind].
  assert (is_type SDC_MODE_CARDTYPE_SDV20 (c_sdc x) = v20) as ->.
  { unfold is_type. by destruct Hm as [-> | ->], v20. }
  eapply osafe_mono; [|apply (init_loop_step v20 SDC_INIT_RETRY 0); [done|by apply Nat.lt_0_succ|done]].
  intros [] x' Hx'; [done|]. destruct Hx' as (k & Hk & Hc & Hm' & Hl). exists v20, k.
  split; [lia|]. split; [done|]. split; [done|]. split; [by rewrite firstn_O, app_nil_r|lia].
Qed.

(** One more command. *)
Lemma at_next n x x' cmd :
  at_step n x -> c_k x' = c_k x -> sdc_state (c_sdc x') = sdc_state (c_sdc x) ->
  sdc_cardmode (c_sdc x') = sdc_cardmode (c_sdc x) ->
  take n (ident_log (sdc_rca (c_sdc x'))) = take n (ident_log (sdc_rca (c_sdc x))) ->
  c_log x' = c_log x ++ [cmd] -> ident_log (sdc_rca (c_sdc x')) !! n = Some cmd ->
  ((3 <= S n)%nat -> csd_ok (sdc_csd (c_sdc x'))) -> at_step (S n) x'.
Proof.
  intros (v20 & k & Hk & [Hr Hs] & Hm & Hl & _) Ek Es Em Et El Hcmd Hcsd. exists v20, k.
  split; [done|]. split; [split; [unfold running; by rewrite Ek|by rewrite Es]|].
  split; [by rewrite Em|]. split; [|done].
  rewrite (take_S_r _ _ _ Hcmd), Et, El, Hl. by rewrite <-!app_assoc.
Qed.

Lemma read_cid_step : step (at_step 0) read_cid aborted (at_step 1).
Proof.
  intros x Hx. unfold read_cid, bind, on_bus. cbn.
  destruct (sdc_lld_send_cmd_long_crc _ _ _ _) as [[f r] [cd e]]. cbn.
  match goal with |- if _ then _ ?y else _ => assert (at_step 1 y) as Hn by (apply (at_next 0 x y (MMCSD_CMD_ALL_SEND_CID, 0)); (done || lia)) end.
  destruct f; [by apply (at_step_aborted 1)|done].
Qed.

Lemma read_rca_step : step (at_step 1) read_rca aborted (at_step 2).
Proof.
  intros x Hx. unfold read_rca, bind, on_bus. cbn.
  destruct (sdc_lld_send_cmd_short_crc _ _ _ _) as [[f r] [cd e]]. cbn.
  match goal with |- if _ then _ ?y else _ => assert (at_step 2 y) as Hn by (apply (at_next 1 x y (MMCSD_CMD_SEND_RELATIVE_ADDR, 0)); (done || lia)) end.
  destruct f; [by apply (at_step_aborted 2)|done].
Qed.

(** The record is one of a card only when the command succeeded. *)
Lemma read_csd_step : step (at_step 2) read_csd aborted (at_step 3).
Proof.
  intros x Hx. unfold read_csd, bind, on_bus. cbn.
  set (rca := sdc_rca (c_sdc x)). pose proof (csd_answer rca (sdc_csd (c_sdc x)) (c_card x, sdc_errors (c_sdc x))) as Hcsd.
  destruct (sdc_lld_send_cmd_long_crc _ _ _ _) as [[f r] [cd e]]. cbn in *. destruct f.
  - destruct Hx as (v20 & k & Hk & [Hr Hs] & Hm & Hl & _).
    apply (aborted_intro v20 k rca (start_log v20 k ++ take 3 (ident_log rca))); [by split|lia| |].
    + cbn [c_log]. by rewrite Hl, <-!app_assoc.
    + apply prefix_app. exists (drop 3 (ident_log rca)). by rewrite take_drop.
  - apply (at_next 2 x _ (MMCSD_CMD_SEND_CSD, rca)); try done. intros _. by apply Hcsd.
Qed.

Lemma at_csd n x : (3 <= n)%nat -> at_step n x -> csd_ok (sdc_csd (c_sdc x)).
Proof. intros Hn (v20 & k & _ & _ & _ & _ & Hc). by apply Hc. Qed.

Lemma select_step : step (at_step 3) select_card aborted (at_step 4).
Proof.
  intros x Hx. pose proof (at_csd 3 x ltac:(lia) Hx). unfold select_card, bind, send_cmd_short_crc, bind, on_bus. cbn.
  destruct (sdc_lld_send_cmd_short_crc _ _ _ _) as [[f r] [cd e]]. cbn.
  match goal with |- if _ then _ ?y else _ => assert (at_step 4 y) as Hn
    by (apply (at_next 3 x y (MMCSD_CMD_SEL_DESEL_CARD, sdc_rca (c_sdc x))); done) end.
  destruct f; [by apply (at_step_aborted 4)|done].
Qed.

(** A command of the sequence with an R1 answer. *)
Lemma r1_step n cmd arg :
  (3 <= n)%nat -> (forall rca, ident_log rca !! n = Some (cmd, arg rca)) ->
  forall x, at_step n x ->
  csafe (fun (failed : bool) x' => if failed then aborted x' else at_step (S n) x')
    (send_cmd_r1 cmd (arg (sdc_rca (c_sdc x))) x).
Proof.
  intros Hn Hcmd x Hx. pose proof (at_csd n x Hn Hx). unfold send_cmd_r1, bind, send_cmd_short_crc, bind, on_bus. cbn.
  destruct (sdc_lld_send_cmd_short_crc _ _ _ _) as [[f r] [cd e]]. cbn.
  match goal with |- if _ then _ ?y else _ => assert (at_step (S n) y) as Hy
    by (apply (at_next n x y (cmd, arg (sdc_rca (c_sdc x)))); try done; apply Hcmd) end.
  destruct (f || MMCSD_R1_ERROR r); [by apply (at_step_aborted (S n))|done].
Qed.

Lemma wide_bus_step : step (at_step 5) set_wide_bus aborted (at_step 7).
Proof.
  intros x Hx. pose proof Hx as (v20 & k & _ & _ & Hm & _). unfold set_wide_bus, bind at 1, get_sdc, gets. cbn [obind].
  assert (is_type SDC_MODE_CARDTYPE_SDV11 (c_sdc x) || is_type SDC_MODE_CARDTYPE_SDV20 (c_sdc x) = true) as ->.
  { unfold is_type. by destruct Hm as [-> | ->], v20. }
  unfold bind at 1, on_card, modify. cbn [obind]. set (x1 := mkC (c_k x) (c_sdc x) _ (c_log x)).
  unfold bind at 1. cbn [obind].
  eapply (step_or_fail (fun y => y = x1) _ aborted (at_step 6)); [| |done].
  - intros y ->. by apply (r1_step 5 MMCSD_CMD_APP_CMD (fun rca => rca)); [lia|done|].
  - intros y Hy. by apply (r1_step 6 MMCSD_CMD_SET_BUS_WIDTH (fun _ => 2)); [lia|done|].
Qed.

(** All the commands were sent, and the capacity is known. *)
Definition connected x : Prop :=
  connecting x /\ sdc_capacity (c_sdc x) <> 0 /\
  (forall s, mmcsdGetCapacity (sdc_csd (c_sdc x)) s = Done (sdc_capacity (c_sdc x)) s) /\
  exists v20 k, (1 <= k <= SDC_INIT_RETRY)%nat /\ c_log x = log0 ++ connect_log v20 k (sdc_rca (c_sdc x)).

Lemma capacity_step : step (at_step 7) read_capacity aborted connected.
Proof.
  intros x Hx. destruct (capacity_total _ (at_csd 7 x ltac:(lia) Hx)) as [n Hn].
  pose proof (at_step_aborted 7 x Hx) as Ha.
  unfold read_capacity, bind at 1, get_sdc, gets. cbn [obind]. unfold bind at 1. rewrite (ck_done _ _ n (c_k x)) by done.
  cbn. destruct (Z.eqb_spec n 0) as [->|Hz].
  - destruct Ha as [[Hr Hs] (v20 & k & rca & l & Hk & Hl & Hp)]. by apply (aborted_intro v20 k rca l).
  - destruct Hx as (v20 & k & Hk & [Hr Hs] & Hm & Hl & _). split_and!; try done. exists v20, k. by split.
Qed.

Lemma connect_step :
  step (fun x => connecting x /\ c_log x = log0 ++ [(MMCSD_CMD_GO_IDLE_STATE, 0)]) connect_card aborted connected.
Proof.
  eapply step_or_fail; [apply detect_step|]. eapply step_or_fail; [apply init_step|].
  eapply step_or_fail; [apply read_cid_step|]. eapply step_or_fail; [apply read_rca_step|].
  eapply step_or_fail; [apply read_csd_step|]. eapply step_or_fail; [apply select_step|].
  eapply step_or_fail; [|eapply step_or_fail; [apply wide_bus_step|apply capacity_step]].
  intros x Hx. by apply (r1_step 4 MMCSD_CMD_SET_BLOCKLEN (fun _ => 512)); [lia|done|].
Qed.
End Driver.

(** C32: [sdcConnect()], whatever the card answers and the other threads do while
    it sleeps: it returns after a bounded number of commands, which are in the
    order of the identification sequence of the cards.  It succeeds only after
    the whole sequence, and the driver is then ready with the address of the
    card in the commands and the capacity of its CSD record, not 0; when it
    fails the driver is active again.  The CSD record of a card is one that the
    specification allows. *)
Theorem sdc_connect `{Config} {C} `{SdcLld C} idle J t ml (x : sdcw C) :
  (forall arg old st, (sdc_lld_send_cmd_long_crc MMCSD_CMD_SEND_CSD arg old st).1.1 = false ->
     csd_ok (sdc_lld_send_cmd_long_crc MMCSD_CMD_SEND_CSD arg old st).1.2) ->
  t <> idle -> 0 < MS2ST 10 < 2^32 -> Ust idle J t ml (c_k x) -> active_or_ready (sdc_state (c_sdc x)) = true ->
  osafe (cgrd idle J) (crely idle J t)
    (fun (failed : bool) x' => Ust idle J t ml (c_k x') /\
       exists v20 k rca l, (k <= SDC_INIT_RETRY)%nat /\ c_log x' = c_log x ++ l /\
         if failed then sdc_state (c_sdc x') = BLK_ACTIVE /\ l `prefix_of` connect_log v20 k rca
         else sdc_state (c_sdc x') = BLK_READY /\ (1 <= k)%nat /\ l = connect_log v20 k (sdc_rca (c_sdc x')) /\
              sdc_capacity (c_sdc x') <> 0 /\
              forall s, mmcsdGetCapacity (sdc_csd (c_sdc x')) s = Done (sdc_capacity (c_sdc x')) s)
    (sdcConnect x).
Proof.
  intros Hcsd Hid Hms HU Hst. unfold sdcConnect, check_state, bind at 1, bind at 1, get_sdc, gets. cbn [obind].
  rewrite (ck_done _ _ tt (c_k x)) by (rewrite Hst; by apply chDbgAssert_ok). cbn [obind].
  unfold bind at 1, set_sdc, modify. cbn [obind c_k c_sdc c_card c_log].
  unfold bind at 1, on_card, modify. cbn [obind c_k c_sdc c_card c_log].
  unfold bind at 1, send_cmd_none, bind at 1, logged, on_card, modify. cbn [obind c_k c_sdc c_card c_log].
  apply osafe_bind. eapply osafe_mono; [|apply (connect_step idle J t ml Hcsd Hid Hms (c_log x)); by split].
  intros [] x' Hx'.
  - destruct Hx' as [[Hr _] (v20 & k & rca & l & Hk & Hl & Hp)]. cbn. split; [done|]. by exists v20, k, rca, l.
  - destruct Hx' as ([Hr _] & Hn & Hcap & v20 & k & Hk & Hl). cbn. split; [done|].
    exists v20, k, (sdc_rca (c_sdc x')), (connect_log v20 k (sdc_rca (c_sdc x'))). split; [lia|]. split; [done|].
    split_and!; try done. lia.
Qed.

(** ** The other operations *)

Section Operations.
Context `{Config} {C : Type} `{SdcLld C} (idle : tid) (J : kdata_t -> Prop) (t : tid) (ml : list mid).
Implicit Types (x : sdcw C).
Hypothesis not_idle : t <> idle.
Hypothesis frequency : 0 < MS2ST 1 < 2^32.
Abbreviation csafe := (osafe (cgrd idle J) (crely idle J t)).













End Operations.



(** ** An example

    A card of version 2 that is ready at once; the type of its state is the
    number of blocks read from it. *)
#[local] Instance demo_card : SdcLld Z := {|
  sdc_lld_init := fun c => c; sdc_lld_start := fun c => c; sdc_lld_stop := fun c => c;
  sdc_lld_start_clk := fun c => c; sdc_lld_set_data_clk := fun c => c; sdc_lld_stop_clk := fun c => c;
  sdc_lld_set_bus_4bit := fun c => c; sdc_lld_send_cmd_none := fun _ _ c => c;
  sdc_lld_send_cmd_short := fun _ _ _ y => ((false, 0xC0000000), y);
  sdc_lld_send_cmd_short_crc := fun cmd _ _ y => ((false, if cmd =? 8 then 0x1AA else 0x800), y);
  sdc_lld_send_cmd_long_crc := fun _ _ _ y => ((false, [0; 0x3B370000; 0; 0x40000000]), y);
  sdc_lld_read := fun _ _ n y => ((false, []), (y.1 + n, y.2));
  sdc_lld_write := fun _ _ _ _ y => (false, y);
  sdc_lld_sync := fun y => (false, y)
|}.

Definition sdc_demo (st : blkstate_t) (capacity : Z) : sdcw Z :=
  mkC (sc_state demo_ioq) (mkSDC st [] [] capacity None 0 0 0) 0 [].

Definition demo_J : kdata_t -> Prop := fun _ => True.

Lemma sdc_demo_Ust : @Ust app_config 0 demo_J 1 [] (sc_state demo_ioq).
Proof. apply sc_Ust; try done; (apply (bool_decide_unpack _); by vm_compute). Qed.

Definition result (o : outcome (sdcw Z) bool) : option (bool * Z) :=
  match o with Done f x => Some (f, sdc_capacity (c_sdc x)) | _ => None end.

(** The connection: the card is ready after one round, and has 15523840 blocks. *)
Lemma sdc_connect_witness :
  exists x', @sdcConnect app_config Z demo_card (sdc_demo BLK_ACTIVE 0) = Done false x' /\
    sdc_state (c_sdc x') = BLK_READY /\ sdc_capacity (c_sdc x') = 15523840 /\
    exists v20 k, c_log x' = connect_log v20 k (sdc_rca (c_sdc x')).
Proof.
  pose proof (@sdc_connect app_config Z demo_card 0 demo_J 1 [] (sdc_demo BLK_ACTIVE 0)) as Hc.
  assert (result (@sdcConnect app_config Z demo_card (sdc_demo BLK_ACTIVE 0)) = Some (false, 15523840)) as Er by (by vm_compute).
  destruct (@sdcConnect app_config Z demo_card (sdc_demo BLK_ACTIVE 0)) as [f x'| |] eqn:E; try discriminate Er.
  injection Er as -> Ecap. exists x'. split; [reflexivity|].
  destruct Hc as (_ & v20 & k & rca & l & _ & Hl & Hst & _ & -> & _).
  - intros arg old st _. split; [done|]. split; [|by vm_compute].
    repeat (constructor; [by split|]). constructor.
  - done.
  - split; reflexivity.
  - exact sdc_demo_Ust.
  - done.
  - split; [exact Hst|]. split; [exact Ecap|]. by exists v20, k.
Defined.


(** The test for the end of the card is off by one: the block after the last is
    read.  And the sum can wrap: so is a range far past the end. *)
Theorem sdc_reads_past_end :
  (exists x', @sdcRead app_config Z demo_card 10 1 (sdc_demo BLK_READY 10) = Done (false, []) x' /\ c_card x' = 1) /\
  (exists x', @sdcRead app_config Z demo_card (2^32 - 1) 3 (sdc_demo BLK_READY 10) = Done (false, []) x' /\ c_card x' = 3).
Proof. split; eexists; by split. Qed.

(** A CSD record of version 1 with blocks of less than 512 bytes is a shift by a
    negative number. *)
Theorem sdc_small_blocks s : @mmcsdGetCapacity app_config [0; 0; 0; 0] s = Stuck (Fault "shift").
Proof. reflexivity. Qed.

(** An erase succeeds although the card reports an error when it is asked
    whether it has finished. *)
#[local] Instance failing_card : SdcLld Z := {|
  sdc_lld_init := fun c => c; sdc_lld_start := fun c => c; sdc_lld_stop := fun c => c;
  sdc_lld_start_clk := fun c => c; sdc_lld_set_data_clk := fun c => c; sdc_lld_stop_clk := fun c => c;
  sdc_lld_set_bus_4bit := fun c => c; sdc_lld_send_cmd_none := fun _ _ c => c;
  sdc_lld_send_cmd_short := fun _ _ _ y => ((true, 0), y);
  sdc_lld_send_cmd_short_crc := fun cmd _ _ y => ((cmd =? MMCSD_CMD_SEND_STATUS, 0), y);
  sdc_lld_send_cmd_long_crc := fun _ _ _ y => ((true, []), y);
  sdc_lld_read := fun _ _ n y => ((true, []), y);
  sdc_lld_write := fun _ _ _ _ y => (true, y);
  sdc_lld_sync := fun y => (true, y)
|}.

Theorem sdc_erase_unchecked :
  result (@sdcErase app_config Z failing_card 0 2 3 (sdc_demo BLK_READY 10)) = Some (CH_SUCCESS, 10).
Proof. by vm_compute. Qed.
