(* ===== verification/Crc7.v ===== *)
(** * CRC of command frames ([hal/src/mmc_spi.c], [crc7()])

    The checksum of a command is the remainder of its bits by the polynomial
    x^7 + x^3 + 1 over two elements, which the driver takes byte by byte from a
    table.  A polynomial is the number whose bits are its coefficients; sum is
    [Z.lxor] and multiplication by x^n is [Z.shiftl]. *)
From S2P Require Import Prelude.

Definition crc7_lookup_table : list Z :=
  [0x00; 0x09; 0x12; 0x1b; 0x24; 0x2d; 0x36; 0x3f; 0x48; 0x41; 0x5a; 0x53; 0x6c; 0x65; 0x7e; 0x77;
   0x19; 0x10; 0x0b; 0x02; 0x3d; 0x34; 0x2f; 0x26; 0x51; 0x58; 0x43; 0x4a; 0x75; 0x7c; 0x67; 0x6e;
   0x32; 0x3b; 0x20; 0x29; 0x16; 0x1f; 0x04; 0x0d; 0x7a; 0x73; 0x68; 0x61; 0x5e; 0x57; 0x4c; 0x45;
   0x2b; 0x22; 0x39; 0x30; 0x0f; 0x06; 0x1d; 0x14; 0x63; 0x6a; 0x71; 0x78; 0x47; 0x4e; 0x55; 0x5c;
   0x64; 0x6d; 0x76; 0x7f; 0x40; 0x49; 0x52; 0x5b; 0x2c; 0x25; 0x3e; 0x37; 0x08; 0x01; 0x1a; 0x13;
   0x7d; 0x74; 0x6f; 0x66; 0x59; 0x50; 0x4b; 0x42; 0x35; 0x3c; 0x27; 0x2e; 0x11; 0x18; 0x03; 0x0a;
   0x56; 0x5f; 0x44; 0x4d; 0x72; 0x7b; 0x60; 0x69; 0x1e; 0x17; 0x0c; 0x05; 0x3a; 0x33; 0x28; 0x21;
   0x4f; 0x46; 0x5d; 0x54; 0x6b; 0x62; 0x79; 0x70; 0x07; 0x0e; 0x15; 0x1c; 0x23; 0x2a; 0x31; 0x38;
   0x41; 0x48; 0x53; 0x5a; 0x65; 0x6c; 0x77; 0x7e; 0x09; 0x00; 0x1b; 0x12; 0x2d; 0x24; 0x3f; 0x36;
   0x58; 0x51; 0x4a; 0x43; 0x7c; 0x75; 0x6e; 0x67; 0x10; 0x19; 0x02; 0x0b; 0x34; 0x3d; 0x26; 0x2f;
   0x73; 0x7a; 0x61; 0x68; 0x57; 0x5e; 0x45; 0x4c; 0x3b; 0x32; 0x29; 0x20; 0x1f; 0x16; 0x0d; 0x04;
   0x6a; 0x63; 0x78; 0x71; 0x4e; 0x47; 0x5c; 0x55; 0x22; 0x2b; 0x30; 0x39; 0x06; 0x0f; 0x14; 0x1d;
   0x25; 0x2c; 0x37; 0x3e; 0x01; 0x08; 0x13; 0x1a; 0x6d; 0x64; 0x7f; 0x76; 0x49; 0x40; 0x5b; 0x52;
   0x3c; 0x35; 0x2e; 0x27; 0x18; 0x11; 0x0a; 0x03; 0x74; 0x7d; 0x66; 0x6f; 0x50; 0x59; 0x42; 0x4b;
   0x17; 0x1e; 0x05; 0x0c; 0x33; 0x3a; 0x21; 0x28; 0x5f; 0x56; 0x4d; 0x44; 0x7b; 0x72; 0x69; 0x60;
   0x0e; 0x07; 0x1c; 0x15; 0x2a; 0x23; 0x38; 0x31; 0x46; 0x4f; 0x54; 0x5d; 0x62; 0x6b; 0x70; 0x79].

(** [None] when the index is outside the table. *)
Definition crc7_step (crc byte : Z) : option Z := crc7_lookup_table !! Z.to_nat (Z.lxor (Z.shiftl crc 1) byte).

Fixpoint crc7 (crc : Z) (buffer : list Z) : option Z :=
  match buffer with
  | [] => Some crc
  | b :: buffer => crc ← crc7_step crc b; crc7 crc buffer
  end.

(** ** Remainders *)

(** The product by x^7 + x^3 + 1. *)
Definition times_G (q : Z) : Z := Z.lxor (Z.shiftl q 7) (Z.lxor (Z.shiftl q 3) q).
(** Equal up to a multiple. *)
Definition congruent (a b : Z) : Prop := exists q, 0 <= q /\ Z.lxor a b = times_G q.
Definition is_remainder (r a : Z) : Prop := 0 <= r < 128 /\ congruent a r.

(** The bytes of a message, the first one with the highest powers. *)
Definition message (bs : list Z) : Z := fold_left (fun m b => Z.lxor (Z.shiftl m 8) b) bs 0.

Lemma times_G_lxor a b : times_G (Z.lxor a b) = Z.lxor (times_G a) (times_G b).
Proof. unfold times_G. rewrite !Z.shiftl_lxor. apply Z.bits_inj'. intros n _. rewrite !Z.lxor_spec. by repeat destruct (Z.testbit _ n). Qed.

Lemma times_G_shiftl a n : 0 <= n -> times_G (Z.shiftl a n) = Z.shiftl (times_G a) n.
Proof. intros Hn. unfold times_G. rewrite !Z.shiftl_lxor, !Z.shiftl_shiftl by lia. by rewrite (Z.add_comm n 7), (Z.add_comm n 3). Qed.

Lemma congruent_refl a : congruent a a.
Proof. exists 0. split; [lia|]. apply Z.lxor_nilpotent. Qed.

Lemma congruent_trans a b c : congruent a b -> congruent b c -> congruent a c.
Proof.
  intros (q1 & H1 & E1) (q2 & H2 & E2). exists (Z.lxor q1 q2). split; [by apply Z.lxor_nonneg|].
  rewrite times_G_lxor, <-E1, <-E2. apply Z.bits_inj'. intros n _. rewrite !Z.lxor_spec. by repeat destruct (Z.testbit _ n).
Qed.

Lemma congruent_lxor a b c : congruent a b -> congruent (Z.lxor a c) (Z.lxor b c).
Proof.
  intros (q & Hq & E). exists q. split; [done|]. rewrite <-E.
  apply Z.bits_inj'. intros n _. rewrite !Z.lxor_spec. by repeat destruct (Z.testbit _ n).
Qed.

Lemma congruent_shiftl a b n : 0 <= n -> congruent a b -> congruent (Z.shiftl a n) (Z.shiftl b n).
Proof.
  intros Hn (q & Hq & E). exists (Z.shiftl q n). split; [by apply Z.shiftl_nonneg|].
  by rewrite times_G_shiftl, <-E, Z.shiftl_lxor by done.
Qed.

(** A multiple of the polynomial that is not zero has degree seven or more. *)
Lemma times_G_large q : 0 < q -> 128 <= times_G q.
Proof.
  intros Hq. assert (Z.testbit (times_G q) (Z.log2 q + 7) = true) as Hb.
  { pose proof (Z.log2_nonneg q). unfold times_G. rewrite !Z.lxor_spec, !Z.shiftl_spec by lia.
    replace (Z.log2 q + 7 - 7) with (Z.log2 q) by lia. rewrite (Z.bit_log2 q Hq).
    rewrite !(Z.bits_above_log2 q) by lia. done. }
  assert (0 <= times_G q) as Hn.
  { unfold times_G. apply Z.lxor_nonneg. rewrite Z.shiftl_nonneg, Z.lxor_nonneg, Z.shiftl_nonneg. lia. }
  destruct (Z_lt_dec (times_G q) 128) as [Hlt|]; [|lia].
  rewrite (Z.bits_above_log2 (times_G q)) in Hb; [done|done|].
  pose proof (Z.log2_nonneg q). pose proof (Z.log2_le_mono (times_G q) 127). change (Z.log2 127) with 6 in *. lia.
Qed.

Lemma remainder_unique a r1 r2 : is_remainder r1 a -> is_remainder r2 a -> r1 = r2.
Proof.
  intros [H1 (q1 & Hq1 & E1)] [H2 (q2 & Hq2 & E2)]. apply Z.lxor_eq.
  assert (Z.lxor r1 r2 = times_G (Z.lxor q1 q2)) as E.
  { rewrite times_G_lxor, <-E1, <-E2. apply Z.bits_inj'. intros n _. rewrite !Z.lxor_spec. by repeat destruct (Z.testbit _ n). }
  assert (0 <= Z.lxor r1 r2 < 128) as Hr.
  { split; [apply Z.lxor_nonneg; lia|]. destruct (Z.eq_dec (Z.lxor r1 r2) 0); [lia|]. apply (Z.log2_lt_cancel _ 128).
    pose proof (Z.log2_lxor r1 r2). pose proof (Z.log2_le_mono r1 127). pose proof (Z.log2_le_mono r2 127).
    change (Z.log2 128) with 7. change (Z.log2 127) with 6 in *. lia. }
  assert (0 <= Z.lxor q1 q2) by (by apply Z.lxor_nonneg).
  destruct (Z.eq_dec (Z.lxor q1 q2) 0) as [E0|]; [by rewrite E, E0|].
  pose proof (times_G_large (Z.lxor q1 q2)). lia.
Qed.

(** The remainder by long division, one coefficient after the other from the
    highest: of a polynomial of degree below [n + 7]. *)
Fixpoint divide (n : nat) (a : Z) : Z :=
  match n with
  | O => a
  | S n => divide n (if Z.testbit a (Z.of_nat n + 7) then Z.lxor a (times_G (Z.shiftl 1 (Z.of_nat n))) else a)
  end.

Lemma below_pow2 a k : 0 <= k -> 0 <= a -> (forall j, k <= j -> Z.testbit a j = false) -> a < 2^k.
Proof.
  intros Hk Ha Hb. destruct (Z_lt_dec a (2^k)) as [|Hge]; [done|]. assert (0 < 2^k) by (apply Z.pow_pos_nonneg; lia).
  assert (Z.testbit a (Z.log2 a) = true) as E by (apply Z.bit_log2; lia).
  rewrite Hb in E; [done|]. rewrite <-(Z.log2_pow2 k) by done. apply Z.log2_le_mono. lia.
Qed.

Lemma divide_ok n : forall a, 0 <= a < 2^(Z.of_nat n + 7) -> is_remainder (divide n a) a.
Proof.
  induction n as [|n IH]; intros a Ha; cbn [divide]; [split; [done|apply congruent_refl]|].
  set (k := Z.of_nat n) in *. replace (Z.of_nat (S n) + 7) with (k + 8) in Ha by lia.
  destruct (Z.testbit a (k + 7)) eqn:Eb.
  - set (g := times_G (Z.shiftl 1 k)). assert (forall j, k + 8 <= j -> Z.testbit g j = false) as Hg.
    { intros j Hj. unfold g, times_G. rewrite !Z.lxor_spec, !Z.shiftl_spec by lia.
      rewrite !(testbit_above 1 1) by lia. done. }
    assert (Z.testbit g (k + 7) = true) as Hg7.
    { unfold g, times_G. rewrite !Z.lxor_spec, !Z.shiftl_spec by lia. replace (k + 7 - 7 - k) with 0 by lia.
      by replace (k + 7 - 3 - k) with 4 by lia; replace (k + 7 - k) with 7 by lia. }
    assert (0 <= g) as Hg0 by (unfold g, times_G; rewrite !Z.lxor_nonneg, !Z.shiftl_nonneg; lia).
    destruct (IH (Z.lxor a g)) as [Hr Hc].
    { assert (0 <= Z.lxor a g) by (apply Z.lxor_nonneg; lia). split; [done|]. apply below_pow2; [lia|done|].
      intros j Hj. rewrite Z.lxor_spec. destruct (Z.eq_dec j (k + 7)) as [->|]; [by rewrite Eb, Hg7|].
      by rewrite Hg, (testbit_above a (k + 8)) by lia. }
    split; [done|]. eapply congruent_trans; [|exact Hc]. exists (Z.shiftl 1 k). split; [apply Z.shiftl_nonneg; lia|].
    fold g. apply Z.bits_inj'. intros j _. rewrite !Z.lxor_spec. by repeat destruct (Z.testbit _ j).
  - apply IH. split; [lia|]. apply below_pow2; [lia|lia|]. intros j Hj.
    destruct (Z.eq_dec j (k + 7)) as [->|]; [done|]. apply (testbit_above a (k + 8)); lia.
Qed.

(** ** The table *)

(** The quotient of a byte times x^7, by the schoolbook division. *)
Definition quotient (b : Z) : Z :=
  (fold_left (fun qr i => if Z.testbit (snd qr) (i + 7) then (Z.setbit (fst qr) i, Z.lxor (snd qr) (times_G (Z.shiftl 1 i))) else qr)
    (reverse (seqZ 0 8)) (0, Z.shiftl b 7)).1.

Definition entry_ok (i : Z) : bool :=
  match crc7_lookup_table !! Z.to_nat i with
  | Some r => (0 <=? r) && (r <? 128) && (0 <=? quotient i) && (Z.lxor (Z.shiftl i 7) r =? times_G (quotient i))
  | None => false
  end.

Lemma table_ok i : 0 <= i < 256 -> exists r, crc7_lookup_table !! Z.to_nat i = Some r /\ is_remainder r (Z.shiftl i 7).
Proof.
  intros Hi. assert (forallb entry_ok (seqZ 0 256) = true) as Hall by (by vm_compute).
  rewrite forallb_forall in Hall. specialize (Hall i). unfold entry_ok in Hall.
  destruct (crc7_lookup_table !! Z.to_nat i) as [r|]; [|discriminate Hall; apply list_elem_of_In, elem_of_seqZ; lia].
  exists r. rewrite !andb_true_iff, !Z.leb_le, Z.ltb_lt, Z.eqb_eq in Hall.
  destruct Hall as [[[H1 H2] H3] H4]; [apply list_elem_of_In, elem_of_seqZ; lia|].
  split; [done|]. split; [done|]. by exists (quotient i).
Qed.

Lemma crc7_ok bs : Forall (fun b => 0 <= b < 256) bs -> forall crc m, is_remainder crc (Z.shiftl m 7) ->
  exists r, crc7 crc bs = Some r /\ is_remainder r (Z.shiftl (fold_left (fun m b => Z.lxor (Z.shiftl m 8) b) bs m) 7).
Proof.
  induction 1 as [|b bs Hb _ IH]; intros crc m [Hc Hm]; simpl; [by exists crc|].
  assert (0 <= Z.lxor (Z.shiftl crc 1) b < 256) as Hi.
  { rewrite Z.shiftl_mul_pow2 by lia. split; [apply Z.lxor_nonneg; lia|].
    destruct (Z.eq_dec (Z.lxor (crc * 2 ^ 1) b) 0) as [->|]; [lia|]. apply Z.log2_lt_cancel.
    pose proof (Z.log2_lxor (crc * 2 ^ 1) b ltac:(lia) ltac:(lia)).
    pose proof (Z.log2_le_mono (crc * 2 ^ 1) 255 ltac:(lia)). pose proof (Z.log2_le_mono b 255 ltac:(lia)).
    change (Z.log2 256) with 8. change (Z.log2 255) with 7 in *. lia. }
  unfold crc7_step. destruct (table_ok _ Hi) as (r & -> & Hr & Hrc). simpl. apply IH. split; [done|].
  eapply congruent_trans; [|exact Hrc].
  rewrite !Z.shiftl_lxor, !Z.shiftl_shiftl by lia. apply congruent_lxor.
  replace (Z.shiftl m (8 + 7)) with (Z.shiftl (Z.shiftl m 7) 8) by (by rewrite Z.shiftl_shiftl by lia).
  by apply (congruent_shiftl _ crc 8).
Qed.

Lemma message_range bs : Forall (fun b => 0 <= b < 256) bs -> 0 <= message bs < 2^(8 * Z.of_nat (length bs)).
Proof.
  unfold message. induction bs as [|b bs IH] using rev_ind; intros HF; [cbn; lia|].
  apply Forall_app in HF as [HF Hb]. apply Forall_inv in Hb. rewrite fold_left_app, length_app. cbn [fold_left length].
  specialize (IH HF). set (m := fold_left _ bs 0) in *. replace (8 * Z.of_nat (length bs + 1)) with (8 * Z.of_nat (length bs) + 8) by lia.
  assert (0 <= Z.lxor (Z.shiftl m 8) b) by (apply Z.lxor_nonneg; rewrite Z.shiftl_nonneg; lia). split; [done|].
  apply below_pow2; [lia|done|]. intros j Hj. rewrite Z.lxor_spec, Z.shiftl_spec by lia.
  rewrite (testbit_above b 8), (testbit_above m (8 * Z.of_nat (length bs))) by (cbn; lia). done.
Qed.

(** C17: [crc7()] from zero never looks outside its table, and what it returns for
    a sequence of bytes is the remainder, the only one, of the division of the
    message times x^7 by x^7 + x^3 + 1: the checksum of the standard. *)
Theorem crc7_remainder bs :
  Forall (fun b => 0 <= b < 256) bs ->
  exists r, crc7 0 bs = Some r /\ forall r', is_remainder r' (Z.shiftl (message bs) 7) <-> r' = r.
Proof.
  intros Hb. destruct (crc7_ok bs Hb 0 0) as (r & E & Hr); [split; [lia|apply congruent_refl]|].
  exists r. split; [done|]. intros r'. split; [|by intros ->]. intros Hr'. by apply (remainder_unique _ _ _ Hr' Hr).
Qed.

(** CMD0 and CMD8, as in the examples of the standard. *)
Lemma crc7_remainder_witness :
  crc7 0 [0x40; 0; 0; 0; 0] = Some 0x4A /\ is_remainder 0x4A (Z.shiftl (message [0x40; 0; 0; 0; 0]) 7) /\
  crc7 0 [0x48; 0; 0; 0x01; 0xAA] = Some 0x43.
Proof.
  split; [reflexivity|]. split; [|reflexivity].
  destruct (crc7_remainder [0x40; 0; 0; 0; 0]) as (r & E & Hr); [repeat constructor; lia|].
  apply Hr. assert (crc7 0 [0x40; 0; 0; 0; 0] = Some 0x4A) as E' by reflexivity. rewrite E' in E. by injection E.
Defined.
