(* ===== verification/Dma.v ===== *)
(** * DMA streams ([hal/platforms/STM32F4xx/stm32_dma.c], [stm32_dma.h])

    The sixteen streams of the two DMA controllers: their allocation, with the
    clocks of the controllers and the interrupt vectors, and the registers of a
    stream.  A stream is designated by its index in [_stm32_dma_streams].  The
    interrupt handlers call the function a stream was allocated with, which is
    in the world of the driver that allocated it: see [Spi.dma_irq]. *)
From S2P Require Import Prelude Monad Types.

(** ** Constants *)

Definition STM32_DMA_STREAMS : nat := 16.
Definition STM32_DMA_ISR_MASK : Z := 0x3D.
Definition STM32_DMA1_STREAMS_MASK : Z := 0x000000FF.
Definition STM32_DMA2_STREAMS_MASK : Z := 0x0000FF00.
Definition STM32_DMA_CR_RESET_VALUE : Z := 0.
Definition STM32_DMA_FCR_RESET_VALUE : Z := 0x21.

Definition STM32_DMA_CR_EN : Z := 0x1.
Definition STM32_DMA_CR_DMEIE : Z := 0x2.
Definition STM32_DMA_CR_TEIE : Z := 0x4.
Definition STM32_DMA_CR_HTIE : Z := 0x8.
Definition STM32_DMA_CR_TCIE : Z := 0x10.
Definition STM32_DMA_CR_DIR_P2M : Z := 0.
Definition STM32_DMA_CR_DIR_M2P : Z := 0x40.
Definition STM32_DMA_CR_MINC : Z := 0x400.
Definition STM32_DMA_CR_PSIZE_BYTE : Z := 0.
Definition STM32_DMA_CR_PSIZE_HWORD : Z := 0x800.
Definition STM32_DMA_CR_MSIZE_BYTE : Z := 0.
Definition STM32_DMA_CR_MSIZE_HWORD : Z := 0x2000.
Definition STM32_DMA_CR_SIZE_MASK : Z := 0x7800.
Definition STM32_DMA_CR_PL (n : Z) : Z := Z.shiftl n 16.
Definition STM32_DMA_CR_CHSEL (n : Z) : Z := Z.shiftl n 25.
Definition STM32_DMA_ISR_DMEIF : Z := 0x4.
Definition STM32_DMA_ISR_TEIF : Z := 0x8.

Definition STM32_DMA_STREAM_ID (dma stream : Z) : Z := (dma - 1) * 8 + stream.
Definition STM32_DMA_GETCHANNEL (id c : Z) : Z := Z.land (Z.shiftr c (Z.land id 7 * 4)) 7.

Definition RCC_AHB1ENR_DMA1EN : Z := 0x00200000.
Definition RCC_AHB1ENR_DMA2EN : Z := 0x00400000.

(** ** State *)

(** The registers of a stream. *)
Record DMA_Stream := mkStream { CR : Z; NDTR : Z; PAR : Z; M0AR : Z; FCR : Z }.
Definition set_CR (v : Z) (r : DMA_Stream) : DMA_Stream := mkStream v (NDTR r) (PAR r) (M0AR r) (FCR r).
Definition set_NDTR (v : Z) (r : DMA_Stream) : DMA_Stream := mkStream (CR r) v (PAR r) (M0AR r) (FCR r).
Definition set_PAR (v : Z) (r : DMA_Stream) : DMA_Stream := mkStream (CR r) (NDTR r) v (M0AR r) (FCR r).
Definition set_M0AR (v : Z) (r : DMA_Stream) : DMA_Stream := mkStream (CR r) (NDTR r) (PAR r) v (FCR r).
Definition set_FCR (v : Z) (r : DMA_Stream) : DMA_Stream := mkStream (CR r) (NDTR r) (PAR r) (M0AR r) v.

(** The functions a stream is allocated with; the other drivers are not
    modelled, and their functions are numbers. *)
Inductive stm32_dmaisr_t :=
  | spi_lld_serve_rx
  | spi_lld_serve_tx
  | other_isr (fn : Z).

(** [d_isr] holds LISR and HISR of both controllers, four streams each;
    [d_ahb1] is the clock register, [d_vec] the enabled vectors with their
    priority. *)
Record dmast := mkDma {
  dma_streams_mask : Z;
  dma_isr_redir : Z -> option (stm32_dmaisr_t * Z);
  d_stream : Z -> DMA_Stream;
  d_isr : Z -> Z;
  d_ahb1 : Z;
  d_vec : Z -> option Z
}.
Definition set_mask (v : Z) (d : dmast) : dmast :=
  mkDma v (dma_isr_redir d) (d_stream d) (d_isr d) (d_ahb1 d) (d_vec d).
Definition set_redir (v : Z -> option (stm32_dmaisr_t * Z)) (d : dmast) : dmast :=
  mkDma (dma_streams_mask d) v (d_stream d) (d_isr d) (d_ahb1 d) (d_vec d).
Definition set_stream (v : Z -> DMA_Stream) (d : dmast) : dmast :=
  mkDma (dma_streams_mask d) (dma_isr_redir d) v (d_isr d) (d_ahb1 d) (d_vec d).
Definition set_isr (v : Z -> Z) (d : dmast) : dmast :=
  mkDma (dma_streams_mask d) (dma_isr_redir d) (d_stream d) v (d_ahb1 d) (d_vec d).
Definition set_ahb1 (v : Z) (d : dmast) : dmast :=
  mkDma (dma_streams_mask d) (dma_isr_redir d) (d_stream d) (d_isr d) v (d_vec d).
Definition set_vec (v : Z -> option Z) (d : dmast) : dmast :=
  mkDma (dma_streams_mask d) (dma_isr_redir d) (d_stream d) (d_isr d) (d_ahb1 d) v.

Definition upd_stream (i : Z) (f : DMA_Stream -> DMA_Stream) (d : dmast) : dmast :=
  set_stream (<[i := f (d_stream d i)]> (d_stream d)) d.

(** The position of the flags of a stream, and the register they are in. *)
Definition ishift (i : Z) : Z := nth (Z.to_nat (i mod 4)) [0; 6; 16; 22] 0.
Definition isr_reg (i : Z) : Z := i / 4.

(** ** Operations on a stream *)

Definition dmaStreamSetPeripheral (i addr : Z) : dmast -> dmast := upd_stream i (set_PAR addr).
Definition dmaStreamSetMemory0 (i addr : Z) : dmast -> dmast := upd_stream i (set_M0AR addr).
Definition dmaStreamSetTransactionSize (i size : Z) : dmast -> dmast := upd_stream i (set_NDTR size).
Definition dmaStreamSetMode (i mode : Z) : dmast -> dmast := upd_stream i (set_CR mode).
Definition dmaStreamGetTransactionSize (i : Z) (d : dmast) : Z := NDTR (d_stream d i).
Definition dmaStreamSetFIFO (i mode : Z) : dmast -> dmast := upd_stream i (set_FCR mode).
Definition dmaStreamEnable (i : Z) : dmast -> dmast :=
  upd_stream i (fun r => set_CR (Z.lor (CR r) STM32_DMA_CR_EN) r).

(** A flag is cleared by writing one to its bit of xIFCR. *)
Definition dmaStreamClearInterrupt (i : Z) (d : dmast) : dmast :=
  set_isr (<[isr_reg i := Z.ldiff (d_isr d (isr_reg i)) (Z.shiftl STM32_DMA_ISR_MASK (ishift i))]> (d_isr d)) d.

(** The flags of the stream, moved to bit zero. *)
Definition stream_flags (i : Z) (d : dmast) : Z :=
  Z.land (Z.shiftr (d_isr d (isr_reg i)) (ishift i)) STM32_DMA_ISR_MASK.

(** The wait for the enable bit ends: the stream clears it after it was
    written zero. *)
Definition dmaStreamDisable (i : Z) (d : dmast) : dmast :=
  dmaStreamClearInterrupt i
    (upd_stream i (fun r => set_CR (Z.ldiff (CR r)
       (Z.lor STM32_DMA_CR_TCIE (Z.lor STM32_DMA_CR_HTIE (Z.lor STM32_DMA_CR_TEIE
         (Z.lor STM32_DMA_CR_DMEIE STM32_DMA_CR_EN))))) r) d).

(** ** Allocation *)

Definition taken (i : Z) (d : dmast) : bool := negb (Z.land (dma_streams_mask d) (Z.shiftl 1 i) =? 0).

(** The loop of [dmaInit()] over the streams. *)
Definition reset_streams (l : list Z) (d : dmast) : dmast :=
  fold_left (fun d i => set_redir (<[i := None]> (dma_isr_redir d)) (upd_stream i (set_CR 0) d)) l d.
Definition dmaInit (d : dmast) : dmast :=
  let d := set_mask 0 d in
  let d := reset_streams (seqZ 0 (Z.of_nat STM32_DMA_STREAMS)) d in
  set_isr (fun r => Z.ldiff (d_isr d r) 0xFFFFFFFF) d.

(** The clocks that the streams in use need. *)
Definition enable_clocks (d : dmast) : dmast :=
  let d := if negb (Z.land (dma_streams_mask d) STM32_DMA1_STREAMS_MASK =? 0)
           then set_ahb1 (Z.lor (d_ahb1 d) RCC_AHB1ENR_DMA1EN) d else d in
  if negb (Z.land (dma_streams_mask d) STM32_DMA2_STREAMS_MASK =? 0)
  then set_ahb1 (Z.lor (d_ahb1 d) RCC_AHB1ENR_DMA2EN) d else d.

(** The clocks that no stream in use needs. *)
Definition disable_clocks (d : dmast) : dmast :=
  let d := if Z.land (dma_streams_mask d) STM32_DMA1_STREAMS_MASK =? 0
           then set_ahb1 (Z.ldiff (d_ahb1 d) RCC_AHB1ENR_DMA1EN) d else d in
  if Z.land (dma_streams_mask d) STM32_DMA2_STREAMS_MASK =? 0
  then set_ahb1 (Z.ldiff (d_ahb1 d) RCC_AHB1ENR_DMA2EN) d else d.

(** [true] when the stream is already taken. *)
Definition dmaStreamAllocate (i priority : Z) (func : option stm32_dmaisr_t) (param : Z) (d : dmast) : bool * dmast :=
  if taken i d then (true, d)
  else
    let d := set_redir (<[i := (fun f => (f, param)) <$> func]> (dma_isr_redir d)) d in
    let d := set_mask (Z.lor (dma_streams_mask d) (Z.shiftl 1 i)) d in
    let d := enable_clocks d in
    let d := dmaStreamDisable i d in
    let d := upd_stream i (fun r => set_FCR STM32_DMA_FCR_RESET_VALUE (set_CR STM32_DMA_CR_RESET_VALUE r)) d in
    let d := match func with
             | Some _ => set_vec (<[i := Some priority]> (d_vec d)) d
             | None => d
             end in
    (false, d).

Section Defs.
Context `{Config}.

Definition dma_assert (c : bool) (msg : string) : M dmast unit :=
  if CH_DBG_ENABLE_ASSERTS && negb c then panic msg else mret' tt.

Definition dmaStreamRelease (i : Z) : M dmast unit :=
  let! t := gets (taken i) in
  dma_assert t "dmaStreamRelease(), #1" ;;;
  modify (fun d =>
    let d := set_vec (<[i := None]> (d_vec d)) d in
    let d := set_mask (Z.ldiff (dma_streams_mask d) (Z.shiftl 1 i)) d in
    disable_clocks d).
End Defs.

(** ** Allocation in use

    The mask is the set of the streams in use; a clock is on exactly when a
    stream of its controller is in use, and a vector is enabled only for a
    stream in use. *)

Definition in_use (d : dmast) (i : Z) : Prop := Z.testbit (dma_streams_mask d) i = true.

Lemma land_ones_range (m : Z) (a b : Z) :
  0 <= a -> 0 <= b ->
  (Z.land m (Z.shiftl (Z.ones b) a) = 0 <-> forall i, a <= i < a + b -> Z.testbit m i = false).
Proof.
  intros Ha Hb. split.
  - intros E i Hi. assert (Z.testbit (Z.land m (Z.shiftl (Z.ones b) a)) i = false) as Hf by (rewrite E; apply Z.testbit_0_l).
    rewrite Z.land_spec, Z.shiftl_spec, Z.testbit_ones_nonneg in Hf by lia.
    rewrite (proj2 (Z.ltb_lt _ _)), andb_true_r in Hf by lia. done.
  - intros Hm. apply Z.bits_inj_0. intros i. rewrite Z.land_spec.
    destruct (Z_lt_dec i 0); [by rewrite Z.testbit_neg_r by lia|]. rewrite Z.shiftl_spec by lia.
    destruct (Z_lt_dec i a); [by rewrite (Z.testbit_neg_r _ (i - a)), andb_false_r by lia|].
    rewrite Z.testbit_ones_nonneg by lia. destruct (Z.ltb_spec (i - a) b); [|by rewrite andb_false_r].
    by rewrite Hm by lia.
Qed.

Lemma taken_spec i d : 0 <= i -> taken i d = Z.testbit (dma_streams_mask d) i.
Proof.
  intros Hi. unfold taken. destruct (Z.testbit (dma_streams_mask d) i) eqn:E.
  - apply negb_true_iff, Z.eqb_neq. intros E0.
    assert (Z.testbit (Z.land (dma_streams_mask d) (Z.shiftl 1 i)) i = false) as Hf by (rewrite E0; apply Z.testbit_0_l).
    rewrite Z.land_spec, E, Z.shiftl_spec in Hf by done. by rewrite Z.sub_diag in Hf.
  - apply negb_false_iff, Z.eqb_eq, (land_ones_range _ i 1); [lia|lia|].
    intros j Hj. by replace j with i by lia.
Qed.

Definition clock_ok (d : dmast) (bit streams : Z) : Prop :=
  Z.testbit (d_ahb1 d) bit = negb (Z.land (dma_streams_mask d) streams =? 0).

Record dma_ok (d : dmast) : Prop := {
  dk_range : forall i, in_use d i -> 0 <= i < 16;
  dk_clk1 : clock_ok d 21 STM32_DMA1_STREAMS_MASK;
  dk_clk2 : clock_ok d 22 STM32_DMA2_STREAMS_MASK;
  dk_vec : forall i, d_vec d i <> None -> in_use d i
}.

Lemma testbit_bit i j : 0 <= i -> Z.testbit (Z.shiftl 1 i) j = bool_decide (i = j).
Proof.
  intros Hi. destruct (Z_lt_dec j 0).
  { rewrite Z.testbit_neg_r by done. by rewrite bool_decide_eq_false_2 by lia. }
  rewrite Z.shiftl_1_l, Z.pow2_bits_eqb by done. destruct (Z.eqb_spec i j); [by rewrite bool_decide_eq_true_2|by rewrite bool_decide_eq_false_2].
Qed.

(** The bit of a clock register that is set or cleared, and the others. *)
Definition clock_bit (b : bool) (bit ahb1 : Z) : Z := if b then Z.lor ahb1 (Z.shiftl 1 bit) else Z.ldiff ahb1 (Z.shiftl 1 bit).

Lemma clock_bit_spec b bit a j : 0 <= bit ->
  Z.testbit (clock_bit b bit a) j = if bool_decide (bit = j) then b else Z.testbit a j.
Proof.
  intros Hb. destruct b; simpl; rewrite ?Z.lor_spec, ?Z.ldiff_spec, testbit_bit by done;
    case_bool_decide; subst; by destruct (Z.testbit a _).
Qed.

Lemma clock_bit_same b bit a : 0 <= bit -> Z.testbit a bit = b -> clock_bit b bit a = a.
Proof.
  intros Hb E. apply Z.bits_inj'. intros j _. rewrite clock_bit_spec by done. case_bool_decide; congruence.
Qed.

Definition same_but_clocks (d d' : dmast) : Prop :=
  dma_streams_mask d' = dma_streams_mask d /\ dma_isr_redir d' = dma_isr_redir d /\ d_stream d' = d_stream d /\
  d_isr d' = d_isr d /\ d_vec d' = d_vec d.

(** After either of the clock functions, when the other clocks were right. *)
Lemma enable_clocks_eq d :
  (Z.testbit (d_ahb1 d) 21 = true -> Z.land (dma_streams_mask d) STM32_DMA1_STREAMS_MASK <> 0) ->
  (Z.testbit (d_ahb1 d) 22 = true -> Z.land (dma_streams_mask d) STM32_DMA2_STREAMS_MASK <> 0) ->
  let d' := enable_clocks d in
  clock_ok d' 21 STM32_DMA1_STREAMS_MASK /\ clock_ok d' 22 STM32_DMA2_STREAMS_MASK /\ same_but_clocks d d'.
Proof.
  intros H1 H2. unfold enable_clocks, clock_ok.
  change RCC_AHB1ENR_DMA1EN with (Z.shiftl 1 21). change RCC_AHB1ENR_DMA2EN with (Z.shiftl 1 22).
  destruct (Z.eqb_spec (Z.land (dma_streams_mask d) STM32_DMA1_STREAMS_MASK) 0) as [E1|E1]; cbn [negb];
  destruct (Z.eqb_spec (Z.land (dma_streams_mask d) STM32_DMA2_STREAMS_MASK) 0) as [E2|E2];
    cbn [negb set_ahb1 dma_streams_mask d_ahb1]; rewrite ?E1, ?E2; cbn [negb Z.eqb];
    rewrite ?(proj2 (Z.eqb_neq _ _) E1), ?(proj2 (Z.eqb_neq _ _) E2); (split_and!; [| |done]);
    cbn [negb set_ahb1 dma_streams_mask d_ahb1]; rewrite ?E1, ?E2;
    rewrite ?(proj2 (Z.eqb_neq _ _) E1), ?(proj2 (Z.eqb_neq _ _) E2), ?Z.lor_spec, ?testbit_bit by done; cbn [negb Z.eqb];
    rewrite ?orb_true_r, ?orb_false_r; try done; apply not_true_iff_false; tauto.
Qed.

Lemma disable_clocks_eq d :
  (Z.testbit (d_ahb1 d) 21 = false -> Z.land (dma_streams_mask d) STM32_DMA1_STREAMS_MASK = 0) ->
  (Z.testbit (d_ahb1 d) 22 = false -> Z.land (dma_streams_mask d) STM32_DMA2_STREAMS_MASK = 0) ->
  let d' := disable_clocks d in
  clock_ok d' 21 STM32_DMA1_STREAMS_MASK /\ clock_ok d' 22 STM32_DMA2_STREAMS_MASK /\ same_but_clocks d d'.
Proof.
  intros H1 H2. unfold disable_clocks, clock_ok.
  change RCC_AHB1ENR_DMA1EN with (Z.shiftl 1 21). change RCC_AHB1ENR_DMA2EN with (Z.shiftl 1 22).
  destruct (Z.eqb_spec (Z.land (dma_streams_mask d) STM32_DMA1_STREAMS_MASK) 0) as [E1|E1];
  cbn [set_ahb1 dma_streams_mask d_ahb1];
  destruct (Z.eqb_spec (Z.land (dma_streams_mask d) STM32_DMA2_STREAMS_MASK) 0) as [E2|E2];
    cbn [set_ahb1 dma_streams_mask d_ahb1]; rewrite ?E1, ?E2;
    rewrite ?(proj2 (Z.eqb_neq _ _) E1), ?(proj2 (Z.eqb_neq _ _) E2); (split_and!; [| |done]);
    cbn [negb set_ahb1 dma_streams_mask d_ahb1]; rewrite ?E1, ?E2;
    rewrite ?(proj2 (Z.eqb_neq _ _) E1), ?(proj2 (Z.eqb_neq _ _) E2), ?Z.ldiff_spec, ?testbit_bit by done; cbn [negb Z.eqb];
    rewrite ?andb_true_r, ?andb_false_r; try done; apply not_false_iff_true; tauto.
Qed.

Lemma land_lor_nonzero m i k : 0 <= i -> Z.land m k <> 0 -> Z.land (Z.lor m (Z.shiftl 1 i)) k <> 0.
Proof.
  intros Hi Hm E. apply Hm. apply Z.bits_inj_0. intros j.
  assert (Z.testbit (Z.land (Z.lor m (Z.shiftl 1 i)) k) j = false) as Hj by (rewrite E; apply Z.testbit_0_l).
  rewrite Z.land_spec, Z.lor_spec in Hj. rewrite Z.land_spec.
  by destruct (Z.testbit m j), (Z.testbit k j).
Qed.

Lemma land_ldiff_zero m i k : Z.land m k = 0 -> Z.land (Z.ldiff m (Z.shiftl 1 i)) k = 0.
Proof.
  intros E. apply Z.bits_inj_0. intros j.
  assert (Z.testbit (Z.land m k) j = false) as Hj by (rewrite E; apply Z.testbit_0_l).
  rewrite Z.land_spec in *. rewrite Z.ldiff_spec. by destruct (Z.testbit m j), (Z.testbit k j), (Z.testbit (Z.shiftl 1 i) j).
Qed.

(** No flag of a stream is pending, and those of the others are as before. *)
Lemma ishift_sep i j : i mod 4 <> j mod 4 ->
  Z.land (Z.shiftl STM32_DMA_ISR_MASK (ishift i)) (Z.shiftl STM32_DMA_ISR_MASK (ishift j)) = 0.
Proof.
  intros Hn. unfold ishift. pose proof (Z.mod_pos_bound i 4). pose proof (Z.mod_pos_bound j 4).
  assert (i mod 4 = 0 \/ i mod 4 = 1 \/ i mod 4 = 2 \/ i mod 4 = 3) as Hi by lia.
  assert (j mod 4 = 0 \/ j mod 4 = 1 \/ j mod 4 = 2 \/ j mod 4 = 3) as Hj by lia.
  destruct Hi as [Ei | [Ei | [Ei | Ei]]], Hj as [Ej | [Ej | [Ej | Ej]]]; rewrite Ei, Ej in *; try done; by vm_compute.
Qed.

Lemma ishift_nonneg i : 0 <= ishift i.
Proof. unfold ishift. destruct (Z.to_nat (i mod 4)) as [|[|[|[|[]]]]]; simpl; lia. Qed.

Lemma stream_flags_mask i d :
  stream_flags i d = Z.shiftr (Z.land (d_isr d (isr_reg i)) (Z.shiftl STM32_DMA_ISR_MASK (ishift i))) (ishift i).
Proof.
  pose proof (ishift_nonneg i). unfold stream_flags. apply Z.bits_inj'. intros j Hj.
  rewrite Z.land_spec, !Z.shiftr_spec, Z.land_spec, Z.shiftl_spec by lia. f_equal. f_equal. lia.
Qed.

Lemma clear_interrupt_spec i j d :
  stream_flags j (dmaStreamClearInterrupt i d) = if decide (i = j) then 0 else stream_flags j d.
Proof.
  rewrite !stream_flags_mask. unfold dmaStreamClearInterrupt, set_isr. cbn [d_isr]. rewrite fn_insert_dec.
  destruct (decide (isr_reg i = isr_reg j)) as [E|N].
  - rewrite E. destruct (decide (i = j)) as [->|Hne].
    + rewrite <-(Z.shiftr_0_l (ishift j)). f_equal. apply Z.bits_inj_0. intros b. rewrite Z.land_spec, Z.ldiff_spec.
      by destruct (Z.testbit (d_isr d (isr_reg j)) b), (Z.testbit (Z.shiftl _ _) b).
    + f_equal. apply Z.bits_inj'. intros b _. rewrite !Z.land_spec, Z.ldiff_spec.
      assert (i mod 4 <> j mod 4) as Hm.
      { intros Em. apply Hne. unfold isr_reg in E. rewrite (Z.div_mod i 4), (Z.div_mod j 4) by lia. lia. }
      pose proof (ishift_sep i j Hm) as Hs.
      assert (Z.testbit (Z.land (Z.shiftl STM32_DMA_ISR_MASK (ishift i)) (Z.shiftl STM32_DMA_ISR_MASK (ishift j))) b = false) as Hb
        by (rewrite Hs; apply Z.testbit_0_l).
      rewrite Z.land_spec in Hb.
      destruct (Z.testbit (d_isr d (isr_reg j)) b), (Z.testbit (Z.shiftl _ (ishift i)) b), (Z.testbit (Z.shiftl _ (ishift j)) b); done.
  - rewrite decide_False; [done|]. by intros ->.
Qed.

Lemma upd_stream_at i j f d : d_stream (upd_stream i f d) j = if decide (i = j) then f (d_stream d i) else d_stream d j.
Proof. simpl. apply fn_insert_dec. Qed.

(** What one function does to the streams it is not called for. *)
Definition other_streams (i : Z) (d d' : dmast) : Prop :=
  forall j, j <> i -> (in_use d' j <-> in_use d j) /\ d_stream d' j = d_stream d j /\
    dma_isr_redir d' j = dma_isr_redir d j /\ d_vec d' j = d_vec d j /\ stream_flags j d' = stream_flags j d.

Lemma dma_ok_clocks d : dma_ok d ->
  (Z.testbit (d_ahb1 d) 21 = true <-> Z.land (dma_streams_mask d) STM32_DMA1_STREAMS_MASK <> 0) /\
  (Z.testbit (d_ahb1 d) 22 = true <-> Z.land (dma_streams_mask d) STM32_DMA2_STREAMS_MASK <> 0).
Proof. intros [_ H1 H2 _]. rewrite H1, H2, !negb_true_iff, !Z.eqb_neq. tauto. Qed.

(** The state after a successful allocation. *)
Lemma allocate_eq i priority func param d :
  0 <= i < 16 -> dma_ok d -> ~ in_use d i ->
  exists d', dmaStreamAllocate i priority func param d = (false, d') /\ dma_ok d' /\
    dma_streams_mask d' = Z.lor (dma_streams_mask d) (Z.shiftl 1 i) /\ other_streams i d d' /\
    (CR (d_stream d' i) = 0 /\ FCR (d_stream d' i) = STM32_DMA_FCR_RESET_VALUE) /\ stream_flags i d' = 0 /\
    dma_isr_redir d' i = (fun f => (f, param)) <$> func /\
    d_vec d' i = match func with Some _ => Some priority | None => d_vec d i end.
Proof.
  intros Hi Hok Hn. pose proof (dma_ok_clocks d Hok) as [Hc1 Hc2]. destruct Hok as [Hr Hk1 Hk2 Hv].
  unfold dmaStreamAllocate. rewrite taken_spec by lia. rewrite (not_true_is_false _ Hn).
  set (d1 := set_mask _ _).
  destruct (enable_clocks_eq d1) as (C1 & C2 & E1 & E2 & E3 & E4 & E5); [intros E; apply land_lor_nonzero; [lia|]; tauto..|].
  revert C1 C2 E1 E2 E3 E4 E5. generalize (enable_clocks d1). intros d2 C1 C2 E1 E2 E3 E4 E5.
  cbn in E1, E2, E3, E4, E5.
  assert (forall j, in_use d2 j <-> (i = j \/ in_use d j)) as Hu.
  { intros j. unfold in_use. rewrite E1, Z.lor_spec, testbit_bit by lia.
    case_bool_decide as Ed; destruct (Z.testbit (dma_streams_mask d) j); simpl; intuition done. }
  assert (forall j, stream_flags j (dmaStreamDisable i d2) = if decide (i = j) then 0 else stream_flags j d) as Hfl.
  { intros j. unfold dmaStreamDisable. rewrite clear_interrupt_spec. case_decide; [done|].
    unfold stream_flags. cbn. by rewrite E4. }
  set (V := match func with Some _ => <[i := Some priority]> (d_vec d) | None => d_vec d end).
  set (d3 := upd_stream i _ (dmaStreamDisable i d2)).
  assert (match func with Some _ => set_vec (<[i := Some priority]> (d_vec d3)) d3 | None => d3 end = set_vec V d3) as ->.
  { assert (d_vec d3 = d_vec d) as E by (by rewrite <-E5). unfold V. rewrite <-E. by destruct func. }
  exists (set_vec V d3). split; [done|]. split; [split|split_and!].
  - intros j [<-|Hj]%Hu; [lia|by apply Hr].
  - exact C1.
  - exact C2.
  - intros j Hj. apply Hu. unfold V in Hj. cbn in Hj. destruct func; [|right; by apply Hv].
    rewrite fn_insert_dec in Hj. case_decide; [by left|right; by apply Hv].
  - exact E1.
  - intros j Hj. split_and!.
    + change (in_use (set_vec V d3) j) with (in_use d2 j). rewrite Hu. naive_solver.
    + cbn. rewrite !fn_insert_ne by done. by rewrite E3.
    + cbn. rewrite E2. by apply fn_insert_ne.
    + unfold V. cbn. destruct func; [by apply fn_insert_ne|done].
    + change (stream_flags j (set_vec V d3)) with (stream_flags j (dmaStreamDisable i d2)). by rewrite Hfl, decide_False by done.
  - cbn. by rewrite fn_insert_eq.
  - cbn. by rewrite fn_insert_eq.
  - change (stream_flags i (set_vec V d3)) with (stream_flags i (dmaStreamDisable i d2)). by rewrite Hfl, decide_True.
  - cbn. rewrite E2. by rewrite fn_insert_eq.
  - unfold V. cbn. destruct func; [by rewrite fn_insert_eq|done].
Qed.

Section Release.
Context `{Config}.

Lemma release_eq i d :
  0 <= i < 16 -> dma_ok d -> in_use d i \/ CH_DBG_ENABLE_ASSERTS = false ->
  exists d', dmaStreamRelease i d = Done tt d' /\ dma_ok d' /\
    dma_streams_mask d' = Z.ldiff (dma_streams_mask d) (Z.shiftl 1 i) /\ other_streams i d d' /\
    d_vec d' i = None /\ d_stream d' i = d_stream d i.
Proof.
  intros Hi Hok Hu. pose proof (dma_ok_clocks d Hok) as [Hc1 Hc2]. destruct Hok as [Hr Hk1 Hk2 Hv].
  unfold dmaStreamRelease, bind, gets. cbn [obind]. rewrite taken_spec by lia.
  assert (dma_assert (Z.testbit (dma_streams_mask d) i) "dmaStreamRelease(), #1" d = Done tt d) as ->.
  { unfold dma_assert. destruct Hu as [Hu| ->]; [rewrite Hu, andb_false_r|]; done. }
  unfold modify. cbn [obind].
  set (d1 := set_mask _ _).
  destruct (disable_clocks_eq d1) as (C1 & C2 & E1 & E2 & E3 & E4 & E5).
  1,2: intros E; apply land_ldiff_zero; apply dec_stable; intros E0;
    first [apply Hc1 in E0|apply Hc2 in E0]; change (d_ahb1 d1) with (d_ahb1 d) in E; congruence.
  revert C1 C2 E1 E2 E3 E4 E5. cbn zeta. fold d1. generalize (disable_clocks d1). intros d2 C1 C2 E1 E2 E3 E4 E5.
  cbn in E1, E2, E3, E4, E5.
  assert (forall j, in_use d2 j <-> (i <> j /\ in_use d j)) as Hu2.
  { intros j. unfold in_use. rewrite E1, Z.ldiff_spec, testbit_bit by lia.
    case_bool_decide as Ed; destruct (Z.testbit (dma_streams_mask d) j); simpl; intuition done. }
  exists d2. split; [done|]. split; [split|split_and!].
  - intros j [_ Hj]%Hu2. by apply Hr.
  - exact C1.
  - exact C2.
  - intros j. rewrite E5, fn_insert_dec, Hu2. case_decide; [done|]. intros Hj. split; [done|by apply Hv].
  - exact E1.
  - intros j Hj. split_and!; [rewrite Hu2; naive_solver|by rewrite E3|by rewrite E2|by rewrite E5, fn_insert_ne|].
    unfold stream_flags. by rewrite E4.
  - by rewrite E5, fn_insert_eq.
  - by rewrite E3.
Qed.
End Release.

(** ** Main theorem *)

Lemma reset_streams_frame l : forall d, let d' := reset_streams l d in
  dma_streams_mask d' = dma_streams_mask d /\ d_ahb1 d' = d_ahb1 d /\ d_vec d' = d_vec d.
Proof. induction l as [|i l IH]; intros d; [done|]. apply (IH (set_redir _ (upd_stream i (set_CR 0) d))). Qed.

(** At reset the clocks are off and no vector is enabled. *)
Lemma dmaInit_ok d :
  Z.testbit (d_ahb1 d) 21 = false -> Z.testbit (d_ahb1 d) 22 = false -> (forall i, d_vec d i = None) -> dma_ok (dmaInit d).
Proof.
  intros H1 H2 Hv. unfold dmaInit.
  destruct (reset_streams_frame (seqZ 0 (Z.of_nat STM32_DMA_STREAMS)) (set_mask 0 d)) as (E1 & E2 & E3).
  generalize dependent (reset_streams (seqZ 0 (Z.of_nat STM32_DMA_STREAMS)) (set_mask 0 d)). intros d' E1 E2 E3.
  cbn in E1, E2, E3.
  split; unfold in_use, clock_ok; cbn [d_ahb1 dma_streams_mask d_vec set_isr]; rewrite ?E1, ?E2, ?E3; try done.
  - intros i. by rewrite Z.testbit_0_l.
  - intros i. by rewrite Hv.
Qed.

(** C18: Allocation of DMA streams.  A stream that is taken is refused and nothing
    changes.  A free one is taken: its control and FIFO registers have their
    reset values, no flag of it is pending, its interrupt calls the function it
    was given, and the other streams are as before.  The release makes the
    stream free with its interrupt disabled and leaves the other streams alone;
    for a stream that is not in use it is a panic when assertions are enabled.
    All the while the clock of a controller is on exactly when one of its
    streams is in use, and only streams in use have their interrupt enabled. *)
Theorem dma_streams `{Config} i priority func param d :
  0 <= i < 16 -> dma_ok d ->
  (in_use d i -> dmaStreamAllocate i priority func param d = (true, d)) /\
  (~ in_use d i -> exists d', dmaStreamAllocate i priority func param d = (false, d') /\
      dma_ok d' /\ in_use d' i /\ other_streams i d d' /\
      (CR (d_stream d' i) = STM32_DMA_CR_RESET_VALUE /\ FCR (d_stream d' i) = STM32_DMA_FCR_RESET_VALUE) /\
      stream_flags i d' = 0 /\ dma_isr_redir d' i = (fun f => (f, param)) <$> func /\
      d_vec d' i = match func with Some _ => Some priority | None => d_vec d i end) /\
  (in_use d i \/ CH_DBG_ENABLE_ASSERTS = false -> exists d', dmaStreamRelease i d = Done tt d' /\
      dma_ok d' /\ ~ in_use d' i /\ other_streams i d d' /\ d_vec d' i = None) /\
  (~ in_use d i -> CH_DBG_ENABLE_ASSERTS = true -> dmaStreamRelease i d = Stuck (Panic "dmaStreamRelease(), #1")).
Proof.
  intros Hi Hok. split_and!.
  - intros Hu. unfold dmaStreamAllocate. by rewrite taken_spec, Hu by lia.
  - intros Hn. destruct (allocate_eq i priority func param d Hi Hok Hn) as (d' & E & Hok' & Em & Hrest).
    exists d'. split_and!; try done; [|tauto..]. unfold in_use.
    rewrite Em, Z.lor_spec, testbit_bit, bool_decide_eq_true_2 by (lia || done). apply orb_true_r.
  - intros Hu. destruct (release_eq i d Hi Hok Hu) as (d' & E & Hok' & Em & Ho & Hv & _). exists d'. split_and!; try done.
    unfold in_use. by rewrite Em, Z.ldiff_spec, testbit_bit, bool_decide_eq_true_2, andb_false_r by (lia || done).
  - intros Hn Ha. unfold dmaStreamRelease, bind, gets. cbn [obind]. rewrite taken_spec by lia.
    unfold in_use in Hn. apply not_true_is_false in Hn. rewrite Hn. unfold dma_assert. by rewrite Ha.
Qed.

(** The controllers at reset, initialized. *)
Definition dma_reset : dmast :=
  dmaInit (mkDma 0 (fun _ => None) (fun _ => mkStream 0 0 0 0 STM32_DMA_FCR_RESET_VALUE) (fun _ => 0) 0x00100000 (fun _ => None)).

Lemma dma_reset_ok : dma_ok dma_reset.
Proof. by apply dmaInit_ok. Qed.

Lemma dma_streams_witness :
  (exists d, dmaStreamAllocate 8 10 (Some spi_lld_serve_rx) 1 dma_reset = (false, d) /\ in_use d 8 /\ d_vec d 8 = Some 10) /\
  @dmaStreamRelease debug_config 8 dma_reset = Stuck (Panic "dmaStreamRelease(), #1").
Proof.
  assert (~ in_use dma_reset 8) as Hn by (vm_compute; discriminate).
  destruct (@dma_streams debug_config 8 10 (Some spi_lld_serve_rx) 1 dma_reset ltac:(lia) dma_reset_ok) as (_ & Ha & _ & Hr).
  split; [|by apply Hr]. destruct (Ha Hn) as (d & E & _ & Hu & _ & _ & _ & _ & Hv). by exists d.
Defined.
