(* ===== verification/Spi.v ===== *)
(** * SPI driver ([hal/src/spi.c], [hal/include/spi.h]) and its low level
    driver ([hal/platforms/STM32/SPIv1/spi_lld.c])

    A driver object per bus, with the registers of its peripheral and two DMA
    streams.  A transfer is programmed in the streams, the thread sleeps, and
    the handler of the interrupt at the end of the receive stream wakes it.
    Memory is bytes by address.  The devices on the buses and the select lines
    are of any type [D]; what the hardware does to them, and the functions of
    the application, are the class [SpiEnv]. *)
From S2P Require Import Prelude Monad Types Sched Mtx Threads Sys Dma.

(** ** Constants *)

Definition SPI_CR1_MSTR : Z := 0x0004.
Definition SPI_CR1_SPE : Z := 0x0040.
Definition SPI_CR1_SSI : Z := 0x0100.
Definition SPI_CR1_SSM : Z := 0x0200.
Definition SPI_CR1_DFF : Z := 0x0800.
Definition SPI_CR2_RXDMAEN : Z := 1.
Definition SPI_CR2_TXDMAEN : Z := 2.
Definition SPI_CR2_SSOE : Z := 4.
Definition SPI_SR_RXNE : Z := 1.

Definition SPI1 : Z := 0x40013000.
Definition SPI2 : Z := 0x40003800.
(** [&spi->DR] *)
Definition DR (spi : Z) : Z := spi + 0x0C.

(** The settings of [mcuconf.h] and the streams of [hal_lld.h]. *)
Definition STM32_SPI_SPI1_RX_DMA_STREAM : Z := STM32_DMA_STREAM_ID 2 0.
Definition STM32_SPI_SPI1_TX_DMA_STREAM : Z := STM32_DMA_STREAM_ID 2 3.
Definition STM32_SPI_SPI2_RX_DMA_STREAM : Z := STM32_DMA_STREAM_ID 1 3.
Definition STM32_SPI_SPI2_TX_DMA_STREAM : Z := STM32_DMA_STREAM_ID 1 4.
Definition STM32_SPI_DMA_PRIORITY : Z := 1.
Definition STM32_SPI_IRQ_PRIORITY : Z := 10.
Definition SPI1_RX_DMA_CHANNEL : Z := STM32_DMA_GETCHANNEL STM32_SPI_SPI1_RX_DMA_STREAM 0x00000303.
Definition SPI1_TX_DMA_CHANNEL : Z := STM32_DMA_GETCHANNEL STM32_SPI_SPI1_TX_DMA_STREAM 0x00303000.
Definition SPI2_RX_DMA_CHANNEL : Z := STM32_DMA_GETCHANNEL STM32_SPI_SPI2_RX_DMA_STREAM 0.
Definition SPI2_TX_DMA_CHANNEL : Z := STM32_DMA_GETCHANNEL STM32_SPI_SPI2_TX_DMA_STREAM 0.

(** The driver objects. *)
Definition SPID1 : Z := 1.
Definition SPID2 : Z := 2.

(** ** State *)

Inductive spistate_t := SPI_UNINIT | SPI_STOP | SPI_READY | SPI_ACTIVE | SPI_COMPLETE.
#[export] Instance spistate_eq_dec : EqDecision spistate_t.
Proof. solve_decision. Defined.

Record SPIConfig := mkSPIConfig { end_cb : option Z; ssport : Z; sspad : Z; cr1 : Z }.

Record SPIDriver := mkSPI {
  spi_state : spistate_t;
  spi_config : option SPIConfig;
  spi_thread : option tid;
  spi_mutex : mid;
  spi_spi : Z;
  spi_dmarx : Z;
  spi_dmatx : Z;
  spi_rxdmamode : Z;
  spi_txdmamode : Z
}.
Definition set_spi_state (v : spistate_t) (d : SPIDriver) : SPIDriver :=
  mkSPI v (spi_config d) (spi_thread d) (spi_mutex d) (spi_spi d) (spi_dmarx d) (spi_dmatx d) (spi_rxdmamode d) (spi_txdmamode d).
Definition set_spi_config (v : option SPIConfig) (d : SPIDriver) : SPIDriver :=
  mkSPI (spi_state d) v (spi_thread d) (spi_mutex d) (spi_spi d) (spi_dmarx d) (spi_dmatx d) (spi_rxdmamode d) (spi_txdmamode d).
Definition set_spi_thread (v : option tid) (d : SPIDriver) : SPIDriver :=
  mkSPI (spi_state d) (spi_config d) v (spi_mutex d) (spi_spi d) (spi_dmarx d) (spi_dmatx d) (spi_rxdmamode d) (spi_txdmamode d).
Definition set_spi_hw (spi rx tx rxmode txmode : Z) (d : SPIDriver) : SPIDriver :=
  mkSPI (spi_state d) (spi_config d) (spi_thread d) (spi_mutex d) spi rx tx rxmode txmode.
Definition set_spi_modes (rxmode txmode : Z) (d : SPIDriver) : SPIDriver :=
  set_spi_hw (spi_spi d) (spi_dmarx d) (spi_dmatx d) rxmode txmode d.

Record spiregs := mkSpiRegs { CR1 : Z; CR2 : Z }.

Record spiw (D : Type) := mkW {
  w_k : kstate;
  w_spi : Z -> SPIDriver;
  w_reg : Z -> spiregs;
  w_clk : Z -> bool;
  w_dma : dmast;
  w_mem : Z -> Z;
  w_dev : D
}.
Arguments mkW {D} _ _ _ _ _ _ _.
Arguments w_k {D} _.
Arguments w_spi {D} _.
Arguments w_reg {D} _.
Arguments w_clk {D} _.
Arguments w_dma {D} _.
Arguments w_mem {D} _.
Arguments w_dev {D} _.

Section Fields.
Context {D : Type}.
Implicit Types (x : spiw D).

Definition set_w_k (v : kstate) x : spiw D := mkW v (w_spi x) (w_reg x) (w_clk x) (w_dma x) (w_mem x) (w_dev x).
Definition set_w_spi (v : Z -> SPIDriver) x : spiw D := mkW (w_k x) v (w_reg x) (w_clk x) (w_dma x) (w_mem x) (w_dev x).
Definition set_w_reg (v : Z -> spiregs) x : spiw D := mkW (w_k x) (w_spi x) v (w_clk x) (w_dma x) (w_mem x) (w_dev x).
Definition set_w_clk (v : Z -> bool) x : spiw D := mkW (w_k x) (w_spi x) (w_reg x) v (w_dma x) (w_mem x) (w_dev x).
Definition set_w_dma (v : dmast) x : spiw D := mkW (w_k x) (w_spi x) (w_reg x) (w_clk x) v (w_mem x) (w_dev x).
Definition set_w_mem (v : Z -> Z) x : spiw D := mkW (w_k x) (w_spi x) (w_reg x) (w_clk x) (w_dma x) v (w_dev x).
Definition set_w_dev (v : D) x : spiw D := mkW (w_k x) (w_spi x) (w_reg x) (w_clk x) (w_dma x) (w_mem x) v.

(** A kernel function, and a function on the DMA streams. *)
Fixpoint kc_o {A} x (o : outcome kstate A) : outcome (spiw D) A :=
  match o with
  | Done a s => Done a (set_w_k s x)
  | Suspend p s k => Suspend p (set_w_k s x) (fun x' => kc_o x' (k (w_k x')))
  | Stuck e => Stuck e
  end.
Definition kc {A} (m : M kstate A) : M (spiw D) A := fun x => kc_o x (m (w_k x)).

Fixpoint dma_o {A} x (o : outcome dmast A) : outcome (spiw D) A :=
  match o with
  | Done a d => Done a (set_w_dma d x)
  | Suspend p d k => Suspend p (set_w_dma d x) (fun x' => dma_o x' (k (w_dma x')))
  | Stuck e => Stuck e
  end.
Definition on_dma {A} (m : M dmast A) : M (spiw D) A := fun x => dma_o x (m (w_dma x)).
Definition dma (f : dmast -> dmast) : M (spiw D) unit := on_dma (modify f).

Definition the_spi (spip : Z) : M (spiw D) SPIDriver := gets (fun x => w_spi x spip).
Definition upd_spi (spip : Z) (f : SPIDriver -> SPIDriver) : M (spiw D) unit :=
  modify (fun x => set_w_spi (<[spip := f (w_spi x spip)]> (w_spi x)) x).
Definition upd_reg (spi : Z) (f : spiregs -> spiregs) : M (spiw D) unit :=
  modify (fun x => set_w_reg (<[spi := f (w_reg x spi)]> (w_reg x)) x).
Definition set_clk (spip : Z) (on : bool) : M (spiw D) unit :=
  modify (fun x => set_w_clk (<[spip := on]> (w_clk x)) x).
Definition on_dev {A} (f : D -> A * D) : M (spiw D) A :=
  fun x => let r := f (w_dev x) in Done r.1 (set_w_dev r.2 x).
End Fields.

(** The select lines, the data and status registers as the processor sees them,
    the addresses of the two dummy words, the callbacks of the application and
    the DMA functions of other drivers. *)
Class SpiEnv (D : Type) := {
  pad_write : Z -> Z -> bool -> D -> D;
  spi_dr_write : Z -> Z -> D -> D;
  spi_sr_read : Z -> D -> Z * D;
  spi_dr_read : Z -> D -> Z * D;
  dummytx : Z;
  dummyrx : Z;
  spi_callback : Z -> Z -> M (spiw D) unit;
  dma_client : Z -> Z -> Z -> M (spiw D) unit
}.

Section Defs.
Context `{Config} {D : Type} `{SpiEnv D}.
Local Abbreviation SM := (M (spiw D)).

Definition the_config (spip : Z) : SM SPIConfig := fun x =>
  match spi_config (w_spi x spip) with
  | Some c => Done c x
  | None => Stuck (Fault "config")
  end.

Definition palSetPad (port pad : Z) : SM unit := on_dev (fun d => (tt, pad_write port pad true d)).
Definition palClearPad (port pad : Z) : SM unit := on_dev (fun d => (tt, pad_write port pad false d)).

(** ** The end of a transfer *)

Definition _spi_wait_s (spip : Z) : SM unit :=
  let! d := the_spi spip in
  kc (chDbgAssert (bool_decide (spi_thread d = None)) "_spi_wait(), #1") ;;;
  let! me := kc chThdSelf in
  upd_spi spip (set_spi_thread (Some me)) ;;;
  kc (chSchGoSleepS THD_STATE_SUSPENDED).

Definition _spi_wakeup_isr (spip : Z) : SM unit :=
  let! d := the_spi spip in
  match spi_thread d with
  | Some tp =>
      upd_spi spip (set_spi_thread None) ;;;
      kc chSysLockFromIsr ;;;
      kc (chSchReadyI tp) ;;;
      kc chSysUnlockFromIsr
  | None => mret' tt
  end.

Definition _spi_isr_code (spip : Z) : SM unit :=
  let! c := the_config spip in
  match end_cb c with
  | Some cb =>
      upd_spi spip (set_spi_state SPI_COMPLETE) ;;;
      spi_callback cb spip ;;;
      let! d := the_spi spip in
      whenb bool_decide (spi_state d = SPI_COMPLETE) then upd_spi spip (set_spi_state SPI_READY)
  | None => upd_spi spip (set_spi_state SPI_READY)
  end ;;;
  _spi_wakeup_isr spip.

(** [STM32_SPI_DMA_ERROR_HOOK] is [chSysHalt()]. *)
Definition dma_error_hook (flags : Z) : SM unit :=
  whenb negb (Z.land flags (Z.lor STM32_DMA_ISR_TEIF STM32_DMA_ISR_DMEIF) =? 0) then panic "chSysHalt".

Definition spi_lld_serve_rx_interrupt (spip flags : Z) : SM unit :=
  dma_error_hook flags ;;;
  let! d := the_spi spip in
  dma (dmaStreamDisable (spi_dmatx d)) ;;;
  dma (dmaStreamDisable (spi_dmarx d)) ;;;
  _spi_isr_code spip.

Definition spi_lld_serve_tx_interrupt (spip flags : Z) : SM unit := dma_error_hook flags.

(** The handlers of the sixteen streams. *)
Definition dma_func (f : stm32_dmaisr_t) (param flags : Z) : SM unit :=
  match f with
  | spi_lld_serve_rx => spi_lld_serve_rx_interrupt param flags
  | spi_lld_serve_tx => spi_lld_serve_tx_interrupt param flags
  | other_isr fn => dma_client fn param flags
  end.

(** Between the prologue and the epilogue of a handler. *)
Definition dma_serve (i : Z) : SM unit :=
  let! flags := gets (fun x => stream_flags i (w_dma x)) in
  dma (dmaStreamClearInterrupt i) ;;;
  let! redir := gets (fun x => dma_isr_redir (w_dma x) i) in
  match redir with
  | Some (f, param) => dma_func f param flags
  | None => mret' tt
  end.

Definition dma_irq (i : Z) (rettobase : bool) : SM unit :=
  kc CH_IRQ_PROLOGUE ;;; dma_serve i ;;; kc (CH_IRQ_EPILOGUE rettobase).

(** ** The low level driver *)

Definition spiObjectInit (spip : Z) : SM unit :=
  upd_spi spip (fun d => set_spi_thread None (set_spi_config None (set_spi_state SPI_STOP d))) ;;;
  let! d := the_spi spip in
  kc (chMtxInit (spi_mutex d)).

Definition rx_mode (channel : Z) : Z :=
  Z.lor (STM32_DMA_CR_CHSEL channel) (Z.lor (STM32_DMA_CR_PL STM32_SPI_DMA_PRIORITY) (Z.lor STM32_DMA_CR_DIR_P2M
    (Z.lor STM32_DMA_CR_TCIE (Z.lor STM32_DMA_CR_DMEIE STM32_DMA_CR_TEIE)))).
Definition tx_mode (channel : Z) : Z :=
  Z.lor (STM32_DMA_CR_CHSEL channel) (Z.lor (STM32_DMA_CR_PL STM32_SPI_DMA_PRIORITY) (Z.lor STM32_DMA_CR_DIR_M2P
    (Z.lor STM32_DMA_CR_DMEIE STM32_DMA_CR_TEIE))).

(** A half word in memory, little endian. *)
Definition store16 (a v : Z) (m : Z -> Z) : Z -> Z := <[a + 1 := Z.shiftr v 8]> (<[a := u8 v]> m).

Definition spi_lld_init : SM unit :=
  modify (fun x => set_w_mem (store16 dummytx 0xFFFF (w_mem x)) x) ;;;
  spiObjectInit SPID1 ;;;
  upd_spi SPID1 (set_spi_hw SPI1 STM32_SPI_SPI1_RX_DMA_STREAM STM32_SPI_SPI1_TX_DMA_STREAM
                   (rx_mode SPI1_RX_DMA_CHANNEL) (tx_mode SPI1_TX_DMA_CHANNEL)) ;;;
  spiObjectInit SPID2 ;;;
  upd_spi SPID2 (set_spi_hw SPI2 STM32_SPI_SPI2_RX_DMA_STREAM STM32_SPI_SPI2_TX_DMA_STREAM
                   (rx_mode SPI2_RX_DMA_CHANNEL) (tx_mode SPI2_TX_DMA_CHANNEL)).

(** Allocation of a stream, with the assertion that it was free. *)
Definition take_stream (i : Z) (func : stm32_dmaisr_t) (spip : Z) (msg : string) : SM unit := fun x =>
  let r := dmaStreamAllocate i STM32_SPI_IRQ_PRIORITY (Some func) spip (w_dma x) in
  (kc (chDbgAssert (negb r.1) msg)) (set_w_dma r.2 x).

Definition take_streams (spip : Z) (msg1 msg2 : string) : SM unit :=
  let! d := the_spi spip in
  take_stream (spi_dmarx d) spi_lld_serve_rx spip msg1 ;;;
  take_stream (spi_dmatx d) spi_lld_serve_tx spip msg2 ;;;
  set_clk spip true.

(** The streams and the clock of the bus. *)
Definition take_bus (spip : Z) : SM unit :=
  (whenb spip =? SPID1 then take_streams spip "spi_lld_start(), #1" "spi_lld_start(), #2") ;;;
  (whenb spip =? SPID2 then take_streams spip "spi_lld_start(), #3" "spi_lld_start(), #4").

Definition spi_lld_start (spip : Z) : SM unit :=
  let! d := the_spi spip in
  (whenb bool_decide (spi_state d = SPI_STOP) then
     take_bus spip ;;;
     dma (dmaStreamSetPeripheral (spi_dmarx d) (DR (spi_spi d))) ;;;
     dma (dmaStreamSetPeripheral (spi_dmatx d) (DR (spi_spi d)))) ;;;
  let! c := the_config spip in
  let size := if Z.land (cr1 c) SPI_CR1_DFF =? 0
              then Z.lor STM32_DMA_CR_PSIZE_BYTE STM32_DMA_CR_MSIZE_BYTE
              else Z.lor STM32_DMA_CR_PSIZE_HWORD STM32_DMA_CR_MSIZE_HWORD in
  let sized mode := Z.lor (Z.ldiff mode STM32_DMA_CR_SIZE_MASK) size in
  upd_spi spip (fun d => set_spi_modes (sized (spi_rxdmamode d)) (sized (spi_txdmamode d)) d) ;;;
  upd_reg (spi_spi d) (fun r => mkSpiRegs 0 (CR2 r)) ;;;
  upd_reg (spi_spi d) (fun r => mkSpiRegs (Z.lor (cr1 c) (Z.lor SPI_CR1_MSTR (Z.lor SPI_CR1_SSM SPI_CR1_SSI))) (CR2 r)) ;;;
  upd_reg (spi_spi d) (fun r => mkSpiRegs (CR1 r) (Z.lor SPI_CR2_SSOE (Z.lor SPI_CR2_RXDMAEN SPI_CR2_TXDMAEN))) ;;;
  upd_reg (spi_spi d) (fun r => mkSpiRegs (Z.lor (CR1 r) SPI_CR1_SPE) (CR2 r)).

Definition spi_lld_stop (spip : Z) : SM unit :=
  let! d := the_spi spip in
  whenb bool_decide (spi_state d = SPI_READY) then
    upd_reg (spi_spi d) (fun _ => mkSpiRegs 0 0) ;;;
    on_dma (dmaStreamRelease (spi_dmarx d)) ;;;
    on_dma (dmaStreamRelease (spi_dmatx d)) ;;;
    (whenb spip =? SPID1 then set_clk spip false) ;;;
    (whenb spip =? SPID2 then set_clk spip false).

Definition spi_lld_select (spip : Z) : SM unit :=
  let! c := the_config spip in palClearPad (ssport c) (sspad c).
Definition spi_lld_unselect (spip : Z) : SM unit :=
  let! c := the_config spip in palSetPad (ssport c) (sspad c).

(** One stream of a transfer: address, size and mode. *)
Definition program_stream (i addr n mode : Z) : SM unit :=
  dma (dmaStreamSetMemory0 i addr) ;;;
  dma (dmaStreamSetTransactionSize i n) ;;;
  dma (dmaStreamSetMode i mode).

Definition spi_lld_ignore (spip n : Z) : SM unit :=
  let! d := the_spi spip in
  program_stream (spi_dmarx d) dummyrx n (spi_rxdmamode d) ;;;
  program_stream (spi_dmatx d) dummytx n (spi_txdmamode d) ;;;
  dma (dmaStreamEnable (spi_dmarx d)) ;;;
  dma (dmaStreamEnable (spi_dmatx d)).

Definition spi_lld_exchange (spip n txbuf rxbuf : Z) : SM unit :=
  let! d := the_spi spip in
  program_stream (spi_dmarx d) rxbuf n (Z.lor (spi_rxdmamode d) STM32_DMA_CR_MINC) ;;;
  program_stream (spi_dmatx d) txbuf n (Z.lor (spi_txdmamode d) STM32_DMA_CR_MINC) ;;;
  dma (dmaStreamEnable (spi_dmarx d)) ;;;
  dma (dmaStreamEnable (spi_dmatx d)).

Definition spi_lld_send (spip n txbuf : Z) : SM unit :=
  let! d := the_spi spip in
  program_stream (spi_dmarx d) dummyrx n (spi_rxdmamode d) ;;;
  program_stream (spi_dmatx d) txbuf n (Z.lor (spi_txdmamode d) STM32_DMA_CR_MINC) ;;;
  dma (dmaStreamEnable (spi_dmarx d)) ;;;
  dma (dmaStreamEnable (spi_dmatx d)).

Definition spi_lld_receive (spip n rxbuf : Z) : SM unit :=
  let! d := the_spi spip in
  program_stream (spi_dmarx d) rxbuf n (Z.lor (spi_rxdmamode d) STM32_DMA_CR_MINC) ;;;
  program_stream (spi_dmatx d) dummytx n (spi_txdmamode d) ;;;
  dma (dmaStreamEnable (spi_dmarx d)) ;;;
  dma (dmaStreamEnable (spi_dmatx d)).

(** [while ((spip->spi->SR & SPI_SR_RXNE) == 0);] *)
Fixpoint poll_rxne (polls : nat) (spi : Z) : SM unit :=
  let! sr := on_dev (spi_sr_read spi) in
  if negb (Z.land sr SPI_SR_RXNE =? 0) then mret' tt
  else match polls with O => diverge | S polls => poll_rxne polls spi end.

Definition spi_lld_polled_exchange (polls : nat) (spip frame : Z) : SM Z :=
  let! d := the_spi spip in
  on_dev (fun v => (tt, spi_dr_write (spi_spi d) (u16 frame) v)) ;;;
  poll_rxne polls (spi_spi d) ;;;
  let! v := on_dev (spi_dr_read (spi_spi d)) in
  mret' (u16 v).

(** ** The high level driver *)

Definition spiInit : SM unit := spi_lld_init.

Definition assert_state (spip : Z) (f : spistate_t -> bool) (msg : string) : SM unit :=
  let! d := the_spi spip in kc (chDbgAssert (f (spi_state d)) msg).
Definition stop_or_ready (st : spistate_t) : bool := bool_decide (st = SPI_STOP) || bool_decide (st = SPI_READY).
Definition ready (st : spistate_t) : bool := bool_decide (st = SPI_READY).
(** The wait for the end needs a configuration without callback. *)
Definition assert_no_callback (spip : Z) (msg : string) : SM unit :=
  let! c := the_config spip in kc (chDbgAssert (bool_decide (end_cb c = None)) msg).

Definition spiStart (spip : Z) (config : SPIConfig) : SM unit :=
  kc chSysLock ;;;
  assert_state spip stop_or_ready "spiStart(), #1" ;;;
  upd_spi spip (set_spi_config (Some config)) ;;;
  spi_lld_start spip ;;;
  upd_spi spip (set_spi_state SPI_READY) ;;;
  kc chSysUnlock.

Definition spiStop (spip : Z) : SM unit :=
  kc chSysLock ;;;
  assert_state spip stop_or_ready "spiStop(), #1" ;;;
  spi_lld_unselect spip ;;;
  spi_lld_stop spip ;;;
  upd_spi spip (set_spi_state SPI_STOP) ;;;
  kc chSysUnlock.

Definition spiSelect (spip : Z) : SM unit :=
  kc chSysLock ;;; assert_state spip ready "spiSelect(), #1" ;;; spi_lld_select spip ;;; kc chSysUnlock.
Definition spiUnselect (spip : Z) : SM unit :=
  kc chSysLock ;;; assert_state spip ready "spiUnselect(), #1" ;;; spi_lld_unselect spip ;;; kc chSysUnlock.

Definition spiStartIgnoreI (spip n : Z) : SM unit :=
  upd_spi spip (set_spi_state SPI_ACTIVE) ;;; spi_lld_ignore spip n.
Definition spiStartExchangeI (spip n txbuf rxbuf : Z) : SM unit :=
  upd_spi spip (set_spi_state SPI_ACTIVE) ;;; spi_lld_exchange spip n txbuf rxbuf.
Definition spiStartSendI (spip n txbuf : Z) : SM unit :=
  upd_spi spip (set_spi_state SPI_ACTIVE) ;;; spi_lld_send spip n txbuf.
Definition spiStartReceiveI (spip n rxbuf : Z) : SM unit :=
  upd_spi spip (set_spi_state SPI_ACTIVE) ;;; spi_lld_receive spip n rxbuf.

Definition spiStartIgnore (spip n : Z) : SM unit :=
  kc (chDbgCheck (0 <? n) "spiStartIgnore") ;;;
  kc chSysLock ;;; assert_state spip ready "spiStartIgnore(), #1" ;;;
  spiStartIgnoreI spip n ;;; kc chSysUnlock.
Definition spiStartExchange (spip n txbuf rxbuf : Z) : SM unit :=
  kc (chDbgCheck ((0 <? n) && negb (rxbuf =? 0) && negb (txbuf =? 0)) "spiStartExchange") ;;;
  kc chSysLock ;;; assert_state spip ready "spiStartExchange(), #1" ;;;
  spiStartExchangeI spip n txbuf rxbuf ;;; kc chSysUnlock.
Definition spiStartSend (spip n txbuf : Z) : SM unit :=
  kc (chDbgCheck ((0 <? n) && negb (txbuf =? 0)) "spiStartSend") ;;;
  kc chSysLock ;;; assert_state spip ready "spiStartSend(), #1" ;;;
  spiStartSendI spip n txbuf ;;; kc chSysUnlock.
Definition spiStartReceive (spip n rxbuf : Z) : SM unit :=
  kc (chDbgCheck ((0 <? n) && negb (rxbuf =? 0)) "spiStartReceive") ;;;
  kc chSysLock ;;; assert_state spip ready "spiStartReceive(), #1" ;;;
  spiStartReceiveI spip n rxbuf ;;; kc chSysUnlock.

Definition spiIgnore (spip n : Z) : SM unit :=
  kc (chDbgCheck (0 <? n) "spiIgnoreWait") ;;;
  kc chSysLock ;;;
  assert_state spip ready "spiIgnore(), #1" ;;;
  assert_no_callback spip "spiIgnore(), #2" ;;;
  spiStartIgnoreI spip n ;;;
  _spi_wait_s spip ;;;
  kc chSysUnlock.

Definition spiExchange (spip n txbuf rxbuf : Z) : SM unit :=
  kc (chDbgCheck ((0 <? n) && negb (rxbuf =? 0) && negb (txbuf =? 0)) "spiExchange") ;;;
  kc chSysLock ;;;
  assert_state spip ready "spiExchange(), #1" ;;;
  assert_no_callback spip "spiExchange(), #2" ;;;
  spiStartExchangeI spip n txbuf rxbuf ;;;
  _spi_wait_s spip ;;;
  kc chSysUnlock.

Definition spiSend (spip n txbuf : Z) : SM unit :=
  kc (chDbgCheck ((0 <? n) && negb (txbuf =? 0)) "spiSend") ;;;
  kc chSysLock ;;;
  assert_state spip ready "spiSend(), #1" ;;;
  assert_no_callback spip "spiSend(), #2" ;;;
  spiStartSendI spip n txbuf ;;;
  _spi_wait_s spip ;;;
  kc chSysUnlock.

Definition spiReceive (spip n rxbuf : Z) : SM unit :=
  kc (chDbgCheck ((0 <? n) && negb (rxbuf =? 0)) "spiReceive") ;;;
  kc chSysLock ;;;
  assert_state spip ready "spiReceive(), #1" ;;;
  assert_no_callback spip "spiReceive(), #2" ;;;
  spiStartReceiveI spip n rxbuf ;;;
  _spi_wait_s spip ;;;
  kc chSysUnlock.

Definition spiPolledExchange (polls : nat) (spip frame : Z) : SM Z := spi_lld_polled_exchange polls spip frame.

Definition spiAcquireBus (spip : Z) : SM unit := let! d := the_spi spip in kc (chMtxLock (spi_mutex d)).
Definition spiReleaseBus (spip : Z) : SM unit := kc chMtxUnlock ;;; mret' tt.
End Defs.
