(* ===== verification/SpiOK.v ===== *)
(** * SPI transfers: the hardware, the states of a bus, and the proof rules

    [SpiHw] is the hardware of a transfer: [frame] is what a device answers to
    a frame, [hw_dma] runs the two streams of a bus to their end.  [hw_law] is
    what the reference manual says of streams that are programmed right.  The
    other threads leave alone the bus, its device and the buffers of the thread
    that uses it ([keeps]); while that thread waits for a transfer, the transfer
    ends and its interrupt is served ([finish]). *)
From S2P Require Import Prelude Monad Types ThdLists Sched Mtx Threads Sys Dma Spi.
From S2P Require Import Inv InvPrim InvSched Rules Wake TickOK Total.

(** ** Buses *)

Record port := mkPort { po_spi : Z; po_rx : Z; po_tx : Z; po_rxch : Z; po_txch : Z }.
Definition port_of (spip : Z) : option port :=
  if spip =? SPID1 then Some (mkPort SPI1 8 11 3 3)
  else if spip =? SPID2 then Some (mkPort SPI2 3 4 0 0) else None.

Lemma port_streams spip p : port_of spip = Some p ->
  0 <= po_rx p < 16 /\ 0 <= po_tx p < 16 /\ po_rx p <> po_tx p.
Proof.
  unfold port_of. destruct (spip =? SPID1); [intros [= <-]; simpl; lia|].
  destruct (spip =? SPID2); [intros [= <-]; simpl; lia|done].
Qed.

(** ** Transfers *)

Inductive transfer :=
  | T_ignore (n : Z)
  | T_exchange (n txbuf rxbuf : Z)
  | T_send (n txbuf : Z)
  | T_receive (n rxbuf : Z).

Section Transfers.
Context {D : Type} `{SpiEnv D}.

Definition t_n (tr : transfer) : Z :=
  match tr with T_ignore n | T_exchange n _ _ | T_send n _ | T_receive n _ => n end.
(** The buffers in memory, or the dummy words. *)
Definition t_tx (tr : transfer) : option Z :=
  match tr with T_exchange _ a _ | T_send _ a => Some a | _ => None end.
Definition t_rx (tr : transfer) : option Z :=
  match tr with T_exchange _ _ a | T_receive _ a => Some a | _ => None end.

Definition fsize (c : SPIConfig) : Z := if Z.land (cr1 c) SPI_CR1_DFF =? 0 then 1 else 2.
Definition size_bits (c : SPIConfig) : Z := if Z.land (cr1 c) SPI_CR1_DFF =? 0 then 0 else 0x2800.
Definition minc (b : option Z) : Z := if b is Some _ then STM32_DMA_CR_MINC else 0.
Definition addr (b : option Z) (dummy : Z) : Z := default dummy b.

(** A frame in memory. *)
Definition load (sz a : Z) (m : Z -> Z) : Z := if sz =? 1 then m a else m a + 256 * m (a + 1).
Definition store (sz a v : Z) (m : Z -> Z) : Z -> Z := if sz =? 1 then <[a := u8 v]> m else store16 a (u16 v) m.

(** The frames of a buffer of [n] frames, and a buffer filled with frames. *)
Definition tx_frames (sz : Z) (b : option Z) (n : Z) (m : Z -> Z) : list Z :=
  match b with
  | Some a => map (fun i => load sz (a + i * sz) m) (seqZ 0 n)
  | None => repeat (load sz dummytx m) (Z.to_nat n)
  end.
Fixpoint store_all (sz a : Z) (vs : list Z) (m : Z -> Z) : Z -> Z :=
  match vs with
  | [] => m
  | v :: vs => store_all sz (a + sz) vs (store sz a v m)
  end.
Definition rx_store (sz : Z) (b : option Z) (vs : list Z) (m : Z -> Z) : Z -> Z :=
  match b with
  | Some a => store_all sz a vs m
  | None => fold_left (fun m v => store sz dummyrx v m) vs m
  end.

(** The addresses of a buffer. *)
Definition in_buf (sz n : Z) (b : option Z) (dummy a : Z) : Prop :=
  match b with
  | Some b => b <= a < b + n * sz
  | None => dummy <= a < dummy + sz
  end.

(** A sequence of frames on the bus. *)
Fixpoint xchg_all (frame : Z -> D -> Z * D) (txs : list Z) (v : D) : list Z * D :=
  match txs with
  | [] => ([], v)
  | b :: txs => let r := frame b v in let r' := xchg_all frame txs r.2 in (r.1 :: r'.1, r'.2)
  end.

Lemma xchg_all_length frame txs v : length (xchg_all frame txs v).1 = length txs.
Proof. revert v. induction txs as [|b txs IH]; intros v; simpl; [done|]. by rewrite IH. Qed.

Lemma xchg_all_app frame l1 l2 v :
  xchg_all frame (l1 ++ l2) v =
    let r := xchg_all frame l1 v in let r' := xchg_all frame l2 r.2 in (r.1 ++ r'.1, r'.2).
Proof. revert v. induction l1 as [|b l1 IH]; intros v; simpl; [by destruct (xchg_all _ _ _)|]. by rewrite IH. Qed.
End Transfers.

(** ** The hardware *)

Class SpiHw (D : Type) := {
  frame : Z -> Z -> D -> Z * D;
  hw_dma : Z -> spiregs -> dmast * (Z -> Z) * D -> dmast * (Z -> Z) * D
}.

Section Hardware.
Context {D : Type} `{SpiEnv D} `{SpiHw D}.

(** The modes of the streams of a started bus. *)
Definition rx_bits (p : port) (c : SPIConfig) : Z := Z.lor (rx_mode (po_rxch p)) (size_bits c).
Definition tx_bits (p : port) (c : SPIConfig) : Z := Z.lor (tx_mode (po_txch p)) (size_bits c).
Definition started_regs (c : SPIConfig) : spiregs :=
  mkSpiRegs (Z.lor (Z.lor (cr1 c) (Z.lor SPI_CR1_MSTR (Z.lor SPI_CR1_SSM SPI_CR1_SSI))) SPI_CR1_SPE) 7.

(** Both streams enabled for a transfer. *)
Definition armed (p : port) (c : SPIConfig) (tr : transfer) (d : dmast) : Prop :=
  d_stream d (po_rx p) =
    mkStream (Z.lor (Z.lor (rx_bits p c) (minc (t_rx tr))) STM32_DMA_CR_EN) (t_n tr) (DR (po_spi p))
      (addr (t_rx tr) dummyrx) (FCR (d_stream d (po_rx p))) /\
  d_stream d (po_tx p) =
    mkStream (Z.lor (Z.lor (tx_bits p c) (minc (t_tx tr))) STM32_DMA_CR_EN) (t_n tr) (DR (po_spi p))
      (addr (t_tx tr) dummytx) (FCR (d_stream d (po_tx p))).

(** A stream at the end of its transfer: disabled, with its flag set. *)
Definition stream_done (i : Z) (d : dmast) : dmast :=
  let d := upd_stream i (fun r => set_NDTR 0 (set_CR (Z.ldiff (CR r) STM32_DMA_CR_EN) r)) d in
  set_isr (<[isr_reg i := Z.lor (d_isr d (isr_reg i)) (Z.shiftl 0x20 (ishift i))]> (d_isr d)) d.

Definition buffers_apart (sz : Z) (tr : transfer) : Prop :=
  forall a, in_buf sz (t_n tr) (t_rx tr) dummyrx a -> in_buf sz (t_n tr) (t_tx tr) dummytx a -> False.

Definition answers (p : port) (c : SPIConfig) (tr : transfer) (m : Z -> Z) (v : D) : list Z * D :=
  xchg_all (frame (po_spi p)) (tx_frames (fsize c) (t_tx tr) (t_n tr) m) v.

(** A master with both streams enabled sends the frames of one buffer and stores
    the answers in the other; the size register has sixteen bits. *)
Definition hw_law : Prop := forall spip p c tr d m v,
  port_of spip = Some p -> armed p c tr d -> 0 < t_n tr < 2^16 -> buffers_apart (fsize c) tr ->
  hw_dma (po_spi p) (started_regs c) (d, m, v) =
    (stream_done (po_rx p) (stream_done (po_tx p) d),
     rx_store (fsize c) (t_rx tr) (answers p c tr m v).1 m, (answers p c tr m v).2).

(** The run of the streams of a bus. *)
Definition hw_run (p : port) (x : spiw D) : spiw D :=
  let r := hw_dma (po_spi p) (w_reg x (po_spi p)) (w_dma x, w_mem x, w_dev x) in
  set_w_dma r.1.1 (set_w_mem r.1.2 (set_w_dev r.2 x)).

(** What the end of the transfer and its interrupt leave, but for the kernel. *)
Definition finish (p : port) (spip : Z) (x : spiw D) : spiw D :=
  let x := hw_run p x in
  let x := set_w_dma (dmaStreamDisable (po_rx p) (dmaStreamDisable (po_tx p)
             (dmaStreamClearInterrupt (po_rx p) (w_dma x)))) x in
  let x := set_w_spi (<[spip := set_spi_state SPI_READY (w_spi x spip)]> (w_spi x)) x in
  set_w_spi (<[spip := set_spi_thread None (w_spi x spip)]> (w_spi x)) x.
End Hardware.

(** ** The states of a bus *)

Section Bus.
Context `{Config} {D : Type} `{SpiEnv D} `{SpiHw D} (spip : Z) (p : port) (own : Z -> Prop).
Implicit Types (x : spiw D).

(** A started bus: the driver in a state, with a waiting thread or not. *)
Record bus (st : spistate_t) (th : option tid) (c : SPIConfig) x : Prop := mkBus {
  b_drv : w_spi x spip = mkSPI st (Some c) th (spi_mutex (w_spi x spip)) (po_spi p) (po_rx p) (po_tx p)
                           (rx_bits p c) (tx_bits p c);
  b_reg : w_reg x (po_spi p) = started_regs c;
  b_rx : in_use (w_dma x) (po_rx p) /\ dma_isr_redir (w_dma x) (po_rx p) = Some (spi_lld_serve_rx, spip) /\
    PAR (d_stream (w_dma x) (po_rx p)) = DR (po_spi p) /\ stream_flags (po_rx p) (w_dma x) = 0;
  b_tx : in_use (w_dma x) (po_tx p) /\ dma_isr_redir (w_dma x) (po_tx p) = Some (spi_lld_serve_tx, spip) /\
    PAR (d_stream (w_dma x) (po_tx p)) = DR (po_spi p) /\ stream_flags (po_tx p) (w_dma x) = 0;
  b_dma : dma_ok (w_dma x)
}.

(** A stopped bus: its streams are free. *)
Record bus_stopped (oc : option SPIConfig) x : Prop := mkStopped {
  bs_state : spi_state (w_spi x spip) = SPI_STOP;
  bs_config : spi_config (w_spi x spip) = oc;
  bs_thread : spi_thread (w_spi x spip) = None;
  bs_hw : spi_spi (w_spi x spip) = po_spi p /\ spi_dmarx (w_spi x spip) = po_rx p /\ spi_dmatx (w_spi x spip) = po_tx p;
  bs_modes : Z.ldiff (spi_rxdmamode (w_spi x spip)) STM32_DMA_CR_SIZE_MASK = rx_mode (po_rxch p) /\
    Z.ldiff (spi_txdmamode (w_spi x spip)) STM32_DMA_CR_SIZE_MASK = tx_mode (po_txch p);
  bs_free : ~ in_use (w_dma x) (po_rx p) /\ ~ in_use (w_dma x) (po_tx p);
  bs_dma : dma_ok (w_dma x)
}.

(** What the other threads and their interrupts leave alone. *)
Record keeps x x' : Prop := mkKeeps {
  kp_drv : w_spi x' spip = w_spi x spip;
  kp_reg : w_reg x' (po_spi p) = w_reg x (po_spi p);
  kp_stream : forall i, i = po_rx p \/ i = po_tx p -> (in_use (w_dma x') i <-> in_use (w_dma x) i) /\
    d_stream (w_dma x') i = d_stream (w_dma x) i /\ dma_isr_redir (w_dma x') i = dma_isr_redir (w_dma x) i /\
    stream_flags i (w_dma x') = stream_flags i (w_dma x);
  kp_dma : dma_ok (w_dma x) -> dma_ok (w_dma x');
  kp_mem : forall a, own a -> w_mem x' a = w_mem x a;
  kp_dev : w_dev x' = w_dev x
}.

Lemma keeps_refl x : keeps x x.
Proof. by split. Qed.

Lemma keeps_trans x1 x2 x3 : keeps x1 x2 -> keeps x2 x3 -> keeps x1 x3.
Proof.
  intros [A1 A2 A3 A4 A5 A6] [B1 B2 B3 B4 B5 B6]. split; [congruence|congruence| |tauto| |congruence].
  - intros i Hi. destruct (A3 i Hi) as (? & ? & ? & ?), (B3 i Hi) as (? & ? & ? & ?).
    split_and!; [tauto|congruence..].
  - intros a Ha. rewrite B5, A5; done.
Qed.

Lemma keeps_bus st th c x x' : keeps x x' -> bus st th c x -> bus st th c x'.
Proof.
  intros [A1 A2 A3 A4 A5 A6] [B1 B2 (B3 & B4 & B5 & B6) (B7 & B8 & B9 & B10) B11].
  destruct (A3 (po_rx p)) as (E1 & E2 & E3 & E4); [by left|].
  destruct (A3 (po_tx p)) as (F1 & F2 & F3 & F4); [by right|].
  split; [by rewrite A1|by rewrite A2| | |tauto]; split_and!; try tauto; congruence.
Qed.

Lemma keeps_stopped oc x x' : keeps x x' -> bus_stopped oc x -> bus_stopped oc x'.
Proof.
  intros [A1 A2 A3 A4 A5 A6] [B1 B0 B2 B3 B4 [B5 B6] B7].
  destruct (A3 (po_rx p)) as (E1 & _); [by left|]. destruct (A3 (po_tx p)) as (F1 & _); [by right|].
  split; rewrite ?A1; try tauto.
Qed.

(** ** Rely and guarantee *)

Variables (idle : tid) (J : kdata_t -> Prop) (t : tid) (ml : list mid).

(** The thread sleeps until its transfer is over, or for another reason. *)
Definition wgrd (w : susp) x : Prop := grd idle J w (w_k x).
Definition wrely (w : susp) x x' : Prop :=
  rely idle J t w (w_k x) (w_k x') /\
  match w, spi_thread (w_spi x spip) with
  | AtSwitch, Some _ => keeps (finish p spip x) x'
  | _, _ => keeps x x'
  end.
Abbreviation wtotal := (ototal wgrd wrely).

(** A kernel function that does not start a transfer. *)
Lemma total_kc {A} (m : M kstate A) (Q : A -> kstate -> Prop) (Q' : A -> spiw D -> Prop) x :
  spi_thread (w_spi x spip) = None ->
  osafe (grd idle J) (rely idle J t) Q (m (w_k x)) -> rounds_free m ->
  (forall a x', Q a (w_k x') -> keeps x x' -> Q' a x') -> wtotal Q' (kc m x).
Proof.
  intros Hth Ho Hrf. specialize (Hrf (w_k x)). unfold kc. revert Ho Hrf. generalize (m (w_k x)). intros o.
  assert (forall y, keeps x y -> osafe (grd idle J) (rely idle J t) Q o -> orounds_free o ->
    (forall a x', Q a (w_k x') -> keeps x x' -> Q' a x') -> wtotal Q' (kc_o y o)) as Hgen.
  { induction o as [a s|w s k IH|e]; intros y Hy Ho Hrf HQ; simpl in *.
    - apply HQ; [done|]. destruct Hy. by split.
    - destruct Ho as [HG Hk]. split; [done|]. intros y' [HR Hkp].
      assert (keeps x y') as Hy'.
      { apply (keeps_trans _ y); [done|].
        assert (spi_thread (w_spi y spip) = None) as Hn by (by rewrite (kp_drv _ _ Hy)).
        assert (keeps (set_w_k s y) y') as [] by (destruct w; cbn in Hkp; by rewrite ?Hn in Hkp).
        by split. }
      apply IH; [done|by apply Hk|done|done].
    - by destruct e. }
  intros Ho Hrf HQ. apply Hgen; [apply keeps_refl|done..].
Qed.

Definition running x : Prop := Ust idle J t ml (w_k x).

(** The frame of a driver function that does not block: lock, body, unlock. *)
Lemma total_unlock x (Q : unit -> spiw D -> Prop) :
  spi_thread (w_spi x spip) = None -> Sst idle J t ml (w_k x) ->
  (forall x', running x' -> keeps x x' -> Q tt x') -> wtotal Q (kc chSysUnlock x).
Proof.
  intros Hth HS HQ. apply (total_kc _ (fun _ s => Ust idle J t ml s)); [done| |apply rounds_free_unlock|].
  - by apply (chSysUnlock_rule idle J t ml).
  - intros [] x' Hx Hk. by apply HQ.
Qed.

Lemma kc_done {A} (m : M kstate A) x a s : m (w_k x) = Done a s -> kc m x = Done a (set_w_k s x).
Proof. intros E. unfold kc. by rewrite E. Qed.

Lemma set_w_k_id x : set_w_k (w_k x) x = x.
Proof. by destruct x. Qed.

Lemma lock_step x :
  running x -> exists s, Sst idle J t ml s /\ forall A (k : M (spiw D) A), (kc chSysLock ;;; k) x = k (set_w_k s x).
Proof.
  intros Hr. destruct (chSysLock_rule idle J t ml _ Hr) as (s & E & _ & HS). exists s. split; [done|].
  intros A k. unfold bind. by rewrite (kc_done _ _ _ _ E).
Qed.

Lemma assert_step {A} f msg (k : M (spiw D) A) x :
  f (spi_state (w_spi x spip)) = true -> (assert_state spip f msg ;;; k) x = k x.
Proof.
  intros E. unfold assert_state, bind, the_spi, gets. cbn [obind]. rewrite E.
  rewrite (kc_done _ _ tt (w_k x)) by (by apply chDbgAssert_ok). cbn. by rewrite set_w_k_id.
Qed.

Lemma check_step {A} c msg (k : M (spiw D) A) x :
  c = true -> (kc (chDbgCheck c msg) ;;; k) x = k x.
Proof.
  intros E. unfold bind. rewrite (kc_done _ _ tt (w_k x)) by (by apply chDbgCheck_ok). cbn. by rewrite set_w_k_id.
Qed.
End Bus.

(** ** A transfer *)

Section Transfer.
Context `{Config} {D : Type} `{SpiEnv D} `{SpiHw D} (spip : Z) (p : port) (own : Z -> Prop).
Variables (idle : tid) (J : kdata_t -> Prop) (t : tid) (ml : list mid).
Hypothesis port_p : port_of spip = Some p.
Hypothesis hw_ok : hw_law.
Hypothesis not_idle : t <> idle.
Implicit Types (x : spiw D) (c : SPIConfig) (tr : transfer).

Abbreviation wtotal := (ototal (wgrd idle J) (wrely spip p own idle J t)).

Definition run_transfer tr : M (spiw D) unit :=
  match tr with
  | T_ignore n => spiIgnore spip n
  | T_exchange n txbuf rxbuf => spiExchange spip n txbuf rxbuf
  | T_send n txbuf => spiSend spip n txbuf
  | T_receive n rxbuf => spiReceive spip n rxbuf
  end.

(** Frames of a number that fits in the register, to and from buffers. *)
Record valid c tr : Prop := {
  v_n : 0 < t_n tr < 2^16;
  v_tx : t_tx tr <> Some 0;
  v_rx : t_rx tr <> Some 0;
  v_apart : buffers_apart (fsize c) tr
}.

(** The programming of the two streams. *)
Definition program (i a n mode : Z) (d : dmast) : dmast :=
  dmaStreamSetMode i mode (dmaStreamSetTransactionSize i n (dmaStreamSetMemory0 i a d)).
Definition arm c tr (d : dmast) : dmast :=
  let rxmode := if t_rx tr is Some _ then Z.lor (rx_bits p c) STM32_DMA_CR_MINC else rx_bits p c in
  let txmode := if t_tx tr is Some _ then Z.lor (tx_bits p c) STM32_DMA_CR_MINC else tx_bits p c in
  dmaStreamEnable (po_tx p) (dmaStreamEnable (po_rx p)
    (program (po_tx p) (addr (t_tx tr) dummytx) (t_n tr) txmode
      (program (po_rx p) (addr (t_rx tr) dummyrx) (t_n tr) rxmode d))).

Lemma upd_stream_PAR i f d j : (forall r, PAR (f r) = PAR r) -> PAR (d_stream (upd_stream i f d) j) = PAR (d_stream d j).
Proof. intros Hf. rewrite upd_stream_at. case_decide; [by subst|done]. Qed.

Lemma arm_frame c tr d : exists S, arm c tr d = set_stream S d /\
  (forall i, PAR (S i) = PAR (d_stream d i)).
Proof.
  eexists. split; [reflexivity|]. intros i.
  change (PAR (d_stream (arm c tr d) i) = PAR (d_stream d i)).
  unfold arm, program, dmaStreamEnable, dmaStreamSetMode, dmaStreamSetTransactionSize, dmaStreamSetMemory0.
  by rewrite !upd_stream_PAR.
Qed.

Lemma arm_armed c tr d :
  PAR (d_stream d (po_rx p)) = DR (po_spi p) -> PAR (d_stream d (po_tx p)) = DR (po_spi p) -> armed p c tr (arm c tr d).
Proof.
  intros E1 E2. destruct (port_streams _ _ port_p) as (_ & _ & Hne).
  unfold armed, arm, program. cbn. repeat (rewrite ?fn_insert_eq, ?fn_insert_ne by done; cbn).
  unfold set_CR, set_NDTR, set_M0AR. cbn. rewrite E1, E2. destruct (t_rx tr), (t_tx tr); cbn; rewrite ?Z.lor_0_r; done.
Qed.

(** The state in which the thread goes to sleep. *)
Definition active_st x : spiw D := set_w_spi (<[spip := set_spi_state SPI_ACTIVE (w_spi x spip)]> (w_spi x)) x.
Definition waiting_st c tr x : spiw D :=
  let x := active_st x in
  let x := set_w_dma (arm c tr (w_dma x)) x in
  set_w_spi (<[spip := set_spi_thread (Some t) (w_spi x spip)]> (w_spi x)) x.

Lemma lld_start_eq c tr x :
  w_spi x spip = mkSPI SPI_ACTIVE (Some c) None (spi_mutex (w_spi x spip)) (po_spi p) (po_rx p) (po_tx p)
                   (rx_bits p c) (tx_bits p c) ->
  match tr with
  | T_ignore n => spi_lld_ignore spip n
  | T_exchange n txbuf rxbuf => spi_lld_exchange spip n txbuf rxbuf
  | T_send n txbuf => spi_lld_send spip n txbuf
  | T_receive n rxbuf => spi_lld_receive spip n rxbuf
  end x = Done tt (set_w_dma (arm c tr (w_dma x)) x).
Proof.
  intros E. destruct tr; unfold spi_lld_ignore, spi_lld_exchange, spi_lld_send, spi_lld_receive,
    program_stream, dma, on_dma, bind, the_spi, gets, modify; cbn [obind dma_o]; by rewrite E.
Qed.

Lemma wait_eq x :
  spi_thread (w_spi x spip) = None -> k_curr (w_k x) = t ->
  _spi_wait_s spip x = kc (chSchGoSleepS THD_STATE_SUSPENDED)
    (set_w_spi (<[spip := set_spi_thread (Some t) (w_spi x spip)]> (w_spi x)) x).
Proof.
  intros E Ec. unfold _spi_wait_s, bind, the_spi, gets. cbn [obind].
  rewrite (kc_done (chDbgAssert _ _) x tt (w_k x)) by (apply chDbgAssert_ok; by rewrite bool_decide_eq_true_2).
  cbn [obind]. rewrite set_w_k_id. unfold chThdSelf, currp, gets, kc. cbn [obind kc_o]. rewrite set_w_k_id, Ec. done.
Qed.


Lemma no_callback_step {A} c msg (k : M (spiw D) A) x :
  spi_config (w_spi x spip) = Some c -> end_cb c = None -> (assert_no_callback spip msg ;;; k) x = k x.
Proof.
  intros E Ec. unfold assert_no_callback, bind, the_config. rewrite E. cbn [obind].
  rewrite (kc_done (chDbgAssert _ _) x tt (w_k x)) by (apply chDbgAssert_ok; by rewrite bool_decide_eq_true_2).
  cbn. by rewrite set_w_k_id.
Qed.

(** A transfer up to the sleep. *)
Lemma run_transfer_eq c tr x :
  running idle J t ml x -> bus spip p SPI_READY None c x -> end_cb c = None -> valid c tr ->
  exists s, Sst idle J t ml s /\
    run_transfer tr x =
      (kc (chSchGoSleepS THD_STATE_SUSPENDED) ;;; kc chSysUnlock) (waiting_st c tr (set_w_k s x)).
Proof.
  intros Hr Hb Hcb [Hn Htx Hrx _].
  assert (forall (chk : bool) m1 m2 m3 (start : M (spiw D) unit), chk = true ->
    start = match tr with
            | T_ignore n => spiStartIgnoreI spip n
            | T_exchange n txbuf rxbuf => spiStartExchangeI spip n txbuf rxbuf
            | T_send n txbuf => spiStartSendI spip n txbuf
            | T_receive n rxbuf => spiStartReceiveI spip n rxbuf
            end ->
    exists s, Sst idle J t ml s /\
      (kc (chDbgCheck chk m1) ;;; kc chSysLock ;;; assert_state spip ready m2 ;;; assert_no_callback spip m3 ;;;
       start ;;; _spi_wait_s spip ;;; kc chSysUnlock) x =
      (kc (chSchGoSleepS THD_STATE_SUSPENDED) ;;; kc chSysUnlock) (waiting_st c tr (set_w_k s x))) as Hgen.
  { intros chk m1 m2 m3 start -> ->. rewrite check_step by done.
    destruct (lock_step idle J t ml x Hr) as (s & HS & El). exists s. split; [done|]. rewrite El.
    rewrite assert_step by (cbn; by rewrite (b_drv _ _ _ _ _ _ Hb)).
    erewrite no_callback_step; [|cbn; by rewrite (b_drv _ _ _ _ _ _ Hb)|done].
    pose proof (lld_start_eq c tr (active_st (set_w_k s x))) as Hl.
    unfold bind at 1.
    assert (match tr with
            | T_ignore n => spiStartIgnoreI spip n
            | T_exchange n txbuf rxbuf => spiStartExchangeI spip n txbuf rxbuf
            | T_send n txbuf => spiStartSendI spip n txbuf
            | T_receive n rxbuf => spiStartReceiveI spip n rxbuf
            end (set_w_k s x) = Done tt (set_w_dma (arm c tr (w_dma x)) (active_st (set_w_k s x)))) as ->.
    { destruct tr; apply Hl; cbn; rewrite fn_insert_eq, (b_drv _ _ _ _ _ _ Hb); done. }
    cbn [obind]. unfold bind at 1. rewrite wait_eq; [done| |].
    - cbn. by rewrite fn_insert_eq, (b_drv _ _ _ _ _ _ Hb).
    - cbn. by destruct HS as [(_ & _ & ? & _) _]. }
  destruct tr; cbn in *; apply Hgen; try done; rewrite ?andb_true_iff, ?negb_true_iff, ?Z.ltb_lt, ?Z.eqb_neq;
    split_and?; try lia; naive_solver.
Qed.

(** The sleep, and what is found after it. *)
Lemma total_sleep x (Q : unit -> spiw D -> Prop) :
  spi_thread (w_spi x spip) = Some t -> Sst idle J t ml (w_k x) ->
  (forall x', Sst idle J t ml (w_k x') -> keeps spip p own (finish p spip x) x' -> Q tt x') ->
  wtotal Q (kc (chSchGoSleepS THD_STATE_SUSPENDED) x).
Proof.
  intros Hth HS HQ. pose proof HS as [(HI & [_ Hub] & Hc & HL & _) _].
  pose proof (chSchGoSleepS_rule idle J t ml THD_STATE_SUSPENDED (fun s => s) (w_k x)
    (fun _ s => Sst idle J t ml s) (Mst_weak idle J t ml _ (proj1 HS)) not_idle) as Hsl.
  destruct (idle_ready idle (w_k x) HI) as (n & l & Hq); [by rewrite Hc|].
  specialize (Hsl ltac:(apply sleeper_id; try done; by rewrite Hc) ltac:(by intros s' HS' _)). cbn beta in Hsl.
  unfold kc. rewrite (chSchGoSleepS_eq (w_k x) _ n l HL Hq) in *. destruct Hsl as [HG Hk].
  cbn. split; [exact HG|]. intros x' [HR Hkp]. cbn in Hkp. rewrite Hth in Hkp.
  rewrite set_w_k_id. apply HQ; [by apply Hk|]. destruct Hkp. by split.
Qed.

(** ** The end of a transfer *)

Definition ended_dma (d : dmast) : dmast :=
  dmaStreamDisable (po_rx p) (dmaStreamDisable (po_tx p) (dmaStreamClearInterrupt (po_rx p)
    (stream_done (po_rx p) (stream_done (po_tx p) d)))).

Lemma disable_frame i d : exists S I, dmaStreamDisable i d = set_isr I (set_stream S d) /\ (forall j, PAR (S j) = PAR (d_stream d j)).
Proof.
  eexists _, _. split; [reflexivity|]. intros j. cbn. rewrite fn_insert_dec. case_decide; by subst.
Qed.

Lemma stream_done_frame i d : exists S I, stream_done i d = set_isr I (set_stream S d) /\ (forall j, PAR (S j) = PAR (d_stream d j)).
Proof.
  eexists _, _. split; [reflexivity|]. intros j. cbn. rewrite fn_insert_dec. case_decide; by subst.
Qed.

Lemma ended_frame d : exists S I, ended_dma d = set_isr I (set_stream S d) /\ (forall j, PAR (S j) = PAR (d_stream d j)).
Proof.
  unfold ended_dma. destruct (stream_done_frame (po_tx p) d) as (S1 & I1 & -> & E1).
  destruct (stream_done_frame (po_rx p) (set_isr I1 (set_stream S1 d))) as (S2 & I2 & -> & E2).
  match goal with |- context [dmaStreamDisable (po_tx p) ?d2] => destruct (disable_frame (po_tx p) d2) as (S3 & I3 & -> & E3) end.
  match goal with |- context [dmaStreamDisable (po_rx p) ?d2] => destruct (disable_frame (po_rx p) d2) as (S4 & I4 & -> & E4) end.
  exists S4, I4. split; [done|]. intros j. rewrite E4. cbn. rewrite E3. cbn. rewrite E2. cbn. apply E1.
Qed.

Lemma ended_flags d i : i = po_rx p \/ i = po_tx p -> stream_flags i (ended_dma d) = 0.
Proof.
  destruct (port_streams _ _ port_p) as (_ & _ & Hne).
  intros [-> | ->]; unfold ended_dma at 1, dmaStreamDisable at 1; rewrite clear_interrupt_spec.
  - by rewrite decide_True.
  - rewrite decide_False by done.
    match goal with |- stream_flags _ (upd_stream _ _ ?e) = 0 => change (stream_flags (po_tx p) e = 0) end.
    unfold dmaStreamDisable. rewrite clear_interrupt_spec. by rewrite decide_True.
Qed.

(** The bits of a stream that [dmaStreamDisable()] clears. *)
Definition enable_bits : Z := 0x1F.

Lemma disabled_stream i j d :
  d_stream (dmaStreamDisable i d) j =
    if decide (i = j) then set_CR (Z.ldiff (CR (d_stream d j)) enable_bits) (d_stream d j) else d_stream d j.
Proof. cbn. rewrite fn_insert_dec. case_decide; by subst. Qed.

Lemma ended_disabled d i : i = po_rx p \/ i = po_tx p -> Z.land (CR (d_stream (ended_dma d) i)) enable_bits = 0.
Proof.
  destruct (port_streams _ _ port_p) as (_ & _ & Hne).
  assert (forall v, Z.land (Z.ldiff v enable_bits) enable_bits = 0) as Hz.
  { intros v. apply Z.bits_inj_0. intros b. rewrite Z.land_spec, Z.ldiff_spec. destruct (Z.testbit enable_bits b); by rewrite ?andb_false_r. }
  intros [-> | ->]; unfold ended_dma; rewrite !disabled_stream; [rewrite decide_True by done; apply Hz|].
  rewrite decide_False, decide_True by done. apply Hz.
Qed.

Lemma finish_eq c tr x :
  w_reg x (po_spi p) = started_regs c -> armed p c tr (w_dma x) -> valid c tr ->
  finish p spip x =
    let x := set_w_dma (ended_dma (w_dma x))
        (set_w_mem (rx_store (fsize c) (t_rx tr) (answers p c tr (w_mem x) (w_dev x)).1 (w_mem x))
          (set_w_dev (answers p c tr (w_mem x) (w_dev x)).2 x)) in
    let x := set_w_spi (<[spip := set_spi_state SPI_READY (w_spi x spip)]> (w_spi x)) x in
    set_w_spi (<[spip := set_spi_thread None (w_spi x spip)]> (w_spi x)) x.
Proof.
  intros Hreg Ha [Hn _ _ Hap]. unfold finish, hw_run. rewrite Hreg. by rewrite (hw_ok spip p c tr).
Qed.

Lemma finish_bus c tr x :
  bus spip p SPI_ACTIVE (Some t) c x -> armed p c tr (w_dma x) -> valid c tr -> bus spip p SPI_READY None c (finish p spip x).
Proof.
  intros [B1 B2 (B3 & B4 & B5 & B6) (B7 & B8 & B9 & B10) B11] Ha Hv. rewrite (finish_eq c tr) by done.
  pose proof (ended_flags (w_dma x) (po_rx p) (or_introl eq_refl)) as F1.
  pose proof (ended_flags (w_dma x) (po_tx p) (or_intror eq_refl)) as F2.
  destruct (ended_frame (w_dma x)) as (S & I & E & EP). rewrite E in *.
  split; cbn [w_spi w_reg w_dma set_w_spi set_w_dma set_w_mem set_w_dev].
  - rewrite !fn_insert_eq, B1. done.
  - done.
  - split_and!; [done|done| |done]. cbn. by rewrite EP.
  - split_and!; [done|done| |done]. cbn. by rewrite EP.
  - destruct B11. by split.
Qed.

Lemma waiting_bus c tr s x :
  bus spip p SPI_READY None c x ->
  bus spip p SPI_ACTIVE (Some t) c (waiting_st c tr (set_w_k s x)) /\
  armed p c tr (w_dma (waiting_st c tr (set_w_k s x))).
Proof.
  intros [B1 B2 (B3 & B4 & B5 & B6) (B7 & B8 & B9 & B10) B11]. split; [|by apply arm_armed].
  unfold waiting_st. cbn. destruct (arm_frame c tr (w_dma x)) as (S & E & EP). rewrite E.
  split; cbn.
  - rewrite !fn_insert_eq, B1. done.
  - done.
  - split_and!; [done|done| |done]. by rewrite EP.
  - split_and!; [done|done| |done]. by rewrite EP.
  - destruct B11. by split.
Qed.

(** A whole transfer. *)
Lemma transfer_total c tr x :
  running idle J t ml x -> bus spip p SPI_READY None c x -> end_cb c = None -> valid c tr ->
  wtotal (fun _ x' => running idle J t ml x' /\ bus spip p SPI_READY None c x' /\
      (forall a, own a -> w_mem x' a = rx_store (fsize c) (t_rx tr) (answers p c tr (w_mem x) (w_dev x)).1 (w_mem x) a) /\
      w_dev x' = (answers p c tr (w_mem x) (w_dev x)).2) (run_transfer tr x).
Proof.
  intros Hr Hb Hcb Hv. destruct (run_transfer_eq c tr x Hr Hb Hcb Hv) as (s & HS & ->).
  destruct (waiting_bus c tr s x Hb) as [Hw Ha]. pose proof (finish_bus c tr _ Hw Ha Hv) as Hf.
  eapply ototal_bind; [apply (total_sleep _ (fun _ x' => Sst idle J t ml (w_k x') /\
    keeps spip p own (finish p spip (waiting_st c tr (set_w_k s x))) x'));
      [by rewrite (b_drv _ _ _ _ _ _ Hw)|done|by split]|].
  intros [] x1 [HS1 Hk1]. pose proof (keeps_bus _ _ _ _ _ _ _ _ Hk1 Hf) as Hb1.
  apply (total_unlock spip p own idle J t ml); [by rewrite (b_drv _ _ _ _ _ _ Hb1)|done|].
  intros x2 Hr2 Hk2. pose proof (keeps_trans _ _ _ _ _ _ Hk1 Hk2) as Hk. split; [done|].
  split; [by apply (keeps_bus _ _ _ _ _ _ _ _ Hk2)|].
  rewrite (finish_eq c tr) in Hk by (done || apply Hw). destruct Hk as [_ _ _ _ Hm Hd]. split; [|done].
  intros a Ha'. by rewrite Hm.
Qed.
End Transfer.

(** ** The interrupt at the end of a transfer *)

(** A kernel function whose last action is to release the lock. *)
Lemma kc_suspend {D A} (m : M kstate A) (x : spiw D) w a s :
  m (w_k x) = Suspend w s (fun y => Done a y) -> oeq (kc m x) (Suspend w (set_w_k s x) (fun y => Done a y)).
Proof. unfold kc. intros ->. cbn. constructor. intros y. by destruct y. Qed.

Lemma kc_o_set_k {D A} (x : spiw D) s (o : outcome kstate A) : kc_o (set_w_k s x) o = kc_o x o.
Proof. by destruct o. Qed.

Lemma oeq_eq_trans {S A} (o1 o2 o3 : outcome S A) : oeq o1 o2 -> o2 = o3 -> oeq o1 o3.
Proof. by intros ? <-. Qed.

(** Kernel functions one after the other. *)
Lemma kc_bind {D A B} (m : M kstate A) (f : A -> M kstate B) (x : spiw D) :
  oeq (bind (kc m) (fun a => kc (f a)) x) (kc (bind m f) x).
Proof.
  unfold bind, kc. generalize (m (w_k x)). intros o. revert x. induction o as [a s|w s k IH|e]; intros x; cbn.
  - rewrite kc_o_set_k. reflexivity.
  - constructor. intros x'. apply IH.
  - reflexivity.
Qed.

Lemma stream_done_flags i j d :
  stream_flags j (stream_done i d) = if decide (i = j) then Z.lor (stream_flags j d) 0x20 else stream_flags j d.
Proof.
  rewrite !stream_flags_mask. unfold stream_done. cbn [d_isr set_isr upd_stream set_stream]. rewrite fn_insert_dec.
  destruct (decide (isr_reg i = isr_reg j)) as [E|N].
  - rewrite E. pose proof (ishift_nonneg j). destruct (decide (i = j)) as [->|Hne].
    + rewrite Z.land_lor_distr_l, Z.shiftr_lor. f_equal. rewrite <-Z.shiftl_land, Z.shiftr_shiftl_l, Z.sub_diag by done.
      by vm_compute.
    + assert (i mod 4 <> j mod 4) as Hm.
      { intros Em. apply Hne. unfold isr_reg in E. rewrite (Z.div_mod i 4), (Z.div_mod j 4) by lia. lia. }
      rewrite Z.land_lor_distr_l, Z.shiftr_lor.
      replace (Z.land (Z.shiftl 32 (ishift i)) (Z.shiftl STM32_DMA_ISR_MASK (ishift j))) with 0; [by rewrite Z.shiftr_0_l, Z.lor_0_r|].
      pose proof (ishift_sep i j Hm) as Hs. symmetry. apply Z.bits_inj_0. intros b.
      assert (Z.testbit (Z.land (Z.shiftl STM32_DMA_ISR_MASK (ishift i)) (Z.shiftl STM32_DMA_ISR_MASK (ishift j))) b = false) as Hb
        by (rewrite Hs; apply Z.testbit_0_l).
      rewrite Z.land_spec in *. destruct (Z.testbit (Z.shiftl 32 (ishift i)) b) eqn:E32; [|done].
      assert (Z.testbit (Z.shiftl STM32_DMA_ISR_MASK (ishift i)) b = true) as E2; [|by rewrite E2 in Hb].
      destruct (Z_lt_dec b 0) as [|Hb0]; [by rewrite Z.testbit_neg_r in E32 by done|].
      rewrite Z.shiftl_spec in * by lia. revert E32. generalize (b - ishift i). intros k.
      change STM32_DMA_ISR_MASK with (Z.lor 29 32). rewrite Z.lor_spec. intros ->. by rewrite orb_true_r.
  - rewrite decide_False; [done|]. by intros ->.
Qed.

Section Interrupt.
Context `{Config} {D : Type} `{SpiEnv D} `{SpiHw D} (spip : Z) (p : port) (idle t : tid).
Hypothesis port_p : port_of spip = Some p.
Hypothesis hw_ok : hw_law.
Implicit Types (x : spiw D) (c : SPIConfig) (tr : transfer) (s : kstate).

(** A thread that sleeps in no queue is made ready by a handler. *)
Lemma isr_ready s :
  isr_out s -> KInv idle None s -> p_state (k_thd s t) = THD_STATE_SUSPENDED ->
  exists s', (chSysLockFromIsr ;;; chSchReadyI t ;;; chSysUnlockFromIsr) s = Suspend AtUnlock s' (fun y => Done tt y) /\
    isr_out s' /\ KInv idle None s' /\ k_curr s' = k_curr s /\ t ∈ k_q s' QReady /\
    forall u, k_thd s' u = if decide (t = u) then set_p_state THD_STATE_READY (k_thd s u) else k_thd s u.
Proof.
  intros Ho HI Ht. destruct (lock_isr s Ho) as [E1 Hi].
  destruct (with_lock_fields 1 s) as (F1 & F2 & F3 & _).
  assert (KInv idle (Some t) (with_lock 1 s)) as HF.
  { apply KInv_lock, float_intro; try done.
    - unfold home. by rewrite Ht.
    - intros ->. pose proof (i_cur _ _ _ HI). congruence.
    - by rewrite Ht.
    - intros u. apply (inv_not_waiting idle); [done|by rewrite Ht]. }
  destruct (chSchReadyI_ok idle (with_lock 1 s) t) as [E2 HI2]; [by apply isr_in_I|done|by rewrite F1, Ht|].
  assert (isr_in (ready_st t (with_lock 1 s))) as Hi2 by exact Hi.
  destruct (unlock_isr _ Hi2) as [E3 Ho3]. destruct (with_lock_fields 0 (ready_st t (with_lock 1 s))) as (G1 & G2 & G3 & _).
  exists (with_lock 0 (ready_st t (with_lock 1 s))). split_and!.
  - unfold bind. rewrite E1. cbn [obind]. rewrite E2. cbn [obind]. by apply unlock_isr_eq.
  - done.
  - by apply KInv_lock.
  - rewrite G3. cbn. exact F3.
  - rewrite G2. cbn. rewrite fn_insert_eq.
    apply (elem_of_Permutation_proper t _ _ (Lst.prio_ins_perm _ _ _)). by left.
  - intros u. rewrite G1. cbn. rewrite fn_insert_dec, F1. case_decide; by subst.
Qed.

Lemma serve_ok c tr x :
  bus spip p SPI_ACTIVE (Some t) c x -> armed p c tr (w_dma x) -> end_cb c = None -> valid c tr ->
  isr_out (w_k x) -> KInv idle None (w_k x) -> p_state (k_thd (w_k x) t) = THD_STATE_SUSPENDED ->
  exists s, oeq (dma_serve (po_rx p) (hw_run p x)) (Suspend AtUnlock (set_w_k s (finish p spip x)) (fun y => Done tt y)) /\
    isr_out s /\ KInv idle None s /\ k_curr s = k_curr (w_k x) /\ t ∈ k_q s QReady /\
    forall u, k_thd s u = if decide (t = u) then set_p_state THD_STATE_READY (k_thd (w_k x) u) else k_thd (w_k x) u.
Proof.
  intros Hb Ha Hcb Hv Ho HI Ht. destruct (isr_ready (w_k x) Ho HI Ht) as (s & Es & Hs). exists s. split; [|done].
  destruct Hb as [B1 B2 (B3 & B4 & B5 & B6) (B7 & B8 & B9 & B10) B11].
  pose proof (port_streams _ _ port_p) as (_ & _ & Hne).
  rewrite (finish_eq spip p port_p hw_ok c tr) by done.
  unfold hw_run. rewrite B2, (hw_ok spip p c tr) by (done || apply Hv).
  set (m := rx_store _ _ _ _). set (v := (answers _ _ _ _ _).2).
  set (d1 := stream_done (po_rx p) (stream_done (po_tx p) (w_dma x))).
  assert (stream_flags (po_rx p) d1 = 0x20) as Hf.
  { unfold d1. rewrite !stream_done_flags, decide_True, decide_False by done. by rewrite B6. }
  unfold dma_serve, bind at 1, gets. cbn [obind w_dma set_w_dma fst snd]. rewrite Hf.
  unfold bind at 1, dma, on_dma, modify. cbn [obind dma_o w_dma set_w_dma].
  unfold bind at 1, gets. cbn [obind w_dma set_w_dma].
  change (dma_isr_redir (dmaStreamClearInterrupt (po_rx p) d1) (po_rx p)) with (dma_isr_redir (w_dma x) (po_rx p)).
  rewrite B4. cbn [dma_func]. unfold spi_lld_serve_rx_interrupt.
  unfold bind at 1. change (dma_error_hook 32 ?y) with (Done (S := spiw D) tt y). cbn [obind].
  unfold bind at 1, the_spi, gets. cbn [obind]. cbn [w_spi set_w_dma set_w_mem set_w_dev]. rewrite B1. cbn [spi_dmatx spi_dmarx].
  unfold bind at 1, dma, on_dma, modify. cbn [obind dma_o w_dma set_w_dma].
  unfold bind at 1, dma, on_dma, modify. cbn [obind dma_o w_dma set_w_dma].
  unfold _spi_isr_code, bind at 1, the_config. cbn [w_spi set_w_dma set_w_mem set_w_dev]. rewrite B1. cbn [spi_config obind].
  rewrite Hcb. unfold bind at 1, upd_spi, modify. cbn [obind]. unfold _spi_wakeup_isr, bind at 1, the_spi, gets.
  cbn [obind w_spi set_w_spi set_w_dma set_w_mem set_w_dev]. rewrite !fn_insert_eq, B1. cbn [spi_thread set_spi_state].
  unfold bind at 1, upd_spi, modify. cbn [obind].
  set (y := set_w_spi _ _).
  etrans; [|eapply oeq_eq_trans; [by apply (kc_suspend (chSysLockFromIsr ;;; chSchReadyI t ;;; chSysUnlockFromIsr) y AtUnlock tt s)|]].
  2: { f_equal. unfold y. cbn [w_spi set_w_spi set_w_dma set_w_mem set_w_dev]. by rewrite !fn_insert_eq. }
  etrans; [|apply kc_bind]. unfold bind at 1. unfold bind at 2.
  apply obind_proper; [reflexivity|]. intros [] z. apply kc_bind.
Qed.
End Interrupt.
