(* ===== verification/SpiThm.v ===== *)
(** * SPI driver: main theorems

    A bus starts, stops and selects its device in any order; a transfer returns
    when its interrupt was served, with the answers of the device in the buffer,
    whatever the other threads do meanwhile; the interrupt at the end of a
    transfer wakes the thread that waits for it. *)
From S2P Require Import Prelude Monad Types ThdLists Sched Mtx Threads Sys Dma Spi.
From S2P Require Import Inv InvPrim InvSched Rules Wake TickOK Total Scenario DataThm SpiOK.

(** ** Starting and stopping *)

Lemma port_cases spip p : port_of spip = Some p ->
  (spip = SPID1 /\ p = mkPort SPI1 8 11 3 3) \/ (spip = SPID2 /\ p = mkPort SPI2 3 4 0 0).
Proof.
  unfold port_of. destruct (Z.eqb_spec spip SPID1); [intros [= <-]; by left|].
  destruct (Z.eqb_spec spip SPID2); [intros [= <-]; by right|done].
Qed.

Lemma modes_unsized spip p c : port_of spip = Some p ->
  Z.ldiff (rx_bits p c) STM32_DMA_CR_SIZE_MASK = rx_mode (po_rxch p) /\
  Z.ldiff (tx_bits p c) STM32_DMA_CR_SIZE_MASK = tx_mode (po_txch p).
Proof.
  intros [[_ ->]|[_ ->]]%port_cases; unfold rx_bits, tx_bits, size_bits; by destruct (_ =? 0); vm_compute.
Qed.

Section Life.
Context `{Config} {D : Type} `{SpiEnv D} `{SpiHw D} (spip : Z) (p : port) (own : Z -> Prop).
Variables (idle : tid) (J : kdata_t -> Prop) (t : tid) (ml : list mid).
Hypothesis port_p : port_of spip = Some p.
Implicit Types (x : spiw D) (c : SPIConfig).

Abbreviation wtotal := (ototal (wgrd idle J) (wrely spip p own idle J t)).

Lemma take_stream_ok i f msg x :
  0 <= i < 16 -> dma_ok (w_dma x) -> ~ in_use (w_dma x) i ->
  exists d, take_stream i f spip msg x = Done tt (set_w_dma d x) /\ dma_ok d /\ in_use d i /\
    other_streams i (w_dma x) d /\ stream_flags i d = 0 /\ dma_isr_redir d i = Some (f, spip).
Proof.
  intros Hi Hok Hn. destruct (allocate_eq i STM32_SPI_IRQ_PRIORITY (Some f) spip (w_dma x) Hi Hok Hn)
    as (d & E & Hok' & Em & Hoth & _ & Hfl & Hre & _).
  exists d. unfold take_stream. rewrite E. cbn [fst snd]. split_and!; try done.
  - rewrite (kc_done _ _ tt (w_k x)) by (by apply chDbgAssert_ok). by destruct x.
  - unfold in_use. rewrite Em, Z.lor_spec, testbit_bit by lia. rewrite bool_decide_eq_true_2 by done. apply orb_true_r.
Qed.

(** The two streams of a bus that is started. *)
Definition streams_ready (d : dmast) : Prop :=
  (in_use d (po_rx p) /\ dma_isr_redir d (po_rx p) = Some (spi_lld_serve_rx, spip) /\ stream_flags (po_rx p) d = 0) /\
  (in_use d (po_tx p) /\ dma_isr_redir d (po_tx p) = Some (spi_lld_serve_tx, spip) /\ stream_flags (po_tx p) d = 0) /\
  dma_ok d.

Lemma take_streams_ok oc msg1 msg2 x :
  bus_stopped spip p oc x ->
  exists d, take_streams spip msg1 msg2 x = Done tt (set_w_clk (<[spip := true]> (w_clk x)) (set_w_dma d x)) /\
    streams_ready d.
Proof.
  intros [_ _ _ (_ & Erx & Etx) _ [Hf1 Hf2] Hok]. destruct (port_streams _ _ port_p) as (R1 & R2 & Hne).
  unfold take_streams, bind at 1, the_spi, gets. cbn [obind]. rewrite Erx, Etx.
  destruct (take_stream_ok (po_rx p) spi_lld_serve_rx msg1 x R1 Hok Hf1) as (d1 & E1 & Hok1 & Hu1 & Ho1 & Hfl1 & Hr1).
  unfold bind at 1. rewrite E1. cbn [obind].
  destruct (Ho1 (po_tx p)) as (U1 & _); [done|].
  destruct (take_stream_ok (po_tx p) spi_lld_serve_tx msg2 (set_w_dma d1 x) R2 Hok1) as (d2 & E2 & Hok2 & Hu2 & Ho2 & Hfl2 & Hr2).
  { by rewrite U1. }
  unfold bind at 1. rewrite E2. cbn [obind]. exists d2. split; [done|].
  destruct (Ho2 (po_rx p) Hne) as (V1 & _ & V3 & _ & V5). cbn in V1, V3, V5.
  split_and!; try done; [by apply V1|by rewrite V3|by rewrite V5].
Qed.

Lemma take_bus_ok oc x :
  bus_stopped spip p oc x ->
  exists d, take_bus spip x = Done tt (set_w_clk (<[spip := true]> (w_clk x)) (set_w_dma d x)) /\ streams_ready d.
Proof.
  intros Hs. unfold take_bus. destruct (port_cases _ _ port_p) as [[E _]|[E _]]; rewrite E; cbn [Z.eqb SPID1 SPID2 Pos.eqb]; rewrite <-E.
  - destruct (take_streams_ok oc "spi_lld_start(), #1" "spi_lld_start(), #2" x Hs) as (d & Et & Hd).
    exists d. unfold bind. by rewrite Et.
  - by apply (take_streams_ok oc).
Qed.

(** A bus that can be started, and the configuration written to it. *)
Definition startable x : Prop := (exists oc, bus_stopped spip p oc x) \/ (exists c, bus spip p SPI_READY None c x).
Definition reconfig c x : spiw D := set_w_spi (<[spip := set_spi_config (Some c) (w_spi x spip)]> (w_spi x)) x.

Lemma reconfig_stopped c oc x : bus_stopped spip p oc x -> bus_stopped spip p (Some c) (reconfig c x).
Proof. intros []. split; cbn; rewrite ?fn_insert_eq; done. Qed.

(** The streams of a stopped bus are taken, those of a started one kept. *)
Lemma start_streams c x0 :
  startable x0 -> let x := reconfig c x0 in
  exists x', let d := w_spi x spip in
    (whenb bool_decide (spi_state d = SPI_STOP) then
     take_bus spip ;;;
     dma (dmaStreamSetPeripheral (spi_dmarx d) (DR (spi_spi d))) ;;;
     dma (dmaStreamSetPeripheral (spi_dmatx d) (DR (spi_spi d)))) x = Done tt x' /\
    streams_ready (w_dma x') /\
    PAR (d_stream (w_dma x') (po_rx p)) = DR (po_spi p) /\ PAR (d_stream (w_dma x') (po_tx p)) = DR (po_spi p) /\
    w_k x' = w_k x /\ w_spi x' = w_spi x /\ w_mem x' = w_mem x /\ w_dev x' = w_dev x.
Proof.
  destruct (port_streams _ _ port_p) as (_ & _ & Hne).
  intros [(oc & Hs)|(c' & [B1 B2 (B3 & B4 & B5 & B6) (B7 & B8 & B9 & B10) B11])]; cbn zeta.
  2: { exists (reconfig c x0). replace (spi_state _) with SPI_READY by (cbn; by rewrite fn_insert_eq, B1). cbn. by split_and!. }
  apply (reconfig_stopped c) in Hs. generalize dependent (reconfig c x0). intros x Hs.
  pose proof Hs as [Est _ _ (E1 & E2 & E3) _ _ _]. rewrite Est, E1, E2, E3. rewrite bool_decide_eq_true_2 by done.
  destruct (take_bus_ok (Some c) x Hs) as (d & E & (R1 & R2 & R3) & (T1 & T2 & T3) & Hok).
  eexists. split; [unfold bind at 1; rewrite E; reflexivity|]. split_and!; try done.
  - split_and!; try done. by destruct Hok.
  - cbn. rewrite fn_insert_ne, fn_insert_eq by done. done.
  - cbn. by rewrite fn_insert_eq.
Qed.

(** The mode bits and registers written at the start. *)
Lemma lld_start_ok c x0 :
  startable x0 -> let x := reconfig c x0 in
  exists x', spi_lld_start spip x = Done tt x' /\
    bus spip p SPI_READY None c (set_w_spi (<[spip := set_spi_state SPI_READY (w_spi x' spip)]> (w_spi x')) x') /\
    w_k x' = w_k x /\ w_mem x' = w_mem x /\ w_dev x' = w_dev x.
Proof.
  intros Hb x. destruct (start_streams c x0 Hb) as (x1 & E1 & ((R1 & R2 & R3) & (T1 & T2 & T3) & Hok) & P1 & P2 & Ek & Es & Em & Ed).
  fold x in E1, Ek, Es, Em, Ed.
  assert (spi_config (w_spi x spip) = Some c /\
    spi_spi (w_spi x spip) = po_spi p /\ spi_dmarx (w_spi x spip) = po_rx p /\ spi_dmatx (w_spi x spip) = po_tx p /\
    spi_thread (w_spi x spip) = None /\
    Z.ldiff (spi_rxdmamode (w_spi x spip)) STM32_DMA_CR_SIZE_MASK = rx_mode (po_rxch p) /\
    Z.ldiff (spi_txdmamode (w_spi x spip)) STM32_DMA_CR_SIZE_MASK = tx_mode (po_txch p)) as (Ec & D1 & D2 & D3 & D4 & D5 & D6).
  { cbn. rewrite fn_insert_eq. cbn. destruct Hb as [(oc & [])|(c' & [B1 _ _ _ _])]; [naive_solver|].
    rewrite B1. cbn. destruct (modes_unsized spip p c' port_p). by split_and!. }
  unfold spi_lld_start, bind at 1, the_spi, gets. cbn [obind]. unfold bind at 1. rewrite E1. cbn [obind].
  unfold bind at 1, the_config. rewrite Es, Ec. cbn [obind].
  eexists. split; [reflexivity|]. cbn -[x]. split; [|done].
  split; cbn -[x].
  - rewrite !fn_insert_eq, Es. unfold set_spi_state, set_spi_modes, set_spi_hw. cbn -[x]. rewrite Ec, D1, D2, D3, D4, D5, D6.
    unfold rx_bits, tx_bits, size_bits. by destruct (_ =? 0).
  - rewrite D1, !fn_insert_eq. done.
  - by split_and!.
  - by split_and!.
  - done.
Qed.

Lemma startable_facts x : startable x ->
  spi_thread (w_spi x spip) = None /\ stop_or_ready (spi_state (w_spi x spip)) = true.
Proof.
  intros [(oc & [])|(c & [B1 _ _ _ _])]; [split; [done|]; by rewrite bs_state|]. by rewrite B1.
Qed.

(** Memory of the thread and device as they were. *)
Definition unmoved x x' : Prop := (forall a, own a -> w_mem x' a = w_mem x a) /\ w_dev x' = w_dev x.

Lemma spiStart_total c x :
  running idle J t ml x -> startable x ->
  wtotal (fun _ x' => running idle J t ml x' /\ bus spip p SPI_READY None c x' /\ unmoved x x') (spiStart spip c x).
Proof.
  intros Hr Hs. destruct (startable_facts x Hs) as [Hth Hst]. destruct (lock_step idle J t ml x Hr) as (s & HS & El).
  unfold spiStart. rewrite El, assert_step by done.
  destruct (lld_start_ok c (set_w_k s x)) as (x1 & E1 & Hb & Ek & Em & Ed).
  { destruct Hs as [(oc & [])|(c' & [])]; [left; exists oc|right; exists c']; by split. }
  unfold bind at 1, upd_spi, modify. cbn [obind]. unfold reconfig in E1. unfold bind at 1. rewrite E1. cbn [obind].
  unfold bind at 1. cbn [obind]. set (x2 := set_w_spi _ _) in *.
  apply (total_unlock spip p own idle J t ml); [by rewrite (b_drv _ _ _ _ _ _ Hb)|cbn; by rewrite Ek|].
  intros x3 Hr3 Hk. split; [done|]. split; [by apply (keeps_bus _ _ _ _ _ _ _ _ Hk)|].
  destruct Hk as [_ _ _ _ Hm Hd]. split.
  - intros a Ha. rewrite (Hm a Ha). cbn. by rewrite Em.
  - rewrite Hd. cbn. by rewrite Ed.
Qed.

(** Selecting and unselecting the device. *)
Lemma pad_total (sel : bool) c x :
  running idle J t ml x -> bus spip p SPI_READY None c x ->
  wtotal (fun _ x' => running idle J t ml x' /\ bus spip p SPI_READY None c x' /\
      (forall a, own a -> w_mem x' a = w_mem x a) /\ w_dev x' = pad_write (ssport c) (sspad c) (negb sel) (w_dev x))
    ((if sel then spiSelect spip else spiUnselect spip) x).
Proof.
  intros Hr Hb. destruct (lock_step idle J t ml x Hr) as (s & HS & El).
  set (x1 := set_w_dev (pad_write (ssport c) (sspad c) (negb sel) (w_dev x)) (set_w_k s x)).
  assert ((if sel then spiSelect spip else spiUnselect spip) x = kc chSysUnlock x1) as ->.
  { destruct sel; unfold spiSelect, spiUnselect; rewrite El, assert_step by (cbn; by rewrite (b_drv _ _ _ _ _ _ Hb));
      unfold spi_lld_select, spi_lld_unselect, bind at 1, bind at 1, the_config; cbn [w_spi set_w_k];
      by rewrite (b_drv _ _ _ _ _ _ Hb). }
  assert (bus spip p SPI_READY None c x1) as Hb1 by (by destruct Hb).
  apply (total_unlock spip p own idle J t ml); [by rewrite (b_drv _ _ _ _ _ _ Hb1)|done|].
  intros x2 Hr2 Hk. split; [done|]. split; [by apply (keeps_bus _ _ _ _ _ _ _ _ Hk)|]. by destruct Hk.
Qed.

(** Stopping, whether the bus was started or not: the device is unselected. *)
Lemma lld_stop_ok c x :
  bus spip p SPI_READY None c x ->
  exists x', spi_lld_stop spip x = Done tt x' /\
    bus_stopped spip p (Some c) (set_w_spi (<[spip := set_spi_state SPI_STOP (w_spi x' spip)]> (w_spi x')) x') /\
    w_k x' = w_k x /\ w_mem x' = w_mem x /\ w_dev x' = w_dev x.
Proof.
  intros [B1 B2 (B3 & B4 & B5 & B6) (B7 & B8 & B9 & B10) B11]. destruct (port_streams _ _ port_p) as (R1 & R2 & Hne).
  unfold spi_lld_stop, bind at 1, the_spi, gets. cbn [obind]. rewrite B1. cbn [spi_state spi_spi spi_dmarx spi_dmatx].
  rewrite bool_decide_eq_true_2 by done. unfold bind at 1, upd_reg, modify. cbn [obind].
  destruct (release_eq (po_rx p) (w_dma x) R1 B11 (or_introl B3)) as (d1 & E1 & Hok1 & M1 & Ho1 & _).
  unfold bind at 1, on_dma at 1. cbn [w_dma set_w_reg]. rewrite E1. cbn [dma_o obind].
  destruct (Ho1 (po_tx p)) as (U1 & _); [done|].
  destruct (release_eq (po_tx p) d1 R2 Hok1) as (d2 & E2 & Hok2 & M2 & Ho2 & _); [left; by apply U1|].
  unfold bind at 1, on_dma at 1. cbn [w_dma set_w_dma]. rewrite E2. cbn [dma_o obind].
  assert (~ in_use d2 (po_tx p)) as N2.
  { unfold in_use. by rewrite M2, Z.ldiff_spec, testbit_bit, bool_decide_eq_true_2, andb_false_r by (lia || done). }
  assert (~ in_use d2 (po_rx p)) as N1.
  { destruct (Ho2 (po_rx p)) as (-> & _); [done|]. unfold in_use.
    by rewrite M1, Z.ldiff_spec, testbit_bit, bool_decide_eq_true_2, andb_false_r by (lia || done). }
  destruct (modes_unsized spip p c port_p) as [F1 F2].
  assert (forall k, bus_stopped spip p (Some c) (set_w_spi (<[spip := set_spi_state SPI_STOP (w_spi x spip)]> (w_spi x))
            (set_w_clk k (set_w_dma d2 (set_w_reg (<[po_spi p := mkSpiRegs 0 0]> (w_reg x)) x))))) as Hst.
  { intros k. split; cbn; rewrite ?fn_insert_eq; try done; by rewrite B1. }
  destruct (spip =? SPID1), (spip =? SPID2); (eexists; split; [reflexivity|]; split; [apply Hst|done]).
Qed.

Lemma spiStop_total c x :
  running idle J t ml x -> bus_stopped spip p (Some c) x \/ bus spip p SPI_READY None c x ->
  wtotal (fun _ x' => running idle J t ml x' /\ bus_stopped spip p (Some c) x' /\
      (forall a, own a -> w_mem x' a = w_mem x a) /\ w_dev x' = pad_write (ssport c) (sspad c) true (w_dev x))
    (spiStop spip x).
Proof.
  intros Hr Hs. destruct (lock_step idle J t ml x Hr) as (s & HS & El).
  assert (startable x) as Hst by (destruct Hs; [left|right]; eauto). destruct (startable_facts x Hst) as [Hth Hst'].
  unfold spiStop. rewrite El, assert_step by done.
  set (x1 := set_w_dev (pad_write (ssport c) (sspad c) true (w_dev x)) (set_w_k s x)).
  unfold bind at 1. assert (spi_lld_unselect spip (set_w_k s x) = Done tt x1) as ->.
  { unfold spi_lld_unselect, bind, the_config. cbn [w_spi set_w_k].
    by assert (spi_config (w_spi x spip) = Some c) as -> by (destruct Hs as [[]|[-> _ _ _ _]]; done). }
  cbn [obind].
  assert (exists x2, spi_lld_stop spip x1 = Done tt x2 /\
    bus_stopped spip p (Some c) (set_w_spi (<[spip := set_spi_state SPI_STOP (w_spi x2 spip)]> (w_spi x2)) x2) /\
    w_k x2 = w_k x1 /\ w_mem x2 = w_mem x1 /\ w_dev x2 = w_dev x1) as (x2 & E2 & Hb2 & Ek & Em & Ed).
  { destruct Hs as [[]|[]]; [|by apply lld_stop_ok]. exists x1. split.
    - unfold spi_lld_stop, bind, the_spi, gets. cbn [obind]. change (w_spi x1 spip) with (w_spi x spip).
      by rewrite bs_state.
    - split; [|done]. split; cbn; rewrite ?fn_insert_eq; done. }
  unfold bind at 1. rewrite E2. cbn [obind]. unfold bind at 1, upd_spi, modify. cbn [obind]. set (x3 := set_w_spi _ _) in *.
  apply (total_unlock spip p own idle J t ml); [by destruct Hb2|cbn; by rewrite Ek|].
  intros x4 Hr4 Hk. split; [done|]. split; [by apply (keeps_stopped _ _ _ _ _ _ Hk)|].
  destruct Hk as [_ _ _ _ Hm Hd]. split.
  - intros a Ha. rewrite (Hm a Ha). cbn. by rewrite Em.
  - rewrite Hd. cbn. by rewrite Ed.
Qed.
End Life.

(** ** Transfers *)

(** Memory that agrees on the addresses of a thread still does after a store. *)
Lemma store_own (own : Z -> Prop) sz a v m m' :
  (forall b, own b -> m b = m' b) -> forall b, own b -> store sz a v m b = store sz a v m' b.
Proof.
  intros E b Hb. unfold store, store16. destruct (sz =? 1); rewrite !fn_insert_dec; repeat case_decide; auto.
Qed.

Lemma rx_store_own `{SpiEnv D} (own : Z -> Prop) sz buf vs : forall m m',
  (forall b, own b -> m b = m' b) -> forall b, own b -> rx_store sz buf vs m b = rx_store sz buf vs m' b.
Proof.
  destruct buf as [a|]; cbn [rx_store]; [revert a|]; induction vs as [|v vs IH]; intros; cbn; auto; apply IH; auto; by apply store_own.
Qed.

Section Transfer.
Context `{Config} {D : Type} `{SpiEnv D} `{SpiHw D}.

(** The bytes that are sent are the thread's own. *)
Definition owns_tx (own : Z -> Prop) (c : SPIConfig) (tr : transfer) : Prop :=
  forall a, in_buf (fsize c) (t_n tr) (t_tx tr) dummytx a -> own a.

Lemma tx_frames_own own c tr m m' :
  0 < t_n tr -> owns_tx own c tr -> (forall a, own a -> m a = m' a) ->
  tx_frames (fsize c) (t_tx tr) (t_n tr) m = tx_frames (fsize c) (t_tx tr) (t_n tr) m'.
Proof.
  intros Hn Ho E. unfold owns_tx in Ho. assert (fsize c = 1 \/ fsize c = 2) as Hsz by (unfold fsize; destruct (_ =? 0); auto).
  assert (forall a, (forall b, a <= b < a + fsize c -> own b) -> load (fsize c) a m = load (fsize c) a m') as Hl.
  { intros a Ha. unfold load. destruct Hsz as [Es|Es]; rewrite Es in *; cbn; rewrite (E a) by (apply Ha; lia); [done|].
    by rewrite (E (a + 1)) by (apply Ha; lia). }
  unfold tx_frames, in_buf in *. destruct (t_tx tr) as [a|]; [|by rewrite (Hl dummytx)].
  apply map_ext_in. intros i Hi%list_elem_of_In%elem_of_seqZ. apply Hl. intros b Hb. apply Ho. nia.
Qed.

(** C6: A transfer on a bus, started or not: [spiStart()] and then [spiSend()],
    [spiReceive()], [spiExchange()] or [spiIgnore()] return, whatever the other
    threads do meanwhile and however the DMA streams are programmed for others,
    where the hardware ends the transfer while the thread sleeps and its
    interrupt is served ([wrely]; the handler is a theorem below).
    The frames of the transmit buffer (or the dummy word) went to the device in
    their order, the answers are in the receive buffer, all else in the memory
    of the thread is as it was, and the bus is ready again with no thread
    waiting. *)
Theorem spi_transfer spip p own idle J t ml c tr x :
  port_of spip = Some p -> hw_law -> t <> idle ->
  Ust idle J t ml (w_k x) -> startable spip p x -> end_cb c = None -> valid c tr -> owns_tx own c tr ->
  ototal (wgrd idle J) (wrely spip p own idle J t)
    (fun _ x' => Ust idle J t ml (w_k x') /\ bus spip p SPI_READY None c x' /\
      let r := xchg_all (frame (po_spi p)) (tx_frames (fsize c) (t_tx tr) (t_n tr) (w_mem x)) (w_dev x) in
      w_dev x' = r.2 /\ forall a, own a -> w_mem x' a = rx_store (fsize c) (t_rx tr) r.1 (w_mem x) a)
    ((spiStart spip c ;;; run_transfer spip tr) x).
Proof.
  intros Hp Hhw Hid HU Hs Hcb Hv Ho.
  eapply ototal_bind; [by apply (spiStart_total spip p own idle J t ml Hp c x)|]. intros [] x1 (Hr1 & Hb1 & Hm1 & Hd1).
  eapply ototal_mono; [by apply (transfer_total spip p own idle J t ml Hp Hhw Hid c tr x1)|].
  intros [] x2 (Hr2 & Hb2 & Hm2 & Hd2). split; [done|]. split; [done|]. unfold answers in *.
  rewrite (tx_frames_own own c tr (w_mem x1) (w_mem x)), Hd1 in * by (done || apply Hv). split; [done|].
  intros a Ha. rewrite Hm2 by done. by apply (rx_store_own own).
Qed.

(** C8: The interrupt at the end of a transfer.  When the streams of a bus have
    run for a thread that sleeps, the handler of the receive stream clears the
    flags of both streams, disables them and their interrupts, sets the driver
    ready, forgets the thread and makes it ready: no wake-up is lost and no
    other thread is touched.  It releases the kernel lock once, as its last
    action, so that this is also the state other interrupts find. *)
Theorem spi_wakes spip p idle t c tr x :
  port_of spip = Some p -> hw_law ->
  bus spip p SPI_ACTIVE (Some t) c x -> armed p c tr (w_dma x) -> end_cb c = None -> valid c tr ->
  isr_out (w_k x) -> KInv idle None (w_k x) -> p_state (k_thd (w_k x) t) = THD_STATE_SUSPENDED ->
  exists x', oeq (dma_serve (po_rx p) (hw_run p x)) (Suspend AtUnlock x' (fun y => Done tt y)) /\
    bus spip p SPI_READY None c x' /\
    (forall i, i = po_rx p \/ i = po_tx p -> Z.land (CR (d_stream (w_dma x') i)) enable_bits = 0) /\
    w_dev x' = (answers p c tr (w_mem x) (w_dev x)).2 /\
    w_mem x' = rx_store (fsize c) (t_rx tr) (answers p c tr (w_mem x) (w_dev x)).1 (w_mem x) /\
    isr_out (w_k x') /\ KInv idle None (w_k x') /\ k_curr (w_k x') = k_curr (w_k x) /\ t ∈ k_q (w_k x') QReady /\
    forall u, k_thd (w_k x') u = if decide (t = u) then set_p_state THD_STATE_READY (k_thd (w_k x) u) else k_thd (w_k x) u.
Proof.
  intros Hp Hhw Hb Ha Hcb Hv Ho HI Ht.
  destruct (serve_ok spip p idle t Hp Hhw c tr x Hb Ha Hcb Hv Ho HI Ht) as (s & E & Hs).
  exists (set_w_k s (finish p spip x)). split; [done|].
  pose proof (finish_bus spip p t Hp Hhw c tr x Hb Ha Hv) as Hf.
  split; [by destruct Hf|]. rewrite (finish_eq spip p Hp Hhw c tr) by (done || apply Hb).
  split; [intros i Hi; by apply (ended_disabled spip)|]. split_and!; try done; apply Hs.
Qed.
End Transfer.

(** ** The streams of the controller

    A hardware with any devices that meets [hw_law]: it decodes the registers
    of the two streams of a bus. *)
Section Streams.
Context {D : Type} `{SpiEnv D} (dev_frame : Z -> Z -> D -> Z * D).

Definition spi_streams (spi : Z) : Z * Z := if spi =? SPI1 then (8, 11) else (3, 4).
Definition st_size (r : DMA_Stream) : Z := if Z.testbit (CR r) 13 then 2 else 1.
Definition st_load (r : DMA_Stream) (m : Z -> Z) : list Z :=
  if Z.testbit (CR r) 10 then map (fun i => load (st_size r) (M0AR r + i * st_size r) m) (seqZ 0 (NDTR r))
  else repeat (load (st_size r) (M0AR r) m) (Z.to_nat (NDTR r)).
Definition st_store (r : DMA_Stream) (vs : list Z) (m : Z -> Z) : Z -> Z :=
  if Z.testbit (CR r) 10 then store_all (st_size r) (M0AR r) vs m
  else fold_left (fun m v => store (st_size r) (M0AR r) v m) vs m.

Definition run_streams (spi : Z) (r : spiregs) (y : dmast * (Z -> Z) * D) : dmast * (Z -> Z) * D :=
  let '(d, m, v) := y in
  let (rx, tx) := spi_streams spi in
  let srx := d_stream d rx in
  let stx := d_stream d tx in
  if Z.testbit (CR1 r) 6 && Z.testbit (CR srx) 0 && Z.testbit (CR stx) 0 && (PAR srx =? DR spi) && (PAR stx =? DR spi) then
    let a := xchg_all (dev_frame spi) (st_load stx m) v in
    (stream_done rx (stream_done tx d), st_store srx a.1 m, a.2)
  else y.

Definition stream_hw : SpiHw D := {| frame := dev_frame; hw_dma := run_streams |}.

Lemma stream_hw_law : @hw_law D _ stream_hw.
Proof.
  intros spip p c tr d m v Hp [E1 E2] Hn _. cbn [hw_dma stream_hw]. unfold run_streams, answers. cbn [frame stream_hw].
  assert (Z.testbit (CR1 (started_regs c)) 6 = true) as -> by (cbn [CR1 started_regs]; rewrite Z.lor_spec; apply orb_true_r).
  set (n := t_n tr) in *. unfold tx_bits, rx_bits, size_bits in *.
  destruct (port_cases spip p Hp) as [[_ ->]|[_ ->]]; cbn [po_spi po_rx po_tx po_rxch po_txch] in *;
    cbn [spi_streams Z.eqb Pos.eqb SPI1 SPI2]; rewrite E1, E2; cbn [CR PAR NDTR M0AR FCR]; rewrite !Z.eqb_refl;
    unfold st_load, st_store, st_size, fsize; cbn [CR NDTR M0AR]; fold n;
    destruct (Z.land (cr1 c) SPI_CR1_DFF =? 0), (t_rx tr), (t_tx tr); reflexivity.
Qed.
End Streams.

(** ** An example

    A device that answers a byte with the next one and remembers what it got. *)
#[local] Existing Instance app_config.
#[local] Instance demo_env : SpiEnv (list Z) := {|
  pad_write := fun _ _ _ v => v;
  spi_dr_write := fun _ b v => v ++ [b];
  spi_sr_read := fun _ v => (SPI_SR_RXNE, v);
  spi_dr_read := fun _ v => (0, v);
  dummytx := 0x1000;
  dummyrx := 0x1002;
  spi_callback := fun _ _ => mret' tt;
  dma_client := fun _ _ _ => mret' tt
|}.
#[local] Instance demo_hw : SpiHw (list Z) := stream_hw (fun _ b v => (u8 (b + 1), v ++ [b])).

(** Threads: [st] is the state of thread 1, which uses the bus. *)
Definition demo_spi (curr : tid) (st0 st1 : tstate) : scenario := {|
  sc_curr := curr;
  sc_thd := [ (0, mk_thd 1 1 st0 (U_msg 0) []); (1, mk_thd 64 64 st1 (U_msg 0) []) ];
  sc_q := if decide (st0 = THD_STATE_READY) then [ (QReady, [0]) ] else [];
  sc_sem := []; sc_mtx := [];
  sc_data := blank
|}.
Definition demo_cfg : SPIConfig := mkSPIConfig None 1 4 0.
Definition demo_mem (a : Z) : Z := if a =? 0x1000 then 0xFF else if a =? 0x2000 then 5 else if a =? 0x2001 then 6 else 0.
(** SPI1 before its first start. *)
Definition demo_stopped : spiw (list Z) :=
  mkW (sc_state (demo_spi 1 THD_STATE_READY THD_STATE_CURRENT))
    (fun _ => mkSPI SPI_STOP None None 0 SPI1 8 11 (rx_mode 3) (tx_mode 3))
    (fun _ => mkSpiRegs 0 0) (fun _ => false) dma_reset demo_mem [].

Lemma demo_stopped_ok : @bus_stopped (list Z) SPID1 (mkPort SPI1 8 11 3 3) None demo_stopped.
Proof.
  split; try done. apply dma_reset_ok.
Qed.

Definition demo_tr : transfer := T_exchange 2 0x2000 0x3000.
Definition demo_own (a : Z) : Prop := 0x2000 <= a < 0x3002.

Lemma demo_tr_ok : valid demo_cfg demo_tr.
Proof. split; try done. intros a. change (fsize demo_cfg) with 1. cbn. lia. Qed.

Lemma spi_transfer_witness :
  ototal (wgrd 0 (fun _ => True)) (wrely SPID1 (mkPort SPI1 8 11 3 3) demo_own 0 (fun _ => True) 1)
    (fun _ x' => w_dev x' = [5; 6] /\ w_mem x' 0x3000 = 6 /\ w_mem x' 0x3001 = 7)
    ((spiStart SPID1 demo_cfg ;;; run_transfer SPID1 demo_tr) demo_stopped).
Proof.
  eapply ototal_mono; [apply (@spi_transfer app_config _ _ _ SPID1 (mkPort SPI1 8 11 3 3) demo_own 0 (fun _ => True) 1 [] demo_cfg demo_tr demo_stopped)|].
  - reflexivity.
  - apply stream_hw_law.
  - discriminate.
  - apply sc_Ust; try done; (apply (bool_decide_unpack _); by vm_compute).
  - left. exists None. exact demo_stopped_ok.
  - reflexivity.
  - exact demo_tr_ok.
  - intros a. change (fsize demo_cfg) with 1. unfold demo_own. cbn. lia.
  - intros [] x' (_ & _ & E1 & E2). split; [exact E1|]. split; rewrite E2; (done || unfold demo_own; lia).
Defined.

(** The same transfer under way: thread 1 sleeps, the idle thread runs. *)
Definition demo_dma : dmast :=
  mkDma 0x900 (get_assoc [(8, Some (spi_lld_serve_rx, SPID1)); (11, Some (spi_lld_serve_tx, SPID1))] None)
    (get_assoc [(8, mkStream (Z.lor (Z.lor (rx_mode 3) STM32_DMA_CR_MINC) STM32_DMA_CR_EN) 2 (DR SPI1) 0x3000 0x21);
                (11, mkStream (Z.lor (Z.lor (tx_mode 3) STM32_DMA_CR_MINC) STM32_DMA_CR_EN) 2 (DR SPI1) 0x2000 0x21)]
       (mkStream 0 0 0 0 0x21))
    (fun _ => 0) 0x00500000 (fun _ => None).
Definition demo_active : spiw (list Z) :=
  mkW (sc_state (demo_spi 0 THD_STATE_CURRENT THD_STATE_SUSPENDED))
    (fun _ => mkSPI SPI_ACTIVE (Some demo_cfg) (Some 1) 0 SPI1 8 11 (rx_mode 3) (tx_mode 3))
    (fun _ => started_regs demo_cfg) (fun _ => true) demo_dma demo_mem [].

Lemma demo_dma_ok : dma_ok demo_dma.
Proof.
  split; [|done..]. intros i. unfold in_use. cbn [dma_streams_mask demo_dma]. intros Hi. split.
  - destruct (Z_lt_dec i 0); [by rewrite Z.testbit_neg_r in Hi|lia].
  - destruct (Z_lt_dec i 16); [done|]. rewrite Z.bits_above_log2 in Hi; [done|done|]. change (Z.log2 0x900) with 11. lia.
Qed.

Lemma spi_wakes_witness :
  exists x', oeq (dma_serve 8 (hw_run (mkPort SPI1 8 11 3 3) demo_active)) (Suspend AtUnlock x' (fun y => Done tt y)) /\
    1%Z ∈ k_q (w_k x') QReady /\ w_dev x' = [5; 6] /\ w_mem x' 0x3001 = 7.
Proof.
  destruct (@spi_wakes app_config _ _ _ SPID1 (mkPort SPI1 8 11 3 3) 0 1 demo_cfg demo_tr demo_active)
    as (x' & E & _ & _ & Ed & Em & _ & _ & _ & Hq & _).
  - reflexivity.
  - apply stream_hw_law.
  - split; try done. apply demo_dma_ok.
  - by split.
  - reflexivity.
  - exact demo_tr_ok.
  - discriminate.
  - apply sc_KInv. apply (bool_decide_unpack _). by vm_compute.
  - by vm_compute.
  - exists x'. split; [exact E|]. split; [exact Hq|]. split; [exact Ed|]. by rewrite Em.
Defined.

(** [spiStop()] accepts a driver in state [SPI_STOP], but it reads the select
    line from the configuration: before the first start there is none. *)
Theorem spi_stop_unconfigured : spiStop SPID1 demo_stopped = Stuck (Fault "config").
Proof. reflexivity. Qed.
