(* ===== verification/MmcSpi.v ===== *)
(** * Memory cards over SPI ([hal/src/mmc_spi.c], [hal/include/mmc_spi.h])

    The driver of a card on an SPI bus, written on the functions of the SPI
    driver, which are the class [SpiPort] on any world [W]: [MmcBus] gives the
    instance of [Spi].  A transfer takes the bytes to send or gives the bytes
    received.  The loops that wait for the card have a number of rounds as an
    argument; [MMC_NICE_WAITING] is on, and they sleep. *)
From S2P Require Import Prelude Monad Types Sched Threads Sys MMCSD Sdc Dma Spi Crc7.

(** ** The SPI driver *)

Class SpiPort (W : Type) := {
  sp_kernel : forall {A : Type}, M kstate A -> M W A;
  sp_start : Z -> SPIConfig -> M W unit;
  sp_stop : Z -> M W unit;
  sp_select : Z -> M W unit;
  sp_unselect : Z -> M W unit;
  sp_ignore : Z -> Z -> M W unit;
  sp_send : Z -> list Z -> M W unit;
  sp_receive : Z -> Z -> M W (list Z)
}.

(** ** Constants and state *)

Definition MMCSD_CMD_INIT : Z := 1.
Definition MMCSD_CMD_SEND_CID : Z := 10.
Definition MMCSD_CMD_STOP_TRANSMISSION : Z := 12.
Definition MMCSD_CMD_READ_MULTIPLE_BLOCK : Z := 18.
Definition MMCSD_CMD_WRITE_MULTIPLE_BLOCK : Z := 25.
Definition MMCSD_CMD_READ_OCR : Z := 58.
Definition MMC_CMD0_RETRY : nat := 10.
Definition MMC_CMD1_RETRY : nat := 100.
Definition MMC_ACMD41_RETRY : nat := 100.
Definition MMC_WAIT_DATA : nat := Z.to_nat 10000.

Record MMCConfig := mkMMCConfig { mc_spip : Z; mc_lscfg : SPIConfig; mc_hscfg : SPIConfig }.

Record MMCDriver := mkMMC {
  mmc_state : blkstate_t;
  mmc_cid : list Z;
  mmc_csd : list Z;
  mmc_capacity : Z;
  mmc_config : option MMCConfig;
  mmc_block_addresses : bool
}.
Definition set_mmc_state (v : blkstate_t) (d : MMCDriver) : MMCDriver :=
  mkMMC v (mmc_cid d) (mmc_csd d) (mmc_capacity d) (mmc_config d) (mmc_block_addresses d).
Definition set_mmc_cid (v : list Z) (d : MMCDriver) : MMCDriver :=
  mkMMC (mmc_state d) v (mmc_csd d) (mmc_capacity d) (mmc_config d) (mmc_block_addresses d).
Definition set_mmc_csd (v : list Z) (d : MMCDriver) : MMCDriver :=
  mkMMC (mmc_state d) (mmc_cid d) v (mmc_capacity d) (mmc_config d) (mmc_block_addresses d).
Definition set_mmc_capacity (v : Z) (d : MMCDriver) : MMCDriver :=
  mkMMC (mmc_state d) (mmc_cid d) (mmc_csd d) v (mmc_config d) (mmc_block_addresses d).
Definition set_mmc_config (v : option MMCConfig) (d : MMCDriver) : MMCDriver :=
  mkMMC (mmc_state d) (mmc_cid d) (mmc_csd d) (mmc_capacity d) v (mmc_block_addresses d).
Definition set_mmc_block_addresses (v : bool) (d : MMCDriver) : MMCDriver :=
  mkMMC (mmc_state d) (mmc_cid d) (mmc_csd d) (mmc_capacity d) (mmc_config d) v.

Record mmcw (W : Type) := mkMW { m_w : W; m_drv : MMCDriver }.
Arguments mkMW {W} _ _.
Arguments m_w {W} _.
Arguments m_drv {W} _.

Section Defs.
Context `{Config} {W : Type} `{SpiPort W}.
Local Abbreviation MM := (M (mmcw W)).

Fixpoint io_o {A} (d : MMCDriver) (o : outcome W A) : outcome (mmcw W) A :=
  match o with
  | Done a w => Done a (mkMW w d)
  | Suspend p w k => Suspend p (mkMW w d) (fun x => io_o (m_drv x) (k (m_w x)))
  | Stuck e => Stuck e
  end.
(** A function of the SPI driver or of the kernel. *)
Definition io {A} (m : M W A) : MM A := fun x => io_o (m_drv x) (m (m_w x)).
Definition kern {A} (m : M kstate A) : MM A := io (sp_kernel m).
Definition get_mmc {A} (f : MMCDriver -> A) : MM A := gets (fun x => f (m_drv x)).
Definition set_mmc (f : MMCDriver -> MMCDriver) : MM unit := modify (fun x => mkMW (m_w x) (f (m_drv x))).

(** [mmcp->config->...] *)
Definition cfg {A} (f : MMCConfig -> MM A) : MM A := fun x =>
  match mmc_config (m_drv x) with
  | Some c => f c x
  | None => Stuck (Fault "config")
  end.
Definition start (f : MMCConfig -> SPIConfig) : MM unit := cfg (fun c => io (sp_start (mc_spip c) (f c))).
Definition stop : MM unit := cfg (fun c => io (sp_stop (mc_spip c))).
Definition select : MM unit := cfg (fun c => io (sp_select (mc_spip c))).
Definition unselect : MM unit := cfg (fun c => io (sp_unselect (mc_spip c))).
Definition ignore (n : Z) : MM unit := cfg (fun c => io (sp_ignore (mc_spip c) n)).
Definition send (bytes : list Z) : MM unit := cfg (fun c => io (sp_send (mc_spip c) bytes)).
Definition receive (n : Z) : MM (list Z) := cfg (fun c => io (sp_receive (mc_spip c) n)).
(** One byte, at the start of a buffer. *)
Definition receive1 : MM Z := let! l := receive 1 in mret' (default 0 (head l)).

(** ** Frames *)

(** The first polls of [wait()]: whether one found the bus idle. *)
Fixpoint wait_short (n : nat) : MM bool :=
  match n with
  | O => mret' false
  | S n => let! b := receive1 in if b =? 0xFF then mret' true else wait_short n
  end.

(** Until the bus is idle, with a sleep of one tick between the polls. *)
Fixpoint wait_long (rounds : nat) : MM unit :=
  let! b := receive1 in
  if b =? 0xFF then mret' tt
  else
    kern (chThdSleep 1) ;;;
    match rounds with
    | O => fun _ => Stuck Rounds
    | S rounds => wait_long rounds
    end.

Definition wait (rounds : nat) : MM unit :=
  let! idle := wait_short 16 in if idle then mret' tt else wait_long rounds.

(** The first five bytes of a command. *)
Definition frame_bytes (cmd arg : Z) : list Z :=
  [Z.lor 0x40 cmd; u8 (Z.shiftr arg 24); u8 (Z.shiftr arg 16); u8 (Z.shiftr arg 8); u8 arg].

Definition send_hdr (rounds : nat) (cmd arg : Z) : MM unit :=
  wait rounds ;;;
  let buf := frame_bytes cmd arg in
  match crc7 0 buf with
  | Some crc => send (buf ++ [Z.lor (u8 (Z.shiftl (Z.land crc 0x7F) 1)) 1])
  | None => fault "crc7"
  end.

Fixpoint recvr1_loop (n : nat) : MM Z :=
  match n with
  | O => mret' 0xFF
  | S n => let! r1 := receive1 in if negb (r1 =? 0xFF) then mret' r1 else recvr1_loop n
  end.
Definition recvr1 : MM Z := recvr1_loop 9.

(** The first byte and the four that follow. *)
Definition recvr3 : MM (Z * list Z) :=
  let! r1 := recvr1 in let! l := receive 4 in mret' (r1, l).

Definition send_command_R1 (rounds : nat) (cmd arg : Z) : MM Z :=
  select ;;; send_hdr rounds cmd arg ;;; let! r1 := recvr1 in unselect ;;; mret' r1.

Definition send_command_R3 (rounds : nat) (cmd arg : Z) : MM (Z * list Z) :=
  select ;;; send_hdr rounds cmd arg ;;; let! r := recvr3 in unselect ;;; mret' r.

(** Four bytes of a register as a word, the first the most significant. *)
Definition be_word (l : list Z) : Z :=
  match l with
  | [b0; b1; b2; b3] => Z.lor (Z.shiftl b0 24) (Z.lor (Z.shiftl b1 16) (Z.lor (Z.shiftl b2 8) b3))
  | _ => 0
  end.
(** The words, the last four bytes first. *)
Definition be_words (l : list Z) : list Z :=
  [be_word (take 4 (drop 12 l)); be_word (take 4 (drop 8 l)); be_word (take 4 (drop 4 l)); be_word (take 4 l)].

(** The loop for a data token: whether it came. *)
Fixpoint wait_data (n : nat) : MM bool :=
  match n with
  | O => mret' false
  | S n => let! b := receive1 in if b =? 0xFE then mret' true else wait_data n
  end.

(** Whether it failed, and the register. *)
Definition read_CxD (rounds : nat) (cmd : Z) (cxd : list Z) : MM (bool * list Z) :=
  select ;;;
  send_hdr rounds cmd 0 ;;;
  let! r1 := recvr1 in
  if negb (r1 =? 0) then unselect ;;; mret' (CH_FAILED, cxd)
  else
    let! found := wait_data MMC_WAIT_DATA in
    if found then
      let! buf := receive 16 in
      ignore 2 ;;;
      unselect ;;;
      mret' (CH_SUCCESS, be_words buf)
    else mret' (CH_FAILED, cxd).

Definition sync (rounds : nat) : MM unit := select ;;; wait_long rounds ;;; unselect.

(** ** Life of the driver *)

Definition mmcInit : MM unit := mret' tt.

Definition mmcObjectInit : MM unit :=
  set_mmc (fun d => set_mmc_block_addresses false (set_mmc_config None (set_mmc_state BLK_STOP d))).

Definition assert_blk (f : blkstate_t -> bool) (msg : string) : MM unit :=
  let! st := get_mmc mmc_state in kern (chDbgAssert (f st) msg).

Definition mmcStart (config : MMCConfig) : MM unit :=
  assert_blk stopped_or_active "mmcStart(), #1" ;;;
  set_mmc (set_mmc_config (Some config)) ;;;
  set_mmc (set_mmc_state BLK_ACTIVE).

Definition mmcStop : MM unit :=
  assert_blk stopped_or_active "mmcStop(), #1" ;;;
  stop ;;;
  set_mmc (set_mmc_state BLK_STOP).

(** ** Connection *)

(** [CH_FAILED] when the step failed, or what the rest returns. *)
Definition or_failed (step rest : MM bool) : MM bool :=
  let! failed := step in if failed then mret' CH_FAILED else rest.

Definition sleep10 : MM unit := kern (chThdSleep (MS2ST 10)).

(** SPI mode selection, with [tries] for [MMC_CMD0_RETRY - i]. *)
Fixpoint go_idle (rounds tries : nat) : MM bool :=
  let! r1 := send_command_R1 rounds MMCSD_CMD_GO_IDLE_STATE 0 in
  if r1 =? 1 then mret' CH_SUCCESS
  else match tries with
       | O | S O => mret' CH_FAILED
       | S tries => sleep10 ;;; go_idle rounds tries
       end.

Fixpoint sdhc_mode (rounds tries : nat) : MM bool :=
  let! r1 := send_command_R1 rounds MMCSD_CMD_APP_CMD 0 in
  let! ok := (if r1 =? 1 then let! r := send_command_R3 rounds MMCSD_CMD_APP_OP_COND 0x400001aa in mret' (r.1 =? 0)
              else mret' false) in
  if ok then mret' CH_SUCCESS
  else match tries with
       | O | S O => mret' CH_FAILED
       | S tries => sleep10 ;;; sdhc_mode rounds tries
       end.

(** Detection of a card with block addresses. *)
Definition detect_hc (rounds : nat) : MM bool :=
  let! r := send_command_R3 rounds MMCSD_CMD_SEND_IF_COND MMCSD_CMD8_PATTERN in
  if negb (r.1 =? 5) then
    or_failed (sdhc_mode rounds MMC_ACMD41_RETRY) (
    let! r := send_command_R3 rounds MMCSD_CMD_READ_OCR 0 in
    (whenb negb (Z.land (default 0 (head r.2)) 0x40 =? 0) then set_mmc (set_mmc_block_addresses true)) ;;;
    mret' CH_SUCCESS)
  else mret' CH_SUCCESS.

Fixpoint init_card (rounds tries : nat) : MM bool :=
  let! b := send_command_R1 rounds MMCSD_CMD_INIT 0 in
  if b =? 0 then mret' CH_SUCCESS
  else if negb (b =? 1) then mret' CH_FAILED
  else match tries with
       | O | S O => mret' CH_FAILED
       | S tries => sleep10 ;;; init_card rounds tries
       end.

Definition set_blocklen (rounds : nat) : MM bool :=
  let! r1 := send_command_R1 rounds MMCSD_CMD_SET_BLOCKLEN MMCSD_BLOCK_SIZE in mret' (negb (r1 =? 0)).

Definition read_csd_capacity (rounds : nat) : MM bool :=
  let! old := get_mmc mmc_csd in
  let! r := read_CxD rounds MMCSD_CMD_SEND_CSD old in
  if r.1 then mret' CH_FAILED
  else
    set_mmc (set_mmc_csd r.2) ;;;
    let! n := kern (mmcsdGetCapacity r.2) in
    set_mmc (set_mmc_capacity n) ;;;
    mret' (n =? 0).

Definition read_cid_register (rounds : nat) : MM bool :=
  let! old := get_mmc mmc_cid in
  let! r := read_CxD rounds MMCSD_CMD_SEND_CID old in
  if r.1 then mret' CH_FAILED else set_mmc (set_mmc_cid r.2) ;;; mret' CH_SUCCESS.

(** The part of [mmcConnect()] that leaves by [goto failed]. *)
Definition connect_steps (rounds : nat) : MM bool :=
  or_failed (go_idle rounds MMC_CMD0_RETRY) (
  or_failed (detect_hc rounds) (
  or_failed (init_card rounds MMC_CMD1_RETRY) (
  start mc_hscfg ;;;
  or_failed (set_blocklen rounds) (
  or_failed (read_csd_capacity rounds)
    (read_cid_register rounds))))).

Definition mmcConnect (rounds : nat) : MM bool :=
  assert_blk active_or_ready "mmcConnect(), #1" ;;;
  set_mmc (set_mmc_state BLK_CONNECTING) ;;;
  start mc_lscfg ;;;
  ignore 16 ;;;
  let! failed := connect_steps rounds in
  if failed then
    stop ;;;
    set_mmc (set_mmc_state BLK_ACTIVE) ;;;
    mret' CH_FAILED
  else
    set_mmc (set_mmc_state BLK_READY) ;;;
    mret' CH_SUCCESS.

Definition mmcDisconnect (rounds : nat) : MM bool :=
  kern chSysLock ;;;
  assert_blk active_or_ready "mmcDisconnect(), #1" ;;;
  let! st := get_mmc mmc_state in
  if bool_decide (st = BLK_ACTIVE) then kern chSysUnlock ;;; mret' CH_SUCCESS
  else
    set_mmc (set_mmc_state BLK_DISCONNECTING) ;;;
    kern chSysUnlock ;;;
    start mc_hscfg ;;;
    sync rounds ;;;
    stop ;;;
    set_mmc (set_mmc_state BLK_ACTIVE) ;;;
    mret' CH_SUCCESS.

(** ** Sequential transfers *)

(** The command of a transfer: the address is a block number or a byte offset. *)
Definition start_command (rounds : nat) (cmd startblk : Z) : MM bool :=
  start mc_hscfg ;;;
  select ;;;
  let! hc := get_mmc mmc_block_addresses in
  send_hdr rounds cmd (if hc then startblk else u32 (startblk * MMCSD_BLOCK_SIZE)) ;;;
  let! r1 := recvr1 in
  if negb (r1 =? 0) then
    stop ;;;
    set_mmc (set_mmc_state BLK_READY) ;;;
    mret' CH_FAILED
  else mret' CH_SUCCESS.

Definition mmcStartSequentialRead (rounds : nat) (startblk : Z) : MM bool :=
  assert_blk is_ready "mmcStartSequentialRead(), #1" ;;;
  set_mmc (set_mmc_state BLK_READING) ;;;
  start_command rounds MMCSD_CMD_READ_MULTIPLE_BLOCK startblk.

(** The status and the block read. *)
Definition mmcSequentialRead : MM (bool * list Z) :=
  let! st := get_mmc mmc_state in
  if negb (bool_decide (st = BLK_READING)) then mret' (CH_FAILED, [])
  else
    let! found := wait_data MMC_WAIT_DATA in
    if found then
      let! buffer := receive MMCSD_BLOCK_SIZE in
      ignore 2 ;;;
      mret' (CH_SUCCESS, buffer)
    else
      unselect ;;;
      stop ;;;
      set_mmc (set_mmc_state BLK_READY) ;;;
      mret' (CH_FAILED, []).

Definition mmcStopSequentialRead : MM bool :=
  let! st := get_mmc mmc_state in
  if negb (bool_decide (st = BLK_READING)) then mret' CH_FAILED
  else
    send [Z.lor 0x40 MMCSD_CMD_STOP_TRANSMISSION; 0; 0; 0; 0; 1; 0xFF] ;;;
    recvr1 ;;;
    unselect ;;;
    set_mmc (set_mmc_state BLK_READY) ;;;
    mret' CH_SUCCESS.

Definition mmcStartSequentialWrite (rounds : nat) (startblk : Z) : MM bool :=
  assert_blk is_ready "mmcStartSequentialWrite(), #1" ;;;
  set_mmc (set_mmc_state BLK_WRITING) ;;;
  start_command rounds MMCSD_CMD_WRITE_MULTIPLE_BLOCK startblk.

Definition mmcSequentialWrite (rounds : nat) (buffer : list Z) : MM bool :=
  let! st := get_mmc mmc_state in
  if negb (bool_decide (st = BLK_WRITING)) then mret' CH_FAILED
  else
    send [0xFF; 0xFC] ;;;
    send buffer ;;;
    ignore 2 ;;;
    let! b := receive1 in
    if Z.land b 0x1F =? 5 then wait rounds ;;; mret' CH_SUCCESS
    else
      unselect ;;;
      stop ;;;
      set_mmc (set_mmc_state BLK_READY) ;;;
      mret' CH_FAILED.

Definition mmcStopSequentialWrite : MM bool :=
  let! st := get_mmc mmc_state in
  if negb (bool_decide (st = BLK_WRITING)) then mret' CH_FAILED
  else
    send [0xFD; 0xFF] ;;;
    unselect ;;;
    set_mmc (set_mmc_state BLK_READY) ;;;
    mret' CH_SUCCESS.

(** The blocks of a read, and the status. *)
Fixpoint read_blocks (n : nat) : MM (bool * list (list Z)) :=
  match n with
  | O => mret' (CH_SUCCESS, [])
  | S n =>
      let! r := mmcSequentialRead in
      if r.1 then mret' (CH_FAILED, [])
      else let! rs := read_blocks n in mret' (rs.1, r.2 :: rs.2)
  end.

Definition mmc_read (rounds : nat) (startblk : Z) (n : nat) : MM (bool * list (list Z)) :=
  let! failed := mmcStartSequentialRead rounds startblk in
  if failed then mret' (CH_FAILED, [])
  else
    let! rs := read_blocks n in
    if rs.1 then mret' (CH_FAILED, rs.2)
    else let! failed := mmcStopSequentialRead in mret' (failed, rs.2).

Fixpoint write_blocks (rounds : nat) (blocks : list (list Z)) : MM bool :=
  match blocks with
  | [] => mret' CH_SUCCESS
  | b :: blocks => or_failed (mmcSequentialWrite rounds b) (write_blocks rounds blocks)
  end.

Definition mmc_write (rounds : nat) (startblk : Z) (blocks : list (list Z)) : MM bool :=
  or_failed (mmcStartSequentialWrite rounds startblk) (
  or_failed (write_blocks rounds blocks)
    mmcStopSequentialWrite).

(** ** Other operations *)

Definition mmcSync (rounds : nat) : MM bool :=
  let! st := get_mmc mmc_state in
  if negb (is_ready st) then mret' CH_FAILED
  else
    set_mmc (set_mmc_state BLK_SYNCING) ;;;
    start mc_hscfg ;;;
    sync rounds ;;;
    set_mmc (set_mmc_state BLK_READY) ;;;
    mret' CH_SUCCESS.

Definition mmcGetInfo : MM (bool * option BlockDeviceInfo) :=
  let! d := get_mmc id in
  mret' (if negb (is_ready (mmc_state d)) then (CH_FAILED, None)
         else (CH_SUCCESS, Some (mkBDI MMCSD_BLOCK_SIZE (mmc_capacity d)))).

Definition erase_command (rounds : nat) (cmd arg : Z) : MM bool :=
  let! r1 := send_command_R1 rounds cmd arg in mret' (negb (r1 =? 0)).

Definition mmcErase (rounds : nat) (startblk endblk : Z) : MM bool :=
  set_mmc (set_mmc_state BLK_WRITING) ;;;
  let! hc := get_mmc mmc_block_addresses in
  let startblk := if hc then startblk else u32 (startblk * MMCSD_BLOCK_SIZE) in
  let endblk := if hc then endblk else u32 (endblk * MMCSD_BLOCK_SIZE) in
  let! failed :=
    or_failed (erase_command rounds MMCSD_CMD_ERASE_RW_BLK_START startblk) (
    or_failed (erase_command rounds MMCSD_CMD_ERASE_RW_BLK_END endblk)
      (erase_command rounds MMCSD_CMD_ERASE 0)) in
  if failed then
    stop ;;;
    set_mmc (set_mmc_state BLK_READY) ;;;
    mret' CH_FAILED
  else
    set_mmc (set_mmc_state BLK_READY) ;;;
    mret' CH_SUCCESS.
End Defs.
