(* ===== verification/MmcCard.v ===== *)
(** * A memory card on an SPI bus: specification

    The card of the SD specification in SPI mode, for identification and transfers
    of blocks: an automaton that takes a byte and gives a byte.  A command is six
    bytes; the answer, the data and the busy signal come after delays that are
    any functions of the number of events so far.  The data are blocks of 512
    bytes by their number. *)
From S2P Require Import Prelude OtgQueueOK SpiOK Sdc Crc7 MmcSpi.

(** [ci_v2] says whether the card knows the command for its supply voltage,
    [ci_hc] whether it counts in blocks, [ci_init] for how many polls it is not
    ready; then the two registers, and the delays: before the answer to a
    command, before a block that is read, and of the busy signal after a block
    and after a transfer; the two bytes after a block, and the commands whose
    checksum the card verifies (in SPI mode a card may verify only the first
    ones). *)
Record card_info := mkInfo {
  ci_v2 : bool;
  ci_hc : bool;
  ci_blocks : Z;
  ci_init : nat;
  ci_csd : list Z;
  ci_cid : list Z;
  ci_ncr : nat -> nat;
  ci_nac : nat -> nat;
  ci_busy : nat -> nat;
  ci_crc : Z -> list Z;
  ci_check : Z -> bool
}.

Inductive mode :=
  | Tran
  | Reading (blk : Z)
  | Writing (blk : Z)
  | Receiving (blk : Z) (bytes : list Z).

(** How many polls the card still needs, and whether the next command is one of
    the application. *)
Record ident := mkIdent { id_init : nat; id_app : bool }.

(** [cd_cmd] holds the bytes of a command so far, [cd_out] those to send. *)
Record card := mkCard {
  cd_sel : bool;
  cd_cmd : list Z;
  cd_out : list Z;
  cd_mode : mode;
  cd_data : Z -> list Z;
  cd_id : ident;
  cd_events : nat
}.

Definition set_sel (v : bool) (c : card) : card := mkCard v [] (cd_out c) (cd_mode c) (cd_data c) (cd_id c) (cd_events c).
Definition set_cmd (v : list Z) (c : card) : card := mkCard (cd_sel c) v (cd_out c) (cd_mode c) (cd_data c) (cd_id c) (cd_events c).
Definition set_out (v : list Z) (c : card) : card := mkCard (cd_sel c) (cd_cmd c) v (cd_mode c) (cd_data c) (cd_id c) (cd_events c).
Definition set_mode (v : mode) (c : card) : card := mkCard (cd_sel c) (cd_cmd c) (cd_out c) v (cd_data c) (cd_id c) (cd_events c).
Definition set_data (v : Z -> list Z) (c : card) : card := mkCard (cd_sel c) (cd_cmd c) (cd_out c) (cd_mode c) v (cd_id c) (cd_events c).
Definition set_id (v : ident) (c : card) : card := mkCard (cd_sel c) (cd_cmd c) (cd_out c) (cd_mode c) (cd_data c) v (cd_events c).
(** An event: the next delays are others. *)
Definition event (c : card) : card := mkCard (cd_sel c) (cd_cmd c) (cd_out c) (cd_mode c) (cd_data c) (cd_id c) (S (cd_events c)).

Section Card.
Variable ci : card_info.
Implicit Types (c : card) (b : Z).

(** An answer of one byte, after its delay. *)
Definition respond (r1 : Z) (more : list Z) c : card := set_out (repeat 0xFF (ci_ncr ci (cd_events c)) ++ r1 :: more) (event c).
Definition busy c : list Z := repeat 0 (ci_busy ci (cd_events c)).

(** The block an address means; [None] for an address in a block or past the
    last one. *)
Definition block_of (arg : Z) : option Z :=
  let blk := if ci_hc ci then arg else arg / 512 in
  if (ci_hc ci || (arg mod 512 =? 0)) && (blk <? ci_blocks ci) then Some blk else None.

Definition transfer_command (md : Z -> mode) (arg : Z) c : card :=
  match block_of arg with
  | Some blk => respond 0 [] (set_mode (md blk) c)
  | None => respond 0x40 [] c
  end.

(** Commands of the identification: the first byte of the answer, the others,
    and the state after them; [None] for the others of a card that is ready. *)
Definition idle_bit (n : nat) : Z := if (n =? 0)%nat then 0 else 1.
Definition ocr : list Z := [if ci_hc ci then 0xC0 else 0x80; 0xFF; 0x80; 0].
Definition reply (cmd : Z) (i : ident) : option (Z * list Z * ident) :=
  let n := id_init i in
  if cmd =? MMCSD_CMD_GO_IDLE_STATE then Some (1, [], mkIdent (S (ci_init ci)) false)
  else if cmd =? MMCSD_CMD_SEND_IF_COND then
    Some (if ci_v2 ci then (idle_bit n, [0; 0; 1; 0xAA], mkIdent n false) else (4 + idle_bit n, [], mkIdent n false))
  else if cmd =? MMCSD_CMD_APP_CMD then Some (idle_bit n, [], mkIdent n true)
  else if (cmd =? MMCSD_CMD_INIT) || ((cmd =? MMCSD_CMD_APP_OP_COND) && id_app i) then
    Some (idle_bit (pred n), [], mkIdent (pred n) false)
  else if cmd =? MMCSD_CMD_READ_OCR then Some (idle_bit n, ocr, mkIdent n false)
  else if negb (n =? 0)%nat then Some (5, [], mkIdent n false)
  else if cmd =? MMCSD_CMD_SET_BLOCKLEN then Some (0, [], mkIdent n false)
  else None.

(** A register is a block of sixteen bytes. *)
Definition register_command (r : list Z) c : card :=
  respond 0 (repeat 0xFF (ci_nac ci (cd_events c)) ++ 0xFE :: r ++ [0; 0]) c.

Definition execute (cmd arg : Z) c : card :=
  match reply cmd (cd_id c) with
  | Some (r1, more, i) => respond r1 more (set_id i c)
  | None =>
      let c := set_id (mkIdent 0 false) c in
      if cmd =? MMCSD_CMD_READ_MULTIPLE_BLOCK then transfer_command Reading arg c
      else if cmd =? MMCSD_CMD_WRITE_MULTIPLE_BLOCK then transfer_command Writing arg c
      else if cmd =? MMCSD_CMD_STOP_TRANSMISSION then
        set_out (0x7F :: repeat 0xFF (ci_ncr ci (cd_events c)) ++ 0 :: busy c) (event (set_mode Tran c))
      else if cmd =? MMCSD_CMD_SEND_CSD then register_command (ci_csd ci) c
      else if cmd =? MMCSD_CMD_SEND_CID then register_command (ci_cid ci) c
      else respond 0x04 [] c
  end.

Lemma reply_ready cmd i :
  id_init i = 0%nat ->
  cmd ∈ [MMCSD_CMD_READ_MULTIPLE_BLOCK; MMCSD_CMD_WRITE_MULTIPLE_BLOCK; MMCSD_CMD_STOP_TRANSMISSION; MMCSD_CMD_SEND_CSD; MMCSD_CMD_SEND_CID] ->
  reply cmd i = None.
Proof.
  intros Hi Hc. unfold reply. rewrite Hi.
  repeat (apply elem_of_cons in Hc as [->|Hc]; [by cbn|]). by apply elem_of_nil in Hc.
Qed.

(** The last byte of a command: the checksum of the others, by long division,
    and a bit. *)
Definition crc_good (cmd : list Z) (crc : Z) : bool :=
  negb (ci_check ci (Z.land (default 0 (head cmd)) 0x3F)) || (crc =? 2 * divide 40 (Z.shiftl (message cmd) 7) + 1).
Definition frame_in (b0 : Z) (arg : list Z) (crc : Z) c : card :=
  if crc_good (b0 :: arg) crc then execute (Z.land b0 0x3F) (be_word arg) c else respond 0x08 [] c.

(** A byte that comes in while the card listens for commands. *)
Definition listen b c : card :=
  match cd_cmd c with
  | [] => if Z.land b 0xC0 =? 0x40 then set_cmd [b] c else c
  | b0 :: l =>
      let l := l ++ [b] in
      if (length l =? 5)%nat then frame_in b0 (take 4 l) b (set_cmd [] c)
      else set_cmd (b0 :: l) c
  end.

Definition input b c : card :=
  match cd_mode c with
  | Tran | Reading _ => listen b c
  | Writing blk =>
      if b =? 0xFC then set_mode (Receiving blk []) c
      else if b =? 0xFD then set_out (0xFF :: busy c) (event (set_mode Tran c))
      else c
  | Receiving blk l =>
      let l := l ++ [b] in
      if (length l =? 514)%nat
      then set_out (0xE5 :: busy c) (event (set_mode (Writing (blk + 1)) (set_data (<[blk := take 512 l]> (cd_data c)) c)))
      else set_mode (Receiving blk l) c
  end.

(** The next block of a read follows the last one; past the end of the card
    nothing but an error token does. *)
Definition block_stream (blk : Z) c : list Z :=
  repeat 0xFF (ci_nac ci (cd_events c)) ++
  (if blk <? ci_blocks ci then 0xFE :: cd_data c blk ++ take 2 (ci_crc ci blk ++ [0; 0]) else [0x08]).
Definition refill c : card :=
  match cd_mode c, cd_out c with
  | Reading blk, [] => set_out (block_stream blk c) (event (set_mode (Reading (blk + 1)) c))
  | _, _ => c
  end.

Definition output c : Z := default 0xFF (head (cd_out c)).
Definition card_step b c : Z * card :=
  if cd_sel c then let c := refill c in (u8 (output c), input b (set_out (tail (cd_out c)) c))
  else (0xFF, c).

Abbreviation xchg := (xchg_all card_step).

(** ** Bytes to a card that has something to send *)

(** A card that ignores [0xFF]. *)
Definition quiet c : Prop :=
  cd_sel c = true /\ cd_cmd c = [] /\ (forall blk l, cd_mode c <> Receiving blk l).

Lemma set_out_id c : set_out (cd_out c) c = c.
Proof. by destruct c. Qed.

Lemma quiet_input c : quiet c -> input 0xFF c = c.
Proof. intros (_ & Hc & Hm). unfold input, listen. rewrite Hc. by destruct (cd_mode c) as [| | |blk l]; try done; destruct (Hm blk l). Qed.

Lemma quiet_set_out l c : quiet c -> quiet (set_out l c).
Proof. by intros (? & ? & ?). Qed.

Lemma drain_one b l c : quiet c -> xchg [0xFF] (set_out (b :: l) c) = ([u8 b], set_out l c).
Proof.
  intros Hq. cbn [xchg_all]. unfold card_step. cbn [cd_sel set_out]. rewrite (proj1 Hq).
  replace (refill (set_out (b :: l) c)) with (set_out (b :: l) c) by (unfold refill; by destruct (cd_mode _)).
  unfold output. cbn [cd_out set_out tail head].
  change (set_out l (set_out (b :: l) c)) with (set_out l c).
  by rewrite (quiet_input (set_out l c)) by (by apply quiet_set_out).
Qed.

Lemma drain l1 l2 c : quiet c ->
  xchg (repeat 0xFF (length l1)) (set_out (l1 ++ l2) c) = (map u8 l1, set_out l2 c).
Proof.
  intros Hq. induction l1 as [|b l1 IH]; [done|]. cbn [length repeat app].
  change (0xFF :: repeat 0xFF (length l1)) with ([0xFF] ++ repeat 0xFF (length l1)).
  rewrite xchg_all_app, drain_one by done. cbn zeta. cbn [snd fst]. by rewrite IH.
Qed.

(** With nothing to send, and not in a read. *)
Definition resting c : Prop := quiet c /\ (forall blk, cd_mode c <> Reading blk).

Lemma rest_one c : resting c -> cd_out c = [] -> xchg [0xFF] c = ([0xFF], c).
Proof.
  intros [Hq Hr] Ho. cbn [xchg_all]. unfold card_step. rewrite (proj1 Hq).
  replace (refill c) with c by (unfold refill; destruct (cd_mode c) eqn:E; try done; by destruct (Hr blk)).
  unfold output. rewrite Ho. cbn [tail head].
  replace (set_out [] c) with c by (rewrite <-Ho; symmetry; apply set_out_id). by rewrite quiet_input.
Qed.

Lemma resting_set_out l c : resting c -> resting (set_out l c).
Proof. by intros [[? ?] ?]. Qed.

(** ** Commands *)

Definition listening c : Prop := cd_sel c = true /\ (cd_mode c = Tran \/ exists blk, cd_mode c = Reading blk).
(** The same card a few bytes later. *)
Record later c c' : Prop := mkLater {
  la_listening : listening c';
  la_data : cd_data c' = cd_data c;
  la_id : cd_id c' = cd_id c;
  la_mode : cd_mode c = Tran -> cd_mode c' = Tran
}.

Lemma later_trans c1 c2 c3 : later c1 c2 -> later c2 c3 -> later c1 c3.
Proof. intros [] []. split; [done|congruence|congruence|auto]. Qed.

Lemma listen_step b c : listening c ->
  exists c', (card_step b c).2 = listen b c' /\ later c c' /\ cd_cmd c' = cd_cmd c.
Proof.
  intros [Hs Hm]. unfold card_step. rewrite Hs. cbn [snd]. exists (set_out (tail (cd_out (refill c))) (refill c)).
  unfold input, refill. destruct (cd_mode c) eqn:Em; [|destruct (cd_out c) eqn:Eo|naive_solver..]; cbn; rewrite ?Em;
    (split; [done|]); (split; [|done]); (split; cbn; rewrite ?Em; [split; [done|rewrite ?Em; eauto]|done|done|done]).
Qed.

(** The five bytes after the first one of a command, up to the last. *)
Lemma collect b c b0 l : listening c -> cd_cmd c = b0 :: l -> (length l < 4)%nat ->
  exists c', (card_step b c).2 = c' /\ later c c' /\ cd_cmd c' = b0 :: l ++ [b].
Proof.
  intros Hl Hc Hlen. destruct (listen_step b c Hl) as (c' & E & Hla & Ec). eexists. split; [reflexivity|].
  rewrite E. unfold listen. rewrite Ec, Hc. rewrite length_app. cbn [length].
  rewrite (proj2 (Nat.eqb_neq _ _)) by lia. split; [|done].
  destruct Hla as [[? ?] ? ? ?]. by split.
Qed.

Lemma command_xchg b0 b1 b2 b3 b4 b5 c :
  listening c -> cd_cmd c = [] -> Z.land b0 0xC0 = 0x40 -> crc_good [b0; b1; b2; b3; b4] b5 = true ->
  exists c', (xchg [b0; b1; b2; b3; b4; b5] c).2 = execute (Z.land b0 0x3F) (be_word [b1; b2; b3; b4]) c' /\
    later c c' /\ cd_cmd c' = [].
Proof.
  intros Hl Hc Hb Hcrc. destruct (listen_step b0 c Hl) as (c0 & E0 & L0 & C0).
  cbn [xchg_all snd]. rewrite E0. unfold listen at 1. rewrite C0, Hc, Hb. cbn [Z.eqb Pos.eqb].
  assert (later c (set_cmd [b0] c0)) as L0' by (destruct L0 as [[? ?] ? ? ?]; by split).
  destruct (collect b1 (set_cmd [b0] c0) b0 []) as (c1 & -> & L1 & C1); [apply L0'|done|cbn; lia|].
  destruct (collect b2 c1 b0 [b1]) as (c2 & -> & L2 & C2); [apply L1|done|cbn; lia|].
  destruct (collect b3 c2 b0 [b1; b2]) as (c3 & -> & L3 & C3); [apply L2|done|cbn; lia|].
  destruct (collect b4 c3 b0 [b1; b2; b3]) as (c4 & -> & L4 & C4); [apply L3|done|cbn; lia|].
  destruct (listen_step b5 c4) as (c5 & -> & L5 & C5); [apply L4|].
  unfold listen. rewrite C5, C4. cbn -[be_word execute Z.land frame_in]. unfold frame_in. rewrite Hcrc.
  eexists. split; [reflexivity|].
  assert (later c c5) as L by (do 5 (eapply later_trans; [eassumption|]); done).
  split; [|done]. destruct L as [[? ?] ? ? ?]. by split.
Qed.

Lemma frame_arg arg : 0 <= arg < 2^32 ->
  be_word [u8 (Z.shiftr arg 24); u8 (Z.shiftr arg 16); u8 (Z.shiftr arg 8); u8 arg] = arg.
Proof.
  intros Ha. unfold be_word, u8. rewrite !Z.shiftr_div_pow2 by lia.
  rewrite (Z.lor_comm (Z.shiftl _ 24)), (Z.lor_comm (Z.shiftl _ 16)), (Z.lor_comm (Z.shiftl _ 8)).
  change (2^8) with 256 in *. change (2^16) with 65536 in *. change (2^24) with 16777216 in *. change (2^32) with 4294967296 in *.
  replace (arg / 16777216) with (arg / 256 / 256 / 256) by (by rewrite !Z.div_div).
  replace (arg / 65536) with (arg / 256 / 256) by (by rewrite !Z.div_div).
  pose proof (Z.div_mod arg 256 ltac:(lia)) as D1. pose proof (Z.mod_pos_bound arg 256 ltac:(lia)).
  pose proof (Z.div_mod (arg / 256) 256 ltac:(lia)) as D2. pose proof (Z.mod_pos_bound (arg / 256) 256 ltac:(lia)).
  pose proof (Z.div_mod (arg / 256 / 256) 256 ltac:(lia)) as D3. pose proof (Z.mod_pos_bound (arg / 256 / 256) 256 ltac:(lia)).
  rewrite (Z.mod_small (arg / 256 / 256 / 256)) by (rewrite !Z.div_div by lia; split; [apply Z.div_pos; lia|apply Z.div_lt_upper_bound; lia]).
  rewrite (lor_add _ 8), (lor_add _ 16), (lor_add _ 24); change (2^8) with 256; change (2^16) with 65536; change (2^24) with 16777216; lia.
Qed.

(** ** Reading *)

Lemma refill_step b c : cd_sel c = true -> card_step b c = card_step b (refill c).
Proof.
  intros Hs. unfold card_step. assert (cd_sel (refill c) = true) as Hs'.
  { unfold refill. by destruct (cd_mode c), (cd_out c). }
  rewrite Hs, Hs'. assert (refill (refill c) = refill c) as ->; [|done].
  unfold refill. destruct (cd_mode c) eqn:Em; try by rewrite ?Em. destruct (cd_out c) eqn:Eo; [|by rewrite Em, Eo].
  cbn. unfold block_stream. by destruct (ci_nac ci (cd_events c)), (blk <? ci_blocks ci).
Qed.

(** What a card sends next, block by block in a read. *)
Lemma drain_refill l1 l2 c c1 :
  cd_sel c = true -> refill c = set_out (l1 ++ l2) c1 -> quiet c1 -> (0 < length l1)%nat ->
  xchg (repeat 0xFF (length l1)) c = (map u8 l1, set_out l2 c1).
Proof.
  intros Hs Hr Hq Hl. rewrite <-drain by done. destruct (length l1); [lia|]. cbn [repeat xchg_all].
  by rewrite refill_step, Hr by done.
Qed.

Lemma refill_out b l c : refill (set_out (b :: l) c) = set_out (b :: l) c.
Proof. unfold refill. by destruct (cd_mode _). Qed.

(** ** Writing *)

(** While a block comes in, what the card sends has no meaning. *)
Lemma receiving_xchg bytes : forall c blk l,
  cd_sel c = true -> cd_mode c = Receiving blk l -> (length l + length bytes < 514)%nat ->
  exists o, (xchg bytes c).2 = set_mode (Receiving blk (l ++ bytes)) (set_out o c).
Proof.
  induction bytes as [|b bytes IH]; intros c blk l Hs Hm Hlen; cbn [xchg_all snd].
  - exists (cd_out c). rewrite app_nil_r, set_out_id, <-Hm. by destruct c.
  - unfold card_step at 2. rewrite Hs. cbn [snd].
    replace (refill c) with c by (unfold refill; by rewrite Hm). unfold input. cbn [cd_mode set_out]. rewrite Hm.
    rewrite length_app. cbn [length] in *. rewrite (proj2 (Nat.eqb_neq _ _)) by lia.
    destruct (IH (set_mode (Receiving blk (l ++ [b])) (set_out (tail (cd_out c)) c)) blk (l ++ [b])) as (o & ->); [done|done|rewrite length_app; cbn; lia|].
    exists o. by rewrite <-app_assoc.
Qed.

(** The token of a block, the block and two bytes for its checksum. *)
Lemma write_xchg bytes c blk :
  quiet c -> cd_mode c = Writing blk -> length bytes = 512%nat ->
  (xchg [0xFF; 0xFF] (xchg bytes (xchg [0xFF; 0xFC] c).2).2).2 =
    set_out (0xE5 :: busy c) (event (set_mode (Writing (blk + 1)) (set_data (<[blk := bytes]> (cd_data c)) c))).
Proof.
  intros Hq Hm Hlen. pose proof Hq as (Hs & Hc & _).
  assert ((xchg [0xFF; 0xFC] c).2 = set_mode (Receiving blk []) (set_out (tail (tail (cd_out c))) c)) as ->.
  { cbn [xchg_all snd]. unfold card_step. rewrite Hs. cbn [snd].
    replace (refill c) with c by (unfold refill; by rewrite Hm).
    rewrite (quiet_input (set_out (tail (cd_out c)) c)) by (by apply quiet_set_out). cbn [cd_sel set_out]. rewrite Hs.
    unfold refill. cbn [cd_mode set_out]. rewrite Hm. cbn [snd]. unfold input. cbn [cd_mode set_out]. by rewrite Hm. }
  destruct (receiving_xchg bytes (set_mode (Receiving blk []) (set_out (tail (tail (cd_out c))) c)) blk []) as (o & ->);
    [done|done|cbn; lia|]. cbn [app].
  cbn [xchg_all snd]. unfold card_step at 2. cbn [cd_sel set_mode set_out]. rewrite Hs. cbn [snd].
  unfold refill at 1 2. cbn [cd_mode set_mode]. unfold input at 1. cbn [cd_mode set_mode set_out].
  rewrite length_app, Hlen. cbn [length Nat.add Nat.eqb].
  unfold card_step. cbn [cd_sel set_mode set_out]. rewrite Hs. cbn [snd].
  unfold refill. cbn [cd_mode set_mode]. unfold input. cbn [cd_mode set_mode set_out].
  rewrite !length_app, Hlen. cbn [length Nat.add Nat.eqb].
  rewrite <-app_assoc, take_app_le, take_ge by lia. done.
Qed.

Lemma write_stop_xchg c blk :
  quiet c -> cd_mode c = Writing blk ->
  (xchg [0xFD; 0xFF] c).2 = set_out (busy c) (event (set_mode Tran c)).
Proof.
  intros Hq Hm. pose proof Hq as (Hs & Hc & _). cbn [xchg_all snd]. unfold card_step at 2. rewrite Hs. cbn [snd].
  replace (refill c) with c by (unfold refill; by rewrite Hm). unfold input. cbn [cd_mode set_out]. rewrite Hm.
  cbn [Z.eqb Pos.eqb]. unfold card_step. cbn [cd_sel set_out event set_mode]. rewrite Hs. cbn [snd].
  unfold refill. cbn [cd_mode set_out event set_mode]. unfold input, listen. cbn. by rewrite Hc.
Qed.
End Card.
