(* ===== verification/MmcOK.v ===== *)
(** * Memory cards over SPI: what the driver needs of the bus, and its rules

    [SpiPortOK] is the contract between the card driver and the SPI driver: the
    functions return, whatever the other threads do meanwhile, and exchange
    bytes with the device.  The lemmas here and the theorems on the card driver
    are proved from it; [MmcBus] proves it of [Spi]. *)
From S2P Require Import Prelude Monad Types Sched Threads Sys MMCSD Sdc Spi Total.
From S2P Require Import SpiOK Crc7 MmcSpi MmcCard.

(** [on b v w]: the thread runs and the bus is its own, started or stopped, with
    the device in state [v]; [locked] the same inside a critical section; [off]
    the same with a bus that may never have been started. *)
Record SpiPortOK {W D : Type} `{Config} `{SpiPort W} (G : susp -> W -> Prop) (R : susp -> W -> W -> Prop)
    (off : D -> W -> Prop) (on locked : bool -> D -> W -> Prop) (xchg : Z -> D -> Z * D) (sel : bool -> D -> D) (mc : MMCConfig) := {
  pk_start c b v w : c = mc_lscfg mc \/ c = mc_hscfg mc -> on b v w ->
    ototal G R (fun _ w' => on true v w') (sp_start (mc_spip mc) c w);
  pk_first c v w : c = mc_lscfg mc \/ c = mc_hscfg mc -> off v w ->
    ototal G R (fun _ w' => on true v w') (sp_start (mc_spip mc) c w);
  pk_stop b v w : on b v w -> ototal G R (fun _ w' => on false (sel false v) w') (sp_stop (mc_spip mc) w);
  pk_select v w : on true v w -> ototal G R (fun _ w' => on true (sel true v) w') (sp_select (mc_spip mc) w);
  pk_unselect v w : on true v w -> ototal G R (fun _ w' => on true (sel false v) w') (sp_unselect (mc_spip mc) w);
  pk_ignore n v w : 0 < n < 2^16 -> on true v w ->
    ototal G R (fun _ w' => on true (xchg_all xchg (repeat 0xFF (Z.to_nat n)) v).2 w') (sp_ignore (mc_spip mc) n w);
  pk_send bytes v w : (0 < length bytes < Z.to_nat (2^16))%nat -> Forall (fun b => 0 <= b < 256) bytes -> on true v w ->
    ototal G R (fun _ w' => on true (xchg_all xchg bytes v).2 w') (sp_send (mc_spip mc) bytes w);
  pk_receive n v w : 0 < n < 2^16 -> on true v w ->
    ototal G R (fun l w' => l = (xchg_all xchg (repeat 0xFF (Z.to_nat n)) v).1 /\
      on true (xchg_all xchg (repeat 0xFF (Z.to_nat n)) v).2 w') (sp_receive (mc_spip mc) n w);
  pk_sleep time b v w : 0 < time < 2^32 -> on b v w -> ototal G R (fun _ w' => on b v w') (sp_kernel (chThdSleep time) w);
  pk_pure {A} (m : M kstate A) a w : (forall s, m s = Done a s) -> sp_kernel m w = Done a w;
  pk_lock b v w : on b v w -> exists w', sp_kernel chSysLock w = Done tt w' /\ locked b v w';
  pk_unlock b v w : locked b v w -> ototal G R (fun _ w' => on b v w') (sp_kernel chSysUnlock w)
}.

Section Rules.
Context {W D : Type} `{Config} `{SpiPort W} {G : susp -> W -> Prop} {R : susp -> W -> W -> Prop}.
Context {off : D -> W -> Prop} {on locked : bool -> D -> W -> Prop} {xchg : Z -> D -> Z * D} {sel : bool -> D -> D} {mc : MMCConfig}.
Hypothesis port_ok : SpiPortOK G R off on locked xchg sel mc.
Implicit Types (x : mmcw W) (d : MMCDriver) (v : D).

(** The driver object is the thread's own. *)
Definition mG (w : susp) x : Prop := G w (m_w x).
Definition mR (w : susp) x x' : Prop := R w (m_w x) (m_w x') /\ m_drv x' = m_drv x.
Abbreviation mtotal := (ototal mG mR).

(** The driver in state [d], on a bus with the device in state [v]. *)
Definition at_bus (b : bool) v d x : Prop := on b v (m_w x) /\ m_drv x = d.

Lemma total_io {A} (m : M W A) (Q : A -> W -> Prop) x :
  ototal G R Q (m (m_w x)) -> mtotal (fun a x' => Q a (m_w x') /\ m_drv x' = m_drv x) (io m x).
Proof.
  unfold io. generalize (m (m_w x)). intros o. revert x.
  assert (forall d, ototal G R Q o -> mtotal (fun a x' => Q a (m_w x') /\ m_drv x' = d) (io_o d o)) as Hgen; [|intros x; apply Hgen].
  induction o as [a w|p w k IH|e]; intros d Ho; cbn in *; [done| |done].
  destruct Ho as [HG Hk]. split; [done|]. intros x' [HR Hd]. cbn in Hd. rewrite Hd. by apply IH, Hk.
Qed.

Lemma bus_call {A} (f : MMCConfig -> M W A) (Q : A -> W -> Prop) (Q' : A -> mmcw W -> Prop) d x :
  mmc_config d = Some mc -> m_drv x = d -> ototal G R Q (f mc (m_w x)) ->
  (forall a x', Q a (m_w x') -> m_drv x' = d -> Q' a x') -> mtotal Q' (cfg (fun c => io (f c)) x).
Proof.
  intros Hc Ed Hm HQ. unfold cfg. rewrite Ed, Hc. eapply ototal_mono; [by apply total_io|].
  intros a x' [Ha Hd]. apply HQ; congruence.
Qed.

(** *** The functions of the bus *)

Section Bus.
Variables (d : MMCDriver).
Hypothesis config : mmc_config d = Some mc.

Lemma start_ok f b v x : f = mc_lscfg \/ f = mc_hscfg -> at_bus b v d x ->
  mtotal (fun _ x' => at_bus true v d x') (start f x).
Proof.
  intros Hf [Ho Ed]. eapply (bus_call (fun c => sp_start (mc_spip c) (f c))); [done..|apply (pk_start _ _ _ _ _ _ _ _ port_ok _ b v)|by split].
  - destruct Hf as [-> | ->]; auto.
  - done.
Qed.

Lemma first_ok f v x : f = mc_lscfg \/ f = mc_hscfg -> off v (m_w x) -> m_drv x = d ->
  mtotal (fun _ x' => at_bus true v d x') (start f x).
Proof.
  intros Hf Ho Ed. eapply (bus_call (fun c => sp_start (mc_spip c) (f c))); [done..|apply (pk_first _ _ _ _ _ _ _ _ port_ok _ v)|by split].
  - destruct Hf as [-> | ->]; auto.
  - done.
Qed.

Lemma stop_ok b v x : at_bus b v d x -> mtotal (fun _ x' => at_bus false (sel false v) d x') (stop x).
Proof.
  intros [Ho Ed]. eapply (bus_call (fun c => sp_stop (mc_spip c))); [done..|by apply (pk_stop _ _ _ _ _ _ _ _ port_ok b v)|by split].
Qed.

Lemma select_ok v x : at_bus true v d x -> mtotal (fun _ x' => at_bus true (sel true v) d x') (select x).
Proof.
  intros [Ho Ed]. eapply (bus_call (fun c => sp_select (mc_spip c))); [done..|by apply (pk_select _ _ _ _ _ _ _ _ port_ok v)|by split].
Qed.

Lemma unselect_ok v x : at_bus true v d x -> mtotal (fun _ x' => at_bus true (sel false v) d x') (unselect x).
Proof.
  intros [Ho Ed]. eapply (bus_call (fun c => sp_unselect (mc_spip c))); [done..|by apply (pk_unselect _ _ _ _ _ _ _ _ port_ok v)|by split].
Qed.

Lemma ignore_ok n v x : 0 < n < 2^16 -> at_bus true v d x ->
  mtotal (fun _ x' => at_bus true (xchg_all xchg (repeat 0xFF (Z.to_nat n)) v).2 d x') (ignore n x).
Proof.
  intros Hn [Ho Ed]. eapply (bus_call (fun c => sp_ignore (mc_spip c) n)); [done..|by apply (pk_ignore _ _ _ _ _ _ _ _ port_ok n v)|by split].
Qed.

Lemma send_ok bytes v x :
  (0 < length bytes < Z.to_nat (2^16))%nat -> Forall (fun b => 0 <= b < 256) bytes -> at_bus true v d x ->
  mtotal (fun _ x' => at_bus true (xchg_all xchg bytes v).2 d x') (send bytes x).
Proof.
  intros Hn Hb [Ho Ed]. eapply (bus_call (fun c => sp_send (mc_spip c) bytes)); [done..|by apply (pk_send _ _ _ _ _ _ _ _ port_ok bytes v)|by split].
Qed.

Lemma receive_ok n v x : 0 < n < 2^16 -> at_bus true v d x ->
  mtotal (fun l x' => l = (xchg_all xchg (repeat 0xFF (Z.to_nat n)) v).1 /\
    at_bus true (xchg_all xchg (repeat 0xFF (Z.to_nat n)) v).2 d x') (receive n x).
Proof.
  intros Hn [Ho Ed]. eapply (bus_call (fun c => sp_receive (mc_spip c) n)); [done..|by apply (pk_receive _ _ _ _ _ _ _ _ port_ok n v)|].
  intros l x' [? ?] ?. by split.
Qed.

Lemma receive1_ok v x : at_bus true v d x ->
  mtotal (fun b x' => b = (xchg 0xFF v).1 /\ at_bus true (xchg 0xFF v).2 d x') (receive1 x).
Proof.
  intros Hx. unfold receive1. eapply ototal_bind; [by apply receive_ok|]. cbn. intros l x' [-> Hx']. by split.
Qed.

Lemma sleep_ok time b v x : 0 < time < 2^32 -> at_bus b v d x ->
  mtotal (fun _ x' => at_bus b v d x') (kern (chThdSleep time) x).
Proof.
  intros Ht [Ho Ed]. unfold kern. eapply ototal_mono.
  - by apply total_io, (pk_sleep _ _ _ _ _ _ _ _ port_ok time b v).
  - intros [] x' [? ?]. split; congruence.
Qed.
End Bus.

Lemma pure_ok {A} (m : M kstate A) a x : (forall s, m s = Done a s) -> kern m x = Done a x.
Proof. intros Hm. unfold kern, io. rewrite (pk_pure _ _ _ _ _ _ _ _ port_ok m a) by done. by destruct x. Qed.

Lemma assert_blk_ok f msg x : f (mmc_state (m_drv x)) = true -> assert_blk f msg x = Done tt x.
Proof.
  intros Hf. unfold assert_blk, bind, get_mmc, gets. cbn [obind]. apply pure_ok. intros s. by apply chDbgAssert_ok.
Qed.

Lemma set_mmc_ok f b v d x : at_bus b v d x -> mtotal (fun _ x' => at_bus b v (f d) x') (set_mmc f x).
Proof. intros [Ho Ed]. cbn. split; [done|]. by rewrite Ed. Qed.
End Rules.

(** Bytes that are written out. *)
Ltac bytes := repeat (apply Forall_cons_2; [split; vm_compute; done|]); apply Forall_nil_2.

(** ** The driver and a card *)

Section Card.
Context {W : Type} `{Config} `{SpiPort W} {G : susp -> W -> Prop} {R : susp -> W -> W -> Prop} {ci : card_info}.
Context {off : card -> W -> Prop} {on locked : bool -> card -> W -> Prop} {mc : MMCConfig}.
Hypothesis port_ok : SpiPortOK G R off on locked (card_step ci) set_sel mc.
Implicit Types (x : mmcw W) (d : MMCDriver) (c : card).
Abbreviation mtotal := (ototal (mG (G := G)) (mR (R := R))).
Abbreviation at_card := (at_bus (on := on)).

Variables (d : MMCDriver).
Hypothesis config : mmc_config d = Some mc.

(** One byte of what the card has to send. *)
Lemma receive1_out b l c x :
  quiet c -> at_card true (set_out (b :: l) c) d x ->
  mtotal (fun r x' => r = u8 b /\ at_card true (set_out l c) d x') (receive1 x).
Proof.
  intros Hq Hx. pose proof (drain_one ci b l c Hq) as Hd. cbn [xchg_all] in Hd. injection Hd as E1 E2.
  eapply ototal_mono; [by apply (receive1_ok port_ok d config _ _ Hx)|]. intros r x' [-> Hx']. by rewrite E1, E2 in *.
Qed.

Lemma receive1_rest c x :
  resting c -> cd_out c = [] -> at_card true c d x ->
  mtotal (fun r x' => r = 0xFF /\ at_card true c d x') (receive1 x).
Proof.
  intros Hr Ho Hx. pose proof (rest_one ci c Hr Ho) as Hd. cbn [xchg_all] in Hd. injection Hd as E1 E2.
  eapply ototal_mono; [by apply (receive1_ok port_ok d config _ _ Hx)|]. intros r x' [-> Hx']. by rewrite E1, E2 in *.
Qed.

(** ** Waiting *)

(** Part of what the card has to send was received. *)
Definition polled (l : list Z) c x : Prop := exists l1 l2, l = l1 ++ l2 /\ at_card true (set_out l2 c) d x.

Lemma polled_cons b l c x : polled l c x -> polled (b :: l) c x.
Proof. intros (l1 & l2 & -> & Hx). by exists (b :: l1), l2. Qed.

Lemma wait_short_ok n : forall l c x,
  resting c -> at_card true (set_out l c) d x ->
  mtotal (fun idle x' => if idle : bool then polled l c x'
                         else (n <= length l)%nat /\ at_card true (set_out (drop n l) c) d x') (wait_short n x).
Proof.
  induction n as [|n IH]; intros l c x Hr Hx; cbn [wait_short]; [cbn; split; [lia|done]|]. destruct l as [|b l].
  - eapply ototal_bind; [apply (receive1_rest (set_out [] c)); [by apply resting_set_out|done|done]|].
    intros r x' [-> Hx']. cbn. by exists [], [].
  - eapply ototal_bind; [apply (receive1_out b l c); [apply Hr|done]|]. intros r x' [-> Hx'].
    destruct (u8 b =? 255); [by exists [b], l|].
    eapply ototal_mono; [by apply (IH l c)|]. intros [] x2 Hx2; [by apply polled_cons|]. cbn. destruct Hx2. split; [lia|done].
Qed.

Lemma wait_long_ok rounds : forall l c x,
  resting c -> (length l <= rounds)%nat -> at_card true (set_out l c) d x ->
  mtotal (fun _ x' => polled l c x') (wait_long rounds x).
Proof.
  induction rounds as [|rounds IH]; intros l c x Hr Hl Hx; cbn [wait_long]; (destruct l as [|b l]; [|cbn in Hl; try lia]).
  - eapply ototal_bind; [apply (receive1_rest (set_out [] c)); [by apply resting_set_out|done|done]|].
    intros r x' [-> Hx']. cbn. by exists [], [].
  - eapply ototal_bind; [apply (receive1_rest (set_out [] c)); [by apply resting_set_out|done|done]|].
    intros r x' [-> Hx']. cbn. by exists [], [].
  - eapply ototal_bind; [apply (receive1_out b l c); [apply Hr|done]|]. intros r x' [-> Hx'].
    destruct (u8 b =? 255); [by exists [b], l|].
    eapply ototal_bind; [apply (sleep_ok port_ok d 1 _ _ _ ltac:(lia) Hx')|]. intros [] x2 Hx2.
    eapply ototal_mono; [apply (IH l c); [done|lia|done]|]. intros [] x3. apply polled_cons.
Qed.

Lemma wait_ok rounds l c x :
  resting c -> (length l <= rounds)%nat -> at_card true (set_out l c) d x -> mtotal (fun _ x' => polled l c x') (wait rounds x).
Proof.
  intros Hr Hl Hx. unfold wait. eapply ototal_bind; [by apply wait_short_ok|]. intros [] x1 Hx1; [done|].
  destruct Hx1 as [Hn Hx1]. eapply ototal_mono; [apply (wait_long_ok rounds (drop 16 l) c); [done|rewrite length_drop; lia|done]|].
  intros [] x2 (l1 & l2 & E & Hx2). exists (take 16 l ++ l1), l2. split; [|done]. by rewrite <-app_assoc, <-E, take_drop.
Qed.

(** ** Commands *)

Definition cmd_ok (cmd : Z) : Prop :=
  Z.land (Z.lor 0x40 cmd) 0xC0 = 0x40 /\ Z.land (Z.lor 0x40 cmd) 0x3F = cmd /\ 0 <= Z.lor 0x40 cmd < 256.

Lemma frame_range cmd arg : cmd_ok cmd -> Forall (fun b => 0 <= b < 256) (frame_bytes cmd arg).
Proof.
  intros (_ & _ & Hc). unfold frame_bytes, u8. repeat constructor; try lia; apply Z.mod_pos_bound; lia.
Qed.

Lemma crc_byte_range crc : 0 <= Z.lor (u8 (Z.shiftl (Z.land crc 0x7F) 1)) 1 < 256.
Proof.
  assert (0 <= u8 (Z.shiftl (Z.land crc 0x7F) 1) < 256) as Hr by (apply Z.mod_pos_bound; lia).
  split; [apply Z.lor_nonneg; lia|]. generalize dependent (u8 (Z.shiftl (Z.land crc 0x7F) 1)). intros z Hz.
  destruct (Z.eq_dec (Z.lor z 1) 0) as [->|]; [lia|]. apply Z.log2_lt_cancel. rewrite Z.log2_lor by lia.
  pose proof (Z.log2_le_mono z 255 ltac:(lia)). change (Z.log2 255) with 7 in *. change (Z.log2 256) with 8. change (Z.log2 1) with 0. lia.
Qed.

(** The checksum is the one the card computes. *)
Lemma crc_byte_good l r : Forall (fun b => 0 <= b < 256) l -> length l = 5%nat ->
  is_remainder r (Z.shiftl (message l) 7) -> crc_good ci l (Z.lor (u8 (Z.shiftl (Z.land r 0x7F) 1)) 1) = true.
Proof.
  intros HF Hl Hr. apply orb_true_iff. right.
  assert (is_remainder (divide 40 (Z.shiftl (message l) 7)) (Z.shiftl (message l) 7)) as Hd.
  { apply divide_ok. rewrite Z.shiftl_mul_pow2 by lia. pose proof (message_range l HF) as Hm. rewrite Hl in Hm. cbn in *. lia. }
  rewrite (remainder_unique _ _ _ Hd Hr). destruct Hr as [Hr _].
  assert (forallb (fun r => Z.lor (u8 (Z.shiftl (Z.land r 0x7F) 1)) 1 =? 2 * r + 1) (seqZ 0 128) = true) as Hall by (by vm_compute).
  rewrite forallb_forall in Hall. apply Hall, list_elem_of_In, elem_of_seqZ. lia.
Qed.

Lemma send_hdr_ok rounds cmd arg c x :
  cmd_ok cmd -> 0 <= arg < 2^32 -> cd_mode c = Tran -> cd_sel c = true -> cd_cmd c = [] ->
  (length (cd_out c) <= rounds)%nat -> at_card true c d x ->
  mtotal (fun _ x' => exists c', at_card true (execute ci cmd arg c') d x' /\ later c c' /\ cd_cmd c' = []) (send_hdr rounds cmd arg x).
Proof.
  intros Hcmd Ha Hm Hs Hc Hl Hx. unfold send_hdr.
  assert (resting c) as Hr by (split; [split_and!; try done|]; intros; congruence).
  eapply ototal_bind; [apply (wait_ok rounds (cd_out c) c); [done|done|by rewrite set_out_id]|].
  intros [] x1 (l1 & l2 & _ & Hx1). pose proof (frame_range cmd arg Hcmd) as Hf.
  destruct (crc7_ok _ Hf 0 0) as (r & -> & Hrem); [split; [lia|apply congruent_refl]|].
  eapply ototal_mono; [apply (send_ok port_ok d config _ (set_out l2 c))|].
  - cbn. lia.
  - apply Forall_app. split; [done|]. constructor; [apply crc_byte_range|done].
  - exact Hx1.
  - intros [] x2 Hx2. unfold frame_bytes in Hx2. cbn [app] in Hx2.
    match type of Hx2 with at_bus _ (xchg_all _ [?b0; ?b1; ?b2; ?b3; ?b4; ?b5] ?c0).2 _ _ =>
      destruct (command_xchg ci b0 b1 b2 b3 b4 b5 c0) as (c' & E & Hla & Hc'); [split; [done|by left]|done|apply Hcmd|by apply crc_byte_good|] end.
    rewrite E in Hx2. destruct Hcmd as (_ & E3 & _). rewrite E3, frame_arg in Hx2 by done. exists c'. split; [done|].
    split; [|done]. destruct Hla. by split.
Qed.

Lemma recvr1_loop_ok n : forall k r1 more c x,
  quiet c -> (k < n)%nat -> u8 r1 <> 0xFF -> at_card true (set_out (repeat 0xFF k ++ r1 :: more) c) d x ->
  mtotal (fun r x' => r = u8 r1 /\ at_card true (set_out more c) d x') (recvr1_loop n x).
Proof.
  induction n as [|n IH]; intros k r1 more c x Hq Hk Hr Hx; [lia|]. cbn [recvr1_loop]. destruct k as [|k].
  - eapply ototal_bind; [by apply (receive1_out r1 more c)|]. intros r x' [-> Hx'].
    by rewrite (proj2 (Z.eqb_neq _ _)) by done.
  - eapply ototal_bind; [by apply (receive1_out 0xFF (repeat 0xFF k ++ r1 :: more) c)|]. intros r x' [-> Hx'].
    cbn [u8]. apply (IH k r1 more c); [done|lia|done|done].
Qed.

(** A selected card in the middle of a transfer, and a card between transfers
    that may still be busy for some bytes. *)
Definition card_in (md : mode) (data : Z -> list Z) c : Prop :=
  cd_sel c = true /\ cd_cmd c = [] /\ cd_mode c = md /\ cd_data c = data /\ id_init (cd_id c) = 0%nat.
Definition parked (n : nat) (data : Z -> list Z) c : Prop :=
  cd_mode c = Tran /\ (length (cd_out c) <= n)%nat /\ cd_data c = data /\ id_init (cd_id c) = 0%nat.

Hypothesis ncr_bound : forall k, (ci_ncr ci k <= 8)%nat.

(** The address of a block, as the driver sends it. *)
Definition address (startblk : Z) : Z :=
  if mmc_block_addresses d then startblk else u32 (startblk * MMCSD_BLOCK_SIZE).

Definition transfer_cmd (cmd : Z) (md : Z -> mode) : Prop :=
  (cmd = MMCSD_CMD_READ_MULTIPLE_BLOCK /\ md = Reading) \/ (cmd = MMCSD_CMD_WRITE_MULTIPLE_BLOCK /\ md = Writing).

Lemma transfer_cmd_ok cmd md : transfer_cmd cmd md -> cmd_ok cmd.
Proof. by intros [[-> _]|[-> _]]. Qed.

Lemma transfer_execute cmd md arg c : transfer_cmd cmd md -> id_init (cd_id c) = 0%nat ->
  execute ci cmd arg c = transfer_command ci md arg (set_id (mkIdent 0 false) c).
Proof. intros [[-> ->]|[-> ->]] Hi; unfold execute; by rewrite reply_ready by (done || set_solver). Qed.

Lemma start_command_ok rounds cmd md b data c startblk x :
  transfer_cmd cmd md -> parked rounds data c -> 0 <= startblk < 2^32 -> at_card b c d x ->
  mtotal (fun failed x' =>
      match block_of ci (address startblk) with
      | Some blk => failed = CH_SUCCESS /\ exists c', card_in (md blk) data c' /\ cd_out c' = [] /\ at_card true c' d x'
      | None => failed = CH_FAILED /\ exists c', parked 0 data c' /\ at_card false c' (set_mmc_state BLK_READY d) x'
      end) (start_command rounds cmd startblk x).
Proof.
  intros Ht (Hm & Hl & Hdata & Hi) Hb Hx. unfold start_command.
  eapply ototal_bind; [by apply (start_ok port_ok d config _ b c); [right|]|]. intros [] x1 Hx1.
  eapply ototal_bind; [by apply (select_ok port_ok d config c)|]. intros [] x2 Hx2.
  unfold bind at 1, get_mmc, gets. cbn [obind]. rewrite (proj2 Hx2). fold (address startblk).
  pose proof (transfer_cmd_ok cmd md Ht) as Hc.
  eapply ototal_bind; [apply (send_hdr_ok rounds cmd (address startblk) (set_sel true c)); try done|].
  { unfold address. destruct (mmc_block_addresses d); [done|]. apply Z.mod_pos_bound. lia. }
  intros [] x3 (c3 & Hx3 & [[L1 L2] L3 Li L4] & Hc3). specialize (L4 Hm). cbn in L3, Li. rewrite Hdata in L3.
  rewrite (transfer_execute cmd md) in Hx3 by (done || by rewrite Li). unfold transfer_command in Hx3.
  destruct (block_of ci (address startblk)) as [blk|].
  - eapply ototal_bind; [apply (recvr1_loop_ok 9 (ci_ncr ci (cd_events c3)) 0 [] (event (set_mode (md blk) (set_id (mkIdent 0 false) c3))))|].
    + split_and!; [done|done|]. destruct Ht as [[_ ->]|[_ ->]]; done.
    + specialize (ncr_bound (cd_events c3)). lia.
    + done.
    + exact Hx3.
    + intros r x4 [-> Hx4]. cbn. split; [done|]. exists (set_out [] (event (set_mode (md blk) (set_id (mkIdent 0 false) c3)))). split; [by split_and!|]. by split.
  - eapply ototal_bind; [apply (recvr1_loop_ok 9 (ci_ncr ci (cd_events c3)) 0x40 [] (event (set_id (mkIdent 0 false) c3)))|].
    + split_and!; [done|done|]. cbn. intros. congruence.
    + specialize (ncr_bound (cd_events c3)). lia.
    + done.
    + exact Hx3.
    + intros r x4 [-> Hx4]. change (negb (u8 64 =? 0)) with true. cbn iota.
      eapply ototal_bind; [by apply (stop_ok port_ok d config _ _ _ Hx4)|]. intros [] x5 Hx5.
      eapply ototal_bind; [by apply (set_mmc_ok (set_mmc_state BLK_READY) _ _ _ _ Hx5)|]. intros [] x6 Hx6.
      cbn. split; [done|]. eexists. split; [|exact Hx6]. split_and!; [done|cbn; lia|done|done].
Qed.

(** ** Reading blocks *)

Lemma receive1_refill b l c c1 x :
  cd_sel c = true -> refill ci c = set_out (b :: l) c1 -> quiet c1 -> at_card true c d x ->
  mtotal (fun r x' => r = u8 b /\ at_card true (set_out l c1) d x') (receive1 x).
Proof.
  intros Hs Hr Hq Hx. pose proof (drain_refill ci [b] l c c1 Hs Hr Hq ltac:(cbn; lia)) as Hd.
  cbn [xchg_all length repeat] in Hd. injection Hd as E1 E2.
  eapply ototal_mono; [by apply (receive1_ok port_ok d config _ _ Hx)|]. intros r x' [-> Hx']. by rewrite E1, E2 in *.
Qed.

Lemma wait_data_ok n : forall k rest c c1 x,
  cd_sel c = true -> refill ci c = set_out (repeat 0xFF k ++ 0xFE :: rest) c1 -> quiet c1 -> (k < n)%nat -> at_card true c d x ->
  mtotal (fun found x' => found = true /\ at_card true (set_out rest c1) d x') (wait_data n x).
Proof.
  induction n as [|n IH]; intros k rest c c1 x Hs Hr Hq Hk Hx; [lia|]. cbn [wait_data]. destruct k as [|k].
  - eapply ototal_bind; [by apply (receive1_refill 0xFE rest c c1)|]. intros r x' [-> Hx']. by cbn.
  - eapply ototal_bind; [by apply (receive1_refill 0xFF (repeat 0xFF k ++ 0xFE :: rest) c c1)|]. intros r x' [-> Hx'].
    cbn iota. apply (IH k rest (set_out (repeat 0xFF k ++ 0xFE :: rest) c1) c1); [apply Hq| |done|lia|done].
    destruct k; apply refill_out.
Qed.

(** Bytes that are known to be sent. *)
Lemma receive_out n l1 l2 c x :
  quiet c -> 0 < n < 2^16 -> length l1 = Z.to_nat n -> Forall (fun b => 0 <= b < 256) l1 ->
  at_card true (set_out (l1 ++ l2) c) d x ->
  mtotal (fun l x' => l = l1 /\ at_card true (set_out l2 c) d x') (receive n x).
Proof.
  intros Hq Hn Hl Hb Hx. eapply ototal_mono; [by apply (receive_ok port_ok d config n _ _ Hn Hx)|].
  intros l x' [-> Hx']. rewrite <-Hl, drain in * by done. split; [|done]. cbn.
  clear -Hb. induction Hb as [|b l1 Hb _ IH]; [done|]. cbn. rewrite IH. by rewrite u8_small.
Qed.

Lemma ignore_out n l1 l2 c x :
  quiet c -> 0 < n < 2^16 -> length l1 = Z.to_nat n -> at_card true (set_out (l1 ++ l2) c) d x ->
  mtotal (fun _ x' => at_card true (set_out l2 c) d x') (ignore n x).
Proof.
  intros Hq Hn Hl Hx. eapply ototal_mono; [by apply (ignore_ok port_ok d config n _ _ Hn Hx)|].
  intros [] x' Hx'. by rewrite <-Hl, drain in Hx'.
Qed.

Definition block_ok (l : list Z) : Prop := length l = 512%nat /\ Forall (fun b => 0 <= b < 256) l.

Hypothesis nac_bound : forall k, (ci_nac ci k < MMC_WAIT_DATA)%nat.

Lemma sequential_read_ok blk data c x :
  mmc_state d = BLK_READING -> card_in (Reading blk) data c -> cd_out c = [] -> blk < ci_blocks ci -> block_ok (data blk) ->
  at_card true c d x ->
  mtotal (fun r x' => r = (CH_SUCCESS, data blk) /\
    exists c', card_in (Reading (blk + 1)) data c' /\ cd_out c' = [] /\ at_card true c' d x') (mmcSequentialRead x).
Proof.
  intros Hst (Hs & Hc & Hm & Hd & Hi) Ho Hblk [Hlen Hby] Hx. unfold mmcSequentialRead, bind at 1, get_mmc, gets. cbn [obind].
  rewrite (proj2 Hx), Hst. cbn [negb bool_decide decide decide_rel blkstate_eq_dec].
  rewrite bool_decide_eq_true_2 by done. cbn [negb].
  set (c1 := event (set_mode (Reading (blk + 1)) c)). set (crc := take 2 (ci_crc ci blk ++ [0; 0])).
  assert (length crc = 2%nat) as Hcrc.
  { unfold crc. rewrite length_take, length_app. cbn [length]. lia. }
  assert (quiet c1) as Hq by (split_and!; done).
  assert (refill ci c = set_out (repeat 0xFF (ci_nac ci (cd_events c)) ++ 0xFE :: (data blk ++ crc)) c1) as Hr.
  { unfold refill. rewrite Hm, Ho. unfold block_stream. by rewrite (proj2 (Z.ltb_lt _ _) Hblk), Hd. }
  eapply ototal_bind; [apply (wait_data_ok MMC_WAIT_DATA (ci_nac ci (cd_events c)) (data blk ++ crc) c c1); [done..|apply nac_bound|done]|].
  intros f x1 [-> Hx1].
  eapply ototal_bind; [apply (receive_out 512 (data blk) crc c1); [done|lia|done|done|done]|]. intros buf x2 [-> Hx2].
  eapply ototal_bind; [apply (ignore_out 2 crc [] c1); [done|lia|done|by rewrite app_nil_r]|]. intros [] x3 Hx3.
  cbn. split; [done|]. exists (set_out [] c1). split; [by split_and!|]. by split.
Qed.

(** Consecutive blocks. *)
Definition blocks_from (data : Z -> list Z) (blk : Z) (n : nat) : list (list Z) := map data (seqZ blk (Z.of_nat n)).

Lemma read_blocks_ok n : forall blk data c x,
  mmc_state d = BLK_READING -> card_in (Reading blk) data c -> cd_out c = [] -> blk + Z.of_nat n <= ci_blocks ci ->
  (forall b, blk <= b < blk + Z.of_nat n -> block_ok (data b)) -> at_card true c d x ->
  mtotal (fun r x' => r = (CH_SUCCESS, blocks_from data blk n) /\
    exists c' blk', card_in (Reading blk') data c' /\ at_card true c' d x') (read_blocks n x).
Proof.
  induction n as [|n IH]; intros blk data c x Hst Hc Ho Hn Hb Hx; cbn [read_blocks].
  - cbn. split; [done|]. by exists c, blk.
  - eapply ototal_bind; [apply (sequential_read_ok blk data c); [done..|lia|apply Hb; lia|done]|].
    intros r x1 (-> & c1 & Hc1 & Ho1 & Hx1). cbn [fst snd].
    eapply ototal_bind; [apply (IH (blk + 1) data c1); [done..|lia|intros b Hb'; apply Hb; lia|done]|].
    intros r x2 (-> & c2 & blk2 & Hc2 & Hx2). cbn. split; [|by exists c2, blk2].
    unfold blocks_from. f_equal. rewrite (seqZ_cons blk (Z.of_nat (S n))) by lia. cbn [map].
    by replace (Z.succ blk) with (blk + 1) by lia; replace (Z.pred (Z.of_nat (S n))) with (Z.of_nat n) by lia.
Qed.

Lemma stop_read_ok n blk data c x :
  ci_check ci MMCSD_CMD_STOP_TRANSMISSION = false ->
  (forall k, (ci_busy ci k <= n)%nat) ->
  mmc_state d = BLK_READING -> card_in (Reading blk) data c -> at_card true c d x ->
  mtotal (fun r x' => r = CH_SUCCESS /\ exists c', parked n data c' /\
    at_card true c' (set_mmc_state BLK_READY d) x') (mmcStopSequentialRead x).
Proof.
  intros stop_unchecked Hbusy Hst (Hs & Hc & Hm & Hd & Hi) Hx. unfold mmcStopSequentialRead, bind at 1, get_mmc, gets. cbn [obind].
  rewrite (proj2 Hx), Hst, bool_decide_eq_true_2 by done. cbn [negb].
  eapply ototal_bind; [apply (send_ok port_ok d config _ c); [cbn; lia|by bytes|done]|].
  intros [] x1 Hx1. change (Z.lor 0x40 MMCSD_CMD_STOP_TRANSMISSION) with 0x4C in Hx1.
  change [76; 0; 0; 0; 0; 1; 255] with ([76; 0; 0; 0; 0; 1] ++ [255]) in Hx1.
  rewrite xchg_all_app in Hx1. cbn zeta in Hx1. cbn [snd] in Hx1.
  destruct (command_xchg ci 76 0 0 0 0 1 c) as (c' & E & [[L1 L2] L3 Li _] & Hc'); [split; eauto|done|done|unfold crc_good; cbn -[divide message Z.eqb]; change (Z.land 76 63) with MMCSD_CMD_STOP_TRANSMISSION; by rewrite stop_unchecked|].
  rewrite E in Hx1. clear E. unfold execute in Hx1. rewrite reply_ready in Hx1 by (rewrite ?Li; done || set_solver).
  match type of Hx1 with at_bus _ (xchg_all _ _ ?k).2 _ _ => change k with
    (set_out (0x7F :: repeat 0xFF (ci_ncr ci (cd_events c')) ++ 0 :: busy ci c') (event (set_mode Tran (set_id (mkIdent 0 false) c')))) in Hx1 end.
  rewrite drain_one in Hx1 by (split_and!; done). cbn [snd] in Hx1.
  eapply ototal_bind; [apply (recvr1_loop_ok 9 (ci_ncr ci (cd_events c')) 0 (busy ci c') (event (set_mode Tran (set_id (mkIdent 0 false) c'))))|].
  - split_and!; done.
  - specialize (ncr_bound (cd_events c')). lia.
  - done.
  - exact Hx1.
  - intros r x2 [_ Hx2].
    eapply ototal_bind; [by apply (unselect_ok port_ok d config _ _ Hx2)|]. intros [] x3 Hx3.
    eapply ototal_bind; [by apply (set_mmc_ok (set_mmc_state BLK_READY) _ _ _ _ Hx3)|]. intros [] x4 Hx4.
    cbn. split; [done|]. eexists. split; [|exact Hx4]. split_and!; [done| |by rewrite <-Hd, <-L3|done].
    cbn. unfold busy. rewrite repeat_length. apply Hbusy.
Qed.

(** ** Writing blocks *)

Lemma sequential_write_ok rounds blk data block c x :
  (forall k, (ci_busy ci k <= rounds)%nat) -> block_ok block ->
  mmc_state d = BLK_WRITING -> card_in (Writing blk) data c -> at_card true c d x ->
  mtotal (fun r x' => r = CH_SUCCESS /\
    exists c', card_in (Writing (blk + 1)) (<[blk := block]> data) c' /\ at_card true c' d x') (mmcSequentialWrite rounds block x).
Proof.
  intros Hbusy [Hlen Hby] Hst (Hs & Hc & Hm & Hd & Hi) Hx. unfold mmcSequentialWrite, bind at 1, get_mmc, gets. cbn [obind].
  rewrite (proj2 Hx), Hst, bool_decide_eq_true_2 by done. cbn [negb].
  assert (quiet c) as Hq by (split_and!; [done|done|by rewrite Hm]).
  eapply ototal_bind; [apply (send_ok port_ok d config _ c); [cbn; lia|by bytes|done]|]. intros [] x1 Hx1.
  eapply ototal_bind; [apply (send_ok port_ok d config block); [lia|done|exact Hx1]|]. intros [] x2 Hx2.
  eapply ototal_bind; [apply (ignore_ok port_ok d config 2); [lia|exact Hx2]|]. intros [] x3 Hx3.
  change (repeat 255 (Z.to_nat 2)) with [0xFF; 0xFF] in Hx3. rewrite (write_xchg ci block c blk Hq Hm Hlen), Hd in Hx3.
  set (c3 := event _) in Hx3. assert (card_in (Writing (blk + 1)) (<[blk := block]> data) c3) as Hc3 by by split_and!.
  assert (resting c3) as Hr by by split; [split_and!|].
  eapply ototal_bind; [apply (receive1_out 0xE5 (busy ci c) c3); [apply Hr|exact Hx3]|]. intros b x4 [-> Hx4].
  change (Z.land (u8 0xE5) 0x1F =? 5) with true. cbn iota.
  eapply ototal_bind; [apply (wait_ok rounds (busy ci c) c3); [done| |exact Hx4]|].
  { unfold busy. rewrite repeat_length. apply Hbusy. }
  intros [] x5 (l1 & l2 & _ & Hx5). cbn. split; [done|]. by exists (set_out l2 c3).
Qed.

(** The data after blocks were written one after the other. *)
Fixpoint store_blocks (blk : Z) (blocks : list (list Z)) (data : Z -> list Z) : Z -> list Z :=
  match blocks with
  | [] => data
  | b :: blocks => store_blocks (blk + 1) blocks (<[blk := b]> data)
  end.

Lemma write_blocks_ok rounds blocks : forall blk data c x,
  (forall k, (ci_busy ci k <= rounds)%nat) -> Forall block_ok blocks ->
  mmc_state d = BLK_WRITING -> card_in (Writing blk) data c -> at_card true c d x ->
  mtotal (fun r x' => r = CH_SUCCESS /\
    exists c' blk', card_in (Writing blk') (store_blocks blk blocks data) c' /\ at_card true c' d x') (write_blocks rounds blocks x).
Proof.
  induction blocks as [|b blocks IH]; intros blk data c x Hbusy Hb Hst Hc Hx; cbn [write_blocks].
  - cbn. split; [done|]. by exists c, blk.
  - inversion Hb as [|?? Hb1 Hbs]; subst. unfold or_failed.
    eapply ototal_bind; [by apply (sequential_write_ok rounds blk data b c)|]. intros r x1 (-> & c1 & Hc1 & Hx1).
    cbn iota. by apply (IH (blk + 1) _ c1).
Qed.

Lemma stop_write_ok n blk data c x :
  (forall k, (ci_busy ci k <= n)%nat) ->
  mmc_state d = BLK_WRITING -> card_in (Writing blk) data c -> at_card true c d x ->
  mtotal (fun r x' => r = CH_SUCCESS /\ exists c', parked n data c' /\
    at_card true c' (set_mmc_state BLK_READY d) x') (mmcStopSequentialWrite x).
Proof.
  intros Hbusy Hst (Hs & Hc & Hm & Hd & Hi) Hx. unfold mmcStopSequentialWrite, bind at 1, get_mmc, gets. cbn [obind].
  rewrite (proj2 Hx), Hst, bool_decide_eq_true_2 by done. cbn [negb].
  assert (quiet c) as Hq by (split_and!; [done|done|by rewrite Hm]).
  eapply ototal_bind; [apply (send_ok port_ok d config _ c); [cbn; lia|by bytes|done]|]. intros [] x1 Hx1.
  rewrite (write_stop_xchg ci c blk) in Hx1 by done.
  eapply ototal_bind; [by apply (unselect_ok port_ok d config _ _ Hx1)|]. intros [] x2 Hx2.
  eapply ototal_bind; [by apply (set_mmc_ok (set_mmc_state BLK_READY) _ _ _ _ Hx2)|]. intros [] x3 Hx3.
  cbn. split; [done|]. eexists. split; [|exact Hx3]. split_and!; [done| |done|done].
  cbn. unfold busy. rewrite repeat_length. apply Hbusy.
Qed.
End Card.
