(* ===== verification/MmcConn.v ===== *)
(** * Memory cards over SPI: connection

    The commands of the identification of a card, and [mmcConnect()] as a
    whole, on any bus that keeps the contract. *)
From S2P Require Import Prelude Monad Types Sched Threads Sys MMCSD Sdc Dma Spi.
From S2P Require Import Total SpiOK Crc7 MmcSpi MmcCard MmcOK.

(** The delays of a card are within what the driver waits for, and it does not
    verify the checksum of the stop command, which the driver does not compute. *)
Record timely (ci : card_info) (rounds : nat) : Prop := mkTimely {
  ti_ncr : forall k, (ci_ncr ci k <= 8)%nat;
  ti_nac : forall k, (ci_nac ci k < MMC_WAIT_DATA)%nat;
  ti_busy : forall k, (ci_busy ci k <= rounds)%nat;
  ti_stop : ci_check ci MMCSD_CMD_STOP_TRANSMISSION = false
}.

Lemma rest_all ci n c : resting c -> cd_out c = [] -> xchg_all (card_step ci) (repeat 0xFF n) c = (repeat 0xFF n, c).
Proof.
  intros Hr Ho. induction n as [|n IH]; [done|]. cbn [repeat].
  change (0xFF :: repeat 0xFF n) with ([0xFF] ++ repeat 0xFF n). rewrite xchg_all_app, rest_one by done. cbn [fst snd]. by rewrite IH.
Qed.

Section Connection.
Context {W : Type} `{Config} `{SpiPort W} {G : susp -> W -> Prop} {R : susp -> W -> W -> Prop} {ci : card_info}.
Context {off : card -> W -> Prop} {on locked : bool -> card -> W -> Prop} {mc : MMCConfig}.
Hypothesis port_ok : SpiPortOK G R off on locked (card_step ci) set_sel mc.
Variable rounds : nat.
Hypothesis delays : timely ci rounds.
Hypothesis tick_ok : 0 < MS2ST 10 < 2^32.
Implicit Types (x : mmcw W) (d : MMCDriver) (c : card).
Abbreviation mtotal := (ototal (mG (G := G)) (mR (R := R))).
Abbreviation at_card := (at_bus (on := on)).

(** A card that waits for a command. *)
Definition idling (i : ident) (data : Z -> list Z) c : Prop :=
  cd_mode c = Tran /\ (length (cd_out c) <= rounds)%nat /\ cd_data c = data /\ cd_id c = i.
(** The state of the bus and the card between two commands. *)
Definition at_ident (i : ident) (data : Z -> list Z) d x : Prop := exists c, idling i data c /\ at_card true c d x.

Section Driver.
Variable d : MMCDriver.
Hypothesis config : mmc_config d = Some mc.
Variable data : Z -> list Z.

(** A command is sent: the card executes it. *)
Lemma command_ok {A} cmd arg i (k : M (mmcw W) A) (Q : A -> mmcw W -> Prop) x :
  cmd_ok cmd -> 0 <= arg < 2^32 -> at_ident i data d x ->
  (forall c x', idling i data c -> cd_sel c = true -> cd_cmd c = [] -> at_card true (execute ci cmd arg c) d x' -> mtotal Q (k x')) ->
  mtotal Q ((select ;;; send_hdr rounds cmd arg ;;; k) x).
Proof.
  intros Hc Ha (c & (Hm & Hl & Hd & Hi) & Hx) Hk.
  eapply ototal_bind; [by apply (select_ok port_ok d config c)|]. intros [] x1 Hx1.
  eapply ototal_bind; [by apply (send_hdr_ok port_ok d config rounds cmd arg (set_sel true c))|].
  intros [] x2 (c' & Hx2 & [[L1 L2] L3 Li L4] & Hc').
  (* what the card had to send does not matter any more *)
  apply (Hk (set_out [] c') x2); [|done|done|].
  - split_and!; [by apply L4|cbn; lia|by rewrite <-Hd|by rewrite <-Hi].
  - assert (execute ci cmd arg (set_out [] c') = execute ci cmd arg c') as ->; [|done].
    unfold execute. cbn [cd_id set_out]. destruct (reply ci cmd (cd_id c')) as [[[r1 more] i']|]; [done|].
    unfold transfer_command. by destruct (block_of ci arg).
Qed.

Lemma unselect_ident {A} i c (a : A) (Q : A -> mmcw W -> Prop) x :
  idling i data c -> at_card true c d x -> (forall x', at_ident i data d x' -> Q a x') -> mtotal Q ((unselect ;;; mret' a) x).
Proof.
  intros (Hm & Hl & Hd & Hi) Hx HQ. eapply ototal_bind; [by apply (unselect_ok port_ok d config c)|].
  intros [] x' Hx'. apply HQ. exists (set_sel false c). split; [by split_and!|done].
Qed.

(** The first byte of an answer came in; [more] is what the card still sends. *)
Definition answered (r1 : Z) (more : list Z) (i : ident) (r : Z) x : Prop :=
  r = r1 /\ exists c, idling i data c /\ cd_out c = [] /\ resting c /\ at_card true (set_out more c) d x.

Lemma reply_ok {A} cmd arg i r1 more i' (k : M (mmcw W) A) (Q : A -> mmcw W -> Prop) x :
  cmd_ok cmd -> 0 <= arg < 2^32 -> reply ci cmd i = Some (r1, more, i') -> 0 <= r1 < 0xFF -> at_ident i data d x ->
  (forall x', mtotal (answered r1 more i') (recvr1 x') -> mtotal Q (k x')) ->
  mtotal Q ((select ;;; send_hdr rounds cmd arg ;;; k) x).
Proof.
  intros Hc Ha Hr Hr1 Hx Hk. apply (command_ok cmd arg i); [done..|]. intros c x1 (Hm & Hl & Hd & Hi) Hs Hcm Hx1.
  apply Hk. unfold execute in Hx1. rewrite Hi, Hr in Hx1.
  eapply ototal_mono; [apply (recvr1_loop_ok port_ok d config 9 (ci_ncr ci (cd_events c)) r1 more (event (set_id i' c)))|].
  - split_and!; [done|done|]. cbn. intros; congruence.
  - pose proof (ti_ncr _ _ delays (cd_events c)). lia.
  - rewrite u8_small by (hnf; lia). lia.
  - exact Hx1.
  - intros r x2 [-> Hx2]. rewrite u8_small by (hnf; lia). split; [done|]. exists (set_out [] (event (set_id i' c))). split_and!.
    + split_and!; [done|cbn; lia|done|done].
    + done.
    + split; [split_and!; try done|]; cbn; intros; congruence.
    + exact Hx2.
Qed.

Lemma R1_ok cmd arg i r1 i' x :
  cmd_ok cmd -> 0 <= arg < 2^32 -> reply ci cmd i = Some (r1, [], i') -> 0 <= r1 < 0xFF -> at_ident i data d x ->
  mtotal (fun r x' => r = r1 /\ at_ident i' data d x') (send_command_R1 rounds cmd arg x).
Proof.
  intros Hc Ha Hr Hr1 Hx. unfold send_command_R1. apply (reply_ok cmd arg i r1 [] i'); [done..|].
  intros x0 Hrec. eapply ototal_bind; [exact Hrec|].
  intros r x1 (-> & c & Hc1 & Ho & _ & Hx1). rewrite <-Ho, set_out_id in Hx1. by apply (unselect_ident i' c).
Qed.

(** The four bytes after an answer, whether the command has them or not. *)
Definition tail_ok (more : list Z) : Prop := more = [] \/ length more = 4%nat /\ Forall (fun b => 0 <= b < 256) more.

Lemma receive4_ok more c x :
  tail_ok more -> cd_out c = [] -> resting c -> at_card true (set_out more c) d x ->
  mtotal (fun l x' => (more <> [] -> l = more) /\ at_card true c d x') (receive 4 x).
Proof.
  intros [-> |[Hlen Hby]] Ho Hq Hx.
  - rewrite <-Ho, set_out_id in Hx. eapply ototal_mono; [by apply (receive_ok port_ok d config 4 c)|].
    intros l x2 [_ Hx2]. by rewrite rest_all in Hx2.
  - eapply ototal_mono; [apply (receive_out port_ok d config 4 more [] c); [apply Hq|lia|done|done|by rewrite app_nil_r]|].
    intros l x2 [-> Hx2]. by rewrite <-Ho, set_out_id in Hx2.
Qed.

Lemma R3_ok cmd arg i r1 more i' x :
  cmd_ok cmd -> 0 <= arg < 2^32 -> reply ci cmd i = Some (r1, more, i') -> 0 <= r1 < 0xFF -> tail_ok more -> at_ident i data d x ->
  mtotal (fun r x' => r.1 = r1 /\ (more <> [] -> r.2 = more) /\ at_ident i' data d x') (send_command_R3 rounds cmd arg x).
Proof.
  intros Hc Ha Hr Hr1 Hmore Hx. unfold send_command_R3. apply (reply_ok cmd arg i r1 more i'); [done..|]. intros x0 Hrec.
  eapply (ototal_bind _ _ (fun r x' => r.1 = r1 /\ (more <> [] -> r.2 = more) /\ exists c, idling i' data c /\ at_card true c d x')).
  - unfold recvr3. eapply ototal_bind; [exact Hrec|]. intros r x1 (-> & c & Hc1 & Ho & Hq & Hx1).
    eapply ototal_bind; [by apply (receive4_ok more c)|]. intros l x2 [Hl Hx2]. cbn. split_and!; [done|done|by exists c].
  - intros r x1 (E1 & E2 & c & Hc1 & Hx1). apply (unselect_ident i' c); [done|done|]. by intros x2 Hx2.
Qed.

(** ** Registers *)

Lemma read_CxD_ok cmd r i old x :
  (cmd = MMCSD_CMD_SEND_CSD /\ r = ci_csd ci \/ cmd = MMCSD_CMD_SEND_CID /\ r = ci_cid ci) ->
  length r = 16%nat -> Forall (fun b => 0 <= b < 256) r -> id_init i = 0%nat -> at_ident i data d x ->
  mtotal (fun res x' => res = (CH_SUCCESS, be_words r) /\ at_ident (mkIdent 0 false) data d x') (read_CxD rounds cmd old x).
Proof.
  intros Hcmd Hlen Hby Hi Hx. unfold read_CxD. apply (command_ok cmd 0 i); [by destruct Hcmd as [[-> _]|[-> _]]|done|done|].
  intros c x1 (Hm & Hl & Hd & Hid) Hs Hcm Hx1. set (c0 := set_id (mkIdent 0 false) c).
  assert (execute ci cmd 0 c = register_command ci r c0) as Ee.
  { unfold execute. destruct Hcmd as [[-> ->]|[-> ->]]; by rewrite reply_ready by (set_solver || by rewrite Hid). }
  rewrite Ee in Hx1. clear Ee. set (c1 := event c0).
  set (more := repeat 0xFF (ci_nac ci (cd_events c0)) ++ 0xFE :: r ++ [0; 0]).
  assert (quiet c1) as Hq by (split_and!; [done|done|cbn; intros; congruence]).
  eapply ototal_bind; [apply (recvr1_loop_ok port_ok d config 9 (ci_ncr ci (cd_events c0)) 0 more c1)|].
  - done.
  - pose proof (ti_ncr _ _ delays (cd_events c0)). lia.
  - done.
  - exact Hx1.
  - intros r1 x2 [-> Hx2]. change (negb (u8 0 =? 0)) with false. cbn iota.
    eapply ototal_bind; [eapply (wait_data_ok port_ok d config MMC_WAIT_DATA (ci_nac ci (cd_events c0)) (r ++ [0; 0]) (set_out more c1) c1 x2)|].
    + apply Hq.
    + unfold refill. cbn [cd_mode set_out c1 c0 event set_id]. rewrite Hm. reflexivity.
    + done.
    + apply (ti_nac _ _ delays).
    + exact Hx2.
    + intros f x3 [-> Hx3].
      eapply ototal_bind; [by apply (receive_out port_ok d config 16 r [0; 0] c1); [|lia|..]|]. intros l x4 [-> Hx4].
      eapply ototal_bind; [by apply (ignore_out port_ok d config 2 [0; 0] [] c1)|]. intros [] x5 Hx5.
      apply (unselect_ident (mkIdent 0 false) (set_out [] c1)); [by split_and!; [|cbn; lia| |]|done|]. by intros x6 Hx6.
Qed.

(** ** The steps of the connection *)

Lemma go_idle_ok i tries x :
  at_ident i data d x ->
  mtotal (fun failed x' => failed = CH_SUCCESS /\ at_ident (mkIdent (S (ci_init ci)) false) data d x') (go_idle rounds tries x).
Proof.
  intros Hx. assert (forall k, mtotal (fun failed x' => failed = CH_SUCCESS /\ at_ident (mkIdent (S (ci_init ci)) false) data d x')
    ((let! r1 := send_command_R1 rounds MMCSD_CMD_GO_IDLE_STATE 0 in if r1 =? 1 then mret' CH_SUCCESS else k) x)) as Hk.
  { intros k. eapply ototal_bind; [by apply (R1_ok MMCSD_CMD_GO_IDLE_STATE 0 i 1)|]. by intros r x' [-> Hx']. }
  destruct tries; apply Hk.
Qed.

Lemma sleep10_ok i x : at_ident i data d x -> mtotal (fun _ x' => at_ident i data d x') (sleep10 x).
Proof.
  intros (c & Hc & Hx). eapply ototal_mono; [by apply (sleep_ok port_ok d (MS2ST 10) true c)|]. intros [] x' Hx'. by exists c.
Qed.

(** What a loop of polls leaves: when it succeeds the card is ready. *)
Definition polled_ready (ok failed : bool) x : Prop :=
  failed = negb ok /\ exists i, (failed = CH_SUCCESS -> id_init i = 0%nat) /\ at_ident i data d x.

(** [S n] polls are needed; a card that needs more than the tries is given up. *)
Lemma sdhc_mode_ok tries : forall n app x,
  at_ident (mkIdent (S n) app) data d x -> mtotal (polled_ready (n <? S tries)%nat) (sdhc_mode rounds (S tries) x).
Proof.
  induction tries as [|tries IH]; intros n app x Hx; cbn [sdhc_mode];
    (eapply ototal_bind; [by apply (R1_ok MMCSD_CMD_APP_CMD 0 (mkIdent (S n) app) 1 (mkIdent (S n) true))|]); intros r x1 [-> Hx1];
    cbn [Z.eqb Pos.eqb];
    (eapply (ototal_bind _ _ (fun (ok : bool) x' => ok = (idle_bit n =? 0) /\ at_ident (mkIdent n false) data d x')); [eapply ototal_bind;
      [apply (R3_ok MMCSD_CMD_APP_OP_COND 0x400001aa (mkIdent (S n) true) (idle_bit n) [] (mkIdent n false)); [done|lia|done|by destruct n|by left|done]|
       intros r x2 (Er & _ & Hx2); cbn; by rewrite Er]|]);
    intros ok x2 [-> Hx2].
  - destruct n as [|n]; cbn; (split; [done|]); eexists; by (split; [|exact Hx2]).
  - destruct n as [|n]; [cbn; split; [done|]; eexists; by (split; [|exact Hx2])|]. cbn iota.
    eapply ototal_bind; [by apply sleep10_ok|]. intros [] x3 Hx3. by apply (IH n false).
Qed.

Lemma init_card_ok tries : forall n app x,
  at_ident (mkIdent n app) data d x -> mtotal (polled_ready (pred n <? S tries)%nat) (init_card rounds (S tries) x).
Proof.
  induction tries as [|tries IH]; intros n app x Hx; cbn [init_card];
    (eapply ototal_bind; [by apply (R1_ok MMCSD_CMD_INIT 0 (mkIdent n app) (idle_bit (pred n)) (mkIdent (pred n) false)); [..|destruct n as [|[]]|]|]);
    intros r x1 [-> Hx1].
  - destruct n as [|[|n]]; cbn in *; (split; [done|]); eexists; by (split; [|exact Hx1]).
  - destruct n as [|[|n]]; cbn in Hx1 |- *; [split; [done|]; eexists; by (split; [|exact Hx1])..|].
    eapply ototal_bind; [by apply sleep10_ok|]. intros [] x2 Hx2. by apply (IH (S n) false).
Qed.

Lemma set_blocklen_ok i x :
  id_init i = 0%nat -> at_ident i data d x ->
  mtotal (fun failed x' => failed = CH_SUCCESS /\ at_ident (mkIdent 0 false) data d x') (set_blocklen rounds x).
Proof.
  intros Hi Hx. unfold set_blocklen. eapply ototal_bind.
  - apply (R1_ok MMCSD_CMD_SET_BLOCKLEN MMCSD_BLOCK_SIZE i 0 (mkIdent 0 false)); [done|done| |done|done].
    unfold reply. by rewrite Hi.
  - by intros r x' [-> Hx'].
Qed.
End Driver.

(** How the driver addresses the blocks, after the detection. *)
Definition detected d : MMCDriver := if ci_v2 ci && ci_hc ci then set_mmc_block_addresses true d else d.

Lemma detected_config d : mmc_config (detected d) = mmc_config d.
Proof. unfold detected. by destruct (_ && _). Qed.

Lemma set_mmc_ident f i data d x : at_ident i data d x -> mtotal (fun _ x' => at_ident i data (f d) x') (set_mmc f x).
Proof.
  intros (c & Hc & Hx). eapply ototal_mono; [by apply (set_mmc_ok f _ _ _ _ Hx)|]. intros [] x' Hx'. by exists c.
Qed.

(** Only a card that knows the first command is polled here. *)
Lemma detect_hc_ok d data x :
  mmc_config d = Some mc -> at_ident (mkIdent (S (ci_init ci)) false) data d x ->
  mtotal (fun failed x' => failed = ci_v2 ci && negb (ci_init ci <? MMC_ACMD41_RETRY)%nat /\
    exists i, (failed = CH_SUCCESS -> id_init i = if ci_v2 ci then 0%nat else S (ci_init ci)) /\
      at_ident i data (if failed then d else detected d) x') (detect_hc rounds x).
Proof.
  intros Hc Hx. unfold detect_hc, detected. destruct (ci_v2 ci) eqn:Ev.
  - eapply ototal_bind; [apply (R3_ok d Hc data MMCSD_CMD_SEND_IF_COND MMCSD_CMD8_PATTERN (mkIdent (S (ci_init ci)) false) 1 [0; 0; 1; 0xAA]
      (mkIdent (S (ci_init ci)) false)); [done|done|by unfold reply; rewrite Ev|done|right; split; [done|by bytes]|done]|].
    intros r x1 (-> & _ & Hx1). change (negb (1 =? 5)) with true. cbn iota. unfold or_failed.
    eapply ototal_bind; [by apply (sdhc_mode_ok d Hc data 99 (ci_init ci) false x1)|].
    intros failed x2 (-> & i & Hi & Hx2). change (S 99) with MMC_ACMD41_RETRY in *.
    destruct (ci_init ci <? MMC_ACMD41_RETRY)%nat; cbn [negb andb]; [|cbn; split; [done|]; by exists i].
    specialize (Hi eq_refl).
    eapply ototal_bind; [apply (R3_ok d Hc data MMCSD_CMD_READ_OCR 0 i 0 (ocr ci) (mkIdent 0 false)); [done|done| |done| |done]|].
    { unfold reply. by rewrite Hi. }
    { right. unfold ocr. split; [done|]. destruct (ci_hc ci); by bytes. }
    intros r3 x3 (_ & Er3 & Hx3). rewrite Er3 by done. unfold ocr. cbn [head default].
    eapply (ototal_bind _ _ (fun _ x' => at_ident (mkIdent 0 false) data (if ci_hc ci then set_mmc_block_addresses true d else d) x')).
    + destruct (ci_hc ci); [by apply set_mmc_ident|done].
    + intros [] x4 Hx4. cbn. split; [done|]. by exists (mkIdent 0 false).
  - eapply ototal_bind; [apply (R3_ok d Hc data MMCSD_CMD_SEND_IF_COND MMCSD_CMD8_PATTERN (mkIdent (S (ci_init ci)) false) 5 []
      (mkIdent (S (ci_init ci)) false)); [done|done|by unfold reply; rewrite Ev|done|by left|done]|].
    intros r x1 (-> & _ & Hx1). cbn. split; [done|]. by exists (mkIdent (S (ci_init ci)) false).
Qed.

(** The registers of the card. *)
Definition registers d n : MMCDriver :=
  set_mmc_cid (be_words (ci_cid ci)) (set_mmc_capacity n (set_mmc_csd (be_words (ci_csd ci)) d)).

Definition register_bytes (l : list Z) : Prop := length l = 16%nat /\ Forall (fun b => 0 <= b < 256) l.

Hypothesis csd_bytes : register_bytes (ci_csd ci).
Hypothesis cid_bytes : register_bytes (ci_cid ci).
(** The capacity in the register. *)
Variable n : Z.
Hypothesis csd_capacity : forall s, mmcsdGetCapacity (be_words (ci_csd ci)) s = Done n s.

Lemma read_registers_ok i data d x :
  mmc_config d = Some mc -> id_init i = 0%nat -> at_ident i data d x ->
  mtotal (fun failed x' => failed = (n =? 0) /\
      exists d', mmc_config d' = Some mc /\ (failed = CH_SUCCESS -> d' = registers d n) /\ at_ident (mkIdent 0 false) data d' x')
    (or_failed (read_csd_capacity rounds) (read_cid_register rounds) x).
Proof.
  intros Hc Hi Hx. destruct csd_bytes as [L1 B1], cid_bytes as [L2 B2]. unfold or_failed.
  eapply (ototal_bind _ _ (fun failed x' => failed = (n =? 0) /\
    at_ident (mkIdent 0 false) data (set_mmc_capacity n (set_mmc_csd (be_words (ci_csd ci)) d)) x')).
  - unfold read_csd_capacity, bind at 1, get_mmc, gets. cbn [obind].
    eapply ototal_bind; [by apply (read_CxD_ok d Hc data MMCSD_CMD_SEND_CSD (ci_csd ci) i); [left|..]|].
    intros r x1 [-> Hx1]. cbn [fst snd]. cbn iota.
    eapply ototal_bind; [by apply (set_mmc_ident (set_mmc_csd (be_words (ci_csd ci))) _ _ _ _ Hx1)|]. intros [] x2 Hx2.
    unfold bind at 1. rewrite (pure_ok port_ok _ n) by done. cbn [obind].
    eapply ototal_bind; [by apply (set_mmc_ident (set_mmc_capacity n) _ _ _ _ Hx2)|]. by intros [] x3 Hx3.
  - intros failed x1 [-> Hx1]. destruct (n =? 0); [cbn; split; [done|]; by eexists; split; [|split; [|exact Hx1]]|].
    unfold read_cid_register, bind at 1, get_mmc, gets. cbn [obind].
    eapply ototal_bind; [by apply (read_CxD_ok (set_mmc_capacity n (set_mmc_csd (be_words (ci_csd ci)) d)) Hc data MMCSD_CMD_SEND_CID (ci_cid ci) (mkIdent 0 false)); [right|..]|].
    intros r x2 [-> Hx2]. cbn [fst snd]. cbn iota.
    eapply ototal_bind; [by apply (set_mmc_ident (set_mmc_cid (be_words (ci_cid ci))) _ _ _ _ Hx2)|]. intros [] x3 Hx3.
    cbn. split; [done|]. by exists (registers d n).
Qed.

(** The state the steps leave: a bus to be stopped, or the driver with all that
    it found. *)
Definition connected d data (failed : bool) x : Prop :=
  exists i d', mmc_config d' = Some mc /\ at_ident i data d' x /\
    (failed = CH_SUCCESS -> id_init i = 0%nat /\ d' = registers (detected d) n).
Definition connects : bool := (ci_init ci <? MMC_CMD1_RETRY)%nat && negb (n =? 0).

Lemma connect_steps_ok i data d x :
  mmc_config d = Some mc -> at_ident i data d x ->
  mtotal (fun failed x' => failed = negb connects /\ connected d data failed x') (connect_steps rounds x).
Proof.
  intros Hc Hx. unfold connect_steps, or_failed at 1, connects.
  eapply ototal_bind; [by apply (go_idle_ok d Hc data i)|]. intros f x1 [-> Hx1]. cbn iota. unfold or_failed at 1.
  eapply ototal_bind; [by apply (detect_hc_ok d data)|]. intros f x2 (Ef & i2 & Hi2 & Hx2). destruct f.
  { symmetry in Ef. apply andb_true_iff in Ef as [_ Ef%negb_true_iff]. change MMC_CMD1_RETRY with MMC_ACMD41_RETRY. rewrite Ef. cbn. split; [done|]. by exists i2, d. }
  specialize (Hi2 eq_refl). unfold or_failed at 1. rewrite <-detected_config in Hc.
  eapply ototal_bind; [apply (init_card_ok (detected d) Hc data 99 (id_init i2) (id_app i2)); by destruct i2|].
  change (S 99) with MMC_CMD1_RETRY. intros f x3 (-> & i3 & Hi3 & Hx3).
  assert ((pred (id_init i2) <? MMC_CMD1_RETRY)%nat = (ci_init ci <? MMC_CMD1_RETRY)%nat) as E.
  { rewrite Hi2. destruct (ci_v2 ci); [|done]. change MMC_ACMD41_RETRY with MMC_CMD1_RETRY in Ef.
    by destruct (ci_init ci <? MMC_CMD1_RETRY)%nat; [|discriminate Ef]. }
  rewrite E in *. clear Ef E Hi2 Hx2. destruct (ci_init ci <? MMC_CMD1_RETRY)%nat; cbn [negb andb] in *.
  2: { cbn. split; [done|]. by exists i3, (detected d). }
  destruct Hx3 as (c3 & Hc3 & Hx3).
  eapply ototal_bind; [by apply (start_ok port_ok (detected d) Hc mc_hscfg true c3); [right|]|]. intros [] x4 Hx4.
  unfold or_failed at 1.
  eapply ototal_bind; [apply (set_blocklen_ok (detected d) Hc data i3); [by apply Hi3|by exists c3]|]. intros f x5 [-> Hx5]. cbn iota.
  eapply ototal_mono; [by apply (read_registers_ok (mkIdent 0 false) data (detected d))|].
  intros f x6 (-> & d' & Hc' & Hd' & Hx6). split; [by rewrite negb_involutive|]. exists (mkIdent 0 false), d'. by split_and!; [..|split; [|apply Hd']].
Qed.

(** What [mmcConnect()] leaves. *)
Definition connect_post d data (failed : bool) x : Prop :=
  failed = negb connects /\
  if failed
  then exists c' d', mmc_state d' = BLK_ACTIVE /\ mmc_config d' = Some mc /\ cd_data c' = data /\ at_card false c' d' x
  else exists c', parked rounds data c' /\ at_card true c' (set_mmc_state BLK_READY (registers (detected d) n)) x.

Lemma mmcConnect_ok i data c d x :
  mmc_config d = Some mc -> active_or_ready (mmc_state d) = true -> cd_sel c = false -> idling i data c ->
  (off c (m_w x) /\ m_drv x = d \/ exists b, at_card b c d x) -> mtotal (connect_post d data) (mmcConnect rounds x).
Proof.
  intros Hc Hst Hs Hi Hx. assert (m_drv x = d) as Ed by (destruct Hx as [[_ ?]|(b & _ & ?)]; done).
  unfold mmcConnect, bind at 1. rewrite (assert_blk_ok port_ok) by by rewrite Ed. cbn [obind].
  set (d1 := set_mmc_state BLK_CONNECTING d). set (x1 := mkMW (m_w x) d1).
  unfold bind at 1, set_mmc at 1, modify. cbn [obind]. rewrite Ed. fold d1. fold x1.
  eapply (ototal_bind _ _ (fun _ x' => at_card true c d1 x')).
  { destruct Hx as [[Ho _]|(b & Ho & _)]; [by apply (first_ok port_ok d1 Hc); [left|..]|by apply (start_ok port_ok d1 Hc mc_lscfg b); [left|]]. }
  intros [] x2 Hx2.
  eapply ototal_bind; [apply (ignore_ok port_ok d1 Hc 16 c); [lia|done]|]. intros [] x3 Hx3.
  assert (forall m, (xchg_all (card_step ci) (repeat 0xFF m) c).2 = c) as Eu.
  { induction m as [|m IH]; [done|]. cbn [repeat xchg_all snd]. unfold card_step at 2. by rewrite Hs. }
  rewrite Eu in Hx3.
  eapply ototal_bind; [apply (connect_steps_ok i data d1 x3); [done|by exists c]|].
  intros f x4 (-> & i4 & d4 & Hc4 & (c4 & (M4 & L4 & D4 & I4) & Hx4) & Hok). unfold connect_post. destruct connects; cbn [negb] in *.
  - eapply ototal_bind; [by apply (set_mmc_ok (set_mmc_state BLK_READY) _ _ _ _ Hx4)|]. intros [] x5 Hx5.
    destruct (Hok eq_refl) as [Hi0 ->]. cbn. split; [done|]. exists c4. split; [split_and!; [done..|by rewrite I4]|].
    assert (set_mmc_state BLK_READY (registers (detected d1) n) = set_mmc_state BLK_READY (registers (detected d) n)) as <-; [|done].
    unfold detected. by destruct (_ && _).
  - eapply ototal_bind; [by apply (stop_ok port_ok d4 Hc4 _ _ _ Hx4)|]. intros [] x5 Hx5.
    eapply ototal_bind; [by apply (set_mmc_ok (set_mmc_state BLK_ACTIVE) _ _ _ _ Hx5)|]. intros [] x6 Hx6.
    cbn. split; [done|]. by eexists _, _; split_and!; [| | |exact Hx6].
Qed.
End Connection.
