(* ===== verification/MmcBus.v ===== *)
(** * Memory cards over SPI: the bus of the card is the SPI driver

    [spi_port] are the functions of [Spi] with a buffer of the thread in memory:
    the bytes to send are there when the transfer starts, and the bytes received
    are read from it.  [spi_port_ok] discharges the contract [SpiPortOK] with
    the theorems on the SPI driver. *)
From S2P Require Import Prelude Monad Types Sched Threads Sys MMCSD Sdc Dma Spi.
From S2P Require Import Inv InvPrim InvSched Rules Wake TickOK Total SpiOK SpiThm Crc7 MmcSpi MmcOK.

(** ** Bytes in memory *)

Lemma store_all_out vs : forall a m b, b < a \/ a + Z.of_nat (length vs) <= b -> store_all 1 a vs m b = m b.
Proof.
  induction vs as [|v vs IH]; intros a m b Hb; [done|]. cbn [store_all length] in *.
  rewrite IH by lia. unfold store. cbn. by rewrite fn_insert_ne by lia.
Qed.

Lemma store_all_load vs : forall a m, map (store_all 1 a vs m) (seqZ a (Z.of_nat (length vs))) = map u8 vs.
Proof.
  induction vs as [|v vs IH]; intros a m; [done|]. rewrite seqZ_cons by (cbn; lia). cbn [store_all map]. f_equal.
  - rewrite store_all_out by lia. unfold store. cbn. by rewrite fn_insert_eq.
  - replace (Z.pred (Z.of_nat (length (v :: vs)))) with (Z.of_nat (length vs)) by (cbn; lia).
    change (Z.succ a) with (a + 1). apply IH.
Qed.

Lemma map_bytes l : Forall (fun b => 0 <= b < 256) l -> map u8 l = l.
Proof. induction 1 as [|b l Hb _ IH]; [done|]. cbn. by rewrite IH, u8_small. Qed.

Lemma fold_store_out a vs : forall m b, b <> a -> fold_left (fun m v => store 1 a v m) vs m b = m b.
Proof. induction vs as [|v vs IH]; intros m b Hb; [done|]. cbn. rewrite IH by done. unfold store. cbn. by rewrite fn_insert_ne. Qed.

Lemma xchg_all_ext {D} (f g : Z -> D -> Z * D) l : (forall b v, f b v = g b v) -> forall v, xchg_all f l v = xchg_all g l v.
Proof. intros E. induction l as [|b l IH]; intros v; [done|]. cbn. by rewrite E, IH. Qed.

(** ** The functions *)

Section Port.
Context `{Config} {D : Type} `{SpiEnv D}.
Variable buf : Z.

Definition port_send (spip : Z) (bytes : list Z) : M (spiw D) unit :=
  modify (fun x => set_w_mem (store_all 1 buf bytes (w_mem x)) x) ;;; spiSend spip (Z.of_nat (length bytes)) buf.
Definition port_receive (spip n : Z) : M (spiw D) (list Z) :=
  spiReceive spip n buf ;;; gets (fun x => map (w_mem x) (seqZ buf n)).

Definition spi_port : SpiPort (spiw D) := {|
  sp_kernel := @kc D;
  sp_start := spiStart;
  sp_stop := spiStop;
  sp_select := spiSelect;
  sp_unselect := spiUnselect;
  sp_ignore := spiIgnore;
  sp_send := port_send;
  sp_receive := port_receive
|}.
End Port.

(** ** The contract *)

(** The memory of the thread: a buffer, and the dummy word the driver sends. *)
Definition card_mem {D} `{SpiEnv D} (buf a : Z) : Prop := a = dummytx \/ buf <= a < buf + 2^16.

(** Configurations of a card: frames of eight bits, no callback, one line. *)
Record card_config (c : SPIConfig) (ss pad : Z) : Prop := mkCardConfig {
  cc_size : fsize c = 1;
  cc_cb : end_cb c = None;
  cc_port : ssport c = ss;
  cc_pad : sspad c = pad
}.

Section Contract.
Context `{Config} {D : Type} `{SpiEnv D} `{SpiHw D} (p : port) (mc : MMCConfig) (buf ss pad : Z).
Variables (idle : tid) (J : kdata_t -> Prop) (t : tid) (ml : list mid).
Variables (xchg : Z -> D -> Z * D) (sel : bool -> D -> D).
Local Abbreviation spip := (mc_spip mc).
Hypothesis port_p : port_of spip = Some p.
Hypothesis hw_ok : hw_law.
Hypothesis not_idle : t <> idle.
Hypothesis ls_ok : card_config (mc_lscfg mc) ss pad.
Hypothesis hs_ok : card_config (mc_hscfg mc) ss pad.
Hypothesis buf_ok : 0 < buf /\ ~ (buf <= dummytx < buf + 2^16) /\ ~ (buf <= dummyrx < buf + 2^16) /\ dummyrx <> dummytx.
(** The device: its answers are bytes, the line selects it. *)
Hypothesis xchg_frame : forall b v, frame (po_spi p) b v = xchg b v.
Hypothesis xchg_byte : forall b v, 0 <= (xchg b v).1 < 256.
Hypothesis sel_pad : forall b v, pad_write ss pad (negb b) v = sel b v.
Implicit Types (x : spiw D) (c : SPIConfig) (v : D).

Local Abbreviation own := (card_mem buf).
Local Abbreviation G := (wgrd idle J).
Local Abbreviation R := (wrely spip p own idle J t).
Local Abbreviation run := (running idle J t ml).

Definition bus_in (b : bool) x : Prop := exists c, (c = mc_lscfg mc \/ c = mc_hscfg mc) /\
  if b then bus spip p SPI_READY None c x else bus_stopped spip p (Some c) x.
Definition on_device (b : bool) v x : Prop := bus_in b x /\ w_mem x dummytx = 0xFF /\ w_dev x = v.
Definition port_on (b : bool) v x : Prop := run x /\ on_device b v x.
Definition port_off v x : Prop := run x /\ (exists oc, bus_stopped spip p oc x) /\ w_mem x dummytx = 0xFF /\ w_dev x = v.
Definition port_locked (b : bool) v x : Prop := Sst idle J t ml (w_k x) /\ on_device b v x.

Lemma config_ok c : c = mc_lscfg mc \/ c = mc_hscfg mc -> card_config c ss pad.
Proof. by intros [-> | ->]. Qed.

Lemma keeps_device b v x x' : keeps spip p own x x' -> on_device b v x -> on_device b v x'.
Proof.
  intros Hk ((c & Hc & Hb) & Hm & Hd). split_and!.
  - exists c. split; [done|]. destruct b; [by eapply keeps_bus|by eapply keeps_stopped].
  - rewrite (kp_mem _ _ _ _ _ Hk); [done|by left].
  - by rewrite (kp_dev _ _ _ _ _ Hk).
Qed.

Lemma device_thread b v x : on_device b v x -> spi_thread (w_spi x spip) = None.
Proof. intros ((c & _ & Hb) & _). destruct b; [by rewrite (b_drv _ _ _ _ _ _ Hb)|apply Hb]. Qed.

Lemma device_k b v s x : on_device b v x -> on_device b v (set_w_k s x).
Proof.
  intros ((c & Hc & Hb) & Hm & Hd). split_and!; [|done..]. exists c. split; [done|]. destruct b; destruct Hb; by split.
Qed.

(** The transfers of the driver. *)
Lemma port_transfer tr v x :
  0 < t_n tr < 2^16 -> port_on true v x ->
  (t_tx tr = None \/ t_tx tr = Some buf /\ t_rx tr = None) -> (t_rx tr = None \/ t_rx tr = Some buf) ->
  let r := xchg_all xchg (match t_tx tr with Some _ => map (w_mem x) (seqZ buf (t_n tr)) | None => repeat 0xFF (Z.to_nat (t_n tr)) end) v in
  ototal G R (fun _ x' => port_on true r.2 x' /\
    (t_rx tr = Some buf -> map (w_mem x') (seqZ buf (t_n tr)) = r.1)) (run_transfer spip tr x).
Proof.
  intros Hn [Hr ((c & Hc & Hb) & Hm & Hd)] Htx Hrx r. destruct (config_ok c Hc) as [Hsz Hcb _ _].
  destruct buf_ok as (B1 & B2 & B3 & B4).
  assert (valid c tr) as Hv.
  { split; [done|naive_solver lia|naive_solver lia|]. unfold buffers_apart. rewrite Hsz. intros a Ha Ha'.
    destruct Htx as [E|[E E']], Hrx as [F|F]; try congruence; rewrite E, F in *; cbn in Ha, Ha'; lia. }
  assert (answers p c tr (w_mem x) (w_dev x) = r) as Ea.
  { unfold answers, r. rewrite Hsz, Hd, (xchg_all_ext _ _ _ xchg_frame). f_equal.
    unfold tx_frames. destruct Htx as [-> |[-> _]]; cbn [load Z.eqb Pos.eqb].
    - by rewrite Hm.
    - replace (seqZ buf (t_n tr)) with (seqZ (buf + 0) (t_n tr)) by by rewrite Z.add_0_r. rewrite <-fmap_add_seqZ. unfold fmap. cbn. rewrite map_map.
      apply map_ext. intros i. by rewrite Z.mul_1_r. }
  assert (Forall (fun b => 0 <= b < 256) r.1 /\ length r.1 = Z.to_nat (t_n tr)) as [Hby Hlen].
  { split.
    - unfold r. generalize (match t_tx tr with Some _ => map (w_mem x) (seqZ buf (t_n tr)) | None => repeat 255 (Z.to_nat (t_n tr)) end).
      intros l. clear -xchg_byte. revert v. induction l as [|b l IH]; intros v; cbn; [done|]. constructor; [apply xchg_byte|apply IH].
    - unfold r. rewrite xchg_all_length. destruct (t_tx tr); [by rewrite length_map, length_seqZ|by rewrite repeat_length]. }
  eapply ototal_mono; [by apply (transfer_total spip p own idle J t ml port_p hw_ok not_idle c tr x)|].
  intros [] x' (Hr' & Hb' & Hm' & Hd'). rewrite Ea, Hsz in *. split; [split; [done|split_and!]|].
  - exists c. by split.
  - rewrite Hm' by by left. rewrite <-Hm. destruct Hrx as [-> | ->]; cbn [rx_store].
    + by rewrite fold_store_out.
    + apply store_all_out. lia.
  - done.
  - intros E. rewrite E in Hm'. cbn [rx_store] in Hm'.
    rewrite (map_ext_in _ (store_all 1 buf r.1 (w_mem x))).
    + replace (t_n tr) with (Z.of_nat (length r.1)) by lia. rewrite store_all_load. by apply map_bytes.
    + intros a Ha%list_elem_of_In%elem_of_seqZ. apply Hm'. right. lia.
Qed.

Lemma spi_port_ok : @SpiPortOK (spiw D) D _ (spi_port buf) G R port_off port_on port_locked xchg sel mc.
Proof.
  split; cbn [sp_kernel sp_start sp_stop sp_select sp_unselect sp_ignore sp_send sp_receive spi_port].
  - intros c b v x Hc [Hr ((c' & Hc' & Hb) & Hm & Hd)].
    eapply ototal_mono; [apply (spiStart_total spip p own idle J t ml port_p c x Hr)|].
    + destruct b; [right|left]; eauto.
    + intros [] x' (Hr' & Hb' & Hm' & Hd'). split; [done|]. split_and!; [by exists c|rewrite Hm'; [done|by left]|congruence].
  - intros c v x Hc (Hr & Hb & Hm & Hd).
    eapply ototal_mono; [apply (spiStart_total spip p own idle J t ml port_p c x Hr); by left|].
    intros [] x' (Hr' & Hb' & Hm' & Hd'). split; [done|]. split_and!; [by exists c|rewrite Hm'; [done|by left]|congruence].
  - intros b v x [Hr ((c & Hc & Hb) & Hm & Hd)]. destruct (config_ok c Hc) as [_ _ E1 E2].
    eapply ototal_mono; [apply (spiStop_total spip p own idle J t ml port_p c x Hr)|].
    + destruct b; auto.
    + intros [] x' (Hr' & Hb' & Hm' & Hd'). split; [done|]. split_and!; [by exists c|rewrite Hm'; [done|by left]|].
      rewrite Hd', E1, E2, Hd. apply (sel_pad false).
  - intros v x [Hr ((c & Hc & Hb) & Hm & Hd)]. destruct (config_ok c Hc) as [_ _ E1 E2].
    eapply ototal_mono; [by apply (pad_total spip p own idle J t ml true c x Hr)|].
    intros [] x' (Hr' & Hb' & Hm' & Hd'). split; [done|]. split_and!; [by exists c|rewrite Hm'; [done|by left]|].
    rewrite Hd', E1, E2, Hd. apply (sel_pad true).
  - intros v x [Hr ((c & Hc & Hb) & Hm & Hd)]. destruct (config_ok c Hc) as [_ _ E1 E2].
    eapply ototal_mono; [by apply (pad_total spip p own idle J t ml false c x Hr)|].
    intros [] x' (Hr' & Hb' & Hm' & Hd'). split; [done|]. split_and!; [by exists c|rewrite Hm'; [done|by left]|].
    rewrite Hd', E1, E2, Hd. apply (sel_pad false).
  - intros n v x Hn Hx. eapply ototal_mono; [apply (port_transfer (T_ignore n) v x); auto|]. by intros [] x' [].
  - intros bytes v x Hn Hby [Hr (Hb & Hm & Hd)]. unfold port_send, bind, modify. cbn [obind].
    set (x1 := set_w_mem _ x). assert (port_on true v x1) as Hx1.
    { split; [done|]. split_and!; [|cbn; rewrite store_all_out; [done|lia]|done].
      destruct Hb as (c & Hc & Hb). exists c. split; [done|]. by destruct Hb. }
    eapply ototal_mono; [apply (port_transfer (T_send (Z.of_nat (length bytes)) buf) v x1); cbn; auto; lia|].
    intros [] x' [Hx' _]. cbn [t_tx t_n] in Hx'. unfold x1 in Hx'. cbn [w_mem set_w_mem] in Hx'.
    by rewrite store_all_load, map_bytes in Hx'.
  - intros n v x Hn Hx. unfold port_receive. eapply ototal_bind; [apply (port_transfer (T_receive n buf) v x); auto|].
    intros [] x' [Hx' E]. cbn. split; [by apply E|done].
  - intros time b v x Ht [Hr Hd]. apply (total_kc spip p own idle J t _ (fun _ s => Ust idle J t ml s));
      [by apply (device_thread b v)|by apply chThdSleep_safe|apply rounds_free_thd_sleep|].
    intros [] x' Hr' Hk. split; [done|]. by apply (keeps_device _ _ x).
  - intros A m a x Hm. rewrite (kc_done _ _ a (w_k x)) by done. by rewrite set_w_k_id.
  - intros b v x [Hr Hd]. destruct (chSysLock_rule idle J t ml _ Hr) as (s & E & _ & HS).
    exists (set_w_k s x). split; [by apply kc_done|]. split; [done|]. by apply device_k.
  - intros b v x [HS Hd]. apply (total_unlock spip p own idle J t ml); [by apply (device_thread b v)|done|].
    intros x' Hr' Hk. split; [done|]. by apply (keeps_device _ _ x).
Qed.
End Contract.
