(* ===== verification/MmcThm.v ===== *)
(** * Memory cards over SPI: main theorems

    The driver of [MmcSpi], on the SPI driver of [Spi], with a card of [MmcCard]
    on the bus: blocks are read and written as the card has them. *)
From S2P Require Import Prelude Monad Types Sched Threads Sys MMCSD Sdc Dma Spi.
From S2P Require Import Inv InvPrim InvSched Rules Wake TickOK Total Scenario DataThm SpiOK SpiThm Crc7 MmcSpi MmcCard MmcOK MmcConn MmcBus.

(** ** Whole transfers, on any bus that keeps the contract *)

(** The driver knows how the card counts, and no address is too big. *)
Definition addressed (ci : card_info) (d : MMCDriver) : Prop :=
  mmc_block_addresses d = ci_hc ci /\ if ci_hc ci then ci_blocks ci <= 2^32 else ci_blocks ci <= 2^23.

(** The block of the card that a number means: byte addresses have 32 bits. *)
Definition card_block (ci : card_info) (blk : Z) : Z := if ci_hc ci then blk else blk mod 2^23.

Lemma card_block_id ci d blk : addressed ci d -> 0 <= blk < ci_blocks ci -> card_block ci blk = blk.
Proof. intros [_ Hb] Hr. unfold card_block. destruct (ci_hc ci); [done|]. apply Z.mod_small. lia. Qed.

Lemma address_block ci d blk :
  addressed ci d ->
  block_of ci (address d blk) = if card_block ci blk <? ci_blocks ci then Some (card_block ci blk) else None.
Proof.
  intros [E Hb]. unfold block_of, address, card_block. rewrite E. destruct (ci_hc ci); cbn [orb andb]; [done|].
  unfold MMCSD_BLOCK_SIZE, u32. change (2^32) with (2^23 * 512). rewrite Z.mul_mod_distr_r by lia.
  by rewrite Z.mod_mul, Z.div_mul by lia.
Qed.

Lemma store_blocks_out blocks : forall blk data b,
  b < blk \/ blk + Z.of_nat (length blocks) <= b -> store_blocks blk blocks data b = data b.
Proof.
  induction blocks as [|l blocks IH]; intros blk data b Hb; [done|]. cbn [store_blocks length] in *. rewrite IH by lia.
  by rewrite fn_insert_ne by lia.
Qed.

Lemma blocks_from_store blocks : forall blk data,
  blocks_from (store_blocks blk blocks data) blk (length blocks) = blocks.
Proof.
  induction blocks as [|l blocks IH]; intros blk data; [done|]. unfold blocks_from in *.
  rewrite seqZ_cons by (cbn; lia). cbn [map store_blocks]. f_equal.
  - rewrite store_blocks_out by lia. by rewrite fn_insert_eq.
  - change (Z.succ blk) with (blk + 1).
    replace (Z.pred (Z.of_nat (length (l :: blocks)))) with (Z.of_nat (length blocks)) by (cbn; lia). apply IH.
Qed.

Lemma store_blocks_ok blocks : forall blk data b,
  Forall block_ok blocks -> blk <= b < blk + Z.of_nat (length blocks) -> block_ok (store_blocks blk blocks data b).
Proof.
  intros blk data b HF Hb. pose proof (blocks_from_store blocks blk data) as E. rewrite <-E in HF.
  unfold blocks_from in HF. rewrite List.Forall_forall in HF. apply HF, in_map, list_elem_of_In, elem_of_seqZ. lia.
Qed.

Lemma back_to_ready d st : mmc_state d = BLK_READY -> set_mmc_state BLK_READY (set_mmc_state st d) = d.
Proof. intros <-. by destruct d. Qed.

Section Transfers.
Context {W : Type} `{Config} `{SpiPort W} {G : susp -> W -> Prop} {R : susp -> W -> W -> Prop} {ci : card_info}.
Context {off : card -> W -> Prop} {on locked : bool -> card -> W -> Prop} {mc : MMCConfig}.
Hypothesis port_ok : SpiPortOK G R off on locked (card_step ci) set_sel mc.
Variable rounds : nat.
Hypothesis delays : timely ci rounds.
Implicit Types (x : mmcw W) (d : MMCDriver) (c : card).
Abbreviation mtotal := (ototal (mG (G := G)) (mR (R := R))).
Abbreviation at_card := (at_bus (on := on)).

Variable d : MMCDriver.
Hypothesis config : mmc_config d = Some mc.
Hypothesis is_ready_d : mmc_state d = BLK_READY.
Hypothesis addr_ok : addressed ci d.

Lemma address_state st blk : address (set_mmc_state st d) blk = address d blk.
Proof. done. Qed.

(** The start of a transfer, of a card that is ready. *)
Lemma start_transfer_ok (st : blkstate_t) cmd md msg b data c startblk x :
  transfer_cmd cmd md -> parked rounds data c -> 0 <= startblk < 2^32 -> at_card b c d x ->
  mtotal (fun failed x' =>
      if card_block ci startblk <? ci_blocks ci
      then failed = CH_SUCCESS /\ exists c', card_in (md (card_block ci startblk)) data c' /\ cd_out c' = [] /\ at_card true c' (set_mmc_state st d) x'
      else failed = CH_FAILED /\ exists c', parked rounds data c' /\ at_card false c' d x')
    ((assert_blk is_ready msg ;;; set_mmc (set_mmc_state st) ;;; start_command rounds cmd startblk) x).
Proof.
  intros Ht Hp Hb Hx. unfold bind at 1. rewrite (assert_blk_ok port_ok) by (rewrite (proj2 Hx), is_ready_d; done).
  cbn [obind].
  eapply ototal_bind; [by apply (set_mmc_ok (set_mmc_state st) _ _ _ _ Hx)|]. intros [] x1 Hx1.
  eapply ototal_mono; [apply (start_command_ok port_ok (set_mmc_state st d) config (ti_ncr _ _ delays) rounds cmd md b data c startblk);
    [done..|lia|done]|].
  intros f x2. rewrite address_state, (address_block ci d) by done. destruct (card_block ci startblk <? ci_blocks ci); [done|].
  intros (-> & c' & (Hm & Hl & Hd & Hi) & Hx2). rewrite back_to_ready in Hx2 by done. split; [done|]. exists c'. split; [|done].
  split_and!; [done|lia|done|done].
Qed.

Lemma mmc_read_ok b data c startblk n x :
  parked rounds data c -> 0 <= startblk < 2^32 -> at_card b c d x ->
  (card_block ci startblk < ci_blocks ci -> card_block ci startblk + Z.of_nat n <= ci_blocks ci) ->
  (forall blk, card_block ci startblk <= blk < card_block ci startblk + Z.of_nat n -> block_ok (data blk)) ->
  mtotal (fun r x' =>
      if card_block ci startblk <? ci_blocks ci
      then r = (CH_SUCCESS, blocks_from data (card_block ci startblk) n) /\ exists c', parked rounds data c' /\ at_card true c' d x'
      else r = (CH_FAILED, []) /\ exists c', parked rounds data c' /\ at_card false c' d x')
    (mmc_read rounds startblk n x).
Proof.
  intros Hp Hs Hx Hn Hbl. unfold mmc_read, mmcStartSequentialRead.
  eapply ototal_bind; [apply (start_transfer_ok BLK_READING MMCSD_CMD_READ_MULTIPLE_BLOCK Reading _ b data c startblk x); [by left|done..]|].
  intros f x1. cbn beta. destruct (Z.ltb_spec (card_block ci startblk) (ci_blocks ci)) as [Hlt|]; [|by intros (-> & c1 & Hp1 & Hx1); cbn; eauto].
  intros (-> & c1 & Hc1 & Ho1 & Hx1). cbn iota.
  eapply ototal_bind; [apply (read_blocks_ok port_ok (set_mmc_state BLK_READING d) config (ti_nac _ _ delays) n (card_block ci startblk) data c1 x1); [done..|by apply Hn|done|done]|].
  intros r x2 (-> & c2 & blk2 & Hc2 & Hx2). cbn [fst snd]. cbn iota.
  eapply ototal_bind; [by apply (stop_read_ok port_ok (set_mmc_state BLK_READING d) config (ti_ncr _ _ delays) (ti_nac _ _ delays) rounds blk2 data c2 x2 (ti_stop _ _ delays) (ti_busy _ _ delays))|].
  intros r x3 (-> & c3 & Hp3 & Hx3). rewrite back_to_ready in Hx3 by done. cbn. eauto.
Qed.

Lemma mmc_write_ok b data c startblk blocks x :
  parked rounds data c -> 0 <= startblk < 2^32 -> at_card b c d x -> Forall block_ok blocks ->
  mtotal (fun r x' =>
      if card_block ci startblk <? ci_blocks ci
      then r = CH_SUCCESS /\ exists c', parked rounds (store_blocks (card_block ci startblk) blocks data) c' /\ at_card true c' d x'
      else r = CH_FAILED /\ exists c', parked rounds data c' /\ at_card false c' d x')
    (mmc_write rounds startblk blocks x).
Proof.
  intros Hp Hs Hx Hbl. unfold mmc_write, mmcStartSequentialWrite, or_failed at 1.
  eapply ototal_bind; [apply (start_transfer_ok BLK_WRITING MMCSD_CMD_WRITE_MULTIPLE_BLOCK Writing _ b data c startblk x); [by right|done..]|].
  intros f x1. cbn beta. destruct (Z.ltb_spec (card_block ci startblk) (ci_blocks ci)) as [Hlt|]; [|by intros (-> & c1 & Hp1 & Hx1); cbn; eauto].
  intros (-> & c1 & Hc1 & _ & Hx1). cbn iota. unfold or_failed.
  eapply ototal_bind; [by apply (write_blocks_ok port_ok (set_mmc_state BLK_WRITING d) config rounds blocks (card_block ci startblk) data c1 x1 (ti_busy _ _ delays))|].
  intros r x2 (-> & c2 & blk2 & Hc2 & Hx2). cbn iota.
  eapply ototal_mono; [by apply (stop_write_ok port_ok (set_mmc_state BLK_WRITING d) config rounds blk2 (store_blocks (card_block ci startblk) blocks data) c2 x2 (ti_busy _ _ delays))|].
  intros r x3 (-> & c3 & Hp3 & Hx3). rewrite back_to_ready in Hx3 by done. eauto.
Qed.

(** The card is idle when [mmcSync()] returns. *)
Lemma sync_ok d' data c x :
  mmc_config d' = Some mc -> parked rounds data c -> at_card true c d' x ->
  mtotal (fun _ x' => exists c', parked rounds data c' /\ at_card true c' d' x') (sync rounds x).
Proof.
  intros Hc' (Hm & Hl & Hd & Hi) Hx. unfold sync.
  eapply ototal_bind; [by apply (select_ok port_ok d' Hc' c)|]. intros [] x1 Hx1.
  eapply ototal_bind; [apply (wait_long_ok port_ok d' Hc' rounds (cd_out c) (set_sel true c))|].
  - split; [split_and!; try done|]; cbn; intros; congruence.
  - done.
  - exact Hx1.
  - intros [] x2 (l1 & l2 & E & Hx2).
    eapply ototal_mono; [by apply (unselect_ok port_ok d' Hc' _ _ Hx2)|]. intros [] x3 Hx3.
    eexists. split; [|exact Hx3]. split_and!; [done| |done|done]. cbn. rewrite E, length_app in Hl. lia.
Qed.

Lemma mmcSync_ok b data c x :
  parked rounds data c -> at_card b c d x ->
  mtotal (fun failed x' => failed = CH_SUCCESS /\ exists c', parked rounds data c' /\ at_card true c' d x') (mmcSync rounds x).
Proof.
  intros Hp Hx. unfold mmcSync, bind at 1, get_mmc, gets. cbn [obind]. rewrite (proj2 Hx), is_ready_d. cbn [is_ready].
  change (negb (is_ready BLK_READY)) with false. cbn iota. set (d1 := set_mmc_state BLK_SYNCING d).
  eapply ototal_bind; [by apply (set_mmc_ok (set_mmc_state BLK_SYNCING) _ _ _ _ Hx)|]. intros [] x1 Hx1.
  eapply ototal_bind; [by apply (start_ok port_ok d1 config mc_hscfg b c); [right|]|]. intros [] x2 Hx2.
  eapply ototal_bind; [by apply (sync_ok d1 data c)|]. intros [] x3 (c3 & Hp3 & Hx3).
  eapply ototal_bind; [by apply (set_mmc_ok (set_mmc_state BLK_READY) _ _ _ _ Hx3)|]. intros [] x4 Hx4.
  unfold d1 in Hx4. rewrite back_to_ready in Hx4 by done. cbn. eauto.
Qed.

Lemma mmcDisconnect_ok b data c x :
  parked rounds data c -> at_card b c d x ->
  mtotal (fun failed x' => failed = CH_SUCCESS /\
    exists c', parked rounds data c' /\ cd_sel c' = false /\ at_card false c' (set_mmc_state BLK_ACTIVE d) x') (mmcDisconnect rounds x).
Proof.
  intros Hp [Ho Ed]. destruct (pk_lock _ _ _ _ _ _ _ _ port_ok b c (m_w x) Ho) as (w & E & Hl).
  unfold mmcDisconnect, bind at 1, kern at 1, io. rewrite E, Ed. cbn [io_o obind].
  unfold bind at 1. rewrite (assert_blk_ok port_ok) by (cbn; by rewrite is_ready_d). cbn [obind].
  unfold bind at 1, get_mmc, gets. cbn [obind m_drv]. rewrite is_ready_d, bool_decide_eq_false_2 by done.
  unfold bind at 1, set_mmc at 1, modify. cbn [obind m_w m_drv]. set (d1 := set_mmc_state BLK_DISCONNECTING d).
  eapply (ototal_bind _ _ (fun _ x' => at_card b c d1 x')).
  { unfold kern. eapply ototal_mono; [by apply total_io, (pk_unlock _ _ _ _ _ _ _ _ port_ok b c)|]. by intros [] x' [? ?]. }
  intros [] x1 Hx1.
  eapply ototal_bind; [by apply (start_ok port_ok d1 config mc_hscfg b c); [right|]|]. intros [] x2 Hx2.
  eapply ototal_bind; [by apply (sync_ok d1 data c)|]. intros [] x3 (c3 & (M3 & L3 & D3 & I3) & Hx3).
  eapply ototal_bind; [by apply (stop_ok port_ok d1 config _ _ _ Hx3)|]. intros [] x4 Hx4.
  eapply ototal_bind; [by apply (set_mmc_ok (set_mmc_state BLK_ACTIVE) _ _ _ _ Hx4)|]. intros [] x5 Hx5.
  cbn. split; [done|]. by exists (set_sel false c3).
Qed.
End Transfers.

(** ** A card on an SPI bus *)

(** The bus, the configuration and the buffer of the driver, and a card whose
    delays are within what the driver waits for. *)
Record card_setup `{Config} `{SpiEnv card} `{SpiHw card} (ci : card_info) (rounds : nat) (p : port) (mc : MMCConfig)
    (buf : Z) (idle t : tid) : Prop := mkSetup {
  su_port : port_of (mc_spip mc) = Some p;
  su_hw : hw_law;
  su_thread : t <> idle;
  su_line : exists ss pad, card_config (mc_lscfg mc) ss pad /\ card_config (mc_hscfg mc) ss pad /\
    (forall b v, pad_write ss pad (negb b) v = set_sel b v);
  su_buf : 0 < buf /\ ~ (buf <= dummytx < buf + 2^16) /\ ~ (buf <= dummyrx < buf + 2^16) /\ dummyrx <> dummytx;
  su_frame : forall b v, frame (po_spi p) b v = card_step ci b v;
  su_timely : timely ci rounds
}.

Section Composed.
Context `{Config} `{SpiEnv card} `{SpiHw card} {ci : card_info} {rounds : nat} {p : port} {mc : MMCConfig} {buf : Z} {idle t : tid}.
Variables (J : kdata_t -> Prop) (ml : list mid).
Implicit Types (x : mmcw (spiw card)) (d : MMCDriver) (c : card).
#[local] Instance the_port : SpiPort (spiw card) := spi_port buf.

Local Abbreviation on := (port_on p mc idle J t ml).
Local Abbreviation off := (port_off p mc idle J t ml).
Local Abbreviation total := (ototal (mG (G := wgrd idle J)) (mR (R := wrely (mc_spip mc) p (card_mem buf) idle J t))).
Local Abbreviation with_card := (at_bus (on := on)).

Lemma setup_port : card_setup ci rounds p mc buf idle t ->
  SpiPortOK (wgrd idle J) (wrely (mc_spip mc) p (card_mem buf) idle J t) off on (port_locked p mc idle J t ml) (card_step ci) set_sel mc.
Proof.
  intros [S1 S2 S3 (ss & pad & L1 & L2 & L3) S5 S6 _]. apply (spi_port_ok p mc buf ss pad); try done.
  intros b v. unfold card_step. destruct (cd_sel v); cbn; [apply Z.mod_pos_bound|]; lia.
Qed.

(** C7: [mmcConnect()] identifies a card on an SPI bus.  From a driver that is
    started or connected, a card of either version that becomes ready within a
    hundred polls and whose CSD register has a capacity is connected: the
    function returns [CH_SUCCESS], whatever the other threads do while the bus
    ends each transfer, the driver is ready with both registers, the capacity, and block addresses if
    the card says so, and the card waits for transfers with its blocks as they
    were.  Otherwise it returns [CH_FAILED] with the driver active and the bus
    stopped. *)
Theorem mmc_connect i data c d n x :
  card_setup ci rounds p mc buf idle t -> 0 < MS2ST 10 < 2^32 ->
  register_bytes (ci_csd ci) -> register_bytes (ci_cid ci) ->
  (forall s, mmcsdGetCapacity (be_words (ci_csd ci)) s = Done n s) ->
  mmc_config d = Some mc -> active_or_ready (mmc_state d) = true -> cd_sel c = false -> idling rounds i data c ->
  (off c (m_w x) /\ m_drv x = d \/ exists b, with_card b c d x) ->
  total (fun failed x' => failed = negb ((ci_init ci <? 100)%nat && negb (n =? 0)) /\
      if failed
      then exists c' d', mmc_state d' = BLK_ACTIVE /\ mmc_config d' = Some mc /\ cd_data c' = data /\ with_card false c' d' x'
      else exists c', parked rounds data c' /\
        with_card true c' (mkMMC BLK_READY (be_words (ci_cid ci)) (be_words (ci_csd ci)) n (Some mc)
          (ci_v2 ci && ci_hc ci || mmc_block_addresses d)) x')
    (mmcConnect rounds x).
Proof.
  intros Hs Ht Hr1 Hr2 Hr3 Hc Hst Hsel Hi Hx. pose proof (setup_port Hs) as Hp.
  eapply ototal_mono; [by apply (mmcConnect_ok Hp rounds (su_timely _ _ _ _ _ _ _ Hs) Ht Hr1 Hr2 n Hr3 i data c d x)|].
  intros failed x' [E Hpost]. split; [done|]. destruct failed; [done|]. destruct Hpost as (c' & Hc' & Hx'). exists c'. split; [done|].
  match type of Hx' with at_bus _ _ ?d1 _ => match goal with |- with_card true c' ?d2 x' => assert (d1 = d2) as <-; [|done] end end.
  rewrite <-Hc. unfold registers, detected. destruct d, (ci_v2 ci && ci_hc ci); done.
Qed.

(** C16: [mmc_read()] returns the blocks of the card.  From a ready driver, for a
    number that means a block of the card and at most as many blocks as there
    are from it, the function returns [CH_SUCCESS] and the blocks in their
    order, whatever the other threads do while the bus ends each transfer; for
    a number that means a block past the end it returns [CH_FAILED].  On a card
    with block addresses a number means itself; on one with byte addresses it
    is taken modulo 2^23, as the address that is sent has 32 bits.  Either way
    the driver is ready as before and the blocks of the card are as they were. *)
Theorem mmc_read_blocks b data c d startblk n x :
  card_setup ci rounds p mc buf idle t -> mmc_config d = Some mc -> mmc_state d = BLK_READY -> addressed ci d ->
  parked rounds data c -> with_card b c d x ->
  0 <= startblk < 2^32 ->
  let blk := if ci_hc ci then startblk else startblk mod 2^23 in
  (blk < ci_blocks ci -> blk + Z.of_nat n <= ci_blocks ci) ->
  (forall k, blk <= k < blk + Z.of_nat n -> block_ok (data k)) ->
  total (fun r x' =>
      if blk <? ci_blocks ci
      then r = (CH_SUCCESS, map data (seqZ blk (Z.of_nat n))) /\ exists c', parked rounds data c' /\ with_card true c' d x'
      else r = (CH_FAILED, []) /\ exists c', parked rounds data c' /\ with_card false c' d x')
    (mmc_read rounds startblk n x).
Proof.
  intros Hs Hc Hst Ha Hp Hx Hr blk Hn Hbl.
  by apply (mmc_read_ok (setup_port Hs) rounds (su_timely _ _ _ _ _ _ _ Hs) d Hc Hst Ha b data c startblk n x).
Qed.

(** C5: What [mmc_write()] writes, [mmc_read()] reads: blocks written from a
    block of the card on are returned by a read of the same place, and every
    other block of the card is as before. *)
Theorem mmc_write_read b data c d startblk blocks x :
  card_setup ci rounds p mc buf idle t -> mmc_config d = Some mc -> mmc_state d = BLK_READY -> addressed ci d ->
  parked rounds data c -> with_card b c d x ->
  0 <= startblk < ci_blocks ci -> startblk + Z.of_nat (length blocks) <= ci_blocks ci -> Forall block_ok blocks ->
  total (fun r x' => r = (CH_SUCCESS, (CH_SUCCESS, blocks)) /\
      exists c' data', parked rounds data' c' /\ with_card true c' d x' /\
        forall blk, ~ (startblk <= blk < startblk + Z.of_nat (length blocks)) -> data' blk = data blk)
    ((let! w := mmc_write rounds startblk blocks in
      let! r := mmc_read rounds startblk (length blocks) in mret' (w, r)) x).
Proof.
  intros Hs Hc Hst Ha Hp Hx Hb Hn Hbl. pose proof (setup_port Hs) as Hport. pose proof (su_timely _ _ _ _ _ _ _ Hs) as Hti.
  assert (0 <= startblk < 2^32) as Hr by (destruct Ha as [_ Ha]; destruct (ci_hc ci); lia).
  pose proof (card_block_id ci d startblk Ha Hb) as Ec.
  eapply ototal_bind; [by apply (mmc_write_ok Hport rounds Hti d Hc Hst Ha b data c startblk blocks x)|].
  intros w x1. rewrite Ec, (proj2 (Z.ltb_lt _ _)) by lia. intros (-> & c1 & Hp1 & Hx1).
  eapply ototal_bind; [apply (mmc_read_ok Hport rounds Hti d Hc Hst Ha true _ c1 startblk (length blocks) x1 Hp1 Hr Hx1); rewrite Ec; [done|]|].
  { intros blk Hblk. by apply store_blocks_ok. }
  intros r x2. rewrite Ec, (proj2 (Z.ltb_lt _ _)) by lia. intros (-> & c2 & Hp2 & Hx2). cbn.
  rewrite blocks_from_store. split; [done|]. exists c2, (store_blocks startblk blocks data). split_and!; [done..|].
  intros blk Hout. apply store_blocks_out. lia.
Qed.

(** [mmcSync()] and [mmcDisconnect()] wait until the card is idle and
    return [CH_SUCCESS]; the blocks of the card are as they were.  After
    [mmcDisconnect()] the driver is active, the bus stopped and the card not
    selected. *)
Theorem mmc_sync_disconnect b data c d x :
  card_setup ci rounds p mc buf idle t -> mmc_config d = Some mc -> mmc_state d = BLK_READY ->
  parked rounds data c -> with_card b c d x ->
  total (fun failed x' => failed = CH_SUCCESS /\ exists c', parked rounds data c' /\ with_card true c' d x') (mmcSync rounds x) /\
  total (fun failed x' => failed = CH_SUCCESS /\
      exists c', parked rounds data c' /\ cd_sel c' = false /\ with_card false c' (set_mmc_state BLK_ACTIVE d) x')
    (mmcDisconnect rounds x).
Proof.
  intros Hs Hc Hst Hp Hx. split.
  - by apply (mmcSync_ok (setup_port Hs) rounds d Hc Hst b data c).
  - by apply (mmcDisconnect_ok (setup_port Hs) rounds d Hc Hst b data c).
Qed.
End Composed.

(** ** An example

    A card of version 2 with block addresses on SPI1, ready after two polls. *)
#[local] Existing Instance app_config.
Definition demo_info : card_info :=
  mkInfo true true 15523840 2 [0x40; 0; 0; 0; 0; 0; 0; 0; 0x3B; 0x37; 0; 0; 0; 0; 0; 0] (repeat 7 16)
    (fun _ => 1%nat) (fun k => (k mod 5)%nat) (fun k => (k mod 3)%nat) (fun _ => []) (fun cmd => negb (cmd =? MMCSD_CMD_STOP_TRANSMISSION)).
#[local] Instance card_env : SpiEnv card := {|
  pad_write := fun port pad level v => if (port =? 1) && (pad =? 4) then set_sel (negb level) v else v;
  spi_dr_write := fun _ _ v => v;
  spi_sr_read := fun _ v => (SPI_SR_RXNE, v);
  spi_dr_read := fun _ v => (0, v);
  dummytx := 0x1000;
  dummyrx := 0x1002;
  spi_callback := fun _ _ => mret' tt;
  dma_client := fun _ _ _ => mret' tt
|}.
#[local] Instance card_hw : SpiHw card := stream_hw (fun _ => card_step demo_info).

Definition demo_port : port := mkPort SPI1 8 11 3 3.
Definition demo_mmc : MMCConfig := mkMMCConfig SPID1 (mkSPIConfig None 1 4 0x38) (mkSPIConfig None 1 4 0).
Definition demo_buf : Z := 0x2000.
(** Every byte of a block is its number. *)
Definition demo_data (blk : Z) : list Z := repeat (u8 blk) 512.
Definition demo_card (n : nat) : card := mkCard false [] [] Tran demo_data (mkIdent n false) 0.
Definition demo_driver (st : blkstate_t) : MMCDriver := mkMMC st [] [] 0 (Some demo_mmc) true.
(** The bus is stopped; [oc] is its last configuration. *)
Definition demo_world (oc : option SPIConfig) (st : blkstate_t) (n : nat) : mmcw (spiw card) :=
  mkMW (mkW (sc_state (demo_spi 1 THD_STATE_READY THD_STATE_CURRENT))
          (fun _ => mkSPI SPI_STOP oc None 0 SPI1 8 11 (rx_mode 3) (tx_mode 3))
          (fun _ => mkSpiRegs 0 0) (fun _ => false) dma_reset (fun a => if a =? 0x1000 then 0xFF else 0) (demo_card n))
    (demo_driver st).

Lemma demo_setup : card_setup demo_info 8 demo_port demo_mmc demo_buf 0 1.
Proof.
  split; try done.
  - apply stream_hw_law.
  - exists 1, 4. split_and!; try done. by intros [].
  - cbn. unfold demo_buf. lia.
  - split; [intros k; cbn [ci_ncr ci_nac ci_busy demo_info]..|done].
    + lia.
    + pose proof (Nat.mod_upper_bound k 5). unfold MMC_WAIT_DATA. lia.
    + pose proof (Nat.mod_upper_bound k 3). lia.
Qed.

Lemma demo_running oc st n : running 0 (fun _ => True) 1 [] (m_w (demo_world oc st n)).
Proof. apply sc_Ust; try done; (apply (bool_decide_unpack _); by vm_compute). Qed.

Lemma demo_stopped_bus oc st n : bus_stopped SPID1 demo_port oc (m_w (demo_world oc st n)).
Proof. split; try done. apply dma_reset_ok. Qed.

Lemma demo_on st n :
  at_bus (on := port_on demo_port demo_mmc 0 (fun _ => True) 1 []) false (demo_card n) (demo_driver st)
    (demo_world (Some (mc_hscfg demo_mmc)) st n).
Proof.
  split; [|done]. split; [apply demo_running|]. split_and!; [|done..].
  exists (mc_hscfg demo_mmc). split; [by right|apply demo_stopped_bus].
Qed.

Local Abbreviation demo_total :=
  (ototal (mG (G := wgrd 0 (fun _ => True))) (mR (R := wrely SPID1 demo_port (card_mem demo_buf) 0 (fun _ => True) 1))).

Lemma mmc_connect_witness :
  demo_total (fun failed x' => failed = CH_SUCCESS /\ mmc_state (m_drv x') = BLK_READY /\
      mmc_capacity (m_drv x') = 15523840 /\ mmc_block_addresses (m_drv x') = true)
    (@mmcConnect app_config _ (spi_port demo_buf) 8 (demo_world None BLK_ACTIVE 0)).
Proof.
  eapply ototal_mono; [apply (@mmc_connect app_config card_env card_hw demo_info 8 demo_port demo_mmc demo_buf 0 1 (fun _ => True) []
    (mkIdent 0 false) demo_data (demo_card 0) (demo_driver BLK_ACTIVE) 15523840)|].
  - exact demo_setup.
  - split; reflexivity.
  - split; [reflexivity|]. apply (bool_decide_unpack _). by vm_compute.
  - split; [reflexivity|]. apply (bool_decide_unpack _). by vm_compute.
  - intros s. reflexivity.
  - reflexivity.
  - reflexivity.
  - reflexivity.
  - split_and!; try done. cbn. lia.
  - left. split; [|reflexivity]. split; [apply demo_running|]. split; [exists None; apply demo_stopped_bus|]. by split.
  - intros failed x' [-> (c' & _ & [_ E])]. by rewrite E.
Defined.

Lemma demo_addressed st : addressed demo_info (demo_driver st).
Proof. by split. Qed.

Lemma demo_parked : parked 8 demo_data (demo_card 0).
Proof. split_and!; try done. cbn. lia. Qed.

Lemma demo_block blk : block_ok (demo_data blk).
Proof.
  split; [apply repeat_length|]. unfold demo_data. generalize 512%nat. induction n as [|n IH]; cbn; constructor; [|done].
  apply Z.mod_pos_bound. lia.
Qed.

Lemma mmc_read_blocks_witness :
  demo_total (fun r x' => r = (CH_SUCCESS, [repeat 3 512; repeat 4 512]) /\ mmc_state (m_drv x') = BLK_READY)
    (@mmc_read app_config _ (spi_port demo_buf) 8 3 2 (demo_world (Some (mc_hscfg demo_mmc)) BLK_READY 0)).
Proof.
  eapply ototal_mono; [apply (@mmc_read_blocks app_config card_env card_hw demo_info 8 demo_port demo_mmc demo_buf 0 1 (fun _ => True) []
    false demo_data (demo_card 0) (demo_driver BLK_READY) 3 2)|].
  - exact demo_setup.
  - reflexivity.
  - reflexivity.
  - apply demo_addressed.
  - exact demo_parked.
  - apply demo_on.
  - cbn. lia.
  - cbn. lia.
  - intros blk _. apply demo_block.
  - intros r x' [-> (c' & _ & [_ E])]. by rewrite E.
Defined.

Lemma mmc_write_read_witness :
  demo_total (fun r x' => r = (CH_SUCCESS, (CH_SUCCESS, [repeat 9 512])))
    ((let! w := @mmc_write app_config _ (spi_port demo_buf) 8 5 [repeat 9 512] in
      let! r := @mmc_read app_config _ (spi_port demo_buf) 8 5 1 in mret' (w, r)) (demo_world (Some (mc_hscfg demo_mmc)) BLK_READY 0)).
Proof.
  eapply ototal_mono; [apply (@mmc_write_read app_config card_env card_hw demo_info 8 demo_port demo_mmc demo_buf 0 1 (fun _ => True) []
    false demo_data (demo_card 0) (demo_driver BLK_READY) 5 [repeat 9 512])|].
  - exact demo_setup.
  - reflexivity.
  - reflexivity.
  - apply demo_addressed.
  - exact demo_parked.
  - apply demo_on.
  - cbn. lia.
  - cbn. lia.
  - constructor; [apply (demo_block 9)|constructor].
  - by intros r x' [-> _].
Defined.

Lemma mmc_sync_disconnect_witness :
  demo_total (fun failed x' => failed = CH_SUCCESS /\ mmc_state (m_drv x') = BLK_ACTIVE)
    (@mmcDisconnect app_config _ (spi_port demo_buf) 8 (demo_world (Some (mc_hscfg demo_mmc)) BLK_READY 0)).
Proof.
  eapply ototal_mono; [apply (@mmc_sync_disconnect app_config card_env card_hw demo_info 8 demo_port demo_mmc demo_buf 0 1 (fun _ => True) []
    false demo_data (demo_card 0) (demo_driver BLK_READY))|].
  - exact demo_setup.
  - reflexivity.
  - reflexivity.
  - exact demo_parked.
  - apply demo_on.
  - intros failed x' (-> & c' & _ & _ & [_ E]). by rewrite E.
Defined.

(** ** Corner cases *)

(** [mmcStop()] of a driver that never was connected stops a bus that never was
    started. *)
Theorem mmc_stop_unconnected :
  @mmcStop app_config _ (spi_port demo_buf) (demo_world None BLK_ACTIVE 0) = Stuck (Fault "config").
Proof. reflexivity. Qed.

(** [mmcErase()] does not start the bus: after a transfer that failed, which
    leaves it stopped with the driver ready, the assertion of the SPI driver
    fails. *)
Theorem mmc_erase_stopped :
  @mmcErase debug_config _ (@spi_port debug_config _ _ demo_buf) 8 0 1 (demo_world (Some (mc_hscfg demo_mmc)) BLK_READY 0) =
    Stuck (Panic "spiSelect(), #1").
Proof. reflexivity. Qed.

(** The byte offset of a block has 32 bits: for a card without block addresses
    the block [2^23] is block 0 again. *)
Theorem mmc_address_wraps d : mmc_block_addresses d = false -> address d (2^23) = address d 0.
Proof. unfold address. by intros ->. Qed.
